(* ===== verification/_CoqProject ===== *)
-Q . S2P
Prelude.v
Bytes.v
Buffer.v
PortAllocator.v
CStrings.v
StringUtils.v
Url.v
Separator.v
G711.v
Samples.v
SamplesExact.v
TextTools.v
TextToolsExact.v
DateText.v
DateExact.v
XmlText.v
XmlTextExact.v
XmlTree.v
XmlChains.v
XmlLinks.v
XmlCuts.v
XmlTreeExact.v
XmlCutExact.v
Crc32.v
Stun.v
StunBuild.v
StunLookup.v
Queue.v
QueueWake.v
Dtmf.v
DtmfLists.v
DigitMachine.v
DigitMatch.v
Utf8.v
Utf8Text.v
Acl.v
AclNets.v
Hashtable.v
EventTypes.v
Event.v
EventVars.v
HashDelete.v
EventText.v
EventBind.v
TextChecks.v
Expand.v
ExpandText.v
Caller.v
Variables.v
Profiles.v
VariableMaps.v
ProfileFields.v
Scheduler.v
SchedulerSafe.v
ChannelTypes.v
Channel.v
StateMachine.v
SessionLife.v
SessionEnd.v
HandlerOrder.v
QuietSession.v
JbSort.v
JitterBuffer.v
