(* ===== verification/Prelude.v ===== *)
(** * The FreeSWITCH core library, verified

    FreeSWITCH is a telephony server; this is its 1.6.19 core for Android, a C
    library of some 128,000 lines under freeswitch-1.6.19/src (paths below are
    relative to freeswitch-1.6.19).  The development models the core's own data
    structures and the objects that calls live in, and proves them correct or
    states exactly where they are not.

    ** The program's parts

    A call leg is a session with a channel: the channel (src/switch_channel.c)
    keeps the state of the call and is driven by the session's thread and by any
    other thread that holds it.  Its media arrive by RTP (with STUN packets,
    src/switch_stun.c, to find the way through address translation) on ports that
    the port allocator (src/switch_core_port_allocator.c) hands out, are put in
    order by
    the jitter buffer (src/switch_jitterbuffer.c), which finds its packets
    through integer hash tables (src/switch_core_hash.c on
    src/switch_hashtable.c) and raises flags of the channel, and wait in byte
    buffers (src/switch_buffer.c) between codecs, files and the network.  The
    session's thread (src/switch_core_state_machine.c) runs the handlers of the
    states that the channel goes through and executes the applications of its
    dialplan.  Channels, handlers and applications keep their variables in
    events (src/switch_event.c), tell each other about what happens by events
    that are delivered to bound listeners, and have work done later by the task
    scheduler (src/switch_scheduler.c).  Digits of a call wait in a queue of its
    channel (on libs/apr-util/misc/apr_queue.c through src/switch_apr.c) and are
    compared with codes by digit machines (src/switch_ivr_async.c).  A channel's
    variables and its caller profile (src/switch_caller.c) are filled into texts
    by its expansion of references.  Text is encoded, checked, separated and
    compared with times by src/switch_utils.c and src/switch_utf8.c, which also
    decide by lists of networks who has access; audio is converted and mixed by
    src/switch_resample.c and src/g711.c.  Configuration, dialplan and directory
    are trees of XML tags (src/switch_xml.c).

    ** The files

    - [Prelude]: machine integers at their width with the wrap-around written
      out ([size_t], [long] and pointers have 32 bits, as on the ARM target),
      flag macros, [switch_status], the result type [outcome] (a value, a failed
      assertion, undefined behaviour), record update, shared list lemmas.
    - [Buffer]: switch_buffer.c.  The record [switch_buffer] is the C structure
      with its storage as a block of bytes and [head] as an offset; every load
      and store is checked against the block.  Contract: a queue of bytes
      ([qstep]).
    - [PortAllocator]: switch_core_port_allocator.c.  One turn of the request
      loop is [request_turn]; random numbers and the verdicts of the socket tests
      are its argument.  [clients] is the reachability relation of an allocator
      and its users.
    - [CStrings]: strcasecmp, atoi and zstr on strings.
    - [StringUtils], [Url], [Separator]: switch_utils.c and switch_utils.h:
      numbers, truth values, RFC 2833 characters and base 64; URL encoding, with
      [sscanf] as a parameter; escapes and the tokenizers of argument lists.
    - [TextTools], [DateText]: more of switch_utils.c: quoting for shells and XML,
      searching, numbers, addresses; times, dates and days, and the conditions
      on them of switch_xml.c.  [TextToolsExact] and [DateExact] have the theorems.
    - [XmlText], [XmlTextExact]: switch_xml.c on the text of tags and attributes,
      encoded and decoded, with entities.
    - [XmlTree]: switch_xml.c on tags, which point to each other in a store;
      [XmlChains] has the loops over chains of tags, [XmlLinks] the shape [linked]
      of the tags of one parent and what inserting does to it, [XmlCuts] what
      cutting does; [XmlTreeExact] and [XmlCutExact] have the theorems.
    - [TextChecks]: the checks and cleanings of switch_utils.h and switch_utils.c
      that the expansion and the profiles use.
    - [Utf8], [Utf8Text]: switch_utf8.c, its conversions between bytes and code
      points and its escapes, and what they give.
    - [G711]: companding of samples, g711.c and include/g711.h.
    - [Samples], [SamplesExact]: switch_resample.c, with a model of floating point
      as rounded dyadic numbers.
    - [Acl], [AclNets]: the network lists of switch_utils.c and their
      configuration in switch_core.c, and what addresses they cover.
    - [Queue], [QueueWake]: the bounded queue of apr_queue.c and its wrappers of
      switch_apr.c: threads that wait, the signals between them as steps, and the
      contract as one bounded list.
    - [Dtmf], [DtmfLists]: the digits of a channel, switch_channel.c, with digits in
      a heap, and the contract as two lists; the bounds of lengths of switch_core.c.
    - [DigitMachine], [DigitMatch]: the digit machines of switch_ivr_async.c, with
      realms and bindings in a pool and callbacks as functions of the machine; the
      comparison against a reference by prefixes.
    - [Bytes]: numbers as bytes of the little-endian target and memory as a list of
      bytes with bounds-checked accesses.
    - [Crc32], [Stun], [StunBuild], [StunLookup]: switch_stun.c and
      include/switch_stun.h: the check sum, the parser, the functions that append
      and read attributes, the look-up of the own address.  Packets live in
      buffers and attributes are offsets into them; [packet] and [attr] are what
      they mean, [wire_packet] and [host_packet] their bytes before and after
      parsing.
    - [Hashtable]: switch_hashtable.c and switch_core_hash.c.  Buckets are lists
      of entries, the key type comes with its hash and equality ([HashKey], with
      laws [HashKeyOk]; integer, string and nocase keys are instances).
      [IntHash] and [IntHashOk] are what users of integer tables rely on, and
      [inthash_ok] discharges it.
    - [EventTypes], [Event]: switch_event.c on one event: its headers as a linked
      list with numbered nodes and its [last_header], arrays, copies and
      serialization.  [EventVars] proves that an event with unique headers is an
      ordered map, [EventText] that serialization gives the reference text.
    - [HashDelete]: the bulk deletion of switch_core_hash.c, which keeps the keys
      to delete as headers of an event.
    - [EventBind]: switch_event.c's bindings, matching and delivery; the contract
      is one list of bindings, the newest first.
    - [Expand], [ExpandText]: the expansion of references of switch_channel.c and of
      switch_event.c, in a buffer that grows by realloc; lookups, calls of the API
      and the permission lists are arguments.
    - [Caller], [Variables], [Profiles]: switch_caller.c and the profiles, variables,
      scopes and exports of switch_channel.c; [VariableMaps] and [ProfileFields]
      show what the variables and the fields of a profile are.
    - [Scheduler]: switch_scheduler.c as steps of the scheduler's thread, of the
      threads of tasks and of other threads; [SchedulerSafe] has the theorems.
    - [ChannelTypes]: the enumerations of include/switch_types.h with their
      numbers, the tables of names of switch_channel.c and the functions that
      print and parse them.
    - [Channel]: switch_channel.c.  The record [switch_channel] has the fields
      the modelled operations use; calls out of the channel (events, variables,
      signals to the session) are collected in [out]; clocks, trylocks and other
      objects are read from [env].  [step] interleaves the operations of several
      threads; a hangup is broken up at every access to the state and the cause
      that is not under the mutex, and a call state at its test.
    - [StateMachine]: switch_core_state_machine.c and the core's handler table of
      switch_core.c, as a monad over the session ([M]): a [world] answers the
      calls out of the file and may change the session as other threads do, at
      every access to shared state and within the calls ([inner]), and
      the [log] is the list of these calls.  [SessionLife] follows runs wherever they
      are cut off and shows that the endpoint's hangup handler is called
      once, [SessionEnd] that a session that was hung up ends, [HandlerOrder]
      that handlers are called in the order of a reference definition, and
      [QuietSession] what a session does when nobody interferes.
    - [JbSort]: the merge sort of linked lists in switch_jitterbuffer.c, for any
      comparison.
    - [JitterBuffer]: the rest of switch_jitterbuffer.c, over the interface
      [IntHash].  Nodes live in a pool and the list of nodes is the chain of
      their [next] pointers; numbers are in network byte order as in packets.

    ** What the theorems show

    - Buffers: refinement of a byte queue over all runs ([buffer_refines_queue]),
      exact results of writes and looping reads, first in first out, creation;
      [max_len] is not enforced ([buffer_max_len_not_enforced]).
    - Ports: exclusive use and exact refusal over all histories
      ([port_exclusive]), release, termination of requests when tests pass and
      non-termination when they keep failing, modes that leave the range.
    - Hash tables: map behaviour through growth and failed allocations
      ([hashtable_map], [hashtable_growth]), iteration, bulk deletion ([delete_multi_exact]) and the
      keys that it forgets ([delete_multi_forgets]), refinement
      of finite maps by integer tables ([inthash_refines_map]).
    - Names: round trips of causes, states, call states and events.
    - Text: base 64 against RFC 4648 and back ([b64_encode_exact],
      [b64_roundtrip]), URL encoding and back ([url_roundtrip]), fields that are
      escaped and separated ([separate_roundtrip]), and the text that makes the
      tokenizer run over its end ([separate_escape_at_end]); UTF-8 and back
      ([utf8_roundtrip], [utf8_escape_roundtrip]); a shell reads a quoted argument
      as it was ([shell_quote_exact]), entities ([amp_roundtrip]), replacing
      ([replace_exact]) and searching ([stristr_first]); times of day, days and
      numbers are met as their lists say ([tod_exact], [dow_exact],
      [number_exact]), and conditions when all their parts are
      ([datetime_exact]).
    - XML: encoded text is decoded to what it was ([xml_text_roundtrip]); inserting
      ([xml_insert_exact]) and cutting ([xml_cut_exact]) keep the three chains of
      the tags of a parent, where the code can, and what is looked up is what the
      order of the text has ([xml_lookup_exact]); defects of both as computations.
    - Access: the longest prefix decides ([acl_longest_prefix]), a network covers
      the addresses that share its bits ([acl_cidr_exact]) and the lists for
      private networks cover those ([acl_private_nets]).
    - Queues: under every interleaving the queue is one list ([queue_refines]) and
      no waiting thread is forgotten ([queue_no_lost_wakeup]), unless a timed wait
      takes a signal and ends by its time ([signal_lost_to_timeout]).
    - Digits: a channel's digits are two bounded lists in a heap without use after
      free ([dtmf_refines]), strings of digits come back
      ([dtmf_string_roundtrip]), lengths are bounded ([dtmf_length_bounds]); digit
      machines stay within their buffers ([dmachine_safe]), compare as the
      reference ([dmachine_match_exact]) and find a code that is pressed
      ([dmachine_recognises]).
    - Variables: a stack of maps over a map ([variables_map]), exports reach the
      other leg ([export_transfers]), the expansion ends within its buffer
      ([expand_refines]), fills templates ([expand_template]) and leaves cleaned
      text alone ([expand_inert]); profiles hold no references of the caller's
      ([caller_profile_inert]), set what they are told to
      ([profile_var_exact]), are copied ([profile_dup_reads]), flipped back
      ([flip_cid_restores]), and cloned with the rest of their applications
      ([extension_clone_rest]).
    - Packets: the parser stays within four bytes behind whatever arrives
      ([stun_parse_safe]) and turns a well-formed packet into host order exactly
      ([stun_parse_exact]); what is built is what was meant and is parsed
      ([stun_roundtrip]); the address that a server sends is found
      ([stun_lookup_finds]); the check sum is the CRC-32 ([crc32_sliced]) and finds
      bursts of four bytes ([crc32_burst]); seven defects as computations.
    - Samples: accuracy and round trips of G.711 ([g711_accurate],
      [g711_roundtrip]); the volume in floating point is that of its decimal table
      but for one unit ([volume_scales]), merged audio can be taken out again
      ([merge_exact]), channels are added up and doubled in place ([mux_exact]),
      floating point and back ([samples_roundtrip]).
    - Events: refinement of an ordered map by any run on an event with unique
      headers ([event_vars_map]), exact copies ([event_dup_exact]) and texts
      ([event_serialize_exact]), delivery to the bindings in force
      ([event_delivery]).
    - Scheduler: under every interleaving no task is in two executions at once and
      the only reads of a freed task are those of the thread that added it, behind
      its unlock ([scheduler_safe], [adder_reads_freed]); deleted tasks are not started
      ([scheduler_deleted]).
    - Sessions: one call of the endpoint's hangup handler, wherever a run is cut off
      ([hangup_handler_once]), the end of sessions that were hung up
      ([session_ends]), the order and the vetoes of handlers
      ([state_macro_order]; a handler that takes itself out makes the walk skip one,
      [self_removal_skips]), execution of an extension ([extension_in_order]), the
      fate of a session that gets no instructions ([session_abandoned]).
    - Channels: under every interleaving one hangup at most is carried out
      ([hangup_once]) and a channel that was hung up stays so ([hangup_final]); the
      races that the unlocked accesses leave ([hangup_goes_back],
      [callstate_hangup_overwritten]); exact
      outcome of state changes; delivery of pending flags; recursive flags; hold
      records and times; handler lists and their overflow; bounds of waits;
      application flags.
    - Jitter buffer: the invariant over all operations, with totality of reads
      and retransmission requests ([jb_invariant]); delivery in order of streams
      written in any order, also where the numbers go round ([jb_reorders]), but
      not where they do so before the first read ([order_lost_at_wrap]); exact reads and write/find round trip
      of audio buffers; exact retransmission requests of video buffers; the sort;
      three defects as computations.

    Each property [C<n>] that has hypotheses is followed at the end of its file
    by a [_witness] that applies it to a concrete object; lemmas under [What the code
    does not do] compute defects on concrete inputs.

    ** Bounds and fuel

    The request loop of the port allocator consumes a list of draws, and five are
    enough when tests pass ([request_returns]).  The search for the next packet
    may start over after a drop; it gets two turns and ends within them
    ([next_by_seq_total]).  The walk over missing numbers starts over after each
    deletion; one turn more than there are entries is enough ([nack_loop_total]).
    The iterator loop gets one turn more than there are entries ([walk_all]), the
    sort as many passes as the list has nodes ([sort_nodes_sorted]).  Waits
    consume the list of what is seen at each look.
    The loop over state handlers may look once behind the last of thirty slots,
    and [fuel] is that many.  Runs of a session take the number of turns as an
    argument: two are enough after a hangup ([session_ends]) and 502 for an
    abandoned session ([session_abandoned]); the number of applications run in a
    state is bounded by the length of the extension.  Adding a header recurses
    into nested arrays, which get shorter ([base_add_enough]).  Steps of the
    scheduler are consumed from a list of actions.  The STUN parser gets as many
    turns as the packet has bytes; where fuel runs out the result is [UB], which
    [stun_parse_safe] excludes.  Pushing a digit onto a full log takes the hundred
    turns of the code; taking and flushing digits one turn more than the queue's
    size; loops over a text one turn more than its length, of which every turn takes
    a character ([fields], [dow_loop], [replace_exact] for what is replaced).
    Expansion nests to the depth of 100 that the code allows, its scan
    takes a turn for each character and one, and its buffers stay below a gigabyte
    ([LIMIT]), beyond which sizes wrap.

    The loops over tags get one turn more than the store has tags, and [UB] where
    they run out, which the theorems exclude; decoding takes two turns for an
    encoded character ([decode_amp]).

    ** What is not modelled

    Mutexes appear as the granularity of steps, not as objects; the channel's
    interleavings take each critical section as one step, a hangup and a call
    state as one step for each access behind no mutex, and flags, call states and
    holding in any state of the work ([st_between]); the scheduler's keep
    the steps inside a critical section because threads of tasks do not take the mutex.  Memory
    pools never fail where the code does not test for it, and the release of
    memory is modelled only where a use after it is at stake (scheduler, ports,
    tables, digits).  Of the channel: answering and ringing, device records, the
    presence texts, and the media that its flags stand for.  Of the session: its
    codecs, media, message queues and threads; log messages.  Of the jitter buffer:
    debug output and functions that nothing calls; the floating-point miss rate is
    compared as integers, which is the same for the counts of a period.  Of events:
    brackets, JSON, XML and binary forms, dispatch queues, live arrays and event
    channels.  Of the utilities: reading lines from files, sockets, HTTP headers,
    mail, addresses of interfaces, frame buffers.  Of switch_xml.c the parser,
    the writer of whole trees, files, caches and bindings, and which texts of a tag
    were allocated; of switch_ivr_async.c all but the digit machines, of
    switch_resample.c the resampling library's handle.  Floating point has no
    infinities and no subnormal numbers: conversions of them are undefined in C.
    The rest of the core (media, RTP sockets, IVR applications, databases) is I/O and calls into third-party code, or needs these. *)
From stdpp Require Export base tactics list numbers option gmap.
From Stdlib Require Export ZArith Lia.

#[global] Set Default Proof Using "Type".
#[global] Open Scope Z_scope.

Declare Scope fs_scope.
Delimit Scope fs_scope with fs.
#[global] Open Scope fs_scope.

(** ** C integers: values in Z, wrap-around written out *)

Definition u8 (x : Z) : Z := x mod 2 ^ 8.
Definition u16 (x : Z) : Z := x mod 2 ^ 16.
Definition u32 (x : Z) : Z := x mod 2 ^ 32.
Definition u64 (x : Z) : Z := x mod 2 ^ 64.
Definition i16 (x : Z) : Z := (x + 2 ^ 15) mod 2 ^ 16 - 2 ^ 15.
Definition i32 (x : Z) : Z := (x + 2 ^ 31) mod 2 ^ 32 - 2 ^ 31.

Definition USHRT_MAX : Z := 65535.
Definition UINT_MAX : Z := 4294967295.

(** [switch_size_t] is [uintptr_t]; the build targets 32-bit ARM (env.sh). *)
Definition size_t (x : Z) : Z := x mod 2 ^ 32.

(** [ntohs], [htons], [ntohl] and [htonl] of the little-endian target. *)
Definition swap16 (x : Z) : Z := (x mod 256) * 256 + (x / 256) mod 256.
Definition swap32 (x : Z) : Z :=
  (x mod 256) * 16777216 + ((x / 256) mod 256) * 65536 + ((x / 65536) mod 256) * 256
    + (x / 16777216) mod 256.
Notation htons := swap16.
Notation ntohs := swap16.
Notation htonl := swap32.
Notation ntohl := swap32.

(** [switch_test_flag(obj, flag)] of switch_utils.h, as a truth value. *)
Definition test_flag (flags flag : Z) : bool := negb (Z.land flags flag =? 0).
(** [switch_set_flag] and [switch_clear_flag]. *)
Definition set_flag (flags flag : Z) : Z := Z.lor flags flag.
Definition clear_flag (flags flag : Z) : Z := Z.land flags (Z.lnot flag).

(** [switch_status_t] of switch_types.h. *)
Inductive switch_status :=
| SWITCH_STATUS_SUCCESS | SWITCH_STATUS_FALSE | SWITCH_STATUS_TIMEOUT
| SWITCH_STATUS_RESTART | SWITCH_STATUS_INTR | SWITCH_STATUS_NOTIMPL
| SWITCH_STATUS_MEMERR | SWITCH_STATUS_NOOP | SWITCH_STATUS_RESAMPLE
| SWITCH_STATUS_GENERR | SWITCH_STATUS_INUSE | SWITCH_STATUS_BREAK
| SWITCH_STATUS_SOCKERR | SWITCH_STATUS_MORE_DATA | SWITCH_STATUS_NOTFOUND
| SWITCH_STATUS_UNLOAD | SWITCH_STATUS_NOUNLOAD | SWITCH_STATUS_IGNORE
| SWITCH_STATUS_TOO_SMALL | SWITCH_STATUS_FOUND | SWITCH_STATUS_CONTINUE
| SWITCH_STATUS_TERM | SWITCH_STATUS_NOT_INITALIZED | SWITCH_STATUS_TOO_LATE
| SWITCH_STATUS_XBREAK | SWITCH_STATUS_WINBREAK.

#[export] Instance switch_status_eq_dec : EqDecision switch_status.
Proof. solve_decision. Defined.

(** ** Outcomes of a C function

    [Ok] is a normal return, [Assert] a failed [switch_assert] (the process
    aborts) and [UB] an access outside the memory the function may touch. *)

Inductive outcome (A : Type) : Type :=
| Ok (a : A)
| Assert
| UB.
Arguments Ok {A} a.
Arguments Assert {A}.
Arguments UB {A}.

#[export] Instance outcome_ret : MRet outcome := fun A a => Ok a.
#[export] Instance outcome_bind : MBind outcome := fun A B f m =>
  match m with Ok a => f a | Assert => Assert | UB => UB end.

(** The same with a pattern for the value. *)
Notation "'let*' p := m 'in' k" := (match m with Ok p => k | Assert => Assert | UB => UB end)
  (at level 200, p pattern, right associativity) : fs_scope.

Lemma outcome_bind_ok {A B} (f : A -> outcome B) m b :
  (m ≫= f) = Ok b <-> exists a, m = Ok a /\ f a = Ok b.
Proof. destruct m; simpl; naive_solver. Qed.

(** ** Record update

    [r <| f := v |>] is the record [r] with its field [f] set to [v].  A record
    joins the mechanism by an [Eta] instance that rebuilds it from its
    projections; the setter of each field is then found by [pattern]. *)

Class Eta (R : Type) := eta : R -> R.

Class Setter {R T} (proj : R -> T) := setter : T -> R -> R.

Ltac build_setter proj :=
  match type of proj with
  | ?R -> ?T =>
      let e := constr:(_ : Eta R) in
      let e := eval red in e in
      let f := constr:(fun (v : T) (r : R) => ltac:(
        let t := eval cbv beta in (e r) in
        let p := eval pattern (proj r) in t in
        match p with ?g _ => let b := eval cbv beta in (g v) in exact b end)) in
      exact f
  end.

#[export] Hint Extern 1 (Setter ?p) => build_setter p : typeclass_instances.

Definition upd {R T} (proj : R -> T) {s : Setter proj} (v : T) (r : R) : R := s v r.
#[global] Arguments upd {R T} proj {s} v r : simpl never.

Notation "r <| f := v |>" := (upd f v r)
  (at level 12, left associativity, f at next level, v at level 200,
   format "r  <| f  :=  v |>") : fs_scope.

(** [rupd] computes the projections of updated records. *)
Ltac is_proj p :=
  lazymatch p with
  | ?f ?A => lazymatch type of A with Type => is_proj f | Set => is_proj f end
  | _ => is_const p
  end.
Ltac rupd_goal :=
  match goal with
  | |- context [?p (@upd ?R ?T ?q ?s ?v ?r)] =>
      is_proj p;
      first [ progress change (p (@upd R T q s v r)) with v
            | progress change (p (@upd R T q s v r)) with (p r) ]
  end.
Ltac rupd_hyp :=
  match goal with
  | H : context [?p (@upd ?R ?T ?q ?s ?v ?r)] |- _ =>
      is_proj p;
      first [ progress change (p (@upd R T q s v r)) with v in H
            | progress change (p (@upd R T q s v r)) with (p r) in H ]
  end.
Ltac rupd := repeat rupd_goal; repeat rupd_hyp.

(** ** Automation *)

Create HintDb fs discriminated.

(** Arithmetic with the wrap-around functions unfolded to their quotients. *)
Ltac cint := unfold u8, u16, u32, u64, i32, size_t, USHRT_MAX, UINT_MAX in *;
  Z.div_mod_to_equations; lia.

(** Turn the boolean tests of the model into propositions. *)
Ltac btests :=
  repeat match goal with
  | H : _ && _ = true |- _ => apply andb_prop in H; destruct H
  | H : _ || _ = false |- _ => apply orb_false_elim in H; destruct H
  | H : negb _ = true |- _ => apply negb_true_iff in H
  | H : negb _ = false |- _ => apply negb_false_iff in H
  | H : (_ =? _) = true |- _ => apply Z.eqb_eq in H
  | H : (_ =? _) = false |- _ => apply Z.eqb_neq in H
  | H : (_ <? _) = true |- _ => apply Z.ltb_lt in H
  | H : (_ <? _) = false |- _ => apply Z.ltb_ge in H
  | H : (_ <=? _) = true |- _ => apply Z.leb_le in H
  | H : (_ <=? _) = false |- _ => apply Z.leb_gt in H
  | H : (_ >? _) = _ |- _ => rewrite Z.gtb_ltb in H
  | H : (_ >=? _) = _ |- _ => rewrite Z.geb_leb in H
  end.

(** Case analysis on the next test of the goal. *)
Ltac ifcase :=
  match goal with
  | |- context [if ?b then _ else _] => destruct b eqn:?; btests
  end.

Lemma u64_small x : 0 <= x < 2 ^ 64 -> u64 x = x.
Proof. intros. unfold u64. by rewrite Z.mod_small. Qed.

Lemma size_t_small x : 0 <= x < 2 ^ 32 -> size_t x = x.
Proof. intros. unfold size_t. by rewrite Z.mod_small. Qed.

Lemma u32_small x : 0 <= x < 2 ^ 32 -> u32 x = x.
Proof. intros. unfold u32. by rewrite Z.mod_small. Qed.

Lemma u16_small x : 0 <= x < 2 ^ 16 -> u16 x = x.
Proof. intros. unfold u16. by rewrite Z.mod_small. Qed.

Lemma swap16_range x : 0 <= swap16 x < 65536.
Proof. unfold swap16. Z.div_mod_to_equations; lia. Qed.

Lemma u16_range x : 0 <= u16 x < 2 ^ 16.
Proof. apply Z.mod_pos_bound. lia. Qed.

Lemma u32_range x : 0 <= u32 x < 2 ^ 32.
Proof. apply Z.mod_pos_bound. lia. Qed.

Lemma u64_range x : 0 <= u64 x < 2 ^ 64.
Proof. apply Z.mod_pos_bound. lia. Qed.

#[export] Hint Resolve u16_range u32_range u64_range : fs.

(** Length of a list as an integer. *)
Notation zlen l := (Z.of_nat (length l)).

(** Sublists by integer offsets. *)
Definition ztake {A} (n : Z) (l : list A) : list A := take (Z.to_nat n) l.
Definition zdrop {A} (n : Z) (l : list A) : list A := drop (Z.to_nat n) l.

Lemma zlen_ztake {A} n (l : list A) : 0 <= n <= zlen l -> zlen (ztake n l) = n.
Proof. intros. unfold ztake. rewrite length_take. lia. Qed.

Lemma zlen_zdrop {A} n (l : list A) : 0 <= n <= zlen l -> zlen (zdrop n l) = zlen l - n.
Proof. intros. unfold zdrop. rewrite length_drop. lia. Qed.

Lemma filter_none {A} (P : A -> Prop) `{!forall x, Decision (P x)} (l : list A) :
  Forall (fun x => ~ P x) l -> filter P l = [].
Proof. induction 1 as [|x l N _ IH]; [done|]. by rewrite filter_cons_False. Qed.

Lemma filter_same_in {A} (P Q : A -> Prop) `{!forall x, Decision (P x), !forall x, Decision (Q x)} (l : list A) :
  (forall x, x ∈ l -> P x <-> Q x) -> filter P l = filter Q l.
Proof.
  induction l as [|x l IH]; intros HPQ; [done|]. rewrite !filter_cons, IH by set_solver.
  specialize (HPQ x). repeat case_decide; set_solver.
Qed.

Lemma filter_all {A} (P : A -> Prop) `{!forall x, Decision (P x)} (l : list A) :
  Forall P l -> filter P l = l.
Proof. induction 1 as [|x l N _ IH]; [done|]. rewrite filter_cons_True by done. by rewrite IH. Qed.

(** Moving an element to the front. *)
Lemma push_perm (l : list Z) (id : Z) :
  NoDup l -> id ∈ l -> id :: filter (fun i => i <> id) l ≡ₚ l.
Proof.
  induction l as [|x l IH]; intros ND Hin; [set_solver|]. apply NoDup_cons in ND as [NI ND].
  rewrite filter_cons. case_decide as D.
  - apply elem_of_cons in Hin as [->|Hin]; [done|]. rewrite Permutation_swap, IH; done.
  - subst. rewrite filter_all; [done|]. apply Forall_forall. set_solver.
Qed.

(** Equal keys in a list without repeated keys. *)
Lemma NoDup_fmap_same {A B} (f : A -> B) l x y : NoDup (f <$> l) -> x ∈ l -> y ∈ l -> f x = f y -> x = y.
Proof.
  induction l as [|z l IH]; [set_solver|]. cbn. intros [NI ND]%NoDup_cons [->|Hx]%elem_of_cons [->|Hy]%elem_of_cons E;
    [done| | |by apply IH]; exfalso; apply NI; apply list_elem_of_fmap; eauto.
Qed.

(** A test of the integers below [n] by computation. *)
Lemma below (n : nat) (f : Z -> bool) :
  forallb f (Z.of_nat <$> seq 0 n) = true -> forall x, 0 <= x < Z.of_nat n -> f x = true.
Proof.
  intros K x Hx. rewrite forallb_forall in K. apply K, list_elem_of_In, list_elem_of_fmap.
  exists (Z.to_nat x). rewrite elem_of_seq. lia.
Qed.

(** The same for an interval. *)
Fixpoint all_from (n : nat) (x : Z) (f : Z -> bool) : bool :=
  match n with O => true | S n => f x && all_from n (x + 1) f end.
Lemma all_from_spec n x f : all_from n x f = true -> forall y, x <= y < x + Z.of_nat n -> f y = true.
Proof.
  revert x. induction n as [|n IH]; intros x; [intros _ y H; lia|]. cbn [all_from]. intros [F K]%andb_prop y H.
  destruct (decide (y = x)) as [->|N]; [done|]. apply (IH (x + 1) K). lia.
Qed.
