(* ===== verification/Bytes.v ===== *)
(** * Bytes in memory

    Numbers as bytes of the little-endian target, bit facts on bytes, and memory
    as a list of bytes that is read and written with its bounds checked. *)
From S2P Require Import Prelude.

Definition byte (x : Z) : Prop := 0 <= x < 256.
#[export] Instance byte_dec x : Decision (byte x).
Proof. unfold byte. apply _. Defined.

(** ** Bits *)

Lemma lor_lxor_low a b n : 0 <= a < 2 ^ n -> 0 <= n -> Z.lor a (Z.shiftl b n) = Z.lxor a (Z.shiftl b n).
Proof.
  intros Ha Hn. apply Z.bits_inj'. intros m Hm. rewrite Z.lor_spec, Z.lxor_spec. destruct (Z.ltb_spec m n).
  - rewrite Z.shiftl_spec_low by lia. by destruct (Z.testbit a m).
  - destruct (decide (a = 0)) as [->|N]; [by rewrite Z.bits_0; destruct (Z.testbit _ _)|].
    rewrite (Z.bits_above_log2 a m); [by destruct (Z.testbit _ _)|lia|].
    apply Z.log2_lt_pow2; [lia|]. eapply Z.lt_le_trans; [apply Ha|]. apply Z.pow_le_mono_r; lia.
Qed.

Lemma lxor_range a b n : 0 <= a < 2 ^ n -> 0 <= b < 2 ^ n -> 0 <= n -> 0 <= Z.lxor a b < 2 ^ n.
Proof.
  intros Ha Hb Hn. rewrite <- (Z.mod_small a (2 ^ n)), <- (Z.mod_small b (2 ^ n)) by done.
  rewrite <- !Z.land_ones by done. assert (E : Z.lxor (Z.land a (Z.ones n)) (Z.land b (Z.ones n)) = Z.land (Z.lxor a b) (Z.ones n)).
  { apply Z.bits_inj'. intros m _. rewrite Z.lxor_spec, !Z.land_spec, Z.lxor_spec.
    by destruct (Z.testbit a m), (Z.testbit b m), (Z.testbit (Z.ones n) m). }
  rewrite E, Z.land_ones by done. apply Z.mod_pos_bound. apply Z.pow_pos_nonneg; lia.
Qed.

(** ** Numbers *)

Fixpoint le_val (bytes : list Z) : Z := match bytes with [] => 0 | b :: bytes => b + 256 * le_val bytes end.
Fixpoint le_bytes (n : nat) (v : Z) : list Z :=
  match n with O => [] | S n => v mod 256 :: le_bytes n (v / 256) end.

Lemma le_lxor b bytes : byte b -> le_val (b :: bytes) = Z.lxor b (Z.shiftl (le_val bytes) 8).
Proof.
  intros Hb. cbn [le_val]. rewrite <- lor_lxor_low by (unfold byte in Hb; cbn; lia).
  pose proof (Z.add_lor_land b (Z.shiftl (le_val bytes) 8)) as A. assert (E : Z.land b (Z.shiftl (le_val bytes) 8) = 0).
  { apply Z.bits_inj'. intros n Hn. rewrite Z.land_spec, Z.bits_0. destruct (Z.ltb_spec n 8) as [L|L].
    - by rewrite Z.shiftl_spec_low, andb_false_r by lia.
    - destruct (decide (b = 0)) as [->|N]; [by rewrite Z.bits_0|]. unfold byte in Hb. rewrite (Z.bits_above_log2 b n); [done|lia|].
      assert (Z.log2 b < 8) by (apply Z.log2_lt_pow2; lia). lia. }
  rewrite E in A. rewrite Z.shiftl_mul_pow2 in * by lia. lia.
Qed.
Lemma le_range bytes : Forall byte bytes -> 0 <= le_val bytes < 2 ^ (8 * zlen bytes).
Proof.
  induction 1 as [|b bytes Hb _ IH]; [done|]. cbn [le_val length].
  replace (8 * Z.of_nat (S (length bytes))) with (8 + 8 * zlen bytes) by lia. rewrite Z.pow_add_r by lia.
  unfold byte in Hb. change (2 ^ 8) with 256. lia.
Qed.
Lemma le_inj u : Forall byte u -> forall w, Forall byte w -> length u = length w -> le_val u = le_val w -> u = w.
Proof.
  induction 1 as [|b u Hb _ IH]; intros w Hw L E; [by destruct w|]. destruct Hw as [|x w Hx Hw]; [done|].
  cbn [le_val] in E. unfold byte in *. assert (b = x) as -> by lia. f_equal. apply IH; [done|by injection L|lia].
Qed.

Lemma le_bytes_length n : forall v, length (le_bytes n v) = n.
Proof. induction n as [|n IH]; intros v; [done|]. cbn. by rewrite IH. Qed.
Lemma le_bytes_byte n : forall v, Forall byte (le_bytes n v).
Proof. induction n as [|n IH]; intros v; constructor; [unfold byte; apply Z.mod_pos_bound; lia|apply IH]. Qed.
Lemma le_val_bytes n : forall v, le_val (le_bytes n v) = v mod 2 ^ (8 * Z.of_nat n).
Proof.
  induction n as [|n IH]; intros v; [by rewrite Z.mod_1_r|]. cbn [le_bytes le_val]. rewrite IH.
  replace (8 * Z.of_nat (S n)) with (8 + 8 * Z.of_nat n) by lia. rewrite Z.pow_add_r by lia. change (2 ^ 8) with 256.
  rewrite Z.rem_mul_r by lia. done.
Qed.
Lemma le_bytes_val bytes : Forall byte bytes -> le_bytes (length bytes) (le_val bytes) = bytes.
Proof.
  induction 1 as [|b bytes Hb _ IH]; [done|]. cbn [length le_bytes le_val]. unfold byte in Hb.
  f_equal; [cint|]. replace ((b + 256 * le_val bytes) / 256) with (le_val bytes) by cint. done.
Qed.

(** Exclusive or, byte by byte. *)
Lemma lxor_div a b n : 0 <= n -> Z.lxor a b / 2 ^ n = Z.lxor (a / 2 ^ n) (b / 2 ^ n).
Proof. intros H. rewrite <- !Z.shiftr_div_pow2 by done. apply Z.shiftr_lxor. Qed.
Lemma lxor_mod a b n : 0 <= n -> Z.lxor a b mod 2 ^ n = Z.lxor (a mod 2 ^ n) (b mod 2 ^ n).
Proof.
  intros H. rewrite <- !Z.land_ones by done. apply Z.bits_inj'. intros m _. rewrite !Z.lxor_spec, !Z.land_spec, Z.lxor_spec.
  by destruct (Z.testbit a m), (Z.testbit b m), (Z.testbit (Z.ones n) m).
Qed.
Lemma le_bytes_lxor n : forall a b, le_bytes n (Z.lxor a b) = zip_with Z.lxor (le_bytes n a) (le_bytes n b).
Proof.
  induction n as [|n IH]; intros a b; [done|]. cbn [le_bytes zip_with]. change 256 with (2 ^ 8) at 1 2.
  by rewrite lxor_mod, lxor_div, IH by lia.
Qed.

(** Swapping turns bytes round. *)
Lemma swap16_bytes v : le_bytes 2 (swap16 v) = reverse (le_bytes 2 v).
Proof. change (reverse (le_bytes 2 v)) with [v / 256 mod 256; v mod 256]. cbn [le_bytes]. unfold swap16. f_equal; [cint|]. f_equal. cint. Qed.
Lemma swap32_bytes v : le_bytes 4 (swap32 v) = reverse (le_bytes 4 v).
Proof.
  change (reverse (le_bytes 4 v)) with [v / 256 / 256 / 256 mod 256; v / 256 / 256 mod 256; v / 256 mod 256; v mod 256].
  cbn [le_bytes]. unfold swap32. rewrite !Z.div_div by lia. change (256 * 256) with 65536. change (256 * 65536) with 16777216.
  change (65536 * 256) with 16777216.
  pose proof (Z.mod_pos_bound v 256). pose proof (Z.mod_pos_bound (v / 256) 256). pose proof (Z.mod_pos_bound (v / 65536) 256).
  pose proof (Z.mod_pos_bound (v / 16777216) 256).
  generalize dependent (v mod 256). generalize dependent ((v / 256) mod 256). generalize dependent ((v / 65536) mod 256).
  generalize dependent ((v / 16777216) mod 256). intros a Ha b Hb c Hc d Hd. f_equal; [cint|]. f_equal; [cint|]. f_equal; [cint|].
  f_equal. cint.
Qed.

(** ** Memory

    What can be accessed from a pointer on; reads and writes outside are [UB]. *)

Definition slice (m : list Z) (o n : Z) : outcome (list Z) :=
  if (0 <=? o) && (o + n <=? zlen m) then Ok (ztake n (zdrop o m)) else UB.
Definition splice (m : list Z) (o : Z) (bytes : list Z) : outcome (list Z) :=
  if (0 <=? o) && (o + zlen bytes <=? zlen m)
  then Ok (ztake o m ++ bytes ++ zdrop (o + zlen bytes) m) else UB.

Definition get8 (m : list Z) (o : Z) : outcome Z := let* bytes := slice m o 1 in Ok (le_val bytes).
Definition get16 (m : list Z) (o : Z) : outcome Z := let* bytes := slice m o 2 in Ok (le_val bytes).
Definition get32 (m : list Z) (o : Z) : outcome Z := let* bytes := slice m o 4 in Ok (le_val bytes).
Definition put16 (m : list Z) (o v : Z) : outcome (list Z) := splice m o (le_bytes 2 v).
Definition put32 (m : list Z) (o v : Z) : outcome (list Z) := splice m o (le_bytes 4 v).

(** Accesses inside. *)
Lemma slice_in m o n : Forall byte m -> 0 <= o -> 0 <= n -> o + n <= zlen m ->
  exists bytes, slice m o n = Ok bytes /\ zlen bytes = n /\ Forall byte bytes.
Proof.
  intros B Ho Hn L. unfold slice. rewrite (proj2 (Z.leb_le 0 o)), (proj2 (Z.leb_le _ (zlen m))) by lia. cbn [andb].
  eexists. split_and!; [done| |]; unfold ztake, zdrop; [rewrite length_take, length_drop; lia|]. by apply Forall_take, Forall_drop.
Qed.
Lemma splice_in m o bytes : Forall byte m -> Forall byte bytes -> 0 <= o -> o + zlen bytes <= zlen m ->
  exists m', splice m o bytes = Ok m' /\ zlen m' = zlen m /\ Forall byte m' /\
    forall k, o + zlen bytes <= k -> zdrop k m' = zdrop k m.
Proof.
  intros B B' Ho L. unfold splice. rewrite (proj2 (Z.leb_le 0 o)), (proj2 (Z.leb_le _ (zlen m))) by lia. cbn [andb].
  eexists. split_and!; [done| | |]; unfold ztake, zdrop.
  - rewrite !length_app, length_take, length_drop. lia.
  - rewrite !Forall_app. split_and!; [by apply Forall_take|done|by apply Forall_drop].
  - intros k Hk. rewrite app_assoc, drop_app_ge by (rewrite length_app, length_take; lia).
    rewrite drop_drop. f_equal. rewrite length_app, length_take. lia.
Qed.
Lemma get16_in m o : Forall byte m -> 0 <= o -> o + 2 <= zlen m -> exists v, get16 m o = Ok v /\ 0 <= v < 65536.
Proof.
  intros B Ho L. destruct (slice_in m o 2 B Ho ltac:(lia) L) as (bytes & E & Lb & Bb). exists (le_val bytes). unfold get16. rewrite E.
  split; [done|]. pose proof (le_range bytes Bb) as R. rewrite Lb in R. done.
Qed.
Lemma get32_in m o : Forall byte m -> 0 <= o -> o + 4 <= zlen m -> exists v, get32 m o = Ok v /\ 0 <= v < 2 ^ 32.
Proof.
  intros B Ho L. destruct (slice_in m o 4 B Ho ltac:(lia) L) as (bytes & E & Lb & Bb). exists (le_val bytes). unfold get32. rewrite E.
  split; [done|]. pose proof (le_range bytes Bb) as R. rewrite Lb in R. done.
Qed.

(** Accesses to a known part. *)
Lemma slice_app p x q o n : o = zlen p -> n = zlen x -> slice (p ++ x ++ q) o n = Ok x.
Proof.
  intros -> ->. unfold slice. rewrite !length_app. rewrite (proj2 (Z.leb_le 0 _)), (proj2 (Z.leb_le _ (Z.of_nat (_ + _)))) by lia.
  cbn [andb]. unfold ztake, zdrop. rewrite !Nat2Z.id, drop_app_length, take_app_length. done.
Qed.
Lemma splice_app p x q o y : o = zlen p -> length y = length x -> splice (p ++ x ++ q) o y = Ok (p ++ y ++ q).
Proof.
  intros -> L. unfold splice. rewrite !length_app. rewrite (proj2 (Z.leb_le 0 _)), (proj2 (Z.leb_le _ (Z.of_nat (_ + _)))) by lia.
  cbn [andb]. unfold ztake, zdrop. rewrite Nat2Z.id, take_app_length. do 2 f_equal. f_equal.
  rewrite app_assoc. rewrite drop_app_ge by (rewrite length_app; lia). rewrite length_app.
  replace (Z.to_nat (zlen p + zlen y) - (length p + length x))%nat with 0%nat by lia. done.
Qed.
Lemma get16_app p x0 x1 q o : o = zlen p -> get16 (p ++ x0 :: x1 :: q) o = Ok (x0 + 256 * x1).
Proof.
  intros H. unfold get16. change (x0 :: x1 :: q) with ([x0; x1] ++ q). rewrite (slice_app _ [x0; x1]) by done.
  cbn [le_val]. f_equal. lia.
Qed.
Lemma put16_app p x0 x1 q o v : o = zlen p -> put16 (p ++ x0 :: x1 :: q) o v = Ok (p ++ le_bytes 2 v ++ q).
Proof. intros H. unfold put16. change (x0 :: x1 :: q) with ([x0; x1] ++ q). by apply splice_app. Qed.
Lemma get16_le p v q o : o = zlen p -> 0 <= v < 65536 -> get16 (p ++ le_bytes 2 v ++ q) o = Ok v.
Proof.
  intros H Hv. unfold get16. rewrite slice_app by (rewrite ?le_bytes_length; done). rewrite le_val_bytes. f_equal.
  by apply Z.mod_small.
Qed.
Lemma put16_le p v q o w : o = zlen p -> put16 (p ++ le_bytes 2 v ++ q) o w = Ok (p ++ le_bytes 2 w ++ q).
Proof. intros H. apply splice_app; [done|by rewrite !le_bytes_length]. Qed.
