(* ===== verification/Buffer.v ===== *)
(** * Byte buffers (src/switch_buffer.c)

    The buffer object with its storage, every operation of the file, the
    representation invariant, and the byte queue it implements. *)
From S2P Require Import Prelude.

(** ** Memory blocks

    A block is the contents of one allocation; [None] is the null pointer.
    [memcpy] and [memmove] outside the block are [UB]. *)

Definition block := option (list Z).

Definition load (blk : block) (off n : Z) : outcome (list Z) :=
  if n =? 0 then Ok []
  else match blk with
  | None => UB
  | Some m => if (0 <=? off) && (off + n <=? zlen m) then Ok (ztake n (zdrop off m)) else UB
  end.

Definition store (blk : block) (off : Z) (bytes : list Z) : outcome block :=
  match bytes with
  | [] => Ok blk
  | _ => match blk with
    | None => UB
    | Some m =>
        if (0 <=? off) && (off + zlen bytes <=? zlen m)
        then Ok (Some (ztake off m ++ bytes ++ zdrop (off + zlen bytes) m)) else UB
    end
  end.

(** [realloc]: the prefix is kept, the bytes of a larger block are
    indeterminate ([indet i] is the byte found at offset [i]). *)
Definition realloc_block (indet : Z -> Z) (blk : block) (n : Z) : block :=
  let m := default [] blk in
  Some (ztake n m ++ (indet <$> seqZ (zlen m) (n - zlen m))).

(** ** The buffer object *)

Definition SWITCH_BUFFER_FLAG_DYNAMIC : Z := 1.
Definition SWITCH_BUFFER_FLAG_PARTITION : Z := 2.

(** [head] is kept as its offset from [data]; the storage itself is the block
    [data] points to; [mutex] says whether the pointer is non-null. *)
Record switch_buffer := mk_switch_buffer {
  data : block;
  head : Z;
  used : Z;
  actually_used : Z;
  datalen : Z;
  max_len : Z;
  blocksize : Z;
  mutex : bool;
  flags : Z;
  id : Z;
  loops : Z
}.

#[export] Instance eta_switch_buffer : Eta switch_buffer := fun b =>
  mk_switch_buffer (data b) (head b) (used b) (actually_used b) (datalen b)
    (max_len b) (blocksize b) (mutex b) (flags b) (id b) (loops b).

(** The zeroed object [switch_core_alloc] and [memset] give. *)
Definition zero_buffer : switch_buffer :=
  mk_switch_buffer None 0 0 0 0 0 0 false 0 0 0.

Definition switch_buffer_reset_partition_data (b : switch_buffer) : switch_buffer * switch_status :=
  if negb (test_flag (flags b) SWITCH_BUFFER_FLAG_PARTITION) then (b, SWITCH_STATUS_FALSE)
  else
    let b := b <| head := 0 |> in
    let b := b <| actually_used := datalen b |> in
    let b := b <| used := datalen b |> in
    (b, SWITCH_STATUS_SUCCESS).

Definition switch_buffer_set_partition_data (b : switch_buffer) (d : block) (dlen : Z)
  : switch_buffer * switch_status :=
  if negb (test_flag (flags b) SWITCH_BUFFER_FLAG_PARTITION) then (b, SWITCH_STATUS_FALSE)
  else switch_buffer_reset_partition_data (b <| data := d |> <| datalen := dlen |>).

(** The constructors take the counter [buffer_id] and whether each allocation
    succeeds, and return the counter, the handle and the status.  The handle is
    [None] where the C function leaves the caller's pointer alone or clears it. *)
Definition switch_buffer_create_partition (alloc_ok : bool) (buffer_id : Z) (d : block) (dlen : Z)
  : Z * option switch_buffer * switch_status :=
  if alloc_ok then
    let b := zero_buffer <| id := buffer_id |> in
    let b := b <| flags := set_flag (flags b) SWITCH_BUFFER_FLAG_PARTITION |> in
    let '(b, _) := switch_buffer_set_partition_data b d dlen in
    (u32 (buffer_id + 1), Some b, SWITCH_STATUS_SUCCESS)
  else (buffer_id, None, SWITCH_STATUS_MEMERR).

Definition switch_buffer_create (alloc_ok data_ok : bool) (buffer_id mlen : Z)
  : Z * option switch_buffer * switch_status :=
  if alloc_ok && data_ok then
    let b := zero_buffer <| data := Some (replicate (Z.to_nat mlen) 0) |> in
    let b := b <| datalen := mlen |> <| id := buffer_id |> <| head := 0 |> in
    (u32 (buffer_id + 1), Some b, SWITCH_STATUS_SUCCESS)
  else (buffer_id, None, SWITCH_STATUS_MEMERR).

Definition switch_buffer_create_dynamic (alloc_ok data_ok : bool) (buffer_id bsize start_len mlen : Z)
  : Z * option switch_buffer * switch_status :=
  if negb alloc_ok then (buffer_id, None, SWITCH_STATUS_MEMERR)
  else if negb (start_len =? 0) && negb data_ok then (buffer_id, None, SWITCH_STATUS_MEMERR)
  else
    let b := if start_len =? 0 then zero_buffer
             else zero_buffer <| data := Some (replicate (Z.to_nat start_len) 0) |> in
    let b := b <| max_len := mlen |> <| datalen := start_len |> <| id := buffer_id |>
               <| blocksize := bsize |> <| head := 0 |> in
    let b := b <| flags := set_flag (flags b) SWITCH_BUFFER_FLAG_DYNAMIC |> in
    (u32 (buffer_id + 1), Some b, SWITCH_STATUS_SUCCESS).

(** ** The mutex wrappers: the call made on the mutex, and the status returned
    when there is none. *)

Inductive mutex_call := MutexLock | MutexTrylock | MutexUnlock.

Definition switch_buffer_add_mutex (b : switch_buffer) (m : bool) : switch_buffer :=
  b <| mutex := m |>.
Definition switch_buffer_lock (b : switch_buffer) : option mutex_call :=
  if mutex b then Some MutexLock else None.
Definition switch_buffer_trylock (b : switch_buffer) : mutex_call + switch_status :=
  if mutex b then inl MutexLock else inr SWITCH_STATUS_FALSE.
Definition switch_buffer_unlock (b : switch_buffer) : option mutex_call :=
  if mutex b then Some MutexUnlock else None.

(** ** Queries *)

Definition switch_buffer_len (b : switch_buffer) : Z := datalen b.

Definition switch_buffer_freespace (b : switch_buffer) : Z :=
  if test_flag (flags b) SWITCH_BUFFER_FLAG_DYNAMIC then
    if negb (max_len b =? 0) then size_t (max_len b - used b) else 1000000
  else size_t (datalen b - used b).

Definition switch_buffer_inuse (b : switch_buffer) : Z := used b.

(** ** Consuming *)

Definition switch_buffer_toss (b : switch_buffer) (dlen : Z) : switch_buffer * Z :=
  if used b <? 1 then (b <| used := 0 |>, 0)
  else
    let reading := if dlen <=? used b then dlen else used b in
    let b := b <| used := size_t (used b - reading) |> in
    let b := b <| head := head b + reading |> in
    (b, used b).

Definition switch_buffer_set_loops (b : switch_buffer) (l : Z) : switch_buffer :=
  b <| loops := l |>.

(** The bytes copied to the caller, and the number of them. *)
Definition switch_buffer_read (b : switch_buffer) (dlen : Z)
  : outcome (switch_buffer * list Z * Z) :=
  if used b <? 1 then Ok (b <| used := 0 |>, [], 0)
  else
    let reading := if dlen <=? used b then dlen else used b in
    bytes ← load (data b) (head b) reading;
    let b := b <| used := size_t (used b - reading) |> in
    let b := b <| head := head b + reading |> in
    Ok (b, bytes, reading).

Definition switch_buffer_read_loop (b : switch_buffer) (dlen : Z)
  : outcome (switch_buffer * list Z * Z) :=
  '(b, bytes, len) ← switch_buffer_read b dlen;
  if len =? 0 then
    let b := if 0 <? loops b then b <| loops := loops b - 1 |> else b in
    if loops b =? 0 then Ok (b, [], 0)
    else
      let b := b <| head := 0 |> in
      let b := b <| used := actually_used b |> in
      switch_buffer_read b dlen
  else Ok (b, bytes, len).

Definition switch_buffer_peek (b : switch_buffer) (dlen : Z)
  : outcome (switch_buffer * list Z * Z) :=
  if used b <? 1 then Ok (b <| used := 0 |>, [], 0)
  else
    let reading := if dlen <=? used b then dlen else used b in
    bytes ← load (data b) (head b) reading;
    Ok (b, bytes, reading).

(** The pointer returned is an offset into [data]; [None] is null. *)
Definition switch_buffer_peek_zerocopy (b : switch_buffer) : switch_buffer * option Z * Z :=
  if used b <? 1 then (b <| used := 0 |>, None, 0)
  else (b, Some (head b), used b).

(** ** Producing *)

(** [switch_buffer_write] in its three stages: move the unread bytes to the
    front when the tail is too short, grow a dynamic buffer, copy.  [indet]
    gives the contents of fresh memory and [realloc_ok] says whether the
    reallocation of this call, if it makes one, succeeds. *)
Definition write_compact (b : switch_buffer) (dlen : Z) : outcome switch_buffer :=
  let actual_freespace := size_t (datalen b - actually_used b) in
  if actual_freespace <? dlen then
    moved ← load (data b) (head b) (used b);
    d ← store (data b) 0 moved;
    Ok (b <| data := d |> <| head := 0 |> <| actually_used := used b |>)
  else Ok b.

(** The boolean says that the reallocation failed. *)
Definition write_grow (indet : Z -> Z) (realloc_ok : bool) (b : switch_buffer) (dlen : Z)
  : switch_buffer * bool :=
  let freespace := size_t (datalen b - used b) in
  if test_flag (flags b) SWITCH_BUFFER_FLAG_DYNAMIC
     && ((freespace <? dlen) && ((max_len b =? 0) || (size_t (used b + dlen) <=? max_len b))) then
    let new_size := size_t (datalen b + dlen) in
    let new_block_size := size_t (datalen b + blocksize b) in
    let new_size := if new_size <? new_block_size then new_block_size else new_size in
    let b := b <| head := 0 |> in
    if negb realloc_ok then (b, true)
    else
      let b := b <| data := realloc_block indet (data b) new_size |> in
      (b <| head := 0 |> <| datalen := new_size |>, false)
  else (b, false).

Definition write_copy (b : switch_buffer) (src : list Z) : outcome (switch_buffer * Z) :=
  let dlen := zlen src in
  let freespace := size_t (datalen b - used b) in
  if freespace <? dlen then Ok (b, 0)
  else
    d ← store (data b) (head b + used b) src;
    let b := b <| data := d |> in
    let b := b <| used := size_t (used b + dlen) |> in
    let b := b <| actually_used := size_t (actually_used b + dlen) |> in
    Ok (b, used b).

Definition switch_buffer_write (indet : Z -> Z) (realloc_ok : bool)
    (b : switch_buffer) (src : list Z) : outcome (switch_buffer * Z) :=
  let dlen := zlen src in
  if test_flag (flags b) SWITCH_BUFFER_FLAG_PARTITION then Ok (b, 0)
  else if bool_decide (data b = None) then Assert
  else if dlen =? 0 then Ok (b, used b)
  else
    b ← write_compact b dlen;
    let '(b, oom) := write_grow indet realloc_ok b dlen in
    if oom : bool then Ok (b, 0) else write_copy b src.

Definition switch_buffer_zero (b : switch_buffer) : outcome switch_buffer :=
  if bool_decide (data b = None) then Assert
  else Ok (b <| used := 0 |> <| actually_used := 0 |> <| head := 0 |>).

(** The second write of [zwrite] and [slide_write] has its own reallocation,
    with outcome [realloc_ok2]. *)
Definition switch_buffer_zwrite (indet : Z -> Z) (realloc_ok realloc_ok2 : bool)
    (b : switch_buffer) (src : list Z) : outcome (switch_buffer * Z) :=
  if test_flag (flags b) SWITCH_BUFFER_FLAG_PARTITION then Ok (b, 0)
  else
    '(b, w) ← switch_buffer_write indet realloc_ok b src;
    if w =? 0 then
      b ← switch_buffer_zero b;
      switch_buffer_write indet realloc_ok2 b src
    else Ok (b, w).

Definition switch_buffer_slide_write (indet : Z -> Z) (realloc_ok realloc_ok2 : bool)
    (b : switch_buffer) (src : list Z) : outcome (switch_buffer * Z) :=
  if test_flag (flags b) SWITCH_BUFFER_FLAG_PARTITION then Ok (b, 0)
  else
    '(b, w) ← switch_buffer_write indet realloc_ok b src;
    if w =? 0 then
      let '(b, _) := switch_buffer_toss b (zlen src) in
      switch_buffer_write indet realloc_ok2 b src
    else Ok (b, w).

(** The handle after the call, and what was freed: the storage (when non-null)
    and the object. *)
Definition switch_buffer_destroy (h : option switch_buffer) : option switch_buffer * list (block + switch_buffer) :=
  match h with
  | Some b =>
      (None, if test_flag (flags b) SWITCH_BUFFER_FLAG_DYNAMIC
             then (if decide (data b = None) then [] else [inl (data b)]) ++ [inr b] else [])
  | None => (None, [])
  end.

(** ** Invariant and abstraction

    The unread bytes are the [used] bytes from [head]; [head + used] is always
    [actually_used], the end of what was written since the last compaction. *)

Record wf (b : switch_buffer) : Prop := mk_wf {
  wf_len : zlen (default [] (data b)) = datalen b;
  wf_head : 0 <= head b;
  wf_used : 0 <= used b;
  wf_end : head b + used b = actually_used b;
  wf_fit : actually_used b <= datalen b;
  wf_size : datalen b < 2 ^ 32;
  wf_max : 0 <= max_len b < 2 ^ 32;
  wf_block : 0 <= blocksize b < 2 ^ 32
}.

Definition contents (b : switch_buffer) : list Z :=
  ztake (used b) (zdrop (head b) (default [] (data b))).

Definition writable (b : switch_buffer) : Prop :=
  test_flag (flags b) SWITCH_BUFFER_FLAG_PARTITION = false /\ data b <> None.

(** The sizes computed by a write of [n] bytes do not wrap. *)
Definition fits (b : switch_buffer) (n : Z) : Prop :=
  datalen b + n < 2 ^ 32 /\ datalen b + blocksize b < 2 ^ 32.

(** When a write is accepted. *)
Definition write_accepts (realloc_ok : bool) (b : switch_buffer) (n : Z) : bool :=
  (n <=? datalen b - used b) ||
  (test_flag (flags b) SWITCH_BUFFER_FLAG_DYNAMIC && realloc_ok &&
     ((max_len b =? 0) || (used b + n <=? max_len b))).

Ltac wf_solve := constructor; rupd; simpl in *; lia.

Lemma ztake_ztake {A} n m (l : list A) : 0 <= n <= m -> ztake n (ztake m l) = ztake n l.
Proof. intros. unfold ztake. rewrite take_take. f_equal. lia. Qed.

Lemma load_ok (m : list Z) off n :
  0 <= off -> 0 <= n -> off + n <= zlen m -> load (Some m) off n = Ok (ztake n (zdrop off m)).
Proof.
  intros. unfold load. destruct (Z.eqb_spec n 0) as [->|]; [done|].
  rewrite (proj2 (Z.leb_le 0 off)), (proj2 (Z.leb_le _ (zlen m))) by lia. done.
Qed.

(** Storing [bs] just after the [u] bytes at [h] extends them by [bs]. *)
Lemma store_ok (m bs : list Z) h u :
  0 <= h -> 0 <= u -> h + u + zlen bs <= zlen m ->
  exists m', store (Some m) (h + u) bs = Ok (Some m') /\ zlen m' = zlen m /\
    ztake (u + zlen bs) (zdrop h m') = ztake u (zdrop h m) ++ bs.
Proof.
  intros Hh Hu Hl. destruct bs as [|x bs].
  { exists m. simpl. rewrite Z.add_0_r, app_nil_r. done. }
  set (l := x :: bs) in *.
  exists (ztake (h + u) m ++ l ++ zdrop (h + u + zlen l) m).
  assert (Hlt : length (ztake (h + u) m) = Z.to_nat (h + u)).
  { unfold ztake. rewrite length_take. lia. }
  split; [|split].
  - unfold store. subst l. cbv iota.
    rewrite (proj2 (Z.leb_le 0 _)), (proj2 (Z.leb_le _ (zlen m))) by lia. done.
  - rewrite !length_app, Hlt. unfold zdrop. rewrite length_drop. lia.
  - unfold ztake at 1, zdrop at 1. rewrite drop_app_le by (rewrite Hlt; lia).
    rewrite (app_assoc (drop _ _) l), take_app_length'.
    2:{ rewrite length_app, length_drop, Hlt. lia. }
    f_equal. unfold ztake, zdrop. rewrite skipn_firstn_comm. f_equal. lia.
Qed.

Lemma zlen_contents b : wf b -> zlen (contents b) = used b.
Proof.
  intros W. pose proof W as []. unfold contents.
  rewrite zlen_ztake; [done|]. rewrite zlen_zdrop; lia.
Qed.

Lemma zlen_realloc indet blk n :
  zlen (default [] blk) <= n -> zlen (default [] (realloc_block indet blk n)) = n.
Proof.
  intros. unfold realloc_block. simpl.
  rewrite length_app, length_fmap, length_seqZ. unfold ztake. rewrite length_take. lia.
Qed.

Lemma contents_realloc indet blk h u n :
  0 <= h -> 0 <= u -> h + u <= zlen (default [] blk) -> zlen (default [] blk) <= n ->
  ztake u (zdrop h (default [] (realloc_block indet blk n))) = ztake u (zdrop h (default [] blk)).
Proof.
  intros. unfold realloc_block, ztake, zdrop. simpl.
  rewrite (take_ge _ (Z.to_nat n)) by lia.
  rewrite drop_app_le by lia. rewrite take_app_le; [done|].
  rewrite length_drop. lia.
Qed.

(** [same b b']: [b'] holds the same bytes as [b] and differs only in layout. *)
Definition same (b b' : switch_buffer) : Prop :=
  wf b' /\ contents b' = contents b /\ used b' = used b /\ max_len b' = max_len b /\
  blocksize b' = blocksize b /\ flags b' = flags b /\ data b' <> None.

Lemma write_compact_spec b n :
  wf b -> data b <> None -> 0 <= n ->
  exists b', write_compact b n = Ok b' /\ same b b' /\ datalen b' = datalen b /\
    (n <= datalen b' - actually_used b' \/ head b' = 0).
Proof.
  intros W D Hn. pose proof W as [L ? ? ? ? ? ? ?]. unfold write_compact.
  destruct (data b) as [m|] eqn:Dm; [|done]. simpl in L. rewrite size_t_small by lia.
  destruct (Z.ltb_spec (datalen b - actually_used b) n).
  2:{ exists b. unfold same. rewrite Dm. auto 20. }
  rewrite load_ok by lia. simpl.
  assert (zlen (ztake (used b) (zdrop (head b) m)) = used b) as Lr
    by (rewrite zlen_ztake; [done|]; rewrite zlen_zdrop; lia).
  destruct (store_ok m (ztake (used b) (zdrop (head b) m)) 0 0) as (m' & E & Lm & C); try lia.
  change (0 + 0) with 0 in E. rewrite E. simpl. eexists; split; [done|].
  unfold same, contents; rupd. rewrite Dm. simpl in *. rewrite Lr in C.
  split; [split; [constructor; rupd; simpl; lia|auto 10]|auto].
Qed.

Lemma write_grow_spec indet rok b n :
  wf b -> data b <> None -> 0 <= n -> fits b n -> head b = 0 \/ n <= datalen b - actually_used b ->
  let '(b', oom) := write_grow indet rok b n in
  same b b' /\ (head b' = 0 \/ n <= datalen b' - actually_used b') /\
  datalen b <= datalen b' <= datalen b + n + blocksize b /\
  negb oom && (n <=? datalen b' - used b') = write_accepts rok b n.
Proof.
  intros W D Hn [F1 F2] H. pose proof W as []. unfold write_grow, write_accepts.
  rewrite !size_t_small by lia.
  destruct (Z.ltb_spec (datalen b - used b) n) as [Hlt|Hge].
  2:{ rewrite andb_false_r. simpl. unfold same.
      rewrite (proj2 (Z.leb_le n _)) by lia. auto 20 with lia. }
  rewrite (proj2 (Z.leb_gt n (datalen b - used b))) by lia. simpl.
  destruct (test_flag (flags b) SWITCH_BUFFER_FLAG_DYNAMIC); simpl.
  2:{ unfold same. rewrite (proj2 (Z.leb_gt n _)) by lia. auto 20 with lia. }
  destruct ((max_len b =? 0) || (used b + n <=? max_len b)); simpl.
  2:{ rewrite andb_false_r. unfold same. rewrite (proj2 (Z.leb_gt n _)) by lia. auto 20 with lia. }
  assert (H0 : head b = 0) by lia.
  set (ns := if _ <? _ then _ else _).
  assert (datalen b + n <= ns <= datalen b + n + blocksize b /\ ns < 2 ^ 32)
    by (subst ns; destruct (Z.ltb_spec (datalen b + n) (datalen b + blocksize b)); lia).
  destruct rok; simpl; unfold same, contents; rupd.
  - rewrite (proj2 (Z.leb_le n _)), H0, contents_realloc by lia.
    split; [split; [constructor; rupd; try lia; apply zlen_realloc; lia|]|]; auto 20 with lia.
  - rewrite H0. split; [split; [constructor; rupd; lia|]|]; auto 20 with lia.
Qed.

Lemma write_copy_spec b src :
  wf b -> data b <> None -> head b = 0 \/ zlen src <= datalen b - actually_used b ->
  let ok := zlen src <=? datalen b - used b in
  exists b', write_copy b src = Ok (b', if ok then used b + zlen src else 0) /\
    wf b' /\ contents b' = (if ok then contents b ++ src else contents b) /\
    datalen b' = datalen b /\ blocksize b' = blocksize b /\ flags b' = flags b /\ data b' <> None.
Proof.
  intros W D H. pose proof W as [L ? ? ? ? ? ? ?]. unfold write_copy.
  rewrite size_t_small by lia. cbv zeta.
  destruct (Z.leb_spec (zlen src) (datalen b - used b)).
  2:{ rewrite (proj2 (Z.ltb_lt _ _)) by lia. eauto 10. }
  rewrite (proj2 (Z.ltb_ge _ _)) by lia.
  destruct (data b) as [m|] eqn:Dm; [|done]. simpl in L.
  destruct (store_ok m src (head b) (used b)) as (m3 & Es & Lm & Cm); try lia.
  rewrite Es. simpl. rupd. rewrite !size_t_small by lia.
  eexists; split; [done|]. unfold contents. rupd. rewrite Dm. simpl. rewrite Cm.
  split; [constructor; rupd; simpl; lia|]. auto 10.
Qed.

Lemma switch_buffer_write_spec indet rok b src :
  wf b -> writable b -> fits b (zlen src) ->
  let ok := write_accepts rok b (zlen src) in
  exists b', switch_buffer_write indet rok b src = Ok (b', if ok then used b + zlen src else 0) /\
    wf b' /\ writable b' /\ contents b' = (if ok then contents b ++ src else contents b) /\
    datalen b' <= datalen b + zlen src + blocksize b /\ blocksize b' = blocksize b.
Proof.
  intros W [P D] F ok. unfold switch_buffer_write.
  rewrite P, bool_decide_eq_false_2 by done.
  destruct (Z.eqb_spec (zlen src) 0) as [Z0|NZ].
  { pose proof W as []. exists b. subst ok. unfold write_accepts.
    rewrite (proj2 (Z.leb_le _ _)) by lia. destruct src; [|done].
    rewrite app_nil_r, Z.add_0_r. unfold writable. auto 10 with lia. }
  destruct (write_compact_spec b (zlen src) W D) as (b1 & -> & S1 & DL1 & H1); [lia|]. simpl.
  destruct S1 as (W1 & C1 & U1 & M1 & B1 & F1 & D1).
  pose proof (write_grow_spec indet rok b1 (zlen src) W1 D1 ltac:(lia)) as G.
  destruct (write_grow indet rok b1 (zlen src)) as [b2 oom].
  destruct G as ((W2 & C2 & U2 & M2 & B2 & F2 & D2) & H2 & DL2 & A);
    [unfold fits in *; congruence|tauto|].
  assert (ok = negb oom && (zlen src <=? datalen b2 - used b2)) as ->.
  { subst ok. rewrite A. unfold write_accepts. congruence. }
  destruct oom; simpl.
  { exists b2. unfold writable. rewrite <- C1, <- C2. split; [done|]. split; [done|].
    split; [split; congruence|]. split; [done|]. split; [lia|congruence]. }
  destruct (write_copy_spec b2 src W2 D2 H2) as (b3 & -> & W3 & C3 & DL3 & B3 & F3 & D3).
  exists b3. rewrite C3, C2, C1, U2, U1. split; [done|]. split; [done|]. unfold writable.
  split; [split; congruence|]. split; [done|]. split; [lia|congruence].
Qed.

Lemma test_flag_writable b : writable b -> data b <> None.
Proof. by intros []. Qed.

(** Consuming [n] bytes of a well-formed buffer. *)
Definition consumed (b : switch_buffer) (n : Z) : Z := Z.min n (used b).

Lemma contents_advance b r :
  wf b -> 0 <= r <= used b ->
  wf (b <| used := used b - r |> <| head := head b + r |>) /\
  contents (b <| used := used b - r |> <| head := head b + r |>) = zdrop r (contents b).
Proof.
  intros W ?. pose proof W as []. split; [constructor; rupd; simpl; lia|].
  unfold contents, ztake, zdrop; rupd.
  rewrite skipn_firstn_comm, drop_drop. f_equal; [lia|]. f_equal. lia.
Qed.

Lemma load_contents b r :
  wf b -> 0 <= r <= used b -> load (data b) (head b) r = Ok (ztake r (contents b)).
Proof.
  intros W ?. pose proof W as [L ? ? ? ? ? ? ?]. unfold contents. rewrite ztake_ztake by lia.
  destruct (data b) as [m|]; simpl in *.
  - apply load_ok; lia.
  - assert (r = 0) as -> by lia. done.
Qed.

Lemma used_zero b : wf b -> used b < 1 -> b <| used := 0 |> = b.
Proof.
  intros W ?. pose proof W as []. assert (used b = 0) as H0 by lia.
  destruct b; simpl in *. by rewrite <- H0.
Qed.

Lemma switch_buffer_read_spec b n :
  wf b -> 0 <= n ->
  let r := consumed b n in
  exists b', switch_buffer_read b n = Ok (b', ztake r (contents b), r) /\
    wf b' /\ contents b' = zdrop r (contents b) /\ data b' = data b /\ flags b' = flags b /\
    datalen b' = datalen b /\ blocksize b' = blocksize b.
Proof.
  intros W Hn. pose proof W as []. unfold switch_buffer_read, consumed. cbv zeta.
  destruct (Z.ltb_spec (used b) 1).
  { rewrite used_zero by (done || lia). exists b. replace (Z.min n (used b)) with 0 by lia.
    unfold ztake, zdrop. simpl. auto 10. }
  replace (if n <=? used b then n else used b) with (Z.min n (used b))
    by (destruct (Z.leb_spec n (used b)); lia).
  rewrite load_contents by (done || lia). simpl. rupd. rewrite size_t_small by lia.
  destruct (contents_advance b (Z.min n (used b)) W) as [W' C']; [lia|].
  eexists; split; [done|]. rupd. auto 10.
Qed.

Lemma switch_buffer_toss_spec b n :
  wf b -> 0 <= n ->
  let r := consumed b n in
  exists b', switch_buffer_toss b n = (b', used b - r) /\ wf b' /\
    contents b' = zdrop r (contents b) /\ data b' = data b /\ flags b' = flags b /\
    datalen b' = datalen b /\ blocksize b' = blocksize b.
Proof.
  intros W Hn. pose proof W as []. unfold switch_buffer_toss, consumed. cbv zeta.
  destruct (Z.ltb_spec (used b) 1).
  { rewrite used_zero by (done || lia). exists b. replace (Z.min n (used b)) with 0 by lia.
    replace (used b - 0) with 0 by lia. unfold zdrop. simpl. auto 10. }
  replace (if n <=? used b then n else used b) with (Z.min n (used b))
    by (destruct (Z.leb_spec n (used b)); lia).
  rupd. rewrite size_t_small by lia.
  destruct (contents_advance b (Z.min n (used b)) W) as [W' C']; [lia|].
  eexists; split; [done|]. rupd. auto 10.
Qed.

Lemma switch_buffer_zero_spec b :
  wf b -> data b <> None ->
  exists b', switch_buffer_zero b = Ok b' /\ wf b' /\ contents b' = [] /\ data b' = data b /\
    flags b' = flags b /\ datalen b' = datalen b /\ blocksize b' = blocksize b.
Proof.
  intros W D. pose proof W as []. unfold switch_buffer_zero.
  rewrite bool_decide_eq_false_2 by done.
  eexists; split; [done|]. rupd. split; [constructor; rupd; simpl; lia|]. auto 10.
Qed.

#[export] Hint Resolve test_flag_writable : fs.

(** ** The queue a buffer implements

    Operations with their oracle (reallocation outcomes), the replies, and a
    queue of bytes on which a write is either appended whole or refused. *)

Inductive op :=
| OWrite (ok : bool) (src : list Z)
| OZwrite (ok ok2 : bool) (src : list Z)
| OSlide (ok ok2 : bool) (src : list Z)
| ORead (n : Z)
| OPeek (n : Z)
| OToss (n : Z)
| OZero.

Inductive reply :=
| RSize (n : Z)
| RBytes (bytes : list Z) (n : Z)
| RNone.

Definition step (indet : Z -> Z) (o : op) (b : switch_buffer) : outcome (switch_buffer * reply) :=
  match o with
  | OWrite ok src => '(b, w) ← switch_buffer_write indet ok b src; Ok (b, RSize w)
  | OZwrite ok ok2 src => '(b, w) ← switch_buffer_zwrite indet ok ok2 b src; Ok (b, RSize w)
  | OSlide ok ok2 src => '(b, w) ← switch_buffer_slide_write indet ok ok2 b src; Ok (b, RSize w)
  | ORead n => '(b, bs, r) ← switch_buffer_read b n; Ok (b, RBytes bs r)
  | OPeek n => '(b, bs, r) ← switch_buffer_peek b n; Ok (b, RBytes bs r)
  | OToss n => let '(b, r) := switch_buffer_toss b n in Ok (b, RSize r)
  | OZero => b ← switch_buffer_zero b; Ok (b, RNone)
  end.

Fixpoint run (indet : Z -> Z) (os : list op) (b : switch_buffer) : outcome (switch_buffer * list reply) :=
  match os with
  | [] => Ok (b, [])
  | o :: os =>
      '(b, r) ← step indet o b;
      '(b, rs) ← run indet os b;
      Ok (b, r :: rs)
  end.

(** One write on the queue: accepted, or refused with reply 0. *)
Inductive qwrite (q : list Z) (src : list Z) : list Z -> Z -> Prop :=
| qwrite_accept : qwrite q src (q ++ src) (zlen (q ++ src))
| qwrite_refuse : src <> [] -> qwrite q src q 0.

Inductive qstep : op -> list Z -> reply -> list Z -> Prop :=
| qs_write ok src q q' w : qwrite q src q' w -> qstep (OWrite ok src) q (RSize w) q'
| qs_zwrite ok ok2 src q q' w :
    qwrite q src q' w -> w <> 0 -> qstep (OZwrite ok ok2 src) q (RSize w) q'
| qs_zwrite_clear ok ok2 src q q' w : qwrite [] src q' w -> qstep (OZwrite ok ok2 src) q (RSize w) q'
| qs_slide ok ok2 src q q' w :
    qwrite q src q' w -> w <> 0 -> qstep (OSlide ok ok2 src) q (RSize w) q'
| qs_slide_drop ok ok2 src q q' w :
    qwrite (drop (length src) q) src q' w -> qstep (OSlide ok ok2 src) q (RSize w) q'
| qs_read n q : qstep (ORead n) q (RBytes (ztake n q) (zlen (ztake n q))) (zdrop n q)
| qs_peek n q : qstep (OPeek n) q (RBytes (ztake n q) (zlen (ztake n q))) q
| qs_toss n q : qstep (OToss n) q (RSize (zlen (zdrop n q))) (zdrop n q)
| qs_zero q : qstep OZero q RNone [].

Inductive qrun : list op -> list Z -> list reply -> list Z -> Prop :=
| qrun_nil q : qrun [] q [] q
| qrun_cons o os q r q1 rs q2 :
    qstep o q r q1 -> qrun os q1 rs q2 -> qrun (o :: os) q (r :: rs) q2.

(** Storage an operation may add, and the sizes it may be given. *)
Definition op_cost (bs : Z) (o : op) : Z :=
  match o with
  | OWrite _ src => zlen src + bs
  | OZwrite _ _ src | OSlide _ _ src => 2 * (zlen src + bs)
  | _ => 0
  end.
Definition op_ok (o : op) : Prop :=
  match o with ORead n | OPeek n | OToss n => 0 <= n | _ => True end.
Definition cost (bs : Z) (os : list op) : Z := foldr (fun o c => op_cost bs o + c) 0 os.

Lemma ztake_consumed {A} n (q : list A) : ztake (Z.min n (zlen q)) q = ztake n q.
Proof.
  unfold ztake. destruct (Z.le_gt_cases n (zlen q)).
  - by rewrite Z.min_l by lia.
  - rewrite Z.min_r by lia. rewrite !take_ge by lia. done.
Qed.

Lemma zdrop_consumed {A} n (q : list A) : zdrop (Z.min n (zlen q)) q = zdrop n q.
Proof.
  unfold zdrop. destruct (Z.le_gt_cases n (zlen q)).
  - by rewrite Z.min_l by lia.
  - rewrite Z.min_r by lia. rewrite !drop_ge by lia. done.
Qed.

(** A write in the form the queue uses. *)
Lemma write_qwrite indet rok b src :
  wf b -> writable b -> fits b (zlen src) ->
  exists b' w, switch_buffer_write indet rok b src = Ok (b', w) /\ wf b' /\ writable b' /\
    qwrite (contents b) src (contents b') w /\ (w = 0 -> contents b' = contents b) /\
    datalen b' <= datalen b + zlen src + blocksize b /\ blocksize b' = blocksize b.
Proof.
  intros W Wr F. destruct (switch_buffer_write_spec indet rok b src W Wr F)
    as (b' & -> & W' & Wr' & C & D & B).
  pose proof (zlen_contents b W) as L. pose proof W as [].
  destruct (write_accepts rok b (zlen src)) eqn:A; eexists _, _; split_and!; eauto; rewrite ?C; try done.
  - replace (used b + zlen src) with (zlen (contents b ++ src)) by (rewrite length_app; lia).
    constructor.
  - intros. destruct src; [by rewrite app_nil_r|]. simpl in *. lia.
  - constructor. intros ->. unfold write_accepts in A. simpl in A.
    apply orb_false_elim in A as [A _]. btests. lia.
Qed.

Lemma consumed_contents b n : wf b -> consumed b n = Z.min n (zlen (contents b)).
Proof. intros. unfold consumed. by rewrite zlen_contents. Qed.

Ltac same_shape := split_and!; try done; unfold writable in *; repeat split; congruence || lia.

Lemma zwrite_refines indet ok ok2 b src :
  wf b -> writable b -> datalen b + 2 * (zlen src + blocksize b) < 2 ^ 32 ->
  exists b' w, switch_buffer_zwrite indet ok ok2 b src = Ok (b', w) /\ wf b' /\ writable b' /\
    qstep (OZwrite ok ok2 src) (contents b) (RSize w) (contents b') /\
    datalen b' <= datalen b + 2 * (zlen src + blocksize b) /\ blocksize b' = blocksize b.
Proof.
  intros W Wr F. pose proof W as []. unfold switch_buffer_zwrite. destruct Wr as [P D]. rewrite P.
  destruct (write_qwrite indet ok b src W (conj P D)) as (b1 & w & -> & W1 & Wr1 & Q & _ & DL & BL);
    [split; lia|]. simpl.
  destruct (Z.eqb_spec w 0) as [->|]; simpl.
  2:{ exists b1, w. split_and!; eauto using qstep; lia. }
  destruct (switch_buffer_zero_spec b1 W1) as (b2 & -> & W2 & C2 & D2 & F2 & DL2 & BL2); [apply Wr1|].
  simpl. assert (Wr2 : writable b2) by (unfold writable in *; rewrite D2, F2; done).
  destruct (write_qwrite indet ok2 b2 src W2 Wr2) as (b3 & w & -> & W3 & Wr3 & Q3 & _ & DL3 & BL3);
    [split; lia|].
  exists b3, w. rewrite C2 in Q3. split_and!; eauto using qstep; lia.
Qed.

Lemma slide_write_refines indet ok ok2 b src :
  wf b -> writable b -> datalen b + 2 * (zlen src + blocksize b) < 2 ^ 32 ->
  exists b' w, switch_buffer_slide_write indet ok ok2 b src = Ok (b', w) /\ wf b' /\ writable b' /\
    qstep (OSlide ok ok2 src) (contents b) (RSize w) (contents b') /\
    datalen b' <= datalen b + 2 * (zlen src + blocksize b) /\ blocksize b' = blocksize b.
Proof.
  intros W Wr F. pose proof W as []. unfold switch_buffer_slide_write. destruct Wr as [P D]. rewrite P.
  destruct (write_qwrite indet ok b src W (conj P D)) as (b1 & w & -> & W1 & Wr1 & Q & C1 & DL & BL);
    [split; lia|]. simpl.
  destruct (Z.eqb_spec w 0) as [->|]; simpl.
  2:{ exists b1, w. split_and!; eauto using qstep; lia. }
  destruct (switch_buffer_toss_spec b1 (zlen src) W1) as (b2 & -> & W2 & C2 & D2 & F2 & DL2 & BL2); [lia|].
  assert (Wr2 : writable b2) by (unfold writable in *; rewrite D2, F2; done).
  destruct (write_qwrite indet ok2 b2 src W2 Wr2) as (b3 & w & -> & W3 & Wr3 & Q3 & _ & DL3 & BL3);
    [split; lia|].
  exists b3, w. rewrite C2, C1, consumed_contents, C1, zdrop_consumed in Q3 by done.
  unfold zdrop in Q3. rewrite Nat2Z.id in Q3. split_and!; eauto using qstep; lia.
Qed.

Lemma step_refines indet o b :
  wf b -> writable b -> op_ok o -> datalen b + op_cost (blocksize b) o < 2 ^ 32 ->
  exists b' r, step indet o b = Ok (b', r) /\ wf b' /\ writable b' /\
    qstep o (contents b) r (contents b') /\
    datalen b' <= datalen b + op_cost (blocksize b) o /\ blocksize b' = blocksize b.
Proof.
  intros W Wr K F. pose proof W as []. pose proof (consumed_contents b) as CC.
  destruct o as [ok src|ok ok2 src|ok ok2 src|n|n|n|]; simpl in *.
  - destruct (write_qwrite indet ok b src W Wr) as (b' & w & -> & ? & ? & ? & _ & ? & ?); [split; lia|].
    simpl. eexists _, _. split_and!; eauto using qstep. lia.
  - destruct (zwrite_refines indet ok ok2 b src W Wr F) as (b' & w & -> & ?). simpl. eauto.
  - destruct (slide_write_refines indet ok ok2 b src W Wr F) as (b' & w & -> & ?). simpl. eauto.
  - destruct (switch_buffer_read_spec b n W K) as (b' & -> & W' & C & D & Fl & DL & BL). simpl.
    eexists _, _; split; [done|]. rewrite C, CC, ztake_consumed, zdrop_consumed by done.
    split_and!; try done; try (unfold writable in *; rewrite ?D, ?Fl; done); try lia.
    replace (Z.min n (zlen (contents b))) with (zlen (ztake n (contents b))); [constructor|].
    unfold ztake. rewrite length_take. lia.
  - destruct (switch_buffer_read_spec b n W K) as (b' & R & W' & C & D & Fl & DL & BL).
    assert (switch_buffer_peek b n = Ok (b, ztake n (contents b), zlen (ztake n (contents b)))) as ->.
    { revert R. unfold switch_buffer_read, switch_buffer_peek. rewrite CC, ztake_consumed by done.
      rewrite zlen_contents by done. assert (zlen (ztake n (contents b)) = Z.min n (used b)) as ->
        by (unfold ztake; rewrite length_take; pose proof (zlen_contents b W); lia).
      destruct (Z.ltb_spec (used b) 1); [rewrite used_zero by (done || lia); congruence|].
      destruct (load _ _ _); simpl; try done. intros. simplify_eq. congruence. }
    simpl. eexists _, _. split_and!; eauto using qstep. lia.
  - destruct (switch_buffer_toss_spec b n W K) as (b' & -> & W' & C & D & Fl & DL & BL).
    eexists _, _; split; [done|]. rewrite C, CC, zdrop_consumed by done.
    split_and!; try done; try (unfold writable in *; rewrite ?D, ?Fl; done); try lia.
    replace (used b - Z.min n (zlen (contents b))) with (zlen (zdrop n (contents b))); [constructor|].
    unfold zdrop. rewrite length_drop. pose proof (zlen_contents b W). lia.
  - destruct (switch_buffer_zero_spec b W) as (b' & -> & W' & C & D & Fl & DL & BL); [apply Wr|].
    simpl. eexists _, _; split; [done|]. rewrite C.
    split_and!; try apply qs_zero; try done; try (unfold writable in *; rewrite ?D, ?Fl; done); lia.
Qed.

(** ** Properties *)

Lemma run_refines indet os b :
  wf b -> writable b -> Forall op_ok os -> datalen b + cost (blocksize b) os < 2 ^ 32 ->
  exists b' rs, run indet os b = Ok (b', rs) /\ wf b' /\ writable b' /\
    qrun os (contents b) rs (contents b').
Proof.
  revert b. induction os as [|o os IH]; intros b W Wr K F.
  { exists b, []. auto using qrun_nil. }
  inversion_clear K as [|?? K1 K2]. pose proof W as [].
  change (cost (blocksize b) (o :: os)) with (op_cost (blocksize b) o + cost (blocksize b) os) in F.
  assert (forall l, 0 <= cost (blocksize b) l) as Hc
    by (intros l; induction l as [|[] ? ?]; simpl in *; lia).
  destruct (step_refines indet o b W Wr K1) as (b1 & r & E & W1 & Wr1 & Q & D1 & B1);
    [specialize (Hc os); lia|].
  destruct (IH b1 W1 Wr1 K2) as (b2 & rs & E2 & ? & ? & ?); [rewrite B1; lia|].
  exists b2, (r :: rs). simpl. rewrite E. simpl. rewrite E2. simpl. eauto using qrun_cons.
Qed.

(** C1. Any sequence of writes, reads, peeks, tosses and clears on a
    well-formed, writable buffer whose sizes stay within [size_t] never touches
    memory outside its storage and never trips an assertion: it runs to the end,
    the invariant holds after it, and the replies are those of a byte queue on
    which each write is appended whole or refused. *)
Theorem buffer_refines_queue indet os b :
  wf b -> writable b -> Forall op_ok os -> datalen b + cost (blocksize b) os < 2 ^ 32 ->
  exists b' rs, run indet os b = Ok (b', rs) /\ wf b' /\ writable b' /\
    qrun os (contents b) rs (contents b').
Proof. apply run_refines. Qed.

(** The exact outcome of [switch_buffer_write], on every branch: the write
    is accepted when it fits in the storage, or when the buffer is dynamic, the
    reallocation succeeds and [max_len] (0 meaning none) allows it; an accepted
    write returns the new number of used bytes and appends to the contents, a
    refused one returns 0 and leaves the contents alone. *)
Theorem buffer_write_exact indet rok b src :
  wf b -> writable b -> fits b (zlen src) ->
  exists b', switch_buffer_write indet rok b src
      = Ok (b', if write_accepts rok b (zlen src) then used b + zlen src else 0) /\
    wf b' /\ writable b' /\
    contents b' = (if write_accepts rok b (zlen src) then contents b ++ src else contents b).
Proof.
  intros W Wr F. destruct (switch_buffer_write_spec indet rok b src W Wr F) as (b' & ? & ? & ? & ? & _).
  eauto.
Qed.

(** The bytes a run handed to the reader, and the bytes it accepted. *)
Fixpoint delivered (os : list op) (rs : list reply) : list Z :=
  match os, rs with
  | ORead _ :: os, RBytes bs _ :: rs => bs ++ delivered os rs
  | _ :: os, _ :: rs => delivered os rs
  | _, _ => []
  end.
Fixpoint accepted (os : list op) (rs : list reply) : list Z :=
  match os, rs with
  | OWrite _ src :: os, RSize n :: rs => (if n =? 0 then [] else src) ++ accepted os rs
  | _ :: os, _ :: rs => accepted os rs
  | _, _ => []
  end.
Definition lossless (o : op) : Prop :=
  match o with OWrite _ _ | ORead _ | OPeek _ => True | _ => False end.

Lemma qrun_fifo os q rs q' :
  qrun os q rs q' -> Forall lossless os ->
  delivered os rs ++ q' = q ++ accepted os rs.
Proof.
  induction 1 as [q|o os q r q1 rs q2 S R IH]; intros K; [by rewrite app_nil_r|].
  inversion_clear K as [|?? K1 K2]. specialize (IH K2).
  destruct S as [?? q ? ? Q| | | | |n q|n q| |]; try done; simpl.
  - rewrite IH. destruct Q as [|Hne].
    + destruct (Z.eqb_spec (zlen (q ++ src)) 0) as [E|]; [|by rewrite app_assoc].
      rewrite length_app in E. assert (src = []) as -> by (destruct src; simpl in *; [done|lia]).
      by rewrite app_nil_r.
    + done.
  - rewrite <- app_assoc, IH, app_assoc. unfold ztake, zdrop. by rewrite take_drop.
Qed.

(** First in, first out: over any run of writes, reads and peeks, what was
    handed to the readers followed by what is still buffered is exactly what was
    buffered before followed by the bytes of the accepted writes, in order. *)
Theorem buffer_fifo indet os b :
  wf b -> writable b -> Forall op_ok os -> Forall lossless os ->
  datalen b + cost (blocksize b) os < 2 ^ 32 ->
  exists b' rs, run indet os b = Ok (b', rs) /\
    delivered os rs ++ contents b' = contents b ++ accepted os rs.
Proof.
  intros W Wr K Ls F. destruct (run_refines indet os b W Wr K F) as (b' & rs & ? & ? & ? & Q).
  eauto using qrun_fifo.
Qed.

(** What [switch_buffer_read_loop] rewinds to. *)
Definition everything (b : switch_buffer) : list Z := ztake (actually_used b) (default [] (data b)).

(** The looping read, on every branch: with bytes left it is a plain read;
    exhausted, it counts down a positive [loops], stops when the counter is 0,
    and otherwise rewinds to everything written and reads from there. *)
Theorem buffer_read_loop_exact b n :
  wf b -> 0 < n ->
  if 1 <=? used b then switch_buffer_read_loop b n = switch_buffer_read b n
  else
    let l := if 0 <? loops b then loops b - 1 else loops b in
    exists b', loops b' = l /\ wf b' /\
      if l =? 0 then switch_buffer_read_loop b n = Ok (b', [], 0) /\ contents b' = []
      else switch_buffer_read_loop b n
             = Ok (b', ztake n (everything b), Z.min n (actually_used b)) /\
           contents b' = zdrop n (everything b).
Proof.
  intros W Hn. pose proof W as []. unfold switch_buffer_read_loop.
  destruct (switch_buffer_read_spec b n W) as (b0 & R & _); [lia|].
  destruct (Z.leb_spec 1 (used b)); rewrite R; simpl.
  { rewrite (proj2 (Z.eqb_neq _ 0)); [done|]. unfold consumed. lia. }
  assert (used b = 0) as U by lia.
  assert (b0 = b) as -> by (unfold switch_buffer_read in R; rewrite (proj2 (Z.ltb_lt _ 1)), used_zero in R by (done || lia); congruence).
  replace (consumed b n) with 0 by (unfold consumed; lia). simpl.
  set (b1 := if 0 <? loops b then upd loops _ _ else _).
  assert (E1 : exists l, b1 = b <| loops := l |> /\ l = if 0 <? loops b then loops b - 1 else loops b).
  { subst b1. destruct (0 <? loops b); eexists; split; try done. by destruct b. }
  destruct E1 as (l & -> & ->). rupd. set (l := if _ <? _ then _ else _).
  destruct (l =? 0).
  { exists (b <| loops := l |>). rupd. split; [done|]. split; [constructor; rupd; lia|].
    split; [done|]. unfold contents; rupd. by rewrite U. }
  set (b2 := b <| loops := l |> <| head := 0 |> <| used := actually_used b |>).
  assert (W2 : wf b2) by (constructor; subst b2; rupd; lia).
  assert (C2 : contents b2 = everything b) by (unfold contents, everything; subst b2; rupd; done).
  destruct (switch_buffer_read_spec b2 n W2) as (b3 & R3 & W3 & C3 & _); [lia|].
  assert (loops b3 = loops b2).
  { revert R3. unfold switch_buffer_read. ifcase; [intros; by simplify_eq|].
    destruct (load _ _ _); simpl; intros; by simplify_eq. }
  rewrite consumed_contents, C2 in R3, C3 by done. rewrite ztake_consumed in R3. rewrite zdrop_consumed in C3.
  assert (zlen (everything b) = actually_used b) as L
    by (unfold everything; rewrite zlen_ztake; lia).
  rewrite L in R3. exists b3. split; [subst b2; rupd; congruence|]. split; [done|]. eauto.
Qed.

(** The constructors establish the invariant: a created buffer is empty
    with the storage asked for, a partition is full of the caller's bytes. *)
Theorem buffer_create_wf buffer_id bs start mlen (m : list Z) :
  0 <= start < 2 ^ 32 -> 0 <= bs < 2 ^ 32 -> 0 <= mlen < 2 ^ 32 -> zlen m < 2 ^ 32 ->
  (exists b, switch_buffer_create_dynamic true true buffer_id bs start mlen
     = (u32 (buffer_id + 1), Some b, SWITCH_STATUS_SUCCESS) /\
     wf b /\ contents b = [] /\ (start <> 0 -> writable b) /\
     switch_buffer_freespace b = (if mlen =? 0 then 1000000 else mlen)) /\
  (exists b, switch_buffer_create true true buffer_id start
     = (u32 (buffer_id + 1), Some b, SWITCH_STATUS_SUCCESS) /\
     wf b /\ contents b = [] /\ writable b /\ switch_buffer_freespace b = start) /\
  (exists b, switch_buffer_create_partition true buffer_id (Some m) (zlen m)
     = (u32 (buffer_id + 1), Some b, SWITCH_STATUS_SUCCESS) /\
     wf b /\ contents b = m /\ switch_buffer_freespace b = 0).
Proof.
  intros Hs Hb Hm Hl. split_and!.
  - unfold switch_buffer_create_dynamic. simpl. rewrite andb_false_r.
    eexists; split; [done|]. unfold writable, switch_buffer_freespace, contents. destruct (Z.eqb_spec start 0) as [->|]; rupd; simpl.
    + split_and!; try done; try (constructor; rupd; simpl; lia).
      destruct (mlen =? 0); simpl; [done|]. rewrite size_t_small; lia.
    + split_and!; try done; try (constructor; rupd; simpl; rewrite ?length_replicate; lia).
      destruct (mlen =? 0); simpl; [done|]. rewrite size_t_small; lia.
  - unfold switch_buffer_create. simpl. eexists; split; [done|].
    unfold writable, switch_buffer_freespace, contents. rupd. simpl.
    split_and!; try done; try (constructor; rupd; simpl; rewrite ?length_replicate; lia).
    change (test_flag _ _) with false. cbv iota. rewrite size_t_small; lia.
  - unfold switch_buffer_create_partition, switch_buffer_set_partition_data, switch_buffer_reset_partition_data.
    rupd. change (test_flag _ _) with true. simpl. rupd. change (test_flag _ _) with true. simpl.
    eexists; split; [done|]. unfold switch_buffer_freespace, contents. rupd. simpl.
    split_and!; [constructor; rupd; simpl; lia| |].
    + unfold ztake. apply take_ge. lia.
    + change (test_flag _ _) with false. cbv iota. rewrite size_t_small; lia.
Qed.

(** [max_len] does not bound a dynamic buffer: a growth by [blocksize] takes
    the storage past it, a later write then fills that storage, and
    [switch_buffer_freespace] reports a wrapped, huge number. *)
Theorem buffer_max_len_not_enforced :
  let '(_, h, _) := switch_buffer_create_dynamic true true 0 1000 10 20 in
  let os := [OWrite true (replicate 15 1); OWrite true (replicate 500 2)] in
  match from_option (run (fun _ => 0) os) UB h with
  | Ok (b, rs) =>
      rs = [RSize 15; RSize 515] /\ max_len b = 20 /\ used b = 515 /\
      switch_buffer_freespace b = 2 ^ 32 - 495
  | _ => False
  end.
Proof. vm_compute. auto. Qed.

(** *** Witnesses *)

Definition w_buf : switch_buffer :=
  mk_switch_buffer (Some [7; 8; 9; 0]) 1 2 3 4 0 8 false SWITCH_BUFFER_FLAG_DYNAMIC 0 3.

Lemma w_buf_wf : wf w_buf.
Proof. constructor; vm_compute; intuition congruence. Qed.

Lemma w_buf_writable : writable w_buf.
Proof. split; [reflexivity|discriminate]. Qed.

Definition w_ops : list op := [OWrite true [1; 2; 3]; ORead 4; OPeek 1; OSlide true false [5]; OZero].

Lemma buffer_refines_queue_witness :
  exists b' rs, run (fun _ => 0) w_ops w_buf = Ok (b', rs) /\ wf b' /\ writable b' /\
    qrun w_ops [8; 9] rs (contents b').
Proof.
  apply (buffer_refines_queue (fun _ => 0) w_ops w_buf w_buf_wf w_buf_writable).
  - repeat constructor; simpl; lia.
  - vm_compute. reflexivity.
Defined.

Lemma buffer_write_exact_witness :
  exists b', switch_buffer_write (fun _ => 0) true w_buf [1; 2; 3] = Ok (b', 5) /\
    wf b' /\ writable b' /\ contents b' = [8; 9; 1; 2; 3].
Proof.
  apply (buffer_write_exact (fun _ => 0) true w_buf [1; 2; 3] w_buf_wf w_buf_writable).
  split; vm_compute; reflexivity.
Defined.

Lemma buffer_fifo_witness :
  exists b' rs, run (fun _ => 0) [OWrite true [1]; ORead 2] w_buf = Ok (b', rs) /\
    delivered [OWrite true [1]; ORead 2] rs ++ contents b'
      = [8; 9] ++ accepted [OWrite true [1]; ORead 2] rs.
Proof.
  apply (buffer_fifo (fun _ => 0) _ w_buf w_buf_wf w_buf_writable).
  - repeat constructor; simpl; lia.
  - repeat constructor.
  - vm_compute. reflexivity.
Defined.

Lemma buffer_read_loop_exact_witness :
  switch_buffer_read_loop w_buf 1 = switch_buffer_read w_buf 1.
Proof. exact (buffer_read_loop_exact w_buf 1 w_buf_wf eq_refl). Defined.

Lemma buffer_create_wf_witness :
  exists b, switch_buffer_create true true 3 16 = (4, Some b, SWITCH_STATUS_SUCCESS) /\ wf b.
Proof.
  destruct (buffer_create_wf 3 8 16 0 [1]) as (_ & (b & E & W & _) & _); [lia..|done|].
  exists b. split; [exact E|exact W].
Defined.
