(* ===== verification/PortAllocator.v ===== *)
(** * The RTP port allocator (src/switch_core_port_allocator.c)

    A range of ports with one signed byte per slot: 1 is in use, a negative
    value is a slot cooling down (it counts up by one each time a search walks
    over it), 0 is free.  [rand()] and the socket test are oracles. *)
From S2P Require Import Prelude.

Definition SPF_ODD : Z := 1.
Definition SPF_EVEN : Z := 2.
Definition SPF_ROBUST_TCP : Z := 4.
Definition SPF_ROBUST_UDP : Z := 8.

(** [ip], [mutex] and [pool] carry no behaviour here: the address is part of the
    socket oracle, the mutex makes each operation one step. *)
Record switch_core_port_allocator := mk_alloc {
  start : Z;
  end_ : Z;
  next : Z;
  track : list Z;
  track_len : Z;
  track_used : Z;
  flags : Z
}.

#[export] Instance eta_alloc : Eta switch_core_port_allocator := fun a =>
  mk_alloc (start a) (end_ a) (next a) (track a) (track_len a) (track_used a) (flags a).

Definition even_flag (a : switch_core_port_allocator) : bool := test_flag (flags a) SPF_EVEN.
Definition odd_flag (a : switch_core_port_allocator) : bool := test_flag (flags a) SPF_ODD.

(** [pool_ok] and [alloc_ok] are the outcomes of the two allocations;
    [port_alloc_flags] is [runtime.port_alloc_flags]. *)
Definition switch_core_port_allocator_new (pool_ok : switch_status) (alloc_ok : bool)
    (port_alloc_flags : Z) (start end_ flags_ : Z)
  : switch_status * option switch_core_port_allocator :=
  match pool_ok with
  | SWITCH_STATUS_SUCCESS =>
    if negb alloc_ok then (SWITCH_STATUS_MEMERR, None)
    else
      let even := test_flag flags_ SPF_EVEN in
      let odd := test_flag flags_ SPF_ODD in
      let flags_ := Z.lor flags_ port_alloc_flags in
      let '(start, end_) :=
        if negb (even && odd) then
          if even then
            let start := if negb (start mod 2 =? 0) then u16 (start + 1) else start in
            let end_ := if negb (end_ mod 2 =? 0) then u16 (end_ - 1) else end_ in
            (start, end_)
          else if odd then
            let start := if start mod 2 =? 0 then u16 (start + 1) else start in
            let end_ := if end_ mod 2 =? 0 then u16 (end_ - 1) else end_ in
            (start, end_)
          else (start, end_)
        else (start, end_) in
      let tlen := u32 ((end_ - start) + 2) in
      let tlen := if negb (even && odd) then tlen / 2 else tlen in
      let tr := replicate (Z.to_nat (u32 (tlen + 2))) 0 in
      (SWITCH_STATUS_SUCCESS, Some (mk_alloc start end_ start tr tlen 0 flags_))
  | st => (st, None)
  end.

(** The inner loop of a request: from [index] walk up the slots, circularly,
    to the first 0, moving cooling slots towards 0.  [fuel] is the bound
    [track_len - tries] of the C loop itself. *)
Fixpoint walk (fuel : nat) (tlen : Z) (tr : list Z) (index tries : Z) : list Z * Z * Z :=
  match fuel with
  | O => (tr, index, tries)
  | S fuel =>
    match tr !! Z.to_nat index with
    | None => (tr, index, tries)
    | Some t =>
      if t =? 0 then (tr, index, tries)
      else
        let tries := tries + 1 in
        let tr := if t <? 0 then <[Z.to_nat index := t + 1]> tr else tr in
        let index := index + 1 in
        let index := if tlen <=? index then 0 else index in
        walk fuel tlen tr index tries
    end
  end.

(** What one turn of the outer loop draws from outside: [rand()], and the
    verdicts of the UDP and TCP socket tests. *)
Record draw := mk_draw { rnd : Z; udp_ok : Z -> bool; tcp_ok : Z -> bool }.

Definition slot_port (a : switch_core_port_allocator) (index : Z) : Z :=
  if even_flag a && odd_flag a then u16 (index + start a)
  else u16 (u16 (index + start a / 2) * 2).

(** [test_port] is only called under the matching flag; the TCP verdict
    replaces the UDP one. *)
Definition robust_test (a : switch_core_port_allocator) (d : draw) (port : Z) : bool :=
  let r := true in
  let r := if test_flag (flags a) SPF_ROBUST_UDP then udp_ok d port else r in
  if test_flag (flags a) SPF_ROBUST_TCP then tcp_ok d port else r.

(** One turn of the outer loop: the new state, and the port when it ends. *)
Definition request_turn (a : switch_core_port_allocator) (d : draw)
  : switch_core_port_allocator * option Z :=
  let index := rnd d mod track_len a in
  let '(tr, index, tries) := walk (Z.to_nat (track_len a)) (track_len a) (track a) index 0 in
  let a := a <| track := tr |> in
  if tries <? track_len a then
    let port := slot_port a index in
    if robust_test a d port then
      let a := a <| track := <[Z.to_nat index := 1]> (track a) |> in
      (a <| track_used := u32 (track_used a + 1) |>, Some port)
    else (a <| track := <[Z.to_nat index := -4]> (track a) |>, None)
  else (a, None).

(** The outer loop over the list of draws; [None] means that it is still
    running when the draws are used up. *)
Fixpoint switch_core_port_allocator_request_port (ds : list draw) (a : switch_core_port_allocator)
  : option (switch_core_port_allocator * switch_status * Z) :=
  if track_used a <? track_len a then
    match ds with
    | [] => None
    | d :: ds =>
      match request_turn a d with
      | (a, Some port) => Some (a, SWITCH_STATUS_SUCCESS, port)
      | (a, None) => switch_core_port_allocator_request_port ds a
      end
    end
  else Some (a, SWITCH_STATUS_FALSE, 0).

(** The slot is read without a bounds check against [track_len]: past the
    allocated bytes it is [UB]. *)
Definition switch_core_port_allocator_free_port (a : switch_core_port_allocator) (port : Z)
  : outcome (switch_core_port_allocator * switch_status) :=
  if port <? start a then Ok (a, SWITCH_STATUS_GENERR)
  else
    let index := port - start a in
    let index := if negb (even_flag a && odd_flag a) then index / 2 else index in
    match track a !! Z.to_nat index with
    | None => UB
    | Some t =>
      if 0 <? t then
        let a := a <| track := <[Z.to_nat index := -4]> (track a) |> in
        Ok (a <| track_used := u32 (track_used a - 1) |>, SWITCH_STATUS_SUCCESS)
      else Ok (a, SWITCH_STATUS_FALSE)
    end.

Definition switch_core_port_allocator_destroy (h : switch_core_port_allocator)
  : option switch_core_port_allocator := None.

(** ** Invariant: slots hold -4 .. 1 and [track_used] counts the used ones *)

Definition used_slots (tr : list Z) : Z := zlen (filter (fun t => t = 1) tr).

Record inv (a : switch_core_port_allocator) : Prop := mk_inv {
  inv_len : zlen (track a) = track_len a + 2;
  inv_pos : 0 < track_len a;
  inv_slots : Forall (fun t => -4 <= t <= 1) (track a);
  inv_tail : zdrop (track_len a) (track a) = [0; 0];
  inv_used : track_used a = used_slots (track a);
  inv_small : track_len a < 2 ^ 16
}.

(** An allocator of even ports over [start .. end_]. *)
Record even_range (a : switch_core_port_allocator) : Prop := mk_even_range {
  er_even : even_flag a = true;
  er_odd : odd_flag a = false;
  er_start : start a mod 2 = 0 /\ 0 <= start a;
  er_end : end_ a = start a + 2 * (track_len a - 1);
  er_port : end_ a < 2 ^ 16
}.

Definition in_use (a : switch_core_port_allocator) (i : Z) : Prop :=
  0 <= i < track_len a /\ track a !! Z.to_nat i = Some 1.

(** [warmer tr tr']: cooling slots may have moved towards 0, nothing else
    changed.  It is what a walk does. *)
Definition warmed (t t' : Z) : Prop := t' = t \/ t < t' <= 0.
Definition warmer : list Z -> list Z -> Prop := Forall2 warmed.

#[export] Instance warmed_preorder : PreOrder warmed.
Proof. split; unfold warmed; red; lia. Qed.

#[export] Instance warmer_preorder : PreOrder warmer.
Proof. unfold warmer. apply _. Qed.

Lemma warmer_length tr tr' : warmer tr tr' -> length tr' = length tr.
Proof. intros H. symmetry. by eapply Forall2_length. Qed.

Lemma warmer_lookup tr tr' j t :
  warmer tr tr' -> tr !! j = Some t -> exists t', tr' !! j = Some t' /\ warmed t t'.
Proof. intros H E. eapply Forall2_lookup_l in E; eauto. Qed.

Lemma warmer_one tr tr' j : warmer tr tr' -> tr' !! j = Some 1 <-> tr !! j = Some 1.
Proof.
  intros H. split; intros E.
  - eapply Forall2_lookup_r in E as (t & E & W); [|done]. unfold warmed in W. rewrite E. f_equal. lia.
  - eapply warmer_lookup in E as (t & E & W); [|done]. unfold warmed in W. rewrite E. f_equal. lia.
Qed.

Lemma warmer_slots tr tr' :
  warmer tr tr' -> Forall (fun t => -4 <= t <= 1) tr -> Forall (fun t => -4 <= t <= 1) tr'.
Proof. induction 1; inversion_clear 1; constructor; auto. unfold warmed in *. lia. Qed.

Lemma warmer_used tr tr' : warmer tr tr' -> used_slots tr' = used_slots tr.
Proof.
  induction 1 as [|t t' l l' W _ IH]; [done|]. unfold used_slots in *. rewrite !filter_cons.
  unfold warmed in W. repeat case_decide; simpl; lia.
Qed.

Lemma warmer_insert tr (i : nat) t : tr !! i = Some t -> t < 0 -> warmer tr (<[i := t + 1]> tr).
Proof.
  intros E Ht. rewrite <- (list_insert_id tr i t) at 1 by done.
  apply Forall2_insert; [reflexivity|]. right. lia.
Qed.

Lemma used_slots_insert tr (i : nat) t v :
  tr !! i = Some t ->
  used_slots (<[i := v]> tr) =
    used_slots tr - (if decide (t = 1) then 1 else 0) + (if decide (v = 1) then 1 else 0).
Proof.
  revert i. induction tr as [|x tr IH]; intros [|i]; try done; simpl; intros E.
  - simplify_eq. unfold used_slots. rewrite !filter_cons. repeat case_decide; simpl; lia.
  - specialize (IH i E). unfold used_slots in *. rewrite !filter_cons.
    destruct (decide (x = 1)); simpl; lia.
Qed.

Lemma used_slots_app l k : used_slots (l ++ k) = used_slots l + used_slots k.
Proof. unfold used_slots. rewrite filter_app, length_app. lia. Qed.

Lemma used_slots_full l : used_slots l <= zlen l /\ (used_slots l = zlen l -> Forall (fun t => t = 1) l).
Proof.
  induction l as [|x l [IH1 IH2]]; [done|]. unfold used_slots in *. rewrite filter_cons.
  case_decide; simpl; split; try lia. intros. constructor; [done|]. apply IH2. lia.
Qed.

Lemma inv_split a : inv a ->
  used_slots (track a) = used_slots (ztake (track_len a) (track a)) /\
  zlen (ztake (track_len a) (track a)) = track_len a.
Proof.
  intros I. pose proof I as []. split.
  - rewrite <- (take_drop (Z.to_nat (track_len a)) (track a)) at 1. rewrite used_slots_app.
    fold (zdrop (track_len a) (track a)). rewrite inv_tail0. change (used_slots [0; 0]) with 0.
    unfold ztake. lia.
  - apply zlen_ztake. lia.
Qed.

Lemma inv_used_bound a : inv a -> 0 <= track_used a <= track_len a.
Proof.
  intros I. destruct (inv_split a I) as [E L]. rewrite (inv_used a I), E.
  pose proof (used_slots_full (ztake (track_len a) (track a))). unfold used_slots in *. lia.
Qed.

Lemma inv_full a i : inv a -> track_used a = track_len a -> 0 <= i < track_len a -> in_use a i.
Proof.
  intros I F Hi. destruct (inv_split a I) as [E L]. rewrite (inv_used a I), E in F.
  destruct (used_slots_full (ztake (track_len a) (track a))) as [_ H]. split; [done|].
  assert (Forall (fun t => t = 1) (ztake (track_len a) (track a))) as All by (apply H; lia).
  destruct (lookup_lt_is_Some_2 (ztake (track_len a) (track a)) (Z.to_nat i)) as [t Ht]; [lia|].
  rewrite Forall_lookup in All. pose proof (All _ _ Ht) as ->.
  unfold ztake in Ht. by apply lookup_take_Some in Ht as [? _].
Qed.

Lemma inv_not_full a : inv a -> track_used a < track_len a ->
  exists i t, 0 <= i < track_len a /\ track a !! Z.to_nat i = Some t /\ -4 <= t <= 0.
Proof.
  intros I F. destruct (inv_split a I) as [E L]. rewrite (inv_used a I), E in F. rewrite <- L in F at 2.
  assert (forall l, used_slots l < zlen l -> exists k t, l !! k = Some t /\ t <> 1) as X.
  { induction l as [|x l IH]; [done|]. destruct (decide (x = 1)) as [->|Hx].
    - unfold used_slots in *. rewrite filter_cons_True by done. simpl. intros.
      destruct IH as (k & t & ? & ?); [lia|]. by exists (S k), t.
    - intros _. by exists O, x. }
  destruct (X _ F) as (k & t & Hk & Ht). apply lookup_take_Some in Hk as [Hk Hlt].
  exists (Z.of_nat k), t. rewrite Nat2Z.id. split; [lia|]. split; [done|].
  pose proof (inv_slots a I) as Hs. rewrite Forall_lookup in Hs. specialize (Hs _ _ Hk). simpl in Hs. lia.
Qed.

Lemma inv_warmer a tr : inv a -> warmer (track a) tr -> inv (a <| track := tr |>).
Proof.
  intros I W. pose proof I as []. pose proof (warmer_length _ _ W).
  constructor; rupd; try done; try lia.
  - by eapply warmer_slots.
  - assert (Forall2 warmed (zdrop (track_len a) (track a)) (zdrop (track_len a) tr)) as D
      by (by apply Forall2_drop). rewrite inv_tail0 in D.
    inversion D as [|?? ? l W1 D1]; subst. inversion D1 as [|?? ? l' W2 D2]; subst. inversion D2; subst.
    unfold warmed in *. f_equal; [lia|]. f_equal. lia.
  - by rewrite (warmer_used _ _ W).
Qed.

(** ** The walk *)

Lemma slot_walk_spec fuel tlen tr i tries :
  0 <= i < tlen -> tlen <= zlen tr ->
  let '(tr', i', tries') := walk fuel tlen tr i tries in
  warmer tr tr' /\ 0 <= i' < tlen /\ tries <= tries' <= tries + Z.of_nat fuel /\
  (tries' < tries + Z.of_nat fuel -> tr' !! Z.to_nat i' = Some 0) /\
  (tries' = tries + Z.of_nat fuel -> forall m t, 0 <= m < Z.of_nat fuel ->
     tr !! Z.to_nat ((i + m) mod tlen) = Some t -> t <= 0 ->
     exists t', tr' !! Z.to_nat ((i + m) mod tlen) = Some t' /\ t < t').
Proof.
  revert tr i tries. induction fuel as [|fuel IH]; intros tr i tries Hi Hl; cbn [walk].
  { split_and!; try lia; reflexivity. }
  destruct (lookup_lt_is_Some_2 tr (Z.to_nat i)) as [t Ht]; [lia|]. rewrite Ht.
  destruct (Z.eqb_spec t 0) as [->|Hne].
  { split_and!; try lia; reflexivity || done. }
  set (tr1 := if t <? 0 then _ else _).
  assert (W1 : warmer tr tr1 /\ (t < 0 -> tr1 !! Z.to_nat i = Some (t + 1))).
  { subst tr1. destruct (Z.ltb_spec t 0); [|split; [reflexivity|lia]].
    split; [by apply warmer_insert|]. intros. apply list_lookup_insert_eq. lia. }
  destruct W1 as [W1 T1]. pose proof (warmer_length _ _ W1).
  set (i1 := if _ <=? _ then _ else _).
  assert (Hi1 : i1 = (i + 1) mod tlen).
  { subst i1. destruct (Z.leb_spec tlen (i + 1)); [|by rewrite Z.mod_small by lia].
    replace (i + 1) with tlen by lia. by rewrite Z.mod_same by lia. }
  specialize (IH tr1 i1 (tries + 1)).
  destruct (walk fuel tlen tr1 i1 (tries + 1)) as [[tr' i'] tries'].
  destruct IH as (W & Hi' & Hb & Hz & Hv).
  { rewrite Hi1. apply Z.mod_pos_bound. lia. } { lia. }
  split_and!; try lia.
  - by etrans.
  - intros. apply Hz. lia.
  - intros E m t0 Hm Ht0 Hle. destruct (Z.eq_dec m 0) as [->|].
    + rewrite Z.add_0_r, Z.mod_small in * by lia. simplify_eq.
      destruct (warmer_lookup _ _ _ _ W (T1 ltac:(lia))) as (t' & ? & Wt).
      exists t'. unfold warmed in Wt. split; [done|lia].
    + destruct (warmer_lookup _ _ _ _ W1 Ht0) as (t1 & Ht1 & Wt1). unfold warmed in Wt1.
      assert ((i + m) mod tlen = (i1 + (m - 1)) mod tlen) as Em
        by (rewrite Hi1, Z.add_mod_idemp_l by lia; f_equal; lia).
      rewrite Em in Ht1 |- *.
      destruct (Hv ltac:(lia) (m - 1) t1 ltac:(lia) Ht1 ltac:(lia)) as (t' & ? & ?).
      exists t'. split; [done|lia].
Qed.

(** ** Changing one slot *)

Definition is1 (t : Z) : Z := if decide (t = 1) then 1 else 0.

Definition put_slot (a : switch_core_port_allocator) (i v n : Z) : switch_core_port_allocator :=
  a <| track := <[Z.to_nat i := v]> (track a) |> <| track_used := n |>.

Lemma inv_put a i t v n :
  inv a -> 0 <= i < track_len a -> track a !! Z.to_nat i = Some t -> -4 <= v <= 1 ->
  n = track_used a - is1 t + is1 v -> inv (put_slot a i v n).
Proof.
  intros I Hi Ht Hv ->. pose proof I as []. unfold put_slot.
  constructor; rupd; try done; try lia.
  - by rewrite length_insert.
  - apply Forall_insert; [done|lia].
  - unfold zdrop in *. rewrite drop_insert_lt by lia. done.
  - rewrite (used_slots_insert _ _ t) by done. unfold is1. lia.
Qed.

Lemma in_use_put a i v n j :
  0 <= i < track_len a -> zlen (track a) = track_len a + 2 ->
  in_use (put_slot a i v n) j <-> if decide (j = i) then v = 1 else in_use a j.
Proof.
  intros Hi Hl. unfold in_use, put_slot. rupd. case_decide as E.
  - subst. rewrite list_lookup_insert_eq by lia. naive_solver.
  - destruct (decide (0 <= j < track_len a)); [|naive_solver].
    rewrite list_lookup_insert_ne by lia. done.
Qed.

Definition config (a : switch_core_port_allocator) : Z * Z * Z * Z :=
  (start a, end_ a, track_len a, flags a).

Lemma config_inv a a' : config a' = config a ->
  start a' = start a /\ end_ a' = end_ a /\ track_len a' = track_len a /\ flags a' = flags a.
Proof. unfold config. intros E. injection E. auto. Qed.

Lemma slot_port_config a a' i : config a' = config a -> slot_port a' i = slot_port a i.
Proof.
  intros (S & _ & _ & F)%config_inv. unfold slot_port, even_flag, odd_flag. by rewrite S, F.
Qed.

Lemma even_range_config a a' : config a' = config a -> even_range a -> even_range a'.
Proof.
  intros (S & En & T & F)%config_inv []. unfold even_flag, odd_flag in *.
  constructor; unfold even_flag, odd_flag; rewrite ?F, ?T, ?S, ?En; done.
Qed.

Lemma request_turn_spec a d :
  inv a ->
  let '(a', r) := request_turn a d in
  config a' = config a /\ inv a' /\
  match r with
  | Some port => exists i, 0 <= i < track_len a /\ ~ in_use a i /\ port = slot_port a i /\
      robust_test a d port = true /\ track_used a' = track_used a + 1 /\
      forall j, in_use a' j <-> j = i \/ in_use a j
  | None => track_used a' = track_used a /\ (forall j, in_use a' j <-> in_use a j) /\
      ((forall p, robust_test a d p = true) ->
       forall j t, 0 <= j < track_len a -> track a !! Z.to_nat j = Some t -> t <= 0 ->
         exists t', track a' !! Z.to_nat j = Some t' /\ t < t')
  end.
Proof.
  intros I. pose proof I as []. unfold request_turn.
  pose proof (Z.mod_pos_bound (rnd d) (track_len a)) as Hr.
  set (i0 := rnd d mod track_len a) in *.
  pose proof (slot_walk_spec (Z.to_nat (track_len a)) (track_len a) (track a) i0 0) as H.
  destruct (walk _ _ _ _ _) as [[tr i] tries].
  destruct H as (W & Hi & Hb & Hz & Hv); [lia|lia|].
  pose proof (inv_warmer a tr I W) as I1. rupd.
  assert (U1 : forall j, in_use (a <| track := tr |>) j <-> in_use a j)
    by (intros j; unfold in_use; rupd; by rewrite (warmer_one _ _ _ W)).
  destruct (Z.ltb_spec tries (track_len a)) as [Hlt|Hge].
  2:{ split_and!; try done. intros _ j t Hj Ht Hle.
      destruct (Hv ltac:(lia) ((j - i0) mod track_len a) t) as (t' & E & ?); try done.
      { rewrite Z2Nat.id by lia. apply Z.mod_pos_bound. lia. }
      { rewrite Z.add_mod_idemp_r, Zplus_minus, Z.mod_small by lia. done. }
      rewrite Z.add_mod_idemp_r, Zplus_minus, Z.mod_small in E by lia. eauto. }
  specialize (Hz ltac:(lia)).
  assert (N : ~ in_use a i) by (rewrite <- U1; unfold in_use; rupd; rewrite Hz; naive_solver).
  pose proof (inv_used_bound a I) as Hu.
  assert (track_used a <> track_len a) by (intros F; by apply N, inv_full).
  pose proof (warmer_length _ _ W) as Hlen.
  change (robust_test (a <| track := tr |>) d) with (robust_test a d).
  change (slot_port (a <| track := tr |>)) with (slot_port a).
  destruct (robust_test a d (slot_port a i)) eqn:R.
  - change (_ <| track_used := _ |>) with (put_slot (a <| track := tr |>) i 1 (u32 (track_used a + 1))).
    rewrite u32_small by lia. split; [done|]. split.
    { apply (inv_put _ _ 0); rupd; try done; unfold is1; simpl; lia. }
    exists i. split_and!; try done; try lia. intros j. rewrite in_use_put by (rupd; lia).
    rewrite <- U1. case_decide; naive_solver.
  - change (a <| track := _ |> <| track := _ |>)
      with (put_slot (a <| track := tr |>) i (-4) (track_used a)).
    split; [done|]. split.
    { apply (inv_put _ _ 0); rupd; try done; unfold is1; simpl; lia. }
    split; [done|]. split.
    { intros j. rewrite in_use_put by (rupd; lia). rewrite <- (U1 j). case_decide; [|done].
      subst. rewrite U1. naive_solver lia. }
    intros T. by rewrite T in R.
Qed.

(** What a finished request means. *)
Lemma request_port_spec ds a a' st port :
  inv a -> switch_core_port_allocator_request_port ds a = Some (a', st, port) ->
  config a' = config a /\ inv a' /\
  match st with
  | SWITCH_STATUS_SUCCESS => exists i, 0 <= i < track_len a /\ ~ in_use a i /\ port = slot_port a i /\
      track_used a' = track_used a + 1 /\ forall j, in_use a' j <-> j = i \/ in_use a j
  | _ => st = SWITCH_STATUS_FALSE /\ port = 0 /\ forall j, (0 <= j < track_len a -> in_use a j) /\ (in_use a' j <-> in_use a j)
  end.
Proof.
  revert a. induction ds as [|d ds IH]; intros a I; simpl;
    (destruct (Z.ltb_spec (track_used a) (track_len a)) as [L|L];
     [|intros [= <- <- <-]; split_and!; try done; try lia;
       intros j; split; [intros; apply inv_full; try done; pose proof (inv_used_bound a I); lia|done]]).
  { done. }
  pose proof (request_turn_spec a d I) as T. destruct (request_turn a d) as [a1 [p|]].
  - intros [= <- <- <-]. destruct T as (C & I1 & i & ? & ? & ? & _ & ? & ?). eauto 10.
  - destruct T as (C & I1 & U & H & _). intros E. destruct (IH a1 I1 E) as (C' & I' & X).
    destruct (config_inv _ _ C) as (_ & _ & TL & _).
    split; [congruence|]. split; [done|].
    assert (X' : st = SWITCH_STATUS_SUCCESS \/ st = SWITCH_STATUS_FALSE) by (destruct st; tauto).
    destruct X' as [->| ->].
    + destruct X as (i & ? & ? & -> & ? & Hj). exists i. rewrite (slot_port_config a1 a) by done.
      rewrite <- TL. rewrite <- H. split_and!; try done; try lia.
      intros j. by rewrite Hj, H.
    + destruct X as (? & ? & X). split_and!; try done. intros j. destruct (X j) as [X1 X2].
      rewrite X2, <- H, <- TL. done.
Qed.

Lemma slot_port_even a i :
  even_range a -> 0 <= i < track_len a -> slot_port a i = start a + 2 * i.
Proof.
  intros [? ? [] ? ?] Hi. unfold slot_port. rewrite er_even0, er_odd0. cbn [andb].
  rewrite (u16_small (i + start a / 2)) by (Z.div_mod_to_equations; lia).
  rewrite u16_small; Z.div_mod_to_equations; lia.
Qed.

Lemma free_port_spec a i :
  even_range a -> inv a -> 0 <= i < track_len a ->
  exists a' st, switch_core_port_allocator_free_port a (start a + 2 * i) = Ok (a', st) /\
    config a' = config a /\ inv a' /\
    ((in_use a i /\ st = SWITCH_STATUS_SUCCESS /\ track_used a' = track_used a - 1 /\
      forall j, in_use a' j <-> in_use a j /\ j <> i) \/
     (~ in_use a i /\ st = SWITCH_STATUS_FALSE /\ a' = a)).
Proof.
  intros R I Hi. pose proof R as []. pose proof I as []. unfold switch_core_port_allocator_free_port.
  rewrite er_even0, er_odd0. simpl.
  rewrite (proj2 (Z.ltb_ge _ _)) by lia.
  replace ((start a + 2 * i - start a) / 2) with i by (Z.div_mod_to_equations; lia).
  destruct (lookup_lt_is_Some_2 (track a) (Z.to_nat i)) as [t Ht]; [lia|]. rewrite Ht.
  rewrite Forall_lookup in inv_slots0. pose proof (inv_slots0 _ _ Ht) as Hb. simpl in Hb.
  destruct (Z.ltb_spec 0 t).
  - assert (t = 1) as -> by lia. rupd.
    assert (1 <= track_used a).
    { rewrite inv_used0. pose proof (used_slots_insert _ _ 1 0 Ht) as E. simpl in E.
      unfold used_slots in *. lia. }
    pose proof (inv_used_bound a I).
    change (a <| track := _ |> <| track_used := _ |>) with (put_slot a i (-4) (u32 (track_used a - 1))).
    rewrite u32_small by lia. eexists _, _. split; [done|]. split; [done|].
    split; [apply (inv_put _ _ 1); try done; unfold is1; simpl; lia|].
    left. split; [done|]. split; [done|]. split; [done|].
    intros j. rewrite in_use_put by lia. case_decide; naive_solver lia.
  - eexists _, _. split; [done|]. split; [done|]. split; [done|]. right.
    split; [|done]. intros [_ E]. simplify_eq. lia.
Qed.

(** ** Clients: the ports handed out and not given back *)

Inductive client_step : switch_core_port_allocator -> gset Z -> switch_core_port_allocator -> gset Z -> Prop :=
| cs_request a live ds a' port :
    switch_core_port_allocator_request_port ds a = Some (a', SWITCH_STATUS_SUCCESS, port) ->
    client_step a live a' ({[port]} ∪ live)
| cs_refused a live ds a' st port :
    switch_core_port_allocator_request_port ds a = Some (a', st, port) -> st <> SWITCH_STATUS_SUCCESS ->
    client_step a live a' live
| cs_free a live a' st port :
    port ∈ live -> switch_core_port_allocator_free_port a port = Ok (a', st) ->
    client_step a live a' (live ∖ {[port]}).

(** The flags and range that a media profile with even RTP ports passes. *)
Record even_args (paf start end_ flags_ : Z) : Prop := mk_even_args {
  ea_even : test_flag flags_ SPF_EVEN = true;
  ea_odd : test_flag flags_ SPF_ODD = false;
  ea_paf : test_flag paf SPF_ODD = false;
  ea_range : 0 <= start < end_ /\ end_ < 2 ^ 16
}.

Inductive clients : switch_core_port_allocator -> gset Z -> Prop :=
| clients_new paf start end_ flags_ a :
    even_args paf start end_ flags_ ->
    switch_core_port_allocator_new SWITCH_STATUS_SUCCESS true paf start end_ flags_
      = (SWITCH_STATUS_SUCCESS, Some a) ->
    clients a ∅
| clients_step a live a' live' : clients a live -> client_step a live a' live' -> clients a' live'.

Lemma test_flag_lor f g x : test_flag (Z.lor f g) x = test_flag f x || test_flag g x.
Proof.
  unfold test_flag. rewrite Z.land_lor_distr_l.
  destruct (Z.eqb_spec (Z.lor (Z.land f x) (Z.land g x)) 0) as [E|E].
  - apply Z.lor_eq_0_iff in E as [-> ->]. done.
  - destruct (Z.eqb_spec (Z.land f x) 0) as [E1|]; [|done].
    destruct (Z.eqb_spec (Z.land g x) 0) as [E2|]; [|done]. by rewrite E1, E2 in E.
Qed.

Lemma used_slots_zero n : used_slots (replicate n 0) = 0.
Proof. induction n; [done|]. unfold used_slots in *. simpl. rewrite filter_cons. by case_decide. Qed.

Lemma fresh_inv s e n fl :
  0 < n < 2 ^ 16 -> inv (mk_alloc s e s (replicate (Z.to_nat (u32 (n + 2))) 0) n 0 fl).
Proof.
  intros. rewrite u32_small by lia. constructor; simpl; try lia.
  - rewrite length_replicate. lia.
  - apply Forall_forall. intros x Hx. apply elem_of_replicate in Hx as [-> _]. lia.
  - unfold zdrop. rewrite drop_replicate.
    replace (Z.to_nat (n + 2) - Z.to_nat n)%nat with 2%nat by lia. done.
  - by rewrite used_slots_zero.
Qed.

(** Rounding of the range by the constructor. *)
Definition round_up (x : Z) : Z := if negb (x mod 2 =? 0) then u16 (x + 1) else x.
Definition round_down (x : Z) : Z := if negb (x mod 2 =? 0) then u16 (x - 1) else x.

Lemma round_spec s e : 0 <= s < e -> e < 2 ^ 16 ->
  s <= round_up s <= s + 1 /\ round_up s mod 2 = 0 /\ e - 1 <= round_down e <= e /\ round_down e mod 2 = 0 /\ round_up s <= round_down e.
Proof.
  intros. unfold round_up, round_down.
  destruct (Z.eqb_spec (s mod 2) 0), (Z.eqb_spec (e mod 2) 0); cbn [negb];
    rewrite ?(u16_small (s + 1)) by (Z.div_mod_to_equations; lia);
    rewrite ?(u16_small (e - 1)) by (Z.div_mod_to_equations; lia);
    Z.div_mod_to_equations; lia.
Qed.

Lemma new_even paf s e fl :
  even_args paf s e fl ->
  exists a, switch_core_port_allocator_new SWITCH_STATUS_SUCCESS true paf s e fl
              = (SWITCH_STATUS_SUCCESS, Some a) /\   even_range a /\ inv a /\ (forall j, ~ in_use a j) /\
    start a = round_up s /\ end_ a = round_down e /\ flags a = Z.lor fl paf.
Proof.
  intros [Ev Od Pa [Hr He]]. destruct (round_spec s e Hr He) as (? & ? & ? & ? & ?).
  unfold switch_core_port_allocator_new. cbn [negb]. rewrite Ev, Od. cbn [andb negb].
  fold (round_up s) (round_down e).
  rewrite (u32_small (round_down e - round_up s + 2)) by lia.
  eexists. split; [reflexivity|].
  assert (0 < (round_down e - round_up s + 2) / 2 < 2 ^ 16) by (Z.div_mod_to_equations; lia).
  split_and!; try reflexivity.
  - constructor; unfold even_flag, odd_flag; simpl; rewrite ?test_flag_lor, ?Ev, ?Od, ?Pa;
      try done; try lia; Z.div_mod_to_equations; lia.
  - by apply fresh_inv.
  - intros j [_ E]. simpl in E. apply lookup_replicate in E as [? _]. done.
Qed.

Definition live_slots (a : switch_core_port_allocator) (live : gset Z) : Prop :=
  forall p, p ∈ live <-> exists i, in_use a i /\ p = start a + 2 * i.

Lemma clients_inv a live : clients a live -> even_range a /\ inv a /\ live_slots a live.
Proof.
  induction 1 as [paf s e fl a A E|a live a' live' _ (R & I & L) S].
  { destruct (new_even _ _ _ _ A) as (a1 & E1 & R & I & F & _). rewrite E1 in E. injection E as ->.
    split_and!; try done. intros p. split; [set_solver|]. intros (i & ? & _). by destruct (F i). }
  destruct S as [a live ds a' port E|a live ds a' st port E N|a live a' st port P E].
  - destruct (request_port_spec _ _ _ _ _ I E) as (C & I' & i & Hi & _ & -> & _ & J).
    split_and!; eauto using even_range_config. pose proof (config_inv _ _ C) as (St & _).
    rewrite slot_port_even by done. intros p. rewrite elem_of_union, elem_of_singleton, (L p), St.
    setoid_rewrite J. naive_solver.
  - destruct (request_port_spec _ _ _ _ _ I E) as (C & I' & X).
    split_and!; eauto using even_range_config. pose proof (config_inv _ _ C) as (St & _).
    assert (forall j, in_use a' j <-> in_use a j) as J.
    { destruct st; try done; destruct X as (_ & _ & X); intros j; apply X. }
    intros p. rewrite (L p), St. by setoid_rewrite J.
  - apply L in P as (i & U & ->).
    destruct (free_port_spec a i R I (proj1 U)) as (a2 & st2 & E2 & C & I2 & X).
    rewrite E2 in E. injection E as <- <-. split_and!; eauto using even_range_config.
    pose proof (config_inv _ _ C) as (St & _). destruct X as [(_ & _ & _ & J)|(N & _)]; [|done].
    intros p. rewrite elem_of_difference, elem_of_singleton, (L p), St. setoid_rewrite J.
    split; [intros [(k & ? & ->) ?]; exists k; naive_solver lia|].
    intros (k & [? ?] & ->). split; [eauto|]. lia.
Qed.

(** Slots that are not used and not cold enough to block a search. *)
Lemma request_terminates n ds a :
  inv a -> (forall d p, d ∈ ds -> robust_test a d p = true) ->
  track_used a < track_len a ->
  (exists i t, 0 <= i < track_len a /\ track a !! Z.to_nat i = Some t /\ - Z.of_nat n <= t <= 0) ->
  (n < length ds)%nat -> is_Some (switch_core_port_allocator_request_port ds a).
Proof.
  revert ds a. induction n as [|n IH]; intros [|d ds] a I T F (i & t & Hi & Ht & Hb) L; simpl in L; try lia;
    simpl; rewrite (proj2 (Z.ltb_lt _ _)) by lia;
    pose proof (request_turn_spec a d I) as S; destruct (request_turn a d) as [a1 [p|]]; eauto;
    destruct S as (C & I1 & U & J & G); destruct (config_inv _ _ C) as (_ & _ & TL & FL);
    destruct (G (fun p => T d p ltac:(set_solver)) i t Hi Ht ltac:(lia)) as (t1 & Ht1 & Hlt).
  - exfalso. assert (t = 0) as -> by lia.
    pose proof (inv_slots a1 I1) as Hs. rewrite Forall_lookup in Hs. specialize (Hs _ _ Ht1). simpl in Hs.
    assert (t1 = 1) as -> by lia. assert (in_use a i) as [_ X]; [|congruence].
    rewrite <- J. split; [lia|done].
  - apply IH; try done; try lia.
    + intros d' p Hd. rewrite <- (T d' p) by set_solver. unfold robust_test. by rewrite FL.
    + exists i, t1. split; [lia|]. split; [done|]. split; [lia|].
      pose proof (inv_slots a1 I1) as Hs. rewrite Forall_lookup in Hs. specialize (Hs _ _ Ht1). simpl in Hs.
      destruct (decide (t1 = 1)) as [->|]; [|lia].
      assert (in_use a i) as [_ X]; [|rewrite Ht in X; injection X; lia].
      rewrite <- J. split; [lia|done].
Qed.

(** When the socket tests do not fail, a request returns after at most five
    draws of the random generator: a free slot cools by at least one step in
    each turn of the outer loop. *)
Lemma request_returns a live ds :
  clients a live -> (forall d p, d ∈ ds -> robust_test a d p = true) -> (4 < length ds)%nat ->
  is_Some (switch_core_port_allocator_request_port ds a).
Proof.
  intros K T Ln. destruct (clients_inv _ _ K) as (R & I & L).
  destruct (Z.lt_ge_cases (track_used a) (track_len a)) as [H|H].
  - apply (request_terminates 4); try done. by apply inv_not_full.
  - destruct ds; simpl; rewrite (proj2 (Z.ltb_ge _ _)) by done; eauto.
Qed.

(** ** Properties *)

(** C8. On an allocator of even ports ([SPF_EVEN] alone), whatever clients did before (requests, refusals,
    releases, in any order, with any random numbers and socket verdicts): a request that
    returns gives an even port of the configured range that no client holds,
    and is refused exactly when every port of the range is held; and it does return, with five draws
    of the random generator at most, when its socket tests succeed.  When they keep failing it may not
    ([request_never_returns]); the other modes leave the range ([allocator_modes_out_of_range]). *)
Theorem port_exclusive a live :
  clients a live ->
  (forall ds a' st port, switch_core_port_allocator_request_port ds a = Some (a', st, port) ->
    (st = SWITCH_STATUS_SUCCESS /\ port ∉ live /\ port mod 2 = 0 /\ start a <= port <= end_ a /\
       clients a' ({[port]} ∪ live)) \/
    (st = SWITCH_STATUS_FALSE /\ port = 0 /\ clients a' live /\
       forall p, p ∈ live <-> start a <= p <= end_ a /\ p mod 2 = 0)) /\
  (forall ds, (forall d p, d ∈ ds -> robust_test a d p = true) -> (4 < length ds)%nat ->
    is_Some (switch_core_port_allocator_request_port ds a)).
Proof.
  intros K. split; [|intros ds; by apply (request_returns a live)]. intros ds a' st port E.
  destruct (clients_inv _ _ K) as (R & I & L). pose proof R as [_ _ [] ? _].
  destruct (request_port_spec _ _ _ _ _ I E) as (_ & _ & X).
  assert (st = SWITCH_STATUS_SUCCESS \/ st = SWITCH_STATUS_FALSE) as [->| ->] by (destruct st; tauto).
  - left. destruct X as (i & Hi & N & -> & _). rewrite slot_port_even in * by done.
    split_and!; try lia; try done.
    + rewrite (L _). intros (j & J & Ej). assert (j = i) as -> by lia. done.
    + Z.div_mod_to_equations; lia.
    + eapply clients_step; [done|]. by econstructor.
  - right. destruct X as (_ & -> & X). split_and!; try done.
    { eapply clients_step; [done|]. by econstructor. }
    intros p. rewrite (L p). split.
    + intros (i & [Hi _] & ->). split; [lia|]. Z.div_mod_to_equations; lia.
    + intros [? ?]. exists ((p - start a) / 2). split; [apply (proj1 (X _))|]; Z.div_mod_to_equations; lia.
Qed.

(** A held port can always be given back: the release succeeds, the port is
    no longer held, and a second release of it is refused without changing the
    allocator. *)
Theorem port_release a live port :
  clients a live -> port ∈ live ->
  exists a', switch_core_port_allocator_free_port a port = Ok (a', SWITCH_STATUS_SUCCESS) /\
    clients a' (live ∖ {[port]}) /\ track_used a' = track_used a - 1 /\
    switch_core_port_allocator_free_port a' port = Ok (a', SWITCH_STATUS_FALSE).
Proof.
  intros K P. destruct (clients_inv _ _ K) as (R & I & L). pose proof P as P'.
  apply L in P as (i & U & ->).
  destruct (free_port_spec a i R I (proj1 U)) as (a1 & st1 & E & C & I1 & X).
  destruct X as [(_ & -> & T & J)|(N & _)]; [|done].
  exists a1. split; [done|]. split; [eapply clients_step; [done|by econstructor]|]. split; [done|].
  pose proof (config_inv _ _ C) as (St & _ & TL & _). rewrite <- St.
  destruct (free_port_spec a1 i (even_range_config _ _ C R) I1) as (a2 & st2 & E2 & _ & _ & X).
  { rewrite TL. apply U. }
  rewrite E2. destruct X as [(F & _)|(_ & -> & ->)]; [|done]. apply J in F as [_ F]. done.
Qed.

(** A request whose socket tests all fail keeps looping with the mutex held. *)
Lemma request_stuck ds a :
  inv a -> track_used a < track_len a -> (forall d p, d ∈ ds -> robust_test a d p = false) ->
  switch_core_port_allocator_request_port ds a = None.
Proof.
  revert a. induction ds as [|d ds IH]; intros a I U T; simpl;
    rewrite (proj2 (Z.ltb_lt _ _)) by done; [done|].
  pose proof (request_turn_spec a d I) as S. destruct (request_turn a d) as [a1 [p|]].
  - destruct S as (_ & _ & i & _ & _ & _ & F & _). rewrite T in F by set_solver. done.
  - destruct S as (C & I1 & U1 & _). pose proof (config_inv _ _ C) as (_ & _ & TL & FL).
    apply IH; try done; [lia|].
    intros d' p Hd. rewrite <- (T d' p) by set_solver. unfold robust_test. by rewrite FL.
Qed.

(** When the socket tests keep failing and a port is left, the request
    never returns: no number of draws ends the loop (the mutex stays locked). *)
Theorem request_never_returns a live p ds :
  clients a live -> start a <= p <= end_ a -> p mod 2 = 0 -> p ∉ live ->
  (forall d q, d ∈ ds -> robust_test a d q = false) ->
  switch_core_port_allocator_request_port ds a = None.
Proof.
  intros K Hp Hm N T. destruct (clients_inv _ _ K) as (R & I & L). pose proof R as [_ _ [] ? _].
  apply request_stuck; try done. pose proof (inv_used_bound a I).
  destruct (Z.eq_dec (track_used a) (track_len a)) as [F|]; [|lia].
  exfalso. apply N. apply L. exists ((p - start a) / 2).
  split; [apply inv_full|]; try done; Z.div_mod_to_equations; lia.
Qed.

Definition fresh (start end_ flags_ : Z) : option switch_core_port_allocator :=
  snd (switch_core_port_allocator_new SWITCH_STATUS_SUCCESS true 0 start end_ flags_).
Definition draw_of (r : Z) : draw := mk_draw r (fun _ => true) (fun _ => true).

(** The other modes of the allocator hand out ports outside the range they
    were given: with both flags the slot past [end_] exists and is returned;
    with [SPF_ODD] alone the first port is even and below [start], and giving
    it back is refused. *)
Theorem allocator_modes_out_of_range :
  match fresh 10 12 (Z.lor SPF_ODD SPF_EVEN) with
  | Some a => end_ a = 12 /\
      option_map snd (switch_core_port_allocator_request_port [draw_of 3] a) = Some 13
  | None => False
  end /\
  match fresh 11 15 SPF_ODD with
  | Some a => start a = 11 /\
      match switch_core_port_allocator_request_port [draw_of 0] a with
      | Some (a', st, port) => st = SWITCH_STATUS_SUCCESS /\ port = 10 /\
          switch_core_port_allocator_free_port a' port = Ok (a', SWITCH_STATUS_GENERR)
      | None => False
      end
  | None => False
  end.
Proof. vm_compute. auto. Qed.

(** ** Witnesses *)

Definition w_alloc : switch_core_port_allocator := mk_alloc 10 14 10 [0; 0; 0; 0; 0] 3 0 SPF_EVEN.
Definition w_alloc1 : switch_core_port_allocator := mk_alloc 10 14 10 [0; 1; 0; 0; 0] 3 1 SPF_EVEN.

Definition w_alloc3 : switch_core_port_allocator := mk_alloc 10 14 10 [0; 1; 1; 0; 0] 3 2 SPF_EVEN.

Lemma w_args : even_args 0 9 14 SPF_EVEN.
Proof. split; try reflexivity. lia. Qed.

Lemma w_clients : clients w_alloc ∅.
Proof. apply (clients_new 0 9 14 SPF_EVEN _ w_args). vm_compute. reflexivity. Qed.

Lemma w_clients1 : clients w_alloc1 ({[12]} ∪ ∅).
Proof.
  eapply clients_step; [exact w_clients|]. apply (cs_request w_alloc ∅ [draw_of 4]).
  vm_compute. reflexivity.
Qed.

Lemma port_exclusive_witness :
  switch_core_port_allocator_request_port [draw_of 1] w_alloc1
    = Some (w_alloc3, SWITCH_STATUS_SUCCESS, 14) /\ 14 ∉ ({[12]} ∪ ∅ : gset Z).
Proof.
  assert (switch_core_port_allocator_request_port [draw_of 1] w_alloc1
    = Some (w_alloc3, SWITCH_STATUS_SUCCESS, 14)) as E by (vm_compute; reflexivity).
  split; [exact E|].
  destruct (proj1 (port_exclusive w_alloc1 _ w_clients1) [draw_of 1] _ _ _ E) as [(_ & N & _)|(F & _)];
    [exact N|discriminate F].
Defined.

Lemma port_release_witness :
  exists a', switch_core_port_allocator_free_port w_alloc1 12 = Ok (a', SWITCH_STATUS_SUCCESS) /\
    switch_core_port_allocator_free_port a' 12 = Ok (a', SWITCH_STATUS_FALSE).
Proof.
  destruct (port_release w_alloc1 _ 12 w_clients1) as (a' & E & _ & _ & F); [set_solver|].
  exists a'. split; [exact E|exact F].
Defined.

Lemma request_returns_witness :
  is_Some (switch_core_port_allocator_request_port (replicate 5 (draw_of 1)) w_alloc1).
Proof.
  apply (request_returns w_alloc1 _ _ w_clients1); [|simpl; lia].
  intros d p Hd. reflexivity.
Defined.

Definition w_alloc2 : switch_core_port_allocator :=
  mk_alloc 10 14 10 [0; 0; 0; 0; 0] 3 0 (Z.lor SPF_EVEN SPF_ROBUST_UDP).
Definition bad_draw (r : Z) : draw := mk_draw r (fun _ => false) (fun _ => true).

Lemma w_clients2 : clients w_alloc2 ∅.
Proof.
  apply (clients_new SPF_ROBUST_UDP 9 14 SPF_EVEN); [|vm_compute; reflexivity].
  split; try reflexivity. lia.
Qed.

Lemma request_never_returns_witness :
  switch_core_port_allocator_request_port [bad_draw 0; bad_draw 5; bad_draw 7] w_alloc2 = None.
Proof.
  apply (request_never_returns w_alloc2 ∅ 12 _ w_clients2); simpl; [lia|reflexivity|set_solver|].
  intros d q Hd. rewrite !elem_of_cons in Hd.
  destruct Hd as [->|[->|[->|Hd]]]; [reflexivity..|]. by apply elem_of_nil in Hd.
Defined.
