(* ===== verification/CStrings.v ===== *)
(** * C strings

    The contents of a string up to its terminating zero, and the functions of
    <string.h> and <stdlib.h> that the components use on them. *)
From S2P Require Import Prelude.
From stdpp Require Import strings.
From Stdlib Require Import String Ascii.
Open Scope Z_scope.

Definition lower (c : ascii) : ascii :=
  let n := N_of_ascii c in
  if ((65 <=? n) && (n <=? 90))%N then ascii_of_N (n + 32) else c.

(** [strcasecmp(a, b) == 0] in the C locale. *)
Fixpoint strcaseeq (a b : string) : bool :=
  match a, b with
  | EmptyString, EmptyString => true
  | String x a, String y b => Ascii.eqb (lower x) (lower y) && strcaseeq a b
  | _, _ => false
  end.

Definition digit (c : ascii) : option Z :=
  let n := Z.of_N (N_of_ascii c) in
  if (47 <? n) && (n <? 58) then Some (n - 48) else None.

(** [atoi] of a string that starts with a digit: the value saturates at the
    largest 32-bit [long], as [strtol] does. *)
Fixpoint atoi_from (acc : Z) (s : string) : Z :=
  match s with
  | EmptyString => acc
  | String c s' =>
    match digit c with
    | Some d => atoi_from (Z.min (acc * 10 + d) (2 ^ 31 - 1)) s'
    | None => acc
    end
  end.
Definition atoi (s : string) : Z := atoi_from 0 s.

Definition zstr (s : option string) : bool :=
  match s with None => true | Some EmptyString => true | _ => false end.

Fixpoint slower (s : string) : string :=
  match s with EmptyString => EmptyString | String c s => String (lower c) (slower s) end.

Lemma strcaseeq_slower a b : strcaseeq a b = true <-> slower a = slower b.
Proof.
  revert b. induction a as [|x a IH]; intros [|y b]; simpl; split; try done.
  - intros [E%Ascii.eqb_eq F]%andb_prop. apply IH in F. congruence.
  - intros [= E F]. rewrite E, (proj2 (IH b) F). by rewrite Ascii.eqb_refl.
Qed.

Lemma lower_digit c : digit (lower c) = digit c.
Proof. destruct c as [[] [] [] [] [] [] [] []]; reflexivity. Qed.
