(* ===== verification/StringUtils.v ===== *)
(** * String utilities (src/switch_utils.c)

    Numbers and truth values in text, base 64, URL encoding, and the separator
    that splits argument lists with quotes and escapes. *)
From S2P Require Import Prelude CStrings.
From stdpp Require Import strings.
From Stdlib Require Import String Ascii.
Open Scope Z_scope.
#[local] Notation length := List.length (only parsing).

(** ** Characters *)

Definition chr (n : Z) : ascii := ascii_of_N (Z.to_N n).
Definition ord (c : ascii) : Z := Z.of_N (N_of_ascii c).

Definition NUL : ascii := chr 0.
Definition QUOTE : ascii := chr 39.
Definition DQUOTE : ascii := chr 34.
Definition ESCAPE_META : ascii := chr 92.
Definition SPACE : ascii := chr 32.

Infix "=c" := Ascii.eqb (at level 70) : fs_scope.

(** [strchr(s, c) != NULL] for a [c] other than the terminator. *)
Fixpoint strchr (s : string) (c : ascii) : bool :=
  match s with
  | EmptyString => false
  | String d s => (d =c c) || strchr s c
  end.

(** [*s], the terminator at the end. *)
Definition head (s : string) : ascii := match s with EmptyString => NUL | String c _ => c end.

Fixpoint slen (s : string) : Z :=
  match s with EmptyString => 0 | String _ s => 1 + slen s end.

(** The contents of a C string have no zero character. *)
Fixpoint cstring (s : string) : Prop :=
  match s with EmptyString => True | String c s => c <> NUL /\ cstring s end.

(** ** Numbers and truth values *)

Definition numeric (c : ascii) : bool := (c =c ".") || ((47 <? ord c) && (ord c <? 58)).

Fixpoint all_chars (f : ascii -> bool) (s : string) : bool :=
  match s with EmptyString => true | String c s => f c && all_chars f s end.
Fixpoint some_char (f : ascii -> bool) (s : string) : bool :=
  match s with EmptyString => false | String c s => f c || some_char f s end.

Definition skip_sign (s : string) : string :=
  match s with
  | EmptyString => s
  | String c q => if (c =c "-") || (c =c "+") then q else s
  end.

Definition switch_is_number (s : string) : bool := all_chars numeric (skip_sign s).
Definition switch_is_leading_number (s : string) : bool := some_char numeric (skip_sign s).

(** [atoi] with its sign; the value is used as a truth value only. *)
Definition atoi_signed (s : string) : Z :=
  match s with
  | EmptyString => 0
  | String c q => if c =c "-" then - atoi q else if c =c "+" then atoi q else atoi s
  end.

(** [strchr] as it is used to cut a string in two, and [atoi] with its spaces. *)
Fixpoint split_at_char (c : ascii) (s : string) : string * option string :=
  match s with
  | EmptyString => (EmptyString, None)
  | String a s => if a =c c then (EmptyString, Some s) else let '(x, y) := split_at_char c s in (String a x, y)
  end.

Definition is_space (c : ascii) : bool := let n := ord c in (n =? 32) || ((8 <? n) && (n <? 14)).
Fixpoint atoi_spaces (s : string) : Z :=
  match s with
  | EmptyString => 0
  | String c q => if is_space c then atoi_spaces q else atoi_signed s
  end.

Definition switch_true (expr : option string) : bool :=
  match expr with
  | None => false
  | Some s =>
    strcaseeq s "yes" || strcaseeq s "on" || strcaseeq s "true" || strcaseeq s "t"
    || strcaseeq s "enabled" || strcaseeq s "active" || strcaseeq s "allow"
    || (switch_is_number s && negb (atoi_signed s =? 0))
  end.

(** ** Telephone events *)

Definition RFC2833_CHARS : string := "0123456789*#ABCDF".

Definition switch_toupper (c : ascii) : ascii :=
  if (97 <=? ord c) && (ord c <=? 122) then chr (ord c - 32) else c.

(** The table has its terminator as an eighteenth entry. *)
Definition switch_rfc2833_to_char (event : Z) : ascii :=
  if (-1 <? event) && (event <? 18) then default NUL (String.get (Z.to_nat event) RFC2833_CHARS) else NUL.

Fixpoint rfc2833_index (c : ascii) (s : string) (counter : Z) : Z :=
  match s with
  | EmptyString => 0
  | String d s => if d =c c then counter else rfc2833_index c s (u8 (counter + 1))
  end.
Definition switch_char_to_rfc2833 (key : ascii) : Z := rfc2833_index (switch_toupper key) RFC2833_CHARS 0.

(** ** Base 64 *)

Definition switch_b64_table : string :=
  "ABCDEFGHIJKLMNOPQRSTUVWXYZabcdefghijklmnopqrstuvwxyz0123456789+/".

Definition b64_char (n : Z) : Z := ord (default NUL (String.get (Z.to_nat n) switch_b64_table)).

(** A store at the end of what was written so far, into a buffer of [cap] bytes. *)
Definition put (cap : Z) (out : list Z) (c : Z) : outcome (list Z) :=
  if zlen out <? cap then Ok (out ++ [c]) else UB.

(** The inner loop of the encoder; the boolean says that the output is full.
    Eight more bits are at most two characters. *)
Fixpoint b64_drain (n : nat) (olen b l : Z) (out : list Z) : outcome (Z * list Z * bool) :=
  match n with
  | O => Ok (l, out, false)
  | S n =>
    if 6 <=? l then
      let l := l - 6 in
      out ← put olen out (b64_char (Z.shiftr b l mod 64));
      if i32 olen - 1 <=? zlen out then Ok (l, out, true) else b64_drain n olen b l out
    else Ok (l, out, false)
  end.

Fixpoint b64_bytes (olen b l : Z) (out inp : list Z) : outcome (Z * Z * list Z * bool) :=
  match inp with
  | [] => Ok (b, l, out, false)
  | c :: inp =>
    let b := u32 (Z.shiftl b 8 + c) in
    let* (l, out, full) := b64_drain 3 olen b (l + 8) out in
    if full then Ok (b, l, out, true) else b64_bytes olen b l out inp
  end.

Fixpoint b64_pad (n : nat) (olen l : Z) (out : list Z) : outcome (list Z) :=
  match n with
  | O => Ok out
  | S n =>
    if (l <? 6) && (zlen out <? i32 olen - 1) then
      out ← put olen out (ord "=");
      b64_pad n olen (l + 2) out
    else Ok out
  end.

(** What is in [out] at the end, the terminator included. *)
Definition switch_b64_encode (inp : list Z) (olen : Z) : outcome (list Z) :=
  let* (b, l, out, full) := b64_bytes olen 0 0 [] inp in
  out ← (if full then Ok out
         else
           out ← (if 0 <? l then put olen out (b64_char (Z.shiftl (b mod 16) (6 - l) mod 64)) else Ok out);
           if negb (l =? 0) then b64_pad 3 olen l out else Ok out);
  put olen out 0.

(** [l64]: the [char] table of the decoder, filled with -1 and then with the
    positions of the letters.  [signed] says what plain [char] is; on the ARM
    target it is unsigned, and where it is signed a byte above 127 is a negative
    index. *)
Fixpoint b64_find (c : Z) (s : string) (i : Z) : option Z :=
  match s with
  | EmptyString => None
  | String d s => if ord d =? c then Some i else b64_find c s (i + 1)
  end.
Definition l64 (signed : bool) (c : Z) : Z :=
  match b64_find c switch_b64_table 0 with
  | Some i => i
  | None => if signed then -1 else 255
  end.

(** The inner loop of the decoder; the largest entry of [l64] leaves [l] below 14. *)
Fixpoint b64_emit (n : nat) (olen b l : Z) (out : list Z) : outcome (Z * list Z * bool) :=
  match n with
  | O => Ok (l, out, false)
  | S n =>
    if 8 <=? l then
      let l := l - 8 in
      out ← put olen out (u8 (Z.rem (Z.shiftr b l) 256));
      if size_t (olen - 2) <=? zlen out then Ok (l, out, true) else b64_emit n olen b l out
    else Ok (l, out, false)
  end.

(** The text up to its terminator; [b] is an [int] that wraps. *)
Fixpoint b64_text (signed : bool) (olen b l : Z) (out : list Z) (text : list Z) : outcome (list Z) :=
  match text with
  | [] => Ok out
  | c :: text =>
    if signed && (127 <? c) then UB
    else if l64 signed c =? -1 then b64_text signed olen b l out text
    else
      let b := i32 (Z.shiftl b 6 + l64 signed c) in
      let* (l, out, full) := b64_emit 2 olen b (l + 6) out in
      if full then Ok out else b64_text signed olen b l out text
  end.

Definition switch_b64_decode (signed : bool) (text : list Z) (olen : Z) : outcome (list Z) :=
  out ← b64_text signed olen 0 0 [] text;
  put olen out 0.

(** ** Base 64: the encoder against the definition of RFC 4648 *)

Fixpoint b64 (inp : list Z) : list Z :=
  match inp with
  | x :: y :: z :: inp =>
    b64_char (x / 4) :: b64_char (x mod 4 * 16 + y / 16) :: b64_char (y mod 16 * 4 + z / 64)
      :: b64_char (z mod 64) :: b64 inp
  | [x; y] => [b64_char (x / 4); b64_char (x mod 4 * 16 + y / 16); b64_char (y mod 16 * 4); ord "="]
  | [x] => [b64_char (x / 4); b64_char (x mod 4 * 16); ord "="; ord "="]
  | [] => []
  end.

Definition byte (x : Z) : Prop := 0 <= x < 256.

(** Induction over three bytes at a time. *)
Lemma triples (P : list Z -> Prop) :
  P [] -> (forall x, P [x]) -> (forall x y, P [x; y]) ->
  (forall x y z l, P l -> P (x :: y :: z :: l)) -> forall l, P l.
Proof.
  intros H0 H1 H2 H3. fix IH 1. intros [|x [|y [|z l]]]; [done|apply H1|apply H2|apply H3, IH].
Qed.

Lemma length_snoc {A} (l : list A) x : zlen (l ++ [x]) = zlen l + 1.
Proof. rewrite length_app. simpl. lia. Qed.

(** What the bits of the accumulator give. *)
Lemma bits_first b x : byte x -> Z.shiftr (u32 (Z.shiftl b 8 + x)) 2 mod 64 = x / 4.
Proof. unfold byte. rewrite Z.shiftr_div_pow2, Z.shiftl_mul_pow2 by lia. cint. Qed.
Lemma bits_second b x y : byte x -> byte y ->
  Z.shiftr (u32 (Z.shiftl (u32 (Z.shiftl b 8 + x)) 8 + y)) 4 mod 64 = x mod 4 * 16 + y / 16.
Proof. unfold byte. rewrite Z.shiftr_div_pow2, !Z.shiftl_mul_pow2 by lia. cint. Qed.
Lemma bits_third b y z : byte y -> byte z ->
  Z.shiftr (u32 (Z.shiftl (u32 (Z.shiftl b 8 + y)) 8 + z)) 6 mod 64 = y mod 16 * 4 + z / 64.
Proof. unfold byte. rewrite Z.shiftr_div_pow2, !Z.shiftl_mul_pow2 by lia. cint. Qed.
Lemma bits_fourth b z : byte z -> Z.shiftr (u32 (Z.shiftl b 8 + z)) 0 mod 64 = z mod 64.
Proof. unfold byte. rewrite Z.shiftr_0_r, Z.shiftl_mul_pow2 by lia. cint. Qed.
Lemma bits_left1 b x : byte x ->
  Z.shiftl (u32 (Z.shiftl b 8 + x) mod 16) (6 - 2) mod 64 = x mod 4 * 16.
Proof. unfold byte. rewrite !Z.shiftl_mul_pow2 by lia. cint. Qed.
Lemma bits_left2 b y : byte y ->
  Z.shiftl (u32 (Z.shiftl b 8 + y) mod 16) (6 - 4) mod 64 = y mod 16 * 4.
Proof. unfold byte. rewrite !Z.shiftl_mul_pow2 by lia. cint. Qed.

Lemma put_ok olen out c : zlen out < olen -> put olen out c = Ok (out ++ [c]).
Proof. intros H. unfold put. by rewrite (proj2 (Z.ltb_lt _ _)). Qed.

(** A full output is the beginning of what would be written. *)
Lemma full_output n (out cs rest : list Z) :
  zlen (out ++ cs) = n -> out ++ cs = take (Z.to_nat n) (out ++ cs ++ rest).
Proof.
  intros H. rewrite (app_assoc out cs rest), take_app_le by lia. by rewrite take_ge by lia.
Qed.

Section Base64.
#[local] Set Default Proof Using "All".
Context (olen : Z) (Holen : 2 <= olen < 2 ^ 31).

Lemma i32_olen : i32 olen = olen.
Proof. cint. Qed.

Lemma drain_step n b l out :
  6 <= l -> zlen out < olen - 1 ->
  b64_drain (S n) olen b l out =
    let o := out ++ [b64_char (Z.shiftr b (l - 6) mod 64)] in
    if olen - 1 <=? zlen o then Ok (l - 6, o, true) else b64_drain n olen b (l - 6) o.
Proof.
  intros Hl Ho. simpl. rewrite (proj2 (Z.leb_le _ _)) by done. rewrite put_ok by lia. simpl.
  by rewrite i32_olen.
Qed.

Lemma drain_done n b l out : l < 6 -> b64_drain n olen b l out = Ok (l, out, false).
Proof. intros H. destruct n; [done|]. simpl. by rewrite (proj2 (Z.leb_gt _ _)). Qed.

(** What follows the loop over the bytes. *)
Definition b64_finish (r : outcome (Z * Z * list Z * bool)) : outcome (list Z) :=
  let* (b, l, out, full) := r in
  out ← (if full then Ok out
         else
           out ← (if 0 <? l then put olen out (b64_char (Z.shiftl (b mod 16) (6 - l) mod 64)) else Ok out);
           if negb (l =? 0) then b64_pad 3 olen l out else Ok out);
  put olen out 0.

Lemma finish_full b l out : zlen out < olen -> b64_finish (Ok (b, l, out, true)) = Ok (out ++ [0]).
Proof. intros H. simpl. by rewrite put_ok. Qed.

Lemma pad_step n l out : l < 6 -> zlen out < olen - 1 ->
  b64_pad (S n) olen l out = b64_pad n olen (l + 2) (out ++ [ord "="]).
Proof.
  intros Hl Ho. simpl. rewrite i32_olen, (proj2 (Z.ltb_lt _ _)), (proj2 (Z.ltb_lt _ _)), put_ok by lia. done.
Qed.

Lemma pad_stop n l out : 6 <= l \/ olen - 1 <= zlen out -> b64_pad n olen l out = Ok out.
Proof.
  intros H. destruct n; [done|]. simpl. rewrite i32_olen.
  destruct (Z.ltb_spec l 6), (Z.ltb_spec (zlen out) (olen - 1)); try done. lia.
Qed.

(** The encoder stops at a full output, with the beginning of the text. *)
Lemma stop_full b l out cs rest : zlen (out ++ cs) = olen - 1 ->
  b64_finish (Ok (b, l, out ++ cs, true)) = Ok (take (Z.to_nat (olen - 1)) (out ++ cs ++ rest) ++ [0]).
Proof. intros H. rewrite finish_full by lia. by rewrite <- (full_output (olen - 1)). Qed.

Lemma one_byte b l out inp x :
  l < 4 -> 0 <= l -> zlen out < olen - 1 -> let b' := u32 (Z.shiftl b 8 + x) in
  b64_bytes olen b l out (x :: inp) =
    let o := out ++ [b64_char (Z.shiftr b' (l + 2) mod 64)] in
    if olen - 1 <=? zlen o then Ok (b', l + 2, o, true) else b64_bytes olen b' (l + 2) o inp.
Proof.
  intros H1 H2 Ho b'. cbn [b64_bytes]. fold b'. rewrite drain_step by lia.
  replace (l + 8 - 6) with (l + 2) by lia. cbv zeta.
  destruct (_ <=? _); [done|]. by rewrite drain_done by lia.
Qed.

Lemma third_byte b out inp x :
  zlen out < olen - 1 -> let b' := u32 (Z.shiftl b 8 + x) in
  b64_bytes olen b 4 out (x :: inp) =
    let o := out ++ [b64_char (Z.shiftr b' 6 mod 64)] in
    if olen - 1 <=? zlen o then Ok (b', 6, o, true)
    else let o := o ++ [b64_char (Z.shiftr b' 0 mod 64)] in
         if olen - 1 <=? zlen o then Ok (b', 0, o, true) else b64_bytes olen b' 0 o inp.
Proof.
  intros Ho b'. cbn [b64_bytes]. fold b'. rewrite drain_step by lia. cbv zeta.
  change (4 + 8 - 6) with 6. case (Z.leb_spec (olen - 1)); [done|]. intros L.
  rewrite drain_step by lia. cbv zeta. change (6 - 6) with 0.
  case (Z.leb_spec (olen - 1)); [done|]. intros L'. by rewrite drain_done by lia.
Qed.

(** The last character and the padding. *)
Lemma finish_rest b l out : 0 < l < 6 -> zlen out < olen - 1 ->
  b64_finish (Ok (b, l, out, false)) =
    (o ← b64_pad 3 olen l (out ++ [b64_char (Z.shiftl (b mod 16) (6 - l) mod 64)]); put olen o 0).
Proof.
  intros Hl Ho. simpl. rewrite (proj2 (Z.ltb_lt 0 l)) by lia. rewrite put_ok by lia.
  rewrite (proj2 (Z.eqb_neq l 0)) by lia. done.
Qed.

(** Padding goes on while there is room: [k] more signs are due. *)
Lemma pad_exact k l out : l = 6 - 2 * Z.of_nat k -> (k <= 3)%nat -> zlen out <= olen - 1 ->
  (o ← b64_pad 3 olen l out; put olen o 0) =
    Ok (take (Z.to_nat (olen - 1)) (out ++ replicate k (ord "=")) ++ [0]).
Proof.
  intros -> Hk. revert out. assert (K : (k <= 3)%nat) by done. revert K Hk.
  generalize 3%nat at 2 3. intros n _. revert k. induction n as [|n IH]; intros k Hk out Ho.
  - assert (k = 0%nat) as -> by lia. simpl. rewrite app_nil_r, put_ok by lia. by rewrite take_ge by lia.
  - destruct k as [|k]; [|destruct (Z.leb_spec (olen - 1) (zlen out)) as [L|L]].
    + rewrite pad_stop by lia. simpl. rewrite app_nil_r, put_ok by lia. by rewrite take_ge by lia.
    + rewrite pad_stop by lia. cbn [mbind outcome_bind]. rewrite put_ok by lia. do 2 f_equal.
      rewrite take_app_le by lia. by rewrite take_ge by lia.
    + rewrite pad_step by lia. replace (6 - 2 * Z.of_nat (S k) + 2) with (6 - 2 * Z.of_nat k) by lia.
      rewrite IH by (rewrite ?length_snoc; lia). by rewrite <- app_assoc.
Qed.

(** From a state with no bits left over and room in the output. *)
Lemma b64_bytes_exact inp : Forall byte inp -> forall b out, zlen out < olen - 1 ->
  b64_finish (b64_bytes olen b 0 out inp) = Ok (take (Z.to_nat (olen - 1)) (out ++ b64 inp) ++ [0]).
Proof.
  induction inp as [|x|x y|x y z inp IH] using triples; intros F b out Ho;
    repeat (apply Forall_cons in F as [? F]).
  - simpl. rewrite app_nil_r, put_ok by lia. by rewrite take_ge by lia.
  - rewrite one_byte, bits_first by (done || lia). cbv zeta.
    case (Z.leb_spec (olen - 1)); rewrite length_snoc; intros L;
      [apply (stop_full _ _ out [_] [_; _; _]); rewrite length_snoc; lia|].
    cbn [b64_bytes]. change (0 + 2) with 2. rewrite finish_rest, bits_left1 by (done || rewrite length_snoc; lia).
    rewrite (pad_exact 2) by (done || lia || rewrite !length_snoc; lia). by rewrite <- !app_assoc.
  - rewrite one_byte, bits_first by (done || lia). cbv zeta.
    case (Z.leb_spec (olen - 1)); rewrite length_snoc; intros L;
      [apply (stop_full _ _ out [_] [_; _; _]); rewrite length_snoc; lia|].
    rewrite one_byte, bits_second by (done || rewrite ?length_snoc; lia). cbv zeta.
    rewrite <- app_assoc. simpl app.
    case (Z.leb_spec (olen - 1)); intros L'.
    + apply (stop_full _ _ out [_; _] [_; _]). rewrite length_app in *. simpl in *. lia.
    + cbn [b64_bytes]. rewrite finish_rest, bits_left2 by (done || rewrite length_app in *; simpl in *; lia).
      rewrite (pad_exact 1) by (done || rewrite !length_app in *; simpl in *; lia). by rewrite <- !app_assoc.
  - rewrite one_byte, bits_first by (done || lia). cbv zeta.
    case (Z.leb_spec (olen - 1)); rewrite length_snoc; intros L;
      [apply (stop_full _ _ out [_] (_ :: _ :: _ :: _)); rewrite length_snoc; lia|].
    rewrite one_byte, bits_second by (done || rewrite ?length_snoc; lia). cbv zeta.
    rewrite <- app_assoc. simpl app.
    case (Z.leb_spec (olen - 1)); intros L';
      [apply (stop_full _ _ out [_; _] (_ :: _ :: _)); rewrite length_app in *; simpl in *; lia|].
    change (0 + 2 + 2) with 4. rewrite third_byte, bits_third by done. cbv zeta.
    rewrite <- app_assoc. simpl app.
    case (Z.leb_spec (olen - 1)); intros L2;
      [apply (stop_full _ _ out [_; _; _] (_ :: _)); rewrite length_app in *; simpl in *; lia|].
    rewrite <- app_assoc, bits_fourth by done. simpl app.
    case (Z.leb_spec (olen - 1)); intros L3;
      [apply (stop_full _ _ out [_; _; _; _] _); rewrite length_app in *; simpl in *; lia|].
    rewrite IH by done. by rewrite <- app_assoc.
Qed.
End Base64.

(** The encoder writes the base 64 text of RFC 4648, with its padding, cut
    to the room in the buffer, and the terminator; it stays within the buffer. *)
Theorem b64_encode_exact inp olen : Forall byte inp -> 2 <= olen < 2 ^ 31 ->
  switch_b64_encode inp olen = Ok (take (Z.to_nat (olen - 1)) (b64 inp) ++ [0]).
Proof. intros F Ho. apply (b64_bytes_exact olen Ho inp F 0 []). simpl. lia. Qed.

(** ** Base 64: the decoder *)

Lemma l64_char signed n : 0 <= n < 64 ->
  l64 signed (b64_char n) = n /\ b64_char n <= 127.
Proof.
  intros H. apply (below 64 (fun n => (l64 signed (b64_char n) =? n) && (b64_char n <=? 127))) in H;
    [btests; done|destruct signed; vm_compute; reflexivity].
Qed.

(** What a shift of the accumulator gives, whatever its upper bits. *)
Lemma emit_bits y k : k = 0 \/ k = 2 \/ k = 4 ->
  u8 (Z.rem (Z.shiftr (i32 y) k) 256) = Z.shiftr y k mod 256.
Proof.
  intros K. rewrite !Z.shiftr_div_pow2 by lia.
  assert (R : forall x, u8 (Z.rem x 256) = x mod 256).
  { intros x. unfold u8. change (2 ^ 8) with 256. pose proof (Z.quot_rem' x 256). apply Z.mod_unique_pos with (Z.quot x 256 + Z.rem x 256 / 256).
    - apply Z.mod_pos_bound. lia.
    - pose proof (Z.div_mod (Z.rem x 256) 256 ltac:(lia)). lia. }
  rewrite R. destruct K as [-> | [-> | ->]]; cint.
Qed.

Section Base64Decode.
#[local] Set Default Proof Using "All".
Context (signed : bool) (olen : Z) (Holen : 3 <= olen < 2 ^ 32).

Lemma char_silent b l out n text : 0 <= n < 64 -> 0 <= l < 2 ->
  b64_text signed olen b l out (b64_char n :: text) =
    b64_text signed olen (i32 (Z.shiftl b 6 + n)) (l + 6) out text.
Proof.
  intros Hn Hl. destruct (l64_char signed n Hn) as [E B]. cbn [b64_text]. rewrite E.
  rewrite (proj2 (Z.ltb_ge 127 _)), andb_false_r, (proj2 (Z.eqb_neq n (-1))) by lia.
  cbn [b64_emit]. by rewrite (proj2 (Z.leb_gt 8 (l + 6))) by lia.
Qed.

Lemma char_emits b l out n text : 0 <= n < 64 -> 2 <= l <= 6 -> zlen out < olen - 2 ->
  let b' := i32 (Z.shiftl b 6 + n) in
  b64_text signed olen b l out (b64_char n :: text) =
    let o := out ++ [u8 (Z.rem (Z.shiftr b' (l - 2)) 256)] in
    if olen - 2 <=? zlen o then Ok o else b64_text signed olen b' (l - 2) o text.
Proof.
  intros Hn Hl Ho b'. destruct (l64_char signed n Hn) as [E B]. cbn [b64_text]. rewrite E.
  rewrite (proj2 (Z.ltb_ge 127 _)), andb_false_r, (proj2 (Z.eqb_neq n (-1))) by lia. fold b'.
  cbn [b64_emit]. rewrite (proj2 (Z.leb_le 8 (l + 6))) by lia.
  replace (l + 6 - 8) with (l - 2) by lia. rewrite put_ok by lia. cbn [mbind outcome_bind].
  rewrite size_t_small by lia. cbv zeta. destruct (_ <=? _); [done|].
  by rewrite (proj2 (Z.leb_gt 8 (l - 2))) by lia.
Qed.

Lemma pad_silent b l out text : signed = true ->
  b64_text signed olen b l out (ord "=" :: text) = b64_text signed olen b l out text.
Proof. by intros ->. Qed.

End Base64Decode.

(** The bytes that the groups of characters give back: the accumulator keeps the
    bits of the two latest characters. *)
Lemma two_chars b p n k : 0 <= p < 64 -> 0 <= n < 64 -> k = 0 \/ k = 2 \/ k = 4 ->
  u8 (Z.rem (Z.shiftr (i32 (Z.shiftl (i32 (Z.shiftl b 6 + p)) 6 + n)) k) 256) = (p * 64 + n) / 2 ^ k mod 256.
Proof.
  intros Hp Hn K. rewrite emit_bits by done. rewrite !Z.shiftl_mul_pow2, Z.shiftr_div_pow2 by lia.
  destruct K as [-> | [-> | ->]]; cint.
Qed.

Lemma quot_rem3 x y z : byte x -> byte y -> byte z ->
  0 <= x / 4 < 64 /\ 0 <= x mod 4 * 16 + y / 16 < 64 /\ 0 <= y mod 16 * 4 + z / 64 < 64 /\
  0 <= z mod 64 < 64 /\
  (x / 4 * 64 + (x mod 4 * 16 + y / 16)) / 2 ^ 4 mod 256 = x /\
  ((x mod 4 * 16 + y / 16) * 64 + (y mod 16 * 4 + z / 64)) / 2 ^ 2 mod 256 = y /\
  ((y mod 16 * 4 + z / 64) * 64 + z mod 64) / 2 ^ 0 mod 256 = z.
Proof. unfold byte. intros. split_and!; cint. Qed.

(** Four characters, as far as there is room. *)
Lemma four_chars signed olen b out x y z text : 3 <= olen < 2 ^ 32 ->
  byte x -> byte y -> byte z -> zlen out < olen - 2 ->
  exists b', b64_text signed olen b 0 out
    (b64_char (x / 4) :: b64_char (x mod 4 * 16 + y / 16) :: b64_char (y mod 16 * 4 + z / 64)
      :: b64_char (z mod 64) :: text) =
    if olen - 2 <=? zlen out + 3 then Ok (take (Z.to_nat (olen - 2)) (out ++ [x; y; z]))
    else b64_text signed olen b' 0 (out ++ [x; y; z]) text.
Proof.
  intros Ho Hx Hy Hz R. destruct (quot_rem3 x y z Hx Hy Hz) as (? & ? & ? & ? & B1 & B2 & B3).
  rewrite char_silent, char_emits by lia. cbv zeta.
  change (0 + 6 - 2) with 4. rewrite two_chars, B1 by auto.
  destruct (Z.leb_spec (olen - 2) (zlen (out ++ [x]))) as [L1|L1]; rewrite length_snoc in L1.
  { exists 0. rewrite (proj2 (Z.leb_le _ _)) by lia.
    by rewrite (full_output (olen - 2) out [x] [y; z]) by (rewrite length_snoc; lia). }
  rewrite char_emits by (rewrite ?length_snoc; lia). cbv zeta. change (4 - 2) with 2.
  rewrite two_chars, B2, <- app_assoc by auto. simpl app.
  destruct (Z.leb_spec (olen - 2) (zlen (out ++ [x; y]))) as [L2|L2]; rewrite length_app in L2; simpl in L2.
  { exists 0. rewrite (proj2 (Z.leb_le _ _)) by lia.
    by rewrite (full_output (olen - 2) out [x; y] [z]) by (rewrite length_app; simpl; lia). }
  rewrite char_emits by (rewrite ?length_app; simpl; lia). cbv zeta. change (2 - 2) with 0.
  rewrite two_chars, B3, <- app_assoc by auto. simpl app. eexists.
  replace (zlen (out ++ [x; y; z])) with (zlen out + 3) by (rewrite length_app; simpl; lia).
  destruct (Z.leb_spec (olen - 2) (zlen out + 3)) as [L3|L3]; [|done].
  rewrite take_ge; [done|rewrite length_app; simpl; lia].
Qed.

(** What the encoder writes the decoder reads back, cut to two bytes less
    than its buffer, where plain [char] is signed; where it is unsigned, as on
    the ARM target, this holds for texts without padding. *)
Theorem b64_roundtrip signed inp olen :
  Forall byte inp -> 3 <= olen < 2 ^ 32 -> signed = true \/ zlen inp mod 3 = 0 ->
  switch_b64_decode signed (b64 inp) olen = Ok (take (Z.to_nat (olen - 2)) inp ++ [0]).
Proof.
  intros F Ho S. unfold switch_b64_decode.
  enough (K : forall b out, zlen out < olen - 2 ->
    b64_text signed olen b 0 out (b64 inp) = Ok (take (Z.to_nat (olen - 2)) (out ++ inp))).
  { rewrite K by (simpl; lia). cbn [mbind outcome_bind app]. rewrite put_ok; [done|].
    rewrite length_take. lia. }
  induction inp as [|x|x y|x y z inp IH] using triples; intros b out Hz;
    repeat (apply Forall_cons in F as [? F]).
  - simpl. rewrite app_nil_r. by rewrite take_ge by lia.
  - destruct S as [->|S]; [|done]. cbn [b64].
    destruct (quot_rem3 x 0 0) as (? & ? & _ & _ & B1 & _); [done..|]. rewrite Z.add_0_r in *.
    rewrite char_silent, char_emits by lia. cbv zeta. change (0 + 6 - 2) with 4.
    rewrite two_chars, B1 by auto. rewrite !pad_silent by done. cbn [b64_text].
    rewrite take_ge by (rewrite length_app; simpl; lia). by destruct (_ <=? _).
  - destruct S as [->|S]; [|done]. cbn [b64].
    destruct (quot_rem3 x y 0) as (? & ? & ? & _ & B1 & B2 & _); [done..|]. rewrite Z.add_0_r in *.
    rewrite char_silent, char_emits by lia. cbv zeta. change (0 + 6 - 2) with 4.
    rewrite two_chars, B1 by auto.
    destruct (Z.leb_spec (olen - 2) (zlen (out ++ [x]))) as [L1|L1]; rewrite length_snoc in L1.
    { by rewrite (full_output (olen - 2) out [x] [y]) by (rewrite length_snoc; lia). }
    rewrite char_emits by (rewrite ?length_snoc; lia). cbv zeta. change (4 - 2) with 2.
    rewrite two_chars, B2, <- app_assoc by auto. simpl app. rewrite !pad_silent by done. cbn [b64_text].
    rewrite take_ge by (rewrite length_app; simpl; lia). by destruct (_ <=? _).
  - cbn [b64]. destruct (four_chars signed olen b out x y z (b64 inp)) as (b' & ->); [done..|].
    destruct (Z.leb_spec (olen - 2) (zlen out + 3)) as [L|L].
    + change (x :: y :: z :: inp) with ([x; y; z] ++ inp). rewrite (app_assoc out [x; y; z] inp).
      rewrite (take_app_le (out ++ [x; y; z]) inp); [done|]. rewrite length_app. simpl. lia.
    + rewrite IH; [by rewrite <- app_assoc|done| |rewrite length_app; simpl; lia].
      destruct S as [->|S]; [by left|right]. simpl length in S. cint.
Qed.

(** The decoder keeps the padding as bits where plain [char] is unsigned. *)
Lemma b64_unsigned_padding :
  switch_b64_decode true (b64 [65]) 10 = Ok [65; 0] /\
  switch_b64_decode false (b64 [65]) 10 = Ok [65; 63; 191; 0].
Proof. split; reflexivity. Qed.

(** ** Witnesses *)

Definition w_bytes : list Z := [70; 114; 101; 101; 83].
Lemma w_bytes_ok : Forall byte w_bytes.
Proof. repeat constructor; discriminate. Qed.

Lemma b64_encode_exact_witness : switch_b64_encode w_bytes 20 = Ok (b64 w_bytes ++ [0]).
Proof. apply (b64_encode_exact w_bytes 20); [exact w_bytes_ok|lia]. Defined.

Lemma b64_roundtrip_witness : switch_b64_decode true (b64 w_bytes) 20 = Ok (w_bytes ++ [0]).
Proof. apply (b64_roundtrip true w_bytes 20); [exact w_bytes_ok|lia|left; reflexivity]. Defined.
