(* ===== verification/Url.v ===== *)
(** * URL encoding (src/switch_utils.c)

    [sscanf] with the format "%2x" belongs to the C library: [scan2x] is its
    result and the law used is that two hexadecimal digits are read as a byte. *)
From S2P Require Import Prelude CStrings StringUtils.
From stdpp Require Import strings.
From Stdlib Require Import String Ascii.
Open Scope Z_scope.
#[local] Notation length := List.length (only parsing).

Definition SWITCH_URL_UNSAFE : string :=
  String (chr 13) (String (chr 10) " #%&+:;<=>?@[\]^`{|}") +:+ String DQUOTE EmptyString.
Definition hex : string := "0123456789ABCDEF".
Definition hex_digit (n : Z) : ascii := default NUL (String.get (Z.to_nat n) hex).

(** A character above '~' is negative, hence below ' ', where [char] is signed. *)
Definition url_unsafe (c : ascii) : bool := (ord c <? 32) || (126 <? ord c) || strchr SWITCH_URL_UNSAFE c.

(** [e - p > 1]: two more characters follow [p]. *)
Definition url_escaped (double_encode : bool) (c : ascii) (q : string) : bool :=
  negb double_encode && (c =c "%") &&
  match q with String a (String b _) => strchr hex a && strchr hex b | _ => false end.

(** The loop, [len] being one less than the size of the buffer. *)
Fixpoint url_encode_from (double_encode : bool) (len x : Z) (p : string) : string :=
  match p with
  | EmptyString => EmptyString
  | String c q =>
    if len <=? x then EmptyString
    else if negb (url_escaped double_encode c q) && url_unsafe c then
      if len <? x + 3 then EmptyString
      else String "%" (String (hex_digit (ord c / 16)) (String (hex_digit (ord c mod 16))
             (url_encode_from double_encode len (x + 3) q)))
    else String c (url_encode_from double_encode len (x + 1) q)
  end.

(** The contents of [buf]; a buffer of no bytes is overrun by the terminator. *)
Definition switch_url_encode_opt (url : string) (len : Z) (double_encode : bool) : outcome string :=
  if len =? 0 then UB else Ok (url_encode_from double_encode (len - 1) 0 url).
Definition switch_url_encode (url : string) (len : Z) : outcome string := switch_url_encode_opt url len false.

(** The length computed by [switch_core_url_encode_opt], without the terminator. *)
Fixpoint url_length (double_encode : bool) (p : string) : Z :=
  match p with
  | EmptyString => 0
  | String c q =>
    (if negb (url_escaped double_encode c q) && url_unsafe c then 3 else 1) + url_length double_encode q
  end.

(** [slen = len] says that no character grew. *)
Definition switch_core_url_encode_opt (url : option string) (double_encode : bool)
  : outcome (option string) :=
  match url with
  | None => Ok None
  | Some url =>
    if slen url =? url_length double_encode url then Ok (Some url)
    else s ← switch_url_encode_opt url (url_length double_encode url + 1) double_encode; Ok (Some s)
  end.

(** The string is decoded in place; the value returned points to its old end
    and not to its beginning. *)
Fixpoint url_decode_from (scan2x : string -> option Z) (s : string) : string :=
  match s with
  | EmptyString => EmptyString
  | String c q =>
    let plain := String c (url_decode_from scan2x q) in
    if c =c "%" then
      match q with
      | String _ (String _ r) =>
        match scan2x q with
        | Some tmp => String (chr (u8 tmp)) (url_decode_from scan2x r)
        | None => plain
        end
      | _ => plain
      end
    else plain
  end.
Definition switch_url_decode (scan2x : string -> option Z) (s : string) : string * string :=
  if zstr (Some s) then (s, s) else (url_decode_from scan2x s, EmptyString).

(** ** Encoding and decoding *)

Lemma ord_chr n : 0 <= n < 256 -> ord (chr n) = n.
Proof.
  intros H. unfold ord, chr. rewrite N_ascii_embedding by lia. by rewrite Z2N.id by lia.
Qed.
Lemma chr_ord c : chr (ord c) = c.
Proof. unfold ord, chr. rewrite N2Z.id. apply ascii_N_embedding. Qed.
Lemma ord_range c : 0 <= ord c < 256.
Proof. unfold ord. pose proof (N_ascii_bounded c). lia. Qed.

(** The encoding with a buffer that is large enough. *)
Fixpoint url_text (double_encode : bool) (p : string) : string :=
  match p with
  | EmptyString => EmptyString
  | String c q =>
    if negb (url_escaped double_encode c q) && url_unsafe c
    then String "%" (String (hex_digit (ord c / 16)) (String (hex_digit (ord c mod 16)) (url_text double_encode q)))
    else String c (url_text double_encode q)
  end.

Lemma url_length_pos d p : 0 <= url_length d p.
Proof. induction p; simpl; [done|]. destruct (_ && _); lia. Qed.

Lemma url_encode_enough d len p : forall x, x + url_length d p <= len ->
  url_encode_from d len x p = url_text d p.
Proof.
  induction p as [|c q IH]; intros x H; [done|]. cbn [url_encode_from url_text url_length] in *.
  pose proof (url_length_pos d q).
  destruct (negb _ && _); rewrite (proj2 (Z.leb_gt len x)) by lia;
    rewrite ?(proj2 (Z.ltb_ge len (x + 3))) by lia; by rewrite IH by lia.
Qed.

Lemma url_length_text d p : slen (url_text d p) = url_length d p.
Proof. induction p as [|c q IH]; [done|]. cbn [url_text url_length]. destruct (negb _ && _); simpl; lia. Qed.

(** When no character grows the text is its own encoding. *)
Lemma url_text_same d p : slen p = url_length d p -> url_text d p = p.
Proof.
  assert (G : forall p, slen p <= url_length d p).
  { clear p. induction p as [|c q IH]; [done|]. simpl. destruct (negb _ && _); lia. }
  induction p as [|c q IH]; [done|]. simpl. specialize (G q). destruct (negb _ && _); [lia|].
  intros H. rewrite IH; [done|lia].
Qed.

(** Law of [sscanf(s, "%2x", &tmp)]. *)
Definition scans (scan2x : string -> option Z) : Prop :=
  forall i j r, 0 <= i < 16 -> 0 <= j < 16 ->
    scan2x (String (hex_digit i) (String (hex_digit j) r)) = Some (i * 16 + j).

(** A percent sign that would be taken for an escape. *)
Fixpoint no_escapes (s : string) : bool :=
  match s with EmptyString => true | String c q => negb (url_escaped false c q) && no_escapes q end.

Lemma url_escaped_double c q : url_escaped true c q = false.
Proof. done. Qed.

Lemma percent_unsafe : url_unsafe "%" = true.
Proof. reflexivity. Qed.

Lemma url_decode_text scan2x d s : scans scan2x -> d = true \/ no_escapes s = true ->
  url_decode_from scan2x (url_text d s) = s.
Proof.
  intros L. induction s as [|c q IH]; intros D; [done|].
  assert (url_escaped d c q = false /\ (d = true \/ no_escapes q = true)) as [E D'].
  { destruct D as [-> | D]; [by auto|]. simpl in D. apply andb_prop in D as [E D]. apply negb_true_iff in E.
    destruct d; auto. }
  cbn [url_text]. rewrite E. destruct (url_unsafe c) eqn:U; cbn [negb andb url_decode_from].
  - rewrite Ascii.eqb_refl. rewrite L by (pose proof (ord_range c); cint).
    rewrite IH by done. f_equal. pose proof (ord_range c).
    replace (ord c / 16 * 16 + ord c mod 16) with (ord c) by (Z.div_mod_to_equations; lia).
    unfold u8. rewrite Z.mod_small by done. apply chr_ord.
  - destruct (Ascii.eqb_spec c "%") as [-> | N]; [by rewrite percent_unsafe in U|]. by rewrite IH.
Qed.

(** Nothing unsafe but percent signs is left. *)
Lemma hex_digit_safe n : 0 <= n < 16 -> url_unsafe (hex_digit n) = false.
Proof.
  intros H. apply negb_true_iff. revert n H.
  apply (below 16 (fun n => negb (url_unsafe (hex_digit n)))). vm_compute. reflexivity.
Qed.

Lemma escaped_percent d c q : url_escaped d c q = true -> c = "%"%char.
Proof.
  unfold url_escaped. intros [[_ E%Ascii.eqb_eq]%andb_prop _]%andb_prop. done.
Qed.

Lemma url_text_safe d s : all_chars (fun c => (c =c "%") || negb (url_unsafe c)) (url_text d s) = true.
Proof.
  induction s as [|c q IH]; [done|]. cbn [url_text].
  destruct (url_escaped d c q) eqn:E; cbn [negb andb].
  - rewrite (escaped_percent _ _ _ E). simpl. done.
  - destruct (url_unsafe c) eqn:U; cbn [all_chars]; rewrite IH, ?U, ?orb_true_r; [|done].
    pose proof (ord_range c).
    rewrite !hex_digit_safe by cint. by rewrite !orb_true_r.
Qed.

(** [switch_core_url_encode_opt] allocates what its text needs, so that
    nothing is cut, and [switch_url_decode] restores the string, when percent
    signs are encoded too or none of them starts an escape; what the decoder
    returns is empty, whatever it has decoded. *)
Theorem url_roundtrip scan2x d s : scans scan2x -> d = true \/ no_escapes s = true ->
  exists t, switch_core_url_encode_opt (Some s) d = Ok (Some t) /\
    slen t = url_length d s /\ all_chars (fun c => (c =c "%") || negb (url_unsafe c)) t = true /\
    fst (switch_url_decode scan2x t) = s /\ snd (switch_url_decode scan2x t) = EmptyString.
Proof.
  intros L D. exists (url_text d s). split_and!.
  - unfold switch_core_url_encode_opt. case (Z.eqb_spec (slen s) (url_length d s)); intros E.
    + by rewrite url_text_same.
    + unfold switch_url_encode_opt. pose proof (url_length_pos d s). rewrite (proj2 (Z.eqb_neq _ 0)) by lia.
      cbn [mbind outcome_bind]. rewrite Z.add_simpl_r. by rewrite url_encode_enough by lia.
  - apply url_length_text.
  - apply url_text_safe.
  - pose proof (url_decode_text scan2x d s L D) as K. unfold switch_url_decode.
    destruct (url_text d s); exact K.
  - unfold switch_url_decode. by destruct (url_text d s).
Qed.

(** A law-abiding reader of two digits, and a string that needs encoding. *)
Fixpoint hex_value (c : ascii) (digits : string) (n : Z) : Z :=
  match digits with
  | EmptyString => 0
  | String d digits => if d =c c then n else hex_value c digits (n + 1)
  end.
Definition w_scan2x (s : string) : option Z :=
  match s with
  | String a (String b _) => Some (hex_value a hex 0 * 16 + hex_value b hex 0)
  | _ => None
  end.

Lemma w_scans : scans w_scan2x.
Proof.
  assert (E : forall n, 0 <= n < 16 -> hex_value (hex_digit n) hex 0 = n).
  { intros n H. apply Z.eqb_eq. revert n H.
    apply (below 16 (fun n => hex_value (hex_digit n) hex 0 =? n)). vm_compute. reflexivity. }
  intros i j r Hi Hj.
  unfold w_scan2x. by rewrite !E.
Qed.

Lemma url_roundtrip_witness :
  exists t, switch_core_url_encode_opt (Some "a b&c%41"%string) true = Ok (Some t) /\
    fst (switch_url_decode w_scan2x t) = "a b&c%41"%string.
Proof.
  destruct (url_roundtrip w_scan2x true "a b&c%41"%string w_scans) as (t & E & _ & _ & D & _);
    [left; reflexivity|].
  exists t. split; [exact E|exact D].
Defined.
