(* ===== verification/Separator.v ===== *)
(** * Separating strings (src/switch_utils.c)

    Splitting a line into fields at a delimiter, with quotes and escapes.  The
    functions work in place; a pointer into the buffer is the string from there
    on, and a read behind the terminator is [UB]. *)
From S2P Require Import Prelude CStrings StringUtils.
From stdpp Require Import strings.
From Stdlib Require Import String Ascii.
Open Scope Z_scope.
#[local] Notation length := List.length (only parsing).

(** ** Escapes *)

Definition unescape_char (escaped : ascii) : ascii :=
  if escaped =c "n" then chr 10
  else if escaped =c "r" then chr 13
  else if escaped =c "t" then chr 9
  else if escaped =c "s" then SPACE
  else escaped.

(** The [switch] of [switch_escape_string] on one character. *)
Definition escaped (c : ascii) : string :=
  if c =c chr 10 then String ESCAPE_META "n"
  else if c =c chr 13 then String ESCAPE_META "r"
  else if c =c chr 9 then String ESCAPE_META "t"
  else if c =c SPACE then String ESCAPE_META "s"
  else if c =c "$" then String ESCAPE_META "$"
  else String c EmptyString.

(** What is stored in [out]; the size given with it is not looked at. *)
Fixpoint switch_escape_string (s : string) : string :=
  match s with EmptyString => EmptyString | String c s => escaped c +:+ switch_escape_string s end.

(** Every character of [delim] that is equal to it puts an [esc] before it. *)
Fixpoint escapes_due (c : ascii) (delim : string) (esc : ascii) : string :=
  match delim with
  | EmptyString => EmptyString
  | String d delim => if c =c d then String esc (escapes_due c delim esc) else escapes_due c delim esc
  end.
Fixpoint switch_escape_char (s : string) (delim : string) (esc : ascii) : string :=
  match s with
  | EmptyString => EmptyString
  | String c s => escapes_due c delim esc +:+ String c (switch_escape_char s delim esc)
  end.

(** ** Cleaning a field *)

Fixpoint skip_spaces (s : string) : string :=
  match s with String c q => if c =c SPACE then skip_spaces q else s | EmptyString => s end.

(** Two parts of a string: [dest] grows at its end, newest character first, and
    [end_] is the length at which the field will be cut. *)
Definition cut (dest : list ascii) (end_ : option nat) : string :=
  string_of_list_ascii (take (default (length dest) end_) (rev dest)).

(** [e] after the test of [*ptr == ESCAPE_META]: [None] is an escape that stays. *)
Definition escape_of (delim e : ascii) : option ascii :=
  if (e =c QUOTE) || (e =c DQUOTE) || (negb (delim =c NUL) && (e =c delim)) || (e =c ESCAPE_META)
  then Some e
  else if unescape_char e =c e then None else Some (unescape_char e).

Fixpoint cleanup (delim : ascii) (ptr : string) (dest : list ascii) (end_ : option nat) (inside : bool)
  : string :=
  match ptr with
  | EmptyString => cut dest end_
  | String c q =>
    let plain :=
      if (c =c QUOTE) && (inside || strchr q QUOTE) then
        let inside := negb inside in
        cleanup delim q dest (if inside then Some (length dest) else end_) inside
      else
        let dest := c :: dest in
        cleanup delim q dest (if negb (c =c SPACE) || inside then Some (length dest) else end_) inside in
    if c =c ESCAPE_META then
      match q with
      | EmptyString => plain
      | String e0 q' =>
        match escape_of delim e0 with
        | Some e => cleanup delim q' (e :: dest) (Some (length (e :: dest))) inside
        | None => plain
        end
      end
    else plain
  end.

Definition cleanup_separated_string (str : string) (delim : ascii) : string :=
  cleanup delim (skip_spaces str) [] None false.

(** ** The tokenizers *)

Definition cons_fst (c : ascii) (m : outcome (string * option string)) : outcome (string * option string) :=
  let* (f, rest) := m in Ok (String c f, rest).

(** [FIND_DELIM] until the state changes: the field and what follows its
    delimiter.  An escape takes the next character with it, and at the end of
    the string that is the terminator. *)
Fixpoint find_delim (blank : bool) (delim : ascii) (ptr : string) (inside : bool)
  : outcome (string * option string) :=
  match ptr with
  | EmptyString => Ok (EmptyString, None)
  | String c q =>
    if c =c ESCAPE_META then
      match q with
      | EmptyString => UB
      | String d q => cons_fst c (cons_fst d (find_delim blank delim q inside))
      end
    else if (c =c QUOTE) && (blank || inside || strchr q QUOTE)
    then cons_fst c (find_delim blank delim q (negb inside))
    else if (c =c delim) && negb inside then Ok (EmptyString, Some q)
    else cons_fst c (find_delim blank delim q inside)
  end.

(** The fields as they lie in the buffer; [n] is the room in the array.  The
    last field that has room keeps everything that follows. *)
Fixpoint char_fields (delim : ascii) (n : nat) (ptr : string) : outcome (list string) :=
  match n with
  | O => Ok []
  | S n =>
    match ptr with
    | EmptyString => Ok []
    | _ =>
      match n with
      | O => Ok [ptr]
      | S _ =>
        let* (f, rest) := find_delim false delim ptr false in
        match rest with
        | None => Ok [f]
        | Some q => let* fs := char_fields delim n q in Ok (f :: fs)
        end
      end
    end
  end.

Definition separate_string_char_delim (buf : string) (delim : ascii) (arraylen : nat) : outcome (list string) :=
  let* fs := char_fields delim arraylen buf in
  Ok ((fun f => cleanup_separated_string f delim) <$> fs).

(** Spaces at the beginning of a field stay in it, those after it are skipped.
    The state [SKIP_INITIAL_SPACE] ends at the end of the string. *)
Fixpoint leading_spaces (s : string) : string :=
  match s with String c q => if c =c SPACE then String c (leading_spaces q) else EmptyString | EmptyString => s end.

Fixpoint blank_fields (n : nat) (ptr : string) : outcome (list string) :=
  match n with
  | O => Ok []
  | S n =>
    match ptr with
    | EmptyString => Ok []
    | _ =>
      match n with
      | O => Ok [ptr]
      | S _ =>
        let* (f, rest) := find_delim true SPACE (skip_spaces ptr) false in
        let f := leading_spaces ptr +:+ f in
        match rest with
        | None => Ok [f]
        | Some q => let* fs := blank_fields n (skip_spaces q) in Ok (f :: fs)
        end
      end
    end
  end.

Definition separate_string_blank_delim (buf : string) (arraylen : nat) : outcome (list string) :=
  let* fs := blank_fields arraylen buf in
  Ok ((fun f => cleanup_separated_string f NUL) <$> fs).

(** A string that starts with [^^] names its delimiter. *)
Definition own_delim (buf : string) (delim : ascii) : string * ascii :=
  match buf with
  | String a (String b (String d (String e r))) =>
    if (a =c "^") && (b =c "^") then (String e r, d) else (buf, delim)
  | _ => (buf, delim)
  end.

Definition switch_separate_string (buf : option string) (delim : ascii) (arraylen : nat)
  : outcome (list string) :=
  match buf with
  | None => Ok []
  | Some buf =>
    if Nat.eqb arraylen 0 then Ok []
    else
      let '(buf, delim) := own_delim buf delim in
      if delim =c SPACE then separate_string_blank_delim buf arraylen
      else separate_string_char_delim buf delim arraylen
  end.

(** [strstr], as what comes before and after the first occurrence. *)
Fixpoint strip_prefix (p s : string) : option string :=
  match p, s with
  | EmptyString, _ => Some s
  | String c p, String d s => if c =c d then strip_prefix p s else None
  | _, EmptyString => None
  end.
Fixpoint strstr (delim s : string) : option (string * string) :=
  match strip_prefix delim s with
  | Some r => Some (EmptyString, r)
  | None =>
    match s with
    | EmptyString => None
    | String c s => match strstr delim s with Some (a, b) => Some (String c a, b) | None => None end
    end
  end.

(** The loop of [switch_separate_string_string] with room for [n] more fields. *)
Fixpoint string_fields (delim : string) (n : nat) (s : string) : list string :=
  match n with
  | O => [s]
  | S n => match strstr delim s with Some (f, r) => f :: string_fields delim n r | None => [s] end
  end.

(** The first field is stored whatever the size of the array. *)
Definition switch_separate_string_string (buf delim : string) (arraylen : nat) : outcome (list string) :=
  match arraylen with O => UB | S n => Ok (string_fields delim n buf) end.

(** ** Fields that were protected come back *)

(** The encoding that the tokenizers undo. *)
Definition protect_char (delim c : ascii) : string :=
  if c =c SPACE then String ESCAPE_META "s"
  else if (c =c ESCAPE_META) || (c =c QUOTE) || (c =c delim) then String ESCAPE_META (String c EmptyString)
  else String c EmptyString.
Fixpoint protect (delim : ascii) (f : string) : string :=
  match f with EmptyString => EmptyString | String c f => protect_char delim c +:+ protect delim f end.

Fixpoint join (delim : ascii) (fs : list string) : string :=
  match fs with
  | [] => EmptyString
  | [f] => f
  | f :: fs => f +:+ String delim (join delim fs)
  end.

Lemma sapp_nil s : s +:+ EmptyString = s.
Proof. induction s as [|c s IH]; [done|]. exact (f_equal (String c) IH). Qed.
Lemma sapp_assoc (a b c : string) : (a +:+ b) +:+ c = a +:+ (b +:+ c).
Proof. induction a as [|x a IH]; [done|]. exact (f_equal (String x) IH). Qed.
Lemma list_snoc_sapp l c f :
  string_of_list_ascii (l ++ [c]) +:+ f = string_of_list_ascii l +:+ String c f.
Proof. induction l as [|x l IH]; [done|]. exact (f_equal (String x) IH). Qed.
Lemma sapp_cons c a b : String c a +:+ b = String c (a +:+ b).
Proof. done. Qed.
Lemma sapp_empty a : EmptyString +:+ a = a.
Proof. done. Qed.

(** ** Lengths, characters and prefixes *)

Lemma slen_pos s : 0 <= slen s.
Proof. induction s; simpl; lia. Qed.
Lemma slen_length s : slen s = Z.of_nat (String.length s).
Proof. induction s as [|c s IH]; [done|]. cbn [slen String.length]. lia. Qed.
Lemma slen_sapp a b : slen (a +:+ b) = slen a + slen b.
Proof. induction a as [|c a IH]; [done|]. rewrite sapp_cons. cbn [slen]. lia. Qed.
Lemma length_sapp a b : String.length (a +:+ b) = (String.length a + String.length b)%nat.
Proof. induction a as [|c a IH]; [done|]. rewrite sapp_cons. cbn. by rewrite IH. Qed.

Lemma strchr_app c a b : strchr (a +:+ b) c = strchr a c || strchr b c.
Proof. induction a as [|x a IH]; [by rewrite sapp_empty|]. rewrite sapp_cons. cbn [strchr]. by rewrite IH, orb_assoc. Qed.
Lemma split_here c host rest : strchr host c = false -> split_at_char c (host +:+ String c rest) = (host, Some rest).
Proof.
  induction host as [|a host IH]; intros N.
  - rewrite sapp_empty. cbn. by rewrite Ascii.eqb_refl.
  - rewrite sapp_cons. cbn in *. btests. destruct (a =c c) eqn:E; [done|]. by rewrite IH.
Qed.
Lemma split_none c s : strchr s c = false -> split_at_char c s = (s, None).
Proof. induction s as [|a s IH]; [done|]. intros [E N]%orb_false_elim. cbn. by rewrite E, IH. Qed.
Lemma substring_whole s : forall n, (String.length s <= n)%nat -> String.substring 0 n s = s.
Proof.
  induction s as [|c s IH]; intros [|n] H; cbn in *; try done; [lia|]. by rewrite IH by lia.
Qed.

Section Protect.
Context (delim : ascii).

Definition plain_delim : Prop := delim <> NUL /\ delim <> ESCAPE_META /\ delim <> QUOTE /\ delim <> "s"%char.
Context (D : plain_delim).
#[local] Set Default Proof Using "All".

(** [cleanup] is called with the delimiter, or with none for blanks. *)
Definition cleanup_delim : ascii := if delim =c SPACE then NUL else delim.

Lemma cut_all dest : cut dest (Some (length dest)) = string_of_list_ascii (rev dest).
Proof. unfold cut. simpl. rewrite <- length_rev. by rewrite firstn_all. Qed.

Lemma escape_s : escape_of cleanup_delim "s" = Some SPACE.
Proof.
  unfold escape_of, cleanup_delim. destruct D as (? & ? & ? & N).
  case (Ascii.eqb_spec delim SPACE); intros E; [reflexivity|].
  rewrite (proj2 (Ascii.eqb_neq "s" delim)) by congruence. by rewrite andb_false_r.
Qed.

Lemma escape_special c : c <> SPACE -> (c =c ESCAPE_META) || (c =c QUOTE) || (c =c delim) = true ->
  escape_of cleanup_delim c = Some c.
Proof.
  intros NS H. unfold escape_of, cleanup_delim. destruct D as (N0 & _).
  destruct (c =c ESCAPE_META), (c =c QUOTE), (c =c DQUOTE); try done; simpl in H; try (by rewrite !orb_true_r).
  all: apply Ascii.eqb_eq in H; subst c.
  all: rewrite (proj2 (Ascii.eqb_neq delim SPACE)) by done.
  all: rewrite (proj2 (Ascii.eqb_neq delim NUL)), Ascii.eqb_refl by done; reflexivity.
Qed.

Lemma cleanup_escape e0 e q dest en inside : escape_of cleanup_delim e0 = Some e ->
  cleanup cleanup_delim (String ESCAPE_META (String e0 q)) dest en inside =
    cleanup cleanup_delim q (e :: dest) (Some (length (e :: dest))) inside.
Proof. intros E. cbn [cleanup]. by rewrite Ascii.eqb_refl, E. Qed.

Lemma cleanup_protected f : forall dest, 
  cleanup cleanup_delim (protect delim f) dest (Some (length dest)) false =
    string_of_list_ascii (rev dest) +:+ f.
Proof.
  induction f as [|c f IH]; intros dest.
  - cbn [protect cleanup]. rewrite cut_all. by rewrite sapp_nil.
  - cbn [protect]. unfold protect_char.
    assert (R : string_of_list_ascii (rev (c :: dest)) +:+ f = string_of_list_ascii (rev dest) +:+ String c f)
      by apply list_snoc_sapp.
    destruct (Ascii.eqb_spec c SPACE) as [-> | NS].
    + rewrite ?sapp_cons, ?sapp_empty. rewrite (cleanup_escape _ SPACE) by apply escape_s. by rewrite IH.
    + destruct ((c =c ESCAPE_META) || (c =c QUOTE) || (c =c delim)) eqn:S.
      * rewrite ?sapp_cons, ?sapp_empty. rewrite (cleanup_escape _ c) by (by apply escape_special). by rewrite IH.
      * rewrite sapp_cons, sapp_empty. cbn [cleanup]. btests. rewrite H, H1. cbn [andb].
        rewrite (proj2 (Ascii.eqb_neq c SPACE)) by done. cbn [negb orb]. by rewrite IH.
Qed.

Lemma protected_start f r : f <> EmptyString -> exists c q, protect delim f +:+ r = String c q /\ c <> SPACE.
Proof.
  destruct f as [|c f]; [done|]. intros _. cbn [protect]. unfold protect_char.
  destruct (Ascii.eqb_spec c SPACE) as [-> | NS]; [by eexists _, _|].
  destruct (_ || _); by eexists _, _.
Qed.

Lemma skip_protected f : skip_spaces (protect delim f) = protect delim f.
Proof.
  destruct f as [|c f]; [done|]. destruct (protected_start (String c f) EmptyString) as (d & q & E & N); [done|].
  rewrite sapp_nil in E. rewrite E. simpl. by rewrite (proj2 (Ascii.eqb_neq d SPACE)).
Qed.

Lemma cleanup_field f : cleanup_separated_string (protect delim f) cleanup_delim = f.
Proof.
  unfold cleanup_separated_string. rewrite skip_protected.
  destruct f as [|c f]; [done|]. cbn [protect]. unfold protect_char.
  destruct (Ascii.eqb_spec c SPACE) as [-> | NS].
  - rewrite ?sapp_cons, ?sapp_empty, (cleanup_escape _ SPACE) by apply escape_s. by rewrite cleanup_protected.
  - destruct ((c =c ESCAPE_META) || (c =c QUOTE) || (c =c delim)) eqn:S.
    + rewrite ?sapp_cons, ?sapp_empty, (cleanup_escape _ c) by (by apply escape_special).
      by rewrite cleanup_protected.
    + rewrite sapp_cons, sapp_empty. cbn [cleanup]. btests. rewrite H, H1. cbn [andb].
      rewrite (proj2 (Ascii.eqb_neq c SPACE)) by done. cbn [negb orb]. by rewrite cleanup_protected.
Qed.

(** The tokenizer passes over a protected field. *)
Lemma find_passes blank f r :
  find_delim blank delim (protect delim f +:+ r) false =
    let* (g, rest) := find_delim blank delim r false in Ok (protect delim f +:+ g, rest).
Proof.
  induction f as [|c f IH].
  - rewrite sapp_empty. destruct (find_delim _ _ r false) as [[g rest]| |]; [|done..]. by rewrite sapp_empty.
  - cbn [protect]. unfold protect_char. rewrite sapp_assoc.
    destruct (Ascii.eqb_spec c SPACE) as [-> | NS];
      [|destruct ((c =c ESCAPE_META) || (c =c QUOTE) || (c =c delim)) eqn:S];
      rewrite ?sapp_cons, ?sapp_empty; cbn [find_delim]; rewrite ?Ascii.eqb_refl; rewrite ?IH.
    1, 2: by destruct (find_delim _ _ r false) as [[g rest]| |].
    btests. rewrite H, H1, H0. cbn [andb].
    by destruct (find_delim _ _ r false) as [[g rest]| |].
Qed.

(** It stops right behind it. *)
Lemma find_protected blank f r rest :
  (r = EmptyString /\ rest = None) \/ (exists q, r = String delim q /\ rest = Some q) ->
  find_delim blank delim (protect delim f +:+ r) false = Ok (protect delim f, rest).
Proof.
  intros R. destruct D as (_ & N1 & N2 & _). rewrite find_passes.
  destruct R as [[-> ->] | (q & -> & ->)]; cbn [find_delim]; [by rewrite sapp_nil|].
  rewrite (proj2 (Ascii.eqb_neq delim ESCAPE_META)), (proj2 (Ascii.eqb_neq delim QUOTE)) by done.
  rewrite Ascii.eqb_refl. cbn [andb negb]. by rewrite sapp_nil.
Qed.

Definition text (fs : list string) : string := join delim (protect delim <$> fs).

Lemma text_cons f g fs : text (f :: g :: fs) = protect delim f +:+ String delim (text (g :: fs)).
Proof. done. Qed.

(** Fields that the tokenizer can tell apart: a last field that is empty leaves
    no trace, and blanks run together. *)
Fixpoint separable (fs : list string) : Prop :=
  match fs with
  | [] => True
  | [f] => f <> EmptyString
  | f :: fs => (delim = SPACE -> f <> EmptyString) /\ separable fs
  end.

Lemma char_fields_text fs n : delim <> SPACE -> separable fs -> (length fs <= n)%nat ->
  char_fields delim n (text fs) = Ok (protect delim <$> fs).
Proof.
  intros NS. revert n. induction fs as [|f fs IH]; intros n S L; [by destruct n|].
  destruct n as [|n]; [simpl in L; lia|]. cbn [char_fields]. destruct fs as [|g fs].
  - unfold text. cbn [fmap list_fmap join]. destruct (protected_start f EmptyString S) as (c & q & E & _).
    rewrite sapp_nil in E. rewrite E. destruct n as [|n]; [done|]. rewrite <- E.
    rewrite <- (sapp_nil (protect delim f)) at 1. by rewrite (find_protected false f EmptyString None) by auto.
  - destruct S as [_ S]. destruct n as [|n]; [simpl in L; lia|]. rewrite text_cons.
    destruct (protect delim f +:+ String delim (text (g :: fs))) as [|c q] eqn:E; [by destruct (protect delim f)|].
    rewrite <- E, (find_protected false f _ (Some (text (g :: fs)))) by eauto.
    rewrite IH; [done|exact S|simpl in *; lia].
Qed.

Lemma blank_fields_text fs n : delim = SPACE -> separable fs -> (length fs <= n)%nat ->
  blank_fields n (text fs) = Ok (protect delim <$> fs).
Proof.
  intros ES. revert n. induction fs as [|f fs IH]; intros n S L; [by destruct n|].
  destruct n as [|n]; [simpl in L; lia|]. cbn [blank_fields].
  assert (NE : f <> EmptyString) by (destruct fs; [exact S|by apply S]).
  assert (P : forall r, skip_spaces (protect delim f +:+ r) = protect delim f +:+ r /\
                        leading_spaces (protect delim f +:+ r) = EmptyString).
  { intros r. destruct (protected_start f r NE) as (c & q & -> & N). simpl.
    by rewrite (proj2 (Ascii.eqb_neq c SPACE)). }
  destruct fs as [|g fs].
  - unfold text. cbn [fmap list_fmap join]. destruct (protected_start f EmptyString NE) as (c & q & E & _).
    rewrite sapp_nil in E. destruct (P EmptyString) as [P1 P2]. rewrite sapp_nil in P1, P2. rewrite P1, P2.
    rewrite E. destruct n as [|n]; [done|]. rewrite <- E.
    rewrite <- (sapp_nil (protect delim f)) at 1. rewrite <- ES.
    by rewrite (find_protected true f EmptyString None) by auto.
  - destruct S as [_ S]. destruct n as [|n]; [simpl in L; lia|]. rewrite text_cons.
    destruct (P (String delim (text (g :: fs)))) as [-> ->].
    destruct (protect delim f +:+ String delim (text (g :: fs))) as [|c q] eqn:E; [by destruct (protect delim f)|].
    rewrite <- E, <- ES, (find_protected true f _ (Some (text (g :: fs)))) by eauto. rewrite sapp_empty.
    assert (G : skip_spaces (text (g :: fs)) = text (g :: fs)).
    { assert (NG : g <> EmptyString) by (destruct fs; [exact S|by apply S]).
      assert (exists r, text (g :: fs) = protect delim g +:+ r) as [r ->]
        by (destruct fs; [exists EmptyString; by rewrite sapp_nil|eexists; apply text_cons]).
      destruct (protected_start g r NG) as (c' & q' & -> & N). simpl. by rewrite (proj2 (Ascii.eqb_neq c' SPACE)). }
    rewrite G, IH; [done|exact S|simpl in *; lia].
Qed.
End Protect.

Lemma separate_text delim fs n :
  plain_delim delim -> separable delim fs -> (length fs <= n)%nat -> n <> 0%nat ->
  own_delim (text delim fs) delim = (text delim fs, delim) ->
  switch_separate_string (Some (text delim fs)) delim n = Ok fs.
Proof.
  intros P S L N O. unfold switch_separate_string. rewrite (proj2 (Nat.eqb_neq n 0)), O by done.
  assert (C : (fun f => cleanup_separated_string f (cleanup_delim delim)) <$> (protect delim <$> fs) = fs).
  { clear S L O. induction fs as [|f fs IH]; [done|]. cbn [fmap list_fmap]. rewrite cleanup_field by done.
    by f_equal. }
  unfold cleanup_delim in C. destruct (Ascii.eqb_spec delim SPACE) as [E|E].
  - unfold separate_string_blank_delim. rewrite blank_fields_text by done. by rewrite C.
  - unfold separate_string_char_delim. rewrite char_fields_text by done. by rewrite C.
Qed.

(** Fields whose quotes, escapes, spaces and delimiters are escaped and that
    are joined by the delimiter are separated into the same fields again, for
    any delimiter but NUL, a quote, the escape itself and the letter s, when the
    array has room for them; blanks need fields that are not empty, and a last
    field must not be empty. *)
Theorem separate_roundtrip delim fs n :
  plain_delim delim -> separable delim fs -> (length fs <= n)%nat -> n <> 0%nat ->
  own_delim (text delim fs) delim = (text delim fs, delim) ->
  switch_separate_string (Some (text delim fs)) delim n = Ok fs.
Proof. apply separate_text. Qed.

(** C40. An escape that ends the string takes the terminator with it, and the
    tokenizer goes on behind the buffer. *)
Theorem separate_escape_at_end delim s n :
  plain_delim delim -> delim <> SPACE -> (2 <= n)%nat ->
  let t := protect delim s +:+ String ESCAPE_META EmptyString in
  own_delim t delim = (t, delim) -> switch_separate_string (Some t) delim n = UB.
Proof.
  intros P NS N t O. unfold switch_separate_string. rewrite (proj2 (Nat.eqb_neq n 0)), O by lia.
  rewrite (proj2 (Ascii.eqb_neq delim SPACE)) by done. unfold separate_string_char_delim.
  destruct n as [|[|n]]; [lia..|]. cbn [char_fields].
  assert (F : find_delim false delim t false = UB) by (unfold t; by rewrite find_passes).
  destruct t; [done|]. by rewrite F.
Qed.

Lemma separate_roundtrip_witness :
  switch_separate_string (Some (text "," ["a b"; "it's, so"; "c\d"]%string)) "," 5
    = Ok ["a b"; "it's, so"; "c\d"]%string.
Proof.
  apply (separate_roundtrip "," ["a b"; "it's, so"; "c\d"]%string 5).
  - split_and!; discriminate.
  - split; [discriminate|]. split; [discriminate|discriminate].
  - simpl. lia.
  - discriminate.
  - reflexivity.
Defined.

Lemma separate_escape_at_end_witness :
  switch_separate_string (Some (protect "," "abc" +:+ String ESCAPE_META EmptyString)) "," 2 = UB.
Proof.
  apply (separate_escape_at_end "," "abc" 2); [split_and!; discriminate|discriminate|lia|reflexivity].
Defined.
