(* ===== verification/G711.v ===== *)
(** * G.711 companding (src/g711.c, src/include/g711.h)

    Samples are coded in eight bits with a logarithmic scale.  The bit search is
    that of targets other than x86, as the ARM build takes it. *)
From S2P Require Import Prelude.
Open Scope Z_scope.

(** ** Searching bits *)

(** One halving: the bits under the mask if there are any, and [i] moved. *)
Definition narrow (mask by_ : Z) (st : Z * Z) : Z * Z :=
  let '(bits, i) := st in
  if Z.land bits mask =? 0 then st else (Z.land bits mask, i + by_).

Definition top_bit (bits : Z) : Z :=
  if bits =? 0 then -1
  else snd (narrow 0xAAAAAAAA 1 (narrow 0xCCCCCCCC 2 (narrow 0xF0F0F0F0 4 (narrow 0xFF00FF00 8
              (narrow 0xFFFF0000 16 (bits, 0)))))).
Definition bottom_bit (bits : Z) : Z :=
  if bits =? 0 then -1
  else snd (narrow 0x55555555 (-1) (narrow 0x33333333 (-2) (narrow 0x0F0F0F0F (-4) (narrow 0x00FF00FF (-8)
              (narrow 0x0000FFFF (-16) (bits, 32)))))).

(** ** u-law *)

Definition ULAW_BIAS : Z := 0x84.

Definition linear_to_ulaw (linear : Z) : Z :=
  let '(linear, mask) := if linear <? 0 then (ULAW_BIAS - linear, 0x7F) else (ULAW_BIAS + linear, 0xFF) in
  let seg := top_bit (u32 (Z.lor linear 0xFF)) - 7 in
  if 8 <=? seg then u8 (Z.lxor 0x7F mask)
  else u8 (Z.lxor (Z.lor (Z.shiftl seg 4) (Z.land (Z.shiftr linear (seg + 3)) 0xF)) mask).

Definition ulaw_to_linear (ulaw : Z) : Z :=
  let ulaw := u8 (Z.lnot ulaw) in
  let t := Z.shiftl (Z.shiftl (Z.land ulaw 0x0F) 3 + ULAW_BIAS) (Z.shiftr (Z.land ulaw 0x70) 4) in
  i16 (if Z.land ulaw 0x80 =? 0 then t - ULAW_BIAS else ULAW_BIAS - t).

(** ** A-law *)

Definition ALAW_AMI_MASK : Z := 0x55.

Definition linear_to_alaw (linear : Z) : Z :=
  let '(linear, mask) :=
    if 0 <=? linear then (linear, Z.lor ALAW_AMI_MASK 0x80) else (- linear - 8, ALAW_AMI_MASK) in
  let seg := top_bit (u32 (Z.lor linear 0xFF)) - 7 in
  if 8 <=? seg then
    if 0 <=? linear then u8 (Z.lxor 0x7F mask) else u8 (Z.lxor 0x00 mask)
  else u8 (Z.lxor (Z.lor (Z.shiftl seg 4)
                     (Z.land (Z.shiftr linear (if seg =? 0 then 4 else seg + 3)) 0x0F)) mask).

Definition alaw_to_linear (alaw : Z) : Z :=
  let alaw := Z.lxor alaw ALAW_AMI_MASK in
  let i := Z.shiftl (Z.land alaw 0x0F) 4 in
  let seg := Z.shiftr (Z.land alaw 0x70) 4 in
  let i := if seg =? 0 then i + 8 else Z.shiftl (i + 0x108) (seg - 1) in
  i16 (if Z.land alaw 0x80 =? 0 then - i else i).

(** ** Transcoding *)

Definition ulaw_to_alaw_table : list Z :=
  [42; 43; 40; 41; 46; 47; 44; 45; 34; 35; 32; 33; 38; 39; 36; 37; 58; 59; 56; 57; 62; 63; 60; 61; 50; 51; 48; 49; 54; 55; 52; 53;
   10; 11; 8; 9; 14; 15; 12; 13; 2; 3; 0; 1; 6; 7; 4; 26; 27; 24; 25; 30; 31; 28; 29; 18; 19; 16; 17; 22; 23; 20; 21; 106;
   104; 105; 110; 111; 108; 109; 98; 99; 96; 97; 102; 103; 100; 101; 122; 120; 126; 127; 124; 125; 114; 115; 112; 113; 118; 119; 116; 117; 75; 73; 79; 77;
   66; 67; 64; 65; 70; 71; 68; 69; 90; 91; 88; 89; 94; 95; 92; 93; 82; 82; 83; 83; 80; 80; 81; 81; 86; 86; 87; 87; 84; 84; 85; 85;
   170; 171; 168; 169; 174; 175; 172; 173; 162; 163; 160; 161; 166; 167; 164; 165; 186; 187; 184; 185; 190; 191; 188; 189; 178; 179; 176; 177; 182; 183; 180; 181;
   138; 139; 136; 137; 142; 143; 140; 141; 130; 131; 128; 129; 134; 135; 132; 154; 155; 152; 153; 158; 159; 156; 157; 146; 147; 144; 145; 150; 151; 148; 149; 234;
   232; 233; 238; 239; 236; 237; 226; 227; 224; 225; 230; 231; 228; 229; 250; 248; 254; 255; 252; 253; 242; 243; 240; 241; 246; 247; 244; 245; 203; 201; 207; 205;
   194; 195; 192; 193; 198; 199; 196; 197; 218; 219; 216; 217; 222; 223; 220; 221; 210; 210; 211; 211; 208; 208; 209; 209; 214; 214; 215; 215; 212; 212; 213; 213].
Definition alaw_to_ulaw_table : list Z :=
  [42; 43; 40; 41; 46; 47; 44; 45; 34; 35; 32; 33; 38; 39; 36; 37; 57; 58; 55; 56; 61; 62; 59; 60; 49; 50; 47; 48; 53; 54; 51; 52;
   10; 11; 8; 9; 14; 15; 12; 13; 2; 3; 0; 1; 6; 7; 4; 5; 26; 27; 24; 25; 30; 31; 28; 29; 18; 19; 16; 17; 22; 23; 20; 21;
   98; 99; 96; 97; 102; 103; 100; 101; 93; 93; 92; 92; 95; 95; 94; 94; 116; 118; 112; 114; 124; 126; 120; 122; 106; 107; 104; 105; 110; 111; 108; 109;
   72; 73; 70; 71; 76; 77; 74; 75; 64; 65; 63; 63; 68; 69; 66; 67; 86; 87; 84; 85; 90; 91; 88; 89; 79; 79; 78; 78; 82; 83; 80; 81;
   170; 171; 168; 169; 174; 175; 172; 173; 162; 163; 160; 161; 166; 167; 164; 165; 185; 186; 183; 184; 189; 190; 187; 188; 177; 178; 175; 176; 181; 182; 179; 180;
   138; 139; 136; 137; 142; 143; 140; 141; 130; 131; 128; 129; 134; 135; 132; 133; 154; 155; 152; 153; 158; 159; 156; 157; 146; 147; 144; 145; 150; 151; 148; 149;
   226; 227; 224; 225; 230; 231; 228; 229; 221; 221; 220; 220; 223; 223; 222; 222; 244; 246; 240; 242; 252; 254; 248; 250; 234; 235; 232; 233; 238; 239; 236; 237;
   200; 201; 198; 199; 204; 205; 202; 203; 192; 193; 191; 191; 196; 197; 194; 195; 214; 215; 212; 213; 218; 219; 216; 217; 207; 207; 206; 206; 210; 211; 208; 209].
Definition ulaw_to_alaw (ulaw : Z) : outcome Z :=
  match ulaw_to_alaw_table !! Z.to_nat ulaw with Some a => Ok a | None => UB end.
Definition alaw_to_ulaw (alaw : Z) : outcome Z :=
  match alaw_to_ulaw_table !! Z.to_nat alaw with Some u => Ok u | None => UB end.

(** ** Facts by computation *)

(** Decoded and coded again every A-law code is itself and so is every u-law
    code but the negative zero, which becomes the positive one. *)
Theorem g711_roundtrip c : 0 <= c < 256 ->
  linear_to_alaw (alaw_to_linear c) = c /\
  linear_to_ulaw (ulaw_to_linear c) = if c =? 0x7F then 0xFF else c.
Proof.
  intros H. assert (E : (linear_to_alaw (alaw_to_linear c) =? c) &&
    (linear_to_ulaw (ulaw_to_linear c) =? (if c =? 0x7F then 0xFF else c)) = true).
  { revert c H. apply (below 256). vm_compute. reflexivity. }
  btests. done.
Qed.

(** ** Accuracy

    A code depends on the upper bits of the magnitude only, so that blocks of
    samples can be looked at instead of single ones. *)

(** The coders from the segment on: [k] lower bits are out of sight. *)
Definition segment (m : Z) : Z := top_bit (u32 (Z.lor m 0xFF)) - 7.

Lemma lor_block k m : 0 <= k <= 8 -> Z.lor m 0xFF = Z.lor (m / 2 ^ k * 2 ^ k) 0xFF.
Proof.
  intros Hk. rewrite <- Z.shiftr_div_pow2, <- Z.shiftl_mul_pow2 by lia. apply Z.bits_inj'. intros n Hn.
  rewrite !Z.lor_spec. change 0xFF with (Z.ones 8). destruct (Z.ltb_spec n 8).
  - rewrite Z.ones_spec_low by lia. by rewrite !orb_true_r.
  - rewrite Z.shiftl_spec, Z.shiftr_spec by lia. by replace (n - k + k) with n by lia.
Qed.
Lemma segment_block k m : 0 <= k <= 8 -> segment m = segment (m / 2 ^ k * 2 ^ k).
Proof. intros H. unfold segment. by rewrite (lor_block k m H). Qed.

(** The code of a block. *)
Definition ublock (mask q : Z) : Z :=
  let seg := segment (q * 2 ^ 3) in
  if 8 <=? seg then u8 (Z.lxor 0x7F mask)
  else u8 (Z.lxor (Z.lor (Z.shiftl seg 4) (Z.land (Z.shiftr q seg) 0xF)) mask).
Definition ablock (mask q : Z) : Z :=
  let seg := segment (q * 2 ^ 4) in
  if 8 <=? seg then u8 (Z.lxor 0x7F mask)
  else u8 (Z.lxor (Z.lor (Z.shiftl seg 4) (Z.land (Z.shiftr q (if seg =? 0 then 0 else seg - 1)) 0xF)) mask).

Definition umag (x : Z) : Z := ULAW_BIAS + Z.abs x.
Definition umask (x : Z) : Z := if x <? 0 then 0x7F else 0xFF.
Definition amag (x : Z) : Z := if 0 <=? x then x else - x - 8.
Definition amask (x : Z) : Z := if 0 <=? x then 0xD5 else 0x55.

Lemma ulaw_blocks x : 0 <= segment (umag x) -> linear_to_ulaw x = ublock (umask x) (umag x / 8).
Proof.
  intros S. assert (E : (if x <? 0 then (ULAW_BIAS - x, 0x7F) else (ULAW_BIAS + x, 0xFF)) = (umag x, umask x)).
  { unfold umag, umask. destruct (Z.ltb_spec x 0); f_equal; lia. }
  unfold linear_to_ulaw. rewrite E. change (top_bit (u32 (Z.lor (umag x) 255)) - 7) with (segment (umag x)).
  unfold ublock. pose proof (segment_block 3 (umag x) ltac:(lia)) as B. change (2 ^ 3) with 8 in *. rewrite <- B.
  destruct (8 <=? _); [done|]. rewrite Z.add_comm, <- Z.shiftr_shiftr by lia.
  by rewrite (Z.shiftr_div_pow2 _ 3) by lia.
Qed.

Lemma alaw_blocks x : 0 <= amag x -> 0 <= segment (amag x) -> linear_to_alaw x = ablock (amask x) (amag x / 16).
Proof.
  intros P S.
  assert (E : (if 0 <=? x then (x, Z.lor ALAW_AMI_MASK 0x80) else (- x - 8, ALAW_AMI_MASK)) = (amag x, amask x)).
  { unfold amag, amask. by destruct (0 <=? x). }
  unfold linear_to_alaw. rewrite E. change (top_bit (u32 (Z.lor (amag x) 255)) - 7) with (segment (amag x)).
  unfold ablock. pose proof (segment_block 4 (amag x) ltac:(lia)) as B. change (2 ^ 4) with 16 in *. rewrite <- B.
  rewrite (proj2 (Z.leb_le 0 (amag x))) by done. destruct (8 <=? _); [done|]. do 4 f_equal.
  destruct (Z.eqb_spec (segment (amag x)) 0).
  - by rewrite Z.shiftr_0_r, (Z.shiftr_div_pow2 _ 4) by lia.
  - replace (segment (amag x) + 3) with (4 + (segment (amag x) - 1)) by lia.
    rewrite <- Z.shiftr_shiftr by lia. by rewrite (Z.shiftr_div_pow2 _ 4) by lia.
Qed.

(** What is computed for each block: the segment is there, the value decoded for
    a sample of either sign is near to all samples of the block, and the next
    block does not give a smaller one. *)
Definition near (d tolerance x : Z) : bool := Z.abs (d - x) <=? Z.abs x / 32 + tolerance.
Definition ublock_ok (q : Z) : bool :=
  let p := ulaw_to_linear (ublock 0xFF q) in
  let n := ulaw_to_linear (ublock 0x7F q) in
  (0 <=? segment (q * 2 ^ 3)) &&
  all_from 8 0 (fun r => let x := q * 8 + r - ULAW_BIAS in (x <? 0) || near p 5 x && near n 5 (- x)) &&
  (p <=? ulaw_to_linear (ublock 0xFF (q + 1))) && (ulaw_to_linear (ublock 0x7F (q + 1)) <=? n).
Definition ablock_ok (q : Z) : bool :=
  let p := alaw_to_linear (ablock 0xD5 q) in
  let n := alaw_to_linear (ablock 0x55 q) in
  (0 <=? segment (q * 2 ^ 4)) &&
  all_from 16 0 (fun r => let x := q * 16 + r in near p 15 x && near n 15 (- x - 8)) &&
  (p <=? alaw_to_linear (ablock 0xD5 (q + 1))) && (alaw_to_linear (ablock 0x55 (q + 1)) <=? n).

Lemma ublocks_ok q : 16 <= q < 4113 -> ublock_ok q = true.
Proof. apply (all_from_spec (Z.to_nat 4097) 16). vm_compute. reflexivity. Qed.
Lemma ablocks_ok q : 0 <= q < 2048 -> ablock_ok q = true.
Proof. apply (all_from_spec (Z.to_nat 2048) 0). vm_compute. reflexivity. Qed.

Lemma near_spec d k x : near d k x = true -> Z.abs (d - x) <= Z.abs x / 32 + k.
Proof. apply Z.leb_le. Qed.

Lemma ulaw_near x : -32768 <= x < 32768 ->
  linear_to_ulaw x = ublock (umask x) (umag x / 8) /\ near (ulaw_to_linear (linear_to_ulaw x)) 5 x = true.
Proof.
  intros H. set (q := umag x / 8). assert (Hm : ULAW_BIAS <= umag x < 32901) by (unfold umag, ULAW_BIAS; lia).
  pose proof (Z.div_mod (umag x) 8 ltac:(lia)) as D. pose proof (Z.mod_pos_bound (umag x) 8 ltac:(lia)) as R. fold q in D.
  assert (Hq : 16 <= q < 4113) by (unfold ULAW_BIAS in Hm; lia). pose proof (ublocks_ok q Hq) as K.
  unfold ublock_ok in K. btests. match goal with K : all_from _ _ _ = true |- _ => pose proof (all_from_spec _ _ _ K (umag x mod 8) ltac:(lia)) as A end.
  assert (E : linear_to_ulaw x = ublock (umask x) q) by (apply ulaw_blocks; by rewrite (segment_block 3)).
  split; [exact E|]. rewrite E. cbv zeta beta in A. replace (q * 8 + umag x mod 8 - ULAW_BIAS) with (Z.abs x) in A by (unfold umag in *; lia).
  rewrite (proj2 (Z.ltb_ge (Z.abs x) 0)) in A by lia. cbn [orb] in A. apply andb_prop in A as [A1 A2].
  unfold umask. destruct (Z.ltb_spec x 0) as [L|L].
  - by replace (- Z.abs x) with x in A2 by lia.
  - by replace (Z.abs x) with x in A1 by lia.
Qed.

Lemma alaw_near x : -32768 <= x < 32768 -> 0 <= amag x ->
  linear_to_alaw x = ablock (amask x) (amag x / 16) /\ near (alaw_to_linear (linear_to_alaw x)) 15 x = true.
Proof.
  intros H P. set (q := amag x / 16). assert (Hm : amag x < 32768) by (unfold amag; destruct (Z.leb_spec 0 x); lia).
  pose proof (Z.div_mod (amag x) 16 ltac:(lia)) as D. pose proof (Z.mod_pos_bound (amag x) 16 ltac:(lia)) as R. fold q in D.
  assert (Hq : 0 <= q < 2048) by lia. pose proof (ablocks_ok q Hq) as K.
  unfold ablock_ok in K. btests. match goal with K : all_from _ _ _ = true |- _ => pose proof (all_from_spec _ _ _ K (amag x mod 16) ltac:(lia)) as A end.
  assert (E : linear_to_alaw x = ablock (amask x) q) by (apply alaw_blocks; [done|by rewrite (segment_block 4)]).
  split; [exact E|]. rewrite E. cbv zeta beta in A. replace (q * 16 + amag x mod 16) with (amag x) in A by lia.
  apply andb_prop in A as [A1 A2]. unfold amask, amag in *. destruct (Z.leb_spec 0 x) as [L|L]; [done|].
  by replace (- (- x - 8) - 8) with x in A2 by lia.
Qed.

(** Every 16-bit sample is coded in a byte, and coding and decoding changes it
    by a thirty-second of its size and 5 (u-law) or 15 (A-law) at most. *)
Theorem g711_accurate x : -32768 <= x < 32768 ->
  0 <= linear_to_ulaw x < 256 /\ 0 <= linear_to_alaw x < 256 /\
  Z.abs (ulaw_to_linear (linear_to_ulaw x) - x) <= Z.abs x / 32 + 5 /\
  Z.abs (alaw_to_linear (linear_to_alaw x) - x) <= Z.abs x / 32 + 15.
Proof.
  intros H. refine (conj _ (conj _ (conj (near_spec _ _ _ (proj2 (ulaw_near x H))) _))).
  1, 2: unfold linear_to_ulaw, linear_to_alaw; repeat case_match; apply Z.mod_pos_bound; lia.
  apply near_spec. destruct (Z.le_gt_cases 0 (amag x)) as [P|P]; [by apply alaw_near|].
  unfold amag in P. destruct (Z.leb_spec 0 x); [lia|].
  assert (K : near (alaw_to_linear (linear_to_alaw (-8 + (x + 8)))) 15 (-8 + (x + 8)) = true); [|by replace (-8 + (x + 8)) with x in K by lia].
  generalize (x + 8), (conj (ltac:(lia) : 0 <= x + 8) (ltac:(lia) : x + 8 < 8)). intros y Hy.
  revert y Hy. apply (below 8). vm_compute. reflexivity.
Qed.

(** A transcoded sample differs from the original by a thirty-second of its
    size at most, and by 8 more from u-law to A-law. *)
Theorem g711_transcodes c : 0 <= c < 256 ->
  (exists a, ulaw_to_alaw c = Ok a /\
     Z.abs (alaw_to_linear a - ulaw_to_linear c) <= Z.abs (ulaw_to_linear c) / 32 + 8) /\
  (exists u, alaw_to_ulaw c = Ok u /\
     Z.abs (ulaw_to_linear u - alaw_to_linear c) <= Z.abs (alaw_to_linear c) / 32).
Proof.
  intros H.
  assert (E : match ulaw_to_alaw c, alaw_to_ulaw c with
              | Ok a, Ok u => (Z.abs (alaw_to_linear a - ulaw_to_linear c) <=? Z.abs (ulaw_to_linear c) / 32 + 8) &&
                              (Z.abs (ulaw_to_linear u - alaw_to_linear c) <=? Z.abs (alaw_to_linear c) / 32)
              | _, _ => false
              end = true).
  { revert c H. apply (below 256). vm_compute. reflexivity. }
  destruct (ulaw_to_alaw c) as [a| |], (alaw_to_ulaw c) as [u| |]; try done. btests.
  split; [by exists a|by exists u].
Qed.

(** The lowest bit is found one place too high. *)
Lemma bottom_bit_high k : 0 <= k < 32 -> bottom_bit (2 ^ k) = k + 1.
Proof.
  intros H. apply Z.eqb_eq. revert k H. apply (below 32). vm_compute. reflexivity.
Qed.

(** ** Witnesses *)

Lemma g711_roundtrip_witness : linear_to_ulaw (ulaw_to_linear 0x7F) = 0xFF.
Proof. apply (g711_roundtrip 0x7F). lia. Defined.
Lemma g711_accurate_witness : Z.abs (ulaw_to_linear (linear_to_ulaw (-1000)) + 1000) <= 36.
Proof. destruct (g711_accurate (-1000)) as (_ & _ & E & _); [lia|]. exact E. Defined.
Lemma g711_transcodes_witness : exists a, ulaw_to_alaw 0 = Ok a /\ Z.abs (alaw_to_linear a + 32124) <= 1011.
Proof. apply (g711_transcodes 0). lia. Defined.
