(* ===== verification/Samples.v ===== *)
(** * Samples (src/switch_resample.c, src/include/switch_resample.h)

    Linear audio is a buffer of 16-bit samples, channel by channel within each frame.  Buffers are lists whose
    accesses are checked.  Floating-point numbers are finite ones, [mant * 2 ^ expo]; every operation rounds to the
    nearest number of [prec] bits, even at ties; infinities and numbers out of the range of an
    integer that is converted to are [UB].  [char] is unsigned, as on the ARM target. *)
From S2P Require Import Prelude.
Open Scope Z_scope.
#[local] Notation length := List.length (only parsing).

(** ** Buffers *)

Definition get_at {A} (l : list A) (i : Z) : outcome A :=
  if 0 <=? i then match l !! Z.to_nat i with Some x => Ok x | None => UB end else UB.
Definition put_at {A} (l : list A) (i : Z) (x : A) : outcome (list A) :=
  if (0 <=? i) && (i <? zlen l) then Ok (<[Z.to_nat i := x]> l) else UB.
(** [memset] of the first [n] elements to zero. *)
Definition clear_first (l : list Z) (n : Z) : outcome (list Z) :=
  if n <=? zlen l then Ok (replicate (Z.to_nat n) 0 ++ zdrop n l) else UB.

(** ** Floating point *)

Record fp := Fp { mant : Z; expo : Z }.
Definition FLT : Z := 24.
Definition DBL : Z := 53.

(** The rounded quotient of two integers, [0 <= n] and [0 < d]. *)
Definition expo_of (prec n d : Z) : Z :=
  let e := Z.log2 n - Z.log2 d - prec + 1 in
  if n * 2 ^ Z.max 0 (- e) / (d * 2 ^ Z.max 0 e) <? 2 ^ (prec - 1) then e - 1 else e.
Definition nearest (n d : Z) : Z :=
  let q := n / d in
  match 2 * (n mod d) ?= d with Lt => q | Eq => if Z.odd q then q + 1 else q | Gt => q + 1 end.
Definition round (prec n d : Z) : fp :=
  if n =? 0 then Fp 0 0
  else let e := expo_of prec (Z.abs n) d in
       Fp (Z.sgn n * nearest (Z.abs n * 2 ^ Z.max 0 (- e)) (d * 2 ^ Z.max 0 e)) e.
(** The numerator and the denominator of a number. *)
Definition num (f : fp) : Z := mant f * 2 ^ Z.max 0 (expo f).
Definition den (f : fp) : Z := 2 ^ Z.max 0 (- expo f).

Definition of_int (prec x : Z) : fp := round prec x 1.
Definition fadd (prec : Z) (a b : fp) : fp := round prec (num a * den b + num b * den a) (den a * den b).
Definition fmul (prec : Z) (a b : fp) : fp := round prec (num a * num b) (den a * den b).
Definition fdiv (prec : Z) (a b : fp) : fp := round prec (num a * den b * Z.sgn (num b)) (den a * Z.abs (num b)).
(** Conversion to an integer cuts the fraction off. *)
Definition trunc (f : fp) : Z := Z.quot (num f) (den f).
Definition to_int (lo hi : Z) (f : fp) : outcome Z :=
  if (lo <=? trunc f) && (trunc f <=? hi) then Ok (trunc f) else UB.
Definition gt_int (f : fp) (x : Z) : bool := x * den f <? num f.
Definition lt_int (f : fp) (x : Z) : bool := num f <? x * den f.

(** ** Conversions *)

Definition NORMFACT : fp := of_int FLT 0x8000.
Definition MAXSAMPLE : Z := 0x7FFF.
Definition SHRT_MAX : Z := 32767.

Definition float_to_short (f : fp) : outcome Z :=
  let ft := fmul FLT f NORMFACT in
  let half := if 0 <=? num ft then Fp 1 (-1) else Fp (-1) (-1) in
  let* s := to_int (-32768) SHRT_MAX (fadd DBL ft half) in
  let s := if MAXSAMPLE <? s then MAXSAMPLE ÷ 2 else s in
  Ok (if s <? - MAXSAMPLE then (- MAXSAMPLE) ÷ 2 else s).
Fixpoint float_to_short_loop (n : nat) (i : Z) (f : list fp) (s : list Z) : outcome (list Z) :=
  match n with
  | O => Ok s
  | Datatypes.S n =>
    let* x := get_at f i in let* v := float_to_short x in let* s := put_at s i v in float_to_short_loop n (i + 1) f s
  end.
Definition switch_float_to_short (f : list fp) (s : list Z) (len : Z) : outcome (list Z * Z) :=
  let* s := float_to_short_loop (Z.to_nat len) 0 f s in Ok (s, len).

Definition short_to_float (s : Z) : fp := fdiv FLT (of_int FLT s) NORMFACT.
Fixpoint short_to_float_loop (n : nat) (i : Z) (s : list Z) (f : list fp) : outcome (list fp) :=
  match n with
  | O => Ok f
  | Datatypes.S n => let* x := get_at s i in let* f := put_at f i (short_to_float x) in short_to_float_loop n (i + 1) s f
  end.
Definition switch_short_to_float (s : list Z) (f : list fp) (len : Z) : outcome (list fp * Z) :=
  let* f := short_to_float_loop (Z.to_nat len) 0 s f in Ok (f, len).

Definition char_to_float (lo hi : Z) : fp :=
  let f := fdiv FLT (of_int FLT (hi * 0x100 + lo)) NORMFACT in
  let f := if gt_int f MAXSAMPLE then of_int FLT MAXSAMPLE else f in
  if lt_int f (- MAXSAMPLE) then of_int FLT (- MAXSAMPLE) else f.
(** [i] is 1, 3, 5 and so on. *)
Fixpoint char_to_float_loop (n : nat) (i : Z) (c : list Z) (f : list fp) : outcome (list fp) :=
  match n with
  | O => Ok f
  | Datatypes.S n =>
    let* hi := get_at c i in let* lo := get_at c (i - 1) in
    let* f := put_at f (i ÷ 2) (char_to_float lo hi) in char_to_float_loop n (i + 2) c f
  end.
Definition switch_char_to_float (c : list Z) (f : list fp) (len : Z) : outcome (list fp * Z) :=
  if negb (Z.rem len 2 =? 0) then Ok (f, -1)
  else let* f := char_to_float_loop (Z.to_nat (len ÷ 2)) 1 c f in Ok (f, len ÷ 2).

Definition float_to_long (f : fp) : outcome Z :=
  let ft := fmul FLT f NORMFACT in
  to_int (- 2 ^ 31) (2 ^ 31 - 1) (fadd DBL ft (if 0 <=? num ft then Fp 1 (-1) else Fp (-1) (-1))).
Fixpoint float_to_char_loop (n : nat) (i : Z) (f : list fp) (c : list Z) : outcome (list Z) :=
  match n with
  | O => Ok c
  | Datatypes.S n =>
    let* x := get_at f i in let* l := float_to_long x in
    let* c := put_at c (i * 2) (Z.land l 0xff) in let* c := put_at c (i * 2 + 1) (Z.land (Z.shiftr l 8) 0xff) in
    float_to_char_loop n (i + 1) f c
  end.
Definition switch_float_to_char (f : list fp) (c : list Z) (len : Z) : outcome (list Z * Z) :=
  let* c := float_to_char_loop (Z.to_nat len) 0 f c in Ok (c, len * 2).

Definition swap_sample (x : Z) : Z := i16 (Z.lor (Z.land (Z.shiftr x 8) 0x00ff) (Z.land (Z.shiftl x 8) 0xff00)).
Fixpoint swap_loop (n : nat) (i : Z) (buf : list Z) : outcome (list Z) :=
  match n with
  | O => Ok buf
  | Datatypes.S n => let* x := get_at buf i in let* buf := put_at buf i (swap_sample x) in swap_loop n (i + 1) buf
  end.
Definition switch_swap_linear (buf : list Z) (len : Z) : outcome (list Z) := swap_loop (Z.to_nat len) 0 buf.

(** ** Silence *)

(** Six numbers are added up for each sample; [seed] stands for the clock and the address. *)
Fixpoint noise (x : nat) (rnd2 sum_rnd : Z) : Z * Z :=
  match x with
  | O => (rnd2, sum_rnd)
  | Datatypes.S x => let rnd2 := i16 (u32 (u32 rnd2 * 31821 + 13849)) in noise x rnd2 (sum_rnd + rnd2)
  end.
Definition noise_sample (sum_rnd divisor : Z) : Z := i16 (i16 sum_rnd ÷ i32 divisor).
Fixpoint put_frame (channels : nat) (data : list Z) (p s : Z) : outcome (list Z * Z) :=
  match channels with
  | O => Ok (data, p)
  | Datatypes.S n => let* data := put_at data p s in put_frame n data (p + 1) s
  end.
Fixpoint silence_loop (samples channels : nat) (divisor rnd2 : Z) (data : list Z) (p : Z) : outcome (list Z) :=
  match samples with
  | O => Ok data
  | Datatypes.S n =>
    let '(rnd2, sum_rnd) := noise 6 rnd2 0 in
    let* (data, p) := put_frame channels data p (noise_sample sum_rnd divisor) in
    silence_loop n channels divisor rnd2 data p
  end.
Definition switch_generate_sln_silence (seed : Z) (data : list Z) (samples channels divisor : Z) : outcome (list Z) :=
  let channels := if channels =? 0 then 1 else channels in
  if divisor =? 0 then Assert
  else if divisor =? UINT_MAX then clear_first data (u32 (samples * 2) / 2)
  else silence_loop (Z.to_nat samples) (Z.to_nat channels) divisor (i16 seed) data 0.

(** ** Mixing *)

Definition switch_normalize_to_16bit (n : Z) : Z := if 32767 <? n then 32767 else if n <? -32768 then -32768 else n.

(** The number of samples, an [int] that must not overflow. *)
Definition mix_count (samples other_samples channels : Z) : outcome (Z * Z) :=
  let channels := if channels =? 0 then 1 else channels in
  let x := i32 (if other_samples <? samples then other_samples else samples) in
  if bool_decide (i32 (x * channels) = x * channels) then Ok (x, x * channels) else UB.
Fixpoint mix_loop (mix : Z -> Z -> Z) (n : nat) (i : Z) (data other_data : list Z) : outcome (list Z) :=
  match n with
  | O => Ok data
  | Datatypes.S n =>
    let* a := get_at data i in let* b := get_at other_data i in
    let* data := put_at data i (mix a b) in mix_loop mix n (i + 1) data other_data
  end.
Definition switch_merge_sln (data : list Z) (samples : Z) (other_data : list Z) (other_samples channels : Z)
  : outcome (list Z * Z) :=
  let* (x, n) := mix_count samples other_samples channels in
  let* data := mix_loop (fun a b => i16 (switch_normalize_to_16bit (a + b))) (Z.to_nat n) 0 data other_data in Ok (data, u32 x).
Definition switch_unmerge_sln (data : list Z) (samples : Z) (other_data : list Z) (other_samples channels : Z)
  : outcome (list Z * Z) :=
  let* (x, n) := mix_count samples other_samples channels in
  let* data := mix_loop (fun a b => i16 (a - b)) (Z.to_nat n) 0 data other_data in Ok (data, u32 x).

(** ** Channels *)

(** Fewer channels: the frame is added up into the first places, over what was read. *)
Fixpoint sum_frame (n : nat) (i j orig_channels z : Z) (data : list Z) : outcome (list Z) :=
  match n with
  | O => Ok data
  | Datatypes.S n =>
    let* x := get_at data (u32 (u32 (i * orig_channels) + j)) in
    let z := switch_normalize_to_16bit (z + x) in
    let* data := put_at data i (i16 z) in sum_frame n i (j + 1) orig_channels z data
  end.
Fixpoint down_loop (n : nat) (i orig_channels : Z) (data : list Z) : outcome (list Z) :=
  match n with
  | O => Ok data
  | Datatypes.S n =>
    let* data := sum_frame (Z.to_nat orig_channels) i 0 orig_channels 0 data in down_loop n (i + 1) orig_channels data
  end.
(** More channels: the samples are doubled behind themselves and spread from there. *)
Fixpoint double_loop (n : nat) (i len : Z) (data : list Z) : outcome (list Z) :=
  match n with
  | O => Ok data
  | Datatypes.S n => let* x := get_at data i in let* data := put_at data (u32 (i + len)) x in double_loop n (i + 1) len data
  end.
Fixpoint spread_frame (n : nat) (k i samples : Z) (data : list Z) : outcome (list Z * Z) :=
  match n with
  | O => Ok (data, k)
  | Datatypes.S n =>
    let* x := get_at data (u32 (i + samples)) in
    let* data := put_at data k x in spread_frame n (u32 (k + 1)) i samples data
  end.
Fixpoint spread_loop (n : nat) (k i samples channels : Z) (data : list Z) : outcome (list Z) :=
  match n with
  | O => Ok data
  | Datatypes.S n =>
    let* (data, k) := spread_frame (Z.to_nat channels) k i samples data in spread_loop n k (i + 1) samples channels data
  end.
Definition switch_mux_channels (data : list Z) (samples orig_channels channels : Z) : outcome (list Z) :=
  if 11 <=? channels then Assert
  else if channels <? orig_channels then down_loop (Z.to_nat samples) 0 orig_channels data
  else if orig_channels <? channels then
    let len := u32 (samples * orig_channels) in
    let* data := double_loop (Z.to_nat len) 0 len data in spread_loop (Z.to_nat samples) 0 0 samples channels data
  else Ok data.

(** ** Volume *)

(** The nearest double to a decimal fraction of the source. *)
Definition decimal (n d : Z) : fp := round DBL n d.
Definition granular_pos : list (Z * Z) :=
  [(125, 100); (150, 100); (175, 100); (20, 10); (225, 100); (250, 100); (275, 100); (30, 10); (325, 100); (350, 100); (375, 100);
   (40, 10); (45, 10)].
Definition granular_neg : list (Z * Z) :=
  [(917, 1000); (834, 1000); (751, 1000); (668, 1000); (585, 1000); (502, 1000); (419, 1000); (336, 1000); (253, 1000); (87, 1000);
   (17, 1000); (4, 1000); (0, 10)].
Definition coarse_pos : list (Z * Z) := [(13, 10); (23, 10); (33, 10); (43, 10)].
Definition coarse_neg : list (Z * Z) := [(80, 100); (60, 100); (40, 100); (20, 100)].

Definition switch_normalize_volume_granular (x : Z) : Z := let x := if 13 <? x then 13 else x in if x <? -13 then -13 else x.
Definition switch_normalize_volume (x : Z) : Z := let x := if 4 <? x then 4 else x in if x <? -4 then -4 else x.

Definition scale (newrate : fp) (s : Z) : outcome Z :=
  let* tmp := to_int (- 2 ^ 31) (2 ^ 31 - 1) (fmul DBL (of_int DBL s) newrate) in Ok (i16 (switch_normalize_to_16bit tmp)).
Fixpoint scale_loop (n : nat) (x : Z) (newrate : fp) (fp_ : list Z) : outcome (list Z) :=
  match n with
  | O => Ok fp_
  | Datatypes.S n =>
    let* s := get_at fp_ x in let* v := scale newrate s in let* fp_ := put_at fp_ x v in scale_loop n (x + 1) newrate fp_
  end.
Definition rate_at (chart : list (Z * Z)) (i : Z) : outcome (Z * Z) :=
  match chart !! Z.to_nat i with Some r => Ok r | None => Assert end.
Definition switch_change_sln_volume_granular (data : list Z) (samples vol : Z) : outcome (list Z) :=
  if vol =? 0 then Ok data
  else
    let vol := switch_normalize_volume_granular vol in
    let* (n, d) := rate_at (if 0 <? vol then granular_pos else granular_neg) (Z.abs vol - 1) in
    let newrate := decimal n d in
    if negb (mant newrate =? 0) then scale_loop (Z.to_nat samples) 0 newrate data else clear_first data (u32 (samples * 2) / 2).
Definition switch_change_sln_volume (data : list Z) (samples vol : Z) : outcome (list Z) :=
  if vol =? 0 then Ok data
  else
    let vol := switch_normalize_volume vol in
    let* (n, d) := rate_at (if 0 <? vol then coarse_pos else coarse_neg) (Z.abs vol - 1) in
    let newrate := decimal n d in
    if negb (mant newrate =? 0) then scale_loop (Z.to_nat samples) 0 newrate data else Ok data.
