(* ===== verification/SamplesExact.v ===== *)
(** * What is done to samples, exactly

    Changing the volume in floating point is scaling by the decimal rates of the tables, but for
    one unit where the result is whole ([volume_scales]); merged audio is the sum within 16 bits and
    can be taken out again ([merge_exact]); frames are put together and doubled
    ([mux_exact]); samples come back from floating point ([samples_roundtrip]). *)
From S2P Require Import Prelude Samples.
Open Scope Z_scope.
#[local] Notation length := List.length (only parsing).

(** ** Rounding *)

Definition up_of (e : Z) : Z := 2 ^ Z.max 0 e.
Lemma up_pos e : 0 < up_of e.
Proof. unfold up_of. apply Z.pow_pos_nonneg; lia. Qed.
Lemma den_pos f : 0 < den f.
Proof. apply Z.pow_pos_nonneg; lia. Qed.
#[local] Hint Resolve up_pos den_pos : core.

Lemma expo_bounds0 prec n d : 0 < n -> 0 < d -> 2 <= prec ->
  let e := Z.log2 n - Z.log2 d - prec + 1 in
  2 ^ (prec - 2) * (d * up_of e) < n * up_of (- e) < 2 ^ prec * (d * up_of e).
Proof.
  intros N D P e. pose proof (Z.log2_spec n N) as [N1 N2]. pose proof (Z.log2_spec d D) as [D1 D2].
  pose proof (Z.log2_nonneg n). pose proof (Z.log2_nonneg d). unfold Z.succ in *. set (a := Z.log2 n) in *. set (b := Z.log2 d) in *.
  assert (S : a + Z.max 0 (- e) = b + (prec - 1) + Z.max 0 e) by lia.
  assert (A : 2 ^ a * up_of (- e) = 2 ^ b * 2 ^ (prec - 1) * up_of e).
  { unfold up_of. rewrite <- !Z.pow_add_r by lia. f_equal. lia. }
  assert (P1 : 2 ^ (prec - 1) = 2 * 2 ^ (prec - 2)) by (rewrite <- Z.pow_succ_r by lia; f_equal; lia).
  assert (P2 : 2 ^ prec = 2 * 2 ^ (prec - 1)) by (rewrite <- Z.pow_succ_r by lia; f_equal; lia).
  rewrite Z.pow_add_r in N2, D2 by lia. pose proof (up_pos e). pose proof (up_pos (- e)).
  assert (W : 0 < 2 ^ (prec - 2)) by (apply Z.pow_pos_nonneg; lia). rewrite P2, P1 in *.
  set (w := 2 ^ (prec - 2)) in *. set (u := up_of e) in *. set (v := up_of (- e)) in *. clearbody w u v a b.
  change (2 ^ 1) with 2 in *. set (x := 2 ^ a) in *. set (y := 2 ^ b) in *. clearbody x y. clear P1 P2 S P.
  pose proof (Z.mul_lt_mono_pos_l (w * u) d (y * 2) ltac:(nia)). pose proof (Z.mul_lt_mono_pos_l v n (x * 2) ltac:(nia)).
  pose proof (Z.mul_le_mono_nonneg_l y d (w * u) ltac:(nia)). pose proof (Z.mul_le_mono_nonneg_l x n v ltac:(nia)).
  split; nia.
Qed.
Lemma div_lt n d q : 0 < d -> n / d < q -> n < q * d.
Proof. intros D Q. pose proof (Z.mul_succ_div_gt n d D). nia. Qed.
Lemma expo_bounds prec n d : 0 < n -> 0 < d -> 2 <= prec ->
  let e := expo_of prec n d in
  2 ^ (prec - 1) * (d * up_of e) <= n * up_of (- e) < 2 ^ prec * (d * up_of e).
Proof.
  intros N D P. unfold expo_of. cbv zeta. fold (up_of (- (Z.log2 n - Z.log2 d - prec + 1))) (up_of (Z.log2 n - Z.log2 d - prec + 1)).
  pose proof (expo_bounds0 prec n d N D P) as B. cbv zeta in B. set (e := Z.log2 n - Z.log2 d - prec + 1) in *. destruct B as [B1 B2].
  pose proof (up_pos e). pose proof (up_pos (- e)). assert (DU : 0 < d * up_of e) by nia.
  destruct (Z.ltb_spec (n * up_of (- e) / (d * up_of e)) (2 ^ (prec - 1))) as [Q|Q].
  - apply div_lt in Q; [|done].
    assert (P1 : 2 ^ (prec - 1) = 2 * 2 ^ (prec - 2)) by (rewrite <- Z.pow_succ_r by lia; f_equal; lia).
    assert (P2 : 2 ^ prec = 2 * 2 ^ (prec - 1)) by (rewrite <- Z.pow_succ_r by lia; f_equal; lia).
    assert (U : (up_of (e - 1) = up_of e /\ up_of (- (e - 1)) = 2 * up_of (- e)) \/ (up_of e = 2 * up_of (e - 1) /\ up_of (- (e - 1)) = up_of (- e))).
    { unfold up_of. destruct (Z.le_gt_cases e 0); [left|right]; (split; [|]); try (f_equal; lia);
        rewrite <- Z.pow_succ_r by lia; f_equal; lia. }
    destruct U as [[-> ->]|[U1 ->]]; [nia|rewrite U1 in *; nia].
  - split; [|done]. pose proof (Z.mul_div_le (n * up_of (- e)) (d * up_of e) DU). nia.
Qed.

Lemma nearest_half n d : 0 < d -> 2 * Z.abs (nearest n d * d - n) <= d.
Proof.
  intros D. unfold nearest. pose proof (Z.div_mod n d ltac:(lia)) as E. pose proof (Z.mod_pos_bound n d D).
  destruct (Z.compare_spec (2 * (n mod d)) d); [destruct (Z.odd _)|..]; nia.
Qed.
Lemma nearest_exact q d : 0 < d -> nearest (q * d) d = q.
Proof. intros D. unfold nearest. rewrite Z.mod_mul, Z.div_mul by lia. by destruct d. Qed.
Lemma nearest_ge n d b : 0 < d -> b * d <= n -> b <= nearest n d.
Proof.
  intros D B. assert (b <= n / d) by (apply Z.div_le_lower_bound; lia). unfold nearest.
  destruct (_ ?= _); [destruct (Z.odd _)|..]; lia.
Qed.

(** The error is at most half a unit of the last of [prec] bits. *)
Lemma round_err prec n d : 2 <= prec -> 0 < d ->
  Z.abs (num (round prec n d) * d - n * den (round prec n d)) * 2 ^ prec <= d * Z.abs (num (round prec n d)).
Proof.
  intros P D. unfold round. destruct (Z.eqb_spec n 0) as [->|N]; [unfold num, den; cbn; lia|]. unfold num, den. cbn [mant expo].
  set (m := Z.abs n). set (e := expo_of prec m d). fold (up_of e) (up_of (- e)).
  assert (M : 0 < m) by lia. pose proof (expo_bounds prec m d M D P) as [B1 B2]. fold e in B1, B2.
  pose proof (up_pos e). pose proof (up_pos (- e)). assert (DU : 0 < d * up_of e) by nia.
  pose proof (nearest_half (m * up_of (- e)) _ DU) as H1. pose proof (nearest_ge _ _ _ DU B1) as Q. set (q := nearest _ _) in *.
  assert (P2 : 2 ^ prec = 2 * 2 ^ (prec - 1)) by (rewrite <- Z.pow_succ_r by lia; f_equal; lia).
  assert (PP : 0 < 2 ^ (prec - 1)) by (apply Z.pow_pos_nonneg; lia).
  assert (En : n = Z.sgn n * m) by (unfold m; by rewrite Z.mul_comm, Z.abs_sgn).
  replace (Z.sgn n * q * up_of e * d - n * up_of (- e)) with (Z.sgn n * (q * (d * up_of e) - m * up_of (- e))) 
    by (replace (n * up_of (- e)) with (Z.sgn n * m * up_of (- e)) by (by rewrite <- En); ring).
  rewrite !Z.abs_mul. replace (Z.abs (Z.sgn n)) with 1 by lia.
  rewrite (Z.abs_eq q), (Z.abs_eq (up_of e)) by lia. rewrite P2. nia.
Qed.
Lemma round_sgn prec n d : 2 <= prec -> 0 < d -> Z.sgn (num (round prec n d)) = Z.sgn n.
Proof.
  intros P D. unfold round. destruct (Z.eqb_spec n 0) as [->|N]; [done|]. unfold num. cbn [mant expo].
  set (e := expo_of prec (Z.abs n) d). fold (up_of e) (up_of (- e)).
  pose proof (expo_bounds prec (Z.abs n) d ltac:(lia) D P) as [B1 _]. fold e in B1. pose proof (up_pos e).
  pose proof (nearest_ge (Z.abs n * up_of (- e)) (d * up_of e) (2 ^ (prec - 1)) ltac:(nia) B1) as Q.
  assert (0 < 2 ^ (prec - 1)) by (apply Z.pow_pos_nonneg; lia). rewrite !Z.sgn_mul, Z.sgn_sgn, (Z.sgn_pos (nearest _ _)), (Z.sgn_pos (up_of e)) by lia.
  lia.
Qed.

(** ** Exact results *)

(** [f] is the number [n / d]. *)
Definition equals (f : fp) (n d : Z) : Prop := num f * d = n * den f.
Lemma round_exact prec n d x j : 2 <= prec -> 0 < d -> 0 <= j -> n * 2 ^ j = x * d -> Z.abs x < 2 ^ prec -> equals (round prec n d) n d.
Proof.
  intros P D J E X. unfold equals, round. destruct (Z.eqb_spec n 0) as [->|N]; [done|]. unfold num, den. cbn [mant expo].
  set (m := Z.abs n). set (e := expo_of prec m d). fold (up_of e) (up_of (- e)).
  assert (M : 0 < m) by lia. pose proof (expo_bounds prec m d M D P) as [B1 _]. fold e in B1.
  pose proof (up_pos e). pose proof (up_pos (- e)). assert (J2 : 0 < 2 ^ j) by (apply Z.pow_pos_nonneg; lia).
  assert (Em : m * 2 ^ j = Z.abs x * d) by (unfold m; rewrite <- (Z.abs_eq (2 ^ j)), <- (Z.abs_eq d), <- !Z.abs_mul by lia; by f_equal).
  (* the exponent is at most - j *)
  assert (L : e <= - j).
  { destruct (Z.le_gt_cases e (- j)) as [?|G]; [done|exfalso].
    assert (U : up_of (- e) * 2 <= 2 ^ j * up_of e).
    { unfold up_of. change 2 with (2 ^ 1) at 2. rewrite <- !Z.pow_add_r by lia. apply Z.pow_le_mono_r; lia. }
    assert (P2 : 2 ^ prec = 2 * 2 ^ (prec - 1)) by (rewrite <- Z.pow_succ_r by lia; f_equal; lia).
    set (w := 2 ^ (prec - 1)) in *. set (u := up_of e) in *. set (v := up_of (- e)) in *. set (y := 2 ^ j) in *.
    assert (m * v * 2 <= m * (y * u)) by nia. assert (m * (y * u) = Z.abs x * d * u) by (rewrite <- Em; ring).
    assert (Z.abs x * d * u < 2 * w * (d * u)) by nia. nia. }
  set (k := 2 ^ (- e - j)).
  assert (V : up_of (- e) = 2 ^ j * k) by (unfold up_of, k; rewrite <- Z.pow_add_r by lia; f_equal; lia).
  assert (U : up_of e = 1) by (unfold up_of; replace (Z.max 0 e) with 0 by lia; done).
  rewrite U, !Z.mul_1_r, V. replace (m * (2 ^ j * k)) with (Z.abs x * k * d) by (rewrite Z.mul_assoc, Em; ring).
  rewrite nearest_exact by done. replace (n * (2 ^ j * k)) with (x * k * d) by (rewrite Z.mul_assoc, E; ring).
  assert (Sx : Z.sgn n = Z.sgn x).
  { assert (K : Z.sgn (n * 2 ^ j) = Z.sgn (x * d)) by (by rewrite E). rewrite !Z.sgn_mul, (Z.sgn_pos (2 ^ j)), (Z.sgn_pos d) in K by lia. lia. }
  rewrite Sx. rewrite <- (Z.abs_sgn x) at 3. ring.
Qed.

Lemma of_int_exact prec x : 2 <= prec -> Z.abs x < 2 ^ prec -> equals (of_int prec x) x 1.
Proof. intros P X. apply (round_exact prec x 1 x 0); [done|lia..]. Qed.

(** ** Volume *)

(** A sample [s] scaled by [n / d] gives [v]: the product without its fraction, or one less if it has none,
    limited to 16 bits. *)
Definition scaled (n d s v : Z) : Prop :=
  exists t, (t = Z.quot (s * n) d \/ Z.rem (s * n) d = 0 /\ Z.abs t = Z.abs (Z.quot (s * n) d) - 1 /\ 0 <= t * s) /\
    v = switch_normalize_to_16bit t.

(** What is needed of a table's rate. *)
Definition rate_ok (r : Z * Z) : bool := (0 <=? r.1) && (0 <? r.2) && (r.2 <=? 1000) && (r.1 <=? 5 * r.2).

Lemma scale_floor nv dv X D0 : 0 < dv -> 0 < D0 -> 0 <= X -> 0 <= nv -> Z.abs (nv * D0 - X * dv) < dv ->
  nv / dv = X / D0 \/ X mod D0 = 0 /\ nv / dv = X / D0 - 1.
Proof.
  intros V D0p Xp N B. pose proof (Z.mul_div_le nv dv V). pose proof (Z.mul_succ_div_gt nv dv V). set (t := nv / dv) in *. clearbody t.
  assert (L : t * D0 <= X) by (assert (t * D0 * dv < (X + 1) * dv) by nia; nia).
  assert (U : X <= (t + 1) * D0) by (assert ((X - 1) * dv < (t + 1) * D0 * dv) by nia; nia).
  destruct (Z.eq_dec X ((t + 1) * D0)) as [->|]; [right; rewrite Z.mod_mul, Z.div_mul by lia; lia|].
  left. apply (Z.div_unique_pos X D0 t (X - t * D0)); nia.
Qed.
Lemma chain_err nr dr N0 D0 nv dv s : 0 < dr -> 0 < D0 -> 0 < dv -> 0 <= s <= 32768 -> 0 <= nv -> 0 <= nr -> 0 <= N0 <= 5 * D0 -> D0 <= 1000 ->
  Z.abs (nr * D0 - N0 * dr) * 2 ^ 53 <= D0 * nr -> Z.abs (nv * dr - s * nr * dv) * 2 ^ 53 <= dr * nv ->
  Z.abs (nv * D0 - s * N0 * dv) < dv.
Proof.
  intros R D V S NV NR N0b D0b E1 E2. change (2 ^ 53) with 9007199254740992 in *.
  assert (A : Z.abs (dr * (nv * D0 - s * N0 * dv)) * 9007199254740992 <= 3 * (D0 * dr * nv)).
  { replace (dr * (nv * D0 - s * N0 * dv)) with (D0 * (nv * dr - s * nr * dv) + s * dv * (nr * D0 - N0 * dr)) by ring.
    pose proof (Z.abs_triangle (D0 * (nv * dr - s * nr * dv)) (s * dv * (nr * D0 - N0 * dr))) as T.
    rewrite !Z.abs_mul, (Z.abs_eq D0), (Z.abs_eq s), (Z.abs_eq dv) in T by lia.
    set (a := Z.abs (nv * dr - s * nr * dv)) in *. set (b := Z.abs (nr * D0 - N0 * dr)) in *.
    assert (Q1 : D0 * a * 9007199254740992 <= D0 * (dr * nv)) by nia.
    assert (Q2 : s * dv * b * 9007199254740992 <= s * dv * (D0 * nr)).
    { replace (s * dv * b * 9007199254740992) with (s * dv * (b * 9007199254740992)) by ring. apply Z.mul_le_mono_nonneg_l; [nia|done]. }
    assert (Q3 : s * nr * dv <= 2 * (dr * nv)) by (pose proof (Z.abs_spec (nv * dr - s * nr * dv)); fold a in E2; nia).
    assert (Q4 : s * dv * (D0 * nr) <= D0 * (2 * (dr * nv))) by (replace (s * dv * (D0 * nr)) with (D0 * (s * nr * dv)) by ring; apply Z.mul_le_mono_nonneg_l; lia).
    lia. }
  rewrite Z.abs_mul, (Z.abs_eq dr) in A by lia. set (c := Z.abs (nv * D0 - s * N0 * dv)) in *.
  assert (B : c * 9007199254740992 <= 3 * (D0 * nv)).
  { apply (Z.mul_le_mono_pos_l _ _ dr); [done|]. replace (dr * (3 * (D0 * nv))) with (3 * (D0 * dr * nv)) by ring. lia. }
  assert (SN : s * N0 <= 32768 * (5 * D0)) by (apply Z.mul_le_mono_nonneg; lia).
  assert (C : D0 * nv <= 2 * (32768 * (5 * D0) * dv)).
  { assert (s * N0 * dv <= 32768 * (5 * D0) * dv) by (apply Z.mul_le_mono_nonneg_r; lia). lia. }
  assert (F : 0 < dv * 1000) by lia. nia.
Qed.

Lemma quot_sgn a b : 0 < b -> Z.quot a b = Z.sgn a * (Z.abs a / b).
Proof.
  intros B. destruct (Z.le_gt_cases 0 a).
  - rewrite Z.quot_div_nonneg, (Z.abs_eq a) by lia. destruct (Z.eq_dec a 0) as [->|]; [done|]. rewrite Z.sgn_pos by lia. ring.
  - rewrite <- (Z.opp_involutive a) at 1. rewrite Z.quot_opp_l, Z.quot_div_nonneg, (Z.abs_neq a), (Z.sgn_neg a) by lia. ring.
Qed.
Lemma scale_abs n d s : rate_ok (n, d) = true -> -32768 <= s <= 32767 ->
  scaled n d s (switch_normalize_to_16bit (trunc (fmul DBL (of_int DBL s) (decimal n d)))) /\
  Z.abs (trunc (fmul DBL (of_int DBL s) (decimal n d))) <= 163840.
Proof.
  intros R S. unfold rate_ok in R. cbn [fst snd] in R. btests.
  pose proof (of_int_exact DBL s ltac:(done) ltac:(change (2 ^ DBL) with 9007199254740992; lia)) as A. unfold equals in A. rewrite Z.mul_1_r in A.
  unfold decimal. pose proof (round_err DBL n d ltac:(done) ltac:(lia)) as E1. pose proof (round_sgn DBL n d ltac:(done) ltac:(lia)) as G1.
  set (r := round DBL n d) in *. set (a := of_int DBL s) in *. unfold fmul. rewrite A.
  pose proof (den_pos a) as Da. pose proof (den_pos r) as Dr.
  pose proof (round_err DBL (s * den a * num r) (den a * den r) ltac:(done) ltac:(nia)) as E2.
  pose proof (round_sgn DBL (s * den a * num r) (den a * den r) ltac:(done) ltac:(nia)) as G2. set (v := round DBL (s * den a * num r) (den a * den r)) in *. pose proof (den_pos v) as Dv.
  change DBL with 53 in *. clearbody v r a. rewrite !Z.sgn_mul, (Z.sgn_pos (den a)), Z.mul_1_r in G2 by done.
  set (nr := num r) in *. set (dr := den r) in *. set (nv := num v) in *. set (dv := den v) in *. set (da := den a) in *.
  assert (NR : 0 <= nr) by lia.
  assert (E2' : Z.abs (Z.abs nv * dr - Z.abs s * nr * dv) * 2 ^ 53 <= dr * Z.abs nv).
  { apply (Z.mul_le_mono_pos_l _ _ da); [done|]. replace (da * (dr * Z.abs nv)) with (da * dr * Z.abs nv) by ring. etransitivity; [|exact E2].
    replace (nv * (da * dr) - s * da * nr * dv) with (da * (nv * dr - s * nr * dv)) by ring. rewrite Z.abs_mul, (Z.abs_eq da) by lia.
    replace (Z.abs (Z.abs nv * dr - Z.abs s * nr * dv)) with (Z.abs (nv * dr - s * nr * dv)); [lia|].
    destruct (Z.eq_dec nr 0) as [Zr|Zr]; [assert (nv = 0) as -> by lia; rewrite Zr; f_equal; lia|].
    rewrite (Z.sgn_pos nr), Z.mul_1_r in G2 by lia. destruct (Z.le_gt_cases 0 s).
    - by rewrite (Z.abs_eq s), (Z.abs_eq nv) by lia.
    - rewrite (Z.abs_neq s), (Z.abs_neq nv), <- Z.abs_opp by lia. f_equal. ring. }
  pose proof (chain_err nr dr n d (Z.abs nv) dv (Z.abs s) Dr ltac:(lia) Dv ltac:(lia) ltac:(lia) NR ltac:(lia) ltac:(lia) ltac:(by rewrite (Z.abs_eq nr) in E1 by lia) E2') as B.
  pose proof (scale_floor (Z.abs nv) dv (Z.abs s * n) d Dv ltac:(lia) ltac:(nia) ltac:(lia) B) as F.
  assert (Qv : trunc v = Z.sgn nv * (Z.abs nv / dv)) by apply quot_sgn, Dv.
  assert (Qx : Z.quot (s * n) d = Z.sgn s * (Z.abs s * n / d)).
  { rewrite quot_sgn by lia. rewrite Z.abs_mul, (Z.abs_eq n), Z.sgn_mul by lia. destruct (Z.eq_dec n 0) as [->|]; [by rewrite !Z.mul_0_r|].
    rewrite (Z.sgn_pos n) by lia. ring. }
  assert (N0 : 0 <= Z.abs nv / dv) by (apply Z.div_pos; lia).
  assert (X0 : 0 <= Z.abs s * n / d) by (apply Z.div_pos; [apply Z.mul_nonneg_nonneg; lia|lia]).
  assert (Xb : Z.abs s * n / d <= 163840).
  { apply Z.div_le_upper_bound; [lia|]. pose proof (Z.mul_le_mono_nonneg (Z.abs s) 32768 n (5 * d) ltac:(lia) ltac:(lia) ltac:(lia) ltac:(lia)). lia. }
  assert (Rx : Z.rem (s * n) d = Z.sgn s * (Z.abs s * n mod d)).
  { rewrite Z.rem_eq, Qx, Z.mod_eq by lia. rewrite <- (Z.abs_sgn s) at 1. ring. }
  assert (Sg : nv <> 0 -> Z.sgn nv = Z.sgn s).
  { intros Nv. destruct (Z.eq_dec nr 0) as [Zr|]; [exfalso; apply Nv, Z.sgn_null_iff; rewrite G2, Zr; apply Z.mul_0_r|]. by rewrite G2, (Z.sgn_pos nr), Z.mul_1_r by lia. }
  assert (Z0 : nv = 0 -> Z.abs nv / dv = 0) by (intros ->; by rewrite Zdiv_0_l).
  assert (Zs : s = 0 -> Z.abs s * n / d = 0) by (intros ->; by rewrite Zdiv_0_l).
  set (y := Z.abs nv / dv) in *. set (x := Z.abs s * n / d) in *. clearbody x y. clear -F Qv Qx N0 X0 Xb Rx Sg Z0 Zs S.
  split; [|rewrite Qv; lia]. exists (trunc v). split; [|done]. rewrite Qv, Qx, Rx.
  destruct F as [->|[-> ->]].
  - left. destruct (Z.eq_dec nv 0) as [Zv|Zv]; [rewrite (Z0 Zv); lia|by rewrite Sg].
  - right. assert (Sn : s <> 0) by (intros E; specialize (Zs E); lia).
    assert (T : Z.sgn nv * (x - 1) = Z.sgn s * (x - 1)) by (destruct (Z.eq_dec nv 0) as [Zv|Zv]; [rewrite (Z0 Zv); lia|by rewrite Sg]).
    rewrite T, Z.mul_0_r, !Z.abs_mul. replace (Z.abs (Z.sgn s)) with 1 by lia. split_and!; [done|lia|].
    replace (Z.sgn s * (x - 1) * s) with (Z.abs s * (x - 1)) by (rewrite <- (Z.sgn_abs s); ring). apply Z.mul_nonneg_nonneg; lia.
Qed.

(** ** Loops over a buffer *)

Lemma get_at_lookup {A} (l : list A) k x : 0 <= k -> l !! Z.to_nat k = Some x -> get_at l k = Ok x.
Proof. intros K H. unfold get_at. rewrite (proj2 (Z.leb_le 0 k) K). by rewrite H. Qed.
Lemma put_at_ok {A} (l : list A) k x : 0 <= k < zlen l -> put_at l k x = Ok (<[Z.to_nat k := x]> l).
Proof. intros K. unfold put_at. by replace ((0 <=? k) && (k <? zlen l)) with true by lia. Qed.

(** Each of [n] places from [i] on is given a value that depends on the buffer. *)
Fixpoint inplace {A} (f : Z -> list A -> outcome A) (n : nat) (i : Z) (data : list A) : outcome (list A) :=
  match n with
  | O => Ok data
  | Datatypes.S n => let* v := f i data in let* data := put_at data i v in inplace f n (i + 1) data
  end.
Definition within (i n : Z) (k : nat) : bool := (i <=? Z.of_nat k) && (Z.of_nat k <? i + n).
Lemma within_in i n k : i <= Z.of_nat k < i + n -> within i n k = true.
Proof. unfold within. lia. Qed.
Lemma within_out i n k : ~ i <= Z.of_nat k < i + n -> within i n k = false.
Proof. unfold within. lia. Qed.
Lemma within_true i n k : within i n k = true -> i <= Z.of_nat k < i + n.
Proof. unfold within. lia. Qed.
Lemma inplace_spec {A} (f : Z -> list A -> outcome A) (g : nat -> A -> A) n : forall i data,
  0 <= i -> i + Z.of_nat n <= zlen data ->
  (forall k x d, within i (Z.of_nat n) k = true -> data !! k = Some x -> d !! k = Some x -> f (Z.of_nat k) d = Ok (g k x)) ->
  inplace f n i data = Ok (imap (fun k x => if within i (Z.of_nat n) k then g k x else x) data).
Proof.
  induction n as [|n IH]; intros i data I L F; cbn [inplace].
  - f_equal. apply list_eq. intros k. rewrite list_lookup_imap. destruct (data !! k); [|done]. cbn. f_equal.
    by rewrite within_out by lia.
  - destruct (lookup_lt_is_Some_2 data (Z.to_nat i)) as [x X]; [lia|]. assert (E : f i data = Ok (g (Z.to_nat i) x)).
    { rewrite <- (Z2Nat.id i) at 1 by lia. apply F; [apply within_in; lia|done|done]. }
    rewrite E, put_at_ok by lia. rewrite IH; [..|].
    + f_equal. apply list_eq. intros k. rewrite !list_lookup_imap. destruct (decide (k = Z.to_nat i)) as [->|N].
      * rewrite list_lookup_insert_eq by lia. rewrite X. cbn [fmap option_fmap option_map].
        by rewrite within_out, within_in by lia.
      * rewrite list_lookup_insert_ne by done. destruct (data !! k); [|done]. cbn [fmap option_fmap option_map]. do 2 f_equal.
        destruct (decide (i <= Z.of_nat k < i + Z.of_nat (Datatypes.S n))); [rewrite !within_in by lia|rewrite !within_out by lia]; done.
    + lia.
    + rewrite length_insert. lia.
    + intros k y d W Y Y'. apply within_true in W. rewrite list_lookup_insert_ne in Y by lia. apply F; [apply within_in; lia|done|done].
Qed.

Lemma scale_inplace r n : forall i data, scale_loop n i r data = inplace (fun i d => let* s := get_at d i in scale r s) n i data.
Proof.
  induction n as [|n IH]; intros i data; [done|]. cbn [scale_loop inplace]. destruct (get_at data i); [|done..].
  destruct (scale r a) as [v| |]; [|done..]. destruct (put_at data i v); [apply IH|done..].
Qed.
Lemma mix_inplace mix other n : forall i data,
  mix_loop mix n i data other = inplace (fun i d => let* a := get_at d i in let* b := get_at other i in Ok (mix a b)) n i data.
Proof.
  induction n as [|n IH]; intros i data; [done|]. cbn [mix_loop inplace]. destruct (get_at data i); [|done..].
  destruct (get_at other i) as [b| |]; [|done..]. destruct (put_at data i (mix a b)); [apply IH|done..].
Qed.
Lemma to_float_inplace s n : forall i f,
  short_to_float_loop n i s f = inplace (fun i _ => let* x := get_at s i in Ok (short_to_float x)) n i f.
Proof.
  induction n as [|n IH]; intros i f; [done|]. cbn [short_to_float_loop inplace]. destruct (get_at s i) as [x| |]; [|done..].
  destruct (put_at f i (short_to_float x)); [apply IH|done..].
Qed.
Lemma to_short_inplace f n : forall i s,
  float_to_short_loop n i f s = inplace (fun i _ => let* x := get_at f i in float_to_short x) n i s.
Proof.
  induction n as [|n IH]; intros i s; [done|]. cbn [float_to_short_loop inplace]. destruct (get_at f i) as [x| |]; [|done..].
  destruct (float_to_short x) as [v| |]; [|done..]. destruct (put_at s i v); [apply IH|done..].
Qed.

(** The first [n] samples scaled, the others as they were. *)
Definition all_scaled (num den n : Z) (data data' : list Z) : Prop :=
  length data' = length data /\ forall k s v, data !! k = Some s -> data' !! k = Some v -> if Z.of_nat k <? n then scaled num den s v else v = s.
Definition sample (s : Z) : Prop := -32768 <= s <= 32767.

Lemma i16_sample s : sample s -> i16 s = s.
Proof. unfold sample, i16. intros. rewrite Z.mod_small by lia. lia. Qed.
Lemma normal_sample s : sample (switch_normalize_to_16bit s).
Proof. unfold sample, switch_normalize_to_16bit. destruct (Z.ltb_spec 32767 s); [lia|]. destruct (Z.ltb_spec s (-32768)); lia. Qed.

Lemma scale_all n d samples data : rate_ok (n, d) = true -> Forall sample data -> 0 <= samples <= zlen data ->
  exists data', scale_loop (Z.to_nat samples) 0 (decimal n d) data = Ok data' /\ all_scaled n d samples data data'.
Proof.
  intros R F L. rewrite scale_inplace. set (g := fun s => switch_normalize_to_16bit (trunc (fmul DBL (of_int DBL s) (decimal n d)))).
  rewrite (inplace_spec _ (fun _ => g)); [|lia|lia|].
  - eexists. split; [reflexivity|]. split; [apply length_imap|]. intros k s v K. rewrite list_lookup_imap, K. cbn. intros [= <-].
    rewrite Z2Nat.id by lia. destruct (Z.ltb_spec (Z.of_nat k) samples) as [B|B]; [rewrite within_in by lia|by rewrite within_out by lia].
    apply scale_abs; [done|]. by apply (Forall_lookup_1 _ _ _ _ F) in K.
  - intros k s e W K K'. apply (Forall_lookup_1 _ _ _ _ F) in K. rewrite (get_at_lookup _ _ s) by (lia || by rewrite Nat2Z.id).
    unfold scale, to_int. destruct (scale_abs n d s R K) as [_ B]. fold (g s).
    replace ((- 2 ^ 31 <=? _) && _) with true by lia. by rewrite i16_sample by apply normal_sample.
Qed.
Lemma clear_scaled d samples data : 0 < d -> 0 <= samples <= zlen data -> samples < 2 ^ 31 ->
  exists data', clear_first data (u32 (samples * 2) / 2) = Ok data' /\ all_scaled 0 d samples data data'.
Proof.
  intros D L B. rewrite u32_small, Z.div_mul by lia. unfold clear_first. replace (samples <=? zlen data) with true by lia.
  eexists. split; [reflexivity|]. split; [unfold zdrop; rewrite length_app, length_replicate, length_drop; lia|].
  intros k s v K V. destruct (Z.ltb_spec (Z.of_nat k) samples) as [T|T].
  - rewrite lookup_app_l in V by (rewrite length_replicate; lia). apply lookup_replicate in V as [-> _].
    exists 0. split; [|done]. left. by rewrite Z.mul_0_r, Z.quot_0_l by lia.
  - rewrite lookup_app_r in V by (rewrite length_replicate; lia). rewrite length_replicate in V. unfold zdrop in V. rewrite lookup_drop in V.
    replace (Z.to_nat samples + (k - Z.to_nat samples))%nat with k in V by lia. congruence.
Qed.

(** The rate that a volume stands for. *)
Definition granular_rate (vol : Z) : Z * Z :=
  default (1, 1) ((if 0 <? vol then granular_pos else granular_neg) !! Z.to_nat (Z.abs (switch_normalize_volume_granular vol) - 1)).
Definition coarse_rate (vol : Z) : Z * Z :=
  default (1, 1) ((if 0 <? vol then coarse_pos else coarse_neg) !! Z.to_nat (Z.abs (switch_normalize_volume vol) - 1)).

Lemma normal_granular vol : vol <> 0 -> let v := switch_normalize_volume_granular vol in (0 <? v) = (0 <? vol) /\ 1 <= Z.abs v <= 13.
Proof. intros N. unfold switch_normalize_volume_granular. destruct (Z.ltb_spec 13 vol), (Z.ltb_spec vol (-13)); cbn; lia. Qed.
Lemma normal_coarse vol : vol <> 0 -> let v := switch_normalize_volume vol in (0 <? v) = (0 <? vol) /\ 1 <= Z.abs v <= 4.
Proof. intros N. unfold switch_normalize_volume. destruct (Z.ltb_spec 4 vol), (Z.ltb_spec vol (-4)); cbn; lia. Qed.
(** Every rate of a table is in range, and is zero in floating point where it is zero. *)
Definition rates_ok (chart : list (Z * Z)) : bool :=
  forallb (fun r => rate_ok r && Bool.eqb (mant (decimal r.1 r.2) =? 0) (r.1 =? 0)) chart.
Lemma rate_at_chart chart i : rates_ok chart = true -> 0 <= i < zlen chart -> exists n d, chart !! Z.to_nat i = Some (n, d) /\
  rate_at chart i = Ok (n, d) /\ rate_ok (n, d) = true /\ (mant (decimal n d) = 0 -> n = 0).
Proof.
  intros R I. destruct (lookup_lt_is_Some_2 chart (Z.to_nat i)) as [[n d] H]; [lia|]. exists n, d. unfold rate_at. rewrite H.
  unfold rates_ok in R. rewrite forallb_forall in R. specialize (R (n, d)). rewrite <- list_elem_of_In in R.
  specialize (R ltac:(by eapply list_elem_of_lookup_2)). cbn [fst snd] in R. apply andb_prop in R as [R1 R2]. split_and!; try done.
  intros M. rewrite M in R2. cbn in R2. destruct (Z.eqb_spec n 0); done.
Qed.

(** Changing the volume, in either granularity, scales each sample by the decimal rate of the volume: the
    multiplication in floating point gives the product without its fraction, or one less in
    magnitude where there is no fraction, within 16 bits; volumes are limited to the tables, and what lies
    behind the samples is not touched. *)
Theorem volume_scales data samples vol : Forall sample data -> 0 <= samples <= zlen data -> samples < 2 ^ 31 -> vol <> 0 ->
  (exists data', switch_change_sln_volume_granular data samples vol = Ok data' /\
     all_scaled (granular_rate vol).1 (granular_rate vol).2 samples data data') /\
  (exists data', switch_change_sln_volume data samples vol = Ok data' /\
     all_scaled (coarse_rate vol).1 (coarse_rate vol).2 samples data data').
Proof.
  intros F L B N. unfold switch_change_sln_volume_granular, switch_change_sln_volume, granular_rate, coarse_rate.
  rewrite (proj2 (Z.eqb_neq vol 0) N). destruct (normal_granular vol N) as [-> G], (normal_coarse vol N) as [-> C]. split.
  - destruct (rate_at_chart (if 0 <? vol then granular_pos else granular_neg) (Z.abs (switch_normalize_volume_granular vol) - 1))
      as (n & d & -> & -> & R & Z0); [by destruct (0 <? vol)|by destruct (0 <? vol); cbn; lia|]. cbn [from_option id fst snd].
    destruct (mant (decimal n d) =? 0) eqn:M; cbn [negb]; [|by apply scale_all].
    apply Z.eqb_eq, Z0 in M. rewrite M. apply clear_scaled; [|done..]. unfold rate_ok in R. cbn [fst snd] in R. btests. lia.
  - destruct (rate_at_chart (if 0 <? vol then coarse_pos else coarse_neg) (Z.abs (switch_normalize_volume vol) - 1))
      as (n & d & H & -> & R & Z0); [by destruct (0 <? vol)|by destruct (0 <? vol); cbn; lia|]. rewrite H. cbn [from_option id fst snd].
    assert (Nz : forallb (fun r => negb (r.1 =? 0)) (if 0 <? vol then coarse_pos else coarse_neg) = true) by (by destruct (0 <? vol)).
    rewrite forallb_forall in Nz. specialize (Nz (n, d)). rewrite <- list_elem_of_In in Nz.
    specialize (Nz ltac:(by eapply list_elem_of_lookup_2)). cbn [fst] in Nz.
    destruct (mant (decimal n d) =? 0) eqn:M; cbn [negb]; [|by apply scale_all]. apply Z.eqb_eq, Z0 in M. rewrite M in Nz. done.
Qed.

(** ** Mixing *)

Lemma mix_all mix (n : Z) data other : 0 <= n -> n <= zlen data -> n <= zlen other ->
  mix_loop mix (Z.to_nat n) 0 data other = Ok (zip_with mix (take (Z.to_nat n) data) (take (Z.to_nat n) other) ++ drop (Z.to_nat n) data).
Proof.
  intros N D O. rewrite mix_inplace. rewrite (inplace_spec _ (fun k a => mix a (default 0 (other !! k)))); [|lia|lia|].
  - f_equal. apply list_eq. intros k. rewrite list_lookup_imap.
    assert (Lz : length (zip_with mix (take (Z.to_nat n) data) (take (Z.to_nat n) other)) = Z.to_nat n)
      by (rewrite length_zip_with, !length_take; lia).
    destruct (decide (k < Z.to_nat n)%nat) as [K|K].
    + rewrite lookup_app_l, lookup_zip_with, !lookup_take_lt by lia. destruct (lookup_lt_is_Some_2 other k) as [b Hb]; [lia|]. rewrite Hb.
      destruct (data !! k); [|done]. cbn. by rewrite within_in by lia.
    + rewrite lookup_app_r, Lz, lookup_drop by lia. replace (Z.to_nat n + (k - Z.to_nat n))%nat with k by lia.
      destruct (data !! k); [|done]. cbn. by rewrite within_out by lia.
  - intros k x d W K K'. apply within_true in W. destruct (lookup_lt_is_Some_2 other k) as [b Hb]; [lia|].
    rewrite (get_at_lookup d _ x), (get_at_lookup other _ b) by (lia || by rewrite Nat2Z.id). by rewrite Hb.
Qed.

(** The number of samples that are mixed. *)
Definition mixed (samples other_samples channels : Z) : Z := Z.min samples other_samples * (if channels =? 0 then 1 else channels).
Lemma mix_count_ok samples other_samples channels : 0 <= samples -> 0 <= other_samples -> 0 <= channels ->
  mixed samples other_samples channels < 2 ^ 31 ->
  mix_count samples other_samples channels = Ok (Z.min samples other_samples, mixed samples other_samples channels).
Proof.
  intros S O C M. unfold mix_count. set (c := if channels =? 0 then 1 else channels).
  assert (Cp : 1 <= c) by (subst c; destruct (Z.eqb_spec channels 0); lia). unfold mixed in *. fold c in M |- *.
  replace (if other_samples <? samples then other_samples else samples) with (Z.min samples other_samples)
    by (destruct (Z.ltb_spec other_samples samples); lia).
  set (m := Z.min samples other_samples) in *. assert (Mp : 0 <= m) by lia. assert (Lm : m < 2 ^ 31) by nia.
  assert (I : forall x, 0 <= x < 2 ^ 31 -> i32 x = x) by (intros x X; unfold i32; rewrite Z.mod_small by lia; lia).
  rewrite (I m) by lia. by rewrite bool_decide_eq_true_2 by (apply I; nia).
Qed.

(** Merging adds the other audio to the first samples of the buffer, each sum limited to 16 bits, for as many
    frames as both have; and taking the other audio out again gives back the buffer where no sum had
    to be limited. *)
Theorem merge_exact data samples other other_samples channels :
  0 <= samples -> 0 <= other_samples -> 0 <= channels ->
  let n := mixed samples other_samples channels in
  n < 2 ^ 31 -> n <= zlen data -> n <= zlen other -> Forall sample data ->
  let sums := zip_with (fun a b => switch_normalize_to_16bit (a + b)) (take (Z.to_nat n) data) (take (Z.to_nat n) other) in
  let merged := sums ++ drop (Z.to_nat n) data in
  switch_merge_sln data samples other other_samples channels = Ok (merged, u32 (Z.min samples other_samples)) /\
  (Forall2 (fun a b => sample (a + b)) (take (Z.to_nat n) data) (take (Z.to_nat n) other) ->
   switch_unmerge_sln merged samples other other_samples channels = Ok (data, u32 (Z.min samples other_samples))).
Proof.
  intros S O C n M D L F sums merged. unfold switch_merge_sln, switch_unmerge_sln. rewrite mix_count_ok by done. fold n.
  assert (N : 0 <= n) by (unfold n, mixed; destruct (Z.eqb_spec channels 0); nia).
  assert (Ls : length sums = Z.to_nat n) by (unfold sums; rewrite length_zip_with, !length_take; lia).
  split.
  - rewrite mix_all by done. do 2 f_equal. unfold merged, sums. f_equal. apply zip_with_ext; [|done..].
    intros a b. apply i16_sample, normal_sample.
  - intros A. rewrite mix_all by (done || unfold merged; rewrite length_app, length_drop; lia). do 2 f_equal.
    unfold merged. rewrite take_app_length', drop_app_length' by done. rewrite <- (take_drop (Z.to_nat n) data) at 2. f_equal.
    assert (Fs : Forall sample (take (Z.to_nat n) data)) by by apply Forall_take. unfold sums. clear -A Fs.
    induction A as [|a b l k H _ IH]; [done|]. apply Forall_cons in Fs as [Sa Fs]. cbn [zip_with]. rewrite (IH Fs). f_equal.
    unfold switch_normalize_to_16bit, sample in *. replace (32767 <? a + b) with false by lia. replace (a + b <? -32768) with false by lia.
    replace (a + b - b) with a by ring. by apply i16_sample.
Qed.

(** ** Channels *)

(** The samples of a frame added up, each step within 16 bits. *)
Definition frame_sum (z : Z) (xs : list Z) : Z := foldl (fun z x => switch_normalize_to_16bit (z + x)) z xs.
Definition frame (data : list Z) (channels : Z) (k : nat) : list Z := take (Z.to_nat channels) (drop (k * Z.to_nat channels) data).

Lemma sum_frame_spec channels i xs : forall j z data, xs <> [] -> 0 <= i -> 0 <= j -> i <= i * channels + j -> 0 <= i * channels ->
  i * channels + j + zlen xs <= 2 ^ 32 -> i < zlen data ->
  (forall t x, xs !! t = Some x -> data !! Z.to_nat (i * channels + j + Z.of_nat t) = Some x) ->
  sum_frame (length xs) i j channels z data = Ok (<[Z.to_nat i := frame_sum z xs]> data).
Proof.
  induction xs as [|x xs IH]; intros j z data N I J Lo C Hi L D; [done|]. cbn [length] in *. cbn [sum_frame].
  rewrite (u32_small (i * channels)), u32_small by lia.
  pose proof (D O x eq_refl) as D0. rewrite Z.add_0_r in D0. rewrite (get_at_lookup _ _ x) by (done || lia).
  rewrite i16_sample by apply normal_sample. rewrite put_at_ok by lia. destruct xs as [|y xs]; [done|].
  rewrite IH; [..|].
  - by rewrite list_insert_insert_eq.
  - done.
  - done.
  - lia.
  - lia.
  - done.
  - cbn [length] in *. lia.
  - rewrite length_insert. lia.
  - intros t v T. rewrite list_lookup_insert_ne by lia. rewrite <- (D (Datatypes.S t) v T). f_equal. lia.
Qed.
Lemma down_spec channels orig n : forall i data, 0 < channels -> 0 <= i -> (i + Z.of_nat n) * channels <= zlen orig -> zlen orig <= 2 ^ 32 ->
  length data = length orig -> (forall t, i <= Z.of_nat t -> data !! t = orig !! t) ->
  down_loop n i channels data = Ok (imap (fun k x => if within i (Z.of_nat n) k then frame_sum 0 (frame orig channels k) else x) data).
Proof.
  induction n as [|n IH]; intros i data C I L B Ld D; cbn [down_loop].
  - f_equal. apply list_eq. intros k. rewrite list_lookup_imap. destruct (data !! k); [|done]. cbn. by rewrite within_out by lia.
  - set (f := frame orig channels (Z.to_nat i)).
    assert (IC : i * channels + channels <= zlen orig) by nia. assert (IC0 : i <= i * channels) by nia.
    assert (Lf : length f = Z.to_nat channels) by (unfold f, frame; rewrite length_take, length_drop; lia).
    assert (E : sum_frame (length f) i 0 channels 0 data = Ok (<[Z.to_nat i := frame_sum 0 f]> data)).
    { apply sum_frame_spec; [intros K; rewrite K in Lf; cbn in Lf; lia|lia..|]. intros t x T. unfold f, frame in T.
      apply lookup_take_Some in T as [T Lt]. rewrite lookup_drop in T. rewrite D by lia. rewrite <- T. f_equal. lia. }
    rewrite Lf in E. rewrite E, IH; [..|].
    + f_equal. apply list_eq. intros k. rewrite !list_lookup_imap. destruct (decide (k = Z.to_nat i)) as [->|N].
      * rewrite list_lookup_insert_eq by lia. destruct (lookup_lt_is_Some_2 data (Z.to_nat i)) as [x ->]; [lia|]. cbn [fmap option_fmap option_map].
        by rewrite within_out, within_in by lia.
      * rewrite list_lookup_insert_ne by done. destruct (data !! k); [|done]. cbn [fmap option_fmap option_map]. do 2 f_equal.
        destruct (decide (i <= Z.of_nat k < i + Z.of_nat (Datatypes.S n))); [rewrite !within_in by lia|rewrite !within_out by lia]; done.
    + done.
    + lia.
    + lia.
    + done.
    + by rewrite length_insert.
    + intros t T. rewrite list_lookup_insert_ne by lia. apply D. lia.
Qed.

Lemma double_spec m len n : forall i data, 0 <= i -> i + Z.of_nat n = len -> 2 * len <= zlen data -> zlen data <= 2 ^ 32 ->
  length data = length m -> (forall t, Z.of_nat t < len -> data !! t = m !! t) ->
  exists data', double_loop n i len data = Ok data' /\ length data' = length data /\
    (forall t, ~ i + len <= Z.of_nat t < 2 * len -> data' !! t = data !! t) /\
    (forall t, i + len <= Z.of_nat t < 2 * len -> data' !! t = m !! (t - Z.to_nat len)%nat).
Proof.
  induction n as [|n IH]; intros i data I E L B Lm D; cbn [double_loop].
  - exists data. split_and!; [done|done|done|]. intros t T. lia.
  - destruct (lookup_lt_is_Some_2 m (Z.to_nat i)) as [x X]; [lia|]. rewrite (get_at_lookup _ _ x) by (lia || rewrite D by lia; done).
    rewrite u32_small, put_at_ok by lia. edestruct (IH (i + 1)) as (d & -> & Ld & D1 & D2); [..|].
    + lia.
    + lia.
    + rewrite length_insert. lia.
    + rewrite length_insert. lia.
    + by rewrite length_insert.
    + intros t T. rewrite list_lookup_insert_ne by lia. by apply D.
    + rewrite length_insert in Ld. exists d. split_and!; [done|done|..].
      * intros t T. rewrite D1, list_lookup_insert_ne by lia. done.
      * intros t T. destruct (decide (Z.of_nat t = i + len)) as [Q|Q]; [|by apply D2; lia].
        rewrite D1 by lia. replace t with (Z.to_nat (i + len)) by lia. rewrite list_lookup_insert_eq by lia. rewrite <- X. f_equal. lia.
Qed.
Lemma spread_spec m s n : forall i data, 0 <= i -> i + Z.of_nat n = s -> 2 * s <= zlen data -> zlen data < 2 ^ 32 ->
  (forall t, s + i <= Z.of_nat t < 2 * s -> data !! t = m !! (t - Z.to_nat s)%nat) -> zlen data <= zlen m ->
  exists data', spread_loop n (2 * i) i s 2 data = Ok data' /\ length data' = length data /\
    (forall t, ~ 2 * i <= Z.of_nat t < 2 * s -> data' !! t = data !! t) /\
    (forall t, 2 * i <= Z.of_nat t < 2 * s -> data' !! t = m !! (t / 2)%nat).
Proof.
  induction n as [|n IH]; intros i data I E L B D Lm; cbn [spread_loop].
  - exists data. split_and!; [done|done|done|]. intros t T. lia.
  - destruct (lookup_lt_is_Some_2 m (Z.to_nat i)) as [x X]; [lia|].
    assert (Dx : data !! Z.to_nat (i + s) = Some x) by (rewrite D by lia; rewrite <- X; f_equal; lia).
    change (Z.to_nat 2) with 2%nat. cbn [spread_frame]. rewrite (u32_small (i + s)) by lia. rewrite (get_at_lookup data _ x) by (done || lia).
    rewrite put_at_ok by lia. rewrite (get_at_lookup _ _ x) by (lia || rewrite list_lookup_insert_ne by lia; done).
    rewrite (u32_small (2 * i + 1)), put_at_ok by (rewrite ?length_insert; lia). rewrite u32_small by lia. replace (2 * i + 1 + 1) with (2 * (i + 1)) by lia.
    edestruct (IH (i + 1)) as (d & -> & Ld & D1 & D2); [..|].
    + lia.
    + lia.
    + rewrite !length_insert. lia.
    + rewrite !length_insert. lia.
    + intros t T. rewrite !list_lookup_insert_ne by lia. apply D. lia.
    + rewrite !length_insert. lia.
    + rewrite !length_insert in Ld. exists d. split_and!; [done|done|..].
      * intros t T. rewrite D1, !list_lookup_insert_ne by lia. done.
      * intros t T. destruct (decide (2 * (i + 1) <= Z.of_nat t)) as [Q|Q]; [apply D2; lia|]. rewrite D1 by lia.
        destruct (decide (Z.of_nat t = 2 * i + 1)) as [Q1|Q1].
        -- replace t with (Z.to_nat (2 * i + 1)) by lia. rewrite list_lookup_insert_eq by (rewrite length_insert; lia). rewrite <- X. f_equal.
           replace (Z.to_nat (2 * i + 1)) with (1 + Z.to_nat i * 2)%nat by lia. rewrite Nat.div_add by lia. done.
        -- rewrite list_lookup_insert_ne by lia. replace t with (Z.to_nat (2 * i)) by lia. rewrite list_lookup_insert_eq by lia. rewrite <- X. f_equal.
           replace (Z.to_nat (2 * i)) with (Z.to_nat i * 2)%nat by lia. by rewrite Nat.div_mul by lia.
Qed.

(** Fewer channels: each frame is added up into one sample within 16 bits, frame by frame to the front of the
    buffer in place.  Two channels for one: each sample is doubled in place, for which the buffer
    has room.  Nothing else of the buffer is changed. *)
Theorem mux_exact data samples : 0 <= samples -> zlen data < 2 ^ 32 ->
  (forall orig_channels channels, channels < 11 -> channels < orig_channels -> 0 < orig_channels -> samples * orig_channels <= zlen data ->
   exists data', switch_mux_channels data samples orig_channels channels = Ok data' /\ length data' = length data /\
     forall k, data' !! k = if Z.of_nat k <? samples then (fun _ => frame_sum 0 (frame data orig_channels k)) <$> data !! k else data !! k) /\
  (2 * samples <= zlen data ->
   exists data', switch_mux_channels data samples 1 2 = Ok data' /\ length data' = length data /\
     forall k, data' !! k = if Z.of_nat k <? 2 * samples then data !! (k / 2)%nat else data !! k).
Proof.
  intros S B. unfold switch_mux_channels. split.
  - intros o c C1 C2 O L. replace (11 <=? c) with false by lia. replace (c <? o) with true by lia.
    rewrite (down_spec o data) by (done || lia). eexists. split; [reflexivity|]. split; [apply length_imap|]. intros k. rewrite list_lookup_imap.
    rewrite Z2Nat.id by lia. destruct (Z.ltb_spec (Z.of_nat k) samples); destruct (data !! k); cbn; [rewrite within_in by lia| |rewrite within_out by lia|]; done.
  - intros L. change (11 <=? 2) with false. change (2 <? 1) with false. change (1 <? 2) with true. cbv iota. rewrite Z.mul_1_r, u32_small by lia.
    destruct (double_spec data samples (Z.to_nat samples) 0 data) as (d & -> & Ld & D1 & D2); try done; try lia.
    destruct (spread_spec data samples (Z.to_nat samples) 0 d) as (r & Hr & Lr & R1 & R2); try done; try lia.
    { intros t T. apply D2. lia. }
    change (2 * 0) with 0 in *. rewrite Hr. exists r. split_and!; [done|congruence|]. intros k. destruct (Z.ltb_spec (Z.of_nat k) (2 * samples)).
    + apply R2. lia.
    + rewrite R1, D1 by lia. done.
Qed.

(** ** Floating point and back *)

Lemma equals_cancel f n d c : 0 < c -> equals f (n * c) (d * c) -> equals f n d.
Proof. unfold equals. intros C E. apply (Z.mul_reg_r _ _ c); [lia|]. lia. Qed.
Lemma equals_round prec n d c x j : 2 <= prec -> 0 < d -> 0 < c -> 0 <= j -> n * 2 ^ j = x * d -> Z.abs x < 2 ^ prec ->
  equals (round prec (n * c) (d * c)) n d.
Proof. intros P D C J E X. apply (equals_cancel _ _ _ c C). apply (round_exact prec _ _ x j); [done|nia|done| |done].
  replace (n * c * 2 ^ j) with (n * 2 ^ j * c) by ring. rewrite E. ring.
Qed.
Lemma trunc_equals f n d : 0 < d -> equals f n d -> trunc f = Z.quot n d.
Proof.
  unfold equals, trunc. intros D E. pose proof (den_pos f). rewrite <- (Z.quot_mul_cancel_r (num f) (den f) d), E, (Z.mul_comm (den f)) by lia.
  by rewrite Z.quot_mul_cancel_r by lia.
Qed.

Lemma normfact : equals NORMFACT 32768 1.
Proof. by vm_compute. Qed.
Lemma divided x : Z.abs x < 2 ^ 24 -> equals (fdiv FLT (of_int FLT x) NORMFACT) x 32768.
Proof.
  intros X. pose proof (of_int_exact FLT x ltac:(done) X) as A. pose proof normfact as N. unfold equals in A, N. rewrite Z.mul_1_r in A, N.
  set (a := of_int FLT x) in *. pose proof (den_pos a). pose proof (den_pos NORMFACT). unfold fdiv. rewrite A, N.
  rewrite (Z.sgn_pos (32768 * den NORMFACT)), Z.mul_1_r, (Z.abs_eq (32768 * den NORMFACT)) by lia.
  replace (x * den a * den NORMFACT) with (x * (den a * den NORMFACT)) by ring.
  replace (den a * (32768 * den NORMFACT)) with (32768 * (den a * den NORMFACT)) by ring.
  apply (equals_round FLT x 32768 _ x 15); try done; try lia.
Qed.
(** Multiplying back and rounding gives the integer. *)
Lemma multiplied f x : equals f x 32768 -> Z.abs x < 2 ^ 24 ->
  let ft := fmul FLT f NORMFACT in (0 <=? num ft) = (0 <=? x) /\ trunc (fadd DBL ft (if 0 <=? num ft then Fp 1 (-1) else Fp (-1) (-1))) = x.
Proof.
  intros E X. cbv zeta. pose proof normfact as N. unfold equals in E, N. rewrite Z.mul_1_r in N. pose proof (den_pos f). pose proof (den_pos NORMFACT).
  assert (A : equals (fmul FLT f NORMFACT) x 1).
  { unfold fmul. rewrite N. replace (num f * (32768 * den NORMFACT)) with (x * (den f * den NORMFACT)) by (transitivity (num f * 32768 * den NORMFACT); [rewrite E|]; ring).
    rewrite <- (Z.mul_1_l (den f * den NORMFACT)) at 2. apply (equals_round FLT x 1 _ x 0); try done; lia. }
  set (ft := fmul FLT f NORMFACT) in *. unfold equals in A. rewrite Z.mul_1_r in A. pose proof (den_pos ft).
  assert (Sg : (0 <=? num ft) = (0 <=? x)) by (rewrite A; destruct (Z.leb_spec 0 x), (Z.leb_spec 0 (x * den ft)); nia). split; [done|]. rewrite Sg.
  assert (G : forall h, Z.abs h = 1 -> equals (fadd DBL ft (Fp h (-1))) (2 * x + h) 2).
  { intros h Hh. unfold fadd, num, den. cbn [mant expo]. fold (num ft) (den ft). change (2 ^ Z.max 0 (-1)) with 1. change (2 ^ Z.max 0 (- -1)) with 2.
    rewrite A. replace (x * den ft * 2 + h * 1 * den ft) with ((2 * x + h) * den ft) by ring. rewrite (Z.mul_comm (den ft) 2).
    apply (equals_round DBL _ 2 _ (2 * x + h) 1); try done; try lia; change (2 ^ DBL) with 9007199254740992; change (2 ^ 24) with 16777216 in X; lia. }
  destruct (Z.leb_spec 0 x) as [P|P].
  - rewrite (trunc_equals _ _ 2 ltac:(lia) (G 1 eq_refl)). rewrite Z.quot_div_nonneg by lia. symmetry. apply (Z.div_unique_pos _ _ _ 1); lia.
  - rewrite (trunc_equals _ _ 2 ltac:(lia) (G (-1) eq_refl)). rewrite <- (Z.opp_involutive (2 * x + -1)), Z.quot_opp_l, Z.quot_div_nonneg by lia.
    assert (Q : - (2 * x + -1) / 2 = - x) by (symmetry; apply (Z.div_unique_pos _ _ _ 1); lia). rewrite Q. lia.
Qed.
Lemma short_back s : -32767 <= s <= 32767 -> float_to_short (short_to_float s) = Ok s.
Proof.
  intros R. assert (X : Z.abs s < 2 ^ 24) by (change (2 ^ 24) with 16777216; lia). destruct (multiplied _ s (divided s X) X) as [_ T].
  unfold float_to_short, short_to_float, to_int. rewrite T. unfold SHRT_MAX, MAXSAMPLE.
  replace ((-32768 <=? s) && (s <=? 32767)) with true by lia. replace (32767 <? s) with false by lia. by replace (s <? - (32767)) with false by lia.
Qed.
(** The bytes of a sample, of which the high one is read without its sign. *)
Lemma char_back lo hi : 0 <= lo < 256 -> 0 <= hi < 256 -> float_to_long (char_to_float lo hi) = Ok (hi * 256 + lo).
Proof.
  intros L H. set (x := hi * 0x100 + lo). assert (X : Z.abs x < 2 ^ 24) by (change (2 ^ 24) with 16777216; lia).
  pose proof (divided x X) as D. unfold char_to_float. fold x. set (f := fdiv _ _ _) in *. pose proof (den_pos f).
  assert (B : gt_int f MAXSAMPLE = false) by (unfold gt_int, MAXSAMPLE, equals in *; apply Z.ltb_ge; nia). rewrite B.
  assert (B' : lt_int f (- MAXSAMPLE) = false) by (unfold lt_int, MAXSAMPLE, equals in *; apply Z.ltb_ge; nia). rewrite B'.
  destruct (multiplied f x D X) as [_ T]. unfold float_to_long, to_int. rewrite T. by replace ((- 2 ^ 31 <=? x) && (x <=? 2 ^ 31 - 1)) with true by lia.
Qed.

(** Samples that are turned into floating point and back are the same, but for the least, -32768; nothing else of the
    buffers is changed. *)
Theorem samples_roundtrip s f s' len : 0 <= len <= zlen s -> len <= zlen f -> len <= zlen s' ->
  Forall (fun x => -32767 <= x <= 32767) s ->
  exists f', switch_short_to_float s f len = Ok (f', len) /\
    switch_float_to_short f' s' len = Ok (take (Z.to_nat len) s ++ drop (Z.to_nat len) s', len).
Proof.
  intros L Lf Ls R. unfold switch_short_to_float, switch_float_to_short. rewrite to_float_inplace.
  rewrite (inplace_spec _ (fun k _ => short_to_float (default 0 (s !! k)))); [|lia|lia|].
  - eexists. split; [reflexivity|]. rewrite to_short_inplace.
    rewrite (inplace_spec _ (fun k _ => default 0 (s !! k))); [|lia|lia|].
    + do 2 f_equal. apply list_eq. intros k. rewrite list_lookup_imap. destruct (decide (k < Z.to_nat len)%nat) as [K|K].
      * rewrite lookup_app_l, lookup_take_lt by (rewrite ?length_take; lia).
        destruct (lookup_lt_is_Some_2 s' k) as [x ->]; [lia|]. destruct (lookup_lt_is_Some_2 s k) as [y ->]; [lia|]. cbn. by rewrite within_in by lia.
      * rewrite lookup_app_r, length_take, lookup_drop by (rewrite ?length_take; lia).
        replace (Z.to_nat len + (k - Z.to_nat len `min` length s))%nat with k by lia. destruct (s' !! k); [|done]. cbn. by rewrite within_out by lia.
    + intros k x d W _ _. apply within_true in W. destruct (lookup_lt_is_Some_2 s k) as [y Y]; [lia|].
      destruct (lookup_lt_is_Some_2 f k) as [z Z]; [lia|].
      rewrite (get_at_lookup _ _ (short_to_float y)); [|lia|]; [rewrite Y; apply short_back; by apply (Forall_lookup_1 _ _ _ _ R) in Y|].
      rewrite Nat2Z.id, list_lookup_imap, Z, Y. cbn. by rewrite within_in by lia.
  - intros k x d W _ _. apply within_true in W. destruct (lookup_lt_is_Some_2 s k) as [y Y]; [lia|].
    rewrite (get_at_lookup _ _ y) by (lia || by rewrite Nat2Z.id). by rewrite Y.
Qed.

(** ** Witnesses *)

Lemma volume_scales_witness :
  (exists data', switch_change_sln_volume_granular [100; -32768; 7] 2 (-5) = Ok data' /\ all_scaled 585 1000 2 [100; -32768; 7] data') /\
  (exists data', switch_change_sln_volume [100; -32768; 7] 2 (-5) = Ok data' /\ all_scaled 20 100 2 [100; -32768; 7] data').
Proof.
  apply (volume_scales [100; -32768; 7] 2 (-5)); [|vm_compute; split; discriminate|reflexivity|discriminate].
  repeat constructor; vm_compute; discriminate.
Defined.
Lemma merge_exact_witness :
  switch_merge_sln [30000; -5; 9] 2 [4000; 6; 1] 3 1 = Ok ([32767; 1; 9], 2) /\
  (Forall2 (fun a b => sample (a + b)) [30000; -5] [4000; 6] -> switch_unmerge_sln [32767; 1; 9] 2 [4000; 6; 1] 3 1 = Ok ([30000; -5; 9], 2)).
Proof.
  apply (merge_exact [30000; -5; 9] 2 [4000; 6; 1] 3 1); try (vm_compute; discriminate); [reflexivity|].
  repeat constructor; vm_compute; discriminate.
Defined.
Lemma mux_exact_witness :
  (forall orig_channels channels, channels < 11 -> channels < orig_channels -> 0 < orig_channels -> 2 * orig_channels <= 4 ->
   exists data', switch_mux_channels [1; 2; 3; 4] 2 orig_channels channels = Ok data' /\ length data' = length [1; 2; 3; 4] /\
     forall k, data' !! k = if Z.of_nat k <? 2 then (fun _ => frame_sum 0 (frame [1; 2; 3; 4] orig_channels k)) <$> [1; 2; 3; 4] !! k
                            else [1; 2; 3; 4] !! k) /\
  (2 * 2 <= 4 ->
   exists data', switch_mux_channels [1; 2; 3; 4] 2 1 2 = Ok data' /\ length data' = length [1; 2; 3; 4] /\
     forall k, data' !! k = if Z.of_nat k <? 2 * 2 then [1; 2; 3; 4] !! (k / 2)%nat else [1; 2; 3; 4] !! k).
Proof. apply (mux_exact [1; 2; 3; 4] 2); [discriminate|reflexivity]. Defined.
Lemma samples_roundtrip_witness :
  exists f', switch_short_to_float [5; -32767; 32767] [Fp 0 0; Fp 0 0; Fp 1 0] 2 = Ok (f', 2) /\
    switch_float_to_short f' [1; 2; 3] 2 = Ok ([5; -32767; 3], 2).
Proof.
  apply (samples_roundtrip [5; -32767; 32767] [Fp 0 0; Fp 0 0; Fp 1 0] [1; 2; 3] 2); try (vm_compute; discriminate); [vm_compute; split; discriminate|].
  repeat constructor; vm_compute; discriminate.
Defined.

(** ** What the code does not do *)

(** The least sample comes back as half the most negative one. *)
Lemma least_sample_halved : float_to_short (short_to_float (-32768)) = Ok (-16383).
Proof. by vm_compute. Qed.
(** Full scale in floating point does not fit the integer that it is converted to. *)
Lemma full_scale_overflows : float_to_short (Fp 1 0) = UB.
Proof. by vm_compute. Qed.
(** Negative samples in bytes become numbers above 1, since their high byte has no sign. *)
Lemma negative_bytes_positive : equals (char_to_float 0 0x80) 1 1 /\ equals (char_to_float 0xff 0xff) 65535 32768.
Proof. by vm_compute. Qed.
(** The second level of the coarse volume loses a unit where the result is whole. *)
Lemma coarse_level_short : switch_change_sln_volume [50] 1 2 = Ok [114] /\ 50 * 23 = 115 * 10.
Proof. by vm_compute. Qed.
(** Going from one channel to three, places are overwritten before they are read. *)
Lemma three_channels_lost : switch_mux_channels [1; 2; 3; 4; 0; 0; 0; 0; 0; 0; 0; 0] 4 1 3 = Ok [1; 1; 1; 2; 2; 2; 3; 3; 3; 3; 3; 3].
Proof. by vm_compute. Qed.
(** From two channels to four only the second half of the samples is spread; from six to two one sample of each frame is left. *)
Lemma stereo_spread_wrong :
  switch_mux_channels [1; 2; 3; 4; 0; 0; 0; 0] 2 2 4 = Ok [3; 3; 3; 3; 3; 3; 3; 3] /\
  switch_mux_channels [1; 2; 3; 4; 5; 6] 1 6 2 = Ok [21; 2; 3; 4; 5; 6].
Proof. by vm_compute. Qed.
(** Exact silence in two channels covers half of the buffer. *)
Lemma silence_half : switch_generate_sln_silence 0 [9; 9; 9; 9] 2 2 UINT_MAX = Ok [0; 0; 9; 9].
Proof. by vm_compute. Qed.
