(* ===== verification/TextTools.v ===== *)
(** * Text tools (src/switch_utils.c)

    Quoting for shells and XML, searching and replacing, numbers for reading aloud, user and domain, parameters and
    dial patterns.  Strings are contents up to the terminator; a buffer of the caller's has a size, and
    writing or reading outside of it is [UB]. *)
From stdpp Require Import strings.
From Stdlib Require Import String Ascii.
From S2P Require Import Prelude CStrings StringUtils Separator.
Open Scope Z_scope.
#[local] Notation length := List.length (only parsing).

(** ** Shell arguments *)

(** The branch for other systems than Windows: [sq backslash sq sq] for a quote. *)
Fixpoint quoted_extra (s : string) : Z :=
  match s with EmptyString => 0 | String c s => (if c =c QUOTE then 3 else 0) + quoted_extra s end.
Fixpoint quoted_chars (s : string) : string :=
  match s with
  | EmptyString => EmptyString
  | String c s =>
    (if c =c QUOTE then String QUOTE (String ESCAPE_META (String QUOTE (String QUOTE EmptyString))) else String c EmptyString)
    +:+ quoted_chars s
  end.
Definition switch_util_quote_shell_arg_pool (s : string) : outcome string :=
  let dest_len := slen s + 1 + 1 + quoted_extra s + 1 in
  let dest := String QUOTE (quoted_chars s +:+ String QUOTE EmptyString) in
  if slen dest + 1 =? dest_len then Ok dest else Assert.
Definition switch_util_quote_shell_arg (s : string) : outcome string := switch_util_quote_shell_arg_pool s.

(** ** XML entities *)

Definition amp_entity (c : ascii) : string :=
  if c =c DQUOTE then "&quot;" else if c =c QUOTE then "&apos;" else if c =c "&" then "&amp;"
  else if c =c "<" then "&lt;" else if c =c ">" then "&gt;" else String c EmptyString.
(** What is written, and whether a terminator was. *)
Fixpoint amp_loop (s : string) (x len : Z) : string * bool :=
  if x <? len then
    match s with
    | EmptyString => (EmptyString, negb (len - 1 <? x + 1))
    | String c s =>
      let e := amp_entity c in
      if len - 1 <? x + slen e then (EmptyString, false)
      else let '(r, t) := amp_loop s (x + slen e) len in (e +:+ r, t)
    end
  else (EmptyString, false).
Definition switch_amp_encode (s : string) (len : Z) : string * bool := amp_loop s 0 len.

(** ** Searching and replacing *)

(** The texts have the lengths that are passed. *)
Fixpoint switch_string_match (s search : string) : switch_status :=
  match search, s with
  | EmptyString, _ => SWITCH_STATUS_SUCCESS
  | _, EmptyString => SWITCH_STATUS_FALSE
  | String d search, String c s => if c =c d then switch_string_match s search else SWITCH_STATUS_FALSE
  end.
Fixpoint sdrop (n : nat) (s : string) : string :=
  match n, s with O, _ => s | _, EmptyString => EmptyString | Datatypes.S n, String _ s => sdrop n s end.
(** [s] is the text from [i] on; after a match [i] moves by the length of the pattern, which may be 0.
    [None]: the turns are used up. *)
Fixpoint replace_loop (n : nat) (s search replace dest : string) : option string :=
  match s with
  | EmptyString => Some dest
  | String c r =>
    match n with
    | O => None
    | Datatypes.S n =>
      if bool_decide (switch_string_match s search = SWITCH_STATUS_SUCCESS)
      then replace_loop n (sdrop (String.length search) s) search replace (dest +:+ replace)
      else replace_loop n r search replace (dest +:+ String c EmptyString)
    end
  end.
Definition switch_string_replace (n : nat) (s search replace : string) : option string := replace_loop n s search replace EmptyString.

Fixpoint replace_chars (s : string) (from to : ascii) : string :=
  match s with EmptyString => EmptyString | String c s => String (if c =c from then to else c) (replace_chars s from to) end.
(** The text, or its duplicate, with the characters replaced, and what the pointer that is returned points to: it is the one that
    went through the text. *)
Definition switch_replace_char (s : string) (from to : ascii) : string * string := (replace_chars s from to, EmptyString).

(** The comparison at one place: the pattern ended, the text ended, or they differ. *)
Inductive comparison_end := PatternEnd | TextEnd | Differ.
Fixpoint compare_here (pptr sptr : string) : comparison_end :=
  match pptr with
  | EmptyString => PatternEnd
  | String p pptr =>
    match sptr with
    | EmptyString => TextEnd
    | String c sptr => if switch_toupper c =c switch_toupper p then compare_here pptr sptr else Differ
    end
  end.
Fixpoint stristr_from (instr start : string) : option string :=
  match start with
  | EmptyString => None
  | String c r =>
    if switch_toupper c =c switch_toupper (head instr) then
      match compare_here instr start with PatternEnd => Some start | TextEnd => None | Differ => stristr_from instr r end
    else stristr_from instr r
  end.
Definition switch_stristr (instr str : option string) : option string :=
  match instr, str with Some i, Some s => stristr_from i s | _, _ => None end.

(** ** Blanks *)

(** Characters 13, 10, 9, 32 and 11. *)
Definition white (c : ascii) : bool := let n := ord c in (n =? 13) || (n =? 10) || (n =? 9) || (n =? 32) || (n =? 11).
Fixpoint skip_while (f : ascii -> bool) (s : string) : string :=
  match s with String c r => if f c then skip_while f r else s | EmptyString => s end.
Fixpoint drop_end (f : ascii -> bool) (s : string) : string :=
  match s with
  | EmptyString => EmptyString
  | String c r => match drop_end f r with EmptyString => if f c then EmptyString else String c EmptyString | r => String c r end
  end.
Definition switch_strip_whitespace (str : option string) : string :=
  if zstr str then EmptyString else drop_end white (skip_while white (default EmptyString str)).
Definition switch_strip_spaces (str : string) : string :=
  let blank c := c =c SPACE in drop_end blank (skip_while blank str).

(** ** Numbers *)

Definition is_digit (c : ascii) : bool := (47 <? ord c) && (ord c <? 58).
(** What is written to a buffer of [size] bytes; [false]: null is returned.  No terminator is written. *)
Fixpoint strip_loop (keep : ascii -> bool) (refuse : ascii -> bool) (size len : Z) (x : Z) (p out : string) : outcome (string * bool) :=
  match p with
  | EmptyString => Ok (out, true)
  | String c p =>
    if keep c && negb (slen out <? size) then UB
    else
      let out := if keep c then out +:+ String c EmptyString else out in
      if refuse c then Ok (out, false)
      else if len <? x + 1 then Ok (out, false) else strip_loop keep refuse size len (x + 1) p out
  end.
Definition switch_strip_commas (size : Z) (s : string) (len : Z) : outcome (string * bool) :=
  strip_loop is_digit (fun c => negb (is_digit c) && negb (c =c ",")) size len 0 s EmptyString.
Definition switch_strip_nonnumerics (size : Z) (s : string) (len : Z) : outcome (string * bool) :=
  strip_loop (fun c => is_digit c || (c =c ".") || (c =c "-") || (c =c "+")) (fun _ => false) size len 0 s EmptyString.

Definition skip_plus (s : string) : string := match s with String c r => if c =c "+" then r else s | _ => s end.
Definition switch_format_number (num : option string) : option string :=
  match num with
  | None | Some EmptyString => num
  | Some n =>
    let p := skip_plus n in
    if negb (switch_is_number p) then Some p
    else
      match list_ascii_of_string p with
      | [a; b; c; d; e; f; g; h; i; j; k] =>
        if a =c "1" then Some (string_of_list_ascii [a; " "; "("; b; c; d; ")"; " "; e; f; g; "-"; h; i; j; k]%char) else Some n
      | [b; c; d; e; f; g; h; i; j; k] =>
        Some (string_of_list_ascii ["1"; " "; "("; b; c; d; ")"; " "; e; f; g; "-"; h; i; j; k]%char)
      | _ => Some n
      end
  end.
Definition switch_atoui (s : string) : Z := let tmp := atoi_spaces s in if tmp <? 0 then 0 else tmp.
Definition switch_atoul (s : string) : Z := let tmp := atoi_spaces s in if tmp <? 0 then 0 else tmp.

(** ** Arguments, addresses and paths *)

(** The spaces before the parenthesis; the loop runs out of a text that has only spaces there. *)
Definition cut_spaces (s : string) : outcome string :=
  match drop_end (fun c => c =c SPACE) s with EmptyString => UB | r => Ok r end.
Fixpoint paren_end (br : Z) (e : string) : string :=
  match e with
  | EmptyString => EmptyString
  | String c r =>
    if c =c "(" then String c (paren_end (br + 1) r)
    else if (1 <? br) && (c =c ")") then String c (paren_end (br - 1) r)
    else if (br =? 1) && (c =c ")") then EmptyString
    else String c (paren_end br r)
  end.
Definition switch_separate_paren_args (s : string) : outcome (string * option string) :=
  match split_at_char "(" s with
  | (name, Some args) => let* name := cut_spaces name in Ok (name, Some (paren_end 1 args))
  | (name, None) => Ok (name, None)
  end.

(** [strncasecmp(in, p, strlen(p)) == 0], with what stands behind. *)
Fixpoint after_prefix (p s : string) : option string :=
  match p, s with
  | EmptyString, _ => Some s
  | String c p, String d s => if Ascii.eqb (lower c) (lower d) then after_prefix p s else None
  | _, _ => None
  end.
Fixpoint cut_host (s : string) : string :=
  match s with
  | EmptyString => EmptyString
  | String c s => if (c =c ":") || (c =c ";") || (c =c SPACE) then EmptyString else String c (cut_host s)
  end.
Definition switch_split_user_domain (s : option string) : option (option string * string) :=
  match s with
  | None => None
  | Some s =>
    let s := match after_prefix "sip:" s with Some r => r | None => default s (after_prefix "sips:" s) end in
    match split_at_char "@" s with
    | (u, Some h) => Some (Some u, cut_host h)
    | (h, None) => Some (None, cut_host h)
    end
  end.

(** Behind the last of a character, if there is one. *)
Fixpoint behind_last (c : ascii) (s : string) : option string :=
  match s with
  | EmptyString => None
  | String a r => match behind_last c r with Some x => Some x | None => if a =c c then Some r else None end
  end.
Definition switch_cut_path (s : string) : string :=
  default (default s (behind_last "/" s)) (behind_last ESCAPE_META s).

Fixpoint find_parameter (n : nat) (ptr param : string) : option string :=
  match n with
  | O => None
  | Datatypes.S n =>
    match after_prefix param ptr with
    | Some (String c e) => if c =c "=" then Some (fst (split_at_char ";" e))
                           else match split_at_char ";" ptr with (_, Some next) => find_parameter n next param | _ => None end
    | _ => match split_at_char ";" ptr with (_, Some next) => find_parameter n next param | _ => None end
    end
  end.
Definition switch_find_parameter (str : option string) (param : string) : option string :=
  match str with Some s => find_parameter (Datatypes.S (String.length s)) s param | None => None end.

(** ** Dial patterns *)

(** [strncat(rbuf, t, len - strlen(rbuf))], which writes a terminator as well. *)
Definition cat (rbuf t : string) (len : Z) : outcome string :=
  if slen rbuf + slen t <? len then Ok (rbuf +:+ t) else UB.
Fixpoint ast_loop (p rbuf : string) (len : Z) : outcome string :=
  match p with
  | EmptyString => Ok rbuf
  | String c p =>
    let* rbuf := (if c =c "N" then cat rbuf "[2-9]" len
                  else if c =c "X" then cat rbuf "[0-9]" len
                  else if c =c "Z" then cat rbuf "[1-9]" len
                  else if c =c "." then cat rbuf ".*" len
                  else if slen rbuf <? len - 1 then Ok (rbuf +:+ String c EmptyString) else Ok rbuf) in
    ast_loop p rbuf len
  end.
(** The text, whether it has a terminator, and whether it differs from the pattern; comparing the
    pattern with a text without terminator stops at the first difference. *)
Definition switch_ast2regex (pat : option string) (len : Z) : outcome (option (string * bool * bool)) :=
  match pat with
  | None => Ok None
  | Some pat =>
    if len <? 2 then UB
    else
      let* rbuf := ast_loop pat "^" len in
      let r := rbuf +:+ "$" in
      if slen r <? len then Ok (Some (r, true, negb (String.eqb pat r)))
      else if String.prefix r pat then UB else Ok (Some (r, false, true))
  end.
