(* ===== verification/TextToolsExact.v ===== *)
(** * What the text tools do, exactly

    A quoted argument is read back by a shell as that one word ([shell_quote_exact]); encoding for XML is
    read back by its entities ([amp_roundtrip]); replacing ends and replaces the occurrences from left to
    right ([replace_exact]); searching finds the first occurrence ([stristr_first]). *)
From stdpp Require Import strings.
From Stdlib Require Import String Ascii.
From S2P Require Import Prelude CStrings StringUtils Separator TextTools.
Open Scope Z_scope.
#[local] Notation length := List.length (only parsing).

(** ** Shell arguments *)

(** How a POSIX shell reads a word: quoted text is literal, a backslash makes the next character literal, blanks and operators
    end the word, and what it would expand is not read here ([None]).  The word and the rest. *)
Definition ends_word (c : ascii) : bool := strchr " 	|&;<>()" c || (c =c chr 10).
Definition expands (c : ascii) : bool := strchr "$`*?[#~=%" c || (c =c DQUOTE).
Definition add_char (c : ascii) (r : option (string * string)) : option (string * string) :=
  match r with Some (w, s) => Some (String c w, s) | None => None end.
Fixpoint sh_word (quoted : bool) (s : string) : option (string * string) :=
  match s with
  | EmptyString => if quoted then None else Some (EmptyString, EmptyString)
  | String c r =>
    if quoted then if c =c QUOTE then sh_word false r else add_char c (sh_word true r)
    else if c =c QUOTE then sh_word true r
    else if c =c ESCAPE_META then match r with EmptyString => None | String d r => add_char d (sh_word false r) end
    else if ends_word c then Some (EmptyString, s)
    else if expands c then None
    else add_char c (sh_word false r)
  end.

Lemma quoted_chars_len s : slen (quoted_chars s) = slen s + quoted_extra s.
Proof.
  induction s as [|c s IH]; [done|]. cbn [quoted_chars quoted_extra slen]. rewrite slen_sapp, IH. destruct (c =c QUOTE); cbn [slen]; lia.
Qed.
Lemma sh_word_end rest : (rest = EmptyString \/ exists c r, rest = String c r /\ ends_word c = true) -> sh_word false rest = Some (EmptyString, rest).
Proof.
  intros [->|(c & r & -> & E)]; [done|]. cbn [sh_word]. destruct (Ascii.eqb_spec c QUOTE) as [->|]; [done|].
  destruct (Ascii.eqb_spec c ESCAPE_META) as [->|]; [done|]. by rewrite E.
Qed.
Lemma sh_word_quoted s rest : sh_word false rest = Some (EmptyString, rest) ->
  sh_word true (quoted_chars s +:+ String QUOTE rest) = Some (s, rest).
Proof.
  intros R. induction s as [|c s IH]; cbn [quoted_chars].
  - rewrite sapp_empty. cbn. exact R.
  - destruct (Ascii.eqb_spec c QUOTE) as [->|N].
    + rewrite !sapp_cons, sapp_empty. cbn [sh_word]. change (QUOTE =c QUOTE) with true. change (ESCAPE_META =c QUOTE) with false.
      change (ESCAPE_META =c ESCAPE_META) with true. cbv iota. by rewrite IH.
    + rewrite !sapp_cons, sapp_empty. cbn [sh_word]. rewrite (proj2 (Ascii.eqb_neq _ _) N). by rewrite IH.
Qed.

(** C29. Quoting an argument for a shell allocates what is written (no assertion fails), and a POSIX shell reads the
    quoted text as one word, which is the argument, whatever characters are in it, and goes on right behind. *)
Theorem shell_quote_exact s rest : (rest = EmptyString \/ exists c r, rest = String c r /\ ends_word c = true) ->
  exists q, switch_util_quote_shell_arg s = Ok q /\ sh_word false (q +:+ rest) = Some (s, rest).
Proof.
  intros R. unfold switch_util_quote_shell_arg, switch_util_quote_shell_arg_pool. cbn [slen]. rewrite slen_sapp, quoted_chars_len. cbn [slen].
  replace (_ =? _) with true by lia. eexists. split; [reflexivity|]. rewrite sapp_cons, sapp_assoc, sapp_cons, sapp_empty. cbn [sh_word].
  change (QUOTE =c QUOTE) with true. cbv iota. by apply sh_word_quoted, sh_word_end.
Qed.

(** ** XML entities *)

Fixpoint amp_text (s : string) : string := match s with EmptyString => EmptyString | String c s => amp_entity c +:+ amp_text s end.
(** Reading the five entities. *)
Definition entity (s : string) : option (ascii * string) :=
  let try name c r := match strip_prefix name s with Some q => Some (c, q) | None => r end in
  try "&quot;"%string DQUOTE (try "&apos;"%string QUOTE (try "&amp;"%string "&"%char (try "&lt;"%string "<"%char (try "&gt;"%string ">"%char None)))).
Fixpoint amp_read (n : nat) (s : string) : string :=
  match n, s with
  | O, _ | _, EmptyString => s
  | Datatypes.S n, String c r => match entity s with Some (d, q) => String d (amp_read n q) | None => String c (amp_read n r) end
  end.
Lemma amp_entity_long c : 1 <= slen (amp_entity c).
Proof. unfold amp_entity. destruct (c =c DQUOTE), (c =c QUOTE), (c =c "&"), (c =c "<"), (c =c ">"); cbn; lia. Qed.
Lemma amp_loop_exact s : forall x len, 0 <= x -> x + slen (amp_text s) + 1 < len -> amp_loop s x len = (amp_text s, true).
Proof.
  induction s as [|c s IH]; intros x len X L; cbn [amp_loop amp_text] in *.
  - cbn in L. replace (x <? len) with true by lia. by replace (len - 1 <? x + 1) with false by lia.
  - rewrite slen_sapp in L. pose proof (slen_pos (amp_text s)). pose proof (amp_entity_long c). replace (x <? len) with true by lia.
    replace (len - 1 <? x + slen (amp_entity c)) with false by lia. by rewrite IH by lia.
Qed.
Lemma amp_read_some n s c q : entity s = Some (c, q) -> amp_read (Datatypes.S n) s = String c (amp_read n q).
Proof. intros E. destruct s as [|x s]; [done|]. cbn [amp_read]. by rewrite E. Qed.
Lemma amp_read_text s n : slen (amp_text s) <= Z.of_nat n -> amp_read n (amp_text s) = s.
Proof.
  revert n. induction s as [|c s IH]; intros n L; [by destruct n|]. cbn [amp_text] in *. rewrite slen_sapp in L. pose proof (amp_entity_long c).
  pose proof (slen_pos (amp_text s)). destruct n as [|n]; [lia|]. specialize (IH n). unfold amp_entity in *.
  destruct (Ascii.eqb_spec c DQUOTE) as [->|]; [erewrite amp_read_some by reflexivity; cbn [slen] in L; by rewrite IH by lia|]. destruct (Ascii.eqb_spec c QUOTE) as [->|]; [erewrite amp_read_some by reflexivity; cbn [slen] in L; by rewrite IH by lia|].
  destruct (Ascii.eqb_spec c "&") as [->|Na]; [erewrite amp_read_some by reflexivity; cbn [slen] in L; by rewrite IH by lia|]. destruct (Ascii.eqb_spec c "<") as [->|]; [erewrite amp_read_some by reflexivity; cbn [slen] in L; by rewrite IH by lia|].
  destruct (Ascii.eqb_spec c ">") as [->|]; [erewrite amp_read_some by reflexivity; cbn [slen] in L; by rewrite IH by lia|]. rewrite sapp_cons, sapp_empty. cbn [amp_read slen] in *.
  assert (E : entity (String c (amp_text s)) = None).
  { unfold entity. cbn [strip_prefix]. by rewrite !(proj2 (Ascii.eqb_neq "&"%char c)) by congruence. }
  rewrite E. by rewrite IH by lia.
Qed.
Definition markup (c : ascii) : bool := (c =c "<") || (c =c ">") || (c =c DQUOTE) || (c =c QUOTE).
Lemma amp_text_safe s : some_char markup (amp_text s) = false.
Proof.
  assert (A : forall a b, some_char markup (a +:+ b) = some_char markup a || some_char markup b).
  { induction a as [|c a IH]; intros b; [done|]. rewrite sapp_cons. cbn. by rewrite IH, orb_assoc. }
  induction s as [|c s IH]; [done|]. cbn [amp_text]. rewrite A, IH, orb_false_r. unfold amp_entity.
  destruct (c =c DQUOTE) eqn:E1; [done|]. destruct (c =c QUOTE) eqn:E2; [done|]. destruct (c =c "&"); [done|].
  destruct (c =c "<") eqn:E3; [done|]. destruct (c =c ">") eqn:E4; [done|]. cbn. unfold markup. by rewrite E1, E2, E3, E4.
Qed.

(** Where the buffer has two bytes more than the text needs, encoding for XML writes it whole and terminated, leaves no
    markup or quote in it, and reading the entities gives the text back. *)
Theorem amp_roundtrip s len : slen (amp_text s) + 1 < len ->
  exists t, switch_amp_encode s len = (t, true) /\ some_char markup t = false /\ amp_read (String.length t) t = s.
Proof.
  intros L. exists (amp_text s). split_and!; [by apply amp_loop_exact; [|lia]|apply amp_text_safe|]. apply amp_read_text. by rewrite slen_length.
Qed.

(** ** Replacing *)

(** The occurrences from left to right are replaced, and nothing else. *)
Inductive replaced (search replace : string) : string -> string -> Prop :=
| replaced_end : replaced search replace EmptyString EmptyString
| replaced_hit s t : replaced search replace s t -> replaced search replace (search +:+ s) (replace +:+ t)
| replaced_miss c s t : (forall r, String c s <> search +:+ r) -> replaced search replace s t ->
    replaced search replace (String c s) (String c t).
Lemma string_match_prefix search : forall s, switch_string_match s search = SWITCH_STATUS_SUCCESS <-> exists r, s = search +:+ r.
Proof.
  induction search as [|d q IH]; intros s.
  - split; [intros _; by exists s|by destruct s].
  - destruct s as [|c s]; cbn [switch_string_match]; [split; [done|by intros [r E]]|]. destruct (Ascii.eqb_spec c d) as [->|N].
    + rewrite IH. split; intros [r E]; exists r; [by rewrite E|by injection E].
    + split; [done|]. intros [r E]. injection E as E _. done.
Qed.
Lemma sdrop_app a s : sdrop (String.length a) (a +:+ s) = s.
Proof. induction a as [|c a IH]; [by destruct s|exact IH]. Qed.
Lemma replace_loop_exact search replace n : search <> EmptyString -> forall s dest, (String.length s <= n)%nat ->
  exists t, replace_loop n s search replace dest = Some (dest +:+ t) /\ replaced search replace s t.
Proof.
  intros N. induction n as [|n IH]; intros s dest L.
  - destruct s; [|cbn in L; lia]. exists EmptyString. split; [by rewrite sapp_nil|constructor].
  - destruct s as [|c s]; [exists EmptyString; split; [by rewrite sapp_nil|constructor]|]. cbn [replace_loop].
    destruct (bool_decide _) eqn:B.
    + apply bool_decide_eq_true, string_match_prefix in B as [r E]. rewrite E, sdrop_app.
      destruct (IH r (dest +:+ replace)) as (t & -> & R).
      { apply (f_equal String.length) in E. rewrite length_sapp in E. destruct search as [|x q]; [done|]. cbn in E, L. lia. }
      exists (replace +:+ t). rewrite sapp_assoc. split; [done|by constructor].
    + apply bool_decide_eq_false in B. destruct (IH s (dest +:+ String c EmptyString)) as (t & -> & R); [cbn in L; lia|].
      exists (String c t). rewrite sapp_assoc, sapp_cons, sapp_empty. split; [done|]. constructor; [|done].
      intros r E. apply B, string_match_prefix. by exists r.
Qed.

(** Replacing a text that is not empty ends within as many turns as there are characters, and gives the text with the
    occurrences, from left to right, replaced. *)
Theorem replace_exact s search replace : search <> EmptyString ->
  exists t, switch_string_replace (String.length s) s search replace = Some t /\ replaced search replace s t.
Proof. intros N. destruct (replace_loop_exact search replace (String.length s) N s EmptyString) as (t & E & R); [done|by exists t]. Qed.

(** ** Searching *)

(** [i] is the beginning of [t] but for case. *)
Definition begins (i t : string) : bool := match compare_here i t with PatternEnd => true | _ => false end.
Lemma begins_length i t : begins i t = true -> (String.length i <= String.length t)%nat.
Proof.
  unfold begins. revert t. induction i as [|p i IH]; intros [|c t] B; cbn in *; try done; try lia.
  destruct (switch_toupper c =c switch_toupper p); [|done]. specialize (IH t B). lia.
Qed.
Lemma text_end_length i t : compare_here i t = TextEnd -> (String.length t < String.length i)%nat.
Proof.
  revert t. induction i as [|p i IH]; intros [|c t] B; cbn in *; try done; try lia.
  destruct (switch_toupper c =c switch_toupper p); [|done]. specialize (IH t B). lia.
Qed.
(** No place in [s], the end included, has the pattern. *)
Definition nowhere (i s : string) : Prop := forall a t, s = a +:+ t -> begins i t = false.

(** Searching without regard to case finds the first place of a pattern that is not empty, and null exactly where there is
    none. *)
Theorem stristr_first i s : i <> EmptyString ->
  match switch_stristr (Some i) (Some s) with
  | Some t => begins i t = true /\ exists a, s = a +:+ t /\ forall b u, s = b +:+ u -> (String.length b < String.length a)%nat -> begins i u = false
  | None => nowhere i s
  end.
Proof.
  intros N. unfold switch_stristr. induction s as [|c s IH]; cbn [stristr_from].
  - intros a t E. destruct a; [|done]. rewrite sapp_empty in E. subst t. destruct i; [done|reflexivity].
  - assert (Skip : begins i (String c s) = false ->
      match stristr_from i s with
      | Some t => begins i t = true /\ exists a, String c s = a +:+ t /\ forall b u, String c s = b +:+ u -> (String.length b < String.length a)%nat -> begins i u = false
      | None => nowhere i (String c s)
      end).
    { intros F. destruct (stristr_from i s) as [t|].
      - destruct IH as (B & a & -> & A). split; [done|]. exists (String c a). split; [done|]. intros [|x b] u E L; [by rewrite sapp_empty in E; subst u|].
        rewrite sapp_cons in E. injection E as -> E. apply (A b); [done|]. cbn in L. lia.
      - intros [|x a] t E; [by rewrite sapp_empty in E; subst t|]. rewrite sapp_cons in E. injection E as -> E. by apply (IH a). }
    destruct i as [|p i]; [done|]. cbn [head]. destruct (switch_toupper c =c switch_toupper p) eqn:H.
    + destruct (compare_here (String p i) (String c s)) eqn:C.
      * split; [unfold begins; by rewrite C|]. exists EmptyString. split; [done|]. intros b u _ L. cbn in L. lia.
      * intros a t E. destruct (begins (String p i) t) eqn:B; [|done]. apply begins_length in B. apply text_end_length in C.
        apply (f_equal String.length) in E. rewrite length_sapp in E. lia.
      * apply Skip. unfold begins. by rewrite C.
    + apply Skip. unfold begins. cbn [compare_here]. by rewrite H.
Qed.

(** ** Blanks, addresses, parameters *)

Lemma skip_while_split f s : exists a, s = a +:+ skip_while f s /\ all_chars f a = true /\
  match skip_while f s with String c _ => f c = false | EmptyString => True end.
Proof.
  induction s as [|c s (a & E & A & H)]; [by exists EmptyString|]. cbn [skip_while]. destruct (f c) eqn:F.
  - exists (String c a). rewrite sapp_cons, <- E. split_and!; [done| |done]. cbn. by rewrite F, A.
  - exists EmptyString. by split_and!.
Qed.
Lemma drop_end_split f s : exists b, s = drop_end f s +:+ b /\ all_chars f b = true.
Proof.
  induction s as [|c s (b & E & B)]; [by exists EmptyString|]. cbn [drop_end]. destruct (drop_end f s) as [|d r] eqn:D.
  - destruct (f c) eqn:F; [exists (String c s); rewrite sapp_empty in E; split; [done|]; cbn; by rewrite F, E, B|].
    exists s. split; [done|]. by rewrite E, sapp_empty.
  - exists b. by rewrite E.
Qed.
(** Stripping takes blanks away at both ends, and all of them at the beginning. *)
Lemma strip_whitespace_split s : exists a b, s = a +:+ switch_strip_whitespace (Some s) +:+ b /\ all_chars white a = true /\
  all_chars white b = true /\ match switch_strip_whitespace (Some s) with String c _ => white c = false | EmptyString => True end.
Proof.
  unfold switch_strip_whitespace. destruct s as [|c0 s0]; [by exists EmptyString, EmptyString|]. cbn [zstr from_option id]. set (s := String c0 s0).
  destruct (skip_while_split white s) as (a & E & A & H). destruct (drop_end_split white (skip_while white s)) as (b & F & B).
  exists a, b. split_and!; [by rewrite <- F|done|done|]. destruct (skip_while white s) as [|c r]; [done|]. cbn [drop_end].
  destruct (drop_end white r); [by rewrite H|done].
Qed.

(** A user and a host come back from an address with or without a scheme and with parameters behind it. *)
Lemma cut_host_stop h c r : all_chars (fun c => negb ((c =c ":") || (c =c ";") || (c =c SPACE))) h = true ->
  (c =c ":") || (c =c ";") || (c =c SPACE) = true -> cut_host (h +:+ String c r) = h.
Proof.
  intros H C. induction h as [|x h IH]; [rewrite sapp_empty; cbn [cut_host]; by rewrite C|]. cbn [all_chars] in H. apply andb_prop in H as [Hx H].
  rewrite sapp_cons. cbn [cut_host]. cbv beta in Hx. apply negb_true_iff in Hx. rewrite Hx. by rewrite IH.
Qed.
Lemma split_user_domain_exact u h c r : strchr u "@" = false -> all_chars (fun c => negb ((c =c ":") || (c =c ";") || (c =c SPACE))) h = true ->
  (c =c ":") || (c =c ";") || (c =c SPACE) = true ->
  switch_split_user_domain (Some ("sip:" +:+ u +:+ "@" +:+ h +:+ String c r)) = Some (Some u, h).
Proof.
  intros U H C. unfold switch_split_user_domain. rewrite !sapp_cons, !sapp_empty. cbn [after_prefix]. rewrite !Ascii.eqb_refl.
  rewrite split_here by done. by rewrite cut_host_stop.
Qed.

(** ** Witnesses *)

Lemma shell_quote_exact_witness :
  exists q, switch_util_quote_shell_arg "it's; rm -rf $HOME" = Ok q /\ sh_word false (q +:+ " x") = Some ("it's; rm -rf $HOME", " x")%string.
Proof. apply (shell_quote_exact "it's; rm -rf $HOME" " x"). right. by exists " "%char, "x"%string. Defined.
Lemma amp_roundtrip_witness :
  exists t, switch_amp_encode "a<b&'c'" 40 = (t, true) /\ some_char markup t = false /\ amp_read (String.length t) t = "a<b&'c'"%string.
Proof. apply (amp_roundtrip "a<b&'c'" 40). reflexivity. Defined.
Lemma replace_exact_witness :
  exists t, switch_string_replace 6 "ababab" "ab" "c" = Some t /\ replaced "ab" "c" "ababab" t.
Proof. apply (replace_exact "ababab" "ab" "c"). discriminate. Defined.
Lemma stristr_first_witness :
  match switch_stristr (Some "WAV"%string) (Some "a.wav.wav"%string) with
  | Some t => begins "WAV" t = true /\ exists a, "a.wav.wav"%string = a +:+ t /\
      forall b u, "a.wav.wav"%string = b +:+ u -> (String.length b < String.length a)%nat -> begins "WAV" u = false
  | None => nowhere "WAV" "a.wav.wav"
  end.
Proof. apply (stristr_first "WAV" "a.wav.wav"). discriminate. Defined.

(** ** What the code does not do *)

(** An empty pattern is found again and again at the same place. *)
Lemma empty_pattern_loops n s replace : s <> EmptyString -> switch_string_replace n s EmptyString replace = None.
Proof.
  intros N. unfold switch_string_replace. destruct s as [|c s]; [done|].
  assert (H : forall dest, replace_loop n (String c s) EmptyString replace dest = None); [|apply H]. induction n as [|n IH]; intros dest; [done|].
  cbn [replace_loop]. rewrite bool_decide_eq_true_2 by reflexivity. apply IH.
Qed.
(** Where the text does not fit it is cut without a terminator; a buffer of the very size is not enough. *)
Lemma amp_cut : switch_amp_encode "a<b" 6 = ("a&lt;"%string, false) /\ switch_amp_encode "ab" 3 = ("ab"%string, false).
Proof. by vm_compute. Qed.
(** One digit more than the size that is passed is written. *)
Lemma strip_commas_overruns : switch_strip_commas 4 "12345" 4 = UB.
Proof. by vm_compute. Qed.
(** A text that begins with a parenthesis, or with spaces before it, is read before its beginning. *)
Lemma paren_args_underrun : switch_separate_paren_args "(x)" = UB /\ switch_separate_paren_args "  (x)" = UB.
Proof. by vm_compute. Qed.
(** Behind the last backslash, wherever the last slash is. *)
Lemma cut_path_backslash : switch_cut_path "/tmp/a\b/c.wav" = "b/c.wav"%string.
Proof. by vm_compute. Qed.
(** A pattern one character too long writes behind the buffer; a text that fills it loses its terminator. *)
Lemma ast2regex_overruns : switch_ast2regex (Some "X"%string) 6 = UB /\ switch_ast2regex (Some "123"%string) 5 = Ok (Some ("^123$"%string, false, true)).
Proof. by vm_compute. Qed.
(** Any ten characters of digits and points are formatted as a number of region 1. *)
Lemma format_points : switch_format_number (Some "12.34.5678"%string) = Some "1 (12.) 34.-5678"%string.
Proof. by vm_compute. Qed.
