(* ===== verification/DateText.v ===== *)
(** * Times, dates and days in text (src/switch_utils.c)

    The conditions by which calls are routed at certain times: lists of times of day, of days of the week, of
    numbers and of dates, and the texts of times.  [long] has 32 bits; regular expressions and the conversions of
    times are arguments. *)
From stdpp Require Import strings.
From Stdlib Require Import String Ascii.
From S2P Require Import Prelude CStrings StringUtils Separator TextTools.
Open Scope Z_scope.
#[local] Notation length := List.length (only parsing).

(** ** Numbers *)

Fixpoint digits_of (acc : Z) (s : string) : Z * string :=
  match s with
  | EmptyString => (acc, s)
  | String c r => match digit c with Some d => digits_of (acc * 10 + d) r | None => (acc, s) end
  end.
Definition clamp_long (x : Z) : Z := Z.max (- 2 ^ 31) (Z.min x (2 ^ 31 - 1)).
(** [strtol(s, &s, 10)]; where there is no number the text stays where it is. *)
Definition strtol (s : string) : Z * string :=
  let t := skip_while is_space s in
  let '(neg, t) := match t with String c r => if c =c "-" then (true, r) else if c =c "+" then (false, r) else (false, t) | _ => (false, t) end in
  match t with
  | String c _ => if is_digit c then let '(x, r) := digits_of 0 t in (clamp_long (if neg : bool then - x else x), r) else (0, s)
  | EmptyString => (0, s)
  end.
Definition atol (s : string) : Z := fst (strtol s).

(** The texts between commas. *)
Fixpoint comma_fields (n : nat) (s : string) : list string :=
  match n with
  | O => []
  | Datatypes.S n => match split_at_char "," s with (f, Some r) => f :: comma_fields n r | (f, None) => [f] end
  end.
Definition fields (s : string) : list string := comma_fields (Datatypes.S (String.length s)) s.

(** ** Times and dates *)

(** What the pointers are set to, if they are. *)
Definition switch_split_time (exp : string) : option (Z * Z * Z) :=
  match split_at_char ":" exp with
  | (shour, Some smin) =>
    let '(smin, ssec) := split_at_char ":" smin in Some (atol shour, atol smin, atol (default "00"%string ssec))
  | _ => None
  end.
Definition switch_split_date (exp : string) : option (Z * Z * Z) :=
  match split_at_char "-" exp with
  | (syear, Some smonth) =>
    match split_at_char "-" smonth with (smonth, Some sday) => Some (atol syear, atol smonth, atol sday) | _ => None end
  | _ => None
  end.

(** [int] arithmetic. *)
Definition int (x : Z) : outcome Z := if (- 2 ^ 31 <=? x) && (x <? 2 ^ 31) then Ok x else UB.
Definition seconds (h m s : Z) : outcome Z :=
  let* a := int (h * 60 * 60) in let* b := int (m * 60) in let* c := int (a + b) in int (c + s).
Definition in_range (a b val : Z) : bool :=
  if a <=? b then (a <=? val) && (val <=? b) else (a <=? val) || (val <=? b).
Definition tod_field (cur : string) (val : Z) : outcome bool :=
  match split_at_char ":" cur with
  | (minh, Some minm) =>
    match split_at_char "-" minm with
    | (minm, Some maxh) =>
      match split_at_char ":" maxh with
      | (maxh, Some maxm) =>
        let '(minm, mins) := split_at_char ":" minm in
        let '(maxm, maxs) := split_at_char ":" maxm in
        let* range_start := seconds (atol minh) (atol minm) (atol (default "00"%string mins)) in
        let* range_end := seconds (atol maxh) (atol maxm) (atol (default "00"%string maxs)) in
        Ok (in_range range_start range_end val)
      | _ => Ok false
      end
    | _ => Ok false
    end
  | _ => Ok false
  end.
Fixpoint tod_loop (l : list string) (val : Z) : outcome Z :=
  match l with
  | [] => Ok 0
  | cur :: l => let* hit := tod_field cur val in if hit : bool then Ok 1 else tod_loop l val
  end.
Definition switch_tod_cmp (exp : string) (val : Z) : outcome Z := tod_loop (fields exp) val.

(** ** Days of the week *)

Definition DOW : list string := ["sun"; "mon"; "tue"; "wed"; "thu"; "fri"; "sat"]%string.
(** The comparison with the size of the array is one of unsigned numbers. *)
Definition switch_dow_int2str (val : Z) : outcome string :=
  let val := if 7 <=? u32 val then u32 val mod 7 else val in
  match DOW !! Z.to_nat val with Some s => Ok s | None => UB end.
Fixpoint dow_index (l : list string) (x : Z) (exp : string) : Z :=
  match l with
  | [] => -1
  | d :: l => match after_prefix d exp with Some _ => x + 1 | None => dow_index l (x + 1) exp end
  end.
Definition switch_dow_str2int (exp : string) : Z := dow_index DOW 0 exp.

Definition DOW_ERR : Z := -2.
Definition DOW_EOF : Z := -1.
Definition DOW_HYPHEN : Z := 45.
Definition DOW_COMA : Z := 44.
Definition dow_read_token (s : string) : Z * string :=
  match s with
  | EmptyString => (DOW_EOF, s)
  | String c r =>
    if c =c "-" then (DOW_HYPHEN, r)
    else if c =c "," then (DOW_COMA, r)
    else if (ord "1" <=? ord c) && (ord c <=? ord "7") then (ord c - ord "0", r)
    else let i := switch_dow_str2int s in if i =? -1 then (DOW_ERR, s) else (i, sdrop 3 s)
  end.
(** Every turn but the last takes a character: as many turns as there are characters, and one. *)
Fixpoint dow_loop (n : nat) (p : string) (val prev range_start : Z) : bool :=
  match n with
  | O => false
  | Datatypes.S n =>
    let '(cur, p) := dow_read_token p in
    if cur =? DOW_EOF then false
    else if cur =? DOW_COMA then dow_loop n p val DOW_EOF range_start
    else if cur =? DOW_HYPHEN then dow_loop n p val cur prev
    else if cur =? DOW_ERR then false
    else if negb (range_start =? DOW_EOF) then
      if in_range range_start cur val then true else dow_loop n p val cur DOW_EOF
    else if val =? cur then true
    else dow_loop n p val cur range_start
  end.
Definition switch_dow_cmp (exp : string) (val : Z) : bool := dow_loop (Datatypes.S (String.length exp)) exp val DOW_EOF DOW_EOF.

(** ** Numbers and ranges *)

(** Every turn but the last takes a comma. *)
Fixpoint number_loop (n : nat) (exp : string) (val : Z) : Z :=
  match n with
  | O => 0
  | Datatypes.S n =>
    let '(a, exp) := strtol exp in
    let next exp := match exp with String c r => if c =c "," then number_loop n r val else 0 | EmptyString => 0 end in
    match exp with
    | String c r =>
      if c =c "-" then let '(b, exp) := strtol r in if in_range a b val then 1 else next exp
      else if a =? val then 1 else next exp
    | EmptyString => if a =? val then 1 else 0
    end
  end.
Definition switch_number_cmp (exp : string) (val : Z) : Z := number_loop (Datatypes.S (String.length exp)) exp val.

(** ** Full dates *)

Record time_exp := TimeExp {
  tm_usec : Z; tm_sec : Z; tm_min : Z; tm_hour : Z; tm_mday : Z; tm_mon : Z; tm_year : Z;
  tm_wday : Z; tm_yday : Z; tm_isdst : Z; tm_gmtoff : Z }.
#[export] Instance eta_time_exp : Eta time_exp := fun t =>
  TimeExp (tm_usec t) (tm_sec t) (tm_min t) (tm_hour t) (tm_mday t) (tm_mon t) (tm_year t) (tm_wday t)
    (tm_yday t) (tm_isdst t) (tm_gmtoff t).

Definition pattern : string := "^(\d+)-(\d+)-(\d+)\s*(\d*):{0,1}(\d*):{0,1}(\d*)".
Definition pattern2 : string := "^(\d{4})(\d{2})(\d{2})(\d{2})(\d{2})(\d{2})".
Definition pattern3 : string := "^(\d*):{0,1}(\d*):{0,1}(\d*)$".

Section Time.
(** [perform]: the groups of a match, the whole one first; the conversions of switch_time.h. *)
Context (perform : string -> string -> list string) (time_exp_lt : Z -> time_exp) (time_exp_get time_exp_gmt_get : time_exp -> Z) (now : Z).

(** A group that is too long for [replace] leaves it as it was. *)
Definition copy_substring (groups : list string) (i : nat) (replace : string) : string :=
  match groups !! i with Some g => if slen g <? 1024 then g else replace | None => replace end.
(** The groups from [i] on, each into a field. *)
Fixpoint set_fields (groups : list string) (i : nat) (sets : list (Z -> time_exp -> time_exp)) (st : string * time_exp) : string * time_exp :=
  match sets with
  | [] => st
  | set :: sets =>
    let '(replace, tm) := st in
    let st := if (i <? length groups)%nat then let r := copy_substring groups i replace in (r, set (atol r) tm) else st in
    set_fields groups (Datatypes.S i) sets st
  end.
Definition set_clock : list (Z -> time_exp -> time_exp) :=
  [fun x t => t <| tm_hour := x |>; fun x t => t <| tm_min := x |>; fun x t => t <| tm_sec := x |>].
Definition set_date : list (Z -> time_exp -> time_exp) :=
  [fun x t => t <| tm_year := i32 (x - 1900) |>; fun x t => t <| tm_mon := i32 (x - 1) |>; fun x t => t <| tm_mday := x |>].
Definition switch_str_time (inp : string) : Z :=
  let tm := time_exp_lt now in
  let time_only := perform inp pattern3 in
  let '(proceed, tm) :=
    match time_only with
    | [] =>
      let proceed := perform inp pattern in
      (match proceed with [] => perform inp pattern2 | _ => proceed end,
       tm <| tm_year := 0 |> <| tm_mon := 0 |> <| tm_mday := 0 |> <| tm_hour := 0 |> <| tm_min := 0 |> <| tm_sec := 0 |> <| tm_usec := 0 |>)
    | _ => ([], tm <| tm_hour := 0 |> <| tm_min := 0 |> <| tm_sec := 0 |>)
    end in
  match time_only ++ proceed with
  | [] => 0
  | _ =>
    let st := set_fields time_only 1 set_clock (EmptyString, tm) in
    let '(_, tm) := set_fields proceed 1 (set_date ++ set_clock) st in
    let local_tm := time_exp_lt (time_exp_get tm) in
    time_exp_gmt_get (tm <| tm_isdst := tm_isdst local_tm |> <| tm_gmtoff := tm_gmtoff local_tm |>)
  end.

Fixpoint fulldate_loop (l : list string) (ts : Z) : Z :=
  match l with
  | [] => 0
  | cur :: l =>
    match split_at_char "~" cur with
    | (sStart, Some sEnd) =>
      let tsStart := switch_str_time sStart in
      let tsEnd := switch_str_time sEnd in
      if (tsStart =? 0) || (tsEnd =? 0) then 0
      else if (tsStart <=? ts) && (ts <? tsEnd) then 1 else fulldate_loop l ts
    | _ => fulldate_loop l ts
    end
  end.
Definition switch_fulldate_cmp (exp : string) (ts : Z) : Z := fulldate_loop (fields exp) ts.

(** ** Conditions on the time *)

(** [switch_xml_attr(xcond, name)] is [attr name]; [time_exp_tz] and [time_exp_tz_name] are times in another zone. *)
Context (attr : string -> option string) (time_exp_tz : Z -> Z -> time_exp) (time_exp_tz_name : string -> Z -> time_exp).

(** [time_match && x], and the test of an attribute that is there. *)
Definition test_attr (time_match : Z) (name : string) (test : string -> outcome Z) : outcome Z :=
  if time_match =? 0 then Ok 0 else match attr name with Some x => test x | None => Ok time_match end.
Definition test_number (time_match : Z) (name : string) (val : Z) : outcome Z :=
  test_attr time_match name (fun x => Ok (switch_number_cmp x val)).
Definition truth (b : bool) : Z := if b then 1 else 0.
Definition week_of_month (tm : time_exp) : Z :=
  let firstdow := Z.rem (7 - Z.rem (tm_mday tm - (tm_wday tm + 1)) 7) 7 in (tm_mday tm + firstdow + 6) / 7.
Definition offset_test (time_match loffset eoffset : Z) : Z :=
  if negb (time_match =? 0) && (match attr "tz-offset" with Some _ => true | None => false end) then truth (loffset =? eoffset) else time_match.
Definition dst_test (time_match dst : Z) (tm2 : time_exp) : Z :=
  if negb (time_match =? 0) && (-1 <? dst) then truth ((0 <? tm_isdst tm2) && (0 <? dst)) else time_match.
Definition switch_xml_std_datetime_check (offset : option Z) (tzname : option string) : outcome Z :=
  let dst := match attr "dst" with Some EmptyString | None => -1000 | Some d => truth (switch_true (Some d)) end in
  let loffset := match attr "tz-offset" with
                 | Some (String c r) => if switch_is_number (String c r) then atol (String c r) else -1000
                 | _ => -1000
                 end in
  let tm2 := time_exp_lt now in
  let '(eoffset, tm) := match offset with
                        | Some o => (o, time_exp_tz now (o * 3600))
                        | None => (-1000, match tzname with Some (String c r) => time_exp_tz_name (String c r) now | _ => tm2 end)
                        end in
  let eoffset := if eoffset =? -1000 then Z.quot (tm_gmtoff tm) 3600 else eoffset in
  let loffset := if loffset =? -1000 then eoffset else loffset in
  let m := dst_test (offset_test (-1) loffset eoffset) dst tm2 in
  let* m := test_attr m "date-time" (fun x => Ok (switch_fulldate_cmp x now)) in
  let* m := test_number m "year" (tm_year tm + 1900) in
  let* m := test_number m "yday" (tm_yday tm + 1) in
  let* m := test_number m "mon" (tm_mon tm + 1) in
  let* m := test_number m "mday" (tm_mday tm) in
  let* m := test_number m "week" (Z.quot (tm_yday tm) 7 + 1) in
  let* m := test_number m "week" (Z.quot (tm_yday tm) 7 + 1) in
  let* m := test_number m "mweek" (week_of_month tm) in
  let* m := test_attr m "wday" (fun x => Ok (truth (switch_dow_cmp x (tm_wday tm + 1)))) in
  let* m := test_number m "hour" (tm_hour tm) in
  let* m := test_number m "minute" (tm_min tm) in
  let* m := test_number m "minute-of-day" (tm_hour tm * 60 + (tm_min tm + 1)) in
  test_attr m "time-of-day" (fun x => switch_tod_cmp x (tm_hour tm * 60 * 60 + tm_min tm * 60 + tm_sec tm)).
End Time.
