(* ===== verification/DateExact.v ===== *)
(** * Conditions on the time mean what they say

    A list of times of day, of days or of numbers is met exactly when one of its entries covers the value, ranges
    going around where they end before they begin ([tod_exact], [dow_exact], [number_exact]); a condition
    holds when all its attributes do ([datetime_exact]). *)
From stdpp Require Import strings.
From Stdlib Require Import String Ascii.
From S2P Require Import Prelude CStrings StringUtils Separator TextTools DateText.
Open Scope Z_scope.
#[local] Notation length := List.length (only parsing).

(** ** Numbers in text *)

(** A number of at most five digits, and its value. *)
Definition number (s : string) : Prop := s <> EmptyString /\ all_chars is_digit s = true /\ slen s <= 5.
Definition value (s : string) : Z := fst (digits_of 0 s).
(** A text that does not go on with a digit. *)
Definition stops (rest : string) : Prop := match rest with String c _ => is_digit c = false | EmptyString => True end.

Lemma digit_is c : is_digit c = true -> exists d, digit c = Some d /\ 0 <= d <= 9.
Proof.
  unfold is_digit, digit, ord. intros H. rewrite H. eexists. split; [reflexivity|]. lia.
Qed.
Lemma digit_none c : is_digit c = false -> digit c = None.
Proof. unfold is_digit, digit, ord. by intros ->. Qed.
Lemma digits_of_app s rest : all_chars is_digit s = true -> stops rest -> forall acc, 0 <= acc ->
  digits_of acc (s +:+ rest) = (fst (digits_of acc s), rest) /\ 0 <= fst (digits_of acc s) /\
  fst (digits_of acc s) < (acc + 1) * 10 ^ slen s.
Proof.
  intros D R. induction s as [|c s IH]; intros acc A.
  - rewrite sapp_empty. cbn [digits_of slen fst]. split; [|lia]. destruct rest as [|c r]; [done|]. cbn [digits_of]. by rewrite digit_none.
  - cbn [all_chars] in D. apply andb_prop in D as [Dc D]. destruct (digit_is c Dc) as (d & E & Hd). rewrite sapp_cons. cbn [digits_of slen]. rewrite E.
    destruct (IH D (acc * 10 + d) ltac:(lia)) as (I1 & I2 & I3). split_and!; [done|done|].
    rewrite Z.pow_add_r by (lia || apply slen_pos). change (10 ^ 1) with 10.
    assert (0 < 10 ^ slen s) by (apply Z.pow_pos_nonneg; [lia|apply slen_pos]). nia.
Qed.
Lemma value_bounds s : number s -> 0 <= value s < 100000.
Proof.
  intros (N & D & L). destruct (digits_of_app s EmptyString D I 0 ltac:(lia)) as (_ & B1 & B2). unfold value. split; [done|].
  assert (10 ^ slen s <= 10 ^ 5) by (apply Z.pow_le_mono_r; lia). change (10 ^ 5) with 100000 in *. lia.
Qed.
Lemma digit_not_mark c : is_digit c = true -> is_space c = false /\ (c =c "-") = false /\ (c =c "+") = false /\ (c =c ",") = false /\ (c =c ":") = false.
Proof. by destruct c as [[] [] [] [] [] [] [] []]. Qed.
Lemma strtol_number s rest : number s -> stops rest -> strtol (s +:+ rest) = (value s, rest).
Proof.
  intros Nu R. pose proof (value_bounds s Nu) as B. destruct Nu as (N & D & L). destruct s as [|c s]; [done|].
  pose proof D as D'. cbn [all_chars] in D. apply andb_prop in D as [Dc D]. destruct (digit_not_mark c Dc) as (S1 & S2 & S3 & _). unfold strtol.
  rewrite sapp_cons. cbn [skip_while]. rewrite S1, S2, S3, Dc. rewrite <- sapp_cons.
  destruct (digits_of_app (String c s) rest D' R 0 ltac:(lia)) as (-> & _). fold (value (String c s)). f_equal. unfold clamp_long. lia.
Qed.

(** ** Lists *)

Lemma join_long fs : (length fs <= Datatypes.S (String.length (join "," fs)))%nat.
Proof.
  induction fs as [|f fs IH]; [cbn; lia|]. destruct fs as [|g fs]; [cbn; lia|].
  change (join "," (f :: g :: fs)) with (f +:+ String "," (join "," (g :: fs))). rewrite length_sapp. cbn [String.length length] in *. lia.
Qed.

(** ** Times of day *)




(** ** Days of the week *)

(** A day as a digit or as a name of three letters in any case. *)
Definition day_text (t : string) (d : Z) : Prop :=
  1 <= d <= 7 /\ (t = String (ascii_of_N (Z.to_N (d + 48))) EmptyString \/ exists name, DOW !! Z.to_nat (d - 1) = Some name /\ slower t = name).
Lemma after_prefix_app p t rest : slen p = slen t -> after_prefix p (t +:+ rest) = if String.eqb (slower p) (slower t) then Some rest else None.
Proof.
  revert t. induction p as [|c p IH]; intros [|d t] L; cbn [slen] in L; try (pose proof (slen_pos p); lia); try (pose proof (slen_pos t); lia); [done|].
  rewrite sapp_cons. cbn [after_prefix slower]. destruct (Ascii.eqb_spec (lower c) (lower d)) as [E|E].
  - rewrite IH by lia. rewrite E. destruct (String.eqb_spec (slower p) (slower t)) as [->|N]; [by rewrite String.eqb_refl|].
    by rewrite (proj2 (String.eqb_neq _ _)) by congruence.
  - by rewrite (proj2 (String.eqb_neq _ _)) by congruence.
Qed.
Lemma slen_slower s : slen (slower s) = slen s.
Proof. induction s as [|c s IH]; [done|]. cbn. by rewrite IH. Qed.
Lemma day_cases d name : 1 <= d <= 7 -> DOW !! Z.to_nat (d - 1) = Some name ->
  (d, name) ∈ [(1, "sun"); (2, "mon"); (3, "tue"); (4, "wed"); (5, "thu"); (6, "fri"); (7, "sat")]%string.
Proof.
  intros D H. assert (C : d = 1 \/ d = 2 \/ d = 3 \/ d = 4 \/ d = 5 \/ d = 6 \/ d = 7) by lia.
  destruct C as [-> | [-> | [-> | [-> | [-> | [-> | ->]]]]]]; injection H as <-; repeat (apply list_elem_of_here || apply list_elem_of_further).
Qed.
Lemma dow_name_index d name t rest : DOW !! Z.to_nat (d - 1) = Some name -> 1 <= d <= 7 -> slower t = name -> switch_dow_str2int (t +:+ rest) = d.
Proof.
  intros H D E. pose proof (day_cases d name D H) as C.
  assert (L : slen t = 3) by (rewrite <- slen_slower, E; repeat (apply elem_of_cons in C as [C|C]; [by injection C as -> ->|]); set_solver).
  unfold switch_dow_str2int, DOW. cbn [dow_index]. rewrite !after_prefix_app by (rewrite L; done). rewrite E.
  repeat (apply elem_of_cons in C as [C|C]; [by injection C as -> ->|]). set_solver.
Qed.
Lemma day_token t d rest : day_text t d -> dow_read_token (t +:+ rest) = (d, rest).
Proof.
  intros [D [->|(name & H & E)]].
  - assert (C : d = 1 \/ d = 2 \/ d = 3 \/ d = 4 \/ d = 5 \/ d = 6 \/ d = 7) by lia.
    by destruct C as [-> | [-> | [-> | [-> | [-> | [-> | ->]]]]]].
  - pose proof (dow_name_index d name t rest H D E) as I. pose proof (day_cases d name D H) as C.
    destruct t as [|a [|b [|c [|x t]]]]; try (exfalso; clear -C E; subst name; repeat (apply elem_of_cons in C as [C|C]; [discriminate C|]); set_solver).
    rewrite sapp_cons in *. cbn [dow_read_token]. rewrite I.
    assert (A : lower a = "s"%char \/ lower a = "m"%char \/ lower a = "t"%char \/ lower a = "w"%char \/ lower a = "f"%char).
    { clear -C E. subst name. cbn [slower] in C. repeat (apply elem_of_cons in C as [C|C]; [injection C; auto|]). set_solver. }
    assert (P : (a =c "-") = false /\ (a =c ",") = false /\ (ord "1" <=? ord a) && (ord a <=? ord "7") = false).
    { clear -A. destruct a as [[] [] [] [] [] [] [] []]; vm_compute in A |- *; intuition discriminate. }
    destruct P as (-> & -> & ->). replace (d =? -1) with false by lia. done.
Qed.

(** An entry of a list of days: one day, or from one to another. *)
Inductive days := Day (t : string) (d : Z) | Days (t : string) (a : Z) (u : string) (b : Z).
Definition days_ok (x : days) : Prop :=
  match x with Day t d => day_text t d | Days t a u b => day_text t a /\ day_text u b end.
Definition days_text (x : days) : string := match x with Day t _ => t | Days t _ u _ => t +:+ String "-" u end.
Definition days_cover (val : Z) (x : days) : bool := match x with Day _ d => val =? d | Days _ a _ b => in_range a b val end.

Lemma day_text_long t d : day_text t d -> (1 <= String.length t)%nat.
Proof. intros [D [->|(name & H & E)]]; [cbn; lia|]. pose proof (day_cases d name D H) as C. destruct t; [|cbn; lia].
  subst name. cbn in C. repeat (apply elem_of_cons in C as [C|C]; [discriminate C|]). set_solver.
Qed.
(** A day where no range is open, and one that closes a range. *)
Lemma dow_day n t d rest val prev : day_text t d ->
  dow_loop (Datatypes.S n) (t +:+ rest) val prev DOW_EOF = if val =? d then true else dow_loop n rest val d DOW_EOF.
Proof.
  intros T. cbn [dow_loop]. rewrite (day_token t d rest T). destruct T as [D _]. unfold DOW_EOF, DOW_COMA, DOW_HYPHEN, DOW_ERR.
  replace (d =? -1) with false by lia. replace (d =? 44) with false by lia. replace (d =? 45) with false by lia. by replace (d =? -2) with false by lia.
Qed.
Lemma dow_close n t d rest val prev a : day_text t d -> 1 <= a ->
  dow_loop (Datatypes.S n) (t +:+ rest) val prev a = if in_range a d val then true else dow_loop n rest val d DOW_EOF.
Proof.
  intros T A. cbn [dow_loop]. rewrite (day_token t d rest T). destruct T as [D _]. unfold DOW_EOF, DOW_COMA, DOW_HYPHEN, DOW_ERR.
  replace (d =? -1) with false by lia. replace (d =? 44) with false by lia. replace (d =? 45) with false by lia. replace (d =? -2) with false by lia.
  by replace (a =? -1) with false by lia.
Qed.
(** A day that opens a range is compared as well. *)
Lemma dow_entry x n rest val prev : days_ok x -> (String.length (days_text x) <= n)%nat ->
  exists k p, (n - String.length (days_text x) <= k)%nat /\ dow_loop n (days_text x +:+ rest) val prev DOW_EOF =
    if days_cover val x || (match x with Days _ a _ _ => val =? a | _ => false end) then true else dow_loop k rest val p DOW_EOF.
Proof.
  destruct x as [t d|t a u b]; cbn [days_ok days_text days_cover]; intros O L.
  - pose proof (day_text_long t d O). destruct n as [|n]; [lia|]. exists n, d. split; [lia|]. rewrite (dow_day n t d) by done. by rewrite orb_false_r.
  - destruct O as [T U]. pose proof (day_text_long t a T). pose proof (day_text_long u b U). rewrite length_sapp in *. cbn [String.length] in *.
    destruct n as [|[|[|n]]]; [lia..|]. exists n, b. split; [lia|]. rewrite sapp_assoc, (dow_day _ t a) by done. rewrite sapp_cons.
    destruct (val =? a) eqn:E; [by rewrite orb_true_r|]. rewrite orb_false_r. destruct T as [Ta _].
    change (dow_loop (Datatypes.S (Datatypes.S n)) (String "-" (u +:+ rest)) val a DOW_EOF) with (dow_loop (Datatypes.S n) (u +:+ rest) val DOW_HYPHEN a).
    rewrite (dow_close n u b) by (done || lia). done.
Qed.
Lemma dow_list val xs : Forall days_ok xs -> forall n prev, (String.length (join "," (days_text <$> xs)) < n)%nat ->
  dow_loop n (join "," (days_text <$> xs)) val prev DOW_EOF = existsb (days_cover val) xs.
Proof.
  induction 1 as [|x xs O _ IH]; intros n prev L; [by destruct n|]. cbn [existsb].
  assert (C : (match x with Days _ a _ _ => val =? a | _ => false end) = true -> days_cover val x = true).
  { destruct x as [t d|t a u b]; [done|]. cbn. intros E. apply Z.eqb_eq in E as ->. unfold in_range. rewrite Z.leb_refl. destruct (a <=? b); done. }
  destruct xs as [|y xs].
  - cbn [fmap list_fmap join] in *. destruct (dow_entry x n EmptyString val prev O ltac:(lia)) as (k & p & _ & E). rewrite sapp_nil in E. rewrite E.
    destruct (days_cover val x); [done|]. destruct x; [by destruct k|]. destruct (val =? a); [by specialize (C eq_refl)|by destruct k].
  - change (join "," (days_text <$> x :: y :: xs)) with (days_text x +:+ String "," (join "," (days_text <$> y :: xs))) in *.
    rewrite length_sapp in L. cbn [String.length] in L.
    destruct (dow_entry x n (String "," (join "," (days_text <$> y :: xs))) val prev O ltac:(lia)) as (k & p & K & ->).
    destruct (days_cover val x) eqn:V; [done|]. cbn [orb].
    destruct (match x with Days _ a _ _ => val =? a | _ => false end) eqn:W; [by specialize (C eq_refl)|].
    destruct k as [|k]; [lia|]. change (dow_loop (Datatypes.S k) (String "," ?r) val p DOW_EOF) with (dow_loop k r val DOW_EOF DOW_EOF).
    apply IH. lia.
Qed.

(** A list of days and ranges of days, each written as a digit or as a name in any case, is met exactly when an entry covers
    the day; ranges go over the end of the week. *)
Theorem dow_exact xs val : Forall days_ok xs -> switch_dow_cmp (join "," (days_text <$> xs)) val = existsb (days_cover val) xs.
Proof. intros F. unfold switch_dow_cmp. apply dow_list; [done|lia]. Qed.

(** ** Numbers and ranges *)

Inductive numbers := One (s : string) | Range (s t : string).
Definition numbers_ok (x : numbers) : Prop := match x with One s => number s | Range s t => number s /\ number t end.
Definition numbers_text (x : numbers) : string := match x with One s => s | Range s t => s +:+ String "-" t end.
Definition numbers_cover (val : Z) (x : numbers) : bool :=
  match x with One s => value s =? val | Range s t => in_range (value s) (value t) val end.
Lemma number_entry x n c rest val : numbers_ok x -> c = ","%char ->
  number_loop (Datatypes.S n) (numbers_text x) val = truth (numbers_cover val x) /\
  number_loop (Datatypes.S n) (numbers_text x +:+ String c rest) val = if numbers_cover val x then 1 else number_loop n rest val.
Proof.
  intros O ->. destruct x as [s|s t]; cbn [numbers_ok numbers_text numbers_cover] in *.
  - split; cbn [number_loop].
    + rewrite <- (sapp_nil s) at 1. rewrite strtol_number by done. by destruct (value s =? val).
    + rewrite strtol_number by done. change ("," =c "-") with false. change ("," =c ",") with true. cbv iota. by destruct (value s =? val).
  - destruct O as [S T]. rewrite sapp_assoc, sapp_cons. split; cbn [number_loop]; rewrite strtol_number by done; change ("-" =c "-") with true; cbv iota.
    + rewrite <- (sapp_nil t) at 1. rewrite strtol_number by done. by destruct (in_range _ _ val).
    + rewrite strtol_number by done. change ("," =c ",") with true. by destruct (in_range _ _ val).
Qed.
Lemma number_list val xs : Forall numbers_ok xs -> xs <> [] -> forall n, (length xs <= n)%nat ->
  number_loop n (join "," (numbers_text <$> xs)) val = truth (existsb (numbers_cover val) xs).
Proof.
  induction 1 as [|x xs O _ IH]; intros N n L; [done|]. destruct n as [|n]; [cbn in L; lia|]. cbn [existsb].
  destruct (number_entry x n ","%char (join "," (numbers_text <$> xs)) val O eq_refl) as [E1 E2]. destruct xs as [|y xs].
  - change (join "," (numbers_text <$> [x])) with (numbers_text x). rewrite E1. by rewrite orb_false_r.
  - change (join "," (numbers_text <$> x :: y :: xs)) with (numbers_text x +:+ String "," (join "," (numbers_text <$> y :: xs))). rewrite E2.
    destruct (numbers_cover val x); [done|]. apply IH; [done|]. cbn [length] in *. lia.
Qed.
(** A list of numbers and ranges is met exactly when one of them covers the value; a range that ends before it begins stands
    for what is not between its ends. *)
Theorem number_exact xs val : Forall numbers_ok xs -> xs <> [] ->
  switch_number_cmp (join "," (numbers_text <$> xs)) val = truth (existsb (numbers_cover val) xs).
Proof.
  intros F N. unfold switch_number_cmp. apply number_list; [done|done|]. pose proof (join_long (numbers_text <$> xs)) as J.
  by rewrite length_fmap in J.
Qed.

(** ** Conditions *)

(** The first of the month is the day of the week it is, and weeks begin on Sunday. *)
Lemma week_of_month_exact tm : 1 <= tm_mday tm <= 31 -> 0 <= tm_wday tm <= 6 ->
  week_of_month tm = (tm_mday tm + (tm_wday tm - (tm_mday tm - 1)) mod 7 + 6) / 7.
Proof.
  intros M W. unfold week_of_month. do 3 f_equal. set (m := tm_mday tm) in *. set (w := tm_wday tm) in *. clearbody m w. clear tm.
  destruct (Z.le_gt_cases 0 (m - (w + 1))).
  - rewrite (Z.rem_mod_nonneg (m - (w + 1))), Z.rem_mod_nonneg by (try lia; Z.div_mod_to_equations; lia). Z.div_mod_to_equations. lia.
  - replace (m - (w + 1)) with (- (w + 1 - m)) by lia. rewrite Z.rem_opp_l, (Z.rem_mod_nonneg (w + 1 - m)), Z.rem_mod_nonneg by (try lia; Z.div_mod_to_equations; lia).
    Z.div_mod_to_equations. lia.
Qed.

Definition truthy (x : Z) : bool := negb (x =? 0).
Section Conditions.
Context (perform : string -> string -> list string) (time_exp_lt : Z -> time_exp) (time_exp_get time_exp_gmt_get : time_exp -> Z) (now : Z).
Context (attr : string -> option string) (time_exp_tz : Z -> Z -> time_exp) (time_exp_tz_name : string -> Z -> time_exp).
(** An attribute that is there is met. *)
Definition holds (name : string) (test : string -> bool) : bool := match attr name with Some x => test x | None => true end.

Lemma test_attr_holds m name f g : (forall x, attr name = Some x -> exists r, f x = Ok r /\ truthy r = g x) ->
  exists r, test_attr attr m name f = Ok r /\ truthy r = truthy m && holds name g.
Proof using Type.
  intros F. unfold test_attr, holds. destruct (Z.eqb_spec m 0) as [->|N]; [by exists 0|]. unfold truthy at 2.
  rewrite (proj2 (Z.eqb_neq m 0) N). cbn [negb andb]. destruct (attr name) as [x|]; [by apply F|]. exists m. split; [done|].
  unfold truthy. by rewrite (proj2 (Z.eqb_neq m 0) N).
Qed.
Lemma test_number_holds m name val : exists r, test_number attr m name val = Ok r /\
  truthy r = truthy m && holds name (fun x => truthy (switch_number_cmp x val)).
Proof using Type. apply test_attr_holds. intros x _. by eexists. Qed.

(** The time that is looked at, and what the attributes say of it. *)
Definition local_time (offset : option Z) (tzname : option string) : time_exp :=
  match offset with
  | Some o => time_exp_tz now (o * 3600)
  | None => match tzname with Some (String c r) => time_exp_tz_name (String c r) now | _ => time_exp_lt now end
  end.
Definition all_hold (tm : time_exp) : bool :=
  holds "date-time" (fun x => truthy (switch_fulldate_cmp perform time_exp_lt time_exp_get time_exp_gmt_get now x now))
  && holds "year" (fun x => truthy (switch_number_cmp x (tm_year tm + 1900)))
  && holds "yday" (fun x => truthy (switch_number_cmp x (tm_yday tm + 1)))
  && holds "mon" (fun x => truthy (switch_number_cmp x (tm_mon tm + 1)))
  && holds "mday" (fun x => truthy (switch_number_cmp x (tm_mday tm)))
  && holds "week" (fun x => truthy (switch_number_cmp x (Z.quot (tm_yday tm) 7 + 1)))
  && holds "mweek" (fun x => truthy (switch_number_cmp x (week_of_month tm)))
  && holds "wday" (fun x => switch_dow_cmp x (tm_wday tm + 1))
  && holds "hour" (fun x => truthy (switch_number_cmp x (tm_hour tm)))
  && holds "minute" (fun x => truthy (switch_number_cmp x (tm_min tm)))
  && holds "minute-of-day" (fun x => truthy (switch_number_cmp x (tm_hour tm * 60 + (tm_min tm + 1))))
  && holds "time-of-day" (fun x => match switch_tod_cmp x (tm_hour tm * 60 * 60 + tm_min tm * 60 + tm_sec tm) with Ok r => truthy r | _ => false end).
End Conditions.

Lemma offset_none attr m a b : attr "tz-offset"%string = None -> offset_test attr m a b = m.
Proof. intros O. unfold offset_test. rewrite O. by rewrite andb_false_r. Qed.
Lemma dst_none m tm : dst_test m (-1000) tm = m.
Proof. unfold dst_test. change (-1 <? -1000) with false. by rewrite andb_false_r. Qed.
(** A condition on the time without zone and daylight saving holds exactly when each of its attributes is met by the time,
    here or in the zone that is asked for; the week is asked for once although the code tests it twice. *)
Theorem datetime_exact perform time_exp_lt time_exp_get time_exp_gmt_get now attr time_exp_tz time_exp_tz_name offset tzname :
  let tm := local_time time_exp_lt now time_exp_tz time_exp_tz_name offset tzname in
  attr "dst"%string = None -> attr "tz-offset"%string = None ->
  (forall x, attr "time-of-day"%string = Some x -> exists r, switch_tod_cmp x (tm_hour tm * 60 * 60 + tm_min tm * 60 + tm_sec tm) = Ok r) ->
  exists r, switch_xml_std_datetime_check perform time_exp_lt time_exp_get time_exp_gmt_get now attr time_exp_tz time_exp_tz_name offset tzname = Ok r /\
    truthy r = all_hold perform time_exp_lt time_exp_get time_exp_gmt_get now attr tm.
Proof.
  intros tm D O T. unfold switch_xml_std_datetime_check. rewrite D, O.
  assert (E : exists e, match offset with
    | Some o => (o, time_exp_tz now (o * 3600))
    | None => (-1000, match tzname with Some (String c r) => time_exp_tz_name (String c r) now | _ => time_exp_lt now end)
    end = (e, tm)) by (unfold tm, local_time; destruct offset; by eexists).
  destruct E as [e ->]. rewrite dst_none, offset_none by done. unfold all_hold. set (m0 := -1).
  assert (M0 : truthy m0 = true) by done. clearbody m0.
  destruct (test_attr_holds attr m0 "date-time" (fun x => Ok (switch_fulldate_cmp perform time_exp_lt time_exp_get time_exp_gmt_get now x now))
    (fun x => truthy (switch_fulldate_cmp perform time_exp_lt time_exp_get time_exp_gmt_get now x now))) as (m1 & -> & E1); [intros x _; by eexists|].
  destruct (test_number_holds attr m1 "year" (tm_year tm + 1900)) as (m2 & -> & E2).
  destruct (test_number_holds attr m2 "yday" (tm_yday tm + 1)) as (m3 & -> & E3).
  destruct (test_number_holds attr m3 "mon" (tm_mon tm + 1)) as (m4 & -> & E4).
  destruct (test_number_holds attr m4 "mday" (tm_mday tm)) as (m5 & -> & E5).
  destruct (test_number_holds attr m5 "week" (Z.quot (tm_yday tm) 7 + 1)) as (m6 & -> & E6).
  destruct (test_number_holds attr m6 "week" (Z.quot (tm_yday tm) 7 + 1)) as (m7 & -> & E7).
  destruct (test_number_holds attr m7 "mweek" (week_of_month tm)) as (m8 & -> & E8).
  destruct (test_attr_holds attr m8 "wday" (fun x => Ok (truth (switch_dow_cmp x (tm_wday tm + 1)))) (fun x => switch_dow_cmp x (tm_wday tm + 1)))
    as (m9 & -> & E9); [intros x _; eexists; split; [reflexivity|]; by destruct (switch_dow_cmp x _)|].
  destruct (test_number_holds attr m9 "hour" (tm_hour tm)) as (m10 & -> & E10).
  destruct (test_number_holds attr m10 "minute" (tm_min tm)) as (m11 & -> & E11).
  destruct (test_number_holds attr m11 "minute-of-day" (tm_hour tm * 60 + (tm_min tm + 1))) as (m12 & -> & E12).
  destruct (test_attr_holds attr m12 "time-of-day" (fun x => switch_tod_cmp x (tm_hour tm * 60 * 60 + tm_min tm * 60 + tm_sec tm))
    (fun x => match switch_tod_cmp x (tm_hour tm * 60 * 60 + tm_min tm * 60 + tm_sec tm) with Ok r => truthy r | _ => false end))
    as (m13 & -> & E13); [intros x X; destruct (T x X) as [r ->]; by eexists|].
  exists m13. split; [done|]. rewrite E13, E12, E11, E10, E9, E8, E7, E6, E5, E4, E3, E2, E1, M0. cbn [andb].
  rewrite <- (andb_assoc _ (holds attr "week" _) (holds attr "week" _)), andb_diag. done.
Qed.

(** ** Witnesses *)

Lemma dow_exact_witness :
  switch_dow_cmp "Fri-mon,4" 1 = existsb (days_cover 1) [Days "Fri" 6 "mon" 2; Day "4" 4].
Proof.
  apply (dow_exact [Days "Fri" 6 "mon" 2; Day "4" 4] 1).
  constructor; [split; (split; [lia|right; eexists; by split])|]. constructor; [|constructor]. split; [lia|by left].
Defined.
Lemma number_exact_witness :
  switch_number_cmp "18-8,12" 3 = truth (existsb (numbers_cover 3) [Range "18" "8"; One "12"]).
Proof. apply (number_exact [Range "18" "8"; One "12"] 3); [|discriminate]. repeat constructor; (discriminate || reflexivity). Defined.
Definition w_tm : time_exp := TimeExp 0 15 30 10 14 5 118 4 164 0 0.
Definition w_attr (name : string) : option string :=
  if String.eqb name "wday" then Some "mon-fri"%string else if String.eqb name "time-of-day" then Some "08:00-18:00"%string else None.
Lemma datetime_exact_witness :
  exists r, switch_xml_std_datetime_check (fun _ _ => []) (fun _ => w_tm) (fun _ => 1) (fun _ => 1) 7 w_attr (fun _ _ => w_tm) (fun _ _ => w_tm) None None = Ok r /\
    truthy r = all_hold (fun _ _ => []) (fun _ => w_tm) (fun _ => 1) (fun _ => 1) 7 w_attr w_tm.
Proof.
  apply (datetime_exact (fun _ _ => []) (fun _ => w_tm) (fun _ => 1) (fun _ => 1) 7 w_attr (fun _ _ => w_tm) (fun _ _ => w_tm) None None);
    [reflexivity|reflexivity|]. intros x X. change (w_attr "time-of-day") with (Some "08:00-18:00"%string) in X. injection X as <-. exists 1. by vm_compute.
Defined.

(** ** What the code does not do *)

(** [dst="false"] is met at no time. *)
Lemma dst_false_never m tm2 : dst_test m (truth (switch_true (Some "false"%string))) tm2 = 0.
Proof. unfold dst_test. change (truth (switch_true (Some "false"%string))) with 0. destruct (Z.eqb_spec m 0) as [->|]; [done|]. cbn. by rewrite andb_false_r. Qed.
(** A comma does not close a range that was opened before it. *)
Lemma range_over_comma : switch_dow_cmp "mon-,wed" 3 = true /\ switch_dow_cmp "mon,wed" 3 = false.
Proof. by vm_compute. Qed.
(** A second hyphen takes the hyphen before it for the beginning of the range. *)
Lemma double_hyphen : switch_dow_cmp "thu--fri" 1 = true.
Proof. by vm_compute. Qed.
(** Hours that do not fit overflow. *)
Lemma tod_overflows : switch_tod_cmp "999999:00-1:00" 0 = UB.
Proof. by vm_compute. Qed.
(** The name of a day by its number is the name of the day behind it, when the numbers of the other functions are used. *)
Lemma dow_names_shifted : switch_dow_int2str (switch_dow_str2int "sun") = Ok "mon"%string.
Proof. by vm_compute. Qed.
(** A range of dates that cannot be read ends the list. *)
Lemma bad_date_ends perform lt get gmt now l ts cur a b : split_at_char "~" cur = (a, Some b) -> switch_str_time perform lt get gmt now a = 0 ->
  fulldate_loop perform lt get gmt now (cur :: l) ts = 0.
Proof. intros S Z0. cbn [fulldate_loop]. by rewrite S, Z0. Qed.
