(* ===== verification/XmlText.v ===== *)
(** * Character content of XML (src/switch_xml.c)

    The text of tags and attributes is encoded when a tree is written ([switch_xml_ampencode]) and decoded when one
    is read ([switch_xml_decode]).  Decoding works in place or in a copy that grows; here the text from where it
    is at is replaced.  Whether [char] has a sign is an argument; on the ARM target it has none. *)
From stdpp Require Import strings.
From Stdlib Require Import String Ascii.
From S2P Require Import Prelude CStrings StringUtils Separator TextTools.
Open Scope Z_scope.
#[local] Notation length := List.length (only parsing).

Definition CR : ascii := chr 13.
Definition LF : ascii := chr 10.
Definition TAB : ascii := chr 9.

(** ** Writing *)

(** [%X]. *)
Fixpoint hex_upper (n : nat) (x : Z) : string :=
  match n with
  | O => EmptyString
  | Datatypes.S n =>
    let d := default NUL (String.get (Z.to_nat (x mod 16)) "0123456789ABCDEF") in
    if x / 16 =? 0 then String d EmptyString else hex_upper n (x / 16) +:+ String d EmptyString
  end.
(** How many bytes the first byte of a character announces, counted to four. *)
Fixpoint first_ones (k : nat) (num c : Z) : Z :=
  match k with
  | O => num
  | Datatypes.S k => if Z.land (Z.shiftr c (7 - num)) 1 =? 0 then num else first_ones k (num + 1) c
  end.
(** The state between characters: behind [<!] nothing is encoded; bytes of a character that are expected, and its value. *)
Record amp_state := AmpState { immune : bool; expecting : Z; unicode_char : Z }.
Definition next_is (s : string) (c : ascii) : bool := match s with String d _ => d =c c | EmptyString => false end.
Definition amp_step (signed a : bool) (st : amp_state) (c : ascii) (r : string) : amp_state * string :=
  let raw := (st, String c EmptyString) in
  if immune st then raw
  else if c =c "&" then (st, "&amp;"%string)
  else if c =c "<" then
    if next_is r "!" then (AmpState true (expecting st) (unicode_char st), String c EmptyString) else (st, "&lt;"%string)
  else if c =c ">" then (st, "&gt;"%string)
  else if c =c DQUOTE then (st, if a then "&quot;"%string else String DQUOTE EmptyString)
  else if c =c LF then (st, if a then "&#xA;"%string else String LF EmptyString)
  else if c =c TAB then (st, if a then "&#x9;"%string else String TAB EmptyString)
  else if c =c CR then (st, "&#xD;"%string)
  else if (expecting st =? 0) && (signed && (128 <=? ord c)) then
    let num := first_ones 3 1 (ord c) in
    let uc := if num =? 2 then Z.land (ord c) 0x1f else if num =? 3 then Z.land (ord c) 0x0f
              else if num =? 4 then Z.land (ord c) 0x07 else unicode_char st in
    (AmpState false (num - 1) uc, EmptyString)
  else if 0 <? expecting st then
    if Z.land (Z.shiftr (ord c) 6) 3 =? 2 then
      let uc := Z.lor (Z.shiftl (unicode_char st) 6) (Z.land (ord c) 0x3f) in
      (AmpState false (expecting st - 1) uc, if expecting st - 1 =? 0 then "&#x" +:+ hex_upper 8 uc +:+ ";" else EmptyString)
    else (AmpState false 0 (unicode_char st), EmptyString)
  else raw.
(** [e]: the characters until the end that was given; without one, up to the terminator. *)
Fixpoint amp_from (signed a : bool) (st : amp_state) (s : string) (e : option nat) : string :=
  match e with
  | Some O => EmptyString
  | _ =>
    match s with
    | EmptyString => EmptyString
    | String c r => let '(st, out) := amp_step signed a st c r in out +:+ amp_from signed a st r (Nat.pred <$> e)
    end
  end.
Definition switch_xml_ampencode (signed : bool) (s : option string) (len : Z) (dst : string) (a : bool) : string :=
  match s with
  | Some s => dst +:+ amp_from signed a (AmpState false 0 0) s (if len =? 0 then None else Some (Z.to_nat len))
  | None => dst
  end.

(** ** Reading *)

(** A carriage return becomes a new line, and swallows one behind it.  Behind carriage returns one character is passed without
    a look, the terminator too. *)
Fixpoint norm_lines (n : nat) (s : string) : outcome string :=
  match n with
  | O => Ok s
  | Datatypes.S n =>
    match s with
    | EmptyString => Ok EmptyString
    | String c r =>
      if c =c CR then
        let r := match r with String d q => if d =c LF then q else r | EmptyString => r end in
        match r with
        | EmptyString => UB
        | String d q =>
          let* t := (if d =c CR then norm_lines n r else let* t := norm_lines n q in Ok (String d t)) in Ok (String LF t)
        end
      else let* t := norm_lines n r in Ok (String c t)
    end
  end.

Definition xdigit_value (c : ascii) : option Z :=
  let n := ord c in
  if (48 <=? n) && (n <=? 57) then Some (n - 48) else if (65 <=? n) && (n <=? 70) then Some (n - 55)
  else if (97 <=? n) && (n <=? 102) then Some (n - 87) else None.
Fixpoint number_from (base acc : Z) (s : string) : Z * string :=
  match s with
  | EmptyString => (acc, s)
  | String c r =>
    match xdigit_value c with
    | Some d => if d <? base then number_from base (Z.min (acc * base + d) (2 ^ 32 - 1)) r else (acc, s)
    | None => (acc, s)
    end
  end.
(** [strtoul] of a text that begins with a hexadecimal digit. *)
Definition strtoul (base : Z) (s : string) : Z * string :=
  match s with
  | String z (String x (String d r)) =>
    if (base =? 16) && (z =c "0") && ((x =c "x") || (x =c "X")) && match xdigit_value d with Some _ => true | None => false end
    then number_from base 0 (String d r) else number_from base 0 s
  | _ => number_from base 0 s
  end.
(** The bits of a number, and its bytes. *)
Definition bits_of (c : Z) : Z := if c =? 0 then 0 else Z.log2 c + 1.
Fixpoint payload (b : nat) (c : Z) : string :=
  match b with
  | O => EmptyString
  | Datatypes.S b => String (chr (Z.lor 0x80 (Z.land (Z.shiftr c (6 * Z.of_nat b)) 0x3F))) (payload b c)
  end.
Definition utf8_sequence (c : Z) : string :=
  let b := (bits_of c - 2) / 5 in
  String (chr (u8 (Z.lor (Z.shiftl 0xFF (7 - b)) (Z.shiftr c (6 * b))))) (payload (Z.to_nat b) c).
(** The text behind [&#]: the bytes of the character and what follows, if it is a reference. *)
Definition char_ref (code : string) : option (string * string) :=
  let '(base, code) := match code with String x r => if x =c "x" then (16, r) else (10, code) | _ => (10, code) end in
  match code with
  | String d _ =>
    match xdigit_value d with
    | Some _ =>
      let '(c, e) := strtoul base code in
      match e with
      | String q e =>
        if (c =? 0) || negb (q =c ";") then None
        else if c <? 0x80 then Some (String (chr c) EmptyString, e)
        else if 0x7FFFFFFF <? c then None
        else Some (utf8_sequence c, e)
      | EmptyString => None
      end
    | None => None
    end
  | EmptyString => None
  end.
(** The first entity whose name begins the text: its value. *)
Fixpoint find_entity (ent : list (string * string)) (s : string) : option string :=
  match ent with
  | [] => None
  | (name, value) :: ent => if String.prefix name s then Some value else find_entity ent s
  end.
(** Text before what is read behind it; [Ok None]: the turns are used up. *)
Definition before (p : string) (r : outcome (option string)) : outcome (option string) :=
  match r with Ok (Some q) => Ok (Some (p +:+ q)) | r => r end.
(** The value of an entity is read again; where entities refer to each other in a circle this does not end.  For an empty
    value the copy gets less room than the text needs, as a size of zero less one is the greatest. *)
Fixpoint decode_loop (n : nat) (ent : list (string * string)) (t : ascii) (s : string) : outcome (option string) :=
  match n with
  | O => Ok None
  | Datatypes.S n =>
    match s with
    | EmptyString => Ok (Some EmptyString)
    | String c r =>
      let keep d := before (String d EmptyString) (decode_loop n ent t r) in
      if (c =c "&") && negb (t =c "c") && next_is r "#" then
        match char_ref (sdrop 1 r) with
        | Some (bytes, e) => before bytes (decode_loop n ent t e)
        | None => keep c
        end
      else if (c =c "&") && ((t =c "&") || (t =c SPACE) || (t =c "*")) || (c =c "%") && (t =c "%") then
        match find_entity ent r with
        | Some EmptyString => UB
        | Some value => decode_loop n ent t (value +:+ default EmptyString (snd (split_at_char ";" s)))
        | None => keep c
        end
      else if ((t =c SPACE) || (t =c "*")) && is_space c then keep SPACE
      else keep c
    end
  end.
(** For other attributes than texts spaces are taken together; the loop steps over the terminator behind a last word. *)
Fixpoint take_spaces (n : nat) (s : string) : outcome string :=
  match n with
  | O => Ok s
  | Datatypes.S n =>
    match s with
    | EmptyString => Ok EmptyString
    | _ =>
      let s := skip_while (fun c => c =c SPACE) s in
      match split_at_char SPACE s with
      | (w, Some r) => let* q := take_spaces n r in Ok (w +:+ String SPACE q)
      | (_, None) => UB
      end
    end
  end.
Definition trim_last (s : string) : string :=
  match list_ascii_of_string s with
  | [] => s
  | l => if default NUL (last l) =c SPACE then string_of_list_ascii (removelast l) else s
  end.
(** [None]: the turns are used up. *)
Definition switch_xml_decode (n : nat) (s : string) (ent : list (string * string)) (t : ascii) : outcome (option string) :=
  let* s := norm_lines (String.length s) s in
  let* r := decode_loop n ent t s in
  match r with
  | None => Ok None
  | Some r => if t =c "*" then let* r := take_spaces (String.length r) r in Ok (Some (trim_last r)) else Ok (Some r)
  end.

(** Whether an entity of that name does not refer to itself, through others of the table either; [None]: the turns are used up. *)
Fixpoint switch_xml_ent_ok (n : nat) (name s : string) (ent : list (string * string)) : option bool :=
  match n with
  | O => None
  | Datatypes.S n =>
    match s with
    | EmptyString => Some true
    | String c r =>
      if negb (c =c "&") then switch_xml_ent_ok n name r ent
      else if String.prefix name r then Some false
      else
        match find_entity ent r with
        | Some value => match switch_xml_ent_ok n name value ent with Some true => switch_xml_ent_ok n name r ent | x => x end
        | None => switch_xml_ent_ok n name r ent
        end
    end
  end.

(** The entities of a new tree. *)
Definition default_ent : list (string * string) :=
  [("lt;", "&#60;"); ("gt;", "&#62;"); ("quot;", "&#34;"); ("apos;", "&#39;"); ("amp;", "&#38;")]%string.
