(* ===== verification/XmlTextExact.v ===== *)
(** * Encoded XML text is read back

    What is written for a text or an attribute is read back as it was ([xml_text_roundtrip]), but for texts with
    [<!], behind which nothing is encoded. *)
From stdpp Require Import strings.
From Stdlib Require Import String Ascii.
From S2P Require Import Prelude CStrings StringUtils Separator TextTools XmlText.
Open Scope Z_scope.
#[local] Notation length := List.length (only parsing).

(** ** Turns *)

Lemma before_ok p x r : before p x = Ok (Some r) <-> exists q, x = Ok (Some q) /\ r = p +:+ q.
Proof. destruct x as [[q|]| |]; cbn; naive_solver. Qed.
Lemma decode_more ent t n : forall s r, decode_loop n ent t s = Ok (Some r) -> decode_loop (Datatypes.S n) ent t s = Ok (Some r).
Proof.
  induction n as [|n IH]; intros s r H; [done|]. destruct s as [|c s]; [exact H|].
  assert (K : forall p s' r, before p (decode_loop n ent t s') = Ok (Some r) -> before p (decode_loop (Datatypes.S n) ent t s') = Ok (Some r)).
  { intros p s' r' (q & E & ->)%before_ok. apply before_ok. exists q. split; [by apply IH|done]. }
  remember (Datatypes.S n) as n' eqn:EN. rewrite EN in H. cbn [decode_loop] in H |- *. cbv zeta in *.
  destruct ((c =c "&") && negb (t =c "c") && next_is s "#").
  { destruct (char_ref (sdrop 1 s)) as [[bytes e]|]; by apply K. }
  destruct ((c =c "&") && _ || _); [destruct (find_entity ent s) as [[|]|]; [done|by apply IH|by apply K]|]. destruct (_ && is_space c); by apply K.
Qed.
Lemma decode_mono ent t s r n m : (n <= m)%nat -> decode_loop n ent t s = Ok (Some r) -> decode_loop m ent t s = Ok (Some r).
Proof. induction 1 as [|m L IH]; [done|]. intros H. by apply decode_more, IH. Qed.

(** ** One character *)

(** The text behind which nothing is encoded. *)
Fixpoint no_bang (s : string) : bool :=
  match s with EmptyString => true | String c r => negb ((c =c "<") && next_is r "!") && no_bang r end.
(** Characters that attributes keep: of the spaces not the vertical tab and the form feed. *)
Definition attr_char (c : ascii) : bool := negb ((c =c chr 11) || (c =c chr 12)).
Definition keeps (a : bool) (c : ascii) : bool := negb a || attr_char c.
Definition mode (a : bool) : ascii := if a then SPACE else "&"%char.

Lemma plain_step a c r : next_is r "!" = false \/ c <> "<"%char -> exists out, amp_step false a (AmpState false 0 0) c r = (AmpState false 0 0, out) /\
  out = (if c =c "&" then "&amp;" else if c =c "<" then "&lt;" else if c =c ">" then "&gt;" else if c =c DQUOTE then if a then "&quot;" else String DQUOTE EmptyString
         else if c =c LF then if a then "&#xA;" else String LF EmptyString else if c =c TAB then if a then "&#x9;" else String TAB EmptyString
         else if c =c CR then "&#xD;" else String c EmptyString)%string.
Proof.
  intros N. eexists. split; [|reflexivity]. unfold amp_step. cbn [immune expecting unicode_char andb].
  destruct (c =c "&"); [done|]. destruct (Ascii.eqb_spec c "<") as [->|]; [destruct N as [->|]; done|].
  destruct (c =c ">"); [done|]. destruct (c =c DQUOTE); [done|]. destruct (c =c LF); [done|]. destruct (c =c TAB); [done|]. destruct (c =c CR); [done|].
  by rewrite andb_false_r.
Qed.

(** A reference and an entity of the table. *)
Lemma decode_ref a n code bytes e q : char_ref code = Some (bytes, e) -> decode_loop n default_ent (mode a) e = Ok (Some q) ->
  decode_loop (Datatypes.S n) default_ent (mode a) (String "&" (String "#" code)) = Ok (Some (bytes +:+ q)).
Proof.
  intros C H. cbn [decode_loop]. assert (M : negb (mode a =c "c") = true) by by destruct a. rewrite M. cbn [andb next_is sdrop].
  change ("&" =c "&") with true. change ("#" =c "#") with true. cbn [andb]. rewrite C. by rewrite H.
Qed.
Lemma decode_ent a n name value rest q : value <> EmptyString -> find_entity default_ent (name +:+ rest) = Some value -> next_is (name +:+ rest) "#" = false ->
  snd (split_at_char ";" (String "&" (name +:+ rest))) = Some rest -> decode_loop n default_ent (mode a) (value +:+ rest) = Ok (Some q) ->
  decode_loop (Datatypes.S n) default_ent (mode a) (String "&" (name +:+ rest)) = Ok (Some q).
Proof.
  intros V F N S H. cbn [decode_loop]. rewrite N, andb_false_r. change ("&" =c "&") with true. cbn [andb].
  assert (M : (mode a =c "&") || (mode a =c SPACE) || (mode a =c "*") = true) by by destruct a. rewrite M. cbn [orb]. rewrite F, S. by destruct value.
Qed.
Lemma decode_plain a n c rest q : (c =c "&") = false -> (c =c CR) = false -> keeps a c = true -> (a = true -> (c =c LF) = false /\ (c =c TAB) = false) ->
  decode_loop n default_ent (mode a) rest = Ok (Some q) -> decode_loop (Datatypes.S n) default_ent (mode a) (String c rest) = Ok (Some (String c q)).
Proof.
  intros A C K L H. cbn [decode_loop]. rewrite A, H. cbn [andb orb]. assert (M : (mode a =c "%") = false) by by destruct a. rewrite M, andb_false_r.
  destruct a; [|done]. cbn [mode]. change (SPACE =c SPACE) with true. cbn [orb andb]. destruct (is_space c) eqn:S; [|done].
  destruct (L eq_refl) as [L1 L2]. unfold keeps in K. cbn in K. clear -S L1 L2 C K. destruct c as [[] [] [] [] [] [] [] []]; vm_compute in *; congruence.
Qed.

(** The text written for a character is read in at most two turns. *)
Definition out_of (a : bool) (c : ascii) : string :=
  (if c =c "&" then "&amp;" else if c =c "<" then "&lt;" else if c =c ">" then "&gt;" else if c =c DQUOTE then if a then "&quot;" else String DQUOTE EmptyString
   else if c =c LF then if a then "&#xA;" else String LF EmptyString else if c =c TAB then if a then "&#x9;" else String TAB EmptyString
   else if c =c CR then "&#xD;" else String c EmptyString)%string.
Lemma decode_out a n c rest q : keeps a c = true -> decode_loop n default_ent (mode a) rest = Ok (Some q) ->
  decode_loop (Datatypes.S (Datatypes.S n)) default_ent (mode a) (out_of a c +:+ rest) = Ok (Some (String c q)).
Proof.
  intros K H. pose proof (decode_more _ _ _ _ _ H) as H1. unfold out_of.
  assert (E : forall name value d code, value = String "&" (String "#" code) -> find_entity default_ent (name +:+ rest) = Some value ->
    next_is (name +:+ rest) "#" = false -> snd (split_at_char ";" (String "&" (name +:+ rest))) = Some rest ->
    char_ref (code +:+ rest) = Some (String d EmptyString, rest) ->
    decode_loop (Datatypes.S (Datatypes.S n)) default_ent (mode a) (String "&" (name +:+ rest)) = Ok (Some (String d q))).
  { intros name value d code -> F N S C. apply (decode_ent _ _ _ (String "&" (String "#" code))); [done|done|done|done|]. exact (decode_ref _ _ _ _ _ _ C H). }
  assert (R : forall code d, char_ref (code +:+ rest) = Some (String d EmptyString, rest) ->
    decode_loop (Datatypes.S (Datatypes.S n)) default_ent (mode a) (String "&" (String "#" (code +:+ rest))) = Ok (Some (String d q))).
  { intros code d C. exact (decode_ref _ _ _ _ _ _ C H1). }
  destruct (Ascii.eqb_spec c "&") as [->|A]; [apply (E "amp;"%string "&#38;"%string "&"%char "38;"%string); by destruct rest|].
  destruct (Ascii.eqb_spec c "<") as [->|]; [apply (E "lt;"%string "&#60;"%string "<"%char "60;"%string); by destruct rest|].
  destruct (Ascii.eqb_spec c ">") as [->|]; [apply (E "gt;"%string "&#62;"%string ">"%char "62;"%string); by destruct rest|].
  assert (P : (c =c CR) = false -> (a = true -> (c =c LF) = false /\ (c =c TAB) = false) ->
    decode_loop (Datatypes.S (Datatypes.S n)) default_ent (mode a) (String c EmptyString +:+ rest) = Ok (Some (String c q))).
  { intros C L. apply decode_plain; [by apply Ascii.eqb_neq|exact C|exact K|exact L|exact H1]. }
  destruct (Ascii.eqb_spec c DQUOTE) as [->|].
  { destruct a; [apply (E "quot;"%string "&#34;"%string DQUOTE "34;"%string); by destruct rest|by apply P]. }
  destruct (Ascii.eqb_spec c LF) as [->|]; [destruct a; [apply (R "xA;"%string); by destruct rest|by apply P]|].
  destruct (Ascii.eqb_spec c TAB) as [->|]; [destruct a; [apply (R "x9;"%string); by destruct rest|by apply P]|].
  destruct (Ascii.eqb_spec c CR) as [->|]; [apply (R "xD;"%string); by destruct rest|]. by apply P.
Qed.

(** ** The whole text *)

(** No carriage return is written. *)
Lemma out_no_cr a c : strchr (out_of a c) CR = false.
Proof.
  unfold out_of. repeat (case_match; try reflexivity). cbn [strchr]. by rewrite orb_false_r.
Qed.
Lemma amp_plain a c r : no_bang (String c r) = true -> amp_from false a (AmpState false 0 0) (String c r) None =
  out_of a c +:+ amp_from false a (AmpState false 0 0) r None.
Proof.
  cbn [no_bang]. intros [B _]%andb_true_iff. destruct (plain_step a c r) as (out & E & ->).
  { destruct (Ascii.eqb_spec c "<"); [left|by right]. destruct (next_is r "!"); [done|reflexivity]. }
  cbn [amp_from]. by rewrite E.
Qed.
Lemma amp_no_cr a s : no_bang s = true -> strchr (amp_from false a (AmpState false 0 0) s None) CR = false.
Proof.
  induction s as [|c r IH]; intros B; [done|]. rewrite (amp_plain _ _ _ B), strchr_app, out_no_cr. apply IH. by apply andb_true_iff in B as [_ B].
Qed.
Lemma norm_lines_id n : forall s, strchr s CR = false -> norm_lines n s = Ok s.
Proof.
  induction n as [|n IH]; intros s H; [done|]. destruct s as [|c s]; [done|]. cbn [strchr] in H. apply orb_false_iff in H as [H1 H2].
  cbn [norm_lines]. rewrite H1, (IH _ H2). done.
Qed.
Lemma decode_amp a s : no_bang s = true -> Forall (fun c => keeps a c = true) (list_ascii_of_string s) ->
  decode_loop (2 * String.length s + 1) default_ent (mode a) (amp_from false a (AmpState false 0 0) s None) = Ok (Some s).
Proof.
  induction s as [|c r IH]; intros B K; [by destruct a|]. rewrite (amp_plain _ _ _ B). apply andb_true_iff in B as [_ B].
  cbn [list_ascii_of_string] in K. apply Forall_cons in K as [K1 K2].
  replace (2 * String.length (String c r) + 1)%nat with (Datatypes.S (Datatypes.S (2 * String.length r + 1))) by (cbn [String.length]; lia).
  apply decode_out; [exact K1|]. by apply IH.
Qed.

(** C28. The text of a tag ([a] false) or of an attribute ([a] true) that [switch_xml_ampencode] writes where [char] has no
    sign, as on the ARM target, is read back by
    [switch_xml_decode] as it was, with two turns for a character: the marks, quotes, line ends and tabs that were
    encoded as entities and references, and every other byte; for texts without [<!] (see [immune_injects]), and in attributes without
    vertical tabs and form feeds, which the decoder takes for spaces. *)
Theorem xml_text_roundtrip a s n : no_bang s = true -> Forall (fun c => keeps a c = true) (list_ascii_of_string s) ->
  (2 * String.length s + 1 <= n)%nat ->
  switch_xml_decode n (switch_xml_ampencode false (Some s) 0 EmptyString a) default_ent (mode a) = Ok (Some s).
Proof.
  intros B K N. unfold switch_xml_decode, switch_xml_ampencode. change (0 =? 0) with true. cbv iota. rewrite sapp_empty.
  rewrite norm_lines_id by by apply amp_no_cr. rewrite (decode_mono _ _ _ _ _ _ N (decode_amp _ _ B K)). by destruct a.
Qed.
Lemma xml_text_roundtrip_witness : let s := (String CR "a<b & c" +:+ String TAB "x>y")%string in
  switch_xml_decode 40 (switch_xml_ampencode false (Some s) 0 EmptyString true) default_ent (mode true) = Ok (Some s).
Proof. cbv zeta. apply (xml_text_roundtrip true); [reflexivity|by repeat constructor|vm_compute; lia]. Defined.

(** ** Findings *)

(** A text that ends in a carriage return is normalized past its terminator. *)
Example trailing_cr n ent t : switch_xml_decode n (String "x" (String CR EmptyString)) ent t = UB.
Proof. reflexivity. Qed.
(** The character behind a carriage return is passed without a look: of two lines ends with something between both are found,
    and a line feed behind the pair too. *)
Example crlf_normalized : norm_lines 6 (String "a" (String CR (String LF (String "b" EmptyString)))) = Ok (String "a" (String LF (String "b" EmptyString))).
Proof. reflexivity. Qed.
(** The spaces of attributes that are not texts are normalized past the terminator, unless one space ends the text. *)
Example spaces_run_on n ent : switch_xml_decode n "" ent "*" = if (n =? 0)%nat then Ok None else Ok (Some ""%string).
Proof. by destruct n. Qed.
Example word_runs_on : switch_xml_decode 9 "word" default_ent "*" = UB /\ switch_xml_decode 9 "word " default_ent "*" = Ok (Some "word"%string).
Proof. split; reflexivity. Qed.
(** Behind [<!] nothing is encoded: what an attribute is set to can close it and the tag, and add tags. *)
Example immune_injects : switch_xml_ampencode false (Some "<!> & <b/>"%string) 0 EmptyString true = "<!> & <b/>"%string.
Proof. reflexivity. Qed.
(** Where [char] has a sign a text outside ASCII is written as references; without one its bytes stay. *)
Example signed_references : switch_xml_ampencode true (Some (String (chr 0xC3) (String (chr 0xA9) EmptyString))) 0 EmptyString true = "&#xE9;"%string.
Proof. reflexivity. Qed.
Example unsigned_bytes : switch_xml_ampencode false (Some (String (chr 0xC3) (String (chr 0xA9) EmptyString))) 0 EmptyString true =
  String (chr 0xC3) (String (chr 0xA9) EmptyString).
Proof. reflexivity. Qed.
(** A character that ends early takes the one behind it with it. *)
Example short_character : switch_xml_ampencode true (Some (String (chr 0xC3) "xy"%string)) 0 EmptyString false = "y"%string.
Proof. reflexivity. Qed.
(** An entity without a value makes the copy too small. *)
Example empty_entity n q : decode_loop (Datatypes.S n) [("a;", "")]%string "&" ("&a;" +:+ q) = UB.
Proof. by destruct q. Qed.
(** A declaration that refers to itself through another one is refused. *)
Example circle_refused : switch_xml_ent_ok 20 "b;" "x&a;" (("a;", "&b;") :: default_ent)%string = Some false /\
  switch_xml_ent_ok 20 "b;" "x&a;&lt;" (("a;", "&#98;") :: default_ent)%string = Some true.
Proof. split; reflexivity. Qed.
(** An entity that refers to itself, where it was not refused, is never read to its end. *)
Theorem circular_entity n t q : t = "&"%char \/ t = SPACE -> decode_loop n [("a;", "&a;")]%string t ("&a;" +:+ q) = Ok None.
Proof.
  intros T. revert q. induction n as [|n IH]; intros q; [done|].
  assert (E : decode_loop (Datatypes.S n) [("a;", "&a;")]%string t ("&a;" +:+ q) = decode_loop n [("a;", "&a;")]%string t ("&a;" +:+ q)).
  { destruct T as [->| ->]; by destruct q. }
  rewrite E. apply IH.
Qed.
