(* ===== verification/XmlTree.v ===== *)
(** * Trees of XML tags (src/switch_xml.c)

    Tags are nodes of a store and point to each other.  The tags of one parent are chained three times: all of them in
    the order of the text ([xordered], from [xchild] of the parent), those of one name ([xnext]), and the first of
    every name ([xsibling]).  [UB] stands for the use of a pointer to no tag, and for a loop that does not end: the
    turns given are more than there are tags. *)
From stdpp Require Import gmap strings.
From Stdlib Require Import String Ascii.
From S2P Require Import Prelude CStrings.
Open Scope Z_scope.
#[local] Notation length := List.length (only parsing).

(** [struct switch_xml]: attributes with their values; which texts were allocated is left out. *)
Record tag := Tag {
  xname : string; xattr : list (string * string); xtxt : string; xoff : Z;
  xnext : option nat; xsibling : option nat; xordered : option nat; xchild : option nat; xparent : option nat
}.
#[export] Instance eta_tag : Eta tag := fun t =>
  Tag (xname t) (xattr t) (xtxt t) (xoff t) (xnext t) (xsibling t) (xordered t) (xchild t) (xparent t).
Notation store := (gmap nat tag).

Definition new_tag (name : string) (off : Z) : tag := Tag name [] EmptyString off None None None None None.

(** The tag behind a pointer, and a write to a field of it. *)
Definition deref (m : store) (x : nat) : outcome tag := match m !! x with Some t => Ok t | None => UB end.
Notation write f v x m := (alter (fun t => t <| f := v |>) x m).
Definition turns (m : store) : nat := Datatypes.S (size m).

(** ** Looking up *)

(** [while (cur && stop fails) { prev = cur; cur = cur->link; }]. *)
Fixpoint seek (n : nat) (m : store) (link : tag -> option nat) (stop : tag -> bool) (cur prev : option nat) : outcome (option nat * option nat) :=
  match n, cur with
  | O, _ => UB
  | _, None => Ok (None, prev)
  | Datatypes.S n, Some x => let* t := deref m x in if stop t then Ok (cur, prev) else seek n m link stop (link t) cur
  end.
(** [while (cur->link && go holds for it) cur = cur->link;]. *)
Fixpoint advance (n : nat) (m : store) (link : tag -> option nat) (go : nat -> tag -> bool) (cur : nat) : outcome nat :=
  match n with
  | O => UB
  | Datatypes.S n =>
    let* t := deref m cur in
    match link t with
    | None => Ok cur
    | Some y => let* u := deref m y in if go y u then advance n m link go y else Ok cur
    end
  end.

Definition switch_xml_child (m : store) (xml : option nat) (name : string) : outcome (option nat) :=
  match xml with
  | None => Ok None
  | Some x => let* t := deref m x in let* r := seek (turns m) m xsibling (fun u => String.eqb name (xname u)) (xchild t) None in Ok (fst r)
  end.
Fixpoint switch_xml_idx (m : store) (xml : option nat) (idx : nat) : outcome (option nat) :=
  match xml, idx with
  | Some x, Datatypes.S idx => let* t := deref m x in switch_xml_idx m (xnext t) idx
  | _, _ => Ok xml
  end.

(** The default attributes of a tree: for the names of tags, attributes with their values. *)
Definition defaults := list (string * list (string * option string)).
Fixpoint assoc {A} (name : string) (l : list (string * A)) : option A :=
  match l with [] => None | (k, v) :: l => if String.eqb name k then Some v else assoc name l end.
Fixpoint root_of (n : nat) (m : store) (x : nat) : outcome nat :=
  match n with
  | O => UB
  | Datatypes.S n => let* t := deref m x in match xparent t with None => Ok x | Some p => root_of n m p end
  end.
(** [dtd]: the defaults of the roots that have some. *)
Definition switch_xml_attr (m : store) (dtd : nat -> option defaults) (xml : option nat) (attr : string) : outcome (option string) :=
  match xml with
  | None => Ok None
  | Some x =>
    let* t := deref m x in
    match assoc attr (xattr t) with
    | Some v => Ok (Some v)
    | None =>
      let* r := root_of (turns m) m x in
      match dtd r with
      | None => Ok None
      | Some d => match assoc (xname t) d with None => Ok None | Some l => Ok (default None (assoc attr l)) end
      end
    end
  end.
Definition switch_xml_attr_soft (m : store) (dtd : nat -> option defaults) (xml : option nat) (attr : string) : outcome string :=
  let* r := switch_xml_attr m dtd xml attr in Ok (default EmptyString r).

(** Of the tags chained by name the first where one of the attributes fits. *)
Fixpoint find_from (n : nat) (m : store) (fits : nat -> outcome bool) (p : option nat) : outcome (option nat) :=
  match n, p with
  | O, _ => UB
  | _, None => Ok None
  | Datatypes.S n, Some x => let* f := fits x in if (f : bool) then Ok p else let* t := deref m x in find_from n m fits (xnext t)
  end.
Definition switch_xml_find_child (m : store) (dtd : nat -> option defaults) (node : option nat) (childname attrname value : option string) : outcome (option nat) :=
  match childname, attrname, value with
  | Some c, Some a, Some v =>
    let* p := switch_xml_child m node c in
    find_from (turns m) m (fun x => let* aname := switch_xml_attr m dtd (Some x) a in
                                    Ok (match aname with Some s => strcaseeq s v | None => false end)) p
  | _, _, _ => Ok node
  end.
(** An exclamation mark before the value: another value. *)
Definition value_fits (aname val : string) : bool :=
  match val with String c sval => if Ascii.eqb c "!" then negb (strcaseeq aname sval) else strcaseeq aname val | EmptyString => strcaseeq aname val end.
Fixpoint any_fits (m : store) (dtd : nat -> option defaults) (x : nat) (conds : list (string * string)) : outcome bool :=
  match conds with
  | [] => Ok false
  | (name, val) :: conds =>
    let* aname := switch_xml_attr m dtd (Some x) name in
    if match aname with Some s => value_fits s val | None => false end then Ok true else any_fits m dtd x conds
  end.
(** The arguments: pairs of a name and a value up to the first that is null, 255 at most. *)
Definition switch_xml_find_child_multi (m : store) (dtd : nat -> option defaults) (node : option nat) (childname : option string)
    (conds : list (string * string)) : outcome (option nat) :=
  let conds := take 255 conds in
  match childname, conds with
  | Some c, _ :: _ => let* p := switch_xml_child m node c in find_from (turns m) m (fun x => any_fits m dtd x conds) p
  | _, _ => Ok node
  end.
(** A path: names with the number of the tag among those of its name; it ends with a null or empty name, or with a
    negative number. *)
Fixpoint switch_xml_get (m : store) (xml : option nat) (path : list (option string * Z)) : outcome (option nat) :=
  match path with
  | (Some (String _ _ as name), idx) :: path =>
    let* c := switch_xml_child m xml name in
    if idx <? 0 then Ok c else let* c := switch_xml_idx m c (Z.to_nat idx) in switch_xml_get m c path
  | _ => Ok xml
  end.

(** ** Changing *)

(** The place in the order of the text. *)
Definition place_ordered (m : store) (xml dest head : nat) (off : Z) : outcome store :=
  let* h := deref m head in
  if xoff h <=? off then
    let* cur := advance (turns m) m xordered (fun _ u => xoff u <=? off) head in
    let* c := deref m cur in
    Ok (write xordered (Some xml) cur (write xordered (xordered c) xml m))
  else Ok (write xchild (Some xml) dest (write xordered (Some head) xml m)).
(** The place among the tags of its name, and among the first ones. *)
Definition place_typed (m : store) (xml head : nat) (off : Z) : outcome store :=
  let* x := deref m xml in
  let* (cur, prev) := seek (turns m) m xsibling (fun u => String.eqb (xname u) (xname x)) (Some head) None in
  let* early := match cur with Some c => let* c := deref m c in Ok (xoff c <=? off) | None => Ok false end in
  match early, cur with
  | true, Some c =>
    let* c := advance (turns m) m xnext (fun _ u => xoff u <=? off) c in
    let* t := deref m c in
    Ok (write xnext (Some xml) c (write xnext (xnext t) xml m))
  | _, _ =>
    let* m := match prev, cur with Some p, Some c => let* t := deref m c in Ok (write xsibling (xsibling t) p m) | _, _ => Ok m end in
    let m := write xnext cur xml m in
    let* (cur, prev) := seek (turns m) m xsibling (fun u => off <? xoff u) (Some head) None in
    let m := write xsibling cur xml m in
    Ok match prev with Some p => write xsibling (Some xml) p m | None => m end
  end.
Definition switch_xml_insert (m : store) (xml dest : nat) (off : Z) : outcome store :=
  let* _ := deref m xml in
  let m := alter (fun t => t <| xnext := None |> <| xsibling := None |> <| xordered := None |> <| xoff := off |> <| xparent := Some dest |>) xml m in
  let* d := deref m dest in
  match xchild d with
  | Some head => let* m := place_ordered m xml dest head off in place_typed m xml head off
  | None => Ok (write xchild (Some xml) dest m)
  end.
(** [fresh]: where the new tag is. *)
Definition switch_xml_add_child (m : store) (xml : option nat) (name : string) (off : Z) (fresh : nat) : outcome (store * option nat) :=
  match xml with
  | None => Ok (m, None)
  | Some x => let* m := switch_xml_insert (<[fresh := new_tag name off]> m) fresh x off in Ok (m, Some fresh)
  end.
Definition switch_xml_set_txt (m : store) (xml : option nat) (txt : string) : outcome store :=
  match xml with None => Ok m | Some x => let* _ := deref m x in Ok (write xtxt txt x m) end.
(** The attributes with a new value for the first of that name. *)
Fixpoint set_value (name value : string) (l : list (string * string)) : list (string * string) :=
  match l with
  | [] => [(name, value)]
  | (k, v) :: l => if String.eqb k name then (k, value) :: l else (k, v) :: set_value name value l
  end.
(** Taking an attribute out moves two pointers more than the array has, and uses the second of them. *)
Definition switch_xml_set_attr (m : store) (xml : option nat) (name : string) (value : option string) : outcome store :=
  match xml with
  | None => Ok m
  | Some x =>
    let* t := deref m x in
    match value, assoc name (xattr t) with
    | None, None => Ok m
    | None, Some _ => UB
    | Some v, _ => Ok (write xattr (set_value name v (xattr t)) x m)
    end
  end.

(** Out of the chain of its name and of the first ones; [head]: the first tag of the parent. *)
Definition cut_typed (m : store) (xml head : nat) : outcome store :=
  let* x := deref m xml in
  let* h := deref m head in
  let* (m, cur) :=
    (if String.eqb (xname h) (xname x) then Ok (m, head)
     else
       let* cur := advance (turns m) m xsibling (fun _ u => negb (String.eqb (xname u) (xname x))) head in
       let* c := deref m cur in
       match xsibling c with
       | None => UB
       | Some s =>
         if decide (s = xml) then
           Ok (write xsibling (match xnext x with Some y => Some y | None => xsibling x end) cur m, cur)
         else Ok (m, s)
       end) in
  let* cur := advance (turns m) m xnext (fun y _ => negb (bool_decide (y = xml))) cur in
  let* c := deref m cur in
  match xnext c with
  | None => Ok m
  | Some y => let* y := deref m y in Ok (write xnext (xnext y) cur m)
  end.
Definition switch_xml_cut (m : store) (xml : option nat) : outcome store :=
  match xml with
  | None => Ok m
  | Some x =>
    let* t := deref m x in
    let* m := match xnext t with Some y => let* _ := deref m y in Ok (write xsibling (xsibling t) y m) | None => Ok m end in
    let* m :=
      match xparent t with
      | None => Ok m
      | Some p =>
        let* pt := deref m p in
        match xchild pt with
        | None => UB
        | Some head =>
          if decide (head = x) then Ok (write xchild (xordered t) p m)
          else
            let* cur := advance (turns m) m xordered (fun y _ => negb (bool_decide (y = x))) head in
            let* c := deref m cur in
            match xordered c with
            | None => UB
            | Some _ => let m := write xordered (xordered t) cur m in cut_typed m x head
            end
        end
      end in
    Ok (alter (fun t => t <| xordered := None |> <| xsibling := None |> <| xnext := None |>) x m)
  end.
(** Macros of the header. *)
Definition switch_xml_move (m : store) (xml dest : nat) (off : Z) : outcome store :=
  let* m := switch_xml_cut m (Some xml) in switch_xml_insert m xml dest off.
