(* ===== verification/XmlChains.v ===== *)
(** * Chains of XML tags

    What the loops over the tags of one parent find, and what a write to a link makes of a chain.  [linked] is the
    shape of the tags of a parent: [L] is their order in the text, [F] holds the first tag of every name. *)
From stdpp Require Import gmap strings sorting.
From Stdlib Require Import String Ascii.
From S2P Require Import Prelude CStrings XmlTree.
Open Scope Z_scope.
#[local] Notation length := List.length (only parsing).

(** ** Fields *)

Definition rd {A} (p : tag -> A) (m : store) (x : nat) : option A := p <$> m !! x.
Lemma rd_other {A} (p : tag -> A) g x m y : (forall t, p (g t) = p t) -> rd p (alter g x m) y = rd p m y.
Proof. intros H. unfold rd. destruct (decide (x = y)) as [->|N]; [rewrite lookup_alter_eq|by rewrite lookup_alter_ne]. destruct (m !! y); [|done]. cbn. by rewrite H. Qed.
Lemma rd_ne {A} (p : tag -> A) g x m y : x <> y -> rd p (alter g x m) y = rd p m y.
Proof. intros H. unfold rd. by rewrite lookup_alter_ne. Qed.
Lemma rd_eq {A} (p : tag -> A) (v : A) g x m : (forall t, p (g t) = v) -> is_Some (m !! x) -> rd p (alter g x m) x = Some v.
Proof. intros H [t E]. unfold rd. rewrite lookup_alter_eq, E. cbn. by rewrite H. Qed.
Lemma rd_some {A} (p : tag -> A) m x : is_Some (rd p m x) <-> is_Some (m !! x).
Proof. apply fmap_is_Some. Qed.
Lemma rd_tag {A} (p : tag -> A) m x v : rd p m x = Some v -> exists t, m !! x = Some t /\ p t = v.
Proof. unfold rd. intros H%fmap_Some. naive_solver. Qed.
Lemma some_alter g x m y : is_Some ((alter g x m : store) !! y) <-> is_Some (m !! y).
Proof. destruct (decide (x = y)) as [->|N]; [rewrite lookup_alter_eq; apply fmap_is_Some|by rewrite lookup_alter_ne]. Qed.

Lemma rd_next v x m : is_Some ((m : store) !! x) -> rd xnext (write xnext v x m) x = Some v.
Proof. by apply rd_eq. Qed.
Lemma rd_sibling v x m : is_Some ((m : store) !! x) -> rd xsibling (write xsibling v x m) x = Some v.
Proof. by apply rd_eq. Qed.
Lemma rd_ordered v x m : is_Some ((m : store) !! x) -> rd xordered (write xordered v x m) x = Some v.
Proof. by apply rd_eq. Qed.
Lemma rd_child v x m : is_Some ((m : store) !! x) -> rd xchild (write xchild v x m) x = Some v.
Proof. by apply rd_eq. Qed.

(** [rdw] reads through writes to other fields, to other tags and to the field that is read. *)
Ltac rdw := repeat first [rewrite rd_other by reflexivity | rewrite rd_ne by (first [done | congruence])
  | rewrite rd_next by (rewrite ?some_alter; done) | rewrite rd_sibling by (rewrite ?some_alter; done)
  | rewrite rd_ordered by (rewrite ?some_alter; done) | rewrite rd_child by (rewrite ?some_alter; done)].

(** ** Chains *)

Fixpoint chain (m : store) (link : tag -> option nat) (l : list nat) : Prop :=
  match l with [] => True | x :: r => rd link m x = Some (head r) /\ chain m link r end.
Lemma chain_agree m m' link l : (forall x, x ∈ l -> rd link m' x = rd link m x) -> chain m link l -> chain m' link l.
Proof.
  induction l as [|x l IH]; intros A C; [done|]. destruct C as [C1 C2]. split; [rewrite A by set_solver; done|]. apply IH; [|done]. intros; apply A; set_solver.
Qed.
Lemma chain_tail m link l1 l2 : chain m link (l1 ++ l2) -> chain m link l2.
Proof. induction l1 as [|x l IH]; [done|]. intros [_ C]. by apply IH. Qed.
Lemma chain_last m link l1 l2 y : chain m link (l1 ++ l2) -> last l1 = Some y -> rd link m y = Some (head l2).
Proof.
  induction l1 as [|x [|z l] IH]; intros C L; [done| |].
  - injection L as ->. by destruct C.
  - destruct C as [_ C]. by apply IH.
Qed.
Lemma chain_in m link l x : chain m link l -> x ∈ l -> is_Some (m !! x).
Proof. induction l as [|y l IH]; [set_solver|]. intros [C1 C2] [->|I]%elem_of_cons; [apply (rd_some link); by rewrite C1|by apply IH]. Qed.
Lemma chain_splice m m' link l1 l2 k : chain m link (l1 ++ l2) -> NoDup l1 -> (forall z, z ∈ l1 -> last l1 <> Some z -> rd link m' z = rd link m z) ->
  (forall y, last l1 = Some y -> rd link m' y = Some (head k)) -> chain m' link k -> chain m' link (l1 ++ k).
Proof.
  induction l1 as [|x [|z l] IH]; intros C N A L K; [done| |].
  - split; [by apply L|done].
  - destruct C as [C1 C2]. apply NoDup_cons in N as [N1 N2]. split.
    + rewrite A; [done|set_solver|]. intros E. apply N1. change (last (z :: l) = Some x) in E. by apply last_Some_elem_of in E.
    + apply IH; [done|done| |exact L|exact K]. intros y I E. apply A; [set_solver|exact E].
Qed.
Lemma chain_size m link l : chain m link l -> NoDup l -> (List.length l <= size m)%nat.
Proof.
  intros C N. rewrite <- (size_list_to_set (C := gset nat) l N), <- size_dom. apply subseteq_size. intros x I%elem_of_list_to_set.
  apply elem_of_dom. by apply (chain_in _ _ _ _ C).
Qed.

(** ** Loops *)

Definition stop_holds (m : store) (f : tag -> bool) (x : nat) : Prop := exists t, m !! x = Some t /\ f t = true.
Definition stop_fails (m : store) (f : tag -> bool) (x : nat) : Prop := exists t, m !! x = Some t /\ f t = false.
Definition at_head (P : nat -> Prop) (l : list nat) : Prop := match l with [] => True | x :: _ => P x end.
Definition last_or (prev : option nat) (l : list nat) : option nat := match last l with Some p => Some p | None => prev end.

Lemma seek_chain m link stop l2 : forall l1 n prev, chain m link (l1 ++ l2) -> Forall (stop_fails m stop) l1 -> at_head (stop_holds m stop) l2 -> (List.length l1 < n)%nat ->
  seek n m link stop (head (l1 ++ l2)) prev = Ok (head l2, last_or prev l1).
Proof.
  induction l1 as [|x l1 IH]; intros n prev C F H N; (destruct n as [|n]; [cbn in N; lia|]).
  - destruct l2 as [|y l2]; [done|]. cbn in H |- *. destruct H as (t & E & S). unfold deref. by rewrite E, S.
  - destruct C as [C1 C2]. apply Forall_cons in F as [(t & E & S) F2]. apply rd_tag in C1 as (t' & E' & L). rewrite E in E'. injection E' as <-.
    cbn [seek app head]. unfold deref. rewrite E, S, L, IH by (try done; cbn in N; lia). do 2 f_equal. unfold last_or. rewrite last_cons. by destruct (last l1).
Qed.
Lemma advance_chain m link go l2 r : forall l1 n x, chain m link (x :: l1 ++ l2) ->
  Forall (fun y => exists t, m !! y = Some t /\ go y t = true) l1 -> at_head (fun y => exists t, m !! y = Some t /\ go y t = false) l2 ->
  (List.length l1 < n)%nat -> last (x :: l1) = Some r -> advance n m link go x = Ok r.
Proof.
  induction l1 as [|y l1 IH]; intros n x [C1 C2] F H N R; (destruct n as [|n]; [cbn in N; lia|]); cbn [advance]; unfold deref.
  - apply rd_tag in C1 as (t & E & L). rewrite E, L. injection R as <-. destruct l2 as [|y l2]; [done|]. cbn in H |- *. destruct H as (u & E' & G). by rewrite E', G.
  - apply rd_tag in C1 as (t & E & L). rewrite E, L. cbn [app head]. apply Forall_cons in F as [(u & E' & G) F]. rewrite E', G.
    apply IH; [exact C2|done|done|cbn in N; lia|exact R].
Qed.
(** Where a test first holds. *)
Lemma split_at (P : nat -> Prop) `{!forall x, Decision (P x)} (l : list nat) : exists l1 l2, l = l1 ++ l2 /\ Forall (fun x => ~ P x) l1 /\ at_head P l2.
Proof.
  induction l as [|x l (l1 & l2 & -> & F & A)]; [by exists [], []|]. destruct (decide (P x)); [by exists [], (x :: l1 ++ l2)|].
  exists (x :: l1), l2. split_and!; [done|by constructor|done].
Qed.
