(* ===== verification/XmlLinks.v ===== *)
(** * The shape of the tags of one parent

    [linked]: the three chains of the tags of a parent.  The lemmas say what [place_ordered] and [place_typed] make
    of each. *)
From stdpp Require Import gmap strings sorting.
From Stdlib Require Import String Ascii.
From S2P Require Import Prelude CStrings XmlTree XmlChains.
Open Scope Z_scope.
#[local] Notation length := List.length (only parsing).

(** The tags of a name. *)
Definition named (m : store) (nm : string) (L : list nat) : list nat := filter (fun x => rd xname m x = Some nm) L.
Definition firsts (m : store) (L F : list nat) : Prop := forall x, x ∈ F <-> exists nm, head (named m nm L) = Some x.
Definition off_at (m : store) (x : nat) : Z := default 0 (rd xoff m x).
Record linked (m : store) (dest : nat) (L F : list nat) : Prop := {
  linked_child : rd xchild m dest = Some (head L);
  linked_ordered : chain m xordered L;
  linked_next : forall nm, chain m xnext (named m nm L);
  linked_sibling : chain m xsibling F;
  linked_head : head F = head L;
  linked_nodup : NoDup L;
  linked_nodup_firsts : NoDup F;
  linked_firsts : firsts m L F;
  linked_parent : forall x, x ∈ L -> rd xparent m x = Some (Some dest);
  linked_dest : dest ∉ L
}.

(** ** Names *)

Lemma named_app m nm l1 l2 : named m nm (l1 ++ l2) = named m nm l1 ++ named m nm l2.
Proof. apply filter_app. Qed.
Lemma named_cons m nm x l : named m nm (x :: l) = if decide (rd xname m x = Some nm) then x :: named m nm l else named m nm l.
Proof. unfold named. by rewrite filter_cons. Qed.
Lemma named_same m m' nm l : (forall x, x ∈ l -> rd xname m' x = rd xname m x) -> named m' nm l = named m nm l.
Proof. intros E. induction l as [|x l IH]; [done|]. rewrite !named_cons, E, IH by set_solver. done. Qed.
Lemma in_named m nm L x : x ∈ named m nm L <-> rd xname m x = Some nm /\ x ∈ L.
Proof. unfold named. by rewrite list_elem_of_filter. Qed.
Lemma head_in {A} (l : list A) x : head l = Some x -> x ∈ l.
Proof. destruct l; [done|]. intros [= ->]. set_solver. Qed.
Lemma head_named m nm L x : head (named m nm L) = Some x -> rd xname m x = Some nm /\ x ∈ L.
Proof. intros H%head_in. by apply in_named. Qed.
Lemma firsts_in m L F x : firsts m L F -> x ∈ F -> x ∈ L.
Proof. intros H [nm E]%H. by apply head_named in E as [_ E]. Qed.
Lemma firsts_name m L F nm x : firsts m L F -> rd xname m x = Some nm -> x ∈ F <-> head (named m nm L) = Some x.
Proof.
  intros H N. rewrite (H x). split; [|by exists nm]. intros [nm' E]. assert (nm = nm') as ->; [|done].
  apply head_named in E as [E _]. congruence.
Qed.
Lemma named_nodup m nm L : NoDup L -> NoDup (named m nm L).
Proof. apply NoDup_filter. Qed.

Lemma linked_frame m m' dest L F : (forall x, x ∈ dest :: L -> m' !! x = m !! x) -> linked m dest L F -> linked m' dest L F.
Proof.
  intros E [C O N S H ND NF FI P D].
  assert (R : forall A (p : tag -> A) x, x ∈ dest :: L -> rd p m' x = rd p m x) by (intros; unfold rd; by rewrite E).
  assert (NM : forall nm, named m' nm L = named m nm L) by (intros nm; apply named_same; intros; apply R; set_solver).
  assert (IF : forall x, x ∈ F -> x ∈ L) by (intros x; by apply (firsts_in m)).
  split; try done.
  - rewrite R; [done|set_solver].
  - apply (chain_agree m); [intros; apply R; set_solver|done].
  - intros nm. rewrite NM. apply (chain_agree m); [|apply N]. intros x [_ I]%in_named. apply R. set_solver.
  - apply (chain_agree m); [|done]. intros x I. apply R. set_solver.
  - intros x. rewrite (FI x). by setoid_rewrite NM.
  - intros x I. rewrite R; [by apply P|set_solver].
Qed.

(** ** The order of the text *)

Section Ordered.
Context (m : store) (xml dest h : nat) (o : Z) (L1 L2 : list nat).
Context (C : rd xchild m dest = Some (Some h)) (O : chain m xordered (L1 ++ L2)) (H : head (L1 ++ L2) = Some h) (ND : NoDup (L1 ++ L2)).
Context (B1 : Forall (fun x => off_at m x <= o) L1) (B2 : at_head (fun x => o < off_at m x) L2) (A : forall x, x ∈ L1 ++ L2 -> is_Some (rd xoff m x)).
Context (X : xml ∉ L1 ++ L2) (XD : xml <> dest) (SX : is_Some (m !! xml)).

Lemma tag_off x : x ∈ L1 ++ L2 -> exists t, m !! x = Some t /\ xoff t = off_at m x.
Proof using A. intros I. destruct (A x I) as [v E]. unfold off_at. rewrite E. by apply rd_tag. Qed.
Lemma place_ordered_exact : exists m', place_ordered m xml dest h o = Ok m' /\ chain m' xordered (L1 ++ xml :: L2) /\
  rd xchild m' dest = Some (head (L1 ++ xml :: L2)) /\ (forall y, rd xname m' y = rd xname m y /\ rd xoff m' y = rd xoff m y /\
    rd xnext m' y = rd xnext m y /\ rd xsibling m' y = rd xsibling m y /\ rd xparent m' y = rd xparent m y).
Proof using All.
  pose proof tag_off as T. unfold place_ordered. assert (Hin : h ∈ L1 ++ L2) by by apply head_in. destruct (T h Hin) as (t & E & V).
  unfold deref. rewrite E, V. destruct L1 as [|x l] eqn:EL.
  - cbn in H. destruct L2 as [|z l2]; [done|]. injection H as ->. cbn in B2. rewrite (proj2 (Z.leb_gt _ _)) by done.
    eexists. split; [done|]. split; [|split].
    + cbn [app]. split; [rdw; done|]. apply (chain_agree m); [|exact O]. intros y I. assert (xml <> y) by (intros ->; done). rdw. done.
    + rewrite rd_child; [done|]. apply some_alter, (rd_some xchild). by rewrite C.
    + intros y. rdw. done.
  - injection H as ->. pose proof B1 as [Bh _]%Forall_cons. rewrite (proj2 (Z.leb_le _ _)) by done.
    destruct (last (h :: l)) as [c|] eqn:EC; [|by rewrite last_cons in EC; destruct (last l)].
    assert (Ic : c ∈ h :: l) by by apply last_Some_elem_of. assert (xml <> c) by (intros ->; set_solver).
    rewrite (advance_chain m xordered _ L2 c l); [|exact O| | | |exact EC].
    + destruct (m !! c) as [tc|] eqn:Ec; [|by destruct (T c ltac:(set_solver)) as (? & ? & _); congruence].
      pose proof (chain_last _ _ _ _ _ O EC) as LC. apply rd_tag in LC as (t' & E' & LC). rewrite Ec in E'. injection E' as <-. rewrite LC.
      eexists. split; [done|]. split; [|split].
      * apply (chain_splice m _ _ _ L2); [done|by apply NoDup_app in ND as [ND _]| | |].
        -- intros z Iz N. assert (xml <> z) by (intros ->; set_solver). assert (c <> z) by congruence. rdw. done.
        -- intros y Ey. assert (y = c) as -> by congruence. rewrite rd_ordered; [done|]. apply some_alter. by rewrite Ec.
        -- split; [rdw; done|]. apply (chain_agree m); [|by apply chain_tail in O]. intros y Iy.
           assert (xml <> y) by (intros ->; set_solver). assert (c <> y) by (apply NoDup_app in ND as (_ & ND & _); intros ->; set_solver). rdw. done.
      * rdw. done.
      * intros y. rdw. done.
    + apply Forall_cons in B1 as [_ B1]. rewrite Forall_forall in B1 |- *. intros y Iy. destruct (T y ltac:(set_solver)) as (u & Eu & Vu).
      exists u. split; [done|]. apply Z.leb_le. rewrite Vu. by apply B1.
    + destruct L2 as [|z l2]; [done|]. destruct (T z ltac:(set_solver)) as (u & Eu & Vu). exists u. split; [done|]. apply Z.leb_gt. by rewrite Vu.
    + unfold turns. pose proof (chain_size _ _ _ O ND) as CS. rewrite length_app in CS. cbn in CS. lia.
Qed.
End Ordered.

(** ** Names and first tags *)

Definition kept_by_typed (m m' : store) : Prop := forall y, rd xname m' y = rd xname m y /\ rd xoff m' y = rd xoff m y /\
  rd xordered m' y = rd xordered m y /\ rd xchild m' y = rd xchild m y /\ rd xparent m' y = rd xparent m y.

Section Typed.
Context (m : store) (xml h : nat) (n : string) (o : Z) (L1 L2 F : list nat).
#[local] Notation L := (L1 ++ L2).
#[local] Notation L' := (L1 ++ xml :: L2).
Context (N : forall nm, chain m xnext (named m nm L)) (SB : chain m xsibling F) (H : head L = Some h) (HF : head F = Some h).
Context (ND : NoDup L) (NF : NoDup F) (FI : firsts m L F).
Context (B1 : Forall (fun x => off_at m x <= o) L1) (B2 : Forall (fun x => o < off_at m x) L2) (A : forall x, x ∈ L -> is_Some (rd xoff m x)).
Context (X : xml ∉ L) (XN : rd xname m xml = Some n).

Lemma some_xml : is_Some (m !! xml).
Proof using XN. apply (rd_some xname). by rewrite XN. Qed.
Lemma some_in x : x ∈ L -> is_Some (m !! x).
Proof using A. intros I. apply (rd_some xoff). by apply A. Qed.
Lemma xml_not_first : xml ∉ F.
Proof using X FI. intros I. apply X. by apply (firsts_in m _ F). Qed.
Lemma name_of x : x ∈ L -> exists t, m !! x = Some t /\ rd xname m x = Some (xname t) /\ xoff t = off_at m x.
Proof using A. intros I. destruct (tag_off m L1 L2 A x I) as (t & E & V). exists t. split_and!; [done| |done]. unfold rd. by rewrite E. Qed.
(** The tags of a name with the new one. *)
Lemma named_with m' nm : (forall y, rd xname m' y = rd xname m y) -> named m' nm L' =
  named m nm L1 ++ (if decide (nm = n) then [xml] else []) ++ named m nm L2.
Proof using XN.
  intros E. rewrite (named_same m m') by by intros; apply E. rewrite named_app, named_cons, XN. destruct (decide (Some n = Some nm)) as [[= ->]|D].
  - by rewrite decide_True.
  - rewrite decide_False; [done|congruence].
Qed.
Lemma named_other_chain m' nm : nm <> n -> (forall y, rd xname m' y = rd xname m y) -> (forall y, y ∈ named m nm L -> rd xnext m' y = rd xnext m y) ->
  chain m' xnext (named m' nm L').
Proof using XN N.
  intros D E R. rewrite named_with, decide_False by done. cbn [app]. rewrite <- named_app. by apply (chain_agree m).
Qed.

(** Behind the first of its name. *)
Lemma typed_later g : head (named m n L) = Some g -> off_at m g <= o -> exists m' c,
  advance (turns m) m xnext (fun _ u => xoff u <=? o) g = Ok c /\
  (let* t := deref m c in Ok (write xnext (Some xml) c (write xnext (xnext t) xml m))) = Ok m' /\
  (forall nm, chain m' xnext (named m' nm L')) /\ chain m' xsibling F /\ firsts m' L' F /\ kept_by_typed m m'.
Proof using All.
  pose proof some_xml as SX. pose proof some_in as SI. pose proof name_of as NO. intros G V.
  pose proof (head_named _ _ _ _ G) as [GN GI]. rewrite named_app in G.
  assert (B2' : forall x, x ∈ named m n L2 -> o < off_at m x) by (intros x [_ I]%in_named; rewrite Forall_forall in B2; by apply B2).
  assert (B1' : forall x, x ∈ named m n L1 -> off_at m x <= o) by (intros x [_ I]%in_named; rewrite Forall_forall in B1; by apply B1).
  destruct (named m n L1) as [|g' l] eqn:E1.
  { cbn in G. apply head_in in G. specialize (B2' g G). lia. }
  injection G as ->. destruct (last (g :: l)) as [c|] eqn:EC; [|by rewrite last_cons in EC; destruct (last l)].
  assert (Ic : c ∈ g :: l) by by apply last_Some_elem_of. assert (IcL : rd xname m c = Some n /\ c ∈ L1) by (apply in_named; by rewrite E1).
  destruct IcL as [cn cL]. assert (xml <> c) by (intros ->; set_solver).
  pose proof (N n) as CN. rewrite named_app, E1 in CN. pose proof (named_nodup m n _ ND) as NN. rewrite named_app, E1 in NN.
  assert (IN : forall x, x ∈ (g :: l) ++ named m n L2 -> rd xname m x = Some n /\ x ∈ L) by (intros x I; apply in_named; by rewrite named_app, E1).
  destruct (SI c ltac:(set_solver)) as [tc Ec]. pose proof (chain_last _ _ _ _ _ CN EC) as LC.
  apply rd_tag in LC as (t' & E' & LC). rewrite Ec in E'. injection E' as <-.
  exists (write xnext (Some xml) c (write xnext (xnext tc) xml m)), c. split; [|split; [|split; [|split; [|split]]]].
  - apply (advance_chain m xnext _ (named m n L2) c l); [exact CN| | | |exact EC].
    + rewrite Forall_forall. intros y Iy. destruct (NO y) as (u & Eu & _ & Vu); [apply (IN y); set_solver|]. exists u. split; [done|]. rewrite Vu. apply Z.leb_le, B1'. set_solver.
    + destruct (named m n L2) as [|z l2]; [done|]. destruct (NO z) as (u & Eu & _ & Vu); [apply (IN z); set_solver|].
      exists u. split; [done|]. rewrite Vu. apply Z.leb_gt, B2'. set_solver.
    + unfold turns. pose proof (chain_size _ _ _ CN NN) as CS. rewrite length_app in CS. cbn in CS. lia.
  - unfold deref. by rewrite Ec.
  - intros nm. destruct (decide (nm = n)) as [->|D].
    + rewrite named_with, decide_True by (intros; by rdw). rewrite E1. cbn [app]. apply (chain_splice m _ _ (g :: l) (named m n L2)); [done|by apply NoDup_app in NN as [NN _]| | |].
      * intros z Iz NZ. assert (xml <> z) by (intros ->; apply X; apply (IN z); set_solver). assert (c <> z) by congruence. by rdw.
      * intros y Ey. assert (y = c) as -> by congruence. rewrite rd_next; [done|]. apply some_alter. by rewrite Ec.
      * split; [rewrite LC; by rdw|]. apply (chain_agree m); [|by apply chain_tail in CN]. intros y Iy.
        assert (xml <> y) by (intros ->; apply X; apply (IN y); set_solver). assert (c <> y) by (apply NoDup_app in NN as (_ & NN & _); intros ->; set_solver). by rdw.
    + apply named_other_chain; [done|intros; by rdw|]. intros y [Ny Iy]%in_named. assert (xml <> y) by (intros ->; done). assert (c <> y) by congruence. by rdw.
  - apply (chain_agree m); [intros; by rdw|done].
  - intros x. rewrite (FI x). split; intros [nm E]; exists nm.
    + rewrite named_with by (intros; by rdw). rewrite named_app in E. destruct (decide (nm = n)) as [->|]; [|done]. rewrite E1 in *. done.
    + rewrite named_with in E by (intros; by rdw). rewrite named_app. destruct (decide (nm = n)) as [->|]; [|done]. rewrite E1 in *. done.
  - intros y. by rdw.
Qed.

(** Where the name is among the first tags. *)
Lemma split_name : exists Fa Fb, F = Fa ++ Fb /\ Forall (fun x => rd xname m x <> Some n) Fa /\ head Fb = head (named m n L).
Proof using All.
  destruct (split_at (fun x => rd xname m x = Some n) F) as (Fa & Fb & E & FA & FB). exists Fa, Fb.
  assert (HB : head Fb = head (named m n L)).
  { destruct Fb as [|g r].
    - destruct (head (named m n L)) as [g|] eqn:G; [|done]. exfalso. pose proof (head_named _ _ _ _ G) as [GN _].
      apply (firsts_name m _ F n g FI GN) in G. rewrite E, app_nil_r in G. rewrite Forall_forall in FA. by apply (FA g).
    - symmetry. apply (firsts_name m _ F n g FI FB). rewrite E. set_solver. }
  done.
Qed.
Lemma seek_name Fa Fb : F = Fa ++ Fb -> Forall (fun x => rd xname m x <> Some n) Fa -> head Fb = head (named m n L) ->
  seek (turns m) m xsibling (fun u => String.eqb (xname u) n) (Some h) None = Ok (head Fb, last Fa).
Proof using All.
  intros E FA HB. rewrite <- HF. rewrite E in *. rewrite (seek_chain m xsibling _ Fb Fa); [unfold last_or; by destruct (last Fa)|exact SB| | |].
  - rewrite Forall_forall in FA |- *. intros x I. destruct (name_of x) as (t & Et & Nt & _); [apply (firsts_in m _ _ _ FI); set_solver|].
    exists t. split; [done|]. apply String.eqb_neq. intros E'. apply (FA x I). by rewrite Nt, E'.
  - destruct Fb as [|g r]; [done|]. symmetry in HB. pose proof (head_named _ _ _ _ HB) as [GN GI]. destruct (name_of g GI) as (t & Et & Nt & _).
    exists t. split; [done|]. apply String.eqb_eq. congruence.
  - unfold turns. pose proof (chain_size _ _ _ SB NF) as CS. rewrite length_app in CS. lia.
Qed.
(** The first of its name: another one that was first is taken from the first tags, which the new one joins. *)
Context (EARLY : forall g, head (named m n L) = Some g -> o < off_at m g /\ g <> h).

Lemma none_before : named m n L1 = [].
Proof using All.
  destruct (named m n L1) as [|g l] eqn:E; [done|]. exfalso. destruct (EARLY g) as [V _]; [by rewrite named_app, E|].
  assert (I : g ∈ named m n L1) by (rewrite E; set_solver). apply in_named in I as [_ I]. rewrite Forall_forall in B1. specialize (B1 g I). cbn in B1. lia.
Qed.
Lemma not_head Fa Fb : F = Fa ++ Fb -> head Fb = head (named m n L) -> Fb <> [] -> Fa <> [].
Proof using All.
  intros E HB NB ->. destruct Fb as [|g r]; [done|]. cbn in HB. symmetry in HB. destruct (EARLY g HB) as [_ G]. rewrite E in HF. cbn in HF. congruence.
Qed.
(** The old first tag is taken out. *)
Lemma remove_first Fa Fb : F = Fa ++ Fb -> (Fb <> [] -> Fa <> []) -> exists m',
  match last Fa, head Fb with Some p, Some c => let* t := deref m c in Ok (write xsibling (xsibling t) p m) | _, _ => Ok m end = Ok m' /\
  chain m' xsibling (Fa ++ tail Fb) /\ kept_by_typed m m' /\ (forall y, rd xnext m' y = rd xnext m y).
Proof using All.
  intros E NE. rewrite E in *. destruct Fb as [|g r]; [exists m; destruct (last Fa); split_and!; done|].
  destruct (last Fa) as [p|] eqn:EP; [|by apply last_None in EP as ->; destruct NE].
  pose proof (chain_tail _ _ _ _ SB) as [G SR]. apply rd_tag in G as (t & Et & Gt). cbn [head]. unfold deref. rewrite Et, Gt.
  assert (Ip : p ∈ Fa) by by apply last_Some_elem_of. apply NoDup_app in NF as (NA & NAB & NB). eexists. split; [done|]. split_and!; [|intros y; split_and!; by rdw|intros y; by rdw].
  apply (chain_splice m _ _ Fa (g :: r)); [done|done| | |].
  - intros z _ NZ. assert (p <> z) by congruence. by rdw.
  - intros y Ey. assert (y = p) as -> by congruence. apply rd_sibling. apply some_in. apply (firsts_in m _ _ _ FI). set_solver.
  - apply (chain_agree m); [|done]. intros y Iy. assert (p <> y) by (intros ->; apply (NAB y Ip); set_solver). by rdw.
Qed.

(** The new one joins the first tags. *)
Definition join_first (m : store) (cur : option nat) : outcome store :=
  let m := write xnext cur xml m in
  let* (cur, prev) := seek (turns m) m xsibling (fun u => o <? xoff u) (Some h) None in
  let m := write xsibling cur xml m in
  Ok match prev with Some p => write xsibling (Some xml) p m | None => m end.
Lemma join_first_exact m1 cur F1 : chain m1 xsibling F1 -> head F1 = Some h -> NoDup F1 -> (forall x, x ∈ F1 -> x ∈ L) -> kept_by_typed m m1 ->
  exists Fc Fd m', F1 = Fc ++ Fd /\ join_first m1 cur = Ok m' /\ chain m' xsibling (Fc ++ xml :: Fd) /\ kept_by_typed m m' /\
    rd xnext m' xml = Some cur /\ (forall y, y <> xml -> rd xnext m' y = rd xnext m1 y) /\ head (Fc ++ xml :: Fd) = head L'.
Proof using All.
  intros C HF1 N1 IL K. destruct (split_at (fun x => o < off_at m x) F1) as (Fc & Fd & -> & FC & FD). exists Fc, Fd.
  assert (SX : is_Some (m1 !! xml)) by (apply (rd_some xname); destruct (K xml) as [-> _]; by rewrite XN).
  assert (TO : forall x, x ∈ Fc ++ Fd -> exists t, m1 !! x = Some t /\ xoff t = off_at m x /\ x <> xml).
  { intros x I. destruct (K x) as (_ & E & _). destruct (A x (IL x I)) as [v V]. rewrite V in E. apply rd_tag in E as (t & Et & Vt).
    exists t. split_and!; [done|unfold off_at; by rewrite V|intros ->; by apply X, IL]. }
  assert (CB : chain (write xnext cur xml m1) xsibling (Fc ++ Fd)) by (apply (chain_agree m1); [intros; by rdw|done]).
  assert (W : forall (f : tag -> bool) x b, x ∈ Fc ++ Fd -> (forall t, m1 !! x = Some t -> f t = b) -> exists t, (write xnext cur xml m1 : store) !! x = Some t /\ f t = b).
  { intros f x b I E. destruct (TO x I) as (t & Et & _ & NX). exists t. rewrite lookup_alter_ne by done. auto. }
  assert (S : seek (turns (write xnext cur xml m1)) (write xnext cur xml m1) xsibling (fun u => o <? xoff u) (Some h) None = Ok (head Fd, last Fc)).
  { rewrite <- HF1. rewrite (seek_chain _ xsibling _ Fd Fc); [unfold last_or; by destruct (last Fc)|exact CB| | |].
    - rewrite Forall_forall in FC |- *. intros x I. apply W; [set_solver|]. intros t Et. destruct (TO x ltac:(set_solver)) as (t' & Et' & V & _).
      assert (t' = t) as -> by congruence. apply Z.ltb_ge. rewrite V. specialize (FC x I). lia.
    - destruct Fd as [|x r]; [done|]. apply W; [set_solver|]. intros t Et. destruct (TO x ltac:(set_solver)) as (t' & Et' & V & _).
      assert (t' = t) as -> by congruence. apply Z.ltb_lt. by rewrite V.
    - unfold turns. pose proof (chain_size _ _ _ CB N1) as CS. rewrite length_app in CS. lia. }
  unfold join_first. rewrite S. eexists. split; [done|]. split; [reflexivity|]. pose proof N1 as (NC & NCD & _)%NoDup_app. split_and!.
  - apply (chain_splice m1 _ _ Fc Fd); [done|done| | |].
    + intros z Iz NZ. destruct (TO z ltac:(set_solver)) as (_ & _ & _ & NX). destruct (last Fc) as [p|]; [assert (p <> z) by congruence|]; by rdw.
    + intros y Ey. rewrite Ey. assert (Iy : y ∈ Fc) by by apply last_Some_elem_of. destruct (TO y ltac:(set_solver)) as (t & Et & _).
      apply rd_sibling. rewrite !some_alter. by rewrite Et.
    + assert (NL : forall y, y ∈ xml :: Fd -> last Fc <> Some y).
      { intros y Iy E%last_Some_elem_of. apply elem_of_cons in Iy as [->|Iy]; [by destruct (TO xml ltac:(set_solver)) as (_ & _ & _ & ?)|by apply (NCD y)]. }
      assert (D : chain (write xsibling (head Fd) xml (write xnext cur xml m1)) xsibling (xml :: Fd)).
      { split; [apply rd_sibling; by rewrite some_alter|]. apply (chain_agree m1); [|by apply chain_tail in C]. intros y Iy.
        destruct (TO y ltac:(set_solver)) as (_ & _ & _ & NX). by rdw. }
      destruct (last Fc) as [p|]; [|done]. apply (chain_agree _ _ _ _ ltac:(intros y Iy; assert (p <> y) by (intros ->; by apply (NL y)); by rewrite rd_ne) D).
  - intros y. destruct (K y) as (K1 & K2 & K3 & K4 & K5). destruct (last Fc); by rdw.
  - assert (E : rd xnext (write xnext cur xml m1) xml = Some cur) by by apply rd_next. destruct (last Fc); by rewrite !rd_other by reflexivity.
  - intros y NX. destruct (last Fc); by rdw.
  - assert (HH : forall x, x ∈ L1 -> off_at m x <= o) by by rewrite Forall_forall in B1. destruct Fc as [|c r].
    + cbn in HF1 |- *. destruct L1 as [|x l]; [done|]. cbn in H. injection H as ->. destruct Fd as [|y r]; [done|]. injection HF1 as ->. cbn in FD.
      specialize (HH h ltac:(set_solver)). lia.
    + cbn in HF1 |- *. injection HF1 as ->. destruct L1 as [|x l]; [|cbn in H |- *; congruence]. exfalso. apply Forall_cons in FC as [FC _].
      cbn in H. rewrite Forall_forall in B2. destruct (FC (B2 h ltac:(by apply head_in))).
Qed.
Lemma typed_first : exists m' F' cur prev, seek (turns m) m xsibling (fun u => String.eqb (xname u) n) (Some h) None = Ok (cur, prev) /\
  cur = head (named m n L) /\
  (let* m := match prev, cur with Some p, Some c => let* t := deref m c in Ok (write xsibling (xsibling t) p m) | _, _ => Ok m end in join_first m cur) = Ok m' /\
  (forall nm, chain m' xnext (named m' nm L')) /\ chain m' xsibling F' /\ head F' = head L' /\ NoDup F' /\ firsts m' L' F' /\ kept_by_typed m m'.
Proof using All.
  destruct split_name as (Fa & Fb & E & FA & HB). pose proof (not_head Fa Fb E HB) as NE. pose proof (seek_name Fa Fb E FA HB) as S.
  destruct (remove_first Fa Fb E NE) as (m1 & E1 & C1 & K1 & X1).
  assert (IF : forall x, x ∈ Fa ++ tail Fb -> x ∈ F) by (intros x I; rewrite E; destruct Fb; set_solver).
  assert (N1 : NoDup (Fa ++ tail Fb)).
  { rewrite E in NF. destruct Fb as [|g r]; [done|]. apply NoDup_app in NF as (P1 & P2 & P3). apply NoDup_cons in P3 as [_ P3]. apply NoDup_app. split_and!; [done| |done].
    intros x Ix Ir. apply (P2 x Ix). set_solver. }
  assert (H1 : head (Fa ++ tail Fb) = Some h) by (destruct Fa as [|a Fa]; [destruct Fb; [by rewrite E in HF|by destruct NE]|by rewrite E in HF]).
  destruct (join_first_exact m1 (head Fb) _ C1 H1 N1 ltac:(intros x I; apply (firsts_in m _ _ _ FI), IF, I) K1) as (Fc & Fd & m2 & EF & J & C2 & K2 & X2 & X3 & H2).
  assert (NB := none_before). exists m2, (Fc ++ xml :: Fd), (head Fb), (last Fa). split_and!; [done|done|by rewrite E1| | |done| | |done].
  - intros nm. destruct (decide (nm = n)) as [->|D].
    + rewrite named_with, decide_True by (done || intros; by apply K2). rewrite NB. cbn [app].
      pose proof (N n) as CN. rewrite named_app, NB in CN. split; [rewrite X2, HB, named_app, NB; done|]. apply (chain_agree m); [|done].
      intros y Iy. rewrite X3, X1; [done|]. intros ->. apply X. apply in_named in Iy as [_ Iy]. set_solver.
    + apply named_other_chain; [done|by intros; apply K2|]. intros y [_ Iy]%in_named. rewrite X3, X1; [done|]. by intros ->.
  - done.
  - rewrite EF in N1. apply NoDup_app in N1 as (P1 & P2 & P3). pose proof xml_not_first as XF. apply NoDup_app. split_and!; [done| |].
    + intros x Ix [->|Ir]%elem_of_cons; [|by apply (P2 x)]. apply XF, IF. rewrite EF. set_solver.
    + apply NoDup_cons. split; [|done]. intros Ir. apply XF, IF. rewrite EF. set_solver.
  - assert (WN : forall nm, head (named m2 nm L') = if decide (nm = n) then Some xml else head (named m nm L)).
    { intros nm. rewrite named_with by (intros; by apply K2). case_decide as D; [by rewrite D, NB|]. by rewrite named_app. }
    assert (XM : forall x, x ∈ Fc ++ xml :: Fd <-> x = xml \/ x ∈ Fa ++ tail Fb) by (intros x; rewrite EF; set_solver).
    intros x. rewrite XM. split.
    + intros [->|I]; [exists n; by rewrite WN, decide_True|]. destruct (proj1 (FI x) (IF x I)) as [nm Ex]. exists nm. rewrite WN.
      destruct (decide (nm = n)) as [->|]; [|done]. exfalso. rewrite <- HB in Ex. destruct Fb as [|g r]; [done|]. injection Ex as ->.
      rewrite E in NF. apply NoDup_app in NF as (_ & P2 & P3). apply NoDup_cons in P3 as [P3 _]. cbn [tail] in I. apply elem_of_app in I as [I|I]; [apply (P2 x I); set_solver|done].
    + intros [nm Ex]. rewrite WN in Ex. destruct (decide (nm = n)) as [->|D]; [left; congruence|]. right.
      assert (I : x ∈ F) by (apply FI; by exists nm). rewrite E in I. destruct Fb as [|g r]; [done|]. apply elem_of_app in I as [I|[->|I]%elem_of_cons]; [set_solver| |set_solver].
      exfalso. apply D. symmetry in HB. cbn in HB. apply head_named in HB as [? _], Ex as [? _]. congruence.
Qed.
End Typed.

(** Both together. *)
Lemma place_typed_exact m xml h n o L1 L2 F : (forall nm, chain m xnext (named m nm (L1 ++ L2))) -> chain m xsibling F -> head (L1 ++ L2) = Some h ->
  head F = Some h -> NoDup (L1 ++ L2) -> NoDup F -> firsts m (L1 ++ L2) F -> Forall (fun x => off_at m x <= o) L1 -> Forall (fun x => o < off_at m x) L2 ->
  (forall x, x ∈ L1 ++ L2 -> is_Some (rd xoff m x)) -> xml ∉ L1 ++ L2 -> rd xname m xml = Some n -> (rd xname m h = Some n -> off_at m h <= o) ->
  exists m' F', place_typed m xml h o = Ok m' /\ (forall nm, chain m' xnext (named m' nm (L1 ++ xml :: L2))) /\ chain m' xsibling F' /\
    head F' = head (L1 ++ xml :: L2) /\ NoDup F' /\ firsts m' (L1 ++ xml :: L2) F' /\ kept_by_typed m m'.
Proof.
  intros N SB H HF ND NF FI B1 B2 A X XN CL. destruct (rd_tag _ _ _ _ XN) as (tx & Ex & Vx). unfold place_typed. unfold deref at 1. rewrite Ex, Vx.
  destruct (head (named m n (L1 ++ L2))) as [g|] eqn:G; [destruct (decide (off_at m g <= o)) as [V|V]|].
  - destruct (split_name m xml h n o L1 L2 F N SB H HF ND NF FI B1 B2 A X XN) as (Fa & Fb & E & FA & HB).
    rewrite (seek_name m xml h n o L1 L2 F N SB H HF ND NF FI B1 B2 A X XN Fa Fb E FA HB). rewrite HB, G. pose proof (head_named _ _ _ _ G) as [_ GI].
    destruct (tag_off m L1 L2 A g GI) as (tg & Eg & Vg). unfold deref at 1. rewrite Eg, Vg, (proj2 (Z.leb_le _ _) V).
    destruct (typed_later m xml h n o L1 L2 F N SB H HF ND NF FI B1 B2 A X XN g G V) as (m' & c & W & W2 & P1 & P2 & P3 & P4).
    exists m', F. rewrite W, W2. split_and!; try done. rewrite HF. destruct L1 as [|x l]; [|done].
    exfalso. rewrite Forall_forall in B2. specialize (B2 g GI). lia.
  - destruct (typed_first m xml h n o L1 L2 F N SB H HF ND NF FI B1 B2 A X XN) as (m' & F' & cur & prev & -> & EC & W & P1 & P2 & P3 & P4 & P5 & P6).
    { intros g' [= <-]%(eq_trans (eq_sym G)). split; [lia|]. intros ->. apply V, CL. by apply head_named in G as [? _]. }
    rewrite G in EC. rewrite EC in W |- *. destruct (tag_off m L1 L2 A g) as (tg & Eg & Vg); [by apply head_named in G as [_ ?]|].
    unfold deref at 1. rewrite Eg, Vg, (proj2 (Z.leb_gt _ _)) by lia. exists m', F'. by split_and!.
  - destruct (typed_first m xml h n o L1 L2 F N SB H HF ND NF FI B1 B2 A X XN) as (m' & F' & cur & prev & -> & EC & W & P1 & P2 & P3 & P4 & P5 & P6).
    { by rewrite G. }
    rewrite G in EC. rewrite EC in W |- *. exists m', F'. by split_and!.
Qed.

(** ** A tree *)

(** Three tags of two names. *)
Definition shelf : store := {[ 0%nat := Tag "root" [] "" 0 None None None (Some 1%nat) None;
  1%nat := Tag "a" [("id", "x")] "" 0 (Some 3%nat) (Some 2%nat) (Some 2%nat) None (Some 0%nat);
  2%nat := Tag "b" [] "" 1 None None (Some 3%nat) None (Some 0%nat);
  3%nat := Tag "a" [("id", "Y")] "" 2 None None None None (Some 0%nat) ]}%string.
Lemma shelf_named nm : named shelf nm [1; 2; 3]%nat = if decide (nm = "a"%string) then [1; 3]%nat else if decide (nm = "b"%string) then [2]%nat else [].
Proof.
  rewrite !named_cons. change (rd xname shelf 1%nat) with (Some "a"%string). change (rd xname shelf 2%nat) with (Some "b"%string).
  change (rd xname shelf 3%nat) with (Some "a"%string). repeat case_decide; simplify_eq; done.
Qed.
Lemma shelf_linked : linked shelf 0 [1; 2; 3]%nat [1; 2]%nat.
Proof.
  split; try (vm_compute; repeat split; done); try (repeat constructor; set_solver).
  - intros nm. rewrite shelf_named. repeat case_decide; vm_compute; done.
  - intros x. setoid_rewrite shelf_named. split.
    + intros [->|[->|?]%elem_of_cons]%elem_of_cons; [by exists "a"%string|by exists "b"%string|set_solver].
    + intros [nm E]. repeat case_decide; simplify_eq/=; set_solver.
Qed.
