(* ===== verification/XmlCuts.v ===== *)
(** * Tags that are taken out of the chains

    What [cut_typed] and the rest of [switch_xml_cut] make of the chains of a parent. *)
From stdpp Require Import gmap strings.
From Stdlib Require Import String Ascii.
From S2P Require Import Prelude CStrings XmlTree XmlChains XmlLinks.
Open Scope Z_scope.
#[local] Notation length := List.length (only parsing).

(** The first tags behind [x]: the next one of its name takes its place. *)
Definition heir (G2 Fb : list nat) : list nat := match G2 with y :: _ => y :: Fb | [] => Fb end.

Section Cut.
Context (m : store) (x h : nat) (n : string) (L1 L2 F : list nat).
#[local] Notation L := (L1 ++ x :: L2).
#[local] Notation G := (named m n L1).
#[local] Notation G2 := (named m n L2).
Context (N : forall nm, chain m xnext (named m nm L))
  (ND : NoDup L) (NF : NoDup F) (FI : firsts m L F) (XN : rd xname m x = Some n).

Lemma named_cut nm : named m nm L = named m nm L1 ++ (if decide (nm = n) then [x] else []) ++ named m nm L2.
Proof using XN.
  rewrite named_app, named_cons, XN. destruct (decide (Some n = Some nm)) as [[= ->]|D]; [by rewrite decide_True|rewrite decide_False; [done|congruence]].
Qed.
Lemma own_names : named m n L = G ++ x :: G2.
Proof using XN. by rewrite named_cut, decide_True. Qed.
Lemma next_of_x : rd xnext m x = Some (head G2).
Proof using N XN. pose proof (N n) as C. rewrite own_names in C. apply chain_tail in C. by destruct C. Qed.
Lemma own_nodup : NoDup (G ++ x :: G2).
Proof using ND XN. rewrite <- own_names. by apply named_nodup. Qed.

(** ** The first tags without [x] *)

Lemma firsts_later m' f l : (forall y, rd xname m' y = rd xname m y) -> G = f :: l -> firsts m' (L1 ++ L2) F.
Proof using All.
  intros R E y. rewrite (FI y). assert (K : forall nm, head (named m' nm (L1 ++ L2)) = head (named m nm L)).
  { intros nm. rewrite (named_same m m') by by intros. rewrite named_cut, named_app. destruct (decide (nm = n)) as [->|]; [by rewrite E|done]. }
  by setoid_rewrite K.
Qed.
Lemma heir_in y Fb : y ∈ heir G2 Fb <-> head G2 = Some y \/ y ∈ Fb.
Proof using All. destruct G2 as [|z r]; cbn; [naive_solver|]. rewrite elem_of_cons. naive_solver. Qed.
Lemma heir_not_first y : head G2 = Some y -> y ∉ F.
Proof using All.
  intros Hy I. pose proof own_nodup as NN. pose proof (head_named _ _ _ _ Hy) as [Ny _]. apply (firsts_name m _ F n y FI Ny), eq_sym in I.
  rewrite own_names in I. apply head_in in Hy. apply NoDup_app in NN as (_ & P2 & P3). apply NoDup_cons in P3 as [P3 _].
  destruct G as [|g r]; [injection I as ->; done|]. injection I as ->. apply (P2 g); set_solver.
Qed.
Lemma first_here Fa Fb : F = Fa ++ x :: Fb -> G = [].
Proof using All.
  intros E. assert (I : x ∈ F) by (rewrite E; set_solver). apply (firsts_name m _ F n x FI XN) in I. rewrite own_names in I.
  pose proof own_nodup as NN. destruct G as [|g r]; [done|]. injection I as ->. apply NoDup_app in NN as (_ & NN & _). destruct (NN x); set_solver.
Qed.
Lemma firsts_heir m' Fa Fb : (forall y, rd xname m' y = rd xname m y) -> F = Fa ++ x :: Fb -> firsts m' (L1 ++ L2) (Fa ++ heir G2 Fb) /\ NoDup (Fa ++ heir G2 Fb).
Proof using All.
  intros R E. pose proof (first_here _ _ E) as EG.
  assert (K : forall nm, head (named m' nm (L1 ++ L2)) = if decide (nm = n) then head G2 else head (named m nm L)).
  { intros nm. rewrite (named_same m m') by by intros. rewrite named_cut, named_app. destruct (decide (nm = n)) as [->|]; [by rewrite EG|done]. }
  assert (HX : head (named m n L) = Some x) by by rewrite own_names, EG.
  assert (NX : forall y, y ∈ Fa \/ y ∈ Fb <-> y ∈ F /\ y <> x).
  { intros y. rewrite E in NF |- *. apply NoDup_app in NF as (P1 & P2 & P3). apply NoDup_cons in P3 as [P3 P4]. split; [|set_solver].
    intros [I|I]; (split; [set_solver|intros ->]); [apply (P2 x I); set_solver|done]. }
  pose proof heir_not_first as YX.
  split.
  - intros y. rewrite elem_of_app, heir_in. setoid_rewrite K. split.
    + intros [I|[I|I]]; [|exists n; by rewrite decide_True|]; destruct (proj1 (NX y) ltac:(auto)) as [IF D]; destruct (proj1 (FI y) IF) as [nm Ey];
        (exists nm; rewrite decide_False; [done|intros ->; congruence]).
    + intros [nm Ey]. destruct (decide (nm = n)) as [->|D]; [auto|]. assert (IF : y ∈ F) by (apply FI; by exists nm).
      assert (y <> x) by (intros ->; apply head_named in Ey as [Ey _]; congruence). destruct (proj2 (NX y) ltac:(auto)); auto.
  - pose proof NF as ND'. rewrite E in ND'. apply NoDup_app in ND' as (P1 & P2 & P3). apply NoDup_cons in P3 as [P3 P4]. apply NoDup_app. split_and!; [done| |].
    + intros y Ia [Hy|Ib]%heir_in; [|apply (P2 y Ia); set_solver]. apply (YX y Hy). rewrite E. set_solver.
    + destruct G2 as [|z r]; [done|]. cbn. apply NoDup_cons. split; [|done]. intros I. apply (YX z eq_refl). rewrite E. set_solver.
Qed.
Lemma next_without m' nm : (forall y, rd xname m' y = rd xname m y) -> chain m' xnext (G ++ G2) -> (forall y, rd xname m y <> Some n -> rd xnext m' y = rd xnext m y) ->
  chain m' xnext (named m' nm (L1 ++ L2)).
Proof using All.
  intros R C K. rewrite (named_same m m') by by intros. rewrite named_app. destruct (decide (nm = n)) as [->|D]; [done|].
  pose proof (N nm) as CN. rewrite named_cut, decide_False in CN by done. cbn [app] in CN. apply (chain_agree m); [|done].
  intros y Iy. apply K. rewrite <- named_app in Iy. apply in_named in Iy as [Ny _]. congruence.
Qed.

(** ** The links of [cut_typed] *)

Context (SB : chain m xsibling F) (HF : head F = Some h) (H : head L1 = Some h).
(** From a tag of the name before [x] the link to it is found and taken over [x]. *)
Lemma unlink_next f l : G = f :: l -> exists m',
  (let* cur := advance (turns m) m xnext (fun y _ => negb (bool_decide (y = x))) f in let* c := deref m cur in
   match xnext c with None => Ok m | Some y => let* y := deref m y in Ok (write xnext (xnext y) cur m) end) = Ok m' /\
  chain m' xnext (G ++ G2) /\ (forall y, last G <> Some y -> rd xnext m' y = rd xnext m y) /\
  (forall y, rd xname m' y = rd xname m y /\ rd xoff m' y = rd xoff m y /\ rd xsibling m' y = rd xsibling m y /\
    rd xordered m' y = rd xordered m y /\ rd xchild m' y = rd xchild m y /\ rd xparent m' y = rd xparent m y).
Proof using All.
  intros EG. pose proof (N n) as C. rewrite own_names in C. pose proof own_nodup as NN. pose proof next_of_x as NX.
  destruct (last G) as [c|] eqn:EC; [|rewrite EG, last_cons in EC; by destruct (last l)].
  assert (Ic : c ∈ G) by by apply last_Some_elem_of. pose proof (chain_last _ _ _ _ _ C EC) as LC. apply rd_tag in LC as (tc & Ec & Vc). cbn in Vc.
  apply rd_tag in NX as (tx & Ex & Vx). apply NoDup_app in NN as (N1 & N12 & N2). apply NoDup_cons in N2 as [N2 _].
  rewrite (advance_chain m xnext _ (x :: G2) c l).
  - unfold deref. rewrite Ec, Vc, Ex, Vx. eexists. split; [done|]. split_and!.
    + apply (chain_splice m _ _ G (x :: G2)); [done|done| | |].
      * intros z _ NZ. assert (c <> z) by congruence. by rdw.
      * intros y Ey. assert (y = c) as -> by congruence. apply rd_next. by rewrite Ec.
      * apply (chain_agree m); [|by apply chain_tail in C as [_ C]]. intros y Iy. assert (c <> y) by (intros ->; apply (N12 y Ic); set_solver). by rdw.
    + intros y NY. assert (c <> y) by congruence. by rdw.
    + intros y. by rdw.
  - by rewrite EG in C.
  - rewrite Forall_forall. intros y Iy. assert (Iy' : y ∈ G ++ x :: G2) by (rewrite EG; set_solver). destruct (chain_in _ _ _ _ C Iy') as [u Eu].
    exists u. split; [done|]. apply negb_true_iff, bool_decide_eq_false. intros ->. apply (N12 x); [rewrite EG; set_solver|set_solver].
  - exists tx. split; [done|]. by rewrite bool_decide_true.
  - unfold turns. pose proof (chain_size _ _ _ C own_nodup) as CS. rewrite EG, length_app in CS. cbn in CS. lia.
  - by rewrite <- EG.
Qed.
(** From a tag of another name nothing is found. *)
Lemma unlink_nothing m0 c nm l : nm <> n -> named m nm L = c :: l -> (forall y, rd xnext m0 y = rd xnext m y) ->
  (let* cur := advance (turns m0) m0 xnext (fun y _ => negb (bool_decide (y = x))) c in let* c := deref m0 cur in
   match xnext c with None => Ok m0 | Some y => let* y := deref m0 y in Ok (write xnext (xnext y) cur m0) end) = Ok m0.
Proof using All.
  intros D E R. assert (C : chain m0 xnext ((c :: l) ++ [])) by (rewrite app_nil_r, <- E; by apply (chain_agree m)).
  assert (NN : NoDup (c :: l)) by (rewrite <- E; by apply named_nodup).
  destruct (last (c :: l)) as [e|] eqn:EE; [|rewrite last_cons in EE; by destruct (last l)].
  pose proof (chain_last _ _ _ _ _ C EE) as LE. apply rd_tag in LE as (te & Ee & Ve). cbn in Ve.
  rewrite (advance_chain m0 xnext _ [] e l); [unfold deref; by rewrite Ee, Ve|exact C| |done| |exact EE].
  - rewrite Forall_forall. intros y Iy. destruct (chain_in _ _ _ y C ltac:(set_solver)) as [u Eu]. exists u. split; [done|].
    apply negb_true_iff, bool_decide_eq_false. intros ->. assert (I : x ∈ named m nm L) by (rewrite E; set_solver). apply in_named in I as [I _]. congruence.
  - unfold turns. rewrite app_nil_r in C. pose proof (chain_size _ _ _ C NN) as CS. cbn in CS. lia.
Qed.
(** Where the name is among the first tags, if the first tag of all has another one. *)
Lemma find_first : rd xname m h <> Some n -> exists Fa f Fb c, F = Fa ++ f :: Fb /\ last Fa = Some c /\ head (named m n L) = Some f /\
  (exists nm, nm <> n /\ head (named m nm L) = Some c) /\
  advance (turns m) m xsibling (fun _ u => negb (String.eqb (xname u) n)) h = Ok c /\ rd xsibling m c = Some (Some f).
Proof using All.
  intros HN. destruct (split_at (fun y => rd xname m y = Some n) F) as (Fa & Fb & E & FA & FB).
  assert (HB : exists f r, Fb = f :: r /\ head (named m n L) = Some f).
  { rewrite own_names. destruct (head (G ++ x :: G2)) as [f|] eqn:EF; [|by destruct G]. rewrite <- own_names in EF. pose proof (head_named _ _ _ _ EF) as [NF' _].
    apply (firsts_name m _ F n f FI NF') in EF as I. rewrite E in I. apply elem_of_app in I as [I|I]; [rewrite Forall_forall in FA; by destruct (FA f I)|].
    destruct Fb as [|f' r]; [set_solver|]. exists f', r. split; [done|]. rewrite <- EF. apply (firsts_name m _ F n f' FI FB). rewrite E. set_solver. }
  destruct HB as (f & r & -> & HB). destruct Fa as [|h' l]; [rewrite E in HF; injection HF as ->; done|].
  assert (h' = h) as -> by (rewrite E in HF; by injection HF). destruct (last (h :: l)) as [c|] eqn:EC; [|rewrite last_cons in EC; by destruct (last l)].
  assert (Ic : c ∈ h :: l) by by apply last_Some_elem_of. exists (h :: l), f, r, c. split_and!; [done|done|done| | |].
  - assert (IF : c ∈ F) by (rewrite E; set_solver). apply FI in IF as [nm IF]. exists nm. split; [|done]. intros ->. apply head_named in IF as [IF _].
    rewrite Forall_forall in FA. by apply (FA c).
  - rewrite E in SB. apply (advance_chain m xsibling _ (f :: r) c l); [done| | | |done].
    + rewrite Forall_forall. intros y Iy. destruct (chain_in _ _ _ y SB ltac:(set_solver)) as [u Eu]. exists u. split; [done|].
      apply negb_true_iff, String.eqb_neq. intros EN. rewrite Forall_forall in FA. apply (FA y ltac:(set_solver)). unfold rd. rewrite Eu. cbn. by rewrite EN.
    + apply head_named in HB as [NB _]. apply rd_tag in NB as (u & Eu & Vu). exists u. split; [done|]. by rewrite Vu, String.eqb_refl.
    + unfold turns. rewrite E in NF. pose proof (chain_size _ _ _ SB NF) as CS. rewrite length_app in CS. cbn in CS. lia.
  - rewrite E in SB. by apply (chain_last _ _ _ _ _ SB EC).
Qed.

Context (SIB : forall y, head G2 = Some y -> rd xsibling m y = rd xsibling m x).
Definition kept_by_cut (m' : store) : Prop := forall y, rd xname m' y = rd xname m y /\ rd xoff m' y = rd xoff m y /\
    rd xordered m' y = rd xordered m y /\ rd xchild m' y = rd xchild m y /\ rd xparent m' y = rd xparent m y.
(** The first tags when the heir takes the place of [x]. *)
Lemma splice_heir Fa Fb c tx : F = Fa ++ x :: Fb -> last Fa = Some c -> m !! x = Some tx -> xnext tx = head G2 ->
  chain (write xsibling (match xnext tx with Some y => Some y | None => xsibling tx end) c m) xsibling (Fa ++ heir G2 Fb).
Proof using All.
  intros E EC Ex Vx. assert (SB' := SB). assert (NF' := NF). rewrite E in SB', NF'. apply NoDup_app in NF' as (P1 & P2 & P3). apply NoDup_cons in P3 as [_ P4].
  assert (Ic : c ∈ Fa) by by apply last_Some_elem_of. pose proof (chain_in _ _ _ c SB' ltac:(set_solver)) as SC.
  pose proof (chain_tail _ _ _ _ SB') as [XS CF]. assert (TS : xsibling tx = head Fb) by (unfold rd in XS; rewrite Ex in XS; by injection XS).
  apply (chain_splice m _ _ Fa (x :: Fb)); [done|done| | |].
  - intros z _ NZ. assert (c <> z) by congruence. by rdw.
  - intros y Ey. assert (y = c) as -> by congruence. rewrite rd_sibling by done. rewrite Vx, TS. by destruct G2.
  - assert (CB : chain (write xsibling (match xnext tx with Some y => Some y | None => xsibling tx end) c m) xsibling Fb).
    { apply (chain_agree m); [|done]. intros y Iy. assert (c <> y) by (intros ->; apply (P2 y Ic); set_solver). by rdw. }
    destruct G2 as [|y r] eqn:EG; [done|]. split; [|done]. destruct (firsts_heir m Fa Fb ltac:(done) E) as [_ ND']. rewrite EG in ND'.
    assert (c <> y) by (intros ->; apply NoDup_app in ND' as (_ & ND' & _); apply (ND' y Ic); set_solver). rdw. rewrite (SIB y eq_refl). done.
Qed.
Lemma cut_typed_exact : exists m' F', cut_typed m x h = Ok m' /\ kept_by_cut m' /\ (forall nm, chain m' xnext (named m' nm (L1 ++ L2))) /\
  chain m' xsibling F' /\ head F' = Some h /\ NoDup F' /\ firsts m' (L1 ++ L2) F'.
Proof using All.
  pose proof next_of_x as NX. apply rd_tag in NX as (tx & Ex & Vx). assert (NMX : xname tx = n) by (unfold rd in XN; rewrite Ex in XN; by injection XN).
  assert (HI : h ∈ F) by by apply head_in. assert (SH : is_Some (m !! h)) by by apply (chain_in _ _ _ _ SB). destruct SH as [th Eh].
  assert (LATER : forall f l, G = f :: l -> exists m' F', (let* cur := advance (turns m) m xnext (fun y _ => negb (bool_decide (y = x))) f in let* c := deref m cur in
     match xnext c with None => Ok m | Some y => let* y := deref m y in Ok (write xnext (xnext y) cur m) end) = Ok m' /\
     kept_by_cut m' /\ (forall nm, chain m' xnext (named m' nm (L1 ++ L2))) /\ chain m' xsibling F' /\ head F' = Some h /\ NoDup F' /\ firsts m' (L1 ++ L2) F').
  { intros f l E. destruct (unlink_next f l E) as (m' & W & C & K & R). exists m', F. split_and!; try done.
    - intros y. destruct (R y) as (? & ? & ? & ? & ? & ?). by split_and!.
    - intros nm. apply next_without; [by intros; apply R|done|]. intros y NY. apply K. intros EL. apply last_Some_elem_of in EL.
      apply in_named in EL as [? _]. done.
    - apply (chain_agree m); [by intros; apply R|done].
    - apply (firsts_later _ f l); [by intros; apply R|done]. }
  unfold cut_typed. unfold deref at 1 2. rewrite Ex, Eh, NMX. destruct (String.eqb_spec (xname th) n) as [EN|EN].
  - destruct L1 as [|h' r] eqn:EL; [done|]. injection H as ->. destruct (LATER h (named m n r)) as (m' & F' & W & P); [|by exists m', F'].
    rewrite named_cons, decide_True; [done|]. unfold rd. rewrite Eh. cbn. by rewrite EN.
  - destruct find_first as (Fa & f & Fb & c & E & EC & HB & (nm & D & EN2) & W & SC); [unfold rd; rewrite Eh; cbn; congruence|].
    rewrite W. apply rd_tag in SC as (tc & Ec & Vc). unfold deref at 1. rewrite Ec, Vc. rewrite own_names in HB. destruct G as [|f' l] eqn:EG.
    + injection HB as <-. rewrite decide_True by done. set (m1 := write xsibling _ c m).
      destruct (named m nm L) as [|c' r] eqn:EM; [done|]. injection EN2 as ->.
      exists m1, (Fa ++ heir G2 Fb). split; [|split; [|split; [|split; [|split]]]].
      * exact (unlink_nothing m1 c nm r D EM ltac:(intros; unfold m1; by rdw)).
      * intros y. unfold m1. by rdw.
      * intros nm'. apply next_without; [intros; unfold m1; by rdw| |intros; unfold m1; by rdw]. pose proof (N n) as CN. rewrite own_names, EG in CN. rewrite EG.
        apply (chain_agree m); [intros; unfold m1; by rdw|]. by destruct CN.
      * exact (splice_heir Fa Fb c tx E EC Ex Vx).
      * rewrite E in HF. destruct Fa; [done|]. exact HF.
      * destruct (firsts_heir m1 Fa Fb ltac:(intros; unfold m1; by rdw) E) as [? ?]. by split.
    + injection HB as <-. rewrite decide_False; [by apply (LATER f' l)|]. intros ->. pose proof own_nodup as NN. rewrite EG in NN. apply NoDup_cons in NN as [NN _]. set_solver.
Qed.
End Cut.
