(* ===== verification/XmlTreeExact.v ===== *)
(** * The trees of XML keep their shape

    Inserting a tag puts it into the order of the text and keeps the three chains ([xml_insert_exact]), and what is
    looked up by name, number and attribute is what the order of the text has ([xml_lookup_exact]). *)
From stdpp Require Import gmap strings sorting.
From Stdlib Require Import String Ascii.
From S2P Require Import Prelude CStrings XmlTree XmlChains XmlLinks.
Open Scope Z_scope.
#[local] Notation length := List.length (only parsing).

(** ** Order *)

Definition by_off (m : store) : list nat -> Prop := StronglySorted (fun x y => off_at m x <= off_at m y).
Definition upto (m : store) (o : Z) (L : list nat) : list nat := filter (fun x => off_at m x <= o) L.
Definition above (m : store) (o : Z) (L : list nat) : list nat := filter (fun x => o < off_at m x) L.
Lemma above_all m o L : Forall (fun x => o < off_at m x) L -> upto m o L = [] /\ above m o L = L.
Proof.
  unfold upto, above. induction 1 as [|x L O F [IH1 IH2]]; [done|]. rewrite !filter_cons, decide_False, decide_True by lia. by rewrite IH1, IH2.
Qed.
Lemma by_off_split m o L : by_off m L -> L = upto m o L ++ above m o L.
Proof.
  induction 1 as [|x L S IH F]; [done|]. unfold upto, above. rewrite !filter_cons. destruct (decide (off_at m x <= o)) as [O|O].
  - rewrite decide_False by lia. cbn [app]. f_equal. exact IH.
  - rewrite decide_True by lia. destruct (above_all m o L) as [E1 E2]; [rewrite Forall_forall in F |- *; intros y I; specialize (F y I); lia|].
    unfold upto, above in *. by rewrite E1, E2.
Qed.
Lemma by_off_join m L1 x L2 o : by_off m (L1 ++ L2) -> off_at m x = o -> Forall (fun y => off_at m y <= o) L1 -> Forall (fun y => o < off_at m y) L2 -> by_off m (L1 ++ x :: L2).
Proof.
  intros S E F1 F2. unfold by_off in *. induction L1 as [|y L1 IH]; cbn [app] in *.
  - constructor; [done|]. rewrite Forall_forall in F2 |- *. intros z I. specialize (F2 z I). lia.
  - apply Forall_cons in F1 as [F0 F1]. apply StronglySorted_inv in S as [S S2]. constructor; [by apply IH|].
    rewrite Forall_app in S2. destruct S2 as [S2 S3]. apply Forall_app. split; [done|]. constructor; [lia|done].
Qed.
Lemma by_off_same m m' L : (forall x, x ∈ L -> off_at m' x = off_at m x) -> by_off m L -> by_off m' L.
Proof.
  intros E S. unfold by_off in *. induction S as [|x L S IH F]; constructor.
  - apply IH. intros; apply E; set_solver.
  - rewrite Forall_forall in F |- *. intros y I. rewrite !E by set_solver. by apply F.
Qed.
Lemma upto_le m o L : Forall (fun x => off_at m x <= o) (upto m o L).
Proof. rewrite Forall_forall. intros x I. by apply list_elem_of_filter in I as [? _]. Qed.
Lemma above_gt m o L : Forall (fun x => o < off_at m x) (above m o L).
Proof. rewrite Forall_forall. intros x I. by apply list_elem_of_filter in I as [? _]. Qed.
Lemma linked_off m dest L F x : linked m dest L F -> x ∈ L -> is_Some (rd xoff m x).
Proof. intros K I. apply rd_some, (chain_in _ xordered L); [apply K|done]. Qed.

(** ** Inserting *)

Notation reset dest off := (fun t => t <| xnext := None |> <| xsibling := None |> <| xordered := None |> <| xoff := off |> <| xparent := Some dest |>).

(** The tag joins the tags of a parent that has some. *)
Lemma place_exact m xml dest o L1 L2 F h n : linked m dest (L1 ++ L2) F -> head (L1 ++ L2) = Some h ->
  Forall (fun x => off_at m x <= o) L1 -> Forall (fun x => o < off_at m x) L2 -> xml ∉ L1 ++ L2 -> xml <> dest ->
  rd xname m xml = Some n -> rd xparent m xml = Some (Some dest) -> (forall g, head (L1 ++ L2) = Some g -> rd xname m g = Some n -> off_at m g <= o) ->
  exists m' F', (let* m := place_ordered m xml dest h o in place_typed m xml h o) = Ok m' /\ linked m' dest (L1 ++ xml :: L2) F' /\
    (forall y, rd xname m' y = rd xname m y /\ rd xoff m' y = rd xoff m y).
Proof.
  intros K H B1 B2 X XD XN XP CL. pose proof (fun x => linked_off _ _ _ _ x K) as A. destruct K as [K1 K2 K3 K4 K5 K6 K7 K8 K9 K10].
  assert (SX : is_Some (m !! xml)) by (apply (rd_some xname); by rewrite XN). rewrite H in K1, K5.
  destruct (place_ordered_exact m xml dest h o L1 L2 K1 K2 H K6 B1) as (m1 & -> & O1 & C1 & R1); [by destruct B2|done..|].
  assert (NM1 : forall nm L, named m1 nm L = named m nm L) by (intros; apply named_same; intros; apply R1).
  assert (OF1 : forall y, off_at m1 y = off_at m y) by (intros y; unfold off_at; by destruct (R1 y) as (_ & -> & _)).
  assert (N1 : forall nm, chain m1 xnext (named m1 nm (L1 ++ L2))) by (intros nm; rewrite NM1; apply (chain_agree m); [intros; apply R1|done]).
  assert (S1 : chain m1 xsibling F) by (apply (chain_agree m); [intros; apply R1|done]).
  assert (F1 : firsts m1 (L1 ++ L2) F) by (intros x; rewrite (K8 x); by setoid_rewrite NM1).
  assert (B1' : Forall (fun x => off_at m1 x <= o) L1) by (eapply Forall_impl; [exact B1|]; intros; by rewrite OF1).
  assert (B2' : Forall (fun x => o < off_at m1 x) L2) by (eapply Forall_impl; [exact B2|]; intros; by rewrite OF1).
  assert (A1 : forall x, x ∈ L1 ++ L2 -> is_Some (rd xoff m1 x)) by (intros x I; destruct (R1 x) as (_ & -> & _); by apply A).
  assert (XN1 : rd xname m1 xml = Some n) by (by destruct (R1 xml) as (-> & _)).
  assert (G : exists m' F', place_typed m1 xml h o = Ok m' /\ (forall nm, chain m' xnext (named m' nm (L1 ++ xml :: L2))) /\ chain m' xsibling F' /\
    head F' = head (L1 ++ xml :: L2) /\ NoDup F' /\ firsts m' (L1 ++ xml :: L2) F' /\ kept_by_typed m1 m').
  { apply (place_typed_exact m1 xml h n o L1 L2 F); try done. intros E. rewrite OF1. apply (CL h H). destruct (R1 h) as (<- & _). done. }
  destruct G as (m' & F' & -> & N2 & S2 & H2 & ND2 & F2 & R2). exists m', F'. split; [done|].
  assert (NDX : NoDup (L1 ++ xml :: L2)) by (apply NoDup_app in K6 as (P1 & P2 & P3); apply NoDup_app; split_and!; [done|set_solver|apply NoDup_cons; set_solver]).
  split; [|intros y; destruct (R1 y) as (<- & <- & _); split; apply R2]. split; try done.
  - destruct (R2 dest) as (_ & _ & _ & -> & _). done.
  - apply (chain_agree m1); [intros; apply R2|done].
  - intros x I. destruct (R2 x) as (_ & _ & _ & _ & ->). destruct (R1 x) as (_ & _ & _ & _ & ->).
    destruct (decide (x = xml)) as [->|]; [done|]. apply K9. set_solver.
  - set_solver.
Qed.

Lemma reset_lookup m xml dest o x : x <> xml -> (alter (reset dest o) xml m : store) !! x = m !! x.
Proof. intros N. by rewrite lookup_alter_ne. Qed.
Lemma reset_ready m xml dest o L F : linked m dest L F -> xml ∉ dest :: L -> is_Some (m !! xml) ->
  let m0 := alter (reset dest o) xml m in linked m0 dest L F /\ rd xoff m0 xml = Some o /\ rd xparent m0 xml = Some (Some dest) /\ rd xname m0 xml = rd xname m xml.
Proof.
  intros K X SX m0. split_and!.
  - apply (linked_frame m); [|done]. intros x I. apply reset_lookup. by intros ->.
  - by apply rd_eq.
  - by apply rd_eq.
  - by apply rd_other.
Qed.

(** The only tag. *)
Lemma only_tag m xml dest : xml <> dest -> is_Some (m !! dest) -> is_Some (m !! xml) -> rd xnext m xml = Some None -> rd xsibling m xml = Some None ->
  rd xordered m xml = Some None -> rd xparent m xml = Some (Some dest) -> linked (write xchild (Some xml) dest m) dest [xml] [xml].
Proof.
  intros N SD SX XN XS XO XP. set (m' := write xchild (Some xml) dest m).
  assert (NX : rd xnext m' xml = Some None) by (unfold m'; by rdw). assert (NN : exists n, rd xname m' xml = Some n).
  { destruct SX as [t E]. exists (xname t). unfold m'. rdw. unfold rd. by rewrite E. }
  destruct NN as [n NN]. split; try (unfold m'; rdw; done); try apply NoDup_singleton.
  - split; [unfold m'; by rdw|done].
  - intros nm. rewrite named_cons. case_decide; by cbn.
  - split; [unfold m'; by rdw|done].
  - intros x. rewrite list_elem_of_singleton. setoid_rewrite named_cons. rewrite NN. split.
    + intros ->. exists n. by rewrite decide_True.
    + intros [nm E]. case_decide; [|done]. by injection E.
  - intros x ->%list_elem_of_singleton. unfold m'. by rdw.
  - set_solver.
Qed.

(** C25. Inserting a tag under a parent whose tags have their three chains and are in the order of their offsets, the chains hold
    again: the new tag is behind all tags of at most its offset in the order of the text, at that place among the tags of its
    name, and the first tags of all names are chained once each; names stay.  Under the condition that, if the first tag of the parent has the
    name of the new one, its offset is not greater: otherwise the code breaks the chains ([first_of_name_twice]). *)
Theorem xml_insert_exact m dest xml o L F : linked m dest L F -> by_off m L -> xml ∉ dest :: L -> is_Some (m !! xml) ->
  (forall h, head L = Some h -> rd xname m h = rd xname m xml -> off_at m h <= o) ->
  exists m' F', switch_xml_insert m xml dest o = Ok m' /\ linked m' dest (upto m o L ++ xml :: above m o L) F' /\
    by_off m' (upto m o L ++ xml :: above m o L) /\ off_at m' xml = o /\ (forall x, rd xname m' x = rd xname m x).
Proof.
  intros K S X SX CL. destruct (reset_ready m xml dest o L F K X SX) as (K0 & O0 & P0 & N0). set (m0 := alter (reset dest o) xml m) in *.
  assert (NM : forall x, rd xname m0 x = rd xname m x) by (intros x; by apply rd_other).
  assert (OF : forall x, x <> xml -> off_at m0 x = off_at m x) by (intros x N; unfold off_at, m0; by rewrite rd_ne).
  assert (OX : off_at m0 xml = o) by (unfold off_at; by rewrite O0).
  pose proof (by_off_split m o L S) as EL. assert (SX' := SX). destruct SX as [tx Ex].
  unfold switch_xml_insert. unfold deref at 1. rewrite Ex. fold m0. pose proof (linked_child _ _ _ _ K0) as CH. destruct (rd_tag _ _ _ _ CH) as (td & Ed & Vd).
  unfold deref. rewrite Ed, Vd. destruct (head L) as [h|] eqn:EH.
  - assert (IL : forall x, x ∈ upto m o L ++ above m o L -> x ∈ L /\ x <> xml) by (rewrite <- EL; intros x I; split; [done|intros ->; set_solver]).
    destruct (place_exact m0 xml dest o (upto m o L) (above m o L) F h (xname tx)) as (m' & F' & E & K' & R).
    + by rewrite <- EL.
    + by rewrite <- EL.
    + pose proof (upto_le m o L) as U. rewrite Forall_forall in U |- *. intros x I. rewrite OF by (apply IL; set_solver). by apply U.
    + pose proof (above_gt m o L) as U. rewrite Forall_forall in U |- *. intros x I. rewrite OF by (apply IL; set_solver). by apply U.
    + rewrite <- EL. set_solver.
    + set_solver.
    + rewrite N0. unfold rd. by rewrite Ex.
    + done.
    + rewrite <- EL. intros g G NG. rewrite OF by (apply head_in in G; intros ->; set_solver). apply CL; [congruence|].
      rewrite <- NM, NG. unfold rd. by rewrite Ex.
    + exists m', F'. rewrite E. assert (OF' : forall x, off_at m' x = off_at m0 x) by (intros x; unfold off_at; by destruct (R x) as [_ ->]).
      split; [done|]. split; [done|]. split; [|split; [by rewrite OF'|intros x; destruct (R x) as [-> _]; apply NM]].
      apply (by_off_join _ _ _ _ o); [rewrite <- EL; apply (by_off_same m); [|done]| | |].
      * intros x I. rewrite OF'. apply OF. intros ->. set_solver.
      * by rewrite OF'.
      * pose proof (upto_le m o L) as U. rewrite Forall_forall in U |- *. intros x I. rewrite OF', OF by (apply IL; set_solver). by apply U.
      * pose proof (above_gt m o L) as U. rewrite Forall_forall in U |- *. intros x I. rewrite OF', OF by (apply IL; set_solver). by apply U.
  - destruct L; [|done]. exists (write xchild (Some xml) dest m0), [xml]. split; [done|]. split; [|split; [|split; [unfold off_at; by rewrite rd_other|intros x; by rewrite rd_other]]].
    + apply only_tag; [set_solver|by rewrite Ed|apply (rd_some xoff); by rewrite O0|by apply rd_eq|by apply rd_eq|by apply rd_eq|done].
    + repeat constructor.
Qed.
Lemma xml_insert_exact_witness : exists m' F', switch_xml_insert (<[4%nat := new_tag "b" 0]> shelf) 4 0 1 = Ok m' /\ linked m' 0 [1; 2; 4; 3]%nat F' /\
  by_off m' [1; 2; 4; 3]%nat /\ off_at m' 4 = 1 /\ (forall x, rd xname m' x = rd xname (<[4%nat := new_tag "b" 0]> shelf) x).
Proof.
  replace [1; 2; 4; 3]%nat with (upto (<[4%nat := new_tag "b" 0]> shelf) 1 [1; 2; 3]%nat ++ 4%nat :: above (<[4%nat := new_tag "b" 0]> shelf) 1 [1; 2; 3]%nat)
    by (vm_compute; reflexivity).
  apply (xml_insert_exact (<[4%nat := new_tag "b" 0]> shelf) 0 4 1 [1; 2; 3]%nat [1; 2]%nat).
  - apply (linked_frame shelf); [|exact shelf_linked]. intros x I. rewrite lookup_insert_ne; [done|]. intros <-. set_solver.
  - repeat constructor; vm_compute; done.
  - set_solver.
  - done.
  - by intros h [= <-].
Defined.

(** ** Looking up *)

Lemma idx_chain m : forall l i, chain m xnext l -> switch_xml_idx m (head l) i = Ok (l !! i).
Proof.
  induction l as [|x l IH]; intros [|i] C; [done..|]. destruct C as [C1 C2]. apply rd_tag in C1 as (t & E & V).
  cbn [head switch_xml_idx]. unfold deref. rewrite E, V. by apply IH.
Qed.
Lemma child_found m dest L F nm : linked m dest L F -> switch_xml_child m (Some dest) nm = Ok (head (named m nm L)).
Proof.
  intros [C O N SB HF ND NF FI P D]. apply rd_tag in C as (td & Ed & Vd). unfold switch_xml_child, deref. rewrite Ed, Vd, <- HF.
  destruct (split_at (fun x => rd xname m x = Some nm) F) as (Fa & Fb & E & FA & FB).
  assert (FT : forall x, x ∈ F -> exists t, m !! x = Some t /\ rd xname m x = Some (xname t)).
  { intros x I. destruct (chain_in _ _ _ _ SB I) as [t Et]. exists t. split; [done|]. unfold rd. by rewrite Et. }
  rewrite E. rewrite E in SB. rewrite (seek_chain m xsibling _ Fb Fa); [| done | | |].
  - cbn [fst]. f_equal. destruct Fb as [|g r].
    + destruct (head (named m nm L)) as [g|] eqn:G; [|done]. exfalso. pose proof (head_named _ _ _ _ G) as [GN _].
      apply (firsts_name m _ F nm g FI GN) in G. rewrite E, app_nil_r in G. rewrite Forall_forall in FA. by apply (FA g).
    + symmetry. apply (firsts_name m _ F nm g FI FB). rewrite E. set_solver.
  - rewrite Forall_forall in FA |- *. intros x I. destruct (FT x) as (t & Et & Nt); [rewrite E; set_solver|]. exists t. split; [done|].
    apply String.eqb_neq. intros ->. by apply (FA x I).
  - destruct Fb as [|g r]; [done|]. destruct (FT g) as (t & Et & Nt); [rewrite E; set_solver|]. exists t. split; [done|]. apply String.eqb_eq. cbn in FB. congruence.
  - unfold turns. rewrite E in NF. pose proof (chain_size _ _ _ SB NF) as CS. rewrite length_app in CS. lia.
Qed.
Lemma find_from_chain m fits ok : forall l n, chain m xnext l -> (forall x, x ∈ l -> fits x = Ok (ok x)) -> (List.length l < n)%nat ->
  find_from n m fits (head l) = Ok (head (filter (fun x => ok x = true) l)).
Proof.
  induction l as [|x l IH]; intros n C R N; (destruct n as [|n]; [cbn in N; lia|]); [done|]. destruct C as [C1 C2]. apply rd_tag in C1 as (t & E & V).
  cbn [head find_from]. rewrite R by set_solver. rewrite filter_cons. destruct (ok x) eqn:EO; [by rewrite decide_True|]. rewrite decide_False by done.
  unfold deref. rewrite E, V. apply IH; [done|intros; apply R; set_solver|cbn in N; lia].
Qed.
Definition attr_fits (v : string) (a : option string) : bool := match a with Some s => strcaseeq s v | None => false end.

(** C27. Of a parent whose tags have their chains [switch_xml_child] finds the first tag of a name in the order of the text, with
    [switch_xml_idx] the number that is asked for among those of the name, and [switch_xml_find_child] the first of them whose
    attribute has the value, without regard to case; nothing is found exactly where there is none. *)
Theorem xml_lookup_exact m dest L F nm : linked m dest L F ->
  (forall i, (let* c := switch_xml_child m (Some dest) nm in switch_xml_idx m c i) = Ok (named m nm L !! i)) /\
  (forall dtd attr v attr_of, (forall x, x ∈ L -> switch_xml_attr m dtd (Some x) attr = Ok (attr_of x)) ->
    switch_xml_find_child m dtd (Some dest) (Some nm) (Some attr) (Some v) = Ok (head (filter (fun x => attr_fits v (attr_of x) = true) (named m nm L)))).
Proof.
  intros K. rewrite (child_found _ _ _ _ nm K). split; [intros i; apply idx_chain, K|]. intros dtd attr v attr_of R.
  unfold switch_xml_find_child. rewrite (child_found _ _ _ _ nm K).
  apply (find_from_chain _ _ (fun x => attr_fits v (attr_of x))); [apply K| |].
  - intros x [_ I]%in_named. by rewrite R.
  - unfold turns. pose proof (chain_size _ _ _ (linked_next _ _ _ _ K nm) (named_nodup _ _ _ (linked_nodup _ _ _ _ K))). lia.
Qed.
Lemma xml_lookup_exact_witness : (let* c := switch_xml_child shelf (Some 0%nat) "a" in switch_xml_idx shelf c 1) = Ok (Some 3%nat) /\
  switch_xml_find_child shelf (fun _ => None) (Some 0%nat) (Some "a"%string) (Some "id"%string) (Some "y"%string) = Ok (Some 3%nat).
Proof.
  split; [apply (xml_lookup_exact shelf 0 [1; 2; 3]%nat [1; 2]%nat "a"), shelf_linked|].
  replace (Some 3%nat) with (head (filter (fun x => attr_fits "y" (rd xattr shelf x ≫= assoc "id"%string) = true) (named shelf "a" [1; 2; 3]%nat))) by (vm_compute; reflexivity).
  apply (proj2 (xml_lookup_exact shelf 0 [1; 2; 3]%nat [1; 2]%nat "a" shelf_linked) (fun _ => None) "id"%string "y"%string
    (fun x => rd xattr shelf x ≫= assoc "id"%string)).
  intros x I. repeat (apply elem_of_cons in I as [->|I]; [reflexivity|]). set_solver.
Defined.
