(* ===== verification/XmlCutExact.v ===== *)
(** * Cutting a tag keeps the shape

    [xml_cut_exact]: [switch_xml_cut] takes a tag out of the three chains of its parent, where the first tag behind a first one
    can take its place.  The end shows where it can not. *)
From stdpp Require Import gmap strings.
From Stdlib Require Import String Ascii.
From S2P Require Import Prelude CStrings XmlTree XmlChains XmlLinks XmlCuts.
Open Scope Z_scope.
#[local] Notation length := List.length (only parsing).

Section CutExact.
Context (m : store) (p x : nat) (n : string) (L1 L2 F : list nat) (tx : tag).
#[local] Notation L := (L1 ++ x :: L2).
#[local] Notation G2 := (named m n L2).
Context (K : linked m p L F) (Ex : m !! x = Some tx) (NX : xname tx = n).

Lemma x_name : rd xname m x = Some n.
Proof using Ex NX. unfold rd. rewrite Ex. cbn. by rewrite NX. Qed.
Lemma x_next : xnext tx = head G2.
Proof using All.
  pose proof (next_of_x m x n L1 L2 (linked_next _ _ _ _ K) x_name) as E. unfold rd in E. rewrite Ex in E. by injection E.
Qed.
Lemma x_ordered : xordered tx = head L2.
Proof using K Ex.
  pose proof (chain_tail _ _ _ _ (linked_ordered _ _ _ _ K)) as [E _]. unfold rd in E. rewrite Ex in E. by injection E.
Qed.
Lemma x_parent : xparent tx = Some p.
Proof using K Ex. pose proof (linked_parent _ _ _ _ K x ltac:(set_solver)) as E. unfold rd in E. rewrite Ex in E. by injection E. Qed.

(** The next tag of the name gets the sibling of [x]. *)
Lemma patch_sibling : exists m1, match xnext tx with Some y => let* _ := deref m y in Ok (write xsibling (xsibling tx) y m) | None => Ok m end = Ok m1 /\
  chain m1 xsibling F /\ (forall y, head G2 = Some y -> rd xsibling m1 y = rd xsibling m1 x /\ rd xsibling m1 y = Some (xsibling tx)) /\
  (forall y, rd xname m1 y = rd xname m y /\ rd xoff m1 y = rd xoff m y /\ rd xnext m1 y = rd xnext m y /\
    rd xordered m1 y = rd xordered m y /\ rd xchild m1 y = rd xchild m y /\ rd xparent m1 y = rd xparent m y).
Proof using All.
  rewrite x_next. destruct (head G2) as [y|] eqn:E; [|exists m; split_and!; [done|apply K|done|done]].
  assert (YF := heir_not_first m x x n L1 L2 F (linked_next _ _ _ _ K) (linked_nodup _ _ _ _ K) (linked_nodup_firsts _ _ _ _ K) (linked_firsts _ _ _ _ K) x_name y E).
  pose proof (head_named _ _ _ _ E) as [_ IY]. destruct (chain_in _ _ _ y (linked_ordered _ _ _ _ K) ltac:(set_solver)) as [ty Ey].
  unfold deref. rewrite Ey. eexists. split; [done|]. split_and!.
  - apply (chain_agree m); [|apply K]. intros z Iz. assert (y <> z) by (intros ->; done). by rdw.
  - intros y' [= <-]. assert (y <> x) by (intros ->; pose proof (linked_nodup _ _ _ _ K) as ND; apply NoDup_app in ND as (_ & _ & ND); by apply NoDup_cons in ND as [? _]).
    assert (SY : is_Some (m !! y)) by by rewrite Ey. rewrite rd_sibling, rd_ne by done. split; [|done]. unfold rd. by rewrite Ex.
  - intros z. by rdw.
Qed.

(** The tags without [x] before its own links are cleared. *)
Lemma assemble m' F' : (forall y, rd xname m' y = rd xname m y /\ rd xparent m' y = rd xparent m y) -> rd xchild m' p = Some (head (L1 ++ L2)) -> chain m' xordered (L1 ++ L2) ->
  (forall nm, chain m' xnext (named m' nm (L1 ++ L2))) -> chain m' xsibling F' -> head F' = head (L1 ++ L2) -> NoDup F' -> firsts m' (L1 ++ L2) F' ->
  linked (alter (fun t => t <| xordered := None |> <| xsibling := None |> <| xnext := None |>) x m') p (L1 ++ L2) F'.
Proof using All.
  intros R C O N S H ND FI. pose proof (linked_nodup _ _ _ _ K) as NL. apply NoDup_app in NL as (P1 & P2 & P3). apply NoDup_cons in P3 as [P3 P4].
  pose proof (linked_dest _ _ _ _ K) as D. apply (linked_frame m').
  - intros y I. rewrite lookup_alter_ne; [done|]. intros <-. apply elem_of_cons in I as [->|I]; [apply D; set_solver|].
    apply elem_of_app in I as [I|I]; [apply (P2 x I); set_solver|done].
  - split; try done; [apply NoDup_app; split_and!; set_solver| |set_solver].
    intros y I. destruct (R y) as [_ ->]. apply (linked_parent _ _ _ _ K). set_solver.
Qed.

(** The first tag. *)
Definition first_can_go : Prop := forall y, head L2 = Some y -> rd xname m y = Some n \/ (head (tail F) = Some y /\ named m n L2 = []).
Lemma cut_first m1 : L1 = [] -> first_can_go -> chain m1 xsibling F -> (forall y, head G2 = Some y -> rd xsibling m1 y = Some (xsibling tx)) ->
  (forall y, rd xname m1 y = rd xname m y /\ rd xoff m1 y = rd xoff m y /\ rd xnext m1 y = rd xnext m y /\
    rd xordered m1 y = rd xordered m y /\ rd xchild m1 y = rd xchild m y /\ rd xparent m1 y = rd xparent m y) ->
  exists F', linked (alter (fun t => t <| xordered := None |> <| xsibling := None |> <| xnext := None |>) x (write xchild (xordered tx) p m1)) p (L1 ++ L2) F'.
Proof using All.
  intros E CG S1 Y R. rewrite x_ordered. pose proof K as [C O N SB HF ND NF FI P D]. rewrite E in HF. cbn in HF.
  assert (EF : exists Fb, F = x :: Fb) by (destruct F as [|f Fb]; [done|]; exists Fb; cbn in HF; congruence). destruct EF as [Fb EF]. pose proof x_name as XN.
  assert (SP : is_Some (m1 !! p)) by (apply (rd_some xchild); destruct (R p) as (_ & _ & _ & _ & -> & _); by rewrite C).
  set (m2 := write xchild (head L2) p m1). assert (R2 : forall y, rd xname m2 y = rd xname m y) by (intros y; unfold m2; rdw; apply R).
  destruct (firsts_heir m x x n L1 L2 F N ND NF FI XN m2 [] Fb R2 EF) as [F1 F2]. cbn [app] in F1, F2.
  unfold first_can_go in CG. rewrite EF in SB, S1, CG. pose proof SB as [SX SF]. assert (TX : xsibling tx = head Fb) by (unfold rd in SX; rewrite Ex in SX; by injection SX).
  exists (heir G2 Fb). apply assemble.
  - intros y. split; [done|]. unfold m2. rdw. apply R.
  - rewrite E. cbn [app]. unfold m2. by rdw.
  - rewrite E in O |- *. destruct O as [_ O]. apply (chain_agree m); [|done]. intros y _. unfold m2. rdw. apply R.
  - intros nm. apply (next_without m x x n L1 L2 F N ND NF FI XN m2 nm R2).
    + pose proof (N n) as CN. rewrite (own_names m x n L1 L2 XN), E in CN. destruct CN as [_ CN]. rewrite E. cbn [app named]. unfold named at 1. cbn [app]. apply (chain_agree m); [|exact CN].
      intros y _. unfold m2. rdw. apply R.
    + intros y _. unfold m2. rdw. apply R.
  - assert (SF' : chain m2 xsibling Fb) by (apply (chain_agree m1); [intros; unfold m2; by rdw|by destruct S1]).
    destruct (named m n L2) as [|y r] eqn:EG; [done|]. split; [|done]. unfold m2. rdw. rewrite (Y y eq_refl). by rewrite TX.
  - rewrite E. cbn [app]. destruct (head L2) as [y|] eqn:EH.
    + destruct (CG y eq_refl) as [NY|[FY GY]]; [|rewrite GY; cbn in FY |- *; by destruct Fb].
      destruct L2 as [|y' r]; [done|]. injection EH as ->. by rewrite named_cons, decide_True.
    + assert (L2 = []) as E2 by by destruct L2. rewrite E2. cbn. destruct Fb as [|z q]; [done|]. exfalso. assert (I : z ∈ L) by (apply (firsts_in m _ _ _ FI); rewrite EF; set_solver).
      rewrite E, E2 in I. rewrite EF in NF. apply NoDup_cons in NF as [NF _]. set_solver.
  - done.
  - done.
Qed.
(** A later tag. *)
Lemma cut_later m1 h : head L1 = Some h -> chain m1 xsibling F -> (forall y, head G2 = Some y -> rd xsibling m1 y = rd xsibling m1 x) ->
  (forall y, rd xname m1 y = rd xname m y /\ rd xoff m1 y = rd xoff m y /\ rd xnext m1 y = rd xnext m y /\
    rd xordered m1 y = rd xordered m y /\ rd xchild m1 y = rd xchild m y /\ rd xparent m1 y = rd xparent m y) ->
  exists m3 F', (let* cur := advance (turns m1) m1 xordered (fun y _ => negb (bool_decide (y = x))) h in let* c := deref m1 cur in
      match xordered c with None => UB | Some _ => cut_typed (write xordered (xordered tx) cur m1) x h end) = Ok m3 /\
    linked (alter (fun t => t <| xordered := None |> <| xsibling := None |> <| xnext := None |>) x m3) p (L1 ++ L2) F' /\
    (forall y, rd xname m3 y = rd xname m y /\ rd xoff m3 y = rd xoff m y).
Proof using All.
  intros HL S1 Y R. rewrite x_ordered. pose proof K as [C O N SB HF ND NF FI P D]. pose proof x_name as XN. pose proof ND as (P1 & P2 & P3)%NoDup_app.
  assert (O1 : chain m1 xordered (L1 ++ x :: L2)) by (apply (chain_agree m); [intros; apply R|done]).
  assert (EL : exists l, L1 = h :: l) by (destruct L1 as [|h' l]; [done|]; exists l; cbn in HL; congruence). destruct EL as [l EL].
  destruct (last L1) as [c|] eqn:EC; [|rewrite EL, last_cons in EC; by destruct (last l)]. assert (Ic : c ∈ L1) by by apply last_Some_elem_of.
  pose proof (chain_last _ _ _ _ _ O1 EC) as LC. apply rd_tag in LC as (tc & Ec & Vc). cbn in Vc.
  rewrite (advance_chain m1 xordered _ (x :: L2) c l); [unfold deref; rewrite Ec, Vc| | | | |by rewrite <- EL].
  - set (m2 := write xordered (head L2) c m1). assert (R2 : forall y, rd xname m2 y = rd xname m y) by (intros y; unfold m2; rdw; apply R).
    assert (NM : forall nm l, named m2 nm l = named m nm l) by (intros; apply named_same; by intros).
    assert (HF' : head F = Some h) by (rewrite HF, EL; done).
    destruct (cut_typed_exact m2 x h n L1 L2 F) as (m3 & F' & E3 & K3 & N3 & S3 & H3 & ND3 & F3); try done.
    + intros nm. rewrite NM. apply (chain_agree m); [|done]. intros y _. unfold m2. rdw. apply R.
    + intros y. rewrite (FI y). by setoid_rewrite NM.
    + by rewrite R2.
    + apply (chain_agree m1); [|done]. intros; unfold m2; by rdw.
    + intros y. rewrite NM. intros Hy. unfold m2. rdw. by apply Y.
    + exists m3, F'. split; [exact E3|]. split; [|intros y; destruct (K3 y) as (-> & -> & _); split; unfold m2; rdw; apply R].
      apply assemble; try done.
      * intros y. destruct (K3 y) as (-> & _ & _ & _ & ->). split; unfold m2; rdw; apply R.
      * destruct (K3 p) as (_ & _ & _ & -> & _). unfold m2. rdw. destruct (R p) as (_ & _ & _ & _ & -> & _). by rewrite C, EL.
      * apply (chain_agree m2); [intros; apply K3|]. apply (chain_splice m1 _ _ L1 (x :: L2)); [done|done| | |].
        -- intros z _ NZ. assert (c <> z) by congruence. unfold m2. by rdw.
        -- intros y Ey. assert (y = c) as -> by congruence. unfold m2. apply rd_ordered. by rewrite Ec.
        -- apply (chain_agree m1); [|by apply chain_tail in O1 as [_ ?]]. intros y Iy. assert (c <> y) by (intros ->; apply (P2 y Ic); set_solver). unfold m2. by rdw.
      * by rewrite H3, EL.
  - by rewrite EL in O1.
  - rewrite Forall_forall. intros y Iy. destruct (chain_in _ _ _ y O1) as [u Eu]; [rewrite EL; set_solver|]. exists u. split; [done|].
    apply negb_true_iff, bool_decide_eq_false. intros ->. apply (P2 x); [rewrite EL; set_solver|set_solver].
  - destruct (chain_in _ _ _ x O1 ltac:(set_solver)) as [u Eu]. exists u. split; [done|]. by rewrite bool_decide_true.
  - unfold turns. pose proof (chain_size _ _ _ O1 ND) as CS. rewrite EL, length_app in CS. cbn in CS. lia.
Qed.
End CutExact.

(** C26. A tag that is cut leaves the three chains of the tags of its parent as they were without it: the others stay in the order of the
    text and in the chains of their names, and the next tag of its name takes its place among the first ones.  The first tag of
    the parent can be cut where the tag behind it has its name, or where no other tag has its name and the tag behind it is the
    next of the first ones. *)
Theorem xml_cut_exact m p x L1 L2 F n : linked m p (L1 ++ x :: L2) F -> rd xname m x = Some n -> (L1 = [] -> first_can_go m n L2 F) ->
  exists m' F', switch_xml_cut m (Some x) = Ok m' /\ linked m' p (L1 ++ L2) F' /\ (forall y, rd xname m' y = rd xname m y /\ rd xoff m' y = rd xoff m y).
Proof.
  intros K XN CG. pose proof XN as (tx & Ex & NX)%rd_tag. destruct (patch_sibling m p x n L1 L2 F tx K Ex NX) as (m1 & E1 & S1 & Y1 & R1).
  pose proof K as [C O N SB HF ND NF FI P D]. pose proof (x_parent m p x L1 L2 F tx K Ex) as XP. pose proof (x_ordered m p x L1 L2 F tx K Ex) as XO.
  unfold switch_xml_cut. unfold deref at 1. rewrite Ex, E1, XP. assert (CP : rd xchild m1 p = Some (head (L1 ++ x :: L2))) by (destruct (R1 p) as (_ & _ & _ & _ & -> & _); done).
  destruct (rd_tag _ _ _ _ CP) as (tp & Ep & VP). unfold deref at 1. rewrite Ep, VP. destruct L1 as [|h l] eqn:EL.
  - cbn [app head]. rewrite decide_True by done.
    destruct (cut_first m p x n [] L2 F tx K Ex NX m1 eq_refl (CG eq_refl) S1 ltac:(intros y Hy; by apply Y1) R1) as [F' K'].
    eexists _, F'. split; [done|]. split; [done|]. intros y. rdw. split; apply R1.
  - rewrite <- EL in *. assert (HL : head L1 = Some h) by by rewrite EL. assert (HL' : head (L1 ++ x :: L2) = Some h) by by rewrite EL. rewrite HL' in *.
    pose proof ND as (P1 & P2 & P3)%NoDup_app. assert (h <> x) by (intros ->; apply (P2 x); [by apply head_in|set_solver]). rewrite decide_False by done.
    destruct (cut_later m p x n L1 L2 F tx K Ex NX m1 h HL S1 ltac:(intros y Hy; by apply Y1) R1) as (m3 & F' & -> & K3 & R3).
    eexists _, F'. split; [done|]. split; [done|]. intros y. rdw. apply R3.
Qed.

Lemma xml_cut_exact_witness : exists m' F', switch_xml_cut shelf (Some 2%nat) = Ok m' /\ linked m' 0 [1; 3]%nat F' /\
  (forall y, rd xname m' y = rd xname shelf y /\ rd xoff m' y = rd xoff shelf y).
Proof. apply (xml_cut_exact shelf 0 2 [1%nat] [3%nat] [1; 2]%nat "b"); [exact shelf_linked|reflexivity|done]. Defined.

(** ** Findings *)

(** The first tag of a parent is cut: the next tag of its name is no longer found by its name, as the tag behind the first one begins
    the first tags. *)
Example cut_loses_next : (let* m := switch_xml_cut shelf (Some 1%nat) in
  let* c := switch_xml_child m (Some 0%nat) "a" in let* r := switch_xml_get m (Some 0%nat) [(Some "b"%string, 0); (None, 0)] in
  Ok (c, r, rd xordered m 2%nat)) = Ok (None, Some 2%nat, Some (Some 3%nat)).
Proof. vm_compute. reflexivity. Qed.
(** A tag put before the first one, of the same name, has that as the next tag of another name too; when it is cut
    the old one is its own sibling, and a name that no tag has is looked for without end. *)
Definition twins : outcome store := switch_xml_insert (<[4%nat := new_tag "a" 0]> (write xoff 5 1%nat shelf)) 4 0 3.
Example first_of_name_twice : (let* m := twins in Ok (rd xnext m 4%nat, rd xsibling m 4%nat)) = Ok (Some (Some 1%nat), Some (Some 1%nat)).
Proof. vm_compute. reflexivity. Qed.
Example cut_makes_circle : (let* m := twins in let* m := switch_xml_cut m (Some 4%nat) in Ok (rd xsibling m 1%nat, switch_xml_child m (Some 0%nat) "b")) =
  Ok (Some (Some 1%nat), UB).
Proof. vm_compute. reflexivity. Qed.
(** Taking out an attribute uses what is behind the array. *)
Example remove_attr_overruns : switch_xml_set_attr shelf (Some 1%nat) "id" None = UB /\
  (let* m := switch_xml_set_attr shelf (Some 2%nat) "id" None in switch_xml_attr m (fun _ => None) (Some 2%nat) "id") = Ok None.
Proof. by vm_compute. Qed.
(** Values of several attributes: one that fits is enough. *)
Example multi_is_any : switch_xml_find_child_multi shelf (fun _ => None) (Some 0%nat) (Some "a"%string) [("id", "nobody"); ("id", "!y")]%string = Ok (Some 1%nat).
Proof. vm_compute. reflexivity. Qed.
