(* ===== verification/Stun.v ===== *)
(** * STUN packets (src/switch_stun.c, include/switch_stun.h)

    Packets are parsed and built in place: a buffer is the list of bytes that can
    be accessed from its address on, attributes are offsets into it.  The parser
    turns the numbers of a packet into host order where they lie; whoever gets
    the buffer afterwards finds them so. *)
From S2P Require Import Prelude Bytes Crc32.
From stdpp Require Import pretty strings.
Open Scope Z_scope.

(** ** Numbers of the protocol *)

Definition SWITCH_STUN_PACKET_MIN_LEN : Z := 20.
Definition SWITCH_STUN_ATTRIBUTE_MIN_LEN : Z := 8.
Definition STUN_MAGIC_COOKIE : Z := 0x2112A442.

(** [switch_stun_message_t]. *)
Definition SWITCH_STUN_BINDING_REQUEST : Z := 0x0001.
Definition SWITCH_STUN_BINDING_RESPONSE : Z := 0x0101.
Definition SWITCH_STUN_BINDING_ERROR_RESPONSE : Z := 0x0111.
Definition SWITCH_STUN_SHARED_SECRET_REQUEST : Z := 0x0002.
Definition SWITCH_STUN_SHARED_SECRET_RESPONSE : Z := 0x0102.
Definition SWITCH_STUN_SHARED_SECRET_ERROR_RESPONSE : Z := 0x0112.
Definition SWITCH_STUN_ALLOCATE_REQUEST : Z := 0x0003.
Definition SWITCH_STUN_ALLOCATE_RESPONSE : Z := 0x0103.
Definition SWITCH_STUN_ALLOCATE_ERROR_RESPONSE : Z := 0x0113.
Definition SWITCH_STUN_SEND_REQUEST : Z := 0x0004.
Definition SWITCH_STUN_SEND_RESPONSE : Z := 0x0104.
Definition SWITCH_STUN_SEND_ERROR_RESPONSE : Z := 0x0114.
Definition SWITCH_STUN_DATA_INDICATION : Z := 0x0115.

(** [switch_stun_attribute_t]. *)
Definition SWITCH_STUN_ATTR_MAPPED_ADDRESS : Z := 0x0001.
Definition SWITCH_STUN_ATTR_RESPONSE_ADDRESS : Z := 0x0002.
Definition SWITCH_STUN_ATTR_CHANGE_REQUEST : Z := 0x0003.
Definition SWITCH_STUN_ATTR_SOURCE_ADDRESS : Z := 0x0004.
Definition SWITCH_STUN_ATTR_CHANGED_ADDRESS : Z := 0x0005.
Definition SWITCH_STUN_ATTR_USERNAME : Z := 0x0006.
Definition SWITCH_STUN_ATTR_PASSWORD : Z := 0x0007.
Definition SWITCH_STUN_ATTR_MESSAGE_INTEGRITY : Z := 0x0008.
Definition SWITCH_STUN_ATTR_ERROR_CODE : Z := 0x0009.
Definition SWITCH_STUN_ATTR_UNKNOWN_ATTRIBUTES : Z := 0x000a.
Definition SWITCH_STUN_ATTR_REFLECTED_FROM : Z := 0x000b.
Definition SWITCH_STUN_ATTR_TRANSPORT_PREFERENCES : Z := 0x000c.
Definition SWITCH_STUN_ATTR_LIFETIME : Z := 0x000d.
Definition SWITCH_STUN_ATTR_ALTERNATE_SERVER : Z := 0x000e.
Definition SWITCH_STUN_ATTR_MAGIC_COOKIE : Z := 0x000f.
Definition SWITCH_STUN_ATTR_BANDWIDTH : Z := 0x0010.
Definition SWITCH_STUN_ATTR_DESTINATION_ADDRESS : Z := 0x0011.
Definition SWITCH_STUN_ATTR_SOURCE_ADDRESS2 : Z := 0x0012.
Definition SWITCH_STUN_ATTR_DATA : Z := 0x0013.
Definition SWITCH_STUN_ATTR_OPTIONS : Z := 0x8001.
Definition SWITCH_STUN_ATTR_XOR_MAPPED_ADDRESS : Z := 0x0020.
Definition SWITCH_STUN_ATTR_PRIORITY : Z := 0x0024.
Definition SWITCH_STUN_ATTR_USE_CAND : Z := 0x0025.
Definition SWITCH_STUN_ATTR_PADDING : Z := 0x0026.
Definition SWITCH_STUN_ATTR_RESP_PORT : Z := 0x0027.
Definition SWITCH_STUN_ATTR_SOFTWARE : Z := 0x8022.
Definition SWITCH_STUN_ATTR_ALT_SERVER : Z := 0x8023.
Definition SWITCH_STUN_ATTR_FINGERPRINT : Z := 0x8028.
Definition SWITCH_STUN_ATTR_CONTROLLED : Z := 0x8029.
Definition SWITCH_STUN_ATTR_CONTROLLING : Z := 0x802a.
Definition SWITCH_STUN_ATTR_RESP_ORIGIN : Z := 0x802b.
Definition SWITCH_STUN_ATTR_OTHER_ADDR : Z := 0x802c.

(** [switch_stun_error_t]. *)
Definition SWITCH_STUN_ERROR_BAD_REQUEST : Z := 400.
Definition SWITCH_STUN_ERROR_UNAUTHORIZED : Z := 401.
Definition SWITCH_STUN_ERROR_UNKNOWN_ATTRIBUTE : Z := 420.
Definition SWITCH_STUN_ERROR_STALE_CREDENTIALS : Z := 430.
Definition SWITCH_STUN_ERROR_INTEGRITY_CHECK_FAILURE : Z := 431.
Definition SWITCH_STUN_ERROR_MISSING_USERNAME : Z := 432.
Definition SWITCH_STUN_ERROR_USE_TLS : Z := 433.
Definition SWITCH_STUN_ERROR_SERVER_ERROR : Z := 500.
Definition SWITCH_STUN_ERROR_GLOBAL_FAILURE : Z := 600.

Definition PACKET_TYPES : list (Z * string) := [
  (SWITCH_STUN_BINDING_REQUEST, "BINDING_REQUEST");
  (SWITCH_STUN_BINDING_RESPONSE, "BINDING_RESPONSE");
  (SWITCH_STUN_BINDING_ERROR_RESPONSE, "BINDING_ERROR_RESPONSE");
  (SWITCH_STUN_SHARED_SECRET_REQUEST, "SHARED_SECRET_REQUEST");
  (SWITCH_STUN_SHARED_SECRET_RESPONSE, "SHARED_SECRET_RESPONSE");
  (SWITCH_STUN_SHARED_SECRET_ERROR_RESPONSE, "SHARED_SECRET_ERROR_RESPONSE");
  (SWITCH_STUN_ALLOCATE_REQUEST, "ALLOCATE_REQUEST");
  (SWITCH_STUN_ALLOCATE_RESPONSE, "ALLOCATE_RESPONSE");
  (SWITCH_STUN_ALLOCATE_ERROR_RESPONSE, "ALLOCATE_ERROR_RESPONSE");
  (SWITCH_STUN_SEND_REQUEST, "SEND_REQUEST");
  (SWITCH_STUN_SEND_RESPONSE, "SEND_RESPONSE");
  (SWITCH_STUN_SEND_ERROR_RESPONSE, "SEND_ERROR_RESPONSE");
  (SWITCH_STUN_DATA_INDICATION, "DATA_INDICATION")].
Definition ATTR_TYPES : list (Z * string) := [
  (SWITCH_STUN_ATTR_MAPPED_ADDRESS, "MAPPED_ADDRESS");
  (SWITCH_STUN_ATTR_XOR_MAPPED_ADDRESS, "XOR_MAPPED_ADDRESS");
  (SWITCH_STUN_ATTR_RESPONSE_ADDRESS, "RESPONSE_ADDRESS");
  (SWITCH_STUN_ATTR_CHANGE_REQUEST, "CHANGE_REQUEST");
  (SWITCH_STUN_ATTR_SOURCE_ADDRESS, "SOURCE_ADDRESS");
  (SWITCH_STUN_ATTR_CHANGED_ADDRESS, "CHANGED_ADDRESS");
  (SWITCH_STUN_ATTR_USERNAME, "USERNAME");
  (SWITCH_STUN_ATTR_PASSWORD, "PASSWORD");
  (SWITCH_STUN_ATTR_MESSAGE_INTEGRITY, "MESSAGE_INTEGRITY");
  (SWITCH_STUN_ATTR_ERROR_CODE, "ERROR_CODE");
  (SWITCH_STUN_ATTR_UNKNOWN_ATTRIBUTES, "UNKNOWN_ATTRIBUTES");
  (SWITCH_STUN_ATTR_REFLECTED_FROM, "REFLECTED_FROM");
  (SWITCH_STUN_ATTR_TRANSPORT_PREFERENCES, "TRANSPORT_PREFERENCES");
  (SWITCH_STUN_ATTR_LIFETIME, "LIFETIME");
  (SWITCH_STUN_ATTR_ALTERNATE_SERVER, "ALTERNATE_SERVER");
  (SWITCH_STUN_ATTR_MAGIC_COOKIE, "MAGIC_COOKIE");
  (SWITCH_STUN_ATTR_BANDWIDTH, "BANDWIDTH");
  (SWITCH_STUN_ATTR_DESTINATION_ADDRESS, "DESTINATION_ADDRESS");
  (SWITCH_STUN_ATTR_SOURCE_ADDRESS2, "SOURCE_ADDRESS2");
  (SWITCH_STUN_ATTR_DATA, "DATA");
  (SWITCH_STUN_ATTR_OPTIONS, "OPTIONS");
  (SWITCH_STUN_ATTR_PRIORITY, "PRIORITY");
  (SWITCH_STUN_ATTR_USE_CAND, "USE_CAND");
  (SWITCH_STUN_ATTR_PADDING, "PADDING");
  (SWITCH_STUN_ATTR_RESP_PORT, "RESP_PORT");
  (SWITCH_STUN_ATTR_SOFTWARE, "SOFTWARE");
  (SWITCH_STUN_ATTR_ALT_SERVER, "ALT_SERVER");
  (SWITCH_STUN_ATTR_FINGERPRINT, "FINGERPRINT");
  (SWITCH_STUN_ATTR_CONTROLLED, "CONTROLLED");
  (SWITCH_STUN_ATTR_CONTROLLING, "CONTROLLING");
  (SWITCH_STUN_ATTR_RESP_ORIGIN, "RESP_ORIGIN");
  (SWITCH_STUN_ATTR_OTHER_ADDR, "OTHER_ADDR")].
Definition ERROR_TYPES : list (Z * string) := [
  (SWITCH_STUN_ERROR_BAD_REQUEST, "BAD_REQUEST");
  (SWITCH_STUN_ERROR_UNAUTHORIZED, "UNAUTHORIZED");
  (SWITCH_STUN_ERROR_UNKNOWN_ATTRIBUTE, "UNKNOWN_ATTRIBUTE");
  (SWITCH_STUN_ERROR_STALE_CREDENTIALS, "STALE_CREDENTIALS");
  (SWITCH_STUN_ERROR_INTEGRITY_CHECK_FAILURE, "INTEGRITY_CHECK_FAILURE");
  (SWITCH_STUN_ERROR_MISSING_USERNAME, "MISSING_USERNAME");
  (SWITCH_STUN_ERROR_USE_TLS, "USE_TLS");
  (SWITCH_STUN_ERROR_SERVER_ERROR, "SERVER_ERROR");
  (SWITCH_STUN_ERROR_GLOBAL_FAILURE, "GLOBAL_FAILURE")].

Inductive switch_stun_type := SWITCH_STUN_TYPE_PACKET_TYPE | SWITCH_STUN_TYPE_ATTRIBUTE | SWITCH_STUN_TYPE_ERROR.

Fixpoint map_name (map : list (Z * string)) (value : Z) : string :=
  match map with
  | [] => "INVALID"
  | (v, name) :: map => if v =? value then name else map_name map value
  end.
(** [None]: a number that is no [switch_stun_type_t]. *)
Definition switch_stun_value_to_name (type : option switch_stun_type) (value : Z) : string :=
  match type with
  | Some SWITCH_STUN_TYPE_PACKET_TYPE => map_name PACKET_TYPES value
  | Some SWITCH_STUN_TYPE_ATTRIBUTE => map_name ATTR_TYPES value
  | Some SWITCH_STUN_TYPE_ERROR => map_name ERROR_TYPES value
  | None => "INVALID"
  end.

Definition one_of (x : Z) (l : list Z) : bool := existsb (Z.eqb x) l.

(** ** Parsing *)

(** The header takes 20 bytes, an attribute 4 and its value, which is padded to a
    multiple of four; the sum is cut to 16 bits. *)
Definition switch_stun_attribute_padded_length (length : Z) : Z :=
  i16 (if Z.land length 3 =? 0 then length else 4 + Z.land length (Z.lnot 3)).

Definition known_packet (type : Z) : bool :=
  one_of type [SWITCH_STUN_BINDING_REQUEST; SWITCH_STUN_BINDING_RESPONSE; SWITCH_STUN_BINDING_ERROR_RESPONSE;
    SWITCH_STUN_SHARED_SECRET_REQUEST; SWITCH_STUN_SHARED_SECRET_RESPONSE; SWITCH_STUN_SHARED_SECRET_ERROR_RESPONSE;
    SWITCH_STUN_ALLOCATE_REQUEST; SWITCH_STUN_ALLOCATE_RESPONSE; SWITCH_STUN_ALLOCATE_ERROR_RESPONSE;
    SWITCH_STUN_SEND_REQUEST; SWITCH_STUN_SEND_RESPONSE; SWITCH_STUN_SEND_ERROR_RESPONSE; SWITCH_STUN_DATA_INDICATION].
Definition address_type (type : Z) : bool :=
  one_of type [SWITCH_STUN_ATTR_MAPPED_ADDRESS; SWITCH_STUN_ATTR_XOR_MAPPED_ADDRESS; SWITCH_STUN_ATTR_RESPONSE_ADDRESS;
    SWITCH_STUN_ATTR_SOURCE_ADDRESS; SWITCH_STUN_ATTR_CHANGED_ADDRESS; SWITCH_STUN_ATTR_REFLECTED_FROM;
    SWITCH_STUN_ATTR_ALTERNATE_SERVER; SWITCH_STUN_ATTR_DESTINATION_ADDRESS; SWITCH_STUN_ATTR_PRIORITY].
Definition number_type (type : Z) : bool :=
  one_of type [SWITCH_STUN_ATTR_CHANGE_REQUEST; SWITCH_STUN_ATTR_LIFETIME; SWITCH_STUN_ATTR_BANDWIDTH; SWITCH_STUN_ATTR_OPTIONS].

(** [x = ntohs(x)] and [x = ntohl(x)] in memory. *)
Definition swap16_at (m : list Z) (o : Z) : outcome (Z * list Z) :=
  let* x := get16 m o in let* m := put16 m o (ntohs x) in Ok (ntohs x, m).
Definition swap32_at (m : list Z) (o : Z) : outcome (list Z) :=
  let* x := get32 m o in put32 m o (ntohl x).

(** The switch over the type of an attribute with its value at [v]; [None] is a
    packet that is refused. *)
Definition parse_value (m : list Z) (v type length : Z) : outcome (option (list Z)) :=
  if address_type type then let* (_, m) := swap16_at m (v + 2) in Ok (Some m)
  else if type =? SWITCH_STUN_ATTR_SOURCE_ADDRESS2 then
    let* family := get8 m (v + 1) in
    match (if family =? 1 then Some 4 else if family =? 2 then Some 16 else None) with
    | None => Ok None
    | Some addr_length =>
        if negb (length =? addr_length + 4) then Ok None
        else let* (_, m) := swap16_at m (v + 2) in Ok (Some m)
    end
  else if number_type type then
    if negb (length =? 4) then Ok None else let* m := swap32_at m v in Ok (Some m)
  else if type =? SWITCH_STUN_ATTR_ERROR_CODE then let* m := swap32_at m v in Ok (Some m)
  else if type =? SWITCH_STUN_ATTR_MESSAGE_INTEGRITY then
    if negb (length =? 20) then Ok None else Ok (Some m)
  else if type =? SWITCH_STUN_ATTR_MAGIC_COOKIE then
    if negb (length =? 4) then Ok None else Ok (Some m)
  else if type =? SWITCH_STUN_ATTR_UNKNOWN_ATTRIBUTES then
    if negb (length mod 2 =? 0) then Ok None else Ok (Some m)
  else Ok (Some m).

(** The loop, with the attribute at offset [attr]; the result says how many bytes
    were left, [None] for a packet that is refused.  [fuel] bounds the turns: that
    it is enough follows where [UB] is ruled out. *)
Fixpoint parse_loop (fuel : nat) (m : list Z) (len attr bytes_left xlen : Z) : outcome (list Z * option Z) :=
  match fuel with
  | O => UB
  | S fuel =>
      if bytes_left <? 4 then Ok (m, None) else
      let* (length, m) := swap16_at m (attr + 2) in
      let* (type, m) := swap16_at m attr in
      let bytes_left := u32 (bytes_left - 4) in
      let alen := switch_stun_attribute_padded_length length in
      if (i32 bytes_left <? alen) || (alen <? 0) then Ok (m, None) else
      let* r := parse_value m (attr + 4) type length in
      match r with
      | None => Ok (m, None)
      | Some m =>
          let bytes_left := u32 (bytes_left - alen) in
          if alen =? 0 then Ok (m, Some bytes_left) else
          let xlen := xlen + (4 + alen) in
          let attr := attr + 4 + alen in
          if len <? attr then Ok (m, Some bytes_left) else
          let* header_length := get16 m 2 in
          if xlen <? header_length then parse_loop fuel m len attr bytes_left xlen
          else Ok (m, Some bytes_left)
      end
  end.

(** The packet begins where the buffer does; [false] is the null pointer. *)
Definition switch_stun_packet_parse (m : list Z) (len : Z) : outcome (list Z * bool) :=
  if len <? SWITCH_STUN_PACKET_MIN_LEN then Ok (m, false) else
  let* (type, m) := swap16_at m 0 in
  let* (length, m) := swap16_at m 2 in
  let bytes_left := u32 (len - 20) in
  if bytes_left <? length then Ok (m, false) else
  if negb (known_packet type) then Ok (m, false) else
  if bytes_left <=? 0 then Ok (m, false) else
  if length =? 0 then Ok (m, false) else
  if bytes_left <? SWITCH_STUN_ATTRIBUTE_MIN_LEN then Ok (m, false) else
  let* (m, r) := parse_loop (Z.to_nat len) m len 20 bytes_left 0 in
  match r with
  | None => Ok (m, false)
  | Some bytes_left =>
      let* length := get16 m 2 in
      if u32 (len - bytes_left) <? u32 (length + 20) then
        let* m := put16 m 2 (u16 (u32 (len - bytes_left) - 20)) in Ok (m, true)
      else Ok (m, true)
  end.

(** ** The parser stays in the buffer *)

(** What a step leaves alone: the size and everything from [k] on. *)
Definition untouched (k : Z) (m m' : list Z) : Prop := zlen m' = zlen m /\ Forall byte m' /\ zdrop k m' = zdrop k m.
Lemma untouched_refl k m : Forall byte m -> untouched k m m.
Proof. intros B. by split_and!. Qed.
Lemma untouched_trans k m m' m'' : untouched k m m' -> untouched k m' m'' -> untouched k m m''.
Proof. intros (L & B & D) (L' & B' & D'). split_and!; [lia|done|congruence]. Qed.

Lemma swap16_in k m o : Forall byte m -> 0 <= o -> o + 2 <= k -> k <= zlen m ->
  exists x m', swap16_at m o = Ok (x, m') /\ 0 <= x < 65536 /\ untouched k m m'.
Proof.
  intros B Ho Hk L. unfold swap16_at. destruct (get16_in m o B Ho ltac:(lia)) as (x & -> & _). unfold put16.
  destruct (splice_in m o (le_bytes 2 (ntohs x)) B (le_bytes_byte _ _) Ho) as (m' & -> & L' & B' & D); [rewrite le_bytes_length; lia|].
  eexists _, m'. split_and!; [done|apply swap16_range..|]. split_and!; [done..|]. apply D. rewrite le_bytes_length. lia.
Qed.
Lemma swap32_in k m o : Forall byte m -> 0 <= o -> o + 4 <= k -> k <= zlen m ->
  exists m', swap32_at m o = Ok m' /\ untouched k m m'.
Proof.
  intros B Ho Hk L. unfold swap32_at. destruct (get32_in m o B Ho ltac:(lia)) as (x & -> & _). unfold put32.
  destruct (splice_in m o (le_bytes 4 (ntohl x)) B (le_bytes_byte _ _) Ho) as (m' & -> & L' & B' & D); [rewrite le_bytes_length; lia|].
  exists m'. split; [done|]. split_and!; [done..|]. apply D. rewrite le_bytes_length. lia.
Qed.

Lemma parse_value_in k m v type length : Forall byte m -> 0 <= v -> v + 4 <= k -> k <= zlen m ->
  exists r, parse_value m v type length = Ok r /\ forall m', r = Some m' -> untouched k m m'.
Proof.
  intros B Hv Hk L. unfold parse_value.
  assert (K : exists r, Ok (Some m) = Ok r /\ forall m', r = Some m' -> untouched k m m').
  { eexists. split; [done|]. intros m' [= <-]. by apply untouched_refl. }
  assert (N : exists r : option (list Z), Ok None = Ok r /\ forall m', r = Some m' -> untouched k m m') by (eexists; by split).
  assert (P : exists r, (let* (_, m) := swap16_at m (v + 2) in Ok (Some m)) = Ok r /\ forall m', r = Some m' -> untouched k m m').
  { destruct (swap16_in k m (v + 2) B) as (x & m' & -> & _ & K'); [lia..|]. eexists. split; [done|]. by intros ? [= <-]. }
  assert (W : exists r, (let* m := swap32_at m v in Ok (Some m)) = Ok r /\ forall m', r = Some m' -> untouched k m m').
  { destruct (swap32_in k m v B) as (m' & -> & K'); [lia..|]. eexists. split; [done|]. by intros ? [= <-]. }
  destruct (address_type type); [done|]. destruct (type =? _).
  { unfold get8. destruct (slice_in m (v + 1) 1 B) as (b & -> & _); [lia..|]. repeat (case_match; try done). }
  repeat (case_match; try done).
Qed.

Lemma parse_loop_in fuel : forall m len attr bytes_left xlen,
  Forall byte m -> 20 <= attr -> attr + bytes_left = len -> 0 <= bytes_left < Z.of_nat fuel -> len < 2 ^ 31 -> len + 4 <= zlen m ->
  exists m' r, parse_loop fuel m len attr bytes_left xlen = Ok (m', r) /\ untouched (len + 4) m m' /\
    match r with None => True | Some b => 0 <= b <= bytes_left - 4 end.
Proof.
  induction fuel as [|fuel IH]; intros m len attr bl xlen B Ha E Hf H31 Hm; [lia|]. cbn [parse_loop].
  destruct (Z.ltb_spec bl 4) as [Lt|Ge]; [exists m, None; split_and!; [done|by apply untouched_refl|done]|].
  destruct (swap16_in (len + 4) m (attr + 2) B) as (length & m1 & -> & Rl & K1); [lia..|]. pose proof K1 as (L1 & B1 & _).
  destruct (swap16_in (len + 4) m1 attr B1) as (type & m2 & -> & Rt & K2); [lia..|]. pose proof K2 as (L2 & B2 & _).
  pose proof (untouched_trans _ _ _ _ K1 K2) as K3. rewrite u32_small by lia. set (alen := switch_stun_attribute_padded_length length).
  replace (i32 (bl - 4)) with (bl - 4) by cint.
  destruct (Z.ltb_spec (bl - 4) alen) as [Lt|Le]; [by exists m2, None|]. destruct (Z.ltb_spec alen 0) as [Lt|Nn]; [by exists m2, None|]. cbn [orb].
  destruct (parse_value_in (len + 4) m2 (attr + 4) type length B2) as (r & -> & K4); [lia..|]. destruct r as [m3|]; [|by exists m2, None].
  specialize (K4 m3 eq_refl). pose proof K4 as (L3 & B3 & _). pose proof (untouched_trans _ _ _ _ K3 K4) as K5. rewrite u32_small by lia.
  assert (Done : exists m' r, Ok (m3, Some (bl - 4 - alen)) = Ok (m', r) /\ untouched (len + 4) m m' /\
    match r with None => True | Some b => 0 <= b <= bl - 4 end).
  { exists m3, (Some (bl - 4 - alen)). split_and!; try done; lia. }
  destruct (Z.eqb_spec alen 0) as [Z0|NZ]; [done|]. destruct (Z.ltb_spec len (attr + 4 + alen)) as [Lt|Ge2]; [done|].
  destruct (get16_in m3 2 B3) as (h & -> & _); [lia..|]. destruct (_ <? h); [|done].
  destruct (IH m3 len (attr + 4 + alen) (bl - 4 - alen) (xlen + (4 + alen)) B3) as (m' & r & -> & K6 & R); [lia..|].
  exists m', r. split_and!; [done|by eapply untouched_trans|]. destruct r; [lia|done].
Qed.

Lemma parse_in m len : Forall byte m -> 0 <= len < 2 ^ 31 -> len + 4 <= zlen m ->
  exists m' r, switch_stun_packet_parse m len = Ok (m', r) /\ untouched (len + 4) m m'.
Proof.
  intros B Hl Hm. unfold switch_stun_packet_parse, SWITCH_STUN_PACKET_MIN_LEN, SWITCH_STUN_ATTRIBUTE_MIN_LEN.
  destruct (Z.ltb_spec len 20) as [Lt|Ge]; [exists m, false; split; [done|by apply untouched_refl]|].
  destruct (swap16_in (len + 4) m 0 B) as (type & m1 & -> & _ & K1); [lia..|]. pose proof K1 as (L1 & B1 & _).
  destruct (swap16_in (len + 4) m1 2 B1) as (length & m2 & -> & _ & K2); [lia..|]. pose proof K2 as (L2 & B2 & _).
  pose proof (untouched_trans _ _ _ _ K1 K2) as K3. rewrite !u32_small by lia.
  do 5 (case_match; [by exists m2, false|]). btests.
  destruct (parse_loop_in (Z.to_nat len) m2 len 20 (len - 20) 0 B2) as (m3 & r & -> & K4 & R); [lia..|].
  pose proof (untouched_trans _ _ _ _ K3 K4) as K5. pose proof K5 as (L3 & B3 & _). destruct r as [b|]; [|by exists m3, false].
  destruct (get16_in m3 2 B3) as (h & -> & _); [lia..|]. destruct (_ <? _); [|by exists m3, true]. unfold put16.
  destruct (splice_in m3 2 (le_bytes 2 (u16 (u32 (len - b) - 20))) B3 (le_bytes_byte _ _)) as (m4 & -> & L4 & B4 & D); [lia|rewrite le_bytes_length; lia|].
  exists m4, true. split; [done|]. eapply untouched_trans; [done|]. split_and!; [done..|]. apply D. rewrite le_bytes_length. lia.
Qed.

(** ** What a parsed packet is

    The contents of a packet, its bytes on the wire and its bytes in host order. *)

Record attr := mk_attr { a_type : Z; a_value : list Z; a_pad : list Z }.
Record packet := mk_packet { p_type : Z; p_rest : list Z; p_attrs : list attr }.

Definition be16 (v : Z) : list Z := [v / 256; v mod 256].
Definition wire (a : attr) : list Z := be16 (a_type a) ++ be16 (zlen (a_value a)) ++ a_value a ++ a_pad a.
Definition wires (l : list attr) : list Z := concat (wire <$> l).

Definition swap_port (l : list Z) : list Z :=
  match l with a :: b :: c :: d :: l => a :: b :: d :: c :: l | _ => l end.
Definition swap_word (l : list Z) : list Z :=
  match l with a :: b :: c :: d :: l => d :: c :: b :: a :: l | _ => l end.

(** What the value of an attribute holds, by the protocol: a family with a port
    and an address, a number of 32 bits, an error code with its text, a digest,
    the cookie, a list of types, or bytes, which the values of all other types
    come through as (so do addresses of types that the header file names and no
    code looks at, ALT_SERVER, RESP_ORIGIN and OTHER_ADDR).  The second source
    address comes with the length of its family, and a priority is a number too,
    but stands apart: the code takes it for an address. *)
Inductive layout := Address | Address2 | Number | ErrorCode | Digest | Cookie | Types | Priority | Raw.
Definition layouts : list (Z * layout) := [
  (SWITCH_STUN_ATTR_MAPPED_ADDRESS, Address); (SWITCH_STUN_ATTR_RESPONSE_ADDRESS, Address);
  (SWITCH_STUN_ATTR_CHANGE_REQUEST, Number); (SWITCH_STUN_ATTR_SOURCE_ADDRESS, Address);
  (SWITCH_STUN_ATTR_CHANGED_ADDRESS, Address); (SWITCH_STUN_ATTR_MESSAGE_INTEGRITY, Digest);
  (SWITCH_STUN_ATTR_ERROR_CODE, ErrorCode); (SWITCH_STUN_ATTR_UNKNOWN_ATTRIBUTES, Types);
  (SWITCH_STUN_ATTR_REFLECTED_FROM, Address); (SWITCH_STUN_ATTR_LIFETIME, Number);
  (SWITCH_STUN_ATTR_ALTERNATE_SERVER, Address); (SWITCH_STUN_ATTR_MAGIC_COOKIE, Cookie);
  (SWITCH_STUN_ATTR_BANDWIDTH, Number); (SWITCH_STUN_ATTR_DESTINATION_ADDRESS, Address);
  (SWITCH_STUN_ATTR_SOURCE_ADDRESS2, Address2); (SWITCH_STUN_ATTR_XOR_MAPPED_ADDRESS, Address);
  (SWITCH_STUN_ATTR_PRIORITY, Priority); (SWITCH_STUN_ATTR_OPTIONS, Number)].
Fixpoint layout_in (l : list (Z * layout)) (type : Z) : layout :=
  match l with
  | [] => Raw
  | (t, x) :: l => if type =? t then x else layout_in l type
  end.
Definition layout_of (type : Z) : layout := layout_in layouts type.

(** The value in host order: ports and numbers are turned round; of a priority
    the two bytes that would be a port are. *)
Definition host_value (type : Z) (l : list Z) : list Z :=
  match layout_of type with
  | Address | Address2 => swap_port l
  | Number | ErrorCode => swap_word l
  | Priority => swap_port l
  | Digest | Cookie | Types | Raw => l
  end.
Definition host (a : attr) : list Z :=
  le_bytes 2 (a_type a) ++ le_bytes 2 (zlen (a_value a)) ++ host_value (a_type a) (a_value a ++ a_pad a).

(** Parsing ends at the first attribute without a value. *)
Definition no_value (a : attr) : bool := match a_value a with [] => true | _ => false end.
Fixpoint seen (l : list attr) : list attr :=
  match l with [] => [] | a :: l => a :: if no_value a then [] else seen l end.
Fixpoint hosts (l : list attr) : list Z :=
  match l with [] => [] | a :: l => host a ++ if no_value a then wires l else hosts l end.

Definition wire_packet (p : packet) : list Z :=
  be16 (p_type p) ++ be16 (zlen (wires (p_attrs p))) ++ p_rest p ++ wires (p_attrs p).
Definition host_packet (p : packet) : list Z :=
  le_bytes 2 (p_type p) ++ le_bytes 2 (zlen (wires (seen (p_attrs p)))) ++ p_rest p ++ hosts (p_attrs p).

(** Lengths that the types ask for. *)
Definition value_ok (type : Z) (value : list Z) : bool :=
  let length := zlen value in
  match layout_of type with
  | Address | Priority | ErrorCode => negb (length =? 0)
  | Address2 =>
    ((length =? 8) && bool_decide (value !! 1%nat = Some 1)) || ((length =? 20) && bool_decide (value !! 1%nat = Some 2))
  | Number | Cookie => length =? 4
  | Digest => length =? 20
  | Types => length mod 2 =? 0
  | Raw => true
  end.
Definition attr_ok (a : attr) : Prop :=
  0 <= a_type a < 65536 /\ Forall byte (a_value a ++ a_pad a) /\ zlen (a_value a) < 32764 /\
  zlen (a_pad a) = (- zlen (a_value a)) mod 4 /\ value_ok (a_type a) (a_value a) = true.
Definition packet_ok (p : packet) : Prop :=
  known_packet (p_type p) = true /\ length (p_rest p) = 16%nat /\ Forall attr_ok (seen (p_attrs p)) /\
  8 <= zlen (wires (p_attrs p)) < 65536.

(** ** Swaps in place *)

Lemma be16_le v : 0 <= v < 65536 -> [v mod 256; v / 256] = le_bytes 2 v.
Proof. intros H. cbn [le_bytes]. by rewrite (Z.mod_small (v / 256)) by cint. Qed.
Lemma swap16_be v : 0 <= v < 65536 -> swap16 (v / 256 + 256 * (v mod 256)) = v.
Proof. intros H. unfold swap16. cint. Qed.

Lemma swap16_at_app p v q o : o = zlen p -> 0 <= v < 65536 ->
  swap16_at (p ++ be16 v ++ q) o = Ok (v, p ++ le_bytes 2 v ++ q).
Proof.
  intros H Hv. unfold swap16_at, be16. cbn [app]. rewrite get16_app by done. rewrite put16_app by done. by rewrite swap16_be.
Qed.
Lemma swap16_at_two p a b q o : o = zlen p -> byte a -> byte b -> exists x,
  swap16_at (p ++ a :: b :: q) o = Ok (x, p ++ b :: a :: q).
Proof.
  intros H Ha Hb. unfold byte in *. exists (a * 256 + b).
  assert (M : (a * 256 + b) mod 256 = b) by cint. assert (D : (a * 256 + b) / 256 = a) by cint.
  replace (a :: b :: q) with (be16 (a * 256 + b) ++ q) by by unfold be16; rewrite M, D.
  rewrite swap16_at_app by lia. by rewrite <- be16_le, M, D by lia.
Qed.
Lemma swap32_at_app p a b c d q o : o = zlen p -> byte a -> byte b -> byte c -> byte d ->
  swap32_at (p ++ a :: b :: c :: d :: q) o = Ok (p ++ d :: c :: b :: a :: q).
Proof.
  intros H Ha Hb Hc Hd. unfold swap32_at, get32, put32. change (a :: b :: c :: d :: q) with ([a; b; c; d] ++ q).
  rewrite slice_app by done. rewrite splice_app; [|done|by rewrite le_bytes_length].
  replace (swap32 (le_val [a; b; c; d])) with (le_val [d; c; b; a]).
  - change 4%nat with (length [d; c; b; a]). by rewrite le_bytes_val by by rewrite !Forall_cons.
  - cbn [le_val]. unfold swap32, byte in *.
    replace ((a + 256 * (b + 256 * (c + 256 * (d + 256 * 0)))) mod 256) with a by cint.
    replace ((a + 256 * (b + 256 * (c + 256 * (d + 256 * 0)))) / 256 mod 256) with b by cint.
    replace ((a + 256 * (b + 256 * (c + 256 * (d + 256 * 0)))) / 65536 mod 256) with c by cint.
    replace ((a + 256 * (b + 256 * (c + 256 * (d + 256 * 0)))) / 16777216 mod 256) with d by cint. lia.
Qed.

(** ** Parsing is exact *)

Lemma four_more (l : list Z) : (4 <= length l)%nat -> exists a b c d r, l = a :: b :: c :: d :: r.
Proof. destruct l as [|a [|b [|c [|d r]]]]; cbn; try lia. by exists a, b, c, d, r. Qed.

Lemma value_room a : attr_ok a -> no_value a = false -> (4 <= length (a_value a ++ a_pad a))%nat /\
  zlen (a_value a ++ a_pad a) mod 4 = 0 /\
  switch_stun_attribute_padded_length (zlen (a_value a)) = zlen (a_value a ++ a_pad a).
Proof.
  intros (_ & _ & L & P & _) N. rewrite !length_app. unfold no_value in N.
  assert (1 <= zlen (a_value a)) by (destruct (a_value a); [done|cbn; lia]).
  split_and!; [cint|cint|]. unfold switch_stun_attribute_padded_length.
  assert (E : Z.land (zlen (a_value a)) 3 = zlen (a_value a) mod 4) by (change 3 with (Z.ones 2); by apply Z.land_ones).
  assert (E' : Z.land (zlen (a_value a)) (Z.lnot 3) = zlen (a_value a) / 4 * 4).
  { change 3 with (Z.ones 2). rewrite <- Z.ldiff_land, Z.ldiff_ones_r by lia. rewrite Z.shiftr_div_pow2, Z.shiftl_mul_pow2 by lia. done. }
  rewrite E, E'. unfold i16. destruct (Z.eqb_spec (zlen (a_value a) mod 4) 0); cint.
Qed.

(** The parser's classes of types are those of the protocol, but for the
    priority. *)
Lemma layout_classes type :
  address_type type = (match layout_of type with Address | Priority => true | _ => false end) /\
  number_type type = (match layout_of type with Number => true | _ => false end) /\
  (type =? SWITCH_STUN_ATTR_SOURCE_ADDRESS2) = (match layout_of type with Address2 => true | _ => false end) /\
  (type =? SWITCH_STUN_ATTR_ERROR_CODE) = (match layout_of type with ErrorCode => true | _ => false end) /\
  (type =? SWITCH_STUN_ATTR_MESSAGE_INTEGRITY) = (match layout_of type with Digest => true | _ => false end) /\
  (type =? SWITCH_STUN_ATTR_MAGIC_COOKIE) = (match layout_of type with Cookie => true | _ => false end) /\
  (type =? SWITCH_STUN_ATTR_UNKNOWN_ATTRIBUTES) = (match layout_of type with Types => true | _ => false end).
Proof.
  unfold address_type, number_type, one_of, existsb, layout_of, layouts, layout_in.
  repeat match goal with
  | |- context [type =? ?k] => destruct (Z.eqb_spec type k) as [->|?]; [vm_compute; split_and!; reflexivity|]
  end.
  split_and!; reflexivity.
Qed.

Lemma parse_value_exact a p q : attr_ok a -> no_value a = false ->
  parse_value (p ++ (a_value a ++ a_pad a) ++ q) (zlen p) (a_type a) (zlen (a_value a)) =
  Ok (Some (p ++ host_value (a_type a) (a_value a ++ a_pad a) ++ q)).
Proof.
  intros A N. destruct (value_room a A N) as (L4 & _ & _). destruct A as (_ & B & _ & _ & V).
  destruct (four_more _ L4) as (x & y & z & w & r & E). rewrite E in *. rewrite !Forall_cons in B. destruct B as (Bx & By & Bz & Bw & _).
  assert (P : (let* (_, m) := swap16_at (p ++ (x :: y :: z :: w :: r) ++ q) (zlen p + 2) in Ok (Some m)) =
    Ok (Some (p ++ (x :: y :: w :: z :: r) ++ q))).
  { destruct (swap16_at_two (p ++ [x; y]) z w (r ++ q) (zlen p + 2)) as (v & K); [rewrite length_app; cbn; lia|done..|].
    rewrite <- !app_assoc in K. cbn [app] in K |- *. by rewrite K. }
  assert (W : (let* m := swap32_at (p ++ (x :: y :: z :: w :: r) ++ q) (zlen p) in Ok (Some m)) =
    Ok (Some (p ++ (w :: z :: y :: x :: r) ++ q))) by (cbn [app]; by rewrite swap32_at_app).
  unfold parse_value, host_value, value_ok in *.
  destruct (layout_classes (a_type a)) as (-> & -> & -> & -> & -> & -> & ->).
  destruct (layout_of (a_type a)); try rewrite V; try exact P; try exact W; try done.
  - assert (F : a_value a !! 1%nat = Some y).
    { assert (2 <= length (a_value a))%nat by (destruct (Z.eqb_spec (zlen (a_value a)) 8), (Z.eqb_spec (zlen (a_value a)) 20); try done; lia).
      rewrite <- (lookup_app_l (a_value a) (a_pad a)) by lia. by rewrite E. }
    assert (G : get8 (p ++ (x :: y :: z :: w :: r) ++ q) (zlen p + 1) = Ok y).
    { unfold get8. replace (p ++ (x :: y :: z :: w :: r) ++ q) with ((p ++ [x]) ++ [y] ++ (z :: w :: r) ++ q) by by rewrite <- !app_assoc.
      rewrite slice_app by (rewrite ?length_app; cbn; lia). cbn [le_val]. f_equal. lia. }
    rewrite G. rewrite F in V. apply orb_prop in V as [V|V]; btests; case_bool_decide; try done; simplify_eq.
    + change (1 =? 1) with true. cbv iota. match goal with H : zlen _ = 8 |- _ => rewrite H end. exact P.
    + change (2 =? 1) with false. change (2 =? 2) with true. cbv iota. match goal with H : zlen _ = 20 |- _ => rewrite H end. exact P.
Qed.

Lemma parse_value_empty a m v : attr_ok a -> no_value a = true -> parse_value m v (a_type a) 0 = Ok (Some m).
Proof.
  intros (_ & _ & _ & _ & V) N. unfold no_value in N. destruct (a_value a) eqn:E; [|done]. unfold parse_value, value_ok in *.
  destruct (layout_classes (a_type a)) as (-> & -> & -> & -> & -> & -> & ->). by destruct (layout_of (a_type a)).
Qed.

Lemma wires_cons a l : wires (a :: l) = wire a ++ wires l.
Proof. done. Qed.
Lemma length_wire a : zlen (wire a) = 4 + zlen (a_value a ++ a_pad a).
Proof. unfold wire, be16. rewrite !length_app. cbn [length]. lia. Qed.
Lemma length_swaps l : length (swap_port l) = length l /\ length (swap_word l) = length l.
Proof. destruct l as [|a [|b [|c [|d l]]]]; done. Qed.
Lemma length_host a : zlen (host a) = zlen (wire a).
Proof.
  rewrite length_wire. unfold host, host_value. rewrite !length_app, !le_bytes_length.
  repeat case_match; rewrite ?(proj1 (length_swaps _)), ?(proj2 (length_swaps _)), ?length_app; lia.
Qed.

(** The memory while the loop runs: a header with the length [hl], what was
    parsed, the attributes to come, the rest. *)
Lemma parse_loop_exact l : forall fuel h0 h1 done_ rest hl len, l <> [] -> Forall attr_ok (seen l) ->
  length h0 = 2%nat -> length h1 = 16%nat -> hl = zlen done_ + zlen (wires l) -> 0 <= hl < 65536 ->
  20 + hl <= len < 2 ^ 31 -> zlen (wires l) < Z.of_nat fuel ->
  parse_loop fuel (h0 ++ le_bytes 2 hl ++ h1 ++ done_ ++ wires l ++ rest) len (20 + zlen done_)
    (len - 20 - zlen done_) (zlen done_) =
  Ok (h0 ++ le_bytes 2 hl ++ h1 ++ done_ ++ hosts l ++ rest, Some (len - 20 - zlen done_ - zlen (wires (seen l)))).
Proof.
  induction l as [|a l IH]; intros fuel h0 h1 dn rest hl len NE A L0 L1 Ehl Rhl Hlen Hf; [done|].
  destruct fuel as [|fuel]; [lia|]. cbn [parse_loop seen hosts]. rewrite wires_cons in *. rewrite length_app in Ehl, Hf.
  apply Forall_cons in A as [Aa A]. pose proof Aa as (Rt & Bv & Lv & Lp & _). pose proof (length_wire a) as Lw.
  rewrite (proj2 (Z.ltb_ge _ 4)) by lia.
  set (H := h0 ++ le_bytes 2 hl ++ h1 ++ dn). assert (LH : zlen H = 20 + zlen dn) by (unfold H; rewrite !length_app, le_bytes_length; lia).
  assert (Assoc : forall x, h0 ++ le_bytes 2 hl ++ h1 ++ dn ++ x = H ++ x) by (intros x; unfold H; by rewrite <- !app_assoc).
  rewrite !Assoc. set (vp := a_value a ++ a_pad a) in *. set (tail := wires l ++ rest).
  assert (M1 : H ++ (wire a ++ wires l) ++ rest = (H ++ be16 (a_type a)) ++ be16 (zlen (a_value a)) ++ vp ++ tail).
  { unfold wire, vp, tail. by rewrite <- !app_assoc. }
  rewrite M1. rewrite swap16_at_app; [|rewrite length_app; cbn; lia|cbn in Lv |- *; lia].
  assert (M2 : (H ++ be16 (a_type a)) ++ le_bytes 2 (zlen (a_value a)) ++ vp ++ tail =
               H ++ be16 (a_type a) ++ le_bytes 2 (zlen (a_value a)) ++ vp ++ tail) by by rewrite <- !app_assoc.
  rewrite M2. rewrite swap16_at_app by (done || lia). rewrite u32_small by lia.
  set (H2 := H ++ le_bytes 2 (a_type a) ++ le_bytes 2 (zlen (a_value a))).
  assert (LH2 : zlen H2 = 20 + zlen dn + 4) by (unfold H2; rewrite !length_app, !le_bytes_length; lia).
  assert (M3 : H ++ le_bytes 2 (a_type a) ++ le_bytes 2 (zlen (a_value a)) ++ vp ++ tail = H2 ++ vp ++ tail).
  { unfold H2. by rewrite <- !app_assoc. }
  rewrite M3. destruct (no_value a) eqn:N.
  - assert (E : a_value a = [] /\ vp = []).
    { unfold vp, no_value in *. destruct (a_value a) eqn:Ev; [|done]. cbn [length] in Lp. destruct (a_pad a); [done|cbn [length] in Lp; cint]. }
    destruct E as [Ev Evp]. rewrite Ev. cbn [length]. change (switch_stun_attribute_padded_length (Z.of_nat 0)) with 0.
    replace (i32 (len - 20 - zlen dn - 4)) with (len - 20 - zlen dn - 4) by cint.
    rewrite (proj2 (Z.ltb_ge (len - 20 - zlen dn - 4) 0)) by lia. change (0 <? 0) with false. cbn [orb].
    rewrite parse_value_empty by done. change (0 =? 0) with true. cbv iota. rewrite Z.sub_0_r, u32_small by lia.
    f_equal. f_equal; [|f_equal; rewrite wires_cons, length_app, Nat2Z.inj_add, Lw, Evp; cbn; lia].
    unfold H2, tail, host. fold vp. rewrite Evp. replace (host_value (a_type a) []) with (@nil Z) by (unfold host_value; repeat case_match; done).
    rewrite app_nil_r, Ev. cbn [length]. by rewrite <- !app_assoc.
  - destruct (value_room a Aa N) as (L4 & M4 & ->). fold vp in L4, M4 |- *.
    replace (i32 (len - 20 - zlen dn - 4)) with (len - 20 - zlen dn - 4) by cint.
    rewrite (proj2 (Z.ltb_ge (len - 20 - zlen dn - 4) (zlen vp))) by lia. rewrite (proj2 (Z.ltb_ge (zlen vp) 0)) by lia. cbn [orb].
    replace (20 + zlen dn + 4) with (zlen H2) by lia. pose proof (parse_value_exact a H2 tail Aa N) as PV. fold vp in PV. rewrite PV.
    rewrite (proj2 (Z.eqb_neq (zlen vp) 0)) by lia. rewrite u32_small by lia. rewrite LH2.
    rewrite (proj2 (Z.ltb_ge len _)) by lia.
    assert (M5 : H2 ++ host_value (a_type a) vp ++ tail = h0 ++ le_bytes 2 hl ++ h1 ++ (dn ++ host a) ++ wires l ++ rest).
    { unfold H2, H, host, tail. fold vp. by rewrite <- !app_assoc. }
    rewrite M5. pose proof (length_host a) as Lh.
    assert (G : get16 (h0 ++ le_bytes 2 hl ++ h1 ++ (dn ++ host a) ++ wires l ++ rest) 2 = Ok hl).
    { apply get16_le; lia. }
    rewrite G. destruct l as [|b l].
    + cbn [wires fmap list_fmap concat length] in Ehl. rewrite (proj2 (Z.ltb_ge _ hl)) by lia. f_equal. f_equal.
      * cbn [seen hosts wires fmap list_fmap concat app]. by rewrite app_nil_r, <- !app_assoc.
      * f_equal. cbn [seen]. rewrite wires_cons, length_app, Nat2Z.inj_add, Lw. cbn. lia.
    + assert (0 < zlen (wires (b :: l))) by (rewrite wires_cons, length_app, Nat2Z.inj_add, length_wire; lia).
      rewrite (proj2 (Z.ltb_lt _ hl)) by lia.
      pose proof (IH fuel h0 h1 (dn ++ host a) rest hl len ltac:(done) A L0 L1) as IH'. rewrite !length_app in IH'.
      replace (20 + zlen dn + 4 + zlen vp) with (20 + Z.of_nat (length dn + length (host a))) by lia.
      replace (len - 20 - zlen dn - 4 - zlen vp) with (len - 20 - Z.of_nat (length dn + length (host a))) by lia.
      replace (zlen dn + (4 + zlen vp)) with (Z.of_nat (length dn + length (host a))) by lia.
      rewrite IH' by lia. f_equal. f_equal.
      * by rewrite <- !app_assoc.
      * f_equal. rewrite wires_cons, length_app. lia.
Qed.

Lemma one_of_in x l : one_of x l = true -> x ∈ l.
Proof. unfold one_of. rewrite existsb_exists. intros (y & I & ->%Z.eqb_eq). by apply list_elem_of_In. Qed.
Lemma known_range type : known_packet type = true -> 0 <= type < 65536.
Proof. intros K. apply one_of_in in K. repeat (apply elem_of_cons in K as [->|K]; [done|]). by apply elem_of_nil in K. Qed.
Lemma seen_shorter l : zlen (wires (seen l)) <= zlen (wires l).
Proof.
  induction l as [|a l IH]; [done|]. cbn [seen]. rewrite !wires_cons, !length_app. destruct (no_value a); [cbn [wires fmap list_fmap concat length]; lia|lia].
Qed.
Lemma be16_length v : zlen (be16 v) = 2.
Proof. done. Qed.

Lemma parse_exact p slack len : packet_ok p -> 20 + zlen (wires (p_attrs p)) <= len < 2 ^ 31 ->
  switch_stun_packet_parse (wire_packet p ++ slack) len = Ok (host_packet p ++ slack, true).
Proof.
  intros (K & L16 & A & Sz) Hl. pose proof (known_range _ K) as Rt.
  unfold switch_stun_packet_parse, wire_packet, host_packet, SWITCH_STUN_PACKET_MIN_LEN, SWITCH_STUN_ATTRIBUTE_MIN_LEN.
  set (attrs := p_attrs p) in *. rewrite (proj2 (Z.ltb_ge len 20)) by lia. rewrite <- !app_assoc.
  pose proof (swap16_at_app [] (p_type p) (be16 (zlen (wires attrs)) ++ p_rest p ++ wires attrs ++ slack) 0 eq_refl Rt) as S1.
  cbn [app] in S1. rewrite S1. rewrite swap16_at_app by (rewrite ?le_bytes_length; lia). rewrite u32_small by lia.
  rewrite (proj2 (Z.ltb_ge (len - 20) _)), K, (proj2 (Z.leb_gt (len - 20) 0)), (proj2 (Z.eqb_neq _ 0)), (proj2 (Z.ltb_ge _ 8)) by lia.
  cbn [negb]. pose proof (parse_loop_exact attrs (Z.to_nat len) (le_bytes 2 (p_type p)) (p_rest p) [] slack (zlen (wires attrs)) len) as P.
  cbn [app length] in P. change (Z.of_nat 0) with 0 in P. rewrite !Z.sub_0_r in P. rewrite (Z.add_0_r 20) in P.
  rewrite P; [|intros E; rewrite E in Sz; cbn in Sz; lia|done|by rewrite le_bytes_length|lia..]. clear P S1. pose proof (seen_shorter attrs) as SS.
  assert (G : forall q, get16 (le_bytes 2 (p_type p) ++ le_bytes 2 (zlen (wires attrs)) ++ q) 2 = Ok (zlen (wires attrs))).
  { intros q. apply get16_le; [done|lia]. }
  rewrite G, !u32_small by (rewrite ?u32_small; lia). replace (len - (len - 20 - zlen (wires (seen attrs)))) with (20 + zlen (wires (seen attrs))) by lia.
  destruct (Z.ltb_spec (20 + zlen (wires (seen attrs))) (zlen (wires attrs) + 20)) as [Lt|Ge].
  - replace (u16 _) with (zlen (wires (seen attrs))) by cint. by rewrite put16_le.
  - by replace (zlen (wires (seen attrs))) with (zlen (wires attrs)) by lia.
Qed.

(** C30. Whatever bytes arrive, parsing ends, keeps the size of the buffer and
    touches nothing from four bytes behind the packet on. *)
Theorem stun_parse_safe m len : Forall byte m -> 0 <= len < 2 ^ 31 -> len + 4 <= zlen m ->
  exists m' r, switch_stun_packet_parse m len = Ok (m', r) /\
    zlen m' = zlen m /\ Forall byte m' /\ zdrop (len + 4) m' = zdrop (len + 4) m.
Proof. apply parse_in. Qed.

(** The four bytes are needed: an attribute without a value at the end of the
    buffer has bytes behind it swapped. *)
Lemma stun_parse_overrun :
  switch_stun_packet_parse (wire_packet (mk_packet SWITCH_STUN_BINDING_RESPONSE (replicate 16 0)
    [mk_attr SWITCH_STUN_ATTR_USERNAME [1; 2; 3; 4] []; mk_attr SWITCH_STUN_ATTR_ERROR_CODE [] []])) 32 = UB.
Proof. vm_compute. reflexivity. Qed.

(** A length near 65536 is padded to 0, so that an attribute that claims 65535
    bytes is let through. *)
Lemma stun_length_wraps :
  switch_stun_attribute_padded_length 65535 = 0 /\
  exists m, switch_stun_packet_parse ([1; 1; 0; 8] ++ replicate 16 0 ++ [0; 6; 255; 255; 0; 0; 0; 0]) 28 = Ok (m, true).
Proof. split; [reflexivity|]. eexists. vm_compute. reflexivity. Qed.

(** A well-formed packet is turned into host order exactly: its header, the
    attributes and the ports and numbers in them up to the first attribute
    without a value, where the length is cut. *)
Theorem stun_parse_exact p slack len : packet_ok p -> 20 + zlen (wires (p_attrs p)) <= len < 2 ^ 31 ->
  switch_stun_packet_parse (wire_packet p ++ slack) len = Ok (host_packet p ++ slack, true).
Proof. apply parse_exact. Qed.

(** The parser takes a priority for an address and swaps two of its bytes,
    where a number has all four turned round. *)
Lemma stun_priority_garbled :
  parse_value [0x6E; 0x00; 0x01; 0xFF] 0 SWITCH_STUN_ATTR_PRIORITY 4 = Ok (Some [0x6E; 0x00; 0xFF; 0x01]) /\
  parse_value [0x6E; 0x00; 0x01; 0xFF] 0 SWITCH_STUN_ATTR_LIFETIME 4 = Ok (Some [0xFF; 0x01; 0x00; 0x6E]).
Proof. split; reflexivity. Qed.

(** ** Witnesses *)

Lemma stun_parse_safe_witness : exists m' r, switch_stun_packet_parse (replicate 64 1) 60 = Ok (m', r) /\
  zlen m' = 64 /\ Forall byte m' /\ zdrop 64 m' = [].
Proof.
  apply (stun_parse_safe (replicate 64 1) 60);
    [by apply (bool_decide_eq_true_1 (Forall byte (replicate 64 1)))|lia|vm_compute; discriminate].
Defined.

Definition w_packet : packet := mk_packet SWITCH_STUN_BINDING_RESPONSE (replicate 16 9)
  [mk_attr SWITCH_STUN_ATTR_MAPPED_ADDRESS [0; 1; 0x12; 0x34; 192; 0; 2; 1] []; mk_attr SWITCH_STUN_ATTR_USERNAME [65; 66; 67] [0]].
Lemma stun_parse_exact_witness : switch_stun_packet_parse (wire_packet w_packet ++ [1; 2; 3]) 43 =
  Ok ([1; 1; 20; 0] ++ replicate 16 9 ++ [1; 0; 8; 0; 0; 1; 0x34; 0x12; 192; 0; 2; 1; 6; 0; 3; 0; 65; 66; 67; 0] ++ [1; 2; 3], true).
Proof.
  apply (stun_parse_exact w_packet [1; 2; 3] 43); [|vm_compute; split; [discriminate|reflexivity]].
  split_and!; try reflexivity; try (vm_compute; discriminate).
  unfold w_packet. cbn [p_attrs seen no_value a_value]. rewrite !Forall_cons. split_and!; [..|constructor];
    (split_and!; try reflexivity; try (vm_compute; discriminate)).
  - by apply (bool_decide_eq_true_1 (Forall byte [0; 1; 0x12; 0x34; 192; 0; 2; 1])).
  - by apply (bool_decide_eq_true_1 (Forall byte [65; 66; 67; 0])).
Defined.
