(* ===== verification/StunBuild.v ===== *)
(** * STUN packets, built and read (src/switch_stun.c)

    The functions that append attributes to a packet in a buffer, those that read
    the attributes of a parsed packet, and the look-up of the own address at a
    server.  [inet_pton], [inet_ntop] and [HMAC] are parameters, and so are the
    numbers that [rand] gives. *)
From S2P Require Import Prelude Bytes Crc32 Stun.
From stdpp Require Import pretty strings.
Open Scope Z_scope.

(** ** Random strings *)

Definition RAND_MAX : Z := 2147483647.
Definition bytes_of (s : string) : list Z := (fun c => Z.of_N (Ascii.N_of_ascii c)) <$> String.list_ascii_of_string s.
Definition stun_chars : list Z := bytes_of "abcdefghijklmnopqrstuvwxyzABCDEFGHIJKLMNOPQRSTUVWXYZ0123456789".

(** [rand x] is what the [x]-th call gives; the string ends in a zero that can be
    reached. *)
Fixpoint random_chars (rand : nat -> Z) (set : list Z) (x n : nat) : outcome (list Z) :=
  match n with
  | O => Ok []
  | S n =>
      match (set ++ [0]) !! Z.to_nat (zlen set * rand x / (RAND_MAX + 1)) with
      | Some c => let* s := random_chars rand set (S x) n in Ok (c :: s)
      | None => UB
      end
  end.
Definition switch_stun_random_string (rand : nat -> Z) (len : Z) (set : option (list Z)) : outcome (list Z) :=
  random_chars rand (default stun_chars set) 0 (Z.to_nat len).

(** ** Building *)

Definition switch_stun_packet_build_header (rand : nat -> Z) (type : Z) (id : option (list Z)) (m : list Z) : outcome (list Z) :=
  let* m := put16 m 0 (htons type) in
  let* m := put16 m 2 0 in
  let* m := put32 m 4 (htonl STUN_MAGIC_COOKIE) in
  let* id := match id with Some id => slice id 0 12 | None => switch_stun_random_string rand 12 None end in
  splice m 8 id.

(** Where the next attribute goes. *)
Definition new_attribute (m : list Z) (type length : Z) : outcome (list Z * Z) :=
  let* l := get16 m 2 in
  let a := 20 + ntohs l in
  let* m := put16 m a (htons type) in
  let* m := put16 m (a + 2) (htons length) in
  Ok (m, a).
(** [packet->header.length += htons(size) + attribute->length], added as the
    numbers lie in memory. *)
Definition add_length (m : list Z) (a size : Z) : outcome (list Z) :=
  let* l := get16 m 2 in
  let* length := get16 m (a + 2) in
  put16 m 2 (u16 (l + (htons (u16 size) + length))).

Section Library.
(** [inet_pton] gives the bytes of an address (the flag asks for version 6);
    without them the destination is left alone.  [hmac pass data] is the digest. *)
Context (inet_pton : bool -> string -> option (list Z)) (inet_ntop : list Z -> string) (hmac : list Z -> list Z -> list Z).

Definition put_address (m : list Z) (a port : Z) (ipstr : string) (v6 : bool) : outcome (list Z) :=
  let* m := put16 m (a + 6) (htons (u16 (Z.lxor port (Z.shiftr STUN_MAGIC_COOKIE 16)))) in
  let* m := splice m (a + 5) [if v6 then 2 else 1] in
  match inet_pton v6 ipstr with Some bytes => splice m (a + 8) bytes | None => Ok m end.

Definition switch_stun_packet_attribute_add_binded_address (m : list Z) (ipstr : string) (port : Z) (v6 : bool) : outcome (list Z) :=
  let* (m, a) := new_attribute m SWITCH_STUN_ATTR_XOR_MAPPED_ADDRESS (if v6 then 20 else 8) in
  let* m := put_address m a port ipstr v6 in
  add_length m a 4.

Definition v6_xor (m : list Z) (addr id : Z) : outcome (list Z) :=
  let* transaction_id := slice m id 12 in
  let* bytes := slice m addr 16 in
  splice m addr (zip_with Z.lxor bytes ([0x21; 0x12; 0xa4; 0x42] ++ transaction_id)).

Definition switch_stun_packet_attribute_add_xor_binded_address (m : list Z) (ipstr : string) (port : Z) (v6 : bool) : outcome (list Z) :=
  let* (m, a) := new_attribute m SWITCH_STUN_ATTR_XOR_MAPPED_ADDRESS (if v6 then 20 else 8) in
  let* m := put_address m a port ipstr v6 in
  let* m := if v6 then v6_xor m (a + 8) 8
            else let* x := get32 m (a + 8) in put32 m (a + 8) (htonl (Z.lxor (ntohl x) STUN_MAGIC_COOKIE)) in
  add_length m a 4.

Definition switch_stun_packet_attribute_add_priority (m : list Z) (priority : Z) : outcome (list Z) :=
  let priority := htonl priority in
  let* (m, a) := new_attribute m SWITCH_STUN_ATTR_PRIORITY 4 in
  let* m := put32 m (a + 4) priority in
  add_length m a 4.

(** The digest covers what is before the attribute, with the length of the packet
    counting the attribute already. *)
Definition switch_stun_packet_attribute_add_integrity (m : list Z) (pass : list Z) : outcome (list Z) :=
  let* (m, a) := new_attribute m SWITCH_STUN_ATTR_MESSAGE_INTEGRITY 20 in
  let* l := get16 m 2 in
  let xlen := u16 (ntohs l + 20) in
  let* m := add_length m a 4 in
  let* data := slice m 0 xlen in
  splice m (a + 4) (hmac pass data).

Definition switch_stun_packet_attribute_add_fingerprint (m : list Z) : outcome (list Z) :=
  let* (m, a) := new_attribute m SWITCH_STUN_ATTR_FINGERPRINT 4 in
  let* l := get16 m 2 in
  let xlen := u16 (ntohs l + 20) in
  let* m := add_length m a 4 in
  let* crc := switch_crc32_8bytes m xlen in
  put32 m (a + 4) (htonl (Z.lxor crc 0x5354554e)).

Definition switch_stun_packet_attribute_add_use_candidate (m : list Z) : outcome (list Z) :=
  let* (m, a) := new_attribute m SWITCH_STUN_ATTR_USE_CAND 0 in
  add_length m a 4.

Definition switch_stun_packet_attribute_add_controlling (rand : nat -> Z) (m : list Z) : outcome (list Z) :=
  let* buf := switch_stun_random_string rand 8 None in
  let* (m, a) := new_attribute m SWITCH_STUN_ATTR_CONTROLLING 8 in
  let* m := splice m (a + 4) buf in
  add_length m a 4.
Definition switch_stun_packet_attribute_add_controlled (rand : nat -> Z) (m : list Z) : outcome (list Z) :=
  let* buf := switch_stun_random_string rand 8 None in
  let* (m, a) := new_attribute m SWITCH_STUN_ATTR_CONTROLLED 8 in
  let* m := splice m (a + 4) buf in
  add_length m a 4.

(** The three functions that add text; without a text it is made up. *)
Definition add_text (type : Z) (rand : nat -> Z) (m : list Z) (text : option (list Z)) (ulen : Z) : outcome (list Z) :=
  let padding := if ulen mod 4 =? 0 then 0 else 4 - ulen mod 4 in
  let* (m, a) := new_attribute m type ulen in
  let* text := match text with Some text => slice text 0 ulen | None => switch_stun_random_string rand ulen None end in
  let* m := splice m (a + 4) text in
  add_length m a (4 + padding).
Definition switch_stun_packet_attribute_add_username := add_text SWITCH_STUN_ATTR_USERNAME.
Definition switch_stun_packet_attribute_add_software := add_text SWITCH_STUN_ATTR_SOFTWARE.
Definition switch_stun_packet_attribute_add_password := add_text SWITCH_STUN_ATTR_PASSWORD.

Definition switch_stun_packet_length (m : list Z) : outcome Z := let* l := get16 m 2 in Ok (ntohs l + 20).

(** ** Reading a parsed packet *)

(** Four numbers and the dots between them. *)
Definition dotted (bytes : list Z) : string := String.concat "." ((fun b => pretty (Z.to_N b)) <$> bytes).

Definition switch_stun_packet_attribute_get_mapped_address (m : list Z) (a : Z) : outcome (string * Z) :=
  let* bytes := slice m (a + 8) 4 in
  let* port := get16 m (a + 6) in
  Ok (dotted bytes, port).

(** The address is decoded where it lies. *)
Definition switch_stun_packet_attribute_get_xor_mapped_address (m : list Z) (a : Z) : outcome (list Z * string * Z) :=
  let* family := get8 m (a + 5) in
  let* cookie := get32 m 4 in
  let* (m, ipstr) :=
    if family =? 2 then
      let* m := v6_xor m (a + 8) 8 in
      let* bytes := slice m (a + 8) 16 in
      Ok (m, inet_ntop bytes)
    else
      let* x := get32 m (a + 8) in
      let* m := put32 m (a + 8) (Z.lxor x cookie) in
      let* bytes := slice m (a + 8) 4 in
      Ok (m, dotted bytes) in
  let* port := get16 m (a + 6) in
  let* m := put16 m (a + 6) (Z.lxor port (Z.shiftr (ntohl cookie) 16)) in
  let* port := get16 m (a + 6) in
  Ok (m, ipstr, port).

Definition switch_stun_packet_attribute_get_username (m : list Z) (a len : Z) : outcome (list Z) :=
  let* length := get16 m (a + 2) in
  slice m (a + 4) (if length <? len then length else len).

Definition switch_stun_packet_next_attribute (m : list Z) (a end_ : Z) : outcome (Z * bool) :=
  let* length := get16 m (a + 2) in
  let a := a + 4 + switch_stun_attribute_padded_length length in
  if negb (a <? end_) then Ok (a, false) else
  let* type := get16 m a in
  if type =? 0 then Ok (a, false) else
  let* length := get16 m (a + 2) in
  Ok (a, a + switch_stun_attribute_padded_length length <? end_).

(** ** Looking up the own address *)

(** The loop over the attributes of the reply: the address found last, as text,
    and its port. *)
Fixpoint lookup_walk (fuel : nat) (funny : bool) (m : list Z) (a end_ xlen : Z) (rip : string) (rport : Z)
  : outcome (list Z * string * Z) :=
  match fuel with
  | O => UB
  | S fuel =>
      let* type := get16 m a in
      let* (m, rip, rport) :=
        if type =? SWITCH_STUN_ATTR_MAPPED_ADDRESS then
          let* m := if funny then let* x := get32 m (a + 8) in put32 m (a + 8) (Z.lxor x (ntohl 0xabcdabcd)) else Ok m in
          let* (rip, rport) := switch_stun_packet_attribute_get_mapped_address m a in Ok (m, rip, rport)
        else if type =? SWITCH_STUN_ATTR_XOR_MAPPED_ADDRESS then
          switch_stun_packet_attribute_get_xor_mapped_address m a
        else if type =? SWITCH_STUN_ATTR_USERNAME then
          let* _ := switch_stun_packet_attribute_get_username m a 32 in Ok (m, rip, rport)
        else Ok (m, rip, rport) in
      let* (a, more) := switch_stun_packet_next_attribute m a end_ in
      if negb more then Ok (m, rip, rport) else
      let* length := get16 m (a + 2) in
      let xlen := xlen + (4 + switch_stun_attribute_padded_length length) in
      let* header_length := get16 m 2 in
      if xlen <=? header_length then lookup_walk fuel funny m a end_ xlen rip rport else Ok (m, rip, rport)
  end.

(** What happens around: whether the addresses, the socket and its binding are to
    be had, and what each look at the socket gives: the bytes received, none if
    there are none, and the milliseconds that have gone by. *)
Record lookup_env := mk_env {
  local_ok : bool; remote_ok : bool; socket_ok : bool; bind_ok : bool;
  looks : list (list Z * Z)
}.
Inductive lookup_result :=
| Found (ip : string) (port : Z)
| Failed (status : switch_status) (err : string).

Fixpoint lookup_wait (looks : list (list Z * Z)) : option (list Z + switch_status) :=
  match looks with
  | [] => None
  | (b :: bytes, _) :: _ => Some (inl (b :: bytes))
  | ([], elapsed) :: looks => if 5000 <? elapsed then Some (inr SWITCH_STATUS_TIMEOUT) else lookup_wait looks
  end.

(** The buffer of 260 bytes with the request in it, from where the packet starts
    on, and what is sent. *)
Definition lookup_request (rand : nat -> Z) (funny : bool) : outcome (list Z * list Z) :=
  let size := if funny then 256 else 260 in
  let* m := switch_stun_packet_build_header rand SWITCH_STUN_BINDING_REQUEST None (replicate (Z.to_nat size) 0) in
  let* username := switch_stun_random_string (fun x => rand (12 + x)%nat) 32 None in
  let* m := switch_stun_packet_attribute_add_username rand m (Some username) 32 in
  let* bytes := switch_stun_packet_length m in
  let buf := (if funny then [0; 0; 0x22; 0x22] else []) ++ m in
  let* buf := if funny then splice buf (bytes + 4) [0; 0; 0; 0] else Ok buf in
  let* sent := slice buf 0 (if funny then bytes + 8 else bytes) in
  Ok (buf, sent).

Definition lookup_reply (funny : bool) (buf : list Z) : outcome lookup_result :=
  let start := if funny then 4 else 0 in
  let* (m, ok) := switch_stun_packet_parse (zdrop start buf) (260 - start) in
  if negb ok then Ok (Failed SWITCH_STATUS_FALSE "Invalid STUN/ICE packet") else
  let* length := get16 m 2 in
  let end_ := (if length <? 260 then length else 260) - start in
  let* (m, rip, rport) := lookup_walk 260 funny m 20 end_ 20 EmptyString 0 in
  let* type := get16 m 0 in
  if type =? SWITCH_STUN_BINDING_RESPONSE then Ok (Found rip rport)
  else Ok (Failed SWITCH_STATUS_FALSE "Invalid Reply").

(** [None]: no look has ended the waiting yet. *)
Definition switch_stun_lookup (env : lookup_env) (rand : nat -> Z) (funny : bool) : option (outcome lookup_result) :=
  if negb (local_ok env) then Some (Ok (Failed SWITCH_STATUS_FALSE "Local Address Error!")) else
  if negb (remote_ok env) then Some (Ok (Failed SWITCH_STATUS_FALSE "Remote Address Error!")) else
  if negb (socket_ok env) then Some (Ok (Failed SWITCH_STATUS_FALSE "Socket Error!")) else
  if negb (bind_ok env) then Some (Ok (Failed SWITCH_STATUS_FALSE "Bind Error!")) else
  match lookup_request rand funny with
  | Ok (buf, _) =>
      match lookup_wait (looks env) with
      | None => None
      | Some (inr status) => Some (Ok (Failed status "Timeout"))
      | Some (inl bytes) =>
          let bytes := ztake 260 bytes in
          Some (lookup_reply funny (bytes ++ zdrop (zlen bytes) buf))
      end
  | Assert => Some Assert
  | UB => Some UB
  end.
End Library.

(** ** What the builders write *)

(** A packet in a buffer of zeros: the header counts [l] bytes of attributes. *)
Definition header (p : packet) (l : Z) : list Z := be16 (p_type p) ++ be16 l ++ p_rest p ++ wires (p_attrs p).
Definition zeros (n : Z) : list Z := replicate (Z.to_nat n) 0.
Definition snoc (p : packet) (a : attr) : packet := mk_packet (p_type p) (p_rest p) (p_attrs p ++ [a]).
Definition size (p : packet) : Z := zlen (wires (p_attrs p)).

Lemma wires_snoc l a : wires (l ++ [a]) = wires l ++ wire a.
Proof. unfold wires. rewrite fmap_app, concat_app. cbn. by rewrite app_nil_r. Qed.
Lemma wire_snoc p a : wire_packet (snoc p a) = header p (size p + zlen (wire a)) ++ wire a.
Proof. unfold wire_packet, header, snoc, size. cbn [p_type p_rest p_attrs]. rewrite wires_snoc, length_app, Nat2Z.inj_add. by rewrite <- !app_assoc. Qed.
Lemma header_length p l : length (p_rest p) = 16%nat -> zlen (header p l) = 20 + size p.
Proof. intros H. unfold header, size. rewrite !length_app, H. cbn [be16 length]. lia. Qed.
Lemma zlen_zeros n : 0 <= n -> zlen (zeros n) = n.
Proof. intros H. unfold zeros. rewrite length_replicate. lia. Qed.
Lemma zeros_split n k : 0 <= k <= n -> zeros n = zeros k ++ zeros (n - k).
Proof. intros H. unfold zeros. rewrite <- replicate_add. f_equal. lia. Qed.

Lemma le_be v : 0 <= v < 65536 -> le_bytes 2 (swap16 v) = be16 v.
Proof.
  intros H. rewrite swap16_bytes. change (reverse (le_bytes 2 v)) with [v / 256 mod 256; v mod 256]. unfold be16. f_equal. cint.
Qed.
Lemma get16_be p v q o : o = zlen p -> 0 <= v < 65536 -> get16 (p ++ be16 v ++ q) o = Ok (swap16 v).
Proof. intros H Hv. rewrite <- le_be by done. apply get16_le; [done|apply swap16_range]. Qed.
Lemma put16_be p x q o v : o = zlen p -> length x = 2%nat -> 0 <= v < 65536 -> put16 (p ++ x ++ q) o (swap16 v) = Ok (p ++ be16 v ++ q).
Proof. intros H L Hv. unfold put16. rewrite le_be by done. by apply splice_app. Qed.

Lemma new_attribute_ok p n type length : List.length (p_rest p) = 16%nat -> 0 <= size p < 65536 -> 4 <= n ->
  0 <= type < 65536 -> 0 <= length < 65536 ->
  new_attribute (wire_packet p ++ zeros n) type length =
  Ok (header p (size p) ++ be16 type ++ be16 length ++ zeros (n - 4), 20 + size p).
Proof.
  intros L16 Hs Hn Ht Hl. unfold new_attribute. change (wire_packet p) with (header p (size p)).
  assert (G : get16 (header p (size p) ++ zeros n) 2 = Ok (swap16 (size p))).
  { unfold header. rewrite <- !app_assoc. by apply get16_be. }
  rewrite G. assert (E : swap16 (swap16 (size p)) = size p) by (unfold swap16; cint). rewrite E.
  rewrite (zeros_split n 2), (zeros_split (n - 2) 2) by lia. rewrite put16_be by (rewrite ?header_length; done).
  rewrite app_assoc. rewrite put16_be by (rewrite ?length_app, ?Nat2Z.inj_add, ?header_length; done || cbn; lia).
  rewrite <- app_assoc. do 6 f_equal. lia.
Qed.

(** The length of a packet counts modulo 256 as long as the numbers are below. *)
Lemma add_length_ok p type length q k : List.length (p_rest p) = 16%nat -> 0 <= size p < 256 -> 0 <= k < 256 ->
  0 <= length < 256 ->
  add_length (header p (size p) ++ be16 type ++ be16 length ++ q) (20 + size p) k =
  Ok (header p ((size p + k + length) mod 256) ++ be16 type ++ be16 length ++ q).
Proof.
  intros L16 Hs Hk Hl. unfold add_length.
  assert (G : get16 (header p (size p) ++ be16 type ++ be16 length ++ q) 2 = Ok (swap16 (size p))).
  { unfold header. rewrite <- !app_assoc. apply get16_be; [done|lia]. }
  rewrite G. rewrite (app_assoc (header p (size p)) (be16 type)).
  rewrite get16_be by (rewrite ?length_app, ?Nat2Z.inj_add, ?header_length; done || cbn; lia).
  replace (u16 (swap16 (size p) + (htons (u16 k) + swap16 length))) with (swap16 ((size p + k + length) mod 256))
    by (unfold swap16; cint).
  unfold header. rewrite <- !app_assoc. rewrite put16_be by (done || cint). done.
Qed.

(** Writing into what lies behind the header of the attribute. *)
Lemma splice_value p l type length q v n : List.length (p_rest p) = 16%nat -> zlen v <= n ->
  splice (header p l ++ be16 type ++ be16 length ++ q ++ zeros n) (20 + size p + 4 + zlen q) v =
  Ok (header p l ++ be16 type ++ be16 length ++ q ++ v ++ zeros (n - zlen v)).
Proof.
  intros L16 Hn. rewrite (zeros_split n (zlen v)) by lia.
  assert (E : forall x, header p l ++ be16 type ++ be16 length ++ q ++ x = (header p l ++ be16 type ++ be16 length ++ q) ++ x)
    by (intros x; by rewrite <- !app_assoc).
  rewrite !E, splice_app; [done| |].
  - rewrite !length_app, !Nat2Z.inj_add, header_length by done. cbn [be16 List.length]. lia.
  - unfold zeros. rewrite length_replicate. lia.
Qed.

Lemma snoc_form p t v pad n : List.length (p_rest p) = 16%nat -> 0 <= pad <= n ->
  header p (size p + 4 + pad + zlen v) ++ be16 t ++ be16 (zlen v) ++ v ++ zeros n =
  wire_packet (snoc p (mk_attr t v (zeros pad))) ++ zeros (n - pad).
Proof.
  intros L16 Hn. rewrite wire_snoc, length_wire, length_app. cbn [a_value a_pad]. rewrite Nat2Z.inj_add, zlen_zeros by lia.
  rewrite <- app_assoc. unfold wire. cbn [a_type a_value a_pad]. rewrite <- !app_assoc. rewrite (zeros_split n pad) by lia.
  replace (size p + (4 + (zlen v + pad))) with (size p + 4 + pad + zlen v) by lia. done.
Qed.

Section Ops.
Context (inet_pton : bool -> string -> option (list Z)) (hmac : list Z -> list Z -> list Z).
(** Addresses have their length and are bytes, and so are digests. *)
Hypothesis pton_ok : forall v6 s bytes, inet_pton v6 s = Some bytes -> length bytes = (if v6 then 16 else 4)%nat /\ Forall byte bytes.
Hypothesis hmac_ok : forall pass data, length (hmac pass data) = 20%nat /\ Forall byte (hmac pass data).

(** Calls that append an attribute, and the attribute meant. *)
Inductive stun_op :=
| AddXorAddress (ipstr : string) (port : Z) (v6 : bool)
| AddPriority (priority : Z)
| AddIntegrity (pass : list Z)
| AddFingerprint
| AddUseCandidate
| AddControlling (rand : nat -> Z)
| AddControlled (rand : nat -> Z)
| AddUsername (text : list Z)
| AddSoftware (text : list Z)
| AddPassword (text : list Z).

Definition no_rand : nat -> Z := fun _ => 0.
Definition run_op (m : list Z) (op : stun_op) : outcome (list Z) :=
  match op with
  | AddXorAddress ipstr port v6 => switch_stun_packet_attribute_add_xor_binded_address inet_pton m ipstr port v6
  | AddPriority priority => switch_stun_packet_attribute_add_priority m priority
  | AddIntegrity pass => switch_stun_packet_attribute_add_integrity hmac m pass
  | AddFingerprint => switch_stun_packet_attribute_add_fingerprint m
  | AddUseCandidate => switch_stun_packet_attribute_add_use_candidate m
  | AddControlling rand => switch_stun_packet_attribute_add_controlling rand m
  | AddControlled rand => switch_stun_packet_attribute_add_controlled rand m
  | AddUsername text => switch_stun_packet_attribute_add_username no_rand m (Some text) (zlen text)
  | AddSoftware text => switch_stun_packet_attribute_add_software no_rand m (Some text) (zlen text)
  | AddPassword text => switch_stun_packet_attribute_add_password no_rand m (Some text) (zlen text)
  end.
Fixpoint run_ops (m : list Z) (ops : list stun_op) : outcome (list Z) :=
  match ops with [] => Ok m | op :: ops => let* m := run_op m op in run_ops m ops end.

Definition cookie : list Z := [0x21; 0x12; 0xA4; 0x42].
Definition be32 (v : Z) : list Z := reverse (le_bytes 4 v).
Definition random_text (rand : nat -> Z) : list Z :=
  (fun x => default 0 ((stun_chars ++ [0]) !! Z.to_nat (zlen stun_chars * rand x / (RAND_MAX + 1)))) <$> seq 0 8.
Definition text_attr (type : Z) (text : list Z) : attr := mk_attr type text (zeros ((- zlen text) mod 4)).
(** The key of an address is the cookie and the transaction's number. *)
Definition address_value (p : packet) (bytes : list Z) (port : Z) (v6 : bool) : list Z :=
  [0; if v6 then 2 else 1] ++ be16 (Z.lxor port 0x2112) ++ zip_with Z.lxor bytes (p_rest p).
Definition op_attr (p : packet) (op : stun_op) : attr :=
  match op with
  | AddXorAddress ipstr port v6 =>
      mk_attr SWITCH_STUN_ATTR_XOR_MAPPED_ADDRESS (address_value p (default [] (inet_pton v6 ipstr)) port v6) []
  | AddPriority priority => mk_attr SWITCH_STUN_ATTR_PRIORITY (be32 priority) []
  | AddIntegrity pass => mk_attr SWITCH_STUN_ATTR_MESSAGE_INTEGRITY (hmac pass (header p (size p + 24))) []
  | AddFingerprint => mk_attr SWITCH_STUN_ATTR_FINGERPRINT (be32 (Z.lxor (crc32 (header p (size p + 8))) 0x5354554e)) []
  | AddUseCandidate => mk_attr SWITCH_STUN_ATTR_USE_CAND [] []
  | AddControlling rand => mk_attr SWITCH_STUN_ATTR_CONTROLLING (random_text rand) []
  | AddControlled rand => mk_attr SWITCH_STUN_ATTR_CONTROLLED (random_text rand) []
  | AddUsername text => text_attr SWITCH_STUN_ATTR_USERNAME text
  | AddSoftware text => text_attr SWITCH_STUN_ATTR_SOFTWARE text
  | AddPassword text => text_attr SWITCH_STUN_ATTR_PASSWORD text
  end.
Definition op_ok (op : stun_op) : Prop :=
  match op with
  | AddXorAddress ipstr port v6 => is_Some (inet_pton v6 ipstr) /\ 0 <= port < 65536
  | AddPriority priority => 0 <= priority < 2 ^ 32
  | AddIntegrity _ | AddFingerprint | AddUseCandidate => True
  | AddControlling rand | AddControlled rand => forall x, 0 <= rand x <= RAND_MAX
  | AddUsername text | AddSoftware text | AddPassword text => Forall byte text
  end.
(** A packet that can still be extended: [key] is the cookie and the number. *)
Definition open (p : packet) : Prop :=
  0 <= p_type p < 65536 /\ length (p_rest p) = 16%nat /\ Forall byte (p_rest p) /\ ztake 4 (p_rest p) = cookie /\
  Forall byte (wires (p_attrs p)).

Lemma add_text_ok type p text n : 0 <= type < 65536 -> open p -> Forall byte text ->
  size p + zlen (wire (text_attr type text)) < 256 -> zlen (wire (text_attr type text)) <= n ->
  add_text type no_rand (wire_packet p ++ zeros n) (Some text) (zlen text) =
  Ok (wire_packet (snoc p (text_attr type text)) ++ zeros (n - zlen (wire (text_attr type text)))).
Proof.
  intros Rt (_ & L16 & _) B Hs Hn. rewrite length_wire, length_app in *. cbn [text_attr a_value a_pad] in *.
  rewrite Nat2Z.inj_add, zlen_zeros in * by cint. unfold add_text.
  assert (P : (if zlen text mod 4 =? 0 then 0 else 4 - zlen text mod 4) = (- zlen text) mod 4) by (case_match; btests; cint).
  rewrite P. set (pad := (- zlen text) mod 4) in *. assert (Hp : 0 <= pad) by (unfold pad; cint).
  rewrite new_attribute_ok by (unfold size in *; done || lia).
  pose proof (slice_app [] text [] 0 (zlen text) eq_refl eq_refl) as S. rewrite app_nil_r in S. cbn [app] in S. rewrite S.
  pose proof (splice_value p (size p) type (zlen text) [] text (n - 4) L16 ltac:(lia)) as V. cbn [app length] in V.
  change (Z.of_nat 0) with 0 in V. rewrite Z.add_0_r in V. rewrite V.
  rewrite add_length_ok by (unfold size in *; done || lia). rewrite Z.mod_small by (unfold size in *; lia).
  f_equal. replace (size p + (4 + pad) + zlen text) with (size p + 4 + pad + zlen text) by lia.
  rewrite snoc_form by (done || lia). unfold text_attr. fold pad. do 2 f_equal. lia.
Qed.

Lemma plain_form p t v n : length (p_rest p) = 16%nat ->
  header p (size p + 4 + zlen v) ++ be16 t ++ be16 (zlen v) ++ v ++ zeros n = wire_packet (snoc p (mk_attr t v [])) ++ zeros n.
Proof. intros L16. pose proof (snoc_form p t v 0 n) as S. rewrite Z.add_0_r, Z.sub_0_r in S. destruct (Z.le_gt_cases 0 n); [apply S; [done|lia]|].
  replace (zeros n) with (zeros 0) by (unfold zeros; f_equal; lia). pose proof (snoc_form p t v 0 0) as S'. rewrite Z.add_0_r in S'. apply S'; [done|lia].
Qed.

Lemma plain_ok p t v n : open p -> 0 <= t < 65536 -> size p + 4 + zlen v < 256 -> 4 + zlen v <= n ->
  (let* (m, a) := new_attribute (wire_packet p ++ zeros n) t (zlen v) in
   let* m := splice m (a + 4) v in add_length m a 4) =
  Ok (wire_packet (snoc p (mk_attr t v [])) ++ zeros (n - 4 - zlen v)).
Proof.
  intros (_ & L16 & _) Ht Hs Hn. assert (0 <= size p) by (unfold size; lia). rewrite new_attribute_ok by (done || lia).
  pose proof (splice_value p (size p) t (zlen v) [] v (n - 4) L16 ltac:(lia)) as V. cbn [app length] in V.
  change (Z.of_nat 0) with 0 in V. rewrite Z.add_0_r in V. rewrite V.
  rewrite add_length_ok, Z.mod_small by (done || lia). f_equal. by apply plain_form.
Qed.

(** The attributes whose value depends on what is before them. *)
Lemma sum_ok p t v n (f : list Z -> Z -> outcome (list Z)) : open p -> 0 <= t < 65536 -> size p + 4 + zlen v < 256 -> 4 + zlen v <= n ->
  f (header p (size p + 4 + zlen v) ++ be16 t ++ be16 (zlen v) ++ zeros (n - 4)) (20 + size p) = Ok v ->
  (let* (m, a) := new_attribute (wire_packet p ++ zeros n) t (zlen v) in
   let* l := get16 m 2 in
   let xlen := u16 (ntohs l + 20) in
   let* m := add_length m a 4 in
   let* v := f m xlen in
   splice m (a + 4) v) = Ok (wire_packet (snoc p (mk_attr t v [])) ++ zeros (n - 4 - zlen v)).
Proof.
  intros (_ & L16 & _) Ht Hs Hn Hf. assert (0 <= size p) by (unfold size; lia). rewrite new_attribute_ok by (done || lia).
  assert (G : forall q, get16 (header p (size p) ++ q) 2 = Ok (swap16 (size p))).
  { intros q. unfold header. rewrite <- !app_assoc. apply get16_be; [done|lia]. }
  rewrite G. rewrite add_length_ok, Z.mod_small by (done || lia).
  cbv zeta. replace (u16 (swap16 (swap16 (size p)) + 20)) with (20 + size p) by (unfold swap16; cint). rewrite Hf.
  pose proof (splice_value p (size p + 4 + zlen v) t (zlen v) [] v (n - 4) L16 ltac:(lia)) as V. cbn [app length] in V.
  change (Z.of_nat 0) with 0 in V. rewrite Z.add_0_r in V. rewrite V. f_equal. by apply plain_form.
Qed.

Lemma random_chars_ok rand : (forall x, 0 <= rand x <= RAND_MAX) -> forall n x,
  random_chars rand stun_chars x n =
  Ok ((fun x => default 0 ((stun_chars ++ [0]) !! Z.to_nat (zlen stun_chars * rand x / (RAND_MAX + 1)))) <$> seq x n).
Proof.
  intros R. induction n as [|n IH]; intros x; [done|]. cbn [random_chars seq fmap list_fmap]. rewrite IH.
  destruct (lookup_lt_is_Some_2 (stun_chars ++ [0]) (Z.to_nat (zlen stun_chars * rand x / (RAND_MAX + 1)))) as [c E]; [|by rewrite E].
  specialize (R x). change (length (stun_chars ++ [0])) with 63%nat. change (zlen stun_chars) with 62. unfold RAND_MAX in *. cint.
Qed.
Lemma random_string_ok rand : (forall x, 0 <= rand x <= RAND_MAX) -> switch_stun_random_string rand 8 None = Ok (random_text rand).
Proof. intros R. by apply random_chars_ok. Qed.

Lemma be32_le v : le_bytes 4 (swap32 v) = be32 v.
Proof. apply swap32_bytes. Qed.
Lemma be32_length v : zlen (be32 v) = 4.
Proof. unfold be32. by rewrite length_reverse, le_bytes_length. Qed.

Lemma be16_byte v : 0 <= v < 65536 -> Forall byte (be16 v).
Proof. intros H. rewrite <- le_be by done. apply le_bytes_byte. Qed.
Lemma header_byte p l : open p -> 0 <= l < 65536 -> Forall byte (header p l).
Proof. intros (Rt & _ & Br & _ & Bw) Rl. unfold header. rewrite !Forall_app. split_and!; try done; by apply be16_byte. Qed.
Lemma zeros_byte n : Forall byte (zeros n).
Proof. unfold zeros. apply Forall_replicate. done. Qed.

Lemma add_fingerprint_ok p n : open p -> size p + 8 < 256 -> 8 <= n ->
  switch_stun_packet_attribute_add_fingerprint (wire_packet p ++ zeros n) =
  Ok (wire_packet (snoc p (op_attr p AddFingerprint)) ++ zeros (n - 8)).
Proof.
  intros O Hs Hn. assert (0 <= size p) by (unfold size; lia). pose proof O as (_ & L16 & _). cbn [op_attr].
  set (v := be32 (Z.lxor (crc32 (header p (size p + 8))) 0x5354554e)).
  assert (Lv : zlen v = 4) by apply be32_length.
  pose proof (sum_ok p SWITCH_STUN_ATTR_FINGERPRINT v n
    (fun m xlen => let* crc := switch_crc32_8bytes m xlen in Ok (le_bytes 4 (htonl (Z.lxor crc 0x5354554e)))) O ltac:(done) ltac:(lia) ltac:(lia)) as S.
  rewrite Lv in S. replace (n - 4 - 4) with (n - 8) in S by lia. rewrite <- S.
  - unfold switch_stun_packet_attribute_add_fingerprint, put32. repeat (case_match; try done).
  - replace (size p + 4 + 4) with (size p + 8) by lia. rewrite crc_exact.
    + unfold ztake. rewrite (take_app_length' (header p (size p + 8))) by (pose proof (header_length p (size p + 8) L16); lia).
      by rewrite be32_le.
    + rewrite !Forall_app. split_and!; [apply header_byte; [done|lia]|by apply be16_byte..|apply zeros_byte].
    + rewrite length_app, Nat2Z.inj_add, header_length by done. lia.
Qed.

Lemma add_integrity_ok p pass n : open p -> size p + 24 < 256 -> 24 <= n ->
  switch_stun_packet_attribute_add_integrity hmac (wire_packet p ++ zeros n) pass =
  Ok (wire_packet (snoc p (op_attr p (AddIntegrity pass))) ++ zeros (n - 24)).
Proof using hmac_ok.
  intros O Hs Hn. assert (0 <= size p) by (unfold size; lia). pose proof O as (_ & L16 & _). cbn [op_attr].
  set (v := hmac pass (header p (size p + 24))). assert (Lv : zlen v = 20) by (unfold v; by rewrite (proj1 (hmac_ok _ _))).
  pose proof (sum_ok p SWITCH_STUN_ATTR_MESSAGE_INTEGRITY v n
    (fun m xlen => let* data := slice m 0 xlen in Ok (hmac pass data)) O ltac:(done) ltac:(lia) ltac:(lia)) as S.
  rewrite Lv in S. replace (n - 4 - 20) with (n - 24) in S by lia. rewrite <- S.
  - unfold switch_stun_packet_attribute_add_integrity. repeat (case_match; try done).
  - replace (size p + 4 + 20) with (size p + 24) by lia.
    pose proof (slice_app [] (header p (size p + 24)) (be16 SWITCH_STUN_ATTR_MESSAGE_INTEGRITY ++ be16 20 ++ zeros (n - 4)) 0 (20 + size p)) as D.
    cbn [app] in D. rewrite D; [done|done|by rewrite header_length].
Qed.

(** Decoding and coding an address are the same exclusive or. *)
Lemma xor4 bytes : length bytes = 4%nat -> Forall byte bytes ->
  le_bytes 4 (swap32 (Z.lxor (swap32 (le_val bytes)) STUN_MAGIC_COOKIE)) = zip_with Z.lxor bytes cookie.
Proof.
  intros L B. rewrite swap32_bytes, le_bytes_lxor, swap32_bytes. replace (le_bytes 4 (le_val bytes)) with bytes
    by (rewrite <- L; symmetry; by apply le_bytes_val).
  destruct bytes as [|a [|b [|c [|d [|]]]]]; try done.
Qed.

Lemma put_address_ok p t len port ipstr v6 bytes n : length (p_rest p) = 16%nat -> inet_pton v6 ipstr = Some bytes ->
  0 <= port < 65536 -> 4 + zlen bytes <= n ->
  put_address inet_pton (header p (size p) ++ be16 t ++ be16 len ++ zeros n) (20 + size p) port ipstr v6 =
  Ok (header p (size p) ++ be16 t ++ be16 len ++
      ([0; if v6 then 2 else 1] ++ be16 (Z.lxor port 0x2112)) ++ bytes ++ zeros (n - 4 - zlen bytes)).
Proof.
  intros L16 E Hp Hn. unfold put_address. rewrite E. change (Z.shiftr STUN_MAGIC_COOKIE 16) with 0x2112.
  assert (Rp : 0 <= Z.lxor port 0x2112 < 65536) by (apply (lxor_range _ _ 16); lia). unfold put16. rewrite u16_small, le_be by done.
  rewrite (zeros_split n 2) by lia. replace (20 + size p + 6) with (20 + size p + 4 + zlen (zeros 2)) by (change (zlen (zeros 2)) with 2; lia).
  rewrite splice_value by (done || (cbn; lia)). change (zeros 2) with [0; 0].
  assert (Sp : forall q, splice (header p (size p) ++ be16 t ++ be16 len ++ [0; 0] ++ q) (20 + size p + 5) [if v6 then 2 else 1] =
    Ok (header p (size p) ++ be16 t ++ be16 len ++ [0; if v6 then 2 else 1] ++ q)).
  { intros q. replace (header p (size p) ++ be16 t ++ be16 len ++ [0; 0] ++ q)
      with ((header p (size p) ++ be16 t ++ be16 len ++ [0]) ++ [0] ++ q) by by rewrite <- !app_assoc.
    rewrite splice_app; [by rewrite <- !app_assoc| |done]. rewrite !length_app, !Nat2Z.inj_add, header_length by done. cbn [be16 length]. lia. }
  rewrite Sp. change (zlen (be16 _)) with 2.
  replace ([0; if v6 then 2 else 1] ++ be16 (Z.lxor port 0x2112) ++ zeros (n - 2 - 2))
    with (([0; if v6 then 2 else 1] ++ be16 (Z.lxor port 0x2112)) ++ zeros (n - 4)) by (rewrite <- app_assoc; do 3 f_equal; lia).
  replace (20 + size p + 8) with (20 + size p + 4 + zlen ([0; if v6 then 2 else 1] ++ be16 (Z.lxor port 0x2112)))
    by (change (zlen ([0; if v6 then 2 else 1] ++ be16 (Z.lxor port 0x2112))) with 4; lia).
  rewrite splice_value by (done || lia). done.
Qed.

Lemma key_parts p : open p -> p_rest p = cookie ++ zdrop 4 (p_rest p) /\ length (zdrop 4 (p_rest p)) = 12%nat.
Proof.
  intros (_ & L16 & _ & C & _). split; [rewrite <- C; symmetry; apply take_drop|]. unfold zdrop. rewrite length_drop, L16. done.
Qed.

Lemma address_done p t v n : open p -> 0 <= t < 65536 -> zlen v = 8 \/ zlen v = 20 -> size p + 4 + zlen v < 256 ->
  add_length (header p (size p) ++ be16 t ++ be16 (zlen v) ++ v ++ zeros n) (20 + size p) 4 =
  Ok (wire_packet (snoc p (mk_attr t v [])) ++ zeros n).
Proof.
  intros (_ & L16 & _) Ht Lv Hs. assert (0 <= size p) by (unfold size; lia).
  rewrite add_length_ok, Z.mod_small by (done || lia). f_equal. by apply plain_form.
Qed.

Lemma add_xor_address_ok p ipstr port v6 n : open p -> op_ok (AddXorAddress ipstr port v6) ->
  size p + zlen (wire (op_attr p (AddXorAddress ipstr port v6))) < 256 -> zlen (wire (op_attr p (AddXorAddress ipstr port v6))) <= n ->
  switch_stun_packet_attribute_add_xor_binded_address inet_pton (wire_packet p ++ zeros n) ipstr port v6 =
  Ok (wire_packet (snoc p (op_attr p (AddXorAddress ipstr port v6))) ++ zeros (n - zlen (wire (op_attr p (AddXorAddress ipstr port v6))))).
Proof using pton_ok.
  intros O [[bytes E] Hp] Hs Hn. pose proof O as (_ & L16 & _). destruct (key_parts p O) as [K Lid]. destruct (pton_ok _ _ _ E) as [Lb Bb].
  cbn [op_attr] in *. rewrite E in *. change (default [] (Some bytes)) with bytes in *. rewrite length_wire in *. cbn [a_value a_pad] in *. rewrite app_nil_r in *.
  set (v := address_value p bytes port v6) in *. assert (0 <= size p) by (unfold size; lia).
  assert (Lv : zlen v = if v6 then 20 else 8).
  { unfold v, address_value. rewrite !length_app, length_zip_with, Lb, L16. by destruct v6. }
  unfold switch_stun_packet_attribute_add_xor_binded_address. rewrite <- Lv. rewrite new_attribute_ok by (done || lia || (destruct v6; lia)).
  rewrite (put_address_ok p _ _ port ipstr v6 bytes) by (done || (destruct v6; lia)).
  replace (n - 4 - 4 - zlen bytes) with (n - (4 + zlen v)) by (destruct v6; lia).
  set (q := [0; if v6 then 2 else 1] ++ be16 (Z.lxor port 0x2112)).
  set (X := header p (size p) ++ be16 SWITCH_STUN_ATTR_XOR_MAPPED_ADDRESS ++ be16 (zlen v)).
  assert (A : forall w, header p (size p) ++ be16 SWITCH_STUN_ATTR_XOR_MAPPED_ADDRESS ++ be16 (zlen v) ++ q ++ w = (X ++ q) ++ w)
    by (intros w; unfold X; by rewrite <- !app_assoc).
  assert (LX : zlen (X ++ q) = 20 + size p + 8).
  { unfold X, q. rewrite !length_app, !Nat2Z.inj_add, header_length by done. cbn [be16 length]. lia. }
  rewrite A. destruct v6.
  - assert (Id : forall w, slice (wire_packet p ++ w) 8 12 = Ok (zdrop 4 (p_rest p))).
    { intros w. change (wire_packet p) with (header p (size p)). unfold header. rewrite K at 1. rewrite <- !app_assoc.
      rewrite (app_assoc (be16 _)), (app_assoc (be16 _ ++ be16 _)). apply slice_app; [done|by rewrite Lid]. }
    unfold v6_xor, X. change (header p (size p)) with (wire_packet p). rewrite <- app_assoc, <- (app_assoc (wire_packet p)), Id.
    rewrite (app_assoc (wire_packet p)), (app_assoc (wire_packet p ++ _)). change (wire_packet p) with (header p (size p)). fold X.
    rewrite slice_app by (rewrite ?Lb; done). rewrite splice_app; [|done|rewrite length_zip_with, Lb, length_app, Lid; done].
    fold cookie. rewrite <- K. rewrite <- app_assoc. rewrite (app_assoc q). change (q ++ zip_with _ _ _) with v. unfold X. rewrite <- !app_assoc.
    apply address_done; [done..|by right|lia].
  - unfold get32, put32. rewrite slice_app by (rewrite ?Lb; done). change swap32 with swap32. rewrite xor4 by done.
    rewrite splice_app; [|done|by rewrite length_zip_with, Lb]. rewrite <- app_assoc, (app_assoc q).
    assert (Ev : q ++ zip_with Z.lxor bytes cookie = v).
    { unfold v, address_value, q. rewrite <- app_assoc. do 2 f_equal. rewrite K.
      destruct bytes as [|b0 [|b1 [|b2 [|b3 [|]]]]]; try done. }
    rewrite Ev. unfold X. rewrite <- !app_assoc. apply address_done; [done..|by left|lia].
Qed.

Lemma length_wire_plain t v : zlen (wire (mk_attr t v [])) = 4 + zlen v.
Proof. rewrite length_wire. cbn [a_value a_pad]. by rewrite app_nil_r. Qed.
Lemma random_text_length rand : zlen (random_text rand) = 8.
Proof. unfold random_text. by rewrite length_fmap, length_seq. Qed.

Lemma chars_byte : Forall byte (stun_chars ++ [0]).
Proof. apply (bool_decide_eq_true_1 (Forall byte (stun_chars ++ [0]))). vm_compute. reflexivity. Qed.
Lemma random_text_byte rand : Forall byte (random_text rand).
Proof.
  unfold random_text. apply Forall_fmap, Forall_forall. intros x _. unfold compose.
  destruct ((stun_chars ++ [0]) !! _) as [c|] eqn:E; [|done]. by apply (Forall_lookup_1 byte _ _ c chars_byte) in E.
Qed.

(** ** Each call appends the attribute that is meant *)

Lemma run_op_ok p op n : open p -> op_ok op -> size p + zlen (wire (op_attr p op)) < 256 -> zlen (wire (op_attr p op)) <= n ->
  run_op (wire_packet p ++ zeros n) op = Ok (wire_packet (snoc p (op_attr p op)) ++ zeros (n - zlen (wire (op_attr p op)))).
Proof using pton_ok hmac_ok.
  intros O K Hs Hn. destruct op as [ipstr port v6|priority|pass| | |rand|rand|text|text|text]; cbn [run_op].
  - by apply add_xor_address_ok.
  - cbn [op_attr] in *. rewrite length_wire_plain, be32_length in *. pose proof (plain_ok p SWITCH_STUN_ATTR_PRIORITY (be32 priority) n O ltac:(done)) as P.
    rewrite be32_length in P. rewrite Z.sub_add_distr, <- P by lia. unfold switch_stun_packet_attribute_add_priority, put32. by rewrite be32_le.
  - cbn [op_attr] in Hs, Hn |- *. rewrite length_wire_plain, (proj1 (hmac_ok _ _)) in *. by apply add_integrity_ok.
  - cbn [op_attr] in Hs, Hn |- *. rewrite length_wire_plain, be32_length in *. by apply add_fingerprint_ok.
  - cbn [op_attr] in *. rewrite length_wire_plain in *. cbn [length] in *. change (Z.of_nat 0) with 0 in *.
    pose proof (plain_ok p SWITCH_STUN_ATTR_USE_CAND [] n O ltac:(done)) as P. cbn [length] in P. change (Z.of_nat 0) with 0 in P.
    rewrite Z.sub_add_distr, <- P by lia. unfold switch_stun_packet_attribute_add_use_candidate. assert (0 <= size p) by (unfold size; lia).
    pose proof O as (_ & L16 & _). rewrite new_attribute_ok by (done || lia).
    pose proof (splice_value p (size p) SWITCH_STUN_ATTR_USE_CAND 0 [] [] (n - 4) L16 ltac:(cbn; lia)) as V. cbn [app length] in V.
    change (Z.of_nat 0) with 0 in V. rewrite Z.add_0_r, Z.sub_0_r in V. by rewrite V.
  - cbn [op_attr] in *. rewrite length_wire_plain, random_text_length in *. unfold switch_stun_packet_attribute_add_controlling.
    rewrite random_string_ok by done. pose proof (plain_ok p SWITCH_STUN_ATTR_CONTROLLING (random_text rand) n O ltac:(done)) as P.
    rewrite random_text_length in P. rewrite P by lia. do 2 f_equal. f_equal. lia.
  - cbn [op_attr] in *. rewrite length_wire_plain, random_text_length in *. unfold switch_stun_packet_attribute_add_controlled.
    rewrite random_string_ok by done. pose proof (plain_ok p SWITCH_STUN_ATTR_CONTROLLED (random_text rand) n O ltac:(done)) as P.
    rewrite random_text_length in P. rewrite P by lia. do 2 f_equal. f_equal. lia.
  - by apply add_text_ok.
  - by apply add_text_ok.
  - by apply add_text_ok.
Qed.

Lemma wire_byte a : 0 <= a_type a < 65536 -> zlen (a_value a) < 65536 -> Forall byte (a_value a) -> Forall byte (a_pad a) -> Forall byte (wire a).
Proof. intros. unfold wire. rewrite !Forall_app. split_and!; try done; apply be16_byte; lia. Qed.
Lemma zip_byte u w : Forall byte u -> Forall byte w -> Forall byte (zip_with Z.lxor u w).
Proof.
  intros Hu. revert w. induction Hu as [|a u Ha _ IH]; intros w Hw; [constructor|]. destruct Hw as [|b w Hb Hw]; constructor; [|by apply IH].
  by apply (lxor_range _ _ 8).
Qed.

Lemma op_attr_byte p op : open p -> op_ok op -> size p + zlen (wire (op_attr p op)) < 256 -> Forall byte (wire (op_attr p op)).
Proof using pton_ok hmac_ok.
  intros O K Hs. pose proof O as (_ & _ & Br & _). rewrite length_wire, length_app in Hs. assert (0 <= size p) by (unfold size; lia).
  apply wire_byte; [by destruct op|lia| |]; destruct op as [ipstr port v6|priority|pass| | |rand|rand|text|text|text];
    cbn [op_attr text_attr a_value a_pad]; try done; try apply zeros_byte; try apply random_text_byte; try (unfold be32; apply Forall_reverse, le_bytes_byte).
  - destruct K as [[bytes E] Hp]. rewrite E. change (default [] (Some bytes)) with bytes. destruct (pton_ok _ _ _ E) as [_ Bb].
    unfold address_value. rewrite !Forall_app. split_and!; [by destruct v6; repeat constructor|apply be16_byte; by apply (lxor_range _ _ 16)|by apply zip_byte].
  - apply hmac_ok.
Qed.

Fixpoint packet_of (p : packet) (ops : list stun_op) : packet :=
  match ops with [] => p | op :: ops => packet_of (snoc p (op_attr p op)) ops end.

Lemma size_snoc p a : size (snoc p a) = size p + zlen (wire a).
Proof. unfold size, snoc. cbn [p_attrs]. rewrite wires_snoc, length_app. lia. Qed.
Lemma size_grows ops : forall p, size p <= size (packet_of p ops).
Proof. induction ops as [|op ops IH]; intros p; [done|]. cbn [packet_of]. specialize (IH (snoc p (op_attr p op))). rewrite size_snoc in IH. lia. Qed.

Lemma run_ops_ok ops : forall p n, open p -> Forall op_ok ops -> size (packet_of p ops) < 256 -> size (packet_of p ops) - size p <= n ->
  run_ops (wire_packet p ++ zeros n) ops = Ok (wire_packet (packet_of p ops) ++ zeros (n - (size (packet_of p ops) - size p))) /\
  open (packet_of p ops).
Proof using pton_ok hmac_ok.
  induction ops as [|op ops IH]; intros p n O K Hs Hn; cbn [run_ops packet_of] in *; [split; [do 3 f_equal; lia|done]|].
  apply Forall_cons in K as [K1 K]. pose proof (size_grows ops (snoc p (op_attr p op))) as G. rewrite size_snoc in G.
  rewrite run_op_ok by (done || lia). destruct (IH (snoc p (op_attr p op)) (n - zlen (wire (op_attr p op)))) as [E O']; [|done|done|rewrite size_snoc; lia|].
  - pose proof O as (Rt & L16 & Br & C & Bw). unfold open, snoc. cbn [p_type p_rest p_attrs]. split_and!; try done; try lia.
    rewrite wires_snoc, Forall_app. split; [done|]. apply op_attr_byte; [done..|lia].
  - split; [|done]. rewrite E, size_snoc. do 3 f_equal. lia.
Qed.

(** ** Whole packets *)

Definition new_packet (type : Z) (id : list Z) : packet := mk_packet type (cookie ++ id) [].

Lemma build_header_with id type cap : 0 <= type < 65536 -> length id = 12%nat -> 20 <= cap ->
  (let* m := put16 (zeros cap) 0 (htons type) in
   let* m := put16 m 2 0 in
   let* m := put32 m 4 (htonl STUN_MAGIC_COOKIE) in
   splice m 8 id) = Ok (wire_packet (new_packet type id) ++ zeros (cap - 20)).
Proof.
  intros Ht Lid Hc. rewrite (zeros_split cap 2), (zeros_split (cap - 2) 2), (zeros_split (cap - 2 - 2) 4), (zeros_split (cap - 2 - 2 - 4) 12) by lia.
  pose proof (put16_be [] (zeros 2) (zeros 2 ++ zeros 4 ++ zeros 12 ++ zeros (cap - 2 - 2 - 4 - 12)) 0 type) as P. cbn [app] in P.
  rewrite P by done. rewrite (put16_be (be16 type) (zeros 2)) with (v := 0) by done. unfold put32. rewrite (app_assoc (be16 type)).
  rewrite splice_app by done. rewrite (app_assoc (be16 type ++ be16 0)). rewrite splice_app by done. f_equal. unfold wire_packet, new_packet.
  cbn [p_type p_rest p_attrs]. change (wires []) with (@nil Z). cbn [length]. rewrite app_nil_r, <- !app_assoc.
  change (le_bytes 4 (htonl STUN_MAGIC_COOKIE)) with cookie. by replace (cap - 2 - 2 - 4 - 12) with (cap - 20) by lia.
Qed.
Lemma build_header_ok rand id type cap : 0 <= type < 65536 -> length id = 12%nat -> 20 <= cap ->
  switch_stun_packet_build_header rand type (Some id) (zeros cap) = Ok (wire_packet (new_packet type id) ++ zeros (cap - 20)).
Proof.
  intros Ht Lid Hc. rewrite <- build_header_with by done. unfold switch_stun_packet_build_header.
  pose proof (slice_app [] id [] 0 12 eq_refl ltac:(by rewrite Lid)) as S. rewrite app_nil_r in S. cbn [app] in S. rewrite S.
  repeat (case_match; try done).
Qed.
Lemma new_packet_open type id : 0 <= type < 65536 -> length id = 12%nat -> Forall byte id -> open (new_packet type id).
Proof.
  intros Ht Lid B. unfold open, new_packet. cbn [p_type p_rest p_attrs]. rewrite length_app, Lid, Forall_app.
  split_and!; try done; try lia. by apply (bool_decide_eq_true_1 (Forall byte cookie)).
Qed.

Lemma op_attr_ok p op : open p -> op_ok op -> size p + zlen (wire (op_attr p op)) < 256 -> attr_ok (op_attr p op).
Proof using pton_ok hmac_ok.
  intros O K Hs. pose proof (op_attr_byte p op O K Hs) as B. assert (0 <= size p) by (unfold size; lia).
  unfold wire in B. rewrite !Forall_app in B. destruct B as (_ & _ & Bv & Bp). pose proof O as (_ & L16 & _).
  rewrite length_wire, length_app in Hs. split_and!; [by destruct op|by destruct op|by apply Forall_app|lia| |].
  - destruct op; cbn [op_attr text_attr a_value a_pad] in *; try (rewrite zlen_zeros by cint; done).
    + destruct K as [[bytes E] _]. rewrite E. change (default [] (Some bytes)) with bytes. destruct (pton_ok _ _ _ E) as [Lb _].
      unfold address_value. rewrite !length_app, length_zip_with, Lb, L16. by destruct v6.
    + by rewrite be32_length.
    + by rewrite (proj1 (hmac_ok _ _)).
    + by rewrite be32_length.
    + done.
    + by rewrite random_text_length.
    + by rewrite random_text_length.
  - destruct op; cbn [op_attr text_attr a_type a_value]; try done.
    unfold value_ok. change (address_type SWITCH_STUN_ATTR_MESSAGE_INTEGRITY) with false. cbv iota. cbn.
    rewrite (proj1 (hmac_ok _ _)). done.
Qed.
Lemma seen_app l a : Forall attr_ok l -> attr_ok a -> Forall attr_ok (l ++ [a]).
Proof. intros. apply Forall_app. by rewrite Forall_singleton. Qed.
Lemma packet_of_ok ops : forall p, open p -> Forall op_ok ops -> size (packet_of p ops) < 256 -> Forall attr_ok (p_attrs p) ->
  Forall attr_ok (p_attrs (packet_of p ops)).
Proof using pton_ok hmac_ok.
  induction ops as [|op ops IH]; intros p O K Hs A; [done|]. apply Forall_cons in K as [K1 K]. cbn [packet_of] in *.
  pose proof (size_grows ops (snoc p (op_attr p op))) as G. rewrite size_snoc in G. apply IH; [|done..|].
  - destruct (run_ops_ok [op] p (zlen (wire (op_attr p op)))) as [_ O']; [done|by constructor| | |done]; cbn [packet_of]; rewrite size_snoc; lia.
  - cbn [snoc p_attrs]. apply seen_app; [done|]. apply op_attr_ok; [done..|lia].
Qed.
Lemma seen_ok l : Forall attr_ok l -> Forall attr_ok (seen l).
Proof. induction 1 as [|a l Ha _ IH]; [constructor|]. cbn [seen]. constructor; [done|]. by destruct (no_value a). Qed.
Lemma packet_of_same ops : forall p, p_type (packet_of p ops) = p_type p /\ p_rest (packet_of p ops) = p_rest p.
Proof. induction ops as [|op ops IH]; intros p; [done|]. cbn [packet_of]. by destruct (IH (snoc p (op_attr p op))) as [-> ->]. Qed.

(** C31. A header and any attributes appended to it, up to 255 bytes of them, give
    the packet that was meant, with its digest and its fingerprint over what is
    before them, and the parser accepts it and turns it into host order up to
    the first attribute without a value: the header and, by the table [layouts],
    the ports and numbers in the attributes.  The exception is PRIORITY, of which
    two bytes are swapped and which is in no order then
    ([stun_priority_garbled]). *)
Theorem stun_roundtrip rand type id ops cap len :
  known_packet type = true -> length id = 12%nat -> Forall byte id -> Forall op_ok ops ->
  let p := packet_of (new_packet type id) ops in
  8 <= size p < 256 -> 20 + size p <= cap -> 20 + size p <= len < 2 ^ 31 ->
  exists m, (let* m := switch_stun_packet_build_header rand type (Some id) (zeros cap) in run_ops m ops) = Ok m /\
    m = wire_packet p ++ zeros (cap - 20 - size p) /\
    switch_stun_packet_parse m len = Ok (host_packet p ++ zeros (cap - 20 - size p), true).
Proof using pton_ok hmac_ok.
  intros Ht Lid B K p Hs Hc Hl. pose proof (known_range _ Ht) as Rt. eexists. split_and!; [|done|].
  - rewrite build_header_ok by (done || lia). destruct (run_ops_ok ops (new_packet type id) (cap - 20)) as [E _];
      [by apply new_packet_open|done|fold p; lia|fold p; change (size (new_packet type id)) with 0; lia|].
    rewrite E. fold p. change (size (new_packet type id)) with 0. by rewrite Z.sub_0_r.
  - apply parse_exact; [|done]. destruct (packet_of_same ops (new_packet type id)) as [Et Er]. fold p in Et, Er.
    split_and!; [by rewrite Et|by rewrite Er; cbn; rewrite Lid| |unfold size in Hs; lia..].
    apply seen_ok. apply packet_of_ok; [by apply new_packet_open|done|fold p; lia|constructor].
Qed.
End Ops.

(** The sum of the lengths is made on numbers whose bytes lie the other way round,
    so that a carry out of the low byte is lost: 252 bytes of text give a packet
    whose length is 0. *)
Lemma stun_carry_lost :
  (let* m := switch_stun_packet_attribute_add_username no_rand (wire_packet (new_packet 1 (zeros 12)) ++ zeros 300)
               (Some (zeros 252)) 252 in switch_stun_packet_length m) = Ok 20.
Proof. vm_compute. reflexivity. Qed.

(** ** Witnesses *)

Definition w_pton (v6 : bool) (s : string) : option (list Z) :=
  if v6 then None else if String.eqb s "192.0.2.33" then Some [192; 0; 2; 33] else None.
Definition w_hmac (pass data : list Z) : list Z := replicate 20 7.
Lemma w_pton_ok v6 s bytes : w_pton v6 s = Some bytes -> length bytes = (if v6 then 16 else 4)%nat /\ Forall byte bytes.
Proof.
  unfold w_pton. destruct v6; [done|]. destruct (String.eqb _ _); [|done]. intros [= <-]. split; [done|].
  by apply (bool_decide_eq_true_1 (Forall byte [192; 0; 2; 33])).
Qed.
Lemma w_hmac_ok pass data : length (w_hmac pass data) = 20%nat /\ Forall byte (w_hmac pass data).
Proof. split; [done|]. by apply (bool_decide_eq_true_1 (Forall byte (replicate 20 7))). Qed.
Definition w_id : list Z := [1; 2; 3; 4; 5; 6; 7; 8; 9; 10; 11; 12].
Definition w_ops : list stun_op := [AddUsername [65; 66; 67]; AddXorAddress "192.0.2.33" 32853 false; AddPriority 100; AddIntegrity [1]; AddFingerprint].

Lemma stun_roundtrip_witness : exists m,
  (let* m := switch_stun_packet_build_header no_rand SWITCH_STUN_BINDING_REQUEST (Some w_id) (zeros 256) in run_ops w_pton w_hmac m w_ops) = Ok m /\
  m = wire_packet (packet_of w_pton w_hmac (new_packet SWITCH_STUN_BINDING_REQUEST w_id) w_ops) ++ zeros (256 - 20 - 60) /\
  switch_stun_packet_parse m 256 =
    Ok (host_packet (packet_of w_pton w_hmac (new_packet SWITCH_STUN_BINDING_REQUEST w_id) w_ops) ++ zeros (256 - 20 - 60), true).
Proof.
  apply (stun_roundtrip w_pton w_hmac w_pton_ok w_hmac_ok no_rand SWITCH_STUN_BINDING_REQUEST w_id w_ops 256 256).
  - reflexivity.
  - reflexivity.
  - by apply (bool_decide_eq_true_1 (Forall byte w_id)).
  - unfold w_ops. rewrite !Forall_cons. split_and!; try done; cbn [op_ok]; try (split; [by eexists|done]).
    by apply (bool_decide_eq_true_1 (Forall byte [65; 66; 67])).
  - split; [vm_compute; discriminate|vm_compute; reflexivity].
  - vm_compute. discriminate.
  - split; [vm_compute; discriminate|vm_compute; reflexivity].
Defined.
