(* ===== verification/StunLookup.v ===== *)
(** * The own address from a STUN server (src/switch_stun.c)

    What one side puts into its reply the other finds. *)
From stdpp Require Import pretty strings.
From S2P Require Import Prelude Bytes Crc32 Stun StunBuild.
Open Scope Z_scope.

Section Lookup.
Context (inet_pton : bool -> string -> option (list Z)) (inet_ntop : list Z -> string).
Hypothesis pton_ok : forall v6 s bytes, inet_pton v6 s = Some bytes -> length bytes = (if v6 then 16 else 4)%nat /\ Forall byte bytes.

Lemma random_ok rand n : (forall x, 0 <= rand x <= RAND_MAX) -> exists s, switch_stun_random_string rand (Z.of_nat n) None = Ok s /\ length s = n /\ Forall byte s.
Proof.
  intros R. unfold switch_stun_random_string. cbn [default]. rewrite Nat2Z.id. rewrite random_chars_ok by done. eexists.
  split; [done|]. split; [by rewrite length_fmap, length_seq|]. apply Forall_fmap, Forall_forall. intros x _. unfold compose.
  destruct ((stun_chars ++ [0]) !! _) as [c|] eqn:E; [|done]. by apply (Forall_lookup_1 byte _ _ c chars_byte) in E.
Qed.

(** The request leaves a buffer of 260 bytes. *)
Lemma request_ok rand : (forall x, 0 <= rand x <= RAND_MAX) -> exists buf sent, lookup_request rand false = Ok (buf, sent) /\ zlen buf = 260.
Proof.
  intros R. unfold lookup_request. change (replicate (Z.to_nat 260) 0) with (zeros 260).
  destruct (random_ok rand 12 R) as (id & Eid & Lid & Bid). destruct (random_ok (fun x => rand (12 + x)%nat) 32) as (u & Eu & Lu & Bu); [intros x; apply R|].
  unfold switch_stun_packet_build_header. change (Z.of_nat 12) with 12 in Eid. change (Z.of_nat 32) with 32 in Eu. rewrite Eid, Eu.
  pose proof (build_header_with id SWITCH_STUN_BINDING_REQUEST 260 ltac:(done) Lid ltac:(done)) as H.
  destruct (put16 (zeros 260) 0 _) as [m1| |]; try done. destruct (put16 m1 2 0) as [m2| |]; try done. destruct (put32 m2 4 _) as [m3| |]; try done. rewrite H.
  set (p := new_packet SWITCH_STUN_BINDING_REQUEST id). assert (Op : open p) by by apply new_packet_open.
  assert (Ls : zlen (wire (text_attr SWITCH_STUN_ATTR_USERNAME u)) = 36) by (rewrite length_wire, length_app; cbn [text_attr a_value a_pad]; by rewrite Lu).
  pose proof (add_text_ok SWITCH_STUN_ATTR_USERNAME p u (260 - 20)) as T. rewrite Ls, Lu in T.
  unfold switch_stun_packet_attribute_add_username. change (Z.of_nat 32) with 32 in T.
  assert (E : forall m, add_text SWITCH_STUN_ATTR_USERNAME rand m (Some u) 32 = add_text SWITCH_STUN_ATTR_USERNAME no_rand m (Some u) 32) by done.
  rewrite E, T by (try done; cbn; lia). set (q := snoc p (text_attr SWITCH_STUN_ATTR_USERNAME u)).
  assert (Lq : zlen (wire_packet q ++ zeros (260 - 20 - 36)) = 260).
  { change (wire_packet q) with (header q (size q)). rewrite length_app, Nat2Z.inj_add, header_length by (cbn; by rewrite Lid).
    unfold q. rewrite size_snoc, Ls, zlen_zeros by lia. done. }
  assert (Lw : switch_stun_packet_length (wire_packet q ++ zeros (260 - 20 - 36)) = Ok 56).
  { unfold switch_stun_packet_length, wire_packet. rewrite <- !app_assoc. rewrite get16_be; [|done|].
    - fold (size q). unfold q. rewrite size_snoc, Ls. reflexivity.
    - fold (size q). unfold q. rewrite size_snoc, Ls. done. }
  rewrite Lw. cbn [app]. unfold slice. rewrite Lq. cbn [Z.leb Z.add andb]. eexists _, _. split; [reflexivity|done].
Qed.

(** Decoding where the address lies. *)
Lemma get_xor_exact P X bytes q a : zlen P = a + 4 -> 0 <= X < 65536 -> length bytes = 4%nat -> Forall byte bytes ->
  (forall r, get32 (P ++ r) 4 = Ok (le_val cookie)) ->
  switch_stun_packet_attribute_get_xor_mapped_address inet_ntop (P ++ [0; 1] ++ le_bytes 2 X ++ bytes ++ q) a =
  Ok (P ++ [0; 1] ++ le_bytes 2 (Z.lxor X 0x2112) ++ zip_with Z.lxor bytes cookie ++ q,
      dotted (zip_with Z.lxor bytes cookie), Z.lxor X 0x2112).
Proof.
  intros LP HX Lb Bb C. unfold switch_stun_packet_attribute_get_xor_mapped_address.
  assert (F : get8 (P ++ [0; 1] ++ le_bytes 2 X ++ bytes ++ q) (a + 5) = Ok 1).
  { unfold get8. change ([0; 1] ++ ?r) with ([0] ++ [1] ++ r). rewrite app_assoc. rewrite slice_app; [done| |done].
    rewrite length_app. cbn. lia. }
  rewrite F, C. change (1 =? 2) with false. cbv iota.
  set (R := P ++ [0; 1] ++ le_bytes 2 X). assert (LR : zlen R = a + 8) by (unfold R; rewrite !length_app, le_bytes_length; cbn; lia).
  replace (P ++ [0; 1] ++ le_bytes 2 X ++ bytes ++ q) with (R ++ bytes ++ q) by (unfold R; by rewrite <- !app_assoc).
  unfold get32, put32. rewrite slice_app by (rewrite ?Lb; done). rewrite splice_app by (done || by rewrite le_bytes_length).
  rewrite slice_app by (rewrite ?le_bytes_length; done).
  assert (E : le_bytes 4 (Z.lxor (le_val bytes) (le_val cookie)) = zip_with Z.lxor bytes cookie).
  { rewrite le_bytes_lxor. f_equal. rewrite <- Lb. by apply le_bytes_val. }
  rewrite E. set (out := zip_with Z.lxor bytes cookie). set (Q := P ++ [0; 1]). assert (LQ : zlen Q = a + 6) by (unfold Q; rewrite length_app; cbn; lia).
  replace (R ++ out ++ q) with (Q ++ le_bytes 2 X ++ out ++ q) by (unfold R, Q; by rewrite <- !app_assoc).
  change (Z.shiftr (ntohl (le_val cookie)) 16) with 0x2112.
  rewrite get16_le by done. rewrite put16_le by done. rewrite get16_le; [|done|by apply (lxor_range _ _ 16)].
  unfold Q. by rewrite <- !app_assoc.
Qed.

(** The reply: one attribute with the address. *)
Definition reply_packet (id : list Z) (bytes : list Z) (port : Z) : packet :=
  let p := new_packet SWITCH_STUN_BINDING_RESPONSE id in
  snoc p (mk_attr SWITCH_STUN_ATTR_XOR_MAPPED_ADDRESS (address_value p bytes port false) []).

Lemma reply_found id bytes port slack : length id = 12%nat -> Forall byte id -> length bytes = 4%nat -> Forall byte bytes ->
  0 <= port < 65536 -> zlen slack = 228 ->
  lookup_reply inet_ntop false (wire_packet (reply_packet id bytes port) ++ slack) = Ok (Found (dotted bytes) port).
Proof.
  intros Lid Bid Lb Bb Hp Hs. set (p := reply_packet id bytes port). set (X := Z.lxor port 0x2112).
  assert (HX : 0 <= X < 65536) by (by apply (lxor_range _ _ 16)).
  set (bs := zip_with Z.lxor bytes cookie).
  assert (Ev : address_value (new_packet SWITCH_STUN_BINDING_RESPONSE id) bytes port false = [0; 1] ++ be16 X ++ bs).
  { unfold address_value, bs. destruct bytes as [|b0 [|b1 [|b2 [|b3 [|]]]]]; try done. }
  assert (Lbs : length bs = 4%nat) by (unfold bs; by rewrite length_zip_with, Lb).
  assert (Bbs : Forall byte bs) by (apply zip_byte; [done|by apply (bool_decide_eq_true_1 (Forall byte cookie))]).
  assert (L8 : zlen ([0; 1] ++ be16 X ++ bs) = 8) by (rewrite !length_app, Lbs; done).
  assert (Ea : p_attrs p = [mk_attr SWITCH_STUN_ATTR_XOR_MAPPED_ADDRESS ([0; 1] ++ be16 X ++ bs) []]) by (unfold p, reply_packet, snoc; cbn [p_attrs new_packet app]; by rewrite Ev).
  assert (Ew : zlen (wires (p_attrs p)) = 12).
  { rewrite Ea. rewrite wires_cons, length_app, Nat2Z.inj_add, length_wire_plain, L8. done. }
  assert (K : packet_ok p).
  { split_and!; [done|unfold p; cbn; by rewrite Lid| |lia|lia]. rewrite Ea. change (seen [?a]) with [a]. apply Forall_singleton.
    unfold attr_ok. cbn [a_type a_value a_pad]. rewrite app_nil_r, L8. split_and!; try done.
    rewrite !Forall_app. split_and!; [by apply (bool_decide_eq_true_1 (Forall byte [0; 1]))|by apply be16_byte|done]. }
  unfold lookup_reply. cbv zeta. rewrite Z.sub_0_r. change (zdrop 0 ?l) with l. rewrite parse_exact by (done || lia). cbn [negb].
  assert (Eh : host_packet p ++ slack = (le_bytes 2 SWITCH_STUN_BINDING_RESPONSE ++ le_bytes 2 12 ++ cookie ++ id ++ le_bytes 2 SWITCH_STUN_ATTR_XOR_MAPPED_ADDRESS ++ le_bytes 2 8) ++ [0; 1] ++ le_bytes 2 X ++ bs ++ slack).
  { unfold host_packet. assert (Es : zlen (wires (seen (p_attrs p))) = 12) by (rewrite Ea in Ew |- *; done). rewrite Es, Ea.
    change (hosts [?a]) with (host a ++ hosts []). unfold host, hosts. cbn [a_type a_value a_pad]. rewrite !app_nil_r.
    rewrite L8.
    change (host_value _ ([0; 1] ++ be16 X ++ bs)) with ([0; 1] ++ [X mod 256; X / 256] ++ bs). rewrite be16_le by done.
    change (p_rest p) with (cookie ++ id). change (p_type p) with SWITCH_STUN_BINDING_RESPONSE. by rewrite <- !app_assoc. }
  rewrite Eh. set (H := le_bytes 2 SWITCH_STUN_BINDING_RESPONSE ++ le_bytes 2 12 ++ cookie ++ id ++ le_bytes 2 SWITCH_STUN_ATTR_XOR_MAPPED_ADDRESS ++ le_bytes 2 8).
  assert (LH : zlen H = 24) by (unfold H; rewrite !length_app, Lid; done).
  assert (G2 : forall r, get16 (H ++ r) 2 = Ok 12) by (intros r; unfold H; rewrite <- !app_assoc; by apply get16_le).
  assert (G0 : forall r, get16 (H ++ r) 0 = Ok SWITCH_STUN_BINDING_RESPONSE) by (intros r; unfold H; rewrite <- !app_assoc; by apply (get16_le [])).
  assert (G4 : forall r, get32 (H ++ r) 4 = Ok (le_val cookie)).
  { intros r. unfold H, get32. rewrite <- !app_assoc. rewrite (app_assoc (le_bytes 2 SWITCH_STUN_BINDING_RESPONSE)). by rewrite slice_app. }
  set (N := le_bytes 2 SWITCH_STUN_BINDING_RESPONSE ++ le_bytes 2 12 ++ cookie ++ id).
  assert (LN : zlen N = 20) by (unfold N; rewrite !length_app, Lid; done).
  assert (G20 : forall r, get16 (H ++ r) 20 = Ok SWITCH_STUN_ATTR_XOR_MAPPED_ADDRESS).
  { intros r. replace (H ++ r) with (N ++ le_bytes 2 SWITCH_STUN_ATTR_XOR_MAPPED_ADDRESS ++ le_bytes 2 8 ++ r) by (unfold H, N; by rewrite <- !app_assoc).
    by apply get16_le. }
  assert (G22 : forall r, get16 (H ++ r) 22 = Ok 8).
  { intros r. replace (H ++ r) with ((N ++ le_bytes 2 SWITCH_STUN_ATTR_XOR_MAPPED_ADDRESS) ++ le_bytes 2 8 ++ r) by (unfold H, N; by rewrite <- !app_assoc).
    apply get16_le; [|done]. rewrite length_app, Nat2Z.inj_add, LN. done. }
  rewrite G2. change 260%nat with (S 259). cbn [lookup_walk]. rewrite G20.
  change (SWITCH_STUN_ATTR_XOR_MAPPED_ADDRESS =? SWITCH_STUN_ATTR_MAPPED_ADDRESS) with false.
  change (SWITCH_STUN_ATTR_XOR_MAPPED_ADDRESS =? SWITCH_STUN_ATTR_XOR_MAPPED_ADDRESS) with true. cbv iota.
  rewrite (get_xor_exact H X bs slack 20) by done. unfold switch_stun_packet_next_attribute. change (20 + 2) with 22. rewrite G22.
  change (20 + 4 + switch_stun_attribute_padded_length 8) with 32. change (12 <? 260) with true. cbv iota. change (12 - 0) with 12.
  change (32 <? 12) with false. cbn [negb]. rewrite G0. change (SWITCH_STUN_BINDING_RESPONSE =? SWITCH_STUN_BINDING_RESPONSE) with true. cbv iota.
  assert (Eo : zip_with Z.lxor bs cookie = bytes).
  { unfold bs. destruct bytes as [|b0 [|b1 [|b2 [|b3 [|]]]]]; try done. cbn. by rewrite !Z.lxor_assoc, !Z.lxor_nilpotent, !Z.lxor_0_r. }
  rewrite Eo. unfold X. by rewrite Z.lxor_assoc, Z.lxor_nilpotent, Z.lxor_0_r.
Qed.

Lemma wait_skips waits b bytes t rest : Forall (fun w : list Z * Z => w.1 = [] /\ w.2 <= 5000) waits ->
  lookup_wait (waits ++ (b :: bytes, t) :: rest) = Some (inl (b :: bytes)).
Proof.
  induction 1 as [|[l e] waits [E L] _ IH]; [done|]. cbn in E, L. subst. cbn [app lookup_wait]. by rewrite (proj2 (Z.ltb_ge 5000 e)).
Qed.

(** The address and the port that a server puts into its reply are what the
    look-up returns, however long it has to wait below five seconds. *)
Theorem stun_lookup_finds rand srand id ipstr bytes port waits t :
  (forall x, 0 <= rand x <= RAND_MAX) -> length id = 12%nat -> Forall byte id ->
  inet_pton false ipstr = Some bytes -> 0 <= port < 65536 ->
  Forall (fun w : list Z * Z => w.1 = [] /\ w.2 <= 5000) waits ->
  exists m reply,
    (let* m := switch_stun_packet_build_header srand SWITCH_STUN_BINDING_RESPONSE (Some id) (zeros 256) in
     switch_stun_packet_attribute_add_xor_binded_address inet_pton m ipstr port false) = Ok m /\
    switch_stun_packet_length m = Ok 32 /\ slice m 0 32 = Ok reply /\
    switch_stun_lookup inet_ntop (mk_env true true true true (waits ++ [(reply, t)])) rand false =
      Some (Ok (Found (dotted bytes) port)).
Proof using pton_ok.
  intros R Lid Bid E Hp W. destruct (pton_ok _ _ _ E) as [Lb Bb]. set (p0 := new_packet SWITCH_STUN_BINDING_RESPONSE id).
  assert (Op : open p0) by by apply new_packet_open.
  assert (Ea : op_attr inet_pton w_hmac p0 (AddXorAddress ipstr port false) =
    mk_attr SWITCH_STUN_ATTR_XOR_MAPPED_ADDRESS (address_value p0 bytes port false) []) by (cbn [op_attr]; by rewrite E).
  assert (Lw : zlen (wire (op_attr inet_pton w_hmac p0 (AddXorAddress ipstr port false))) = 12).
  { rewrite Ea, length_wire_plain. unfold address_value. rewrite !length_app, length_zip_with, Lb. unfold p0. cbn [new_packet p_rest].
    rewrite length_app, Lid. done. }
  pose proof (add_xor_address_ok inet_pton w_hmac pton_ok p0 ipstr port false 236 Op) as A. rewrite Lw, Ea in A.
  set (p := reply_packet id bytes port). change (snoc p0 _) with p in A.
  assert (Sp : size p = 12) by (unfold p, reply_packet; fold p0; rewrite size_snoc, <- Ea, Lw; done).
  assert (Lp : zlen (wire_packet p) = 32).
  { change (wire_packet p) with (header p (size p)). rewrite header_length, Sp by (cbn; by rewrite Lid). done. }
  exists (wire_packet p ++ zeros 224), (wire_packet p). split_and!.
  - rewrite build_header_ok by done. change (256 - 20) with 236. apply A; [split; [by eexists|done]|done|done].
  - unfold switch_stun_packet_length, wire_packet. rewrite <- !app_assoc. fold (size p). rewrite Sp. by rewrite get16_be.
  - by apply (slice_app [] (wire_packet p)).
  - destruct (request_ok rand R) as (buf & sent & Er & Lbuf). unfold switch_stun_lookup. cbn [local_ok remote_ok socket_ok bind_ok looks negb].
    rewrite Er. assert (Ew : exists b w, wire_packet p = b :: w) by (by eexists _, _). destruct Ew as (b & w & Ew). rewrite Ew.
    rewrite wait_skips by done. rewrite <- Ew. do 2 f_equal.
    assert (T : ztake 260 (wire_packet p) = wire_packet p) by (unfold ztake; apply firstn_all2; lia). rewrite T, Lp.
    apply reply_found; try done. rewrite zlen_zdrop; lia.
Qed.
End Lookup.

(** The end of the packet is taken where the header's length points to without
    the header's own 20 bytes, so that an address in the last 20 bytes is not
    looked at unless it comes first. *)
Lemma stun_address_missed inet_ntop :
  lookup_reply inet_ntop false (wire_packet (mk_packet SWITCH_STUN_BINDING_RESPONSE (cookie ++ zeros 12)
    [mk_attr SWITCH_STUN_ATTR_SOFTWARE [70; 83; 0; 0] []; mk_attr SWITCH_STUN_ATTR_XOR_MAPPED_ADDRESS [0; 1; 1; 2; 3; 4; 5; 6] []]) ++ zeros 220) =
  Ok (Found EmptyString 0).
Proof. vm_compute. reflexivity. Qed.

(** ** Witnesses *)

Lemma stun_lookup_finds_witness : exists m reply,
  (let* m := switch_stun_packet_build_header no_rand SWITCH_STUN_BINDING_RESPONSE (Some w_id) (zeros 256) in
   switch_stun_packet_attribute_add_xor_binded_address w_pton m "192.0.2.33" 32853 false) = Ok m /\
  switch_stun_packet_length m = Ok 32 /\ slice m 0 32 = Ok reply /\
  switch_stun_lookup (fun _ => EmptyString) (mk_env true true true true ([([], 10)] ++ [(reply, 20)])) no_rand false =
    Some (Ok (Found "192.0.2.33" 32853)).
Proof.
  apply (stun_lookup_finds w_pton (fun _ => EmptyString) w_pton_ok no_rand no_rand w_id "192.0.2.33" [192; 0; 2; 33] 32853 [([], 10)] 20).
  - intros x. split; [done|vm_compute; discriminate].
  - reflexivity.
  - by apply (bool_decide_eq_true_1 (Forall byte w_id)).
  - reflexivity.
  - lia.
  - apply Forall_singleton. cbn. split; [done|lia].
Defined.
