(* ===== verification/Queue.v ===== *)
(** * The bounded queue of the threads (libs/apr-util/misc/apr_queue.c, src/switch_apr.c)

    A ring of pointers behind a mutex and two condition variables.  A thread in
    an operation is at a [point] of it; what it does between two points, inside the
    mutex or on one read of [terminated] outside of it, is one step of [run], and
    [step] interleaves the steps of any number of threads.  The mutex and the
    condition variables are those of POSIX and do not fail: a signal wakes one of
    the threads that wait, a broadcast all of them, and a thread may wake up
    without either.  [Queue] ends with the refinement of a list; [QueueWake] shows
    that no wake-up is lost. *)
From stdpp Require Import relations.
From S2P Require Import Prelude.
Open Scope Z_scope.
#[local] Notation length := List.length (only parsing).

Inductive apr_status := APR_SUCCESS | APR_EOF | APR_EINTR | APR_EAGAIN | APR_TIMEUP | APR_ENOMEM.
#[export] Instance apr_status_eq_dec : EqDecision apr_status.
Proof. solve_decision. Defined.

(** [struct apr_queue_t]; pointers are their addresses. *)
Record apr_queue_t := mk_queue {
  data : list Z;
  nelts : Z;
  in_ : Z;
  out : Z;
  bounds : Z;
  full_waiters : Z;
  empty_waiters : Z;
  terminated : bool
}.
#[export] Instance eta_queue : Eta apr_queue_t := fun q =>
  mk_queue (data q) (nelts q) (in_ q) (out q) (bounds q) (full_waiters q) (empty_waiters q) (terminated q).

(** A pointer has four bytes; [mem] says whether the pool had room. *)
Definition apr_queue_create (queue_capacity : Z) (mem : bool) : apr_status * option apr_queue_t :=
  if mem then
    (APR_SUCCESS, Some (mk_queue (replicate (Z.to_nat (size_t (queue_capacity * 4) / 4)) 0) 0 0 0 queue_capacity 0 0 false))
  else (APR_ENOMEM, None).
Definition switch_queue_create (queue_capacity : Z) (mem : bool) := apr_queue_create queue_capacity mem.

Definition apr_queue_full (q : apr_queue_t) : bool := nelts q =? bounds q.
Definition apr_queue_empty (q : apr_queue_t) : bool := nelts q =? 0.
Definition apr_queue_size (q : apr_queue_t) : Z := nelts q.
Definition switch_queue_size (q : apr_queue_t) : Z := apr_queue_size q.

(** Where a thread is in an operation: before the test of [terminated], before
    the mutex, in the wait, awake again with the status of the wait but without
    the mutex, behind the release of the mutex with nothing done. *)
Inductive point := Start | Enter | Wait | Wake (rv : apr_status) | Intr.
Inductive progress := At (p : point) | Ret (rv : apr_status) (val : option Z).
Inductive signal := NoSignal | NotEmpty | NotFull | Everybody.
Definition result : Type := apr_queue_t * progress * signal.
#[export] Instance point_eq_dec : EqDecision point.
Proof. solve_decision. Defined.

(** The ends of the operations inside the mutex. *)
Definition enqueue (q : apr_queue_t) (v : Z) : outcome result :=
  if (in_ q <? zlen (data q)) && negb (bounds q =? 0) then
    let q := q <| data := <[Z.to_nat (in_ q) := v]> (data q) |> <| in_ := u32 (in_ q + 1) mod bounds q |>
               <| nelts := u32 (nelts q + 1) |> in
    Ok (q, Ret APR_SUCCESS None, if empty_waiters q =? 0 then NoSignal else NotEmpty)
  else UB.
Definition dequeue (q : apr_queue_t) : outcome result :=
  match data q !! Z.to_nat (out q) with
  | Some v =>
    if bounds q =? 0 then UB
    else
      let q := q <| nelts := u32 (nelts q - 1) |> <| out := u32 (out q + 1) mod bounds q |> in
      Ok (q, Ret APR_SUCCESS (Some v), if full_waiters q =? 0 then NoSignal else NotFull)
  | None => UB
  end.
Definition interrupted (q : apr_queue_t) : outcome result :=
  Ok (q, Ret (if terminated q then APR_EOF else APR_EINTR) None, NoSignal).

(** The test of [terminated] that every operation on an element starts with. *)
Definition start (q : apr_queue_t) : outcome result :=
  Ok (q, if terminated q then Ret APR_EOF None else At Enter, NoSignal).

Definition apr_queue_push (q : apr_queue_t) (v : Z) (p : point) : outcome result :=
  match p with
  | Start => start q
  | Enter =>
    if apr_queue_full q then
      if terminated q then Ok (q, At Intr, NoSignal)
      else Ok (q <| full_waiters := u32 (full_waiters q + 1) |>, At Wait, NoSignal)
    else enqueue q v
  | Wait => Ok (q, At Wait, NoSignal)
  | Wake rv =>
    let q := q <| full_waiters := u32 (full_waiters q - 1) |> in
    if decide (rv = APR_SUCCESS) then if apr_queue_full q then Ok (q, At Intr, NoSignal) else enqueue q v
    else Ok (q, Ret rv None, NoSignal)
  | Intr => interrupted q
  end.

(** [apr_queue_pop] and [apr_queue_pop_timeout] differ in the wait alone. *)
Definition apr_queue_pop (q : apr_queue_t) (p : point) : outcome result :=
  match p with
  | Start => start q
  | Enter =>
    if apr_queue_empty q then
      if terminated q then Ok (q, At Intr, NoSignal)
      else Ok (q <| empty_waiters := u32 (empty_waiters q + 1) |>, At Wait, NoSignal)
    else dequeue q
  | Wait => Ok (q, At Wait, NoSignal)
  | Wake rv =>
    let q := q <| empty_waiters := u32 (empty_waiters q - 1) |> in
    if decide (rv = APR_SUCCESS) then if apr_queue_empty q then Ok (q, At Intr, NoSignal) else dequeue q
    else Ok (q, Ret rv None, NoSignal)
  | Intr => interrupted q
  end.

Definition apr_queue_trypush (q : apr_queue_t) (v : Z) (p : point) : outcome result :=
  match p with
  | Start => start q
  | _ => if apr_queue_full q then Ok (q, Ret APR_EAGAIN None, NoSignal) else enqueue q v
  end.
Definition apr_queue_trypop (q : apr_queue_t) (p : point) : outcome result :=
  match p with
  | Start => start q
  | _ => if apr_queue_empty q then Ok (q, Ret APR_EAGAIN None, NoSignal) else dequeue q
  end.
Definition apr_queue_interrupt_all (q : apr_queue_t) : outcome result := Ok (q, Ret APR_SUCCESS None, Everybody).
Definition apr_queue_term (q : apr_queue_t) (p : point) : outcome result :=
  match p with
  | Start => Ok (q <| terminated := true |>, At Enter, NoSignal)
  | _ => apr_queue_interrupt_all q
  end.

(** The wrappers: pushes start over when they were interrupted. *)
Definition again (r : outcome result) : outcome result :=
  let* (q, r, w) := r in
  Ok (q, match r with Ret APR_EINTR _ => At Start | _ => r end, w).
Definition switch_queue_push (q : apr_queue_t) (v : Z) (p : point) := again (apr_queue_push q v p).
Definition switch_queue_trypush (q : apr_queue_t) (v : Z) (p : point) := again (apr_queue_trypush q v p).
Definition switch_queue_pop (q : apr_queue_t) (p : point) := apr_queue_pop q p.
Definition switch_queue_pop_timeout (q : apr_queue_t) (p : point) := apr_queue_pop q p.
Definition switch_queue_trypop (q : apr_queue_t) (p : point) := apr_queue_trypop q p.
Definition switch_queue_interrupt_all (q : apr_queue_t) := apr_queue_interrupt_all q.
Definition switch_queue_term (q : apr_queue_t) (p : point) := apr_queue_term q p.

Inductive operation :=
| Push (v : Z) | Pop | PopTimeout | TryPush (v : Z) | TryPop | InterruptAll | Term.
#[export] Instance operation_eq_dec : EqDecision operation.
Proof. solve_decision. Defined.

Definition run (o : operation) (p : point) (q : apr_queue_t) : outcome result :=
  match o with
  | Push v => switch_queue_push q v p
  | Pop => switch_queue_pop q p
  | PopTimeout => switch_queue_pop_timeout q p
  | TryPush v => switch_queue_trypush q v p
  | TryPop => switch_queue_trypop q p
  | InterruptAll => switch_queue_interrupt_all q
  | Term => switch_queue_term q p
  end.

(** ** Threads *)

Inductive thread := Out | In (o : operation) (p : point).
#[export] Instance thread_eq_dec : EqDecision thread.
Proof. solve_decision. Defined.

Definition popper (o : operation) : bool := match o with Pop | PopTimeout => true | _ => false end.
Definition pusher (o : operation) : bool := match o with Push _ => true | _ => false end.
Definition waits_for (kind : operation -> bool) (t : thread) : Prop :=
  match t with In o Wait => kind o = true | _ => False end.
#[export] Instance waits_for_dec kind t : Decision (waits_for kind t).
Proof. destruct t as [|o []]; cbn; apply _. Defined.
Definition awaken (rv : apr_status) (t : thread) : thread :=
  match t with In o Wait => In o (Wake rv) | _ => t end.

(** What a signal does to the threads. *)
Inductive signals (kind : operation -> bool) (ts : list thread) : list thread -> Prop :=
| signal_one j t : ts !! j = Some t -> waits_for kind t -> signals kind ts (<[j := awaken APR_SUCCESS t]> ts)
| signal_none : Forall (fun t => ~ waits_for kind t) ts -> signals kind ts ts.
Definition wakes (w : signal) (ts ts' : list thread) : Prop :=
  match w with
  | NoSignal => ts' = ts
  | NotEmpty => signals popper ts ts'
  | NotFull => signals pusher ts ts'
  | Everybody => ts' = awaken APR_SUCCESS <$> ts
  end.

(** What is seen of the queue, newest first: the operations that ended, with
    their status and the element they returned, and the moment it was terminated. *)
Inductive event := Done (o : operation) (rv : apr_status) (val : option Z) | Closed.

Record system := mk_system {
  queue : apr_queue_t;
  threads : list thread;
  log : list event
}.

Definition after (o : operation) (r : progress) : thread :=
  match r with At p => In o p | Ret _ _ => Out end.
Definition seen (o : operation) (r : progress) : list event :=
  match r, o with
  | Ret rv val, _ => [Done o rv val]
  | At _, Term => [Closed]
  | At _, _ => []
  end.

(** A thread goes on. *)
Inductive go : system -> system -> Prop :=
| go_run s i o p q r w ts :
    threads s !! i = Some (In o p) -> p <> Wait -> run o p (queue s) = Ok (q, r, w) ->
    wakes w (<[i := after o r]> (threads s)) ts ->
    go s (mk_system q ts (seen o r ++ log s)).
(** A thread calls an operation, or its wait ends by itself or by its time
    with no signal for it. *)
Inductive outside : system -> system -> Prop :=
| call s i o : threads s !! i = Some Out ->
    outside s (mk_system (queue s) (<[i := In o Start]> (threads s)) (log s))
| spurious s i o : threads s !! i = Some (In o Wait) ->
    outside s (mk_system (queue s) (<[i := In o (Wake APR_SUCCESS)]> (threads s)) (log s))
| timeout s i : threads s !! i = Some (In PopTimeout Wait) ->
    outside s (mk_system (queue s) (<[i := In PopTimeout (Wake APR_TIMEUP)]> (threads s)) (log s)).
(** A timed wait that was signalled may still end by its time: POSIX lets
    [pthread_cond_timedwait] return [ETIMEDOUT] with the signal consumed. *)
Inductive expires : system -> system -> Prop :=
| expired s i : threads s !! i = Some (In PopTimeout (Wake APR_SUCCESS)) ->
    expires s (mk_system (queue s) (<[i := In PopTimeout (Wake APR_TIMEUP)]> (threads s)) (log s)).
(** Every step, and those that lose no signal to a time limit. *)
Definition step (s s' : system) : Prop := go s s' \/ outside s s' \/ expires s s'.
Definition steady (s s' : system) : Prop := go s s' \/ outside s s'.

(** A queue that was created with room for [cap] elements, and [n] threads. *)
Definition created (cap : Z) (n : nat) (s : system) : Prop :=
  exists q, switch_queue_create cap true = (APR_SUCCESS, Some q) /\ s = mk_system q (replicate n Out) [].
Definition reachable (cap : Z) (n : nat) (s : system) : Prop := exists s0, created cap n s0 /\ rtc step s0 s.
Definition reachable_steadily (cap : Z) (n : nat) (s : system) : Prop := exists s0, created cap n s0 /\ rtc steady s0 s.

(** ** The specification: a list of at most [cap] elements and whether it is closed *)

Inductive spec (cap : Z) : list Z * bool -> event -> list Z * bool -> Prop :=
| spec_push v l c : zlen l < cap -> spec cap (l, c) (Done (Push v) APR_SUCCESS None) (l ++ [v], c)
| spec_trypush v l c : zlen l < cap -> spec cap (l, c) (Done (TryPush v) APR_SUCCESS None) (l ++ [v], c)
| spec_full v l c : zlen l = cap -> spec cap (l, c) (Done (TryPush v) APR_EAGAIN None) (l, c)
| spec_pop o v l c : popper o = true \/ o = TryPop -> spec cap (v :: l, c) (Done o APR_SUCCESS (Some v)) (l, c)
| spec_empty c : spec cap ([], c) (Done TryPop APR_EAGAIN None) ([], c)
| spec_timeup l c : spec cap (l, c) (Done PopTimeout APR_TIMEUP None) (l, c)
| spec_intr o l : popper o = true -> spec cap (l, false) (Done o APR_EINTR None) (l, false)
| spec_eof o l : o <> InterruptAll -> o <> Term -> spec cap (l, true) (Done o APR_EOF None) (l, true)
| spec_close l c : spec cap (l, c) Closed (l, true)
| spec_interrupt l c : spec cap (l, c) (Done InterruptAll APR_SUCCESS None) (l, c)
| spec_term l : spec cap (l, true) (Done Term APR_SUCCESS None) (l, true).
Inductive specs (cap : Z) : list event -> list Z * bool -> Prop :=
| specs_nil : specs cap [] ([], false)
| specs_cons e es st st' : specs cap es st -> spec cap st e st' -> specs cap (e :: es) st'.

(** ** The ring *)

(** [l] is in the ring, from [out] on. *)
Record holds (cap : Z) (q : apr_queue_t) (l : list Z) : Prop := mk_holds {
  h_data : zlen (data q) = cap;
  h_bounds : bounds q = cap;
  h_nelts : nelts q = zlen l;
  h_room : zlen l <= cap;
  h_cap : cap < 2 ^ 30;
  h_ends : 0 < cap -> 0 <= out q < cap /\ in_ q = (out q + zlen l) mod cap;
  h_elems i v : l !! i = Some v -> data q !! Z.to_nat ((out q + Z.of_nat i) mod cap) = Some v
}.

Lemma holds_waiters cap q q' l :
  data q' = data q -> nelts q' = nelts q -> in_ q' = in_ q -> out q' = out q -> bounds q' = bounds q ->
  holds cap q l -> holds cap q' l.
Proof. intros E1 E2 E3 E4 E5 [? ? ? ? ? ? H]. split; rewrite ?E1, ?E2, ?E3, ?E4, ?E5; auto. Qed.

Lemma holds_create cap q : 0 <= cap < 2 ^ 30 -> switch_queue_create cap true = (APR_SUCCESS, Some q) -> holds cap q [].
Proof.
  intros Hc [= <-]. split; cbn; try done; try lia.
  rewrite length_replicate. rewrite size_t_small by lia. rewrite Z.div_mul by lia. lia.
Qed.

Lemma holds_full cap q l : holds cap q l -> apr_queue_full q = (zlen l =? cap).
Proof. intros H. unfold apr_queue_full. by rewrite (h_nelts _ _ _ H), (h_bounds _ _ _ H). Qed.
Lemma holds_empty cap q l : holds cap q l -> apr_queue_empty q = (zlen l =? 0).
Proof. intros H. unfold apr_queue_empty. by rewrite (h_nelts _ _ _ H). Qed.

(** Two places of the ring are different. *)
Lemma ring_apart cap o i j : 0 <= i < cap -> 0 <= j < cap -> i <> j -> (o + i) mod cap <> (o + j) mod cap.
Proof.
  intros Hi Hj N E. apply N.
  assert (((o + i) - (o + j)) mod cap = 0) as M by (rewrite Zminus_mod, E, Z.sub_diag; apply Zmod_0_l).
  apply Z.mod_divide in M as [k Hk]; [|lia].
  destruct (Z_lt_le_dec k 0); [nia|]. destruct (Z_lt_le_dec 0 k); nia.
Qed.

(** What an operation leaves as it is. *)
Definition same_waiters (q q' : apr_queue_t) : Prop :=
  full_waiters q' = full_waiters q /\ empty_waiters q' = empty_waiters q /\ terminated q' = terminated q.

Lemma enqueue_holds cap q l v : holds cap q l -> zlen l < cap ->
  exists q', enqueue q v = Ok (q', Ret APR_SUCCESS None, if empty_waiters q =? 0 then NoSignal else NotEmpty)
    /\ holds cap q' (l ++ [v]) /\ same_waiters q q'.
Proof.
  intros [HD HB HN HR HC HE HL] R. destruct (HE ltac:(lia)) as [Ho Hi].
  assert (B : 0 <= in_ q < cap) by (rewrite Hi; apply Z.mod_pos_bound; lia).
  unfold enqueue. rewrite HD, HB, (proj2 (Z.ltb_lt _ _)), (proj2 (Z.eqb_neq cap 0)) by lia. cbn [andb negb].
  eexists. split; [reflexivity|]. split; [|done]. split; rupd; rewrite ?HB, ?length_app; cbn [length].
  - by rewrite length_insert.
  - done.
  - rewrite HN, u32_small by lia. lia.
  - lia.
  - done.
  - intros _. split; [done|]. rewrite u32_small, Hi, Zplus_mod_idemp_l by lia. f_equal. lia.
  - intros i w [E|[? E]]%lookup_app_Some.
    + pose proof (lookup_lt_Some _ _ _ E). rewrite list_lookup_insert_ne; [by apply HL|].
      rewrite Hi. intros X%Z2Nat.inj; try (apply Z.mod_pos_bound; lia). revert X. apply ring_apart; lia.
    + apply list_lookup_singleton_Some in E as [E <-]. replace (Z.of_nat i) with (zlen l) by lia.
      rewrite <- Hi. apply list_lookup_insert_eq. lia.
Qed.

Lemma dequeue_holds cap q v l : holds cap q (v :: l) ->
  exists q', dequeue q = Ok (q', Ret APR_SUCCESS (Some v), if full_waiters q =? 0 then NoSignal else NotFull)
    /\ holds cap q' l /\ same_waiters q q'.
Proof.
  intros [HD HB HN HR HC HE HL]. cbn [length] in *. destruct (HE ltac:(lia)) as [Ho Hi].
  specialize (HL 0%nat v eq_refl) as H0. rewrite Z.add_0_r, Z.mod_small in H0 by lia.
  unfold dequeue. rewrite H0, HB, (proj2 (Z.eqb_neq cap 0)) by lia.
  eexists. split; [reflexivity|]. split; [|done]. split; rupd; rewrite ?HB.
  - done.
  - done.
  - rewrite HN, u32_small by lia. lia.
  - lia.
  - done.
  - intros _. split; [apply Z.mod_pos_bound; lia|]. rewrite u32_small, Zplus_mod_idemp_l, Hi by lia. f_equal. lia.
  - intros i w E. rewrite u32_small, Zplus_mod_idemp_l by lia. rewrite <- (HL (S i) w E). do 3 f_equal. lia.
Qed.

(** ** Refinement of the list *)

(** The points that the threads can be at. *)
Definition point_ok (term : bool) (o : operation) (p : point) : Prop :=
  match o, p with
  | _, Start => True
  | Term, Enter => term = true
  | _, Enter => True
  | (Push _ | Pop | PopTimeout), (Wait | Intr) => True
  | (Push _ | Pop), Wake rv => rv = APR_SUCCESS
  | PopTimeout, Wake rv => rv = APR_SUCCESS \/ rv = APR_TIMEUP
  | _, _ => False
  end.
Definition thread_ok (term : bool) (t : thread) : Prop :=
  match t with Out => True | In o p => point_ok term o p end.

(** What a step of a thread does. *)
Definition steps_to (cap : Z) (o : operation) (p : point) (q : apr_queue_t) (l : list Z) : Prop :=
  exists q' r w l', run o p q = Ok (q', r, w) /\ holds cap q' l'
    /\ thread_ok (terminated q') (after o r) /\ (terminated q = true -> terminated q' = true)
    /\ (forall es, specs cap es (l, terminated q) -> specs cap (seen o r ++ es) (l', terminated q')).

Ltac run_cases H :=
  cbv [run switch_queue_push switch_queue_pop switch_queue_pop_timeout switch_queue_trypush switch_queue_trypop
    switch_queue_term switch_queue_interrupt_all apr_queue_push apr_queue_pop apr_queue_trypush apr_queue_trypop
    apr_queue_term apr_queue_interrupt_all start interrupted again];
  rewrite ?(holds_full _ _ _ H), ?(holds_empty _ _ _ H).

(** A step that keeps the elements. *)
Lemma waits_keep cap o p q q' r w l :
  run o p q = Ok (q', r, w) -> holds cap q l -> data q' = data q -> nelts q' = nelts q -> in_ q' = in_ q ->
  out q' = out q -> bounds q' = bounds q -> thread_ok (terminated q') (after o r) ->
  (terminated q = true -> terminated q' = true) ->
  match seen o r with
  | [] => terminated q' = terminated q
  | [e] => spec cap (l, terminated q) e (l, terminated q')
  | _ => False
  end -> steps_to cap o p q l.
Proof.
  intros R H E1 E2 E3 E4 E5 T M S. exists q', r, w, l. split; [done|]. split; [by eapply holds_waiters|]. split; [done|].
  split; [done|]. intros es K. destruct (seen o r) as [|e [|]]; [by rewrite S|by eapply specs_cons|done].
Qed.

(** A step that adds or takes an element. *)
Lemma steps_enqueue cap o p q0 q v l : run o p q0 = again (enqueue q v) ->
  holds cap q l -> zlen l < cap -> o = Push v \/ o = TryPush v -> terminated q = terminated q0 -> steps_to cap o p q0 l.
Proof.
  intros R H L O T. destruct (enqueue_holds cap q l v H L) as (q' & E & H' & _ & _ & T').
  rewrite E in R. exists q', (Ret APR_SUCCESS None), (if empty_waiters q =? 0 then NoSignal else NotEmpty), (l ++ [v]).
  split; [exact R|]. split; [done|]. split; [done|]. rewrite T', T. split; [done|].
  intros es K. eapply specs_cons; [exact K|]. destruct O as [-> | ->]; by constructor.
Qed.
Lemma steps_dequeue cap o p q0 q l : run o p q0 = dequeue q ->
  holds cap q l -> zlen l <> 0 -> popper o = true \/ o = TryPop -> terminated q = terminated q0 -> steps_to cap o p q0 l.
Proof.
  intros R H L O T. destruct l as [|v l]; [done|]. destruct (dequeue_holds cap q v l H) as (q' & E & H' & _ & _ & T').
  rewrite E in R. eexists q', _, _, l. split; [exact R|]. split; [done|]. split; [done|]. rewrite T', T. split; [done|].
  intros es K. eapply specs_cons; [exact K|]. by constructor.
Qed.

(** Operations on an element start alike. *)
Lemma steps_start cap o q l : o <> InterruptAll -> o <> Term -> holds cap q l -> steps_to cap o Start q l.
Proof.
  intros N1 N2 H. destruct (terminated q) eqn:T.
  - eapply (waits_keep cap o Start q q (Ret APR_EOF None) NoSignal); try done.
    + destruct o; try done; run_cases H; by rewrite T.
    + destruct o; cbn; rewrite T; by apply spec_eof.
  - eapply (waits_keep cap o Start q q (At Enter) NoSignal); try done.
    + destruct o; try done; run_cases H; by rewrite T.
    + by destruct o; try done.
    + by destruct o.
Qed.

(** The end of a blocked operation that found nothing to do. *)
Lemma steps_intr cap o q l : popper o = true \/ pusher o = true -> holds cap q l -> steps_to cap o Intr q l.
Proof.
  intros O H. destruct (terminated q) eqn:T.
  - eapply (waits_keep cap o Intr q q (Ret APR_EOF None) NoSignal); try done.
    + destruct o; try naive_solver; run_cases H; by rewrite T.
    + destruct o; cbn; rewrite T; apply spec_eof; naive_solver.
  - destruct (pusher o) eqn:E.
    + eapply (waits_keep cap o Intr q q (At Start) NoSignal); try done; destruct o; try done. run_cases H. by rewrite T.
    + eapply (waits_keep cap o Intr q q (Ret APR_EINTR None) NoSignal); try done.
      * destruct o; try naive_solver; run_cases H; by rewrite T.
      * destruct o; cbn; rewrite T; apply spec_intr; naive_solver.
Qed.

(** Taking the mutex, at first or after the wait. *)
Lemma steps_pusher cap v p q l : 0 <= cap -> holds cap q l -> p = Enter \/ p = Wake APR_SUCCESS -> steps_to cap (Push v) p q l.
Proof.
  intros C H P. pose proof (h_room _ _ _ H) as HR. destruct (Z.eq_dec (zlen l) cap) as [F|F].
  - destruct P as [-> | ->]; [destruct (terminated q) eqn:T|].
    + eapply (waits_keep cap (Push v) Enter q q (At Intr) NoSignal); try done. run_cases H. by rewrite F, Z.eqb_refl, T.
    + eapply (waits_keep cap (Push v) Enter q (q <| full_waiters := u32 (full_waiters q + 1) |>) (At Wait) NoSignal); try done.
      run_cases H. rewrite F, Z.eqb_refl, T. reflexivity.
    + eapply (waits_keep cap (Push v) (Wake APR_SUCCESS) q (q <| full_waiters := u32 (full_waiters q - 1) |>) (At Intr) NoSignal);
        try done. run_cases H.
      rewrite decide_True by done. rewrite (holds_full cap _ l) by by eapply holds_waiters; [..|exact H]. 
      rewrite F, Z.eqb_refl. reflexivity.
  - destruct P as [-> | ->].
    + eapply (steps_enqueue cap (Push v) Enter q q v); try done; [|lia|by left].
      run_cases H. by rewrite (proj2 (Z.eqb_neq _ _) F).
    + eapply (steps_enqueue cap (Push v) _ q (q <| full_waiters := u32 (full_waiters q - 1) |>) v);
        [|by eapply holds_waiters; [..|exact H]|lia|by left|done].
      run_cases H. rewrite decide_True by done. rewrite (holds_full cap _ l) by by eapply holds_waiters; [..|exact H].
      by rewrite (proj2 (Z.eqb_neq _ _) F).
Qed.

Lemma steps_popper cap o p q l : popper o = true -> holds cap q l -> p = Enter \/ p = Wake APR_SUCCESS -> steps_to cap o p q l.
Proof.
  intros O H P. destruct (Z.eq_dec (zlen l) 0) as [F|F].
  - destruct P as [-> | ->]; [destruct (terminated q) eqn:T|].
    + eapply (waits_keep cap o Enter q q (At Intr) NoSignal); try done; destruct o; try done; run_cases H; by rewrite F, T.
    + eapply (waits_keep cap o Enter q (q <| empty_waiters := u32 (empty_waiters q + 1) |>) (At Wait) NoSignal);
        try done; destruct o; try done; run_cases H; by rewrite F, T.
    + eapply (waits_keep cap o (Wake APR_SUCCESS) q (q <| empty_waiters := u32 (empty_waiters q - 1) |>) (At Intr) NoSignal);
        try done; destruct o; try done; run_cases H; rewrite decide_True by done;
        rewrite (holds_empty cap _ l) by (by eapply holds_waiters; [..|exact H]); by rewrite F.
  - destruct P as [-> | ->].
    + eapply (steps_dequeue cap o Enter q q); try done; [|by left].
      destruct o; try done; run_cases H; by rewrite (proj2 (Z.eqb_neq _ _) F).
    + eapply (steps_dequeue cap o _ q (q <| empty_waiters := u32 (empty_waiters q - 1) |>));
        [|by eapply holds_waiters; [..|exact H]|done|by left|done].
      destruct o; try done; run_cases H; rewrite decide_True by done;
        rewrite (holds_empty cap _ l) by (by eapply holds_waiters; [..|exact H]); by rewrite (proj2 (Z.eqb_neq _ _) F).
Qed.

Lemma run_steps cap o p q l : 0 <= cap -> holds cap q l -> point_ok (terminated q) o p -> p <> Wait -> steps_to cap o p q l.
Proof.
  intros C H P W. pose proof (h_room _ _ _ H) as HR.
  destruct (decide (p = Start /\ o <> InterruptAll /\ o <> Term)) as [(-> & N1 & N2)|N]; [by apply steps_start|].
  destruct (decide (p = Intr)) as [->|NI]; [destruct o; try done; apply steps_intr; auto|].
  destruct o as [v| | |v| | |], p as [| | |rv|]; try done; try (exfalso; by apply N); cbn [point_ok] in P; try subst rv.
  1, 2: by apply steps_pusher; auto.
  1-3: by apply steps_popper; auto.
  - destruct P as [-> | ->]; [by apply steps_popper; auto|].
    eapply (waits_keep cap PopTimeout _ q (q <| empty_waiters := u32 (empty_waiters q - 1) |>) (Ret APR_TIMEUP None) NoSignal);
      try done. constructor.
  - destruct (Z.eq_dec (zlen l) cap) as [F|F].
    + eapply (waits_keep cap (TryPush v) Enter q q (Ret APR_EAGAIN None) NoSignal); try done; [|by constructor].
      run_cases H. by rewrite F, Z.eqb_refl.
    + eapply (steps_enqueue cap _ _ q q v); try done; [|lia|by right]. run_cases H. by rewrite (proj2 (Z.eqb_neq _ _) F).
  - destruct (Z.eq_dec (zlen l) 0) as [F|F].
    + eapply (waits_keep cap TryPop Enter q q (Ret APR_EAGAIN None) NoSignal); try done.
      * run_cases H. by rewrite F.
      * destruct l; [constructor|done].
    + eapply (steps_dequeue cap _ _ q q); try done; [|by right]. run_cases H. by rewrite (proj2 (Z.eqb_neq _ _) F).
  - eapply (waits_keep cap InterruptAll _ q q (Ret APR_SUCCESS None) Everybody); try done. constructor.
  - eapply (waits_keep cap InterruptAll _ q q (Ret APR_SUCCESS None) Everybody); try done. constructor.
  - exists (q <| terminated := true |>), (At Enter), NoSignal, l. split; [done|]. split; [by eapply holds_waiters; [..|exact H]|].
    split; [done|]. split; [done|]. intros es K. eapply specs_cons; [exact K|]. constructor.
  - eapply (waits_keep cap Term _ q q (Ret APR_SUCCESS None) Everybody); try done. cbn. rewrite P. constructor.
Qed.

(** ** Every interleaving *)

Definition in_order (cap : Z) (s : system) : Prop :=
  Forall (thread_ok (terminated (queue s))) (threads s)
  /\ exists l, holds cap (queue s) l /\ specs cap (log s) (l, terminated (queue s)).

Lemma thread_ok_mono b b' t : (b = true -> b' = true) -> thread_ok b t -> thread_ok b' t.
Proof. intros B. destruct t as [|[] []]; cbn; naive_solver. Qed.
Lemma awaken_ok b t : thread_ok b t -> thread_ok b (awaken APR_SUCCESS t).
Proof. destruct t as [|[] []]; cbn; naive_solver. Qed.
Lemma wakes_ok b w ts ts' : wakes w ts ts' -> Forall (thread_ok b) ts -> Forall (thread_ok b) ts'.
Proof.
  intros W F. destruct w; cbn in W; [by subst| | |].
  1, 2: destruct W as [j t E|]; [|done]; apply Forall_insert; [done|]; apply awaken_ok; by eapply Forall_lookup_1.
  subst. apply Forall_fmap. eapply Forall_impl; [exact F|]. apply awaken_ok.
Qed.

Lemma in_order_step cap s s' : 0 <= cap -> step s s' -> in_order cap s -> in_order cap s'.
Proof.
  intros C [[s0 i o p q r w ts E W R Wk]|[O|X]] (F & l & H & S).
  - pose proof (Forall_lookup_1 _ _ _ _ F E) as P.
    destruct (run_steps cap o p _ l C H P W) as (q' & r' & w' & l' & R' & H' & T & M & K).
    rewrite R in R'. injection R' as <- <- <-. split; cbn; [|eauto].
    eapply wakes_ok; [exact Wk|]. apply Forall_insert; [|done].
    eapply Forall_impl; [exact F|]. intros t. by apply thread_ok_mono.
  - revert F H S. destruct O as [s0 i o E|s0 i o E|s0 i E]; intros F H S; (split; cbn; [|eauto]); (apply Forall_insert; [done|]); cbn; auto;
      pose proof (Forall_lookup_1 _ _ _ _ F E) as P; destruct o; cbn in *; naive_solver.
  - revert F H S. destruct X as [s0 i E]. intros F H S. split; cbn; [|eauto]. apply Forall_insert; [done|]. by right.
Qed.
Lemma steady_step s s' : steady s s' -> step s s'.
Proof. intros [|]; [by left|by right; left]. Qed.

Lemma in_order_reachable cap n s : 0 <= cap < 2 ^ 30 -> reachable cap n s -> in_order cap s.
Proof.
  intros C (s0 & (q & Q & ->) & R).
  assert (in_order cap (mk_system q (replicate n Out) [])) as I.
  { split; cbn; [by apply Forall_replicate|]. exists []. split; [by apply holds_create|].
    injection Q as <-. constructor. }
  revert I. induction R as [|s s' s'' K R IH]; [done|]. intros I. apply IH. by eapply (in_order_step cap); [lia|..].
Qed.

(** Runs on concrete queues: thread [i] calls an operation; it goes on, without
    a signal. *)
Ltac calls i o := eapply rtc_l; [first [right; left; by apply (call _ i o)|right; by apply (call _ i o)]|]; cbn.
Ltac runs i := eapply rtc_l; [left; eapply (go_run _ i); [reflexivity|done|reflexivity|reflexivity]|]; cbn.

(** ** The theorem *)

(** C12. Whatever [n] threads do with a queue that was created for [cap] elements,
    and however their steps interleave: no step of theirs touches memory outside
    the ring, and the statuses and elements that the operations return, with the
    moment at which the queue is terminated, are those of one list of at most
    [cap] elements to which every operation applies at once.  The list is the
    content of the ring and [switch_queue_size] its length. *)
Theorem queue_refines (cap : Z) (n : nat) (s : system) :
  0 <= cap < 2 ^ 30 -> reachable cap n s ->
  exists l, specs cap (log s) (l, terminated (queue s)) /\ holds cap (queue s) l
    /\ switch_queue_size (queue s) = zlen l
    /\ forall i o p, threads s !! i = Some (In o p) -> exists r, run o p (queue s) = Ok r.
Proof.
  intros C R. destruct (in_order_reachable cap n s C R) as (F & l & H & S).
  exists l. split; [done|]. split; [done|]. split; [apply (h_nelts _ _ _ H)|].
  intros i o p E. destruct (decide (p = Wait)) as [->|W].
  - pose proof (Forall_lookup_1 _ _ _ _ F E) as P. destruct o; try done; by eexists.
  - destruct (run_steps cap o p _ l ltac:(lia) H (Forall_lookup_1 _ _ _ _ F E) W) as (q & r & w & l' & R' & _).
    by eexists.
Qed.

(** A queue for 2^30 elements gets no memory on the 32-bit target, since the size
    of its ring wraps around: the first element is written outside of it. *)
Lemma queue_capacity_wraps : exists q, switch_queue_create (2 ^ 30) true = (APR_SUCCESS, Some q)
  /\ data q = [] /\ run (Push 1) Enter q = UB.
Proof. eexists. by repeat split. Qed.

(** A thread that got past the test pushes into a terminated queue, with success. *)
Lemma push_after_term : exists s, reachable 1 2 s /\ holds 1 (queue s) [7]
  /\ log s = [Done (Push 7) APR_SUCCESS None; Done Term APR_SUCCESS None; Closed].
Proof.
  eexists. split; [eexists; split; [eexists; split; reflexivity|]|].
  - calls 0%nat (Push 7). calls 1%nat Term. runs 0%nat. runs 1%nat. runs 1%nat. runs 0%nat. apply rtc_refl.
  - split; [|reflexivity]. split; cbn; try done.
    intros [|[]] v E; cbn in E; try done.
Qed.

Lemma queue_refines_witness : exists s, (0 <= 1 < 2 ^ 30 /\ reachable 1 2 s) /\
  exists l, specs 1 (log s) (l, terminated (queue s)) /\ holds 1 (queue s) l /\ switch_queue_size (queue s) = zlen l
    /\ forall i o p, threads s !! i = Some (In o p) -> exists r, run o p (queue s) = Ok r.
Proof.
  assert (A : forall s, 0 <= 1 < 2 ^ 30 /\ reachable 1 2 s -> (0 <= 1 < 2 ^ 30 /\ reachable 1 2 s) /\
    exists l, specs 1 (log s) (l, terminated (queue s)) /\ holds 1 (queue s) l /\ switch_queue_size (queue s) = zlen l
      /\ forall i o p, threads s !! i = Some (In o p) -> exists r, run o p (queue s) = Ok r)
    by (intros s [C R]; split; [done|]; exact (queue_refines 1 2 s C R)).
  eexists. apply A. split; [lia|]. eexists; split; [eexists; split; reflexivity|].
  calls 0%nat Pop. runs 0%nat. runs 0%nat. calls 1%nat (Push 7). runs 1%nat.
  eapply rtc_l; [left; eapply (go_run _ 1); [reflexivity|done|reflexivity|by apply (signal_one popper _ 0 (In Pop Wait))]|]. cbn.
  runs 0%nat. apply rtc_refl.
Defined.

(** ** What one thread that never waits relies on

    [trypush] and [trypop] in one go, as those who hold a mutex of their own
    around a queue that nobody terminates use them. *)
Class Fifo (Q : Type) := {
  fifo_create : Z -> option Q;
  fifo_trypush : Q -> Z -> outcome (Q * bool);
  fifo_trypop : Q -> outcome (Q * option Z);
  fifo_size : Q -> Z
}.
Class FifoOk (Q : Type) `{Fifo Q} := {
  fifo : Z -> Q -> list Z -> Prop;
  fifo_room cap q l : fifo cap q l -> zlen l <= cap;
  fifo_created cap : 0 <= cap < 2 ^ 30 -> exists q, fifo_create cap = Some q /\ fifo cap q [];
  fifo_push cap q l v : fifo cap q l -> zlen l < cap -> exists q', fifo_trypush q v = Ok (q', true) /\ fifo cap q' (l ++ [v]);
  fifo_full cap q l v : fifo cap q l -> zlen l = cap -> fifo_trypush q v = Ok (q, false);
  fifo_pop cap q l v : fifo cap q (v :: l) -> exists q', fifo_trypop q = Ok (q', Some v) /\ fifo cap q' l;
  fifo_empty cap q : fifo cap q [] -> fifo_trypop q = Ok (q, None);
  fifo_length cap q l : fifo cap q l -> fifo_size q = zlen l
}.

(** An operation from its start to its return, in at most [n] steps. *)
Fixpoint alone (n : nat) (o : operation) (p : point) (q : apr_queue_t) : outcome (apr_queue_t * apr_status * option Z) :=
  match n with
  | O => UB
  | S n =>
    let* (q, r, _) := run o p q in
    match r with Ret rv val => Ok (q, rv, val) | At p => alone n o p q end
  end.

#[export] Instance queue_fifo : Fifo apr_queue_t := {
  fifo_create cap := snd (switch_queue_create cap true);
  fifo_trypush q v := let* (q, rv, _) := alone 2 (TryPush v) Start q in Ok (q, bool_decide (rv = APR_SUCCESS));
  fifo_trypop q := let* (q, rv, val) := alone 2 TryPop Start q in Ok (q, if decide (rv = APR_SUCCESS) then val else None);
  fifo_size q := switch_queue_size q
}.

Ltac try_cases T := cbv [fifo_trypush fifo_trypop queue_fifo alone run switch_queue_trypush switch_queue_trypop apr_queue_trypush
  apr_queue_trypop start again]; rewrite T; cbv beta iota.

#[export] Instance queue_fifo_ok : FifoOk apr_queue_t.
Proof.
  apply (Build_FifoOk _ _ (fun cap q l => holds cap q l /\ terminated q = false)).
  - intros cap q l [H _]. apply (h_room _ _ _ H).
  - intros cap C. eexists. split; [reflexivity|]. split; [by apply holds_create|done].
  - intros cap q l v [H T] R. destruct (enqueue_holds cap q l v H R) as (q' & E & H' & _ & _ & T').
    exists q'. split; [|by rewrite T']. try_cases T. rewrite (holds_full _ _ _ H), (proj2 (Z.eqb_neq _ _)) by lia.
    by rewrite E.
  - intros cap q l v [H T] R. try_cases T. by rewrite (holds_full _ _ _ H), (proj2 (Z.eqb_eq _ _)).
  - intros cap q l v [H T]. destruct (dequeue_holds cap q v l H) as (q' & E & H' & _ & _ & T').
    exists q'. split; [|by rewrite T']. try_cases T. by rewrite (holds_empty _ _ _ H), E.
  - intros cap q [H T]. try_cases T. by rewrite (holds_empty _ _ _ H).
  - intros cap q l [H _]. apply (h_nelts _ _ _ H).
Qed.
