(* ===== verification/QueueWake.v ===== *)
(** * No wake-up of the queue is lost (theorems on [Queue])

    The counters of waiting threads, the wake-ups that are on their way and the
    work that the threads have left are sums over the threads, so that the
    invariant and the measure are linear. *)
From stdpp Require Import relations.
From S2P Require Import Prelude Queue.
Open Scope Z_scope.
#[local] Notation length := List.length (only parsing).

(** ** Sums over the threads *)

Fixpoint total (f : thread -> Z) (ts : list thread) : Z :=
  match ts with [] => 0 | t :: ts => f t + total f ts end.

Lemma total_app f l k : total f (l ++ k) = total f l + total f k.
Proof. induction l as [|t l IH]; cbn; [done|]. rewrite IH. lia. Qed.
Lemma total_insert f i t t' ts : ts !! i = Some t -> total f (<[i := t']> ts) = total f ts - f t + f t'.
Proof.
  revert i. induction ts as [|u ts IH]; intros [|i] E; cbn in *; try done.
  - injection E as ->. lia.
  - rewrite IH by done. lia.
Qed.
Lemma total_le f g ts : (forall t, f t <= g t) -> total f ts <= total g ts.
Proof. intros H. induction ts as [|t ts IH]; cbn; [lia|]. specialize (H t). lia. Qed.
Lemma total_fmap f g ts : total f (g <$> ts) = total (fun t => f (g t)) ts.
Proof. induction ts as [|t ts IH]; cbn; [done|]. by rewrite IH. Qed.
Lemma total_plus f g ts : total (fun t => f t + g t) ts = total f ts + total g ts.
Proof. induction ts as [|t ts IH]; cbn; [done|]. rewrite IH. lia. Qed.
Lemma total_const c ts : total (fun _ => c) ts = c * zlen ts.
Proof. induction ts as [|t ts IH]; cbn; [lia|]. rewrite IH. lia. Qed.
Lemma total_ext f g ts : (forall t, f t = g t) -> total f ts = total g ts.
Proof. intros H. induction ts as [|t ts IH]; cbn; [done|]. by rewrite H, IH. Qed.
Lemma total_in f i t ts : (forall t, 0 <= f t) -> ts !! i = Some t -> f t <= total f ts.
Proof.
  intros H. revert i. induction ts as [|u ts IH]; intros [|i] E; cbn in *; try done.
  - injection E as ->. pose proof (total_le (fun _ => 0) f ts H). rewrite total_const in *. lia.
  - specialize (IH i E). specialize (H u). lia.
Qed.

(** Threads of a kind that wait, that were woken, and both or timed out; threads
    about to wake all. *)
Definition waiting (kind : operation -> bool) (t : thread) : Z :=
  match t with In o Wait => Z.b2z (kind o) | _ => 0 end.
Definition woken (kind : operation -> bool) (t : thread) : Z :=
  match t with In o (Wake APR_SUCCESS) => Z.b2z (kind o) | _ => 0 end.
Definition sleeping (kind : operation -> bool) (t : thread) : Z :=
  match t with In o (Wait | Wake _) => Z.b2z (kind o) | _ => 0 end.
Definition closing (t : thread) : Z := match t with In Term Enter => 1 | _ => 0 end.

Lemma b2z_range b : 0 <= Z.b2z b <= 1.
Proof. destruct b; cbn; lia. Qed.
Lemma sums_range kind ts :
  0 <= total (waiting kind) ts /\ 0 <= total (woken kind) ts
  /\ total (waiting kind) ts + total (woken kind) ts <= total (sleeping kind) ts <= zlen ts /\ 0 <= total closing ts.
Proof.
  induction ts as [|t ts IH]; cbn; [lia|].
  assert (0 <= waiting kind t /\ 0 <= woken kind t /\ waiting kind t + woken kind t <= sleeping kind t <= 1 /\ 0 <= closing t);
    [|lia].
  destruct t as [|o [| | |[]|]]; cbn; try lia; try pose proof (b2z_range (kind o)); destruct o; lia.
Qed.

(** ** Signals *)

Lemma waits_for_waiting kind t : waits_for kind t <-> waiting kind t = 1.
Proof. destruct t as [|o []]; cbn; try done. destruct (kind o); cbn; naive_solver lia. Qed.
Lemma waiting_none kind ts : Forall (fun t => ~ waits_for kind t) ts -> total (waiting kind) ts = 0.
Proof.
  induction 1 as [|t ts N _ IH]; cbn; [done|]. rewrite IH. rewrite waits_for_waiting in N.
  destruct t as [|o []]; cbn in *; try lia. destruct (kind o); cbn in *; lia.
Qed.

(** A signal wakes one of the threads of its kind, or there is none. *)
Lemma signals_effect kind ts ts' : signals kind ts ts' ->
  ts' = ts /\ total (waiting kind) ts = 0 \/
  exists o, kind o = true /\ forall f, total f ts' = total f ts - f (In o Wait) + f (In o (Wake APR_SUCCESS)).
Proof.
  intros [j t E W|N]; [right|left; split; [done|by apply waiting_none]].
  destruct t as [|o []]; cbn in W; try done. exists o. split; [done|]. intros f. by rewrite (total_insert _ _ _ _ _ E).
Qed.
Lemma signals_exist kind ts : exists ts', signals kind ts ts'.
Proof.
  destruct (decide (Exists (waits_for kind) ts)) as [E|N].
  - apply Exists_exists in E as (t & [i Hi]%list_elem_of_lookup & W). eexists. by eapply signal_one.
  - eexists. apply signal_none. by apply not_Exists_Forall in N; [|apply _].
Qed.
Lemma wakes_exist w ts : exists ts', wakes w ts ts'.
Proof. destruct w; cbn; eauto using signals_exist. Qed.
Lemma wakes_length w ts ts' : wakes w ts ts' -> length ts' = length ts.
Proof.
  destruct w; cbn; [by intros -> | | |intros ->; by rewrite length_fmap]; intros [j t _ _|_]; by rewrite ?length_insert.
Qed.

(** ** The invariant and the measure *)

Record wakeful (q : apr_queue_t) (ts : list thread) : Prop := mk_wakeful {
  k_full : full_waiters q = total (sleeping pusher) ts;
  k_empty : empty_waiters q = total (sleeping popper) ts;
  k_pop : 0 < total (waiting popper) ts -> nelts q <= total (woken popper) ts;
  k_push : 0 < total (waiting pusher) ts -> bounds q - nelts q <= total (woken pusher) ts;
  k_term : Z.b2z (terminated q) = 1 -> 0 < total (waiting popper) ts + total (waiting pusher) ts -> 0 < total closing ts
}.

(** What a thread may still do, among [n], before it waits or is out; [b] is
    [terminated]. *)
Definition cost (n : Z) (b : bool) (t : thread) : Z :=
  match t with
  | Out => 0
  | In InterruptAll _ => 4 * n + 1
  | In Term Start => 4 * n + 2
  | In Term _ => 4 * n + 1
  | In _ Wait => 10
  | In _ Enter => 11
  | In _ Start => 12
  | In (Push _) Intr => if b then 1 else 13
  | In _ Intr => 1
  | In _ (Wake _) => 14
  end.
Definition work (s : system) : Z := total (cost (zlen (threads s)) (terminated (queue s))) (threads s).

Lemma enqueue_inv cap q l v q' r w : holds cap q l -> nelts q <> bounds q -> enqueue q v = Ok (q', r, w) ->
  r = Ret APR_SUCCESS None /\ w = (if empty_waiters q =? 0 then NoSignal else NotEmpty)
  /\ nelts q' = nelts q + 1 /\ same_waiters q q' /\ bounds q' = bounds q.
Proof.
  intros H N E. pose proof (h_room _ _ _ H). pose proof (h_nelts _ _ _ H). pose proof (h_bounds _ _ _ H).
  destruct (enqueue_holds cap q l v H ltac:(lia)) as (q1 & E1 & K1 & S). rewrite E in E1. injection E1 as -> -> ->.
  rewrite (h_nelts _ _ _ K1), (h_bounds _ _ _ K1), length_app. cbn [length]. split_and!; try done; lia.
Qed.
Lemma dequeue_inv cap q l q' r w : holds cap q l -> nelts q <> 0 -> dequeue q = Ok (q', r, w) ->
  (exists v, r = Ret APR_SUCCESS (Some v)) /\ w = (if full_waiters q =? 0 then NoSignal else NotFull)
  /\ nelts q' = nelts q - 1 /\ same_waiters q q' /\ bounds q' = bounds q.
Proof.
  intros H N E. pose proof (h_nelts _ _ _ H). pose proof (h_bounds _ _ _ H). destruct l as [|v l]; cbn [length] in *; [lia|].
  destruct (dequeue_holds cap q v l H) as (q1 & E1 & K1 & S). rewrite E in E1. injection E1 as -> -> ->.
  rewrite (h_nelts _ _ _ K1), (h_bounds _ _ _ K1). split_and!; try done; try lia. by eexists.
Qed.

Lemma cost_closed n ts : total (cost n true) ts <= total (cost n false) ts.
Proof. apply total_le. intros [|[] []]; cbn; lia. Qed.

Lemma broadcast_sums n b ts : 0 <= n ->
  let a := awaken APR_SUCCESS in
  total (fun t => waiting pusher (a t)) ts = 0 /\ total (fun t => waiting popper (a t)) ts = 0
  /\ total (fun t => sleeping pusher (a t)) ts = total (sleeping pusher) ts
  /\ total (fun t => sleeping popper (a t)) ts = total (sleeping popper) ts
  /\ total (fun t => cost n b (a t)) ts <= total (cost n b) ts + 4 * zlen ts.
Proof.
  intros N a. split_and!.
  - transitivity (total (fun _ => 0) ts); [apply total_ext; by intros [|[] []]|by rewrite total_const].
  - transitivity (total (fun _ => 0) ts); [apply total_ext; by intros [|[] []]|by rewrite total_const].
  - apply total_ext. by intros [|[] []].
  - apply total_ext. by intros [|[] []].
  - rewrite <- total_const, <- total_plus. apply total_le. intros [|[] []]; cbn; try destruct b; lia.
Qed.

(** The sums behind a step of thread [i] from [t] to [t'] with the signal [w]:
    all of them change in the same way. *)
Lemma sums_step w i t t' ts ts' : ts !! i = Some t -> wakes w (<[i := t']> ts) ts' ->
  match w with
  | NoSignal => forall f, total f ts' = total f ts - f t + f t'
  | NotEmpty => total (waiting popper) ts - waiting popper t + waiting popper t' = 0
      /\ (forall f, total f ts' = total f ts - f t + f t')
      \/ exists o, popper o = true
      /\ forall f, total f ts' = total f ts - f t + f t' - f (In o Wait) + f (In o (Wake APR_SUCCESS))
  | NotFull => total (waiting pusher) ts - waiting pusher t + waiting pusher t' = 0
      /\ (forall f, total f ts' = total f ts - f t + f t')
      \/ exists o, pusher o = true
      /\ forall f, total f ts' = total f ts - f t + f t' - f (In o Wait) + f (In o (Wake APR_SUCCESS))
  | Everybody => total (waiting pusher) ts' = 0 /\ total (waiting popper) ts' = 0
      /\ total (sleeping pusher) ts' = total (sleeping pusher) ts - sleeping pusher t + sleeping pusher t'
      /\ total (sleeping popper) ts' = total (sleeping popper) ts - sleeping popper t + sleeping popper t'
      /\ forall n b, 0 <= n -> total (cost n b) ts' <= total (cost n b) ts - cost n b t + cost n b t' + 4 * zlen ts
  end.
Proof.
  intros E W. destruct w; cbn in W.
  - subst. intros f. by apply total_insert.
  - destruct (signals_effect _ _ _ W) as [[-> Z]|(o & O & F)].
    + left. rewrite (total_insert _ _ _ _ _ E) in Z. split; [done|]. intros f. by apply total_insert.
    + right. exists o. split; [done|]. intros f. by rewrite F, (total_insert _ _ _ _ _ E).
  - destruct (signals_effect _ _ _ W) as [[-> Z]|(o & O & F)].
    + left. rewrite (total_insert _ _ _ _ _ E) in Z. split; [done|]. intros f. by apply total_insert.
    + right. exists o. split; [done|]. intros f. by rewrite F, (total_insert _ _ _ _ _ E).
  - pose proof (fun f => total_insert f i t t' ts E) as I. subst ts'. rewrite !total_fmap.
    destruct (broadcast_sums 0 true (<[i := t']> ts) ltac:(lia)) as (B1 & B2 & B3 & B4 & _).
    rewrite B1, B2, B3, B4, !I. split_and!; try done. intros n b N. rewrite total_fmap.
    destruct (broadcast_sums n b (<[i := t']> ts) N) as (_ & _ & _ & _ & B). rewrite (I (cost n b)), length_insert in B. exact B.
Qed.

(** All sums of the invariant from an equation for any of them. *)
Ltac tally F n :=
  pose proof (F (sleeping pusher)); pose proof (F (sleeping popper)); pose proof (F (waiting pusher));
  pose proof (F (waiting popper)); pose proof (F (woken pusher)); pose proof (F (woken popper));
  pose proof (F closing); pose proof (F (cost n true)); pose proof (F (cost n false)); clear F.

(** The cases of a step. *)
Ltac step_cases R H :=
  repeat match type of R with
  | context [if ?b then _ else _] => destruct b eqn:?; btests
  | context [enqueue ?q ?v] =>
      destruct (enqueue q v) as [[[? ?] ?]| |] eqn:Put; [|done..];
      eapply enqueue_inv in Put as (-> & -> & ? & (? & ? & ?) & ?); [|by eapply holds_waiters; [..|exact H]|done]
  | dequeue ?q = _ =>
      eapply dequeue_inv in R as ([? ->] & -> & ? & (? & ? & ?) & ?); [|by eapply holds_waiters; [..|exact H]|done]
  | Ok _ = _ => injection R as <- <- <-
  end; rupd.
(** The sums behind the step. *)
Ltac sums S n :=
  match type of S with
  | context [if ?b then _ else _] => destruct b eqn:?; btests; sums S n
  | _ \/ _ => destruct S as [[? S]|(o' & ? & S)]; [|destruct o'; try done]; sums S n
  | _ /\ _ => destruct S as (? & ? & ? & ? & S); pose proof (S n true ltac:(lia)); pose proof (S n false ltac:(lia)); clear S
  | _ => tally S n
  end.

Ltac rewrite_terminated :=
  repeat match goal with
  | E : terminated ?q = _ |- context [terminated ?q] => rewrite E
  end; cbn [Z.b2z] in *.

Lemma go_wakeful cap s s' : go s s' -> 0 <= cap -> in_order cap s -> zlen (threads s) < 2 ^ 32 ->
  wakeful (queue s) (threads s) -> wakeful (queue s') (threads s') /\ work s' < work s.
Proof.
  intros [s0 i o p q r w ts E W R Wk] C (F & l & H & _) N [K1 K2 K3 K4 K5]. cbn [queue threads].
  pose proof (Forall_lookup_1 _ _ _ _ F E) as P. cbn [thread_ok] in P. unfold work. cbn [queue threads].
  assert (zlen ts = zlen (threads s0)) as L by by rewrite (wakes_length _ _ _ Wk), length_insert.
  pose proof (sums_range pusher ts) as SR3. pose proof (sums_range popper ts) as SR4. rewrite L in SR3, SR4.
  pose proof (cost_closed (zlen (threads s0)) ts) as CC. remember (zlen (threads s0)) as n eqn:En. pose proof (sums_step _ _ _ _ _ _ E Wk) as S.
  pose proof (sums_range pusher (threads s0)) as SR1. pose proof (sums_range popper (threads s0)) as SR2.
  pose proof (h_nelts _ _ _ H) as HN. pose proof (h_room _ _ _ H) as HR. pose proof (h_bounds _ _ _ H) as HB.
  destruct o as [v| | |v| | |], p as [| | |[]|]; try done; cbn [point_ok] in P; try done;
    try (by destruct P).
  all: cbv [run switch_queue_push switch_queue_pop switch_queue_pop_timeout switch_queue_trypush switch_queue_trypop
    switch_queue_term switch_queue_interrupt_all apr_queue_push apr_queue_pop apr_queue_trypush apr_queue_trypop
    apr_queue_term apr_queue_interrupt_all start interrupted again apr_queue_full apr_queue_empty] in R.
  all: step_cases R H; try done; cbn [after] in S; sums S n.
  all: cbn [waiting woken sleeping closing cost popper pusher Z.b2z] in *.
  all: repeat match goal with K : context [u32 ?x] |- _ => rewrite (u32_small x) in K by lia end.
  all: split; [split|]; rupd; rewrite_terminated; rewrite ?L, ?u32_small by lia; try lia.
  all: try (destruct (terminated (queue s0)); lia).
Qed.

Lemma outside_wakeful cap s s' : outside s s' -> in_order cap s -> zlen (threads s) < 2 ^ 32 ->
  wakeful (queue s) (threads s) -> wakeful (queue s') (threads s').
Proof.
  intros [s0 i o E|s0 i o E|s0 i E] (F & _) N [K1 K2 K3 K4 K5]; cbn [queue threads];
    pose proof (Forall_lookup_1 _ _ _ _ F E) as P;
    pose proof (fun f t' => total_insert f i _ t' _ E) as I.
  all: pose proof (sums_range pusher (threads s0)); pose proof (sums_range popper (threads s0)).
  all: try (destruct o; try done).
  all: split; rewrite !I; cbn [waiting woken sleeping closing popper pusher Z.b2z]; lia.
Qed.

Lemma step_threads s s' : steady s s' -> length (threads s') = length (threads s).
Proof.
  intros [[s0 i o p q r w ts _ _ _ W]|[]]; cbn; rewrite ?length_insert; try done.
  by rewrite (wakes_length _ _ _ W), length_insert.
Qed.

Definition sound (cap : Z) (n : nat) (s : system) : Prop :=
  in_order cap s /\ length (threads s) = n /\ wakeful (queue s) (threads s).

Lemma sound_step cap n s s' : 0 <= cap -> Z.of_nat n < 2 ^ 32 -> steady s s' -> sound cap n s -> sound cap n s'.
Proof.
  intros C N K (F & L & W). split; [by eapply in_order_step; [|by apply steady_step|]|]. split; [by rewrite (step_threads _ _ K)|]. rewrite <- L in N.
  destruct K as [K|K]; [by eapply go_wakeful|by eapply outside_wakeful].
Qed.

Lemma sound_reachable cap n s : 0 <= cap < 2 ^ 30 -> Z.of_nat n < 2 ^ 32 -> reachable_steadily cap n s -> sound cap n s.
Proof.
  intros C N (s0 & K & R). assert (I : sound cap n s0).
  { split; [apply (in_order_reachable cap n); [done|]; exists s0; split; [done|apply rtc_refl]|].
    destruct K as (q & Q & ->). injection Q as <-. cbn [threads queue]. rewrite length_replicate. split; [done|].
    assert (Z : forall f, f Out = 0 -> total f (replicate n Out) = 0)
      by (intros f O; clear -O; induction n as [|n IH]; cbn; [done|by rewrite O, IH]).
    split; cbn [full_waiters empty_waiters terminated]; rewrite ?Z by done; cbn; lia. }
  clear K. induction R as [|s s' s'' K R IH]; [done|]. apply IH. by eapply sound_step; [lia|..].
Qed.

Lemma sound_go cap n s s' : 0 <= cap -> Z.of_nat n < 2 ^ 32 -> rtc go s s' -> sound cap n s -> sound cap n s'.
Proof. intros C N R. induction R as [|s s' s'' K R IH]; [done|]. intros S. apply IH. eapply sound_step; [..|exact S]; try done. by left. Qed.

(** ** The theorem *)

(** Every thread is out of the queue or waits for what is not there. *)
Definition settled (cap : Z) (s : system) : Prop :=
  forall i o p, threads s !! i = Some (In o p) -> p = Wait /\ terminated (queue s) = false
    /\ (popper o = true /\ switch_queue_size (queue s) = 0 \/ pusher o = true /\ switch_queue_size (queue s) = cap).

Lemma work_nonneg s : 0 <= work s.
Proof.
  unfold work. rewrite <- (Z.mul_0_l (zlen (threads s))), <- total_const. apply total_le.
  intros [|[] []]; cbn; try destruct (terminated _); lia.
Qed.

Lemma work_bounds cap n k s s' : 0 <= cap -> Z.of_nat n < 2 ^ 32 -> sound cap n s -> nsteps go k s s' -> Z.of_nat k <= work s.
Proof.
  intros C N S R. revert S. induction R as [s|k s s' s'' K R IH]; intros S; [pose proof (work_nonneg s); lia|].
  pose proof (sound_step cap n s s' C N (or_introl K) S) as S'. specialize (IH S').
  destruct S as (F & L & W). rewrite <- L in N. destruct (go_wakeful cap s s' K C F N W) as [_ D]. lia.
Qed.

Lemma stuck_settled cap n s : 0 <= cap -> sound cap n s -> nf go s -> settled cap s.
Proof.
  intros C ((F & l & H & _) & L & [K1 K2 K3 K4 K5]) X.
  assert (Q : forall i o p, threads s !! i = Some (In o p) -> p = Wait).
  { intros i o p E. destruct (decide (p = Wait)) as [|W]; [done|]. exfalso. apply X.
    destruct (run_steps cap o p _ l C H (Forall_lookup_1 _ _ _ _ F E) W) as (q & r & w & _ & R & _).
    destruct (wakes_exist w (<[i := after o r]> (threads s))) as [ts Wk]. eexists. by eapply go_run. }
  assert (Z : forall f, (forall o, f (In o Wait) = 0) -> f Out = 0 -> total f (threads s) = 0).
  { intros f Hf Ho. assert (A : Forall (fun t => f t = 0) (threads s)).
    { apply Forall_lookup_2. intros i [|o p] E; [done|]. by rewrite (Q _ _ _ E), Hf. }
    clear -A. induction A as [|t ts E _ IH]; cbn; [done|]. by rewrite E, IH. }
  rewrite (Z (woken popper)) in K3 by done. rewrite (Z (woken pusher)) in K4 by done. rewrite (Z closing) in K5; [|by intros []|done].
  intros i o p E. pose proof (Q _ _ _ E) as ->. split; [done|].
  pose proof (Forall_lookup_1 _ _ _ _ F E) as P. pose proof (h_room _ _ _ H). pose proof (h_nelts _ _ _ H).
  pose proof (h_bounds _ _ _ H). unfold switch_queue_size, apr_queue_size.
  pose proof (sums_range popper (threads s)). pose proof (sums_range pusher (threads s)).
  assert (1 <= total (waiting popper) (threads s) /\ popper o = true \/ 1 <= total (waiting pusher) (threads s) /\ pusher o = true) as D.
  { assert (T : forall kind, waiting kind (In o Wait) <= total (waiting kind) (threads s)).
    { intros kind. eapply total_in; [|exact E]. intros [|? []]; cbn; try lia. apply b2z_range. }
    specialize (T popper) as T1. specialize (T pusher) as T2. clear T. destruct o; try done; cbn in T1, T2; naive_solver lia. }
  split; [destruct (terminated (queue s)); [cbn in K5; lia|done]|]. destruct D as [[D O]|[D O]]; [left|right]; split; try done; lia.
Qed.

(** C11. Left alone, the threads of a queue settle within a number of steps that is
    known beforehand, and then no thread waits in vain: each is out of the queue,
    or waits for an element while the queue is empty or for room while it is
    full, and none waits in a queue that was terminated.  This is so from any
    state that calls, wake-ups without a cause and time limits can lead to, as
    long as no timed wait that was signalled ends by its time (which POSIX
    allows, and which [signal_lost_to_timeout] shows to lose the wake-up); in
    particular without [apr_queue_pop_timeout]. *)
Theorem queue_no_lost_wakeup (cap : Z) (n : nat) (s : system) :
  0 <= cap < 2 ^ 30 -> Z.of_nat n < 2 ^ 32 -> reachable_steadily cap n s ->
  (forall k s', nsteps go k s s' -> Z.of_nat k <= work s) /\ (forall s', rtc go s s' -> nf go s' -> settled cap s').
Proof.
  intros C N R. pose proof (sound_reachable cap n s C N R) as S. split.
  - intros k s'. apply (work_bounds cap n); [lia|done|done].
  - intros s' G X. apply (stuck_settled cap n); [lia| |done]. apply (sound_go cap n s); [lia|done|done|done].
Qed.

Lemma queue_no_lost_wakeup_witness : exists s, (0 <= 1 < 2 ^ 30 /\ Z.of_nat 2 < 2 ^ 32 /\ reachable_steadily 1 2 s) /\
  (forall k s', nsteps go k s s' -> Z.of_nat k <= work s) /\ (forall s', rtc go s s' -> nf go s' -> settled 1 s').
Proof.
  assert (A : forall s, 0 <= 1 < 2 ^ 30 /\ Z.of_nat 2 < 2 ^ 32 /\ reachable_steadily 1 2 s ->
    (0 <= 1 < 2 ^ 30 /\ Z.of_nat 2 < 2 ^ 32 /\ reachable_steadily 1 2 s) /\
    (forall k s', nsteps go k s s' -> Z.of_nat k <= work s) /\ (forall s', rtc go s s' -> nf go s' -> settled 1 s'))
    by (intros s (C & N & R); split; [done|]; exact (queue_no_lost_wakeup 1 2 s C N R)).
  eexists. apply A. split; [lia|]. split; [lia|]. eexists; split; [eexists; split; reflexivity|].
  calls 0%nat Pop. runs 0%nat. runs 0%nat. calls 1%nat (Push 7). runs 1%nat. apply rtc_refl.
Defined.

(** A wake-up that is lost to a time limit: a push signals the timed pop, which
    ends by its time all the same, and the other pop waits on although the
    element is there and nobody has anything left to do. *)
Lemma signal_lost_to_timeout : exists s, reachable 1 3 s /\ nf go s /\
  threads s = [In Pop Wait; Out; Out] /\ holds 1 (queue s) [7] /\ ~ settled 1 s.
Proof.
  eexists. split.
  { eexists; split; [eexists; split; reflexivity|].
    calls 0%nat Pop. runs 0%nat. runs 0%nat. calls 1%nat PopTimeout. runs 1%nat. runs 1%nat. calls 2%nat (Push 7). runs 2%nat.
    eapply rtc_l; [left; eapply (go_run _ 2); [reflexivity|done|reflexivity|by apply (signal_one popper _ 1 (In PopTimeout Wait))]|]. cbn.
    eapply rtc_l; [right; right; by apply (expired _ 1)|]. cbn. runs 1%nat. apply rtc_refl. }
  split; [|split; [reflexivity|split]].
  - intros [s' G]. remember (mk_system _ _ _) as s eqn:Es. destruct G as [s i o p q r w ts E W _ _]. subst s. cbn [threads] in E.
    destruct i as [|[|[|i]]]; cbn in E; try done. by injection E as <- <-.
  - split; cbn; try done. intros [|[]] v E; cbn in E; try done.
  - intros S. by destruct (S 0%nat Pop Wait eq_refl) as (_ & _ & [[_ X]|[X _]]).
Qed.
