(* ===== verification/Dtmf.v ===== *)
(** * Digits of a channel (src/switch_channel.c, src/switch_core.c, src/switch_core_io.c)

    Digits that arrive wait in [dtmf_queue] until an application takes them, and
    then in [dtmf_log_queue] for the records of the call.  The queues hold
    pointers to allocated digits, kept here in [heap] under the numbers of their
    allocation; every access to a digit that was freed is [UB].  The operations
    take the channel's [dtmf_mutex] and are one step each; what they call outside
    is collected in [out], newest first. *)
From stdpp Require Import strings.
From Stdlib Require Import String Ascii.
From S2P Require Import Prelude CStrings StringUtils Separator Queue.
Open Scope Z_scope.
#[local] Notation length := List.length (only parsing).

(** ** Lengths of digits *)

Definition SWITCH_DEFAULT_DTMF_DURATION : Z := 2000.
Definition SWITCH_MIN_DTMF_DURATION : Z := 400.
Definition SWITCH_MAX_DTMF_DURATION : Z := 192000.
Definition SWITCH_DTMF_LOG_LEN : Z := 1000.

(** The fields of [runtime] that bound the lengths, in samples. *)
Record durations := mk_durations { max_dtmf_duration : Z; default_dtmf_duration : Z; min_dtmf_duration : Z }.
#[export] Instance eta_durations : Eta durations := fun r =>
  mk_durations (max_dtmf_duration r) (default_dtmf_duration r) (min_dtmf_duration r).
Definition durations0 : durations :=
  mk_durations SWITCH_MAX_DTMF_DURATION SWITCH_DEFAULT_DTMF_DURATION SWITCH_MIN_DTMF_DURATION.

(** The bounds that all three setters put on their argument. *)
Definition within (duration : Z) : Z :=
  Z.max SWITCH_MIN_DTMF_DURATION (Z.min duration SWITCH_MAX_DTMF_DURATION).

Definition switch_core_max_dtmf_duration (r : durations) (duration : Z) : durations :=
  if duration =? 0 then r
  else
    let duration := if duration >? SWITCH_MAX_DTMF_DURATION then SWITCH_MAX_DTMF_DURATION else duration in
    let duration := if duration <? SWITCH_MIN_DTMF_DURATION then SWITCH_MIN_DTMF_DURATION else duration in
    let r := r <| max_dtmf_duration := duration |> in
    if duration <? min_dtmf_duration r then r <| min_dtmf_duration := duration |> else r.
Definition switch_core_default_dtmf_duration (r : durations) (duration : Z) : durations :=
  if duration =? 0 then r
  else
    let duration := if duration <? SWITCH_MIN_DTMF_DURATION then SWITCH_MIN_DTMF_DURATION else duration in
    let duration := if duration >? SWITCH_MAX_DTMF_DURATION then SWITCH_MAX_DTMF_DURATION else duration in
    let r := r <| default_dtmf_duration := duration |> in
    let r := if duration <? min_dtmf_duration r then r <| min_dtmf_duration := duration |> else r in
    if duration >? max_dtmf_duration r then r <| max_dtmf_duration := duration |> else r.
Definition switch_core_min_dtmf_duration (r : durations) (duration : Z) : durations :=
  if duration =? 0 then r
  else
    let duration := if duration <? SWITCH_MIN_DTMF_DURATION then SWITCH_MIN_DTMF_DURATION else duration in
    let duration := if duration >? SWITCH_MAX_DTMF_DURATION then SWITCH_MAX_DTMF_DURATION else duration in
    let r := r <| min_dtmf_duration := duration |> in
    if duration >? max_dtmf_duration r then r <| max_dtmf_duration := duration |> else r.

(** ** Digits *)

Inductive switch_dtmf_source :=
| SWITCH_DTMF_UNKNOWN | SWITCH_DTMF_INBAND_AUDIO | SWITCH_DTMF_RTP | SWITCH_DTMF_ENDPOINT | SWITCH_DTMF_APP.

(** [switch_dtmf_t]; the digit is the value of a [char]. *)
Record switch_dtmf := mk_dtmf { dtmf_digit : Z; duration : Z; flags : Z; source : switch_dtmf_source }.
#[export] Instance eta_dtmf : Eta switch_dtmf := fun d => mk_dtmf (dtmf_digit d) (duration d) (flags d) (source d).

Definition DTMF_FLAG_SKIP_PROCESS : Z := 1.
Definition DTMF_FLAG_SENSITIVE : Z := 2.

Definition is_dtmf (key : Z) : bool :=
  ((key >? 47) && (key <? 58)) || ((key >? 64) && (key <? 69)) || ((key >? 96) && (key <? 101))
  || (key =? 35) || (key =? 42) || (key =? 87) || (key =? 119) || (key =? 70) || (key =? 102).
(** [w] and [W], which are pauses. *)
Definition is_pause (key : Z) : bool := (key =? 119) || (key =? 87).

Definition dtmf_source_str (s : switch_dtmf_source) : string :=
  match s with
  | SWITCH_DTMF_INBAND_AUDIO => "INBAND_AUDIO"
  | SWITCH_DTMF_RTP => "RTP"
  | SWITCH_DTMF_ENDPOINT => "ENDPOINT"
  | SWITCH_DTMF_APP => "APP"
  | SWITCH_DTMF_UNKNOWN => "UNKNOWN"
  end.

(** Bringing a length into the bounds; the default is for a length of zero that
    is within them. *)
Definition fit_length (r : durations) (d : switch_dtmf) : switch_dtmf :=
  if duration d >? max_dtmf_duration r then d <| duration := max_dtmf_duration r |>
  else if duration d <? min_dtmf_duration r then d <| duration := min_dtmf_duration r |>
  else if duration d =? 0 then d <| duration := default_dtmf_duration r |> else d.
(** The same for a digit that arrives: pauses keep a length that is not zero. *)
Definition fit_queued (r : durations) (d : switch_dtmf) : switch_dtmf :=
  let d :=
    if is_pause (dtmf_digit d) then d
    else if duration d >? max_dtmf_duration r then d <| duration := max_dtmf_duration r |>
    else if duration d <? min_dtmf_duration r then d <| duration := min_dtmf_duration r |>
    else d in
  if duration d =? 0 then d <| duration := default_dtmf_duration r |> else d.

(** What is called outside: the digit machine, a hook, an event with the digit, its
    length and source that is queued with the session or fired. *)
Inductive call_out :=
| Feed (digit : Z)
| Hook (d : switch_dtmf)
| Event (digit : Z) (duration : Z) (source : string) (divert : bool).

(** What the operations read of other objects: the bounds, the channel variable
    [sensitive_dtmf], whether the channel is down, whether there is a digit
    machine, the verdicts of the hooks, CF_DIVERT_EVENTS, the channel's state. *)
Record env := mk_env {
  rt : durations;
  sensitive_dtmf : option string;
  down : bool;
  dmachine : bool;
  hooks : list (switch_dtmf -> switch_status);
  divert_events : bool;
  hungup : bool
}.

Fixpoint recv_hooks (hs : list (switch_dtmf -> switch_status)) (d : switch_dtmf) (o : list call_out)
  : switch_status * list call_out :=
  match hs with
  | [] => (SWITCH_STATUS_SUCCESS, o)
  | h :: hs =>
    match h d with
    | SWITCH_STATUS_SUCCESS => recv_hooks hs d (Hook d :: o)
    | status => (status, Hook d :: o)
    end
  end.

Definition switch_core_session_recv_dtmf (e : env) (d : switch_dtmf) (o : list call_out) : switch_status * list call_out :=
  if down e then (SWITCH_STATUS_FALSE, o)
  else if test_flag (flags d) DTMF_FLAG_SENSITIVE then (SWITCH_STATUS_SUCCESS, o)
  else if test_flag (flags d) DTMF_FLAG_SKIP_PROCESS then (SWITCH_STATUS_SUCCESS, o)
  else
    let o := if dmachine e then Feed (dtmf_digit d) :: o else o in
    match recv_hooks (hooks e) (fit_length (rt e) d) o with
    | (SWITCH_STATUS_SUCCESS, o) => (if dmachine e then SWITCH_STATUS_FALSE else SWITCH_STATUS_SUCCESS, o)
    | r => r
    end.

(** ** Digits of a string

    [1234@250+56] is the digits 1 to 4 of 250 milliseconds and 5 and 6 of the
    default length.  [send] queues one digit. *)

(** The length that an argument asks for; the product is one of [int]s. *)
Definition asked (r : durations) (text : option string) : outcome Z :=
  match text with
  | None => Ok (default_dtmf_duration r)
  | Some p =>
    let dur := atoi_spaces p in
    if dur >? min_dtmf_duration r / 8 then (if dur * 8 <? 2 ^ 31 then Ok (dur * 8) else UB)
    else Ok (default_dtmf_duration r)
  end.

Section Strings.
Context {St : Type} (send : St -> switch_dtmf -> outcome (St * switch_status)).

Fixpoint send_chars (r : durations) (s : string) (d : switch_dtmf) (sent : Z) (st : St) : outcome (St * Z) :=
  match s with
  | EmptyString => Ok (st, sent)
  | String c s =>
    if is_dtmf (ord c) then
      let d := fit_length r (d <| dtmf_digit := ord c |>) in
      let* (st, status) := send st d in
      send_chars r s d (if decide (status = SWITCH_STATUS_SUCCESS) then sent + 1 else sent) st
    else send_chars r s d sent st
  end.
Fixpoint send_args (r : durations) (args : list string) (d : switch_dtmf) (sent : Z) (st : St) : outcome (St * Z) :=
  match args with
  | [] => Ok (st, sent)
  | a :: args =>
    let '(digits, text) := split_at_char "@" a in
    let* len := asked r text in
    let* (st, sent) := send_chars r digits (d <| duration := len |>) sent st in
    send_args r args d sent st
  end.
Definition send_string (r : durations) (dtmf_string : option string) (st : St) : outcome (St * switch_status) :=
  match dtmf_string with
  | None | Some EmptyString => Ok (st, SWITCH_STATUS_FALSE)
  | Some (String c q as s) =>
    let '(s, fl) := if c =c "~" then (q, 0) else (s, DTMF_FLAG_SKIP_PROCESS) in
    let* args := switch_separate_string (Some s) "+" 256 in
    let* (st, sent) := send_args r args (mk_dtmf 0 (default_dtmf_duration r) fl SWITCH_DTMF_APP) 0 st in
    Ok (st, if sent =? 0 then SWITCH_STATUS_FALSE else SWITCH_STATUS_SUCCESS)
  end.
End Strings.

(** ** The operations *)

Section Channel.
Context {Q : Type} `{Fifo Q}.

(** [heap] has the digits that are allocated, [brk] is the next address. *)
Record dtmf_channel := mk_channel {
  dtmf_queue : Q;
  dtmf_log_queue : Q;
  heap : gmap Z switch_dtmf;
  brk : Z;
  calls_out : list call_out
}.
#[export] Instance eta_dtmf_channel : Eta dtmf_channel := fun ch =>
  mk_channel (dtmf_queue ch) (dtmf_log_queue ch) (heap ch) (brk ch) (calls_out ch).

(** The part of [switch_channel_alloc] that makes the queues. *)
Definition alloc_queues : option dtmf_channel :=
  q ← fifo_create SWITCH_DTMF_LOG_LEN; l ← fifo_create SWITCH_DTMF_LOG_LEN; Some (mk_channel q l ∅ 1 []).

Definition free (h : gmap Z switch_dtmf) (p : Z) : outcome (gmap Z switch_dtmf) :=
  match h !! p with Some _ => Ok (delete p h) | None => UB end.

Definition switch_channel_has_dtmf (ch : dtmf_channel) : Z := fifo_size (dtmf_queue ch).

(** The loop of [trypush] that drops the oldest digit when there is no room;
    [n] turns are left, and the result says whether it was pushed. *)
Fixpoint push_digit (n : nat) (dt : Z) (ch : dtmf_channel) : outcome (dtmf_channel * bool) :=
  let* (q, pushed) := fifo_trypush (dtmf_queue ch) dt in
  let ch := ch <| dtmf_queue := q |> in
  if pushed then Ok (ch, true)
  else
    let* (q, pop) := fifo_trypop (dtmf_queue ch) in
    let* h := match pop with Some p => free (heap ch) p | None => Ok (heap ch) end in
    let ch := ch <| dtmf_queue := q |> <| heap := h |> in
    match n with
    | O => let* h := free (heap ch) dt in Ok (ch <| heap := h |>, false)
    | S n => push_digit n dt ch
    end.

Definition switch_channel_queue_dtmf (e : env) (ch : dtmf_channel) (d : switch_dtmf) : outcome (dtmf_channel * switch_status) :=
  let sensitive := switch_true (sensitive_dtmf e) in
  let new_dtmf := if sensitive then d <| flags := set_flag (flags d) DTMF_FLAG_SENSITIVE |> else d in
  let '(status, o) := switch_core_session_recv_dtmf e d (calls_out ch) in
  let ch := ch <| calls_out := o |> in
  if negb (bool_decide (status = SWITCH_STATUS_SUCCESS)) then Ok (ch, SWITCH_STATUS_FALSE)
  else if is_dtmf (dtmf_digit new_dtmf) then
    let new_dtmf := fit_queued (rt e) new_dtmf in
    let dt := brk ch in
    let ch := ch <| heap := <[dt := new_dtmf]> (heap ch) |> <| brk := dt + 1 |> in
    let* (ch, pushed) := push_digit 100 dt ch in
    Ok (ch, if pushed then SWITCH_STATUS_SUCCESS else SWITCH_STATUS_FALSE)
  else Ok (ch, SWITCH_STATUS_SUCCESS).

Definition switch_channel_queue_dtmf_string (e : env) (ch : dtmf_channel) (s : option string)
  : outcome (dtmf_channel * switch_status) :=
  send_string (switch_channel_queue_dtmf e) (rt e) s ch.

Definition switch_channel_dequeue_dtmf (e : env) (ch : dtmf_channel) : outcome (dtmf_channel * option switch_dtmf) :=
  let* (q, pop) := fifo_trypop (dtmf_queue ch) in
  let ch := ch <| dtmf_queue := q |> in
  match pop with
  | None => Ok (ch, None)
  | Some dt =>
    match heap ch !! dt with
    | None => UB
    | Some d =>
      let sensitive := test_flag (flags d) DTMF_FLAG_SENSITIVE in
      let* ch :=
        if sensitive then Ok ch
        else
          let* (l, pushed) := fifo_trypush (dtmf_log_queue ch) dt in
          let ch := ch <| dtmf_log_queue := l |> in
          if pushed then Ok ch else let* h := free (heap ch) dt in Ok (ch <| heap := h |>) in
      let d := fit_length (rt e) d in
      let ch :=
        if sensitive then ch
        else ch <| calls_out := Event (dtmf_digit d) (duration d) (dtmf_source_str (source d)) (divert_events e) :: calls_out ch |> in
      Ok (ch, Some d)
    end
  end.

(** [len] is the size of the buffer; [n] bounds the turns. *)
Fixpoint dequeue_loop (n : nat) (e : env) (ch : dtmf_channel) (str : list Z) (x len : Z)
  : outcome (dtmf_channel * list Z * Z) :=
  match n with
  | O => UB
  | S n =>
    if x <? size_t (len - 1) then
      let* (ch, d) := switch_channel_dequeue_dtmf e ch in
      match d with
      | None => Ok (ch, str, x)
      | Some d =>
        if x <? zlen str then dequeue_loop n e ch (<[Z.to_nat x := dtmf_digit d]> str) (size_t (x + 1)) len else UB
      end
    else Ok (ch, str, x)
  end.
Definition switch_channel_dequeue_dtmf_string (e : env) (ch : dtmf_channel) (len : Z) : outcome (dtmf_channel * list Z * Z) :=
  dequeue_loop (S (S (Z.to_nat (switch_channel_has_dtmf ch)))) e ch (replicate (Z.to_nat len) 0) 0 len.

Fixpoint flush_loop (n : nat) (e : env) (ch : dtmf_channel) : outcome dtmf_channel :=
  match n with
  | O => UB
  | S n =>
    let* (q, pop) := fifo_trypop (dtmf_queue ch) in
    let ch := ch <| dtmf_queue := q |> in
    match pop with
    | None => Ok ch
    | Some dt =>
      let* (l, pushed) := if hungup e then Ok (dtmf_log_queue ch, false) else fifo_trypush (dtmf_log_queue ch) dt in
      let ch := ch <| dtmf_log_queue := l |> in
      let* h := if pushed then Ok (heap ch) else free (heap ch) dt in
      flush_loop n e (ch <| heap := h |>)
    end
  end.
Definition switch_channel_flush_dtmf (e : env) (ch : dtmf_channel) : outcome dtmf_channel :=
  flush_loop (S (Z.to_nat (fifo_size (dtmf_queue ch)))) e ch.

Fixpoint drop_log (n : nat) (ch : dtmf_channel) : outcome dtmf_channel :=
  match n with
  | O => UB
  | S n =>
    let* (l, pop) := fifo_trypop (dtmf_log_queue ch) in
    let ch := ch <| dtmf_log_queue := l |> in
    match pop with
    | None => Ok ch
    | Some p => let* h := if p =? 0 then Ok (heap ch) else free (heap ch) p in drop_log n (ch <| heap := h |>)
    end
  end.
(** The part of [switch_channel_uninit] on the digits. *)
Definition switch_channel_uninit (e : env) (ch : dtmf_channel) : outcome dtmf_channel :=
  let* ch := switch_channel_flush_dtmf e ch in
  drop_log (S (Z.to_nat (fifo_size (dtmf_log_queue ch)))) ch.

(** Any operation, and what it returns. *)
Inductive op :=
| Has | Queue (d : switch_dtmf) | QueueString (s : option string) | Dequeue | DequeueString (len : Z) | Flush | Uninit.
Inductive answer := Size (n : Z) | Status (s : switch_status) | Digit (d : option switch_dtmf) | Digits (s : list Z) (x : Z) | Void.

Definition perform (e : env) (o : op) (ch : dtmf_channel) : outcome (dtmf_channel * answer) :=
  match o with
  | Has => Ok (ch, Size (switch_channel_has_dtmf ch))
  | Queue d => let* (ch, s) := switch_channel_queue_dtmf e ch d in Ok (ch, Status s)
  | QueueString s => let* (ch, s) := switch_channel_queue_dtmf_string e ch s in Ok (ch, Status s)
  | Dequeue => let* (ch, d) := switch_channel_dequeue_dtmf e ch in Ok (ch, Digit d)
  | DequeueString len => let* (ch, s, x) := switch_channel_dequeue_dtmf_string e ch len in Ok (ch, Digits s x)
  | Flush => let* ch := switch_channel_flush_dtmf e ch in Ok (ch, Void)
  | Uninit => let* ch := switch_channel_uninit e ch in Ok (ch, Void)
  end.
Fixpoint performs (os : list (env * op)) (ch : dtmf_channel) : outcome (dtmf_channel * list answer) :=
  match os with
  | [] => Ok (ch, [])
  | (e, o) :: os =>
    let* (ch, a) := perform e o ch in
    let* (ch, r) := performs os ch in Ok (ch, a :: r)
  end.
End Channel.
Arguments dtmf_channel Q : clear implicits.

(** ** The contract

    Two lists of at most a thousand digits, and the number of digits whose memory
    is lost: those that were delivered as sensitive. *)
Record digits := mk_digits { pending : list switch_dtmf; logged : list switch_dtmf; lost : Z; outside : list call_out }.
#[export] Instance eta_digits : Eta digits := fun s => mk_digits (pending s) (logged s) (lost s) (outside s).

(** At the end of a list, without its oldest element when there is no room. *)
Definition push_drop (d : switch_dtmf) (l : list switch_dtmf) : list switch_dtmf :=
  (if zlen l <? SWITCH_DTMF_LOG_LEN then l else tail l) ++ [d].
(** At the end of a list if there is room. *)
Definition push_room (d : switch_dtmf) (l : list switch_dtmf) : list switch_dtmf :=
  if zlen l <? SWITCH_DTMF_LOG_LEN then l ++ [d] else l.

Definition spec_queue (e : env) (s : digits) (d : switch_dtmf) : outcome (digits * switch_status) :=
  match switch_core_session_recv_dtmf e d (outside s) with
  | (SWITCH_STATUS_SUCCESS, o) =>
    let d := if switch_true (sensitive_dtmf e) then d <| flags := set_flag (flags d) DTMF_FLAG_SENSITIVE |> else d in
    Ok ((if is_dtmf (dtmf_digit d) then s <| pending := push_drop (fit_queued (rt e) d) (pending s) |> else s) <| outside := o |>,
        SWITCH_STATUS_SUCCESS)
  | (_, o) => Ok (s <| outside := o |>, SWITCH_STATUS_FALSE)
  end.
Definition spec_dequeue (e : env) (s : digits) : digits * option switch_dtmf :=
  match pending s with
  | [] => (s, None)
  | d :: l =>
    let s := s <| pending := l |> in
    let d' := fit_length (rt e) d in
    if test_flag (flags d) DTMF_FLAG_SENSITIVE then (s <| lost := lost s + 1 |>, Some d')
    else (s <| logged := push_room d (logged s) |>
            <| outside := Event (dtmf_digit d') (duration d') (dtmf_source_str (source d')) (divert_events e) :: outside s |>, Some d')
  end.
Fixpoint spec_dequeues (n : nat) (e : env) (s : digits) : digits * list Z :=
  match n with
  | O => (s, [])
  | S n =>
    match spec_dequeue e s with
    | (s, None) => (s, [])
    | (s, Some d) => let (s, ds) := spec_dequeues n e s in (s, dtmf_digit d :: ds)
    end
  end.
Definition spec (e : env) (o : op) (s : digits) : outcome (digits * answer) :=
  match o with
  | Has => Ok (s, Size (zlen (pending s)))
  | Queue d => let* (s, r) := spec_queue e s d in Ok (s, Status r)
  | QueueString str => let* (s, r) := send_string (spec_queue e) (rt e) str s in Ok (s, Status r)
  | Dequeue => let (s, d) := spec_dequeue e s in Ok (s, Digit d)
  | DequeueString len =>
    let (s, ds) := spec_dequeues (Z.to_nat (len - 1)) e s in
    Ok (s, Digits (ds ++ replicate (Z.to_nat len - length ds) 0) (zlen ds))
  | Flush => Ok (s <| pending := [] |> <| logged := if hungup e then logged s else foldl (fun l d => push_room d l) (logged s) (pending s) |>, Void)
  | Uninit => Ok (s <| pending := [] |> <| logged := [] |>, Void)
  end.
Fixpoint specs (os : list (env * op)) (s : digits) : outcome (digits * list answer) :=
  match os with
  | [] => Ok (s, [])
  | (e, o) :: os =>
    let* (s, a) := spec e o s in
    let* (s, r) := specs os s in Ok (s, a :: r)
  end.
Definition digits0 : digits := mk_digits [] [] 0 [].
