(* ===== verification/DtmfLists.v ===== *)
(** * The queues of digits are lists (theorems on [Dtmf])

    Any queue that keeps the laws of [FifoOk] will do.  The operations refine
    those on two bounded lists; no digit is used after it was freed or freed twice,
    and the memory that is not given back is that of sensitive digits. *)
From stdpp Require Import strings fin_maps.
From Stdlib Require Import String Ascii.
From S2P Require Import Prelude CStrings StringUtils Separator Queue Dtmf.
Open Scope Z_scope.
#[local] Notation length := List.length (only parsing).

(** Two outcomes of the same kind, with related values. *)
Definition agrees {A B} (R : A -> B -> Prop) (a : outcome A) (b : outcome B) : Prop :=
  match a, b with
  | Ok x, Ok y => R x y
  | Assert, Assert | UB, UB => True
  | _, _ => False
  end.
Lemma agrees_bind {A B A' B'} (R : A -> B -> Prop) (R' : A' -> B' -> Prop) a b f g :
  agrees R a b -> (forall x y, R x y -> agrees R' (f x) (g y)) ->
  agrees R' (match a with Ok x => f x | Assert => Assert | UB => UB end)
    (match b with Ok y => g y | Assert => Assert | UB => UB end).
Proof. destruct a, b; cbn; try done. auto. Qed.

(** The digits that the pointers of a list lead to. *)
Definition cells (h : gmap Z switch_dtmf) : list Z -> list switch_dtmf -> Prop := Forall2 (fun p d => h !! p = Some d).

Lemma cells_insert h l ds p d : cells h l ds -> h !! p = None -> cells (<[p := d]> h) l ds.
Proof.
  intros C N. eapply Forall2_impl; [exact C|]. intros q x E. rewrite lookup_insert_ne; [done|]. by intros ->; rewrite E in N.
Qed.
Lemma cells_delete h l ds p : cells h l ds -> p ∉ l -> cells (delete p h) l ds.
Proof.
  intros C. induction C as [|q x l ds E C IH]; intros N; [constructor|]. apply not_elem_of_cons in N as [N1 N2].
  constructor; [by rewrite lookup_delete_ne|by apply IH].
Qed.

Section Lists.
Context {Q : Type} `{FifoOk Q}.
Notation channel := (dtmf_channel Q).
Notation N := SWITCH_DTMF_LOG_LEN.

(** The pointers in the queues, and the digits [fl] that the operation holds. *)
Record stands (ch : channel) (s : digits) (lq ll : list Z) (fl : list (Z * switch_dtmf)) : Prop := mk_stands {
  st_queue : fifo N (dtmf_queue ch) lq;
  st_log : fifo N (dtmf_log_queue ch) ll;
  st_once : NoDup (lq ++ ll ++ fl.*1);
  st_pending : cells (heap ch) lq (pending s);
  st_logged : cells (heap ch) ll (logged s);
  st_float : cells (heap ch) fl.*1 fl.*2;
  st_below p : is_Some (heap ch !! p) -> 0 < p < brk ch;
  st_brk : 0 < brk ch;
  st_size : Z.of_nat (size (heap ch)) = zlen lq + zlen ll + zlen fl + lost s;
  st_out : calls_out ch = outside s
}.
Definition rep (ch : channel) (s : digits) : Prop := exists lq ll, stands ch s lq ll [].

Lemma rep_alloc : exists ch, alloc_queues = Some ch /\ rep ch digits0.
Proof.
  destruct (fifo_created (Q := Q) N) as (q & E & F); [unfold N; lia|]. unfold alloc_queues. rewrite E. cbn.
  eexists. split; [reflexivity|]. exists [], []. split; cbn; try done; try by constructor.
  intros p [d D]. by rewrite lookup_empty in D.
Qed.

Lemma st_len ch s lq ll fl : stands ch s lq ll fl -> zlen lq = zlen (pending s) /\ zlen ll = zlen (logged s)
  /\ zlen lq <= N /\ zlen ll <= N.
Proof.
  intros S. pose proof (Forall2_length _ _ _ (st_pending _ _ _ _ _ S)).
  pose proof (Forall2_length _ _ _ (st_logged _ _ _ _ _ S)).
  pose proof (fifo_room _ _ _ (st_queue _ _ _ _ _ S)). pose proof (fifo_room _ _ _ (st_log _ _ _ _ _ S)). lia.
Qed.

(** A digit is taken from the front of a queue, enqueue at the end of one, given
    back, lost, allocated. *)
Lemma pop_stands ch s p lq ll fl : stands ch s (p :: lq) ll fl ->
  exists q d ds, fifo_trypop (dtmf_queue ch) = Ok (q, Some p) /\ pending s = d :: ds
    /\ stands (ch <| dtmf_queue := q |>) (s <| pending := ds |>) lq ll ((p, d) :: fl).
Proof.
  intros [SQ SL SO SP SG SF SB SK SS SC]. destruct (fifo_pop _ _ _ _ SQ) as (q & E & F).
  apply Forall2_cons_inv_l in SP as (d & ds & D & C & P). exists q, d, ds. split; [done|]. split; [done|].
  split; rupd; try done; cbn [length fmap list_fmap fst snd] in *; [|by constructor|lia].
  eapply NoDup_Permutation_proper; [|exact SO]. cbn. by rewrite !app_assoc, <- Permutation_middle.
Qed.
Lemma pop_log_stands ch s p lq ll fl : stands ch s lq (p :: ll) fl ->
  exists q d ds, fifo_trypop (dtmf_log_queue ch) = Ok (q, Some p) /\ logged s = d :: ds
    /\ stands (ch <| dtmf_log_queue := q |>) (s <| logged := ds |>) lq ll ((p, d) :: fl).
Proof.
  intros [SQ SL SO SP SG SF SB SK SS SC]. destruct (fifo_pop _ _ _ _ SL) as (q & E & F).
  apply Forall2_cons_inv_l in SG as (d & ds & D & C & P). exists q, d, ds. split; [done|]. split; [done|].
  split; rupd; try done; cbn [length fmap list_fmap fst snd] in *; [|by constructor|lia].
  eapply NoDup_Permutation_proper; [|exact SO]. cbn. by rewrite Permutation_middle.
Qed.
Lemma push_stands ch s p d lq ll fl : stands ch s lq ll ((p, d) :: fl) -> zlen lq < N ->
  exists q, fifo_trypush (dtmf_queue ch) p = Ok (q, true)
    /\ stands (ch <| dtmf_queue := q |>) (s <| pending := pending s ++ [d] |>) (lq ++ [p]) ll fl.
Proof.
  intros [SQ SL SO SP SG SF SB SK SS SC] R. destruct (fifo_push _ _ _ p SQ R) as (q & E & F).
  cbn in SF. apply Forall2_cons in SF as [D SF]. exists q. split; [done|].
  split; rupd; try done; rewrite ?length_app; cbn [length fmap list_fmap fst snd] in *; [| |lia].
  - eapply NoDup_Permutation_proper; [|exact SO]. rewrite <- app_assoc. cbn. by rewrite Permutation_middle.
  - apply Forall2_app; [done|]. by repeat constructor.
Qed.
Lemma log_stands ch s p d lq ll fl : stands ch s lq ll ((p, d) :: fl) -> zlen ll < N ->
  exists q, fifo_trypush (dtmf_log_queue ch) p = Ok (q, true)
    /\ stands (ch <| dtmf_log_queue := q |>) (s <| logged := logged s ++ [d] |>) lq (ll ++ [p]) fl.
Proof.
  intros [SQ SL SO SP SG SF SB SK SS SC] R. destruct (fifo_push _ _ _ p SL R) as (q & E & F).
  cbn in SF. apply Forall2_cons in SF as [D SF]. exists q. split; [done|].
  split; rupd; try done; rewrite ?length_app; cbn [length fmap list_fmap fst snd] in *; [| |lia].
  - eapply NoDup_Permutation_proper; [|exact SO]. by rewrite <- app_assoc.
  - apply Forall2_app; [done|]. by repeat constructor.
Qed.
Lemma free_stands ch s p d lq ll fl : stands ch s lq ll ((p, d) :: fl) ->
  exists h, free (heap ch) p = Ok h /\ stands (ch <| heap := h |>) s lq ll fl.
Proof.
  intros [SQ SL SO SP SG SF SB SK SS SC]. cbn in SF. apply Forall2_cons in SF as [D SF].
  assert (X : p ∉ lq ++ ll ++ fl.*1 /\ NoDup (lq ++ ll ++ fl.*1)).
  { apply NoDup_cons. eapply NoDup_Permutation_proper; [|exact SO]. cbn. by rewrite !app_assoc, <- Permutation_middle. }
  destruct X as [NI ND]. rewrite !not_elem_of_app in NI. destruct NI as (N1 & N2 & N3).
  unfold free. rewrite D. exists (delete p (heap ch)). split; [done|].
  split; rupd; try done; try (by apply cells_delete).
  - intros q [x E]. apply lookup_delete_Some in E as [_ E]. apply SB. by eexists.
  - rewrite map_size_delete_Some by by eexists. assert (size (heap ch) <> 0%nat);
      [intros Z%map_size_empty_iff; by rewrite Z in D|]. cbn [length] in SS. lia.
Qed.
Lemma lose_stands ch s p d lq ll fl : stands ch s lq ll ((p, d) :: fl) -> stands ch (s <| lost := lost s + 1 |>) lq ll fl.
Proof.
  intros [SQ SL SO SP SG SF SB SK SS SC]. cbn in SF. apply Forall2_cons in SF as [D SF].
  split; rupd; try done; [|cbn [length] in SS; lia].
  apply (NoDup_cons p). eapply NoDup_Permutation_proper; [|exact SO]. cbn. by rewrite !app_assoc, <- Permutation_middle.
Qed.
Lemma alloc_stands ch s d lq ll : stands ch s lq ll [] ->
  stands (ch <| heap := <[brk ch := d]> (heap ch) |> <| brk := brk ch + 1 |>) s lq ll [(brk ch, d)].
Proof.
  intros [SQ SL SO SP SG SF SB SK SS SC].
  assert (F : heap ch !! brk ch = None).
  { destruct (heap ch !! brk ch) eqn:E; [|done]. destruct (SB (brk ch)); [by eexists|lia]. }
  assert (NI : forall l ds, cells (heap ch) l ds -> brk ch ∉ l).
  { intros l ds C [i E]%list_elem_of_lookup. destruct (Forall2_lookup_l _ _ _ _ _ C E) as (x & _ & X). by rewrite X in F. }
  split; rupd; try done; try (by apply cells_insert); cbn [fmap list_fmap length fst snd].
  - apply (NoDup_Permutation_proper (brk ch :: (lq ++ ll ++ []))).
    { by rewrite !app_assoc, app_nil_r, <- Permutation_cons_append. }
    cbn in SO. apply NoDup_cons. split; [|done]. rewrite app_nil_r, not_elem_of_app. split; by eapply NI.
  - constructor; [by rewrite lookup_insert_eq|constructor].
  - intros p. rewrite lookup_insert. case_decide as D; [subst; lia|]. intros X%SB. lia.
  - lia.
  - rewrite map_size_insert_None by done. cbn [length] in SS. lia.
Qed.

(** ** The operations refine those on the lists *)

Definition same {A} (x : channel * A) (y : digits * A) : Prop := rep x.1 y.1 /\ x.2 = y.2.

Lemma pushed_room (d : switch_dtmf) l : zlen l < N -> push_room d l = l ++ [d] /\ push_drop d l = l ++ [d].
Proof. intros R. unfold push_room, push_drop. by rewrite (proj2 (Z.ltb_lt _ _) R). Qed.
Lemma pushed_full (d : switch_dtmf) l : zlen l = N -> push_room d l = l /\ push_drop d l = tail l ++ [d].
Proof. intros R. unfold push_room, push_drop. by rewrite R, Z.ltb_irrefl. Qed.
Lemma queue_same (ch : channel) : ch <| dtmf_queue := dtmf_queue ch |> = ch.
Proof. by destruct ch. Qed.
Lemma log_same (ch : channel) : ch <| dtmf_log_queue := dtmf_log_queue ch |> = ch.
Proof. by destruct ch. Qed.
Lemma heap_same (ch : channel) : ch <| heap := heap ch |> = ch.
Proof. by destruct ch. Qed.

Lemma push_digit_room n ch s p d lq ll : stands ch s lq ll [(p, d)] -> zlen lq < N ->
  exists ch', push_digit n p ch = Ok (ch', true) /\ rep ch' (s <| pending := pending s ++ [d] |>).
Proof.
  intros S R. destruct (push_stands _ _ _ _ _ _ _ S R) as (q & E & S'). eexists.
  split; [destruct n; cbn; rewrite E; reflexivity|]. by eexists _, _.
Qed.
Lemma push_digit_ok n ch s p d lq ll : stands ch s lq ll [(p, d)] ->
  exists ch', push_digit (S n) p ch = Ok (ch', true) /\ rep ch' (s <| pending := push_drop d (pending s) |>).
Proof.
  intros S. destruct (st_len _ _ _ _ _ S) as (L1 & _ & L3 & _). destruct (Z.eq_dec (zlen lq) N) as [F|R].
  - cbn [push_digit]. rewrite (fifo_full _ _ _ p (st_queue _ _ _ _ _ S) F), queue_same.
    destruct lq as [|p0 lq]; [cbn in F; unfold N in F; lia|].
    destruct (pop_stands _ _ _ _ _ _ S) as (q & d0 & ds & E & P & S1). rewrite E.
    destruct (free_stands _ _ _ _ _ _ _ S1) as (h & Fr & S2). change (heap (ch <| dtmf_queue := q |>)) with (heap ch) in Fr.
    rewrite Fr. rewrite (proj2 (pushed_full d (pending s) ltac:(lia))), P. cbn [tail].
    destruct (push_digit_room n _ _ _ _ _ _ S2) as (ch' & E' & Rp); [cbn [length] in *; lia|]. exists ch'. split; [exact E'|exact Rp].
  - rewrite (proj2 (pushed_room d (pending s) ltac:(lia))). eapply push_digit_room; [exact S|lia].
Qed.

Lemma queue_agrees e ch s d : rep ch s -> agrees same (switch_channel_queue_dtmf e ch d) (spec_queue e s d).
Proof.
  intros (lq & ll & S). unfold switch_channel_queue_dtmf, spec_queue. rewrite (st_out _ _ _ _ _ S).
  destruct (switch_core_session_recv_dtmf e d (outside s)) as [status o] eqn:R.
  assert (S1 : stands (ch <| calls_out := o |>) (s <| outside := o |>) lq ll []) by (destruct S; by split).
  assert (K : agrees same (Ok (ch <| calls_out := o |>, SWITCH_STATUS_FALSE)) (Ok (s <| outside := o |>, SWITCH_STATUS_FALSE)))
    by (split; [by exists lq, ll|done]).
  destruct status; try exact K. clear K. cbn [negb bool_decide decide switch_status_eq_dec].
  rewrite bool_decide_true by done. cbn [negb]. set (d' := if switch_true (sensitive_dtmf e) then _ else _).
  destruct (is_dtmf (dtmf_digit d')); [|split; [by exists lq, ll|done]].
  pose proof (alloc_stands _ _ (fit_queued (rt e) d') _ _ S1) as S2.
  destruct (push_digit_ok 99 _ _ _ _ _ _ S2) as (ch' & E & Rp). rewrite E. split; [exact Rp|done].
Qed.

Lemma dequeue_agrees e ch s : rep ch s ->
  agrees same (switch_channel_dequeue_dtmf e ch) (Ok (spec_dequeue e s)).
Proof.
  intros (lq & ll & S). unfold switch_channel_dequeue_dtmf, spec_dequeue. destruct lq as [|p lq].
  - rewrite (fifo_empty _ _ (st_queue _ _ _ _ _ S)), queue_same. pose proof (st_pending _ _ _ _ _ S) as P.
    apply Forall2_nil_inv_l in P. rewrite P. split; [by exists [], ll|done].
  - destruct (pop_stands _ _ _ _ _ _ S) as (q & d & ds & E & P & S1). rewrite E, P.
    pose proof (proj1 (proj1 (Forall2_cons _ _ _ _ _) (st_float _ _ _ _ _ S1))) as D. cbn in D. rewrite D.
    destruct (test_flag (flags d) DTMF_FLAG_SENSITIVE).
    { split; [|done]. exists lq, ll. by eapply lose_stands. }
    destruct (st_len _ _ _ _ _ S1) as (_ & L2 & _ & L4). destruct (Z.eq_dec (zlen ll) N) as [F|R].
    + rupd. rewrite (fifo_full _ _ _ p (st_log _ _ _ _ _ S) F). rewrite (proj1 (pushed_full d (logged s) ltac:(rupd; lia))).
      destruct (free_stands _ _ _ _ _ _ _ S1) as (h & Fr & S2). rupd. rewrite Fr. split; [|done]. exists lq, ll.
      destruct S2 as [? ? ? ? ? ? ? ? ? O]. split; try done. cbn [fst]. rupd. by rewrite O.
    + destruct (log_stands _ _ _ _ _ _ _ S1 ltac:(lia)) as (l & El & S2). rupd. rewrite El.
      rewrite (proj1 (pushed_room d (logged s) ltac:(lia))). split; [|done]. exists lq, (ll ++ [p]).
      destruct S2 as [? ? ? ? ? ? ? ? ? O]. split; try done. cbn [fst]. rupd. by rewrite O.
Qed.

(** ** Strings *)

Lemma send_chars_agrees send send' r str : (forall ch s d, rep ch s -> agrees same (send ch d) (send' s d)) ->
  forall d sent ch s, rep ch s -> agrees same (send_chars send r str d sent ch) (send_chars send' r str d sent s).
Proof.
  intros K. induction str as [|c str IH]; intros d sent ch s R; cbn; [by split|]. destruct (is_dtmf (ord c)); [|by apply IH].
  eapply agrees_bind; [by apply K|]. intros [ch' a] [s' b] [R' E]; cbn in *. subst. by apply IH.
Qed.
Lemma send_args_agrees send send' r args : (forall ch s d, rep ch s -> agrees same (send ch d) (send' s d)) ->
  forall d sent ch s, rep ch s -> agrees same (send_args send r args d sent ch) (send_args send' r args d sent s).
Proof.
  intros K. induction args as [|a args IH]; intros d sent ch s R; cbn; [by split|].
  destruct (split_at_char "@" a) as [x t]. destruct (asked r t) as [len| |]; try done.
  eapply agrees_bind; [by apply send_chars_agrees|]. intros [ch' n] [s' n'] [R' E]; cbn in *. subst. by apply IH.
Qed.
Lemma send_string_agrees send send' r str : (forall ch s d, rep ch s -> agrees same (send ch d) (send' s d)) ->
  forall ch s, rep ch s -> agrees same (send_string send r str ch) (send_string send' r str s).
Proof.
  intros K ch s R. destruct str as [[|c q]|]; cbn [send_string]; [by split| |by split].
  destruct (if c =c "~" then _ else _) as [t fl]. destruct (switch_separate_string (Some t) "+" 256) as [args| |]; try done.
  eapply agrees_bind; [by apply send_args_agrees|]. intros [ch' n] [s' n'] [R' E]; cbn in *. subst. by split.
Qed.

(** ** Loops *)

Lemma spec_dequeue_some e s s' d : spec_dequeue e s = (s', Some d) ->
  zlen (pending s) = zlen (pending s') + 1.
Proof.
  unfold spec_dequeue. destruct (pending s) eqn:P; [done|]. cbn [length]. destruct (test_flag _ _); intros [= <- _]; rupd; lia.
Qed.
Lemma rep_pending ch s : rep ch s -> fifo_size (dtmf_queue ch) = zlen (pending s) /\ zlen (pending s) <= N.
Proof.
  intros (lq & ll & S). destruct (st_len _ _ _ _ _ S) as (L & _ & L' & _).
  rewrite (fifo_length _ _ _ (st_queue _ _ _ _ _ S)). lia.
Qed.

Lemma dequeue_loop_ok e n len : 1 <= len < 2 ^ 32 -> forall ch s str x,
  rep ch s -> zlen str = len -> 0 <= x < len -> zlen (pending s) < Z.of_nat n ->
  let (s', ds) := spec_dequeues (Z.to_nat (len - 1 - x)) e s in
  exists ch', dequeue_loop n e ch str x len =
      Ok (ch', take (Z.to_nat x) str ++ ds ++ drop (Z.to_nat x + length ds) str, x + zlen ds) /\ rep ch' s'.
Proof.
  intros Hl. induction n as [|n IH]; intros ch s str x R L X P; [lia|]. cbn [dequeue_loop]. rewrite size_t_small by lia.
  destruct (Z.ltb_spec x (len - 1)) as [X'|X'].
  - replace (Z.to_nat (len - 1 - x)) with (S (Z.to_nat (len - 1 - (x + 1)))) by lia. cbn [spec_dequeues].
    pose proof (dequeue_agrees e ch s R) as A. destruct (spec_dequeue e s) as [s1 [d|]] eqn:E.
    + pose proof (spec_dequeue_some _ _ _ _ E) as PS.
      destruct (switch_channel_dequeue_dtmf e ch) as [[ch1 d1]| |]; try done. destruct A as [R1 E1]. cbn in R1, E1. subst d1.
      rewrite L, (proj2 (Z.ltb_lt x len)), size_t_small by lia.
      specialize (IH ch1 s1 (<[Z.to_nat x := dtmf_digit d]> str) (x + 1) R1 ltac:(by rewrite length_insert) ltac:(lia) ltac:(lia)).
      destruct (spec_dequeues _ e s1) as [s2 ds]. destruct IH as (ch2 & -> & R2). exists ch2. split; [|done].
      replace (Z.to_nat (x + 1)) with (S (Z.to_nat x)) by lia. rewrite (take_S_r _ _ (dtmf_digit d)) by (apply list_lookup_insert_eq; lia).
      rewrite take_insert_ge, drop_insert_lt by lia. cbn [length]. rewrite <- app_assoc. cbn [app].
      replace (Z.to_nat x + S (length ds))%nat with (S (Z.to_nat x) + length ds)%nat by lia.
      by replace (x + Z.of_nat (S (length ds))) with (x + 1 + zlen ds) by lia.
    + destruct (switch_channel_dequeue_dtmf e ch) as [[ch1 d1]| |]; try done. destruct A as [R1 E1]. cbn in R1, E1. subst d1.
      exists ch1. split; [|done]. cbn [length app]. rewrite Nat.add_0_r, take_drop. do 2 f_equal. lia.
  - replace (Z.to_nat (len - 1 - x)) with 0%nat by lia. cbn [spec_dequeues]. exists ch. split; [|done].
    cbn [length app]. rewrite Nat.add_0_r, take_drop. do 2 f_equal. lia.
Qed.

Lemma dequeue_string_agrees e ch s len : rep ch s -> 1 <= len < 2 ^ 32 ->
  agrees same (perform e (DequeueString len) ch) (spec e (DequeueString len) s).
Proof.
  intros R Hl. cbn [perform spec]. unfold switch_channel_dequeue_dtmf_string, switch_channel_has_dtmf.
  destruct (rep_pending _ _ R) as [SZ SN]. rewrite SZ.
  pose proof (dequeue_loop_ok e (S (S (Z.to_nat (zlen (pending s))))) len Hl ch s (replicate (Z.to_nat len) 0) 0 R) as K.
  rewrite length_replicate in K. specialize (K ltac:(lia) ltac:(lia) ltac:(lia)).
  replace (len - 1 - 0) with (len - 1) in K by lia. destruct (spec_dequeues _ e s) as [s' ds]. destruct K as (ch' & -> & R').
  split; [done|]. cbn [snd]. change (Z.to_nat 0) with 0%nat. cbn [take app Nat.add]. by rewrite drop_replicate.
Qed.

Lemma flush_loop_ok e n : forall ch s lq ll, stands ch s lq ll [] -> (length lq < n)%nat ->
  exists ch', flush_loop n e ch = Ok ch' /\
    rep ch' (s <| pending := [] |> <| logged := if hungup e then logged s else foldl (fun l d => push_room d l) (logged s) (pending s) |>).
Proof.
  induction n as [|n IH]; intros ch s lq ll S L; [lia|]. cbn [flush_loop]. destruct lq as [|p lq].
  - rewrite (fifo_empty _ _ (st_queue _ _ _ _ _ S)), queue_same. exists ch. split; [done|].
    pose proof (st_pending _ _ _ _ _ S) as P. apply Forall2_nil_inv_l in P. exists [], ll. rewrite P. cbn [foldl].
    destruct S. split; try done; rupd; by destruct (hungup e).
  - destruct (pop_stands _ _ _ _ _ _ S) as (q & d & ds & E & P & S1). rewrite E, P. cbn [foldl length] in *.
    destruct (st_len _ _ _ _ _ S1) as (_ & L2 & _ & L4). change (logged (s <| pending := ds |>)) with (logged s) in L2.
    assert (D : (hungup e = true \/ zlen ll = N) \/ hungup e = false /\ zlen ll < N)
      by (destruct (hungup e); [left; by left|]; destruct (Z.eq_dec (zlen ll) N); [left; by right|right; split; [done|lia]]).
    destruct D as [D|[Hu R]].
    + destruct (free_stands _ _ _ _ _ _ _ S1) as (h & Fr & S2).
      assert (X : (if hungup e then Ok (dtmf_log_queue (ch <| dtmf_queue := q |>), false)
        else fifo_trypush (dtmf_log_queue (ch <| dtmf_queue := q |>)) p) = Ok (dtmf_log_queue ch, false)).
      { rupd. destruct (hungup e); [done|]. destruct D as [D|D]; [done|]. apply (fifo_full N _ ll); [apply (st_log _ _ _ _ _ S)|done]. }
      rewrite X. cbv beta iota. rupd. rewrite Fr. destruct (IH _ _ _ _ S2 ltac:(lia)) as (ch' & F & Rp).
      exists ch'. split.
      * by rewrite <- F.
      * rupd. assert (Y : (if hungup e then logged s else foldl (fun l d => push_room d l) (push_room d (logged s)) ds) =
          (if hungup e then logged s else foldl (fun l d => push_room d l) (logged s) ds)).
        { destruct (hungup e); [done|]. destruct D as [D|D]; [done|]. by rewrite (proj1 (pushed_full d (logged s) ltac:(lia))). }
        rewrite Y. exact Rp.
    + destruct (log_stands _ _ _ _ _ _ _ S1 R) as (l & El & S2). rewrite Hu in *. rupd. rewrite El.
      destruct (IH _ _ _ _ S2 ltac:(lia)) as (ch' & F & Rp). exists ch'. split.
      * by rewrite <- F.
      * rewrite (proj1 (pushed_room d (logged s) ltac:(lia))). exact Rp.
Qed.

Lemma drop_log_ok n : forall ch s lq ll, stands ch s lq ll [] -> (length ll < n)%nat ->
  exists ch', drop_log n ch = Ok ch' /\ rep ch' (s <| logged := [] |>).
Proof.
  induction n as [|n IH]; intros ch s lq ll S L; [lia|]. cbn [drop_log]. destruct ll as [|p ll].
  - rewrite (fifo_empty _ _ (st_log _ _ _ _ _ S)), log_same. exists ch. split; [done|].
    pose proof (st_logged _ _ _ _ _ S) as P. exists lq, []. destruct S. by split.
  - destruct (pop_log_stands _ _ _ _ _ _ S) as (q & d & ds & E & P & S1). rewrite E. cbn [length] in *.
    pose proof (proj1 (proj1 (Forall2_cons _ _ _ _ _) (st_float _ _ _ _ _ S1))) as D.
    destruct (st_below _ _ _ _ _ S1 p ltac:(by eexists)) as [D0 _]. rewrite (proj2 (Z.eqb_neq p 0)) by lia.
    destruct (free_stands _ _ _ _ _ _ _ S1) as (h & -> & S2). exact (IH _ _ _ _ S2 ltac:(lia)).
Qed.

Lemma flush_agrees e ch s : rep ch s -> agrees same (perform e Flush ch) (spec e Flush s).
Proof.
  intros (lq & ll & S). cbn [perform spec]. unfold switch_channel_flush_dtmf. rewrite (fifo_length _ _ _ (st_queue _ _ _ _ _ S)).
  destruct (flush_loop_ok e (Datatypes.S (Z.to_nat (zlen lq))) _ _ _ _ S ltac:(lia)) as (ch' & -> & R). by split.
Qed.
Lemma uninit_agrees e ch s : rep ch s -> agrees same (perform e Uninit ch) (spec e Uninit s).
Proof.
  intros R. pose proof (flush_agrees e ch s R) as A. cbn [perform spec] in *. unfold switch_channel_uninit.
  destruct (switch_channel_flush_dtmf e ch) as [ch1| |]; try done. destruct A as [(lq & ll & S) _].
  cbn [fst] in S. rewrite (fifo_length _ _ _ (st_log _ _ _ _ _ S)).
  destruct (drop_log_ok (Datatypes.S (Z.to_nat (zlen ll))) _ _ _ _ S ltac:(lia)) as (ch' & -> & R'). by split.
Qed.

(** The buffers that strings of digits are taken into. *)
Definition has_room (o : op) : Prop := match o with DequeueString len => 1 <= len < 2 ^ 32 | _ => True end.

Lemma perform_agrees e o ch s : rep ch s -> has_room o -> agrees same (perform e o ch) (spec e o s).
Proof.
  intros R O. destruct o as [|d|str| |len| |].
  - destruct (rep_pending _ _ R) as [E _]. split; [done|]. cbn. unfold switch_channel_has_dtmf. by rewrite E.
  - cbn [perform spec]. eapply agrees_bind; [by apply queue_agrees|]. intros [] [] [R' E]; cbn in *; subst. by split.
  - cbn [perform spec]. unfold switch_channel_queue_dtmf_string.
    eapply agrees_bind; [apply (send_string_agrees _ (spec_queue e)); [by apply queue_agrees|done]|].
    intros [] [] [R' E]; cbn in *; subst. by split.
  - cbn [perform spec]. pose proof (dequeue_agrees e ch s R) as A. destruct (spec_dequeue e s) as [s1 d].
    destruct (switch_channel_dequeue_dtmf e ch) as [[ch1 d1]| |]; try done. destruct A as [R' E]; cbn in *; subst. by split.
  - by apply dequeue_string_agrees.
  - by apply flush_agrees.
  - by apply uninit_agrees.
Qed.
Lemma performs_agrees os : Forall (fun x => has_room x.2) os -> forall ch s, rep ch s -> agrees same (performs os ch) (specs os s).
Proof.
  induction 1 as [|[e o] os O _ IH]; intros ch s R; cbn [performs specs]; [by split|].
  eapply agrees_bind; [by apply perform_agrees|]. intros [ch1 a] [s1 b] [R1 E]; cbn in *; subst.
  eapply agrees_bind; [by apply IH|]. intros [ch2 r] [s2 r'] [R2 E]; cbn in *; subst. by split.
Qed.
End Lists.

(** ** Theorems *)

(** C13. Whatever sequence of operations on the digits of a new channel, the answers
    are those of two lists of at most a thousand digits: the newest stay when there
    is no room among the pending ones, the oldest among the logged ones.  No digit
    is used after it was freed or freed twice, and what stays allocated are the
    digits in the lists and one for each sensitive digit that was delivered.  Only
    strings whose separation or whose lengths are undefined make the operations
    undefined.  This holds on any queue that keeps the laws. *)
Theorem dtmf_refines {Q} `{FifoOk Q} (os : list (env * op)) :
  Forall (fun x => has_room x.2) os ->
  exists ch, alloc_queues (Q := Q) = Some ch /\
    agrees (fun '(ch', r) '(s, r') => r = r' /\ rep ch' s
        /\ Z.of_nat (size (heap ch')) = zlen (pending s) + zlen (logged s) + lost s)
      (performs os ch) (specs os digits0).
Proof.
  intros F. destruct (rep_alloc (Q := Q)) as (ch & A & R). exists ch. split; [done|].
  pose proof (performs_agrees os F ch digits0 R) as P.
  destruct (performs os ch) as [[ch' r]| |], (specs os digits0) as [[s r']| |]; try done.
  destruct P as [R' E]; cbn in *. split; [done|]. split; [done|]. destruct R' as (lq & ll & S).
  destruct (st_len _ _ _ _ _ S) as (L1 & L2 & _). rewrite (st_size _ _ _ _ _ S). cbn [length]. lia.
Qed.

(** The lengths stay within their bounds. *)
Definition durations_ok (r : durations) : Prop :=
  SWITCH_MIN_DTMF_DURATION <= min_dtmf_duration r <= max_dtmf_duration r
  /\ max_dtmf_duration r <= SWITCH_MAX_DTMF_DURATION
  /\ SWITCH_MIN_DTMF_DURATION <= default_dtmf_duration r <= SWITCH_MAX_DTMF_DURATION.
Inductive setting := SetMax (n : Z) | SetDefault (n : Z) | SetMin (n : Z).
Definition set (r : durations) (x : setting) : durations :=
  match x with
  | SetMax n => switch_core_max_dtmf_duration r n
  | SetDefault n => switch_core_default_dtmf_duration r n
  | SetMin n => switch_core_min_dtmf_duration r n
  end.

Lemma set_ok r x : durations_ok r -> durations_ok (set r x).
Proof.
  unfold durations_ok, set, switch_core_max_dtmf_duration, switch_core_default_dtmf_duration, switch_core_min_dtmf_duration,
    SWITCH_MIN_DTMF_DURATION, SWITCH_MAX_DTMF_DURATION.
  destruct x; cbv zeta; repeat (ifcase; rupd); intros; rupd; lia.
Qed.

(** C15. However the lengths of digits are configured, a digit that is delivered has
    a length between the least and the greatest one configured, and these are
    between 50 milliseconds and 24 seconds. *)
Theorem dtmf_length_bounds {Q} `{FifoOk Q} (settings : list setting) (e : env) (ch ch' : dtmf_channel Q) (d : switch_dtmf) :
  rt e = foldl set durations0 settings -> switch_channel_dequeue_dtmf e ch = Ok (ch', Some d) ->
  SWITCH_MIN_DTMF_DURATION <= min_dtmf_duration (rt e) <= duration d
  /\ duration d <= max_dtmf_duration (rt e) <= SWITCH_MAX_DTMF_DURATION.
Proof.
  intros Er E. assert (K : durations_ok (rt e)).
  { rewrite Er. clear. induction settings as [|x l IH] using rev_ind; [by vm_compute|]. rewrite foldl_app. by apply set_ok. }
  destruct K as (K1 & K2 & K3). unfold switch_channel_dequeue_dtmf in E.
  destruct (fifo_trypop (dtmf_queue ch)) as [[q [dt|]]| |]; try done. cbn in E. destruct (_ !! dt) as [d0|]; [|done].
  assert (D : d = fit_length (rt e) d0).
  { destruct (test_flag (flags d0) DTMF_FLAG_SENSITIVE); [congruence|].
    destruct (fifo_trypush _ _) as [[l []]| |]; try done; [congruence|]. destruct (free _ _); congruence. }
  subst d. unfold fit_length, SWITCH_MIN_DTMF_DURATION, SWITCH_MAX_DTMF_DURATION in *. repeat (ifcase; rupd); lia.
Qed.

(** ** A string of digits comes back *)

Definition all_digits (s : string) : Prop := all_chars (fun c => is_dtmf (ord c)) s = true.
Definition ords (s : string) : list Z := ord <$> list_ascii_of_string s.

Lemma digit_plain c : is_dtmf (ord c) = true -> protect_char "+" c = String c EmptyString /\ c <> "^"%char /\ c <> "@"%char /\ c <> "~"%char.
Proof. destruct c as [[] [] [] [] [] [] [] []]; intros E; try discriminate E; repeat split; discriminate. Qed.
Lemma protect_digits s : all_digits s -> protect "+" s = s.
Proof.
  induction s as [|c s IH]; [done|]. intros [D K]%andb_prop. cbn [protect].
  destruct (digit_plain c D) as (-> & _). by rewrite (IH K).
Qed.
Lemma split_digits s : all_digits s -> split_at_char "@" s = (s, None).
Proof.
  induction s as [|c s IH]; [done|]. intros [D K]%andb_prop. cbn [split_at_char].
  destruct (digit_plain c D) as (_ & _ & N & _). rewrite (proj2 (Ascii.eqb_neq c "@") N). by rewrite (IH K).
Qed.
Lemma separate_digits s : all_digits s -> s <> EmptyString -> switch_separate_string (Some s) "+" 256 = Ok [s].
Proof.
  intros K NE. unfold switch_separate_string. cbn [Nat.eqb].
  assert (O : own_delim s "+" = (s, "+"%char)).
  { destruct s as [|a [|b [|c [|d r]]]]; try done. apply andb_prop in K as [D _]. destruct (digit_plain a D) as (_ & N & _).
    cbn [own_delim]. by rewrite (proj2 (Ascii.eqb_neq a "^") N). }
  assert (P : plain_delim "+") by by split_and!. rewrite O. cbn [Ascii.eqb Bool.eqb]. unfold separate_string_char_delim.
  pose proof (char_fields_text "+" P [s] 256 ltac:(done) NE ltac:(cbn; lia)) as F.
  unfold text in F. cbn [fmap list_fmap join] in F. rewrite (protect_digits s K) in F. rewrite F. cbn [fmap list_fmap].
  do 2 f_equal. rewrite <- (protect_digits s K) at 1. exact (cleanup_field "+" P s).
Qed.

(** A digit that skips the processing is queued when the channel is up. *)
Lemma spec_queue_skip e s d : down e = false -> flags d = DTMF_FLAG_SKIP_PROCESS -> is_dtmf (dtmf_digit d) = true ->
  exists d', dtmf_digit d' = dtmf_digit d
    /\ spec_queue e s d = Ok (s <| pending := push_drop d' (pending s) |> <| outside := outside s |>, SWITCH_STATUS_SUCCESS).
Proof.
  intros D F I. unfold spec_queue, switch_core_session_recv_dtmf. rewrite D, F. cbn [test_flag].
  change (test_flag DTMF_FLAG_SKIP_PROCESS DTMF_FLAG_SENSITIVE) with false.
  change (test_flag DTMF_FLAG_SKIP_PROCESS DTMF_FLAG_SKIP_PROCESS) with true. cbv iota.
  set (d1 := if switch_true (sensitive_dtmf e) then _ else d).
  assert (E : dtmf_digit d1 = dtmf_digit d) by (unfold d1; by destruct (switch_true _)).
  exists (fit_queued (rt e) d1). rewrite E, I. split; [|done].
  rewrite <- E. unfold fit_queued. repeat (ifcase; rupd); done.
Qed.
Lemma fit_same r d : dtmf_digit (fit_length r d) = dtmf_digit d /\ flags (fit_length r d) = flags d.
Proof. unfold fit_length. repeat (ifcase; rupd); done. Qed.

Lemma send_chars_digits e str : down e = false -> all_digits str -> forall d sent s,
  flags d = DTMF_FLAG_SKIP_PROCESS -> zlen (pending s) + zlen (ords str) <= SWITCH_DTMF_LOG_LEN ->
  exists s', send_chars (spec_queue e) (rt e) str d sent s = Ok (s', sent + zlen (ords str))
    /\ dtmf_digit <$> pending s' = (dtmf_digit <$> pending s) ++ ords str.
Proof.
  intros D. induction str as [|c str IH]; intros K d sent s F L.
  - exists s. cbn [send_chars]. split; [do 2 f_equal; cbn; lia|by rewrite app_nil_r].
  - apply andb_prop in K as [I K]. cbn [send_chars]. rewrite I. change (ords (String c str)) with (ord c :: ords str) in *. cbn [length] in L.
    destruct (fit_same (rt e) (d <| dtmf_digit := ord c |>)) as [E1 E2].
    change (dtmf_digit (d <| dtmf_digit := ord c |>)) with (ord c) in E1. change (flags (d <| dtmf_digit := ord c |>)) with (flags d) in E2.
    destruct (spec_queue_skip e s (fit_length (rt e) (d <| dtmf_digit := ord c |>)) D) as (d' & Ed & ->); [congruence|by rewrite E1|].
    rewrite decide_True by done.
    set (s1 := s <| pending := push_drop d' (pending s) |> <| outside := outside s |>).
    assert (P1 : pending s1 = pending s ++ [d']).
    { unfold s1. rupd. unfold push_drop. rewrite (proj2 (Z.ltb_lt _ _)) by lia. done. }
    destruct (IH K (fit_length (rt e) (d <| dtmf_digit := ord c |>)) (sent + 1) s1) as (s' & -> & P'); [congruence| |].
    { rewrite P1, length_app. cbn [length]. lia. }
    exists s'. split; [do 2 f_equal; cbn [length]; lia|]. rewrite P', P1, fmap_app. cbn [fmap list_fmap].
    rewrite <- app_assoc. cbn [app]. by rewrite Ed, E1.
Qed.

Lemma spec_dequeues_digits e : forall n s, snd (spec_dequeues n e s) = take n (dtmf_digit <$> pending s).
Proof.
  induction n as [|n IH]; intros s; [done|]. cbn [spec_dequeues]. unfold spec_dequeue.
  destruct (pending s) as [|d l] eqn:P; [done|]. cbn [fmap list_fmap take].
  destruct (test_flag _ _); match goal with |- context [spec_dequeues n e ?s1] => specialize (IH s1) end;
    destruct (spec_dequeues n e _) as [s2 ds]; cbn [snd] in *; rewrite (proj1 (fit_same _ _)), IH; done.
Qed.

(** C14. A string of up to a thousand digits that an application queues on a new
    channel that is up is the string that is then taken from it, whatever the
    lengths, the hooks and the sensitivity are, when the buffer has room for its
    terminator. *)
Theorem dtmf_string_roundtrip {Q} `{FifoOk Q} (e : env) (s : string) (len : Z) :
  down e = false -> all_digits s -> s <> EmptyString -> slen s <= SWITCH_DTMF_LOG_LEN -> slen s < len < 2 ^ 32 ->
  exists ch ch', alloc_queues (Q := Q) = Some ch /\
    performs [(e, QueueString (Some s)); (e, DequeueString len)] ch =
      Ok (ch', [Status SWITCH_STATUS_SUCCESS; Digits (ords s ++ replicate (Z.to_nat (len - slen s)) 0) (slen s)]).
Proof.
  intros D K NE L R. assert (Z : slen s = zlen (ords s)).
  { clear. induction s as [|c s IH]; [done|]. change (ords (String c s)) with (ord c :: ords s). cbn [slen length]. lia. }
  rewrite Z in *. clear Z. assert (0 < zlen (ords s)) by (destruct s; [done|]; change (ords (String a s)) with (ord a :: ords s); cbn [length]; lia).
  destruct (rep_alloc (Q := Q)) as (ch & A & Rp). exists ch.
  pose proof (performs_agrees [(e, QueueString (Some s)); (e, DequeueString len)]
    ltac:(repeat constructor; cbn [snd has_room]; lia) ch digits0 Rp) as P.
  pose (d0 := mk_dtmf 0 (default_dtmf_duration (rt e)) DTMF_FLAG_SKIP_PROCESS SWITCH_DTMF_APP <| duration := default_dtmf_duration (rt e) |>).
  destruct (send_chars_digits e s D K d0 0 digits0 ltac:(reflexivity) ltac:(cbn [pending digits0 length]; lia)) as (s' & E & P').
  assert (X : specs [(e, QueueString (Some s)); (e, DequeueString len)] digits0 =
    let (s2, ds) := spec_dequeues (Z.to_nat (len - 1)) e s' in
    Ok (s2, [Status SWITCH_STATUS_SUCCESS; Digits (ds ++ replicate (Z.to_nat len - length ds) 0) (zlen ds)])).
  { cbn [specs spec send_string]. destruct s as [|c q]; [done|]. cbn [send_string].
    destruct (digit_plain c) as (_ & _ & _ & NT); [by apply andb_prop in K as [? _]|]. rewrite (proj2 (Ascii.eqb_neq c "~") NT).
    rewrite (separate_digits _ K NE). cbn [send_args]. rewrite (split_digits _ K). cbn [asked]. fold d0. rewrite E.
    rewrite (proj2 (Z.eqb_neq _ 0)) by lia. by destruct (spec_dequeues _ e s'). }
  rewrite X in P. pose proof (spec_dequeues_digits e (Z.to_nat (len - 1)) s') as Y. destruct (spec_dequeues _ e s') as [s2 ds].
  destruct (performs _ ch) as [[ch' r]| |]; try done. destruct P as [_ Er]. cbn [snd] in Er, Y. subst r. exists ch'. split; [done|].
  rewrite Y, P'. cbn [pending digits0 fmap list_fmap app]. rewrite take_ge by lia.
  by replace (Z.to_nat len - length (ords s))%nat with (Z.to_nat (len - zlen (ords s))) by lia.
Qed.

(** ** Defects, as computations *)

(** A channel with one digit that was marked as sensitive. *)
Definition quiet : env := mk_env durations0 None false false [] false false.
Definition private : env := mk_env durations0 (Some "true"%string) false false [] false false.
Definition seven : switch_dtmf := mk_dtmf 55 2000 0 SWITCH_DTMF_RTP.

(** Its memory is never given back when it is delivered. *)
Lemma sensitive_digit_leaks : exists ch ch' r,
  alloc_queues (Q := apr_queue_t) = Some ch
  /\ performs [(private, Queue seven); (quiet, Dequeue); (quiet, Uninit)] ch = Ok (ch', r)
  /\ size (heap ch') = 1%nat.
Proof. eexists _, _, _. split; [reflexivity|]. split; [vm_compute; reflexivity|reflexivity]. Qed.

(** It reaches the log of the dialled digits when the queue is flushed. *)
Lemma sensitive_digit_logged :
  exists s r, specs [(private, Queue seven); (quiet, Flush)] digits0 = Ok (s, r)
    /\ dtmf_digit <$> logged s = [55].
Proof. eexists _, _. split; [vm_compute; reflexivity|reflexivity]. Qed.

(** The hooks see it, because they are given the digit without the mark. *)
Lemma sensitive_digit_hooked : exists s r,
  specs [(mk_env durations0 (Some "true"%string) false false [fun _ => SWITCH_STATUS_SUCCESS] false false, Queue seven)] digits0 = Ok (s, r)
  /\ outside s = [Hook seven].
Proof. eexists _, _. split; [vm_compute; reflexivity|reflexivity]. Qed.

(** A buffer without room, which the loop takes for one of 2^32 bytes. *)
Lemma dequeue_string_overruns : exists ch,
  alloc_queues (Q := apr_queue_t) = Some ch
  /\ performs [(quiet, Queue seven); (quiet, DequeueString 0)] ch = UB.
Proof. eexists. split; [reflexivity|]. vm_compute. reflexivity. Qed.

(** A digit of no length gets the least length and not the default one. *)
Lemma no_length_is_least : exists s r,
  specs [(quiet, Queue (mk_dtmf 55 0 0 SWITCH_DTMF_RTP))] digits0 = Ok (s, r)
  /\ duration <$> pending s = [SWITCH_MIN_DTMF_DURATION].
Proof. eexists _, _. split; [vm_compute; reflexivity|reflexivity]. Qed.

(** A greatest length below the default leaves the default, and a pause exceeds it. *)
Lemma pause_exceeds_maximum : exists s r,
  specs [(mk_env (set durations0 (SetMax 1000)) None false false [] false false, Queue (mk_dtmf 119 0 0 SWITCH_DTMF_RTP))] digits0
    = Ok (s, r) /\ duration <$> pending s = [2000].
Proof. eexists _, _. split; [vm_compute; reflexivity|reflexivity]. Qed.

(** ** Witnesses *)

Lemma dtmf_refines_witness : exists os, Forall (fun x => has_room x.2) os /\ exists ch,
  alloc_queues (Q := apr_queue_t) = Some ch /\
    agrees (fun '(ch', r) '(s, r') => r = r' /\ rep ch' s
        /\ Z.of_nat (size (heap ch')) = zlen (pending s) + zlen (logged s) + lost s)
      (performs os ch) (specs os digits0).
Proof.
  exists [(quiet, Queue seven); (private, Queue seven); (quiet, DequeueString 5); (quiet, Uninit)]. split.
  - repeat constructor; cbn; lia.
  - apply (dtmf_refines (Q := apr_queue_t)). repeat constructor; cbn; lia.
Defined.

Lemma dtmf_length_bounds_witness : exists ch ch' d,
  switch_channel_dequeue_dtmf (Q := apr_queue_t) quiet ch = Ok (ch', Some d)
  /\ SWITCH_MIN_DTMF_DURATION <= min_dtmf_duration (rt quiet) <= duration d
  /\ duration d <= max_dtmf_duration (rt quiet) <= SWITCH_MAX_DTMF_DURATION.
Proof.
  pose (q := mk_queue [7] 1 0 0 1 0 0 false). pose (ch := mk_channel q q {[ 7 := mk_dtmf 55 9 0 SWITCH_DTMF_RTP ]} 8 []).
  assert (E : exists x, switch_channel_dequeue_dtmf (Q := apr_queue_t) quiet ch = Ok (fst x, Some (snd x)))
    by (eexists (_, _); vm_compute; reflexivity).
  destruct E as [[ch' d] E]. exists ch, ch', d. split; [exact E|].
  exact (dtmf_length_bounds [] quiet ch ch' d eq_refl E).
Defined.

Lemma dtmf_string_roundtrip_witness : exists e, (down e = false /\ all_digits "12#A9" /\ "12#A9"%string <> EmptyString
    /\ slen "12#A9" <= SWITCH_DTMF_LOG_LEN /\ slen "12#A9" < 8 < 2 ^ 32) /\
  exists ch ch', alloc_queues (Q := apr_queue_t) = Some ch /\
    performs [(e, QueueString (Some "12#A9"%string)); (e, DequeueString 8)] ch =
      Ok (ch', [Status SWITCH_STATUS_SUCCESS; Digits (ords "12#A9" ++ replicate (Z.to_nat (8 - slen "12#A9")) 0) (slen "12#A9")]).
Proof.
  exists private. split; [repeat split; vm_compute; congruence|].
  apply (dtmf_string_roundtrip private "12#A9" 8); [done|done|done|by vm_compute|by vm_compute].
Defined.
