(* ===== verification/DigitMachine.v ===== *)
(** * Digit machines (src/switch_ivr_async.c, src/switch_core_session.c)

    A digit machine collects the digits that a caller presses and compares them with
    the codes bound in its current realm; a code that is complete, or still
    unambiguous when the caller stops, calls its callback.  Realms and their bindings live in a
    memory pool: [heads] keeps those that were cleared too, and pointers are numbers.
    Callbacks may call the machine: they are an argument, functions of its state.
    The clock, the verdicts of the trylock and regular expressions are arguments. *)
From stdpp Require Import strings.
From Stdlib Require Import String Ascii.
From S2P Require Import Prelude CStrings StringUtils Separator.
Open Scope Z_scope.
#[local] Notation length := List.length (only parsing).

(** ** State *)

Definition DMACHINE_MAX_DIGIT_LEN : Z := 512.
Inductive digit_action_target := DIGIT_TARGET_SELF | DIGIT_TARGET_PEER | DIGIT_TARGET_BOTH.

(** [callback] and [user_data] stand for the pointers. *)
Record dmachine_binding := Binding {
  bp_digits : string; bp_key : Z; rmatch : Z; callback : option Z; is_regex : bool; user_data : Z }.
#[export] Instance eta_binding : Eta dmachine_binding := fun b =>
  Binding (bp_digits b) (bp_key b) (rmatch b) (callback b) (is_regex b) (user_data b).
Record dm_binding_head := Head { binding_list : list dmachine_binding; head_name : string; terminators : option string }.
#[export] Instance eta_head : Eta dm_binding_head := fun h => Head (binding_list h) (head_name h) (terminators h).

Inductive dm_match_type := DM_MATCH_POSITIVE | DM_MATCH_NEGATIVE.
(** [match_digits] points to one of two buffers of the machine. *)
Inductive digits_buffer := LastMatching | LastFailed.
Record dmachine_match := Match {
  match_digits : option digits_buffer; match_key : Z; match_type : dm_match_type; match_data : Z }.
#[export] Instance eta_match : Eta dmachine_match := fun m =>
  Match (match_digits m) (match_key m) (match_type m) (match_data m).

(** [locks] counts how often the thread holds the mutex; [ticks] the readings of the
    clock and the mutex so far. *)
Record dmachine := DMachine {
  digit_timeout_ms : Z; input_timeout_ms : Z; binding_hash : gmap string Z; heads : gmap Z dm_binding_head;
  dm_match : dmachine_match; target : digit_action_target; digits : string; last_matching_digits : string;
  last_failed_digits : string; cur_digit_len : Z; max_digit_len : Z; last_digit_time : Z; is_match : bool;
  match_callback : option Z; nonmatch_callback : option Z; realm : option Z; last_matching_binding : option (Z * nat);
  dm_user_data : Z; last_return : switch_status; pinging : bool; locks : Z; ticks : nat }.
#[export] Instance eta_dmachine : Eta dmachine := fun d =>
  DMachine (digit_timeout_ms d) (input_timeout_ms d) (binding_hash d) (heads d) (dm_match d) (target d) (digits d)
    (last_matching_digits d) (last_failed_digits d) (cur_digit_len d) (max_digit_len d) (last_digit_time d) (is_match d)
    (match_callback d) (nonmatch_callback d) (realm d) (last_matching_binding d) (dm_user_data d) (last_return d)
    (pinging d) (locks d) (ticks d).

Definition switch_ivr_dmachine_create (digit_timeout input_timeout : Z) (on_match on_nonmatch : option Z) (data : Z) : dmachine :=
  DMachine digit_timeout input_timeout ∅ ∅ (Match None 0 DM_MATCH_POSITIVE 0) DIGIT_TARGET_SELF EmptyString EmptyString
    EmptyString 0 0 0 false on_match on_nonmatch None None data SWITCH_STATUS_SUCCESS false 0 0.

Definition switch_ivr_dmachine_last_ping (d : dmachine) : switch_status := last_return d.
Definition switch_ivr_dmachine_get_target (d : dmachine) : digit_action_target := target d.
Definition switch_ivr_dmachine_set_target (d : dmachine) (t : digit_action_target) : dmachine := d <| target := t |>.
Definition switch_ivr_dmachine_set_match_callback (d : dmachine) (c : option Z) : dmachine := d <| match_callback := c |>.
Definition switch_ivr_dmachine_set_nonmatch_callback (d : dmachine) (c : option Z) : dmachine := d <| nonmatch_callback := c |>.
Definition switch_ivr_dmachine_set_digit_timeout_ms (d : dmachine) (ms : Z) : dmachine := d <| digit_timeout_ms := ms |>.
Definition switch_ivr_dmachine_set_input_timeout_ms (d : dmachine) (ms : Z) : dmachine := d <| input_timeout_ms := ms |>.
Definition switch_ivr_dmachine_get_failed_digits (d : dmachine) : string := last_failed_digits d.
Definition switch_ivr_dmachine_is_parsing (d : dmachine) : bool := negb (cur_digit_len d =? 0).
Definition switch_ivr_dmachine_get_match (d : dmachine) : dmachine * option dmachine_match :=
  if is_match d then (d <| is_match := false |>, Some (dm_match d)) else (d, None).
Definition switch_ivr_dmachine_clear (d : dmachine) : dmachine :=
  d <| digits := EmptyString |> <| cur_digit_len := 0 |> <| last_digit_time := 0 |>.

(** ** Realms and bindings *)

(** The realm's head; a dangling pointer is [UB]. *)
Definition head_at (d : dmachine) (h : Z) : outcome dm_binding_head :=
  match heads d !! h with Some hd => Ok hd | None => UB end.
Definition set_head (d : dmachine) (h : Z) (hd : dm_binding_head) : dmachine := d <| heads := <[h := hd]> (heads d) |>.

Definition switch_ivr_dmachine_set_terminators (d : dmachine) (t : option string) : outcome (dmachine * switch_status) :=
  match realm d with
  | None => Ok (d, SWITCH_STATUS_FALSE)
  | Some h => let* hd := head_at d h in Ok (set_head d h (hd <| terminators := t |>), SWITCH_STATUS_SUCCESS)
  end.
Definition switch_ivr_dmachine_set_realm (d : dmachine) (name : string) : dmachine * switch_status :=
  match binding_hash d !! name with
  | Some h => (d <| realm := Some h |>, SWITCH_STATUS_SUCCESS)
  | None => (d, SWITCH_STATUS_FALSE)
  end.
(** Without a realm selected, clearing an unknown one compares null with null. *)
Definition switch_ivr_dmachine_clear_realm (d : dmachine) (name : option string) : dmachine * switch_status :=
  match name with
  | None | Some EmptyString => (d, SWITCH_STATUS_FALSE)
  | Some n =>
    let d := if bool_decide (binding_hash d !! n = realm d) then d <| realm := None |> else d in
    (d <| binding_hash := delete n (binding_hash d) |>, SWITCH_STATUS_SUCCESS)
  end.

(** [strcmp] with the digits, or for a regular expression with what stands behind their first
    character, even if there is none. *)
Definition same_code (b : dmachine_binding) (code : string) : outcome bool :=
  let plain := String.eqb (bp_digits b) code in
  if is_regex b then
    match code with
    | EmptyString => UB
    | String _ rest => Ok (String.eqb (bp_digits b) rest || plain)
    end
  else Ok plain.
Fixpoint reuse (l : list dmachine_binding) (code : string) (cb : option Z) (data : Z)
  : outcome (option (list dmachine_binding)) :=
  match l with
  | [] => Ok None
  | b :: l =>
    let* same := same_code b code in
    if same : bool then Ok (Some (b <| callback := cb |> <| user_data := data |> :: l))
    else let* l' := reuse l code cb data in Ok (cons b <$> l')
  end.

Definition grow_max (m : Z) (regex : bool) (len : Z) : Z :=
  if regex && negb (m =? DMACHINE_MAX_DIGIT_LEN - 1) then DMACHINE_MAX_DIGIT_LEN - 1 else if m <? len then len else m.

(** A realm's head, made where there is none. *)
Definition find_head (d : dmachine) (name : string) : dmachine * Z :=
  match binding_hash d !! name with
  | Some h => (d, h)
  | None =>
    let h := fresh (dom (heads d)) in
    (set_head d h (Head [] name None) <| binding_hash := <[name := h]> (binding_hash d) |>, h)
  end.
Definition switch_ivr_dmachine_bind (d : dmachine) (realm_name : option string) (code : string) (key : Z) (cb : option Z)
    (data : Z) : outcome (dmachine * switch_status) :=
  if DMACHINE_MAX_DIGIT_LEN - 1 <? slen code then Ok (d, SWITCH_STATUS_FALSE)
  else
    let name := if zstr realm_name then "default"%string else default EmptyString realm_name in
    let '(d, h) := find_head d name in
    let* hd := head_at d h in
    let* reused := reuse (binding_list hd) code cb data in
    match reused with
    | Some l => Ok (set_head d h (hd <| binding_list := l |>), SWITCH_STATUS_SUCCESS)
    | None =>
      let '(regex, code) := match code with
                            | String c rest => if c =c "~" then (true, rest) else (false, code)
                            | EmptyString => (false, code)
                            end in
      let d := set_head d h (hd <| binding_list := binding_list hd ++ [Binding code key 0 cb regex data] |>) in
      let d := if bool_decide (realm d = Some h) then d else fst (switch_ivr_dmachine_set_realm d name) in
      Ok (d <| max_digit_len := grow_max (max_digit_len d) regex (slen code) |>, SWITCH_STATUS_SUCCESS)
    end.

(** ** Matching *)

Inductive dm_match_t := DM_MATCH_NONE | DM_MATCH_EXACT | DM_MATCH_PARTIAL | DM_MATCH_BOTH | DM_MATCH_NEVER.
#[export] Instance dm_match_t_eq_dec : EqDecision dm_match_t.
Proof. solve_decision. Defined.

(** [strrchr] and the end of the text there. *)
Fixpoint before_last (c : ascii) (s : string) : option string :=
  match s with
  | EmptyString => None
  | String a q =>
    match before_last c q with Some x => Some (String a x) | None => if a =c c then Some EmptyString else None end
  end.
Fixpoint cut_terminator (ts : string) (s : string) : option string :=
  match ts with
  | EmptyString => None
  | String c ts => match before_last c s with Some x => Some x | None => cut_terminator ts s end
  end.

(** [best] and the bindings that the pointers point to. *)
Record dm_matches := Matches { best : dm_match_t; exact_bp : option nat; partial_bp : option nat; both_bp : option nat }.
#[export] Instance eta_matches : Eta dm_matches := fun m => Matches (best m) (exact_bp m) (partial_bp m) (both_bp m).
Definition is_some {A} (o : option A) : bool := match o with Some _ => true | None => false end.

Section Machine.
Context (regex_match : string -> string -> bool) (time : nat -> Z) (free : nat -> bool).
Context (run_callback : Z -> dmachine -> outcome (dmachine * switch_status)).

(** The first loop over the bindings: the counts of consecutive matches of regular expressions
    have eight bits. *)
Definition count_one (ds : string) (b : dmachine_binding) : dmachine_binding :=
  if is_regex b then b <| rmatch := if regex_match ds (bp_digits b) then u8 (rmatch b + 1) else 0 |> else b.
Definition pmatched (ds : string) (b : dmachine_binding) : bool := is_regex b || String.prefix ds (bp_digits b).

(** The second loop; [false]: it was left. *)
Definition match_one (ds : string) (full timeout some_regex some_prefix alone : bool) (i : nat) (b : dmachine_binding)
    (m : dm_matches) : dm_matches * bool :=
  if is_regex b then
    if rmatch b =? 0 then (m, true)
    else if timeout || alone then (m <| best := DM_MATCH_EXACT |> <| exact_bp := Some i |>, false)
    else (m <| best := DM_MATCH_PARTIAL |>, true)
  else
    let pmatch := String.prefix ds (bp_digits b) in
    let hit := negb (is_some (exact_bp m)) && pmatch && (some_prefix && negb some_regex || timeout) &&
               String.eqb (bp_digits b) ds in
    let m := if hit then m <| best := DM_MATCH_EXACT |> <| exact_bp := Some i |> else m in
    if hit && full then (m, false)
    else
      let m := if negb (is_some (both_bp m) && is_some (partial_bp m)) && negb (slen (bp_digits b) =? slen ds) && pmatch then
                 if is_some (exact_bp m) then m <| best := DM_MATCH_BOTH |> <| both_bp := Some i |>
                 else m <| best := DM_MATCH_PARTIAL |> <| partial_bp := Some i |>
               else m in
      (m, negb (is_some (both_bp m) && is_some (exact_bp m) && is_some (partial_bp m))).
Fixpoint match_loop (ds : string) (full timeout some_regex some_prefix only : bool) (i : nat) (l : list dmachine_binding)
    (m : dm_matches) : dm_matches :=
  match l with
  | [] => m
  | b :: l =>
    let '(m, more) := match_one ds full timeout some_regex some_prefix only i b m in
    if more : bool then match_loop ds full timeout some_regex some_prefix only (Datatypes.S i) l m else m
  end.
Definition result_bp (timeout : bool) (m : dm_matches) : option nat :=
  match best m, exact_bp m with
  | DM_MATCH_EXACT, Some i => Some i
  | _, _ => if timeout then match both_bp m with Some j => Some (default j (exact_bp m)) | None => None end else None
  end.

Definition switch_ivr_dmachine_check_match (d : dmachine) (is_timeout : bool) : outcome (dmachine * dm_match_t) :=
  match realm d with
  | None => Ok (d, DM_MATCH_NONE)
  | Some h =>
    if cur_digit_len d =? 0 then Ok (d, DM_MATCH_NONE)
    else
      let* hd := head_at d h in
      let ds := digits d in
      let l := count_one ds <$> binding_list hd in
      let d := set_head d h (hd <| binding_list := l |>) in
      let '(ds', is_timeout) := match cut_terminator (default EmptyString (terminators hd)) ds with
                                | Some x => (x, true)
                                | None => (ds, is_timeout)
                                end in
      let d := d <| digits := ds' |> in
      let m := match_loop ds' (cur_digit_len d =? max_digit_len d) is_timeout (existsb is_regex l)
                 (existsb (fun b => negb (is_regex b) && String.prefix ds (bp_digits b)) l || (length (filter (fun b => pmatched ds b = true) l) =? 1)%nat)
                 (length l =? 1)%nat 0 l (Matches DM_MATCH_NONE None None None) in
      let m := if existsb (pmatched ds) l then m else m <| best := DM_MATCH_NEVER |> in
      match result_bp is_timeout m with
      | Some i =>
        Ok (d <| last_matching_binding := Some (h, i) |> <| last_matching_digits := ds' |>, DM_MATCH_EXACT)
      | None => Ok (d, best m)
      end
  end.

(** ** Looking and feeding *)

Definition read_time (d : dmachine) : dmachine * Z := (d <| ticks := Datatypes.S (ticks d) |>, time (ticks d)).
Definition switch_ivr_dmachine_check_timeout (d : dmachine) : dmachine * bool :=
  let '(d, now) := read_time d in
  let timeout := if cur_digit_len d =? 0 then input_timeout_ms d else digit_timeout_ms d in
  let d := if last_digit_time d =? 0 then d <| last_digit_time := now |> else d in
  (d, negb (timeout =? 0) && (timeout <? u32 (Z.quot (now - last_digit_time d) 1000))).

(** What a callback's answer makes of the status. *)
Definition callback_answer (r s : switch_status) : switch_status :=
  match s with SWITCH_STATUS_CONTINUE => SWITCH_STATUS_SUCCESS | SWITCH_STATUS_SUCCESS => r | _ => SWITCH_STATUS_BREAK end.
Definition call_back (cb : option Z) (d : dmachine) (r : switch_status) : outcome (dmachine * switch_status) :=
  match cb with
  | None => Ok (d, r)
  | Some f => let* (d, s) := run_callback f d in Ok (d, callback_answer r s)
  end.
(** The callback of the whole machine, which gets the machine's own data. *)
Definition call_own (get : dmachine -> option Z) (d : dmachine) (r : switch_status) : outcome (dmachine * switch_status) :=
  match get d with
  | None => Ok (d, r)
  | cb => call_back cb (d <| dm_match := dm_match d <| match_data := dm_user_data d |> |>) r
  end.

Definition binding_at (d : dmachine) (p : option (Z * nat)) : outcome dmachine_binding :=
  match p with
  | None => UB
  | Some (h, i) => let* hd := head_at d h in match binding_list hd !! i with Some b => Ok b | None => UB end
  end.
Definition report_match (d : dmachine) : outcome (dmachine * switch_status) :=
  let* b := binding_at d (last_matching_binding d) in
  let d := d <| dm_match := dm_match d <| match_digits := Some LastMatching |> <| match_key := bp_key b |>
                               <| match_data := user_data b |> <| match_type := DM_MATCH_POSITIVE |> |>
             <| is_match := true |> in
  let* (d, r) := call_back (callback b) d SWITCH_STATUS_FOUND in
  call_own match_callback d r.
Definition report_failure (d : dmachine) (r : switch_status) : outcome (dmachine * switch_status) :=
  let d := d <| last_failed_digits := digits d |>
             <| dm_match := dm_match d <| match_digits := Some LastFailed |> <| match_type := DM_MATCH_NEGATIVE |> |> in
  call_own nonmatch_callback d r.

(** [true]: a match was found, and [match_p] set. *)
Definition ping_status (d : dmachine) (m : dm_match_t) (is_timeout : bool)
  : outcome (dmachine * switch_status * bool * bool) :=
  if zstr (Some (digits d)) && negb is_timeout then Ok (d, SWITCH_STATUS_SUCCESS, false, false)
  else if max_digit_len d <? cur_digit_len d then Ok (d, SWITCH_STATUS_FALSE, false, false)
  else if bool_decide (m = DM_MATCH_EXACT) || bool_decide (m = DM_MATCH_BOTH) && is_timeout then
    let* (d, r) := report_match d in Ok (d, r, true, true)
  else if is_timeout then Ok (d, SWITCH_STATUS_TIMEOUT, false, false)
  else if bool_decide (m = DM_MATCH_NONE) && (cur_digit_len d =? max_digit_len d) then
    Ok (d, SWITCH_STATUS_NOTFOUND, false, false)
  else Ok (d, SWITCH_STATUS_SUCCESS, false, false).
Definition fails (r : switch_status) : bool :=
  match r with SWITCH_STATUS_FOUND | SWITCH_STATUS_SUCCESS | SWITCH_STATUS_BREAK => false | _ => true end.

(** The thread that holds the mutex gets it again; a look inside a look keeps it. *)
Definition switch_ivr_dmachine_ping (d : dmachine) : outcome (dmachine * switch_status * bool) :=
  let '(d, is_timeout) := switch_ivr_dmachine_check_timeout d in
  let* (d, m) := switch_ivr_dmachine_check_match d is_timeout in
  let is_timeout := is_timeout || bool_decide (m = DM_MATCH_NEVER) in
  let '(d, got) := (d <| ticks := Datatypes.S (ticks d) |>, (0 <? locks d) || free (ticks d)) in
  if negb got then Ok (d, SWITCH_STATUS_SUCCESS, false)
  else
    let d := d <| locks := locks d + 1 |> in
    if pinging d then Ok (d, SWITCH_STATUS_BREAK, false)
    else
      let* (d, r, found, clear) := ping_status (d <| pinging := true |>) m is_timeout in
      let* (d, r, clear) := (if fails r then let* (d, r) := report_failure d r in Ok (d, r, true) else Ok (d, r, clear)) in
      let d := if clear : bool then switch_ivr_dmachine_clear d else d in
      Ok (d <| last_return := r |> <| pinging := false |> <| locks := locks d - 1 |>, r, found).

(** A digit is put behind the others, in a buffer of [DMACHINE_MAX_DIGIT_LEN] bytes. *)
Definition append_digit (d : dmachine) (c : ascii) : outcome dmachine :=
  if slen (digits d) + 1 <? DMACHINE_MAX_DIGIT_LEN then
    Ok (d <| digits := digits d +:+ String c EmptyString |> <| cur_digit_len := u32 (cur_digit_len d + 1) |>)
  else UB.
Fixpoint feed_loop (s : string) (d : dmachine) (status : switch_status) (found : bool)
  : outcome (dmachine * switch_status * bool) :=
  match s with
  | EmptyString => Ok (d, status, found)
  | String c s =>
    if cur_digit_len d <? max_digit_len d then
      let* d := append_digit d c in
      let '(d, now) := read_time d in
      let d := d <| last_digit_time := now |> in
      if bool_decide (status = SWITCH_STATUS_SUCCESS) then
        let* (d, istatus, f) := switch_ivr_dmachine_ping d in feed_loop s d istatus (found || f)
      else feed_loop s d status found
    else feed_loop s d SWITCH_STATUS_FALSE found
  end.
Definition switch_ivr_dmachine_feed (d : dmachine) (s : option string) : outcome (dmachine * switch_status * bool) :=
  if zstr s then Ok (d, SWITCH_STATUS_BREAK, false) else feed_loop (default EmptyString s) d SWITCH_STATUS_SUCCESS false.
End Machine.

(** ** The machines of a session *)

(** The places 0 and 1 of [session->dmachine], and the machines that they point to. *)
Record session_machines := Machines { self_machine : option Z; peer_machine : option Z; machines : gmap Z dmachine }.
#[export] Instance eta_machines : Eta session_machines := fun s => Machines (self_machine s) (peer_machine s) (machines s).
Definition switch_core_session_set_dmachine (s : session_machines) (p : option Z) (t : digit_action_target)
  : outcome session_machines :=
  match t with
  | DIGIT_TARGET_BOTH => Ok s
  | _ =>
    let* s := (match p with
               | None => Ok s
               | Some p => match machines s !! p with
                           | Some d => Ok (s <| machines := <[p := switch_ivr_dmachine_set_target d t]> (machines s) |>)
                           | None => UB
                           end
               end) in
    Ok (match t with DIGIT_TARGET_PEER => s <| peer_machine := p |> | _ => s <| self_machine := p |> end)
  end.
Definition switch_core_session_get_dmachine (s : session_machines) (t : digit_action_target) : option Z :=
  match t with DIGIT_TARGET_SELF => self_machine s | DIGIT_TARGET_PEER => peer_machine s | DIGIT_TARGET_BOTH => None end.
