(* ===== verification/DigitMatch.v ===== *)
(** * What digit machines recognise

    The machine stays within its buffers and its pointers stay valid whatever is pressed
    and whatever its callbacks do within these bounds ([dmachine_safe]); comparing with codes
    is what a reference definition says ([dmachine_match_exact]); a code that is pressed is
    found ([dmachine_recognises]). *)
From stdpp Require Import strings.
From Stdlib Require Import String Ascii.
From S2P Require Import Prelude CStrings StringUtils Separator DigitMachine.
Open Scope Z_scope.
#[local] Notation length := List.length (only parsing).

(** ** Texts *)

Lemma before_last_shorter c s x : before_last c s = Some x -> slen x < slen s.
Proof.
  revert x. induction s as [|a q IH]; intros x; [done|]. cbn [before_last].
  destruct (before_last c q) as [y|]; [intros [= <-]; specialize (IH y eq_refl); cbn [slen]; lia|].
  destruct (a =c c); [|done]. intros [= <-]. cbn [slen]. pose proof (slen_pos q). lia.
Qed.
Lemma cut_shorter ts s x : cut_terminator ts s = Some x -> slen x < slen s.
Proof.
  induction ts as [|c ts IH]; [done|]. cbn [cut_terminator]. destruct (before_last c s) as [y|] eqn:E; [|exact IH].
  intros [= <-]. by eapply before_last_shorter.
Qed.

(** ** The invariant *)

Definition has_binding (d : dmachine) (p : Z * nat) : Prop :=
  exists hd b, heads d !! p.1 = Some hd /\ binding_list hd !! p.2 = Some b.
Record good (d : dmachine) : Prop := mk_good {
  g_len : slen (digits d) <= cur_digit_len d <= max_digit_len d;
  g_max : max_digit_len d < DMACHINE_MAX_DIGIT_LEN;
  g_matching : slen (last_matching_digits d) < DMACHINE_MAX_DIGIT_LEN;
  g_failed : slen (last_failed_digits d) < DMACHINE_MAX_DIGIT_LEN;
  g_realm : forall h, realm d = Some h -> is_Some (heads d !! h);
  g_hash : forall n h, binding_hash d !! n = Some h -> is_Some (heads d !! h);
  g_last : forall p, last_matching_binding d = Some p -> has_binding d p }.

(** The fields that the invariant is about stay. *)
Definition same_core (d d' : dmachine) : Prop :=
  digits d' = digits d /\ cur_digit_len d' = cur_digit_len d /\ max_digit_len d' = max_digit_len d /\
  last_matching_digits d' = last_matching_digits d /\ last_failed_digits d' = last_failed_digits d /\ realm d' = realm d /\
  binding_hash d' = binding_hash d /\ heads d' = heads d /\ last_matching_binding d' = last_matching_binding d.
Lemma good_core d d' : same_core d d' -> good d -> good d'.
Proof.
  intros (E1 & E2 & E3 & E4 & E5 & E6 & E7 & E8 & E9) [G1 G2 G3 G4 G5 G6 G7].
  constructor; rewrite ?E1, ?E2, ?E3, ?E4, ?E5, ?E6, ?E7, ?E8, ?E9; try done.
  intros p H. destruct (G7 p H) as (hd & b & A & B). exists hd, b. by rewrite E8.
Qed.
(** From a hypothesis about a machine that differs in other fields. *)
Ltac same_core G := revert G; apply good_core; by split_and!.

Lemma dm_create_good dt it m n u : good (switch_ivr_dmachine_create dt it m n u).
Proof. by constructor; cbn. Qed.
Lemma good_clear d : good d -> good (switch_ivr_dmachine_clear d).
Proof.
  intros [G1 G2 G3 G4 G5 G6 G7]. unfold switch_ivr_dmachine_clear. constructor; rupd; try done.
  cbn. pose proof (slen_pos (digits d)). lia.
Qed.

(** Heads may change as long as bindings are not taken away. *)
Lemma good_set_head d h hd hd' : good d -> heads d !! h = Some hd ->
  (length (binding_list hd) <= length (binding_list hd'))%nat -> good (set_head d h hd').
Proof.
  intros [G1 G2 G3 G4 G5 G6 G7] H L. unfold set_head. constructor; rupd; try done.
  - intros k R. destruct (decide (k = h)) as [->|N]; [rewrite lookup_insert_eq|rewrite lookup_insert_ne by done]; eauto.
  - intros n k R. destruct (decide (k = h)) as [->|N]; [rewrite lookup_insert_eq|rewrite lookup_insert_ne by done]; eauto.
  - intros p R. destruct (G7 p R) as (x & b & A & B). unfold has_binding. rupd. destruct (decide (p.1 = h)) as [E|N].
    + rewrite E, H in A. injection A as <-. rewrite E, lookup_insert_eq.
      destruct (lookup_lt_is_Some_2 (binding_list hd') p.2) as [b' B']; [|by exists hd', b'].
      apply lookup_lt_Some in B. lia.
    + exists x, b. by rewrite lookup_insert_ne.
Qed.

(** ** Bindings *)

Lemma reuse_length l code cb data l' : reuse l code cb data = Ok (Some l') -> length l' = length l.
Proof.
  revert l'. induction l as [|b l IH]; intros l'; [done|]. cbn [reuse]. destruct (same_code b code) as [[]| |]; [by intros [= <-]| |done..].
  destruct (reuse l code cb data) as [[x|]| |]; [|done..]. intros [= <-]. cbn [length]. by rewrite (IH x).
Qed.
Lemma reuse_total l code cb data : code <> EmptyString -> exists r, reuse l code cb data = Ok r.
Proof.
  intros N. induction l as [|b l [r IH]]; [by eexists|]. cbn [reuse].
  assert (S : exists s, same_code b code = Ok s) by (unfold same_code; destruct code; [done|]; destruct (is_regex b); by eexists).
  destruct S as [[] ->]; [by eexists|]. rewrite IH. by eexists.
Qed.
Lemma find_head_good d n : good d -> let '(d', h) := find_head d n in
  good d' /\ (exists hd, heads d' !! h = Some hd) /\ max_digit_len d' = max_digit_len d /\ binding_hash d' !! n = Some h.
Proof.
  intros G. unfold find_head. destruct (binding_hash d !! n) as [h|] eqn:E.
  - split_and!; [done|destruct (g_hash d G n h E) as [hd ?]; by exists hd|done|done].
  - set (h := fresh (dom (heads d))). assert (F : heads d !! h = None) by (apply not_elem_of_dom, is_fresh).
    split_and!; [|exists (Head [] n None); unfold set_head; rupd; by rewrite lookup_insert_eq|done|rupd; by rewrite lookup_insert_eq].
    destruct G as [G1 G2 G3 G4 G5 G6 G7]. unfold set_head. constructor; rupd; try done.
    + intros k R. destruct (decide (k = h)) as [->|N]; [by rewrite lookup_insert_eq|rewrite lookup_insert_ne by done; eauto].
    + intros m k R. destruct (decide (k = h)) as [->|N]; [by rewrite lookup_insert_eq|rewrite lookup_insert_ne by done].
      destruct (decide (m = n)) as [->|M]; [rewrite lookup_insert_eq in R; congruence|rewrite lookup_insert_ne in R by done; eauto].
    + intros p R. destruct (G7 p R) as (x & b & A & B). exists x, b. rupd.
      rewrite lookup_insert_ne by (intros K; rewrite K in F; congruence). done.
Qed.

Lemma grow_max_bounds m r len : 0 <= m < DMACHINE_MAX_DIGIT_LEN -> 0 <= len < DMACHINE_MAX_DIGIT_LEN ->
  m <= grow_max m r len < DMACHINE_MAX_DIGIT_LEN.
Proof.
  unfold grow_max, DMACHINE_MAX_DIGIT_LEN. intros M L. destruct (r && _); [lia|]. destruct (m <? len) eqn:E; lia.
Qed.
Lemma bind_good d r code key cb data : good d -> code <> EmptyString ->
  exists d' s, switch_ivr_dmachine_bind d r code key cb data = Ok (d', s) /\ good d'.
Proof.
  intros G N. unfold switch_ivr_dmachine_bind. destruct (DMACHINE_MAX_DIGIT_LEN - 1 <? slen code) eqn:L; [by eexists _, _|].
  set (n := if zstr r then _ else _). pose proof (find_head_good d n G) as F. destruct (find_head d n) as [d1 h].
  destruct F as (G1 & [hd H] & M & B). unfold head_at. rewrite H.
  destruct (reuse_total (binding_list hd) code cb data N) as [u U]. rewrite U. destruct u as [l|].
  - eexists _, _. split; [reflexivity|]. apply (good_set_head _ _ hd); [done..|]. rupd. by rewrite (reuse_length _ _ _ _ _ U).
  - assert (C : exists x c, match code with String c0 rest => if c0 =c "~" then (true, rest) else (false, code) | EmptyString => (false, code) end
      = (x, c) /\ slen c <= slen code).
    { destruct code as [|a q]; [done|]. destruct (a =c "~"); eexists _, _; (split; [reflexivity|]); cbn [slen]; lia. }
    destruct C as (x & c & -> & Lc). eexists _, _. split; [reflexivity|].
    assert (G2 : good (set_head d1 h (hd <| binding_list := binding_list hd ++ [Binding c key 0 cb x data] |>))).
    { apply (good_set_head _ _ hd); [done..|]. rupd. rewrite length_app. lia. }
    set (d2 := set_head _ _ _) in *.
    assert (G3 : good (if bool_decide (realm d2 = Some h) then d2 else fst (switch_ivr_dmachine_set_realm d2 n))).
    { destruct (bool_decide _); [done|]. unfold switch_ivr_dmachine_set_realm. destruct (binding_hash d2 !! n) as [k|] eqn:K; [|done].
      cbn [fst]. destruct G2 as [A1 A2 A3 A4 A5 A6 A7]. constructor; rupd; try done. intros j [= <-]. by apply (A6 n). }
    set (d3 := if bool_decide _ then _ else _) in *. destruct G3 as [A1 A2 A3 A4 A5 A6 A7].
    pose proof (slen_pos (digits d3)). pose proof (slen_pos c).
    pose proof (grow_max_bounds (max_digit_len d3) x (slen c) ltac:(lia) ltac:(lia)).
    constructor; rupd; try done; lia.
Qed.

(** ** Comparing *)

(** The pointers of the second loop point to bindings that were seen. *)
Definition seen (n : nat) (m : dm_matches) : Prop :=
  (forall i, exact_bp m = Some i -> (i < n)%nat) /\ (forall i, both_bp m = Some i -> (i < n)%nat) /\
  (best m = DM_MATCH_EXACT -> exact_bp m <> None) /\ (best m = DM_MATCH_BOTH -> both_bp m <> None).
Lemma match_one_seen ds full t sr sp only i b m : seen i m -> seen (Datatypes.S i) (fst (match_one ds full t sr sp only i b m)).
Proof.
  intros (E & B & X & Y).
  assert (S0 : seen (Datatypes.S i) m) by (split_and!; [intros j J; specialize (E j J); lia|intros j J; specialize (B j J); lia|done|done]).
  assert (K : forall q, seen (Datatypes.S i) q -> seen (Datatypes.S i) (q <| best := DM_MATCH_EXACT |> <| exact_bp := Some i |>)).
  { intros q (E' & B' & X' & Y'). split_and!; rupd; [by intros j [= <-]; lia|done|done|done]. }
  unfold match_one. destruct (is_regex b).
  { destruct (rmatch b =? 0); [exact S0|]. destruct (t || only); cbn [fst]; [by apply K|].
    destruct S0 as (E' & B' & X' & Y'). by split_and!; rupd. }
  set (hit := negb _ && _ && _ && _). cbv zeta. clearbody hit. set (m1 := if hit then _ else m).
  assert (S1 : seen (Datatypes.S i) m1) by (subst m1; destruct hit; [by apply K|done]).
  destruct (hit && full); [exact S1|]. cbn [fst]. destruct (negb _ && _ && _); [|exact S1].
  destruct S1 as (E' & B' & X' & Y'). destruct (exact_bp m1) eqn:Z; cbn [is_some]; split_and!; rupd; rewrite ?Z; try done.
  by intros j [= <-]; lia.
Qed.
Lemma match_loop_seen ds full t sr sp only l : forall i m, seen i m -> seen (i + length l) (match_loop ds full t sr sp only i l m).
Proof.
  induction l as [|b l IH]; intros i m S; cbn [match_loop length]; [by rewrite Nat.add_0_r|].
  pose proof (match_one_seen ds full t sr sp only i b m S) as S1. destruct (match_one _ _ _ _ _ _ _ _ _) as [m1 more]. cbn [fst] in S1.
  destruct more; [by rewrite <- Nat.add_succ_comm; apply IH|]. destruct S1 as (E & B & X & Y).
  split_and!; [intros j J; specialize (E j J); lia|intros j J; specialize (B j J); lia|done|done].
Qed.
Lemma result_seen t n m : seen n m -> (forall i, result_bp t m = Some i -> (i < n)%nat) /\
  (result_bp t m = None -> best m <> DM_MATCH_EXACT /\ (best m = DM_MATCH_BOTH -> t = false)).
Proof.
  intros (E & B & X & Y). unfold result_bp. destruct (best m) eqn:Q, (exact_bp m) as [e|] eqn:Z, (both_bp m) as [x|] eqn:W, t;
    cbn [default]; split; try (by intros i [= <-]; auto); try (by split); try done; try (by intros _; split; [done|]); naive_solver.
Qed.

Section Machine.
Context (regex_match : string -> string -> bool) (time : nat -> Z) (free : nat -> bool).
Context (run_callback : Z -> dmachine -> outcome (dmachine * switch_status)).
Notation ping := (switch_ivr_dmachine_ping regex_match time free run_callback).
Notation check_match := (switch_ivr_dmachine_check_match regex_match).

Lemma check_match_good d t : good d -> exists d' m, check_match d t = Ok (d', m) /\ good d' /\
  (m = DM_MATCH_EXACT -> exists p, last_matching_binding d' = Some p) /\ (m = DM_MATCH_BOTH -> t = false) /\
  pinging d' = pinging d /\ locks d' = locks d.
Proof using Type.
  intros G. unfold switch_ivr_dmachine_check_match. destruct (realm d) as [h|] eqn:R; [|by eexists _, _; split_and!].
  destruct (cur_digit_len d =? 0) eqn:C; [by eexists _, _; split_and!|].
  destruct (g_realm d G h R) as [hd H]. unfold head_at. rewrite H. cbv zeta.
  set (l := count_one regex_match (digits d) <$> binding_list hd).
  assert (Ll : length l = length (binding_list hd)) by (subst l; by rewrite length_fmap).
  assert (G1 : good (set_head d h (hd <| binding_list := l |>))) by (apply (good_set_head _ _ hd); [done..|]; rupd; lia).
  set (d1 := set_head _ _ _) in *.
  assert (P : exists ds t', match cut_terminator (default EmptyString (terminators hd)) (digits d) with
    | Some x => (x, true) | None => (digits d, t) end = (ds, t') /\ slen ds <= slen (digits d) /\ (t' = false -> t = false)).
  { destruct (cut_terminator _ _) as [x|] eqn:Cx; eexists _, _; split_and!; [reflexivity|apply cut_shorter in Cx; lia|done|reflexivity|lia|done]. }
  destruct P as (ds & t' & -> & Ls & Lt).
  assert (G2 : good (d1 <| digits := ds |>)).
  { destruct G1 as [A1 A2 A3 A4 A5 A6 A7]. constructor; rupd; try done. change (digits d1) with (digits d) in A1. lia. }
  set (d2 := d1 <| digits := ds |>) in *.
  set (m := match_loop _ _ _ _ _ _ _ _ _).
  assert (S : seen (length l) m) by (apply (match_loop_seen _ _ _ _ _ _ l 0); split_and!; done).
  set (m' := if existsb _ l then m else _).
  assert (S' : seen (length l) m').
  { subst m'. destruct (existsb (pmatched (digits d)) l); [exact S|]. destruct S as (E & B & _). split_and!; [exact E|exact B|done|done]. }
  destruct (result_seen t' (length l) m' S') as [Rs Rn].
  destruct (result_bp t' m') as [i|] eqn:Q.
  - eexists _, _. split; [reflexivity|]. split_and!; [|by eexists|done|done|done].
    destruct G2 as [A1 A2 A3 A4 A5 A6 A7]. constructor; rupd; try done.
    + pose proof (g_len d G). pose proof (g_max d G). pose proof (slen_pos ds). lia.
    + intros p [= <-]. destruct (lookup_lt_is_Some_2 l i) as [b B]; [by apply Rs|].
      exists (hd <| binding_list := l |>), b. split; [|exact B]. cbn [fst]. subst d2 d1. unfold set_head. rupd. by rewrite lookup_insert_eq.
  - eexists _, _. split; [reflexivity|]. destruct (Rn eq_refl) as [Ne Nb]. split_and!; [done|done| |done|done]. auto.
Qed.

(** ** Safety *)

Section Safe.
Hypothesis callback_good : forall f d, good d -> exists d' s, run_callback f d = Ok (d', s) /\ good d'.

Lemma call_back_good cb d r : good d -> exists d' s, call_back run_callback cb d r = Ok (d', s) /\ good d'.
Proof using callback_good.
  intros G. destruct cb as [f|]; [|by eexists _, _]. cbn [call_back]. destruct (callback_good f d G) as (d' & s & -> & G').
  by eexists _, _.
Qed.
Lemma call_own_good get d r : good d -> exists d' s, call_own run_callback get d r = Ok (d', s) /\ good d'.
Proof using callback_good.
  intros G. unfold call_own. destruct (get d); [|by eexists _, _]. apply call_back_good. same_core G.
Qed.
Lemma report_match_good d p : good d -> last_matching_binding d = Some p ->
  exists d' r, report_match run_callback d = Ok (d', r) /\ good d'.
Proof using callback_good.
  intros G L. unfold report_match. rewrite L. destruct (g_last d G p L) as (hd & b & A & B). destruct p as [h i].
  cbn [fst snd] in *. unfold binding_at, head_at. rewrite A, B. cbv zeta.
  set (d1 := d <| dm_match := _ |> <| is_match := true |>). assert (G1 : good d1) by (same_core G).
  destruct (call_back_good (callback b) d1 SWITCH_STATUS_FOUND G1) as (d2 & r & -> & G2). by apply call_own_good.
Qed.
Lemma report_failure_good d r : good d -> exists d' s, report_failure run_callback d r = Ok (d', s) /\ good d'.
Proof using callback_good.
  intros G. unfold report_failure. cbv zeta. apply call_own_good. destruct G as [A1 A2 A3 A4 A5 A6 A7]. constructor; rupd; try done. lia.
Qed.
Lemma ping_status_good d m t : good d -> (m = DM_MATCH_EXACT -> exists p, last_matching_binding d = Some p) ->
  (m = DM_MATCH_BOTH -> t = false) -> exists d' r f c, ping_status run_callback d m t = Ok (d', r, f, c) /\ good d'.
Proof using callback_good.
  intros G X B. unfold ping_status. destruct (zstr _ && _); [by eexists _, _, _, _|].
  destruct (max_digit_len d <? cur_digit_len d); [by eexists _, _, _, _|].
  destruct (bool_decide (m = DM_MATCH_EXACT) || bool_decide (m = DM_MATCH_BOTH) && t) eqn:E.
  - assert (P : exists p, last_matching_binding d = Some p).
    { apply orb_prop in E as [E|[E T]%andb_prop]; apply bool_decide_eq_true in E; [by apply X|]. rewrite B in T by done. done. }
    destruct P as [p P]. destruct (report_match_good d p G P) as (d' & r & -> & G'). by eexists _, _, _, _.
  - destruct t; [by eexists _, _, _, _|]. destruct (bool_decide (m = DM_MATCH_NONE) && _); by eexists _, _, _, _.
Qed.

Lemma timeout_good d : good d -> good (fst (switch_ivr_dmachine_check_timeout time d)).
Proof using Type.
  intros G. unfold switch_ivr_dmachine_check_timeout. cbn [read_time fst]. destruct (_ =? 0); rupd.
  all: same_core G.
Qed.
Lemma ping_good d : good d -> exists d' s f, ping d = Ok (d', s, f) /\ good d'.
Proof using callback_good.
  intros G. unfold switch_ivr_dmachine_ping. pose proof (timeout_good d G) as G1.
  destruct (switch_ivr_dmachine_check_timeout time d) as [d1 t]. cbn [fst] in G1.
  destruct (check_match_good d1 t G1) as (d2 & m & -> & G2 & X & B & _). cbv zeta.
  set (d3 := d2 <| ticks := _ |>). assert (G3 : good d3) by (same_core G2).
  destruct (negb _); [by eexists _, _, _|]. assert (G4 : good (d3 <| locks := locks d3 + 1 |>)) by (same_core G3).
  destruct (pinging _); [by eexists _, _, _|].
  assert (G5 : good (d3 <| locks := locks d3 + 1 |> <| pinging := true |>)) by (same_core G4).
  destruct (ping_status_good _ m (t || bool_decide (m = DM_MATCH_NEVER)) G5 X) as (d5 & r & f & c & -> & G6).
  { intros E. rewrite (B E). by rewrite E. }
  assert (Q : exists d6 r6 c6, (if fails r then let* (d, r) := report_failure run_callback d5 r in Ok (d, r, true) else Ok (d5, r, c))
    = Ok (d6, r6, c6) /\ good d6).
  { destruct (fails r); [|by eexists _, _, _]. destruct (report_failure_good d5 r G6) as (d6 & s & -> & G7). by eexists _, _, _. }
  destruct Q as (d6 & r6 & c6 & -> & G7).
  assert (G8 : good (if c6 then switch_ivr_dmachine_clear d6 else d6)) by (destruct c6; [by apply good_clear|done]).
  eexists _, _, _. split; [reflexivity|]. set (d7 := if c6 then _ else d6) in *. same_core G8.
Qed.

Lemma append_good d c : good d -> cur_digit_len d < max_digit_len d -> exists d', append_digit d c = Ok d' /\ good d'.
Proof using Type.
  intros G L. pose proof G as [A1 A2 A3 A4 A5 A6 A7]. pose proof (slen_pos (digits d)). unfold append_digit.
  replace (slen (digits d) + 1 <? DMACHINE_MAX_DIGIT_LEN) with true by lia. eexists. split; [reflexivity|].
  unfold DMACHINE_MAX_DIGIT_LEN in A2. constructor; rupd; try done. rewrite slen_sapp, u32_small by lia. cbn [slen]. lia.
Qed.
Lemma feed_good s : forall d r f, good d -> exists d' r' f', feed_loop regex_match time free run_callback s d r f = Ok (d', r', f') /\ good d'.
Proof using callback_good.
  induction s as [|c s IH]; intros d r f G; cbn [feed_loop]; [by eexists _, _, _|].
  destruct (cur_digit_len d <? max_digit_len d) eqn:L; [|by apply IH].
  destruct (append_good d c G ltac:(lia)) as (d1 & -> & G1). cbn [read_time]. cbv zeta.
  set (d2 := d1 <| ticks := _ |> <| last_digit_time := _ |>). assert (G2 : good d2) by (same_core G1).
  destruct (bool_decide _); [|by apply IH]. destruct (ping_good d2 G2) as (d3 & s3 & f3 & -> & G3). by apply IH.
Qed.

(** Everything that is done to a machine. *)
Inductive dm_op :=
| DBind (r : option string) (code : string) (key : Z) (cb : option Z) (data : Z) | DFeed (s : option string) | DPing
| DSetRealm (n : string) | DClearRealm (n : option string) | DTerminators (t : option string) | DClear | DGetMatch
| DTarget (t : digit_action_target) | DMatchCallback (c : option Z) | DNonmatchCallback (c : option Z)
| DDigitTimeout (ms : Z) | DInputTimeout (ms : Z).
Definition dm_call (d : dmachine) (o : dm_op) : outcome dmachine :=
  match o with
  | DBind r code key cb data => let* (d, _) := switch_ivr_dmachine_bind d r code key cb data in Ok d
  | DFeed s => let* (d, _, _) := switch_ivr_dmachine_feed regex_match time free run_callback d s in Ok d
  | DPing => let* (d, _, _) := ping d in Ok d
  | DSetRealm n => Ok (fst (switch_ivr_dmachine_set_realm d n))
  | DClearRealm n => Ok (fst (switch_ivr_dmachine_clear_realm d n))
  | DTerminators t => let* (d, _) := switch_ivr_dmachine_set_terminators d t in Ok d
  | DClear => Ok (switch_ivr_dmachine_clear d)
  | DGetMatch => Ok (fst (switch_ivr_dmachine_get_match d))
  | DTarget t => Ok (switch_ivr_dmachine_set_target d t)
  | DMatchCallback c => Ok (switch_ivr_dmachine_set_match_callback d c)
  | DNonmatchCallback c => Ok (switch_ivr_dmachine_set_nonmatch_callback d c)
  | DDigitTimeout ms => Ok (switch_ivr_dmachine_set_digit_timeout_ms d ms)
  | DInputTimeout ms => Ok (switch_ivr_dmachine_set_input_timeout_ms d ms)
  end.
Definition dm_op_ok (o : dm_op) : Prop := match o with DBind _ code _ _ _ => code <> EmptyString | _ => True end.
Fixpoint dm_calls (d : dmachine) (os : list dm_op) : outcome dmachine :=
  match os with [] => Ok d | o :: os => let* d := dm_call d o in dm_calls d os end.

Lemma dm_call_good d o : good d -> dm_op_ok o -> exists d', dm_call d o = Ok d' /\ good d'.
Proof using callback_good.
  intros G O. destruct o; cbn [dm_call].
  - destruct (bind_good d r code key cb data G O) as (d' & s & -> & G'). by eexists.
  - unfold switch_ivr_dmachine_feed. destruct (zstr s); [by eexists|].
    destruct (feed_good (default EmptyString s) d SWITCH_STATUS_SUCCESS false G) as (d' & r & f & -> & G'). by eexists.
  - destruct (ping_good d G) as (d' & s & f & -> & G'). by eexists.
  - eexists. split; [reflexivity|]. unfold switch_ivr_dmachine_set_realm. destruct (binding_hash d !! n) as [h|] eqn:E; [|done].
    pose proof G as [A1 A2 A3 A4 A5 A6 A7]. constructor; rupd; try done. intros k [= <-]. by apply (A6 n).
  - eexists. split; [reflexivity|]. unfold switch_ivr_dmachine_clear_realm. destruct n as [[|c n]|]; [done| |done].
    cbn [fst]. pose proof G as [A1 A2 A3 A4 A5 A6 A7]. destruct (bool_decide _); constructor; rupd; try done; intros m k K;
      apply lookup_delete_Some in K as [_ K]; by apply (A6 m).
  - unfold switch_ivr_dmachine_set_terminators. destruct (realm d) as [h|] eqn:R; [|by eexists].
    destruct (g_realm d G h R) as [hd H]. unfold head_at. rewrite H. eexists. split; [reflexivity|].
    by apply (good_set_head _ _ hd).
  - eexists. split; [reflexivity|by apply good_clear].
  - eexists. split; [reflexivity|]. unfold switch_ivr_dmachine_get_match. destruct (is_match d); [same_core G|done].
  - eexists. split; [reflexivity|same_core G].
  - eexists. split; [reflexivity|same_core G].
  - eexists. split; [reflexivity|same_core G].
  - eexists. split; [reflexivity|same_core G].
  - eexists. split; [reflexivity|same_core G].
Qed.
Lemma dm_calls_good os : forall d, good d -> Forall dm_op_ok os -> exists d', dm_calls d os = Ok d' /\ good d'.
Proof using callback_good.
  induction os as [|o os IH]; intros d G F; [by exists d|]. apply Forall_cons in F as [O F]. cbn [dm_calls].
  destruct (dm_call_good d o G O) as (d1 & -> & G1). by apply IH.
Qed.
End Safe.
End Machine.

(** ** The reference

    Codes that are not regular expressions: nothing begins like what was pressed, or it is
    a code ([EXACT], with its place), or one can still be completed; a code with a longer one
    behind it in the list waits until the caller stops. *)
Definition longer (ds : string) (b : dmachine_binding) : bool :=
  negb (slen (bp_digits b) =? slen ds) && String.prefix ds (bp_digits b).
Fixpoint first_code (ds : string) (l : list dmachine_binding) : option nat :=
  match l with
  | [] => None
  | b :: l => if String.eqb (bp_digits b) ds then Some O else Datatypes.S <$> first_code ds l
  end.
Definition reference_match (l : list dmachine_binding) (ds : string) (timeout : bool) : dm_match_t * option nat :=
  if existsb (fun b => String.prefix ds (bp_digits b)) l then
    match first_code ds l with
    | None => (DM_MATCH_PARTIAL, None)
    | Some i => if negb timeout && existsb (longer ds) (drop (Datatypes.S i) l) then (DM_MATCH_BOTH, None)
                else (DM_MATCH_EXACT, Some i)
    end
  else (DM_MATCH_NEVER, None).

Lemma prefix_refl s : String.prefix s s = true.
Proof. induction s as [|c s IH]; [done|]. cbn. destruct (ascii_dec c c); [exact IH|done]. Qed.
Lemma prefix_full a : forall b, String.prefix a b = true -> slen b = slen a -> b = a.
Proof.
  induction a as [|c a IH]; intros [|d b] P L; cbn in P, L; try done; [pose proof (slen_pos b); lia|].
  destruct (ascii_dec c d) as [->|]; [|done]. by rewrite (IH b P) by lia.
Qed.
Lemma prefix_cases ds b : String.prefix ds (bp_digits b) = true -> bp_digits b = ds \/ longer ds b = true.
Proof.
  intros P. unfold longer. rewrite P. destruct (Z.eqb_spec (slen (bp_digits b)) (slen ds)) as [E|N]; [left; by apply prefix_full|by right].
Qed.
Lemma first_code_prefix ds l i : first_code ds l = Some i -> existsb (fun b => String.prefix ds (bp_digits b)) l = true.
Proof.
  revert i. induction l as [|b l IH]; intros i; [done|]. cbn [first_code existsb].
  destruct (String.eqb_spec (bp_digits b) ds) as [->|N]; [by rewrite prefix_refl|].
  destruct (first_code ds l) as [k|]; [|done]. intros _. rewrite (IH k eq_refl). apply orb_true_r.
Qed.
Lemma no_code_longer ds l : first_code ds l = None -> existsb (fun b => String.prefix ds (bp_digits b)) l = existsb (longer ds) l.
Proof.
  induction l as [|b l IH]; [done|]. cbn [first_code existsb]. destruct (String.eqb_spec (bp_digits b) ds) as [->|N]; [done|].
  destruct (first_code ds l) as [k|]; [done|]. intros _. rewrite IH by done. f_equal.
  destruct (String.prefix ds (bp_digits b)) eqn:P.
  - destruct (prefix_cases ds b P) as [K|K]; [done|by rewrite K].
  - unfold longer. rewrite P. by destruct (negb _).
Qed.

Definition codes (l : list dmachine_binding) : Prop := Forall (fun b => is_regex b = false) l.

Section Loop.
Context (ds : string) (full timeout some_prefix only : bool).
Notation loop := (match_loop ds full timeout false some_prefix only).

(** After the code was found. *)
Lemma loop_after l : forall i m e, codes l -> exact_bp m = Some e ->
  best m = (if is_some (both_bp m) then DM_MATCH_BOTH else DM_MATCH_EXACT) ->
  let m' := loop i l m in
  exact_bp m' = Some e /\ is_some (both_bp m') = is_some (both_bp m) || existsb (longer ds) l /\
  best m' = (if is_some (both_bp m') then DM_MATCH_BOTH else DM_MATCH_EXACT).
Proof using Type.
  induction l as [|b l IH]; intros i m e C E B; [cbn; by rewrite orb_false_r|]. apply Forall_cons in C as [R C].
  cbn [match_loop existsb]. unfold match_one. rewrite R, E. cbn [is_some negb andb].
  replace (negb (is_some (both_bp m) && is_some (partial_bp m)) && negb (slen (bp_digits b) =? slen ds) && String.prefix ds (bp_digits b))
    with (negb (is_some (both_bp m) && is_some (partial_bp m)) && longer ds b) by (unfold longer; by rewrite andb_assoc).
  destruct (negb (is_some (both_bp m) && is_some (partial_bp m)) && longer ds b) eqn:K.
  - apply andb_prop in K as [_ ->]. rewrite orb_true_r. rupd. rewrite E. cbn [is_some andb negb]. rupd. rewrite E. cbn [is_some andb negb].
    destruct (is_some (partial_bp m)); cbn [negb]; [by split_and!|].
    edestruct (IH (Datatypes.S i) (m <| best := DM_MATCH_BOTH |> <| both_bp := Some i |>) e) as (A1 & A2 & A3); [done|done|done|].
    by split_and!.
  - assert (K' : is_some (both_bp m) = true \/ longer ds b = false).
    { apply andb_false_iff in K as [K|K]; [left|by right]. apply negb_false_iff in K. by apply andb_prop in K as [K _]. }
    assert (Or : is_some (both_bp m) || (longer ds b || existsb (longer ds) l) = is_some (both_bp m) || existsb (longer ds) l)
      by (destruct K' as [-> | ->]; done).
    rewrite Or, E. cbn [is_some andb]. rewrite andb_true_r.
    destruct (is_some (both_bp m) && is_some (partial_bp m)) eqn:D; cbn [negb]; [|by apply IH].
    apply andb_prop in D as [D _]. split_and!; [done|by rewrite D|done].
Qed.

End Loop.

Section Before.
Context (ds : string) (full timeout some_prefix only : bool).
Notation loop := (match_loop ds full timeout false some_prefix only).
(** Before it. *)
Lemma loop_before l : forall i m, codes l -> exact_bp m = None -> both_bp m = None ->
  (existsb (fun b => String.prefix ds (bp_digits b)) l = true -> some_prefix = true) ->
  (full = true -> existsb (longer ds) l = false) ->
  let m' := loop i l m in
  match first_code ds l with
  | None => exact_bp m' = None /\ both_bp m' = None /\ best m' = if existsb (longer ds) l then DM_MATCH_PARTIAL else best m
  | Some k => exact_bp m' = Some (i + k)%nat /\ is_some (both_bp m') = existsb (longer ds) (drop (Datatypes.S k) l) /\
      best m' = if is_some (both_bp m') then DM_MATCH_BOTH else DM_MATCH_EXACT
  end.
Proof using Type.
  induction l as [|b l IH]; intros i m C E B SP F; [done|]. apply Forall_cons in C as [R C].
  cbn [match_loop existsb first_code] in *. unfold match_one. rewrite R, E. cbn [is_some negb andb].
  destruct (String.eqb_spec (bp_digits b) ds) as [Q|N].
  - rewrite Q, prefix_refl. replace (some_prefix && true) with true by (rewrite SP by (by rewrite Q, prefix_refl); done). cbn [andb orb]. rewrite Nat.add_0_r. change (drop 1 (b :: l)) with l.
    destruct full.
    + destruct (orb_false_elim _ _ (F eq_refl)) as [_ ->]. rupd. rewrite B. by split_and!.
    + rewrite Z.eqb_refl. cbn [negb andb]. do 2 (rupd; rewrite B; cbn [is_some andb negb]).
      edestruct (loop_after ds false timeout some_prefix only l (Datatypes.S i) (m <| best := DM_MATCH_EXACT |> <| exact_bp := Some i |>) i) as (A1 & A2 & A3);
        [done|done|rupd; by rewrite B|]. split_and!; [exact A1| |exact A3]. rewrite A2. rupd. by rewrite B.
  - rewrite andb_false_r. cbn [andb]. rewrite E, B. cbn [is_some andb negb].
    change (negb (slen (bp_digits b) =? slen ds) && String.prefix ds (bp_digits b)) with (longer ds b).
    assert (SP' : existsb (fun b => String.prefix ds (bp_digits b)) l = true -> some_prefix = true).
    { intros K. apply SP. rewrite K. apply orb_true_r. }
    assert (F' : full = true -> existsb (longer ds) l = false) by (intros K; by destruct (orb_false_elim _ _ (F K))).
    set (m1 := if longer ds b then m <| best := DM_MATCH_PARTIAL |> <| partial_bp := Some i |> else m).
    assert (H1 : exact_bp m1 = None /\ both_bp m1 = None /\ best m1 = if longer ds b then DM_MATCH_PARTIAL else best m)
      by (subst m1; destruct (longer ds b); by split_and!).
    destruct H1 as (E1 & B1 & W1). rewrite B1. cbn [is_some andb negb].
    pose proof (IH (Datatypes.S i) m1 C E1 B1 SP' F') as G. cbv zeta in G. destruct (first_code ds l) as [k|]; cbn [fmap option_fmap option_map].
    + by replace (i + Datatypes.S k)%nat with (Datatypes.S i + k)%nat by lia.
    + destruct G as (A1 & A2 & A3). split_and!; [done|done|]. rewrite A3, W1. destruct (longer ds b), (existsb (longer ds) l); done.
Qed.
End Before.

(** A machine in a realm of codes, without terminators. *)
Record in_codes (d : dmachine) (h : Z) (hd : dm_binding_head) : Prop := mk_in_codes {
  ic_realm : realm d = Some h; ic_head : heads d !! h = Some hd; ic_codes : codes (binding_list hd);
  ic_terminators : zstr (terminators hd) = true; ic_cur : cur_digit_len d = slen (digits d);
  ic_max : Forall (fun b => slen (bp_digits b) <= max_digit_len d) (binding_list hd) }.
Definition matched (d : dmachine) (h : Z) (r : option nat) : dmachine :=
  match r with
  | Some i => d <| last_matching_binding := Some (h, i) |> <| last_matching_digits := digits d |>
  | None => d
  end.

Lemma count_codes regex_match ds l : codes l -> count_one regex_match ds <$> l = l.
Proof.
  induction 1 as [|b l R _ IH]; [done|]. cbn [fmap list_fmap]. unfold count_one at 1. by rewrite R, IH.
Qed.
Lemma codes_regex l : codes l -> existsb is_regex l = false.
Proof. induction 1 as [|b l R _ IH]; [done|]. cbn. by rewrite R. Qed.
Lemma codes_prefix ds l : codes l -> existsb (fun b => negb (is_regex b) && String.prefix ds (bp_digits b)) l =
  existsb (fun b => String.prefix ds (bp_digits b)) l.
Proof. induction 1 as [|b l R _ IH]; [done|]. cbn. by rewrite R, IH. Qed.
Lemma codes_pmatched ds l : codes l -> existsb (pmatched ds) l = existsb (fun b => String.prefix ds (bp_digits b)) l.
Proof. induction 1 as [|b l R _ IH]; [done|]. cbn. unfold pmatched at 1. by rewrite R, IH. Qed.
Lemma put_same d h hd : heads d !! h = Some hd -> set_head d h hd = d.
Proof. intros H. unfold set_head. rewrite insert_id by done. by destruct d. Qed.

Lemma check_match_reference regex_match d h hd t : in_codes d h hd -> digits d <> EmptyString ->
  switch_ivr_dmachine_check_match regex_match d t =
  Ok (matched d h (reference_match (binding_list hd) (digits d) t).2, (reference_match (binding_list hd) (digits d) t).1).
Proof.
  intros [R H C T L M] N. unfold switch_ivr_dmachine_check_match. rewrite R, L.
  assert (Nz : (slen (digits d) =? 0) = false) by (destruct (digits d) as [|a q]; [done|]; cbn [slen]; pose proof (slen_pos q); lia).
  rewrite Nz. unfold head_at. rewrite H. cbv zeta. rewrite count_codes by done.
  assert (T' : cut_terminator (default EmptyString (terminators hd)) (digits d) = None) by (by destruct (terminators hd) as [[|]|]).
  rewrite T'. replace (hd <| binding_list := binding_list hd |>) with hd by (by destruct hd). rewrite put_same by done.
  replace (d <| digits := digits d |>) with d by (by destruct d).
  rewrite codes_regex, codes_prefix, codes_pmatched by done.
  set (l := binding_list hd) in *. set (ds := digits d) in *. remember (existsb (fun b => String.prefix ds (bp_digits b)) l) as P eqn:HP.
  set (m := match_loop _ _ _ _ _ _ _ _ _).
  assert (B : match first_code ds l with
    | None => exact_bp m = None /\ both_bp m = None /\ best m = if existsb (longer ds) l then DM_MATCH_PARTIAL else DM_MATCH_NONE
    | Some k => exact_bp m = Some k /\ is_some (both_bp m) = existsb (longer ds) (drop (Datatypes.S k) l) /\
        best m = if is_some (both_bp m) then DM_MATCH_BOTH else DM_MATCH_EXACT
    end).
  { apply (loop_before ds _ t _ _ l 0 (Matches DM_MATCH_NONE None None None)); [done..|rewrite <- HP; by intros ->|].
    intros F. apply Z.eqb_eq in F. clear -M F L. subst ds. induction M as [|b l Lb _ IH]; [done|]. cbn [existsb]. rewrite IH, orb_false_r.
    unfold longer. destruct (String.prefix (digits d) (bp_digits b)) eqn:K; [|by rewrite andb_false_r].
    assert (G : forall a c, String.prefix a c = true -> slen a <= slen c).
    { clear. induction a as [|x a IH]; intros [|y c] K; cbn in *; try done; [pose proof (slen_pos c); lia|].
      destruct (ascii_dec x y); [|done]. specialize (IH c K). lia. }
    pose proof (G _ _ K). by replace (slen (bp_digits b) =? slen (digits d)) with true by lia. }
  unfold reference_match. fold l. rewrite <- HP. destruct P.
  - destruct (first_code ds l) as [k|] eqn:FC.
    + destruct B as (B1 & B2 & B3). unfold result_bp. rewrite B3, B1. destruct (both_bp m) as [j|]; cbn [is_some] in B2; rewrite <- B2.
      * destruct t; cbn [negb andb fst snd default]; done.
      * by rewrite andb_false_r.
    + destruct B as (B1 & B2 & B3). unfold result_bp. rewrite B3, B1, B2. rewrite no_code_longer in HP by done. rewrite <- HP in *.
      by destruct t.
  - assert (FC : first_code ds l = None).
    { destruct (first_code ds l) as [k|] eqn:FC; [|done]. apply first_code_prefix in FC. congruence. }
    rewrite FC in B. destruct B as (B1 & B2 & B3). unfold result_bp. rupd. rewrite B2. by destruct t.
Qed.

(** ** Pressing a code *)

(** Codes bound before are different, codes bound behind are neither its beginning nor
    begin with it. *)
Definition clear_code (l : list dmachine_binding) (i : nat) (b : dmachine_binding) : Prop :=
  l !! i = Some b /\ bp_digits b <> EmptyString /\
  forall j b', l !! j = Some b' ->
    ((j < i)%nat -> bp_digits b' <> bp_digits b) /\
    ((i < j)%nat -> String.prefix (bp_digits b') (bp_digits b) = false /\ String.prefix (bp_digits b) (bp_digits b') = false).

Lemma prefix_app a s : String.prefix a (a +:+ s) = true.
Proof. induction a as [|c a IH]; [by destruct s|]. rewrite sapp_cons. cbn [String.prefix]. by destruct (ascii_dec c c). Qed.
Lemma existsb_at {A} (f : A -> bool) l i x : l !! i = Some x -> f x = true -> existsb f l = true.
Proof. intros H F. apply existsb_exists. exists x. split; [|done]. apply list_elem_of_In. by eapply list_elem_of_lookup_2. Qed.
Lemma first_code_at ds l k : first_code ds l = Some k -> exists b, l !! k = Some b /\ bp_digits b = ds.
Proof.
  revert k. induction l as [|b l IH]; intros k; [done|]. cbn [first_code]. destruct (String.eqb_spec (bp_digits b) ds) as [E|N].
  - intros [= <-]. by exists b.
  - destruct (first_code ds l) as [j|]; [|done]. intros [= <-]. by apply IH.
Qed.
Lemma first_code_first ds l i b : l !! i = Some b -> bp_digits b = ds -> (forall j b', l !! j = Some b' -> (j < i)%nat -> bp_digits b' <> ds) ->
  first_code ds l = Some i.
Proof.
  revert i. induction l as [|a l IH]; intros i H E F; [done|]. cbn [first_code]. destruct i as [|i].
  - injection H as ->. by rewrite E, String.eqb_refl.
  - rewrite (proj2 (String.eqb_neq _ _)) by (apply (F O a eq_refl); lia).
    rewrite (IH i H E); [done|]. intros j b' K J. apply (F (Datatypes.S j) b' K). lia.
Qed.

Lemma reference_part l i b ds s : clear_code l i b -> bp_digits b = ds +:+ s -> s <> EmptyString ->
  exists m, reference_match l ds false = (m, None) /\ (m = DM_MATCH_PARTIAL \/ m = DM_MATCH_BOTH).
Proof.
  intros (H & _ & C) E N. unfold reference_match. rewrite (existsb_at _ l i b H) by (rewrite E; apply prefix_app).
  destruct (first_code ds l) as [k|] eqn:F; [|eexists; split; [reflexivity|by left]].
  apply first_code_at in F as (b' & K & Kd). destruct (C k b' K) as [_ C2].
  assert (Ls : 0 < slen s) by (destruct s as [|x s]; [done|]; cbn [slen]; pose proof (slen_pos s); lia).
  assert (L : slen (bp_digits b) = slen ds + slen s) by (rewrite E; apply slen_sapp).
  assert (Lt : (k < i)%nat).
  { destruct (decide (i < k)%nat) as [G|G]; [destruct (C2 G) as [P _]; by rewrite Kd, E, prefix_app in P|].
    destruct (decide (i = k)) as [->|]; [|lia]. rewrite H in K. injection K as <-. rewrite Kd in L. lia. }
  rewrite (existsb_at _ (drop (Datatypes.S k) l) (i - Datatypes.S k) b); [eexists; split; [reflexivity|by right]| |].
  - rewrite lookup_drop. by replace (Datatypes.S k + (i - Datatypes.S k))%nat with i by lia.
  - unfold longer. rewrite E, prefix_app, slen_sapp. by replace (slen ds + slen s =? slen ds) with false by lia.
Qed.
Lemma reference_whole l i b : clear_code l i b -> reference_match l (bp_digits b) false = (DM_MATCH_EXACT, Some i).
Proof.
  intros (H & _ & C). unfold reference_match. rewrite (existsb_at _ l i b H) by apply prefix_refl.
  rewrite (first_code_first _ l i b H eq_refl) by (intros j b' K J; by apply (C j b' K)).
  destruct (existsb _ (drop _ l)) eqn:X; [|done]. apply existsb_exists in X as (b' & I & Lo).
  apply list_elem_of_In, list_elem_of_lookup in I as [j J]. rewrite lookup_drop in J.
  destruct (C _ _ J) as [_ C2]. destruct C2 as [_ P]; [lia|]. unfold longer in Lo. rewrite P, andb_false_r in Lo. done.
Qed.

Section Press.
Context (regex_match : string -> string -> bool) (time : nat -> Z) (free : nat -> bool).
Context (run_callback : Z -> dmachine -> outcome (dmachine * switch_status)).
Notation ping := (switch_ivr_dmachine_ping regex_match time free run_callback).
(** Nobody holds the mutex for longer, callbacks leave the machine alone, the clock runs, and
    digits are looked at in time. *)
Context (h : Z) (hd : dm_binding_head) (digit_timeout : Z).
Hypothesis is_free : forall n, free n = true.
Hypothesis quiet : forall f d, run_callback f d = Ok (d, SWITCH_STATUS_SUCCESS).
Hypothesis running : forall n, 0 < time n.
Hypothesis prompt : forall n, (digit_timeout =? 0) || (u32 (Z.quot (time (Datatypes.S n) - time n) 1000) <=? digit_timeout) = true.

Record ready (d : dmachine) : Prop := mk_ready {
  r_codes : in_codes d h hd; r_max : max_digit_len d < DMACHINE_MAX_DIGIT_LEN;
  r_ping : pinging d = false; r_timeout : digit_timeout_ms d = digit_timeout }.
Lemma ready_same d d' : ready d -> realm d' = realm d -> heads d' = heads d -> cur_digit_len d' = slen (digits d') ->
  max_digit_len d' = max_digit_len d -> pinging d' = pinging d -> digit_timeout_ms d' = digit_timeout_ms d -> ready d'.
Proof using Type.
  intros [[R H C T L M] X P D] E1 E2 E3 E4 E5 E6. constructor; [constructor|..]; rewrite ?E1, ?E2, ?E4, ?E5, ?E6; done.
Qed.

(** No timeout when the last digit was put in at the last reading of the clock. *)
Lemma in_time d n : digit_timeout_ms d = digit_timeout -> cur_digit_len d <> 0 -> ticks d = Datatypes.S n -> last_digit_time d = time n ->
  switch_ivr_dmachine_check_timeout time d = (d <| ticks := Datatypes.S (ticks d) |>, false).
Proof using running prompt.
  intros T C K L. unfold switch_ivr_dmachine_check_timeout, read_time. rupd. rewrite L.
  pose proof (running n). pose proof (prompt n) as P. replace (time n =? 0) with false by lia. rupd.
  replace (cur_digit_len d =? 0) with false by lia. rewrite L, K, T. f_equal.
  destruct (digit_timeout =? 0); cbn [negb orb andb] in *; [done|lia].
Qed.

(** What a look does where the comparison gives [m]. *)
Lemma look d d1 d2 m : switch_ivr_dmachine_check_timeout time d = (d1, false) ->
  switch_ivr_dmachine_check_match regex_match d1 false = Ok (d2, m) -> m <> DM_MATCH_NEVER -> pinging d2 = false ->
  ping d =
  (let* (d, s, found, clear) := ping_status run_callback
     (d2 <| ticks := Datatypes.S (ticks d2) |> <| locks := locks d2 + 1 |> <| pinging := true |>) m false in
   let* (d, s, clear) := (if fails s then let* (d, s) := report_failure run_callback d s in Ok (d, s, true) else Ok (d, s, clear)) in
   let d := if clear : bool then switch_ivr_dmachine_clear d else d in
   Ok (d <| last_return := s |> <| pinging := false |> <| locks := locks d - 1 |>, s, found)).
Proof using is_free.
  intros E1 E2 N P. unfold switch_ivr_dmachine_ping. rewrite E1, E2. rewrite (bool_decide_eq_false_2 _ N), orb_false_r.
  cbv zeta. rupd. rewrite is_free, orb_true_r. cbn [negb]. by rewrite P.
Qed.

Lemma append_codes d c : ready d -> cur_digit_len d < max_digit_len d ->
  exists d', append_digit d c = Ok d' /\ ready d' /\ digits d' = digits d +:+ String c EmptyString /\ max_digit_len d' = max_digit_len d /\ ticks d' = ticks d.
Proof using Type.
  intros R L. pose proof R as [[_ _ _ _ C _] X _ _]. pose proof (slen_pos (digits d)). unfold append_digit, DMACHINE_MAX_DIGIT_LEN in *.
  replace (slen (digits d) + 1 <? 512) with true by lia. eexists. split; [reflexivity|]. split_and!; [|done..].
  apply (ready_same d); try done. rupd. rewrite slen_sapp, u32_small by lia. cbn [slen]. lia.
Qed.

(** A digit is put in and looked at: [m] and [r] are the answer of the reference. *)
Lemma press d c s f m r : ready d -> cur_digit_len d < max_digit_len d ->
  let ds := digits d +:+ String c EmptyString in
  reference_match (binding_list hd) ds false = (m, r) -> m <> DM_MATCH_NEVER ->
  exists d', ready d' /\ digits d' = ds /\ cur_digit_len d' = slen ds /\ max_digit_len d' = max_digit_len d /\
    feed_loop regex_match time free run_callback (String c s) d SWITCH_STATUS_SUCCESS f =
    (let d2 := matched d' h r in
     let* (d, s', found, clear) := ping_status run_callback
       (d2 <| ticks := Datatypes.S (ticks d2) |> <| locks := locks d2 + 1 |> <| pinging := true |>) m false in
     let* (d, s', clear) := (if fails s' then let* (d, s') := report_failure run_callback d s' in Ok (d, s', true) else Ok (d, s', clear)) in
     let d := if clear : bool then switch_ivr_dmachine_clear d else d in
     feed_loop regex_match time free run_callback s (d <| last_return := s' |> <| pinging := false |> <| locks := locks d - 1 |>)
       s' (f || found)).
Proof using is_free running prompt.
  intros R L ds M W. cbn [feed_loop]. replace (cur_digit_len d <? max_digit_len d) with true by lia.
  destruct (append_codes d c R L) as (d1 & -> & R1 & D1 & M1 & K1). cbn [read_time]. cbv zeta.
  set (d2 := d1 <| ticks := Datatypes.S (ticks d1) |> <| last_digit_time := time (ticks d1) |>).
  assert (R2 : ready d2) by (apply (ready_same d1); try done; by destruct R1 as [[]]).
  assert (Ds : ds <> EmptyString) by (subst ds; by destruct (digits d)).
  assert (C2 : cur_digit_len d2 = slen ds).
  { destruct R2 as [[_ _ _ _ C _] _ _ _]. rewrite C. change (digits d2) with (digits d1). by rewrite D1. }
  assert (Nz : slen ds <> 0) by (subst ds; rewrite slen_sapp; cbn [slen]; pose proof (slen_pos (digits d)); lia).
  rewrite bool_decide_eq_true_2 by done.
  pose proof (in_time d2 (ticks d1) (r_timeout d2 R2) ltac:(by rewrite C2) eq_refl eq_refl) as T.
  set (d3 := d2 <| ticks := Datatypes.S (ticks d2) |>) in T.
  assert (R3 : ready d3) by (apply (ready_same d2); try done; by destruct R2 as [[]]).
  assert (D3 : digits d3 = ds) by exact D1.
  pose proof (check_match_reference regex_match d3 h hd false (r_codes d3 R3)) as Q. rewrite D3, M in Q. cbn [fst snd] in Q.
  exists d3. split_and!; [done|done|exact C2|exact M1|].
  rewrite (look d2 d3 (matched d3 h r) m T (Q Ds) W) by (by destruct r; [exact (r_ping d3 R3)..]).
  destruct (ping_status _ _ _ _) as [[[[d4 s4] f4] c4]| |]; [|done..].
  destruct (fails s4); [|done]. by destruct (report_failure _ _ _) as [[? ?]| |].
Qed.

(** One digit of a code that is not the last. *)
Lemma press_part d c s f m : ready d -> cur_digit_len d < max_digit_len d ->
  let ds := digits d +:+ String c EmptyString in
  reference_match (binding_list hd) ds false = (m, None) -> m = DM_MATCH_PARTIAL \/ m = DM_MATCH_BOTH ->
  exists d', feed_loop regex_match time free run_callback (String c s) d SWITCH_STATUS_SUCCESS f =
    feed_loop regex_match time free run_callback s d' SWITCH_STATUS_SUCCESS f /\
    ready d' /\ digits d' = ds /\ max_digit_len d' = max_digit_len d.
Proof using is_free running prompt.
  intros R L ds M W. destruct (press d c s f m None R L M) as (d3 & R3 & D3 & C3 & M3 & ->); [by destruct W as [-> | ->]|].
  fold ds in D3, C3. cbn [matched]. cbv zeta. unfold ping_status. rupd. rewrite D3.
  assert (Z0 : zstr (Some ds) = false) by (subst ds; by destruct (digits d)). rewrite Z0. cbn [andb negb].
  assert (L3 : slen ds <= max_digit_len d3).
  { rewrite M3. subst ds. rewrite slen_sapp. cbn [slen]. destruct R as [[_ _ _ _ C _] _ _ _]. lia. }
  rewrite C3. replace (max_digit_len d3 <? slen ds) with false by lia.
  assert (B : bool_decide (m = DM_MATCH_EXACT) || bool_decide (m = DM_MATCH_BOTH) && false = false)
    by (by destruct W as [-> | ->]).
  rewrite B. assert (B' : bool_decide (m = DM_MATCH_NONE) = false) by (by destruct W as [-> | ->]). rewrite B'. cbn [andb fails].
  eexists. split; [rewrite orb_false_r; reflexivity|]. split_and!; [|exact D3|exact M3].
  apply (ready_same d3); try done; [rupd; by rewrite C3, D3|]. rupd. by rewrite (r_ping d3 R3).
Qed.

(** What is known after a code was found. *)
Record found (d : dmachine) (b : dmachine_binding) : Prop := mk_found {
  f_ready : ready d; f_key : match_key (dm_match d) = bp_key b; f_type : match_type (dm_match d) = DM_MATCH_POSITIVE;
  f_which : match_digits (dm_match d) = Some LastMatching; f_digits : last_matching_digits d = bp_digits b;
  f_match : is_match d = true; f_cleared : digits d = EmptyString; f_return : last_return d = SWITCH_STATUS_FOUND }.
(** Reporting calls the callbacks, which change nothing. *)
Lemma call_quiet cb d r : call_back run_callback cb d r = Ok (d, r).
Proof using quiet. destruct cb as [g|]; [|done]. unfold call_back. by rewrite quiet. Qed.
Lemma own_quiet get d r : exists x, call_own run_callback get d r = Ok (d <| dm_match := dm_match d <| match_data := x |> |>, r).
Proof using quiet.
  unfold call_own. destruct (get d); [exists (dm_user_data d); by rewrite call_quiet|].
  exists (match_data (dm_match d)). destruct d as [? ? ? ? [] ? ? ? ? ? ? ? ? ? ? ? ? ? ? ? ? ?]. reflexivity.
Qed.
Lemma report_quiet d i b : last_matching_binding d = Some (h, i) -> heads d !! h = Some hd -> binding_list hd !! i = Some b ->
  exists x, report_match run_callback d =
    Ok (d <| dm_match := Match (Some LastMatching) (bp_key b) DM_MATCH_POSITIVE x |> <| is_match := true |>, SWITCH_STATUS_FOUND).
Proof using quiet.
  intros L H B. unfold report_match, binding_at, head_at. rewrite L, H, B. cbv zeta. rewrite call_quiet.
  match goal with |- context [call_own _ _ ?y _] => destruct (own_quiet match_callback y SWITCH_STATUS_FOUND) as [x ->] end.
  exists x. by destruct d.
Qed.
(** A code was matched and is about to be reported. *)
Record pending (d : dmachine) (b : dmachine_binding) : Prop := mk_pending {
  p_realm : realm d = Some h; p_head : heads d !! h = Some hd;
  p_max : Forall (fun b => slen (bp_digits b) <= max_digit_len d) (binding_list hd);
  p_len : max_digit_len d < DMACHINE_MAX_DIGIT_LEN; p_timeout : digit_timeout_ms d = digit_timeout;
  p_digits : last_matching_digits d = bp_digits b }.
Lemma pending_same d d' b : pending d b -> realm d' = realm d -> heads d' = heads d -> max_digit_len d' = max_digit_len d ->
  digit_timeout_ms d' = digit_timeout_ms d -> last_matching_digits d' = last_matching_digits d -> pending d' b.
Proof using Type.
  intros [P1 P2 P3 P4 P5 P6] E1 E2 E3 E4 E5. constructor; by rewrite ?E1, ?E2, ?E3, ?E4, ?E5.
Qed.
Lemma pending_found d b x : codes (binding_list hd) -> zstr (terminators hd) = true -> pending d b ->
  dm_match d = Match (Some LastMatching) (bp_key b) DM_MATCH_POSITIVE x -> is_match d = true ->
  found (switch_ivr_dmachine_clear d <| last_return := SWITCH_STATUS_FOUND |> <| pinging := false |>
           <| locks := locks (switch_ivr_dmachine_clear d) - 1 |>) b.
Proof using Type.
  intros C T [P1 P2 P3 P4 P5 P6] M I. unfold switch_ivr_dmachine_clear.
  constructor; [constructor; [constructor|..]|..]; rupd; try done; by rewrite M.
Qed.
Lemma press_last d c f i b : ready d -> cur_digit_len d < max_digit_len d -> binding_list hd !! i = Some b ->
  bp_digits b = digits d +:+ String c EmptyString ->
  reference_match (binding_list hd) (bp_digits b) false = (DM_MATCH_EXACT, Some i) ->
  exists d', feed_loop regex_match time free run_callback (String c EmptyString) d SWITCH_STATUS_SUCCESS f =
    Ok (d', SWITCH_STATUS_FOUND, true) /\ found d' b.
Proof using is_free running prompt quiet.
  intros R L H E M. rewrite E in M. destruct (press d c EmptyString f _ _ R L M) as (d3 & R3 & D3 & C3 & M3 & ->); [done|].
  rewrite <- E in D3, C3. cbn [matched]. cbv zeta.
  assert (L3 : slen (bp_digits b) <= max_digit_len d3).
  { rewrite M3, E, slen_sapp. cbn [slen]. destruct R as [[_ _ _ _ C _] _ _ _]. lia. }
  destruct R3 as [[A1 A2 A3 A4 _ A6] A7 _ A9].
  set (d4 := d3 <| last_matching_binding := Some (h, i) |> <| last_matching_digits := digits d3 |>).
  assert (P4 : pending d4 b) by by constructor.
  set (d5 := d4 <| ticks := Datatypes.S (ticks d4) |> <| locks := locks d4 + 1 |> <| pinging := true |>).
  assert (P5 : pending d5 b) by by apply (pending_same d4).
  assert (S5 : digits d5 = bp_digits b /\ cur_digit_len d5 = slen (bp_digits b) /\ max_digit_len d5 = max_digit_len d3 /\
    last_matching_binding d5 = Some (h, i)) by by split_and!.
  destruct S5 as (S1 & S2 & S3 & S4). clearbody d5. clear d4 P4. unfold ping_status. rewrite S1, S2, S3.
  assert (Z0 : zstr (Some (bp_digits b)) = false) by (rewrite E; by destruct (digits d)). rewrite Z0. cbn [andb negb].
  replace (max_digit_len d3 <? slen (bp_digits b)) with false by lia. rewrite bool_decide_eq_true_2 by done. cbn [orb].
  destruct (report_quiet d5 i b S4 (p_head _ _ P5) H) as [x ->]. cbn [fails feed_loop]. rewrite orb_true_r.
  eexists. split; [reflexivity|]. by apply (pending_found _ b x); [..|apply (pending_same d5)| |].
Qed.

Lemma press_all i b s : clear_code (binding_list hd) i b -> forall d f, ready d -> bp_digits b = digits d +:+ s -> s <> EmptyString ->
  exists d', feed_loop regex_match time free run_callback s d SWITCH_STATUS_SUCCESS f = Ok (d', SWITCH_STATUS_FOUND, true) /\ found d' b.
Proof using is_free running prompt quiet.
  intros C. pose proof C as (H & _). induction s as [|c s IH]; intros d f R E N; [done|].
  assert (L : cur_digit_len d < max_digit_len d).
  { destruct R as [[_ _ _ _ Cu M] _ _ _]. apply (Forall_lookup_1 _ _ _ _ M) in H. rewrite E, slen_sapp in H. cbn [slen] in H.
    pose proof (slen_pos s). lia. }
  assert (A : bp_digits b = (digits d +:+ String c EmptyString) +:+ s) by (by rewrite E, sapp_assoc, sapp_cons, sapp_empty).
  destruct s as [|c' s].
  - rewrite sapp_nil in A. apply (press_last d c f i b R L H A). by apply reference_whole.
  - destruct (reference_part _ i b _ (String c' s) C A) as (m & M & W); [done|].
    destruct (press_part d c (String c' s) f m R L M W) as (d' & -> & R' & D' & _). apply IH; [done|by rewrite D'|done].
Qed.
End Press.

(** ** Theorems *)

(** C16. Whatever is bound, fed, looked at and set, in whatever order, from a new machine on: no write
    leaves the buffers of digits, no pointer to a realm or a binding dangles, and the machine stays
    within its invariant ([good]).  The clock, the verdicts of the trylock and of regular expressions are
    arbitrary; callbacks may change the machine as long as they keep the invariant; codes
    are not empty. *)
Theorem dmachine_safe regex_match time free run_callback dt it on_match on_nonmatch data os :
  (forall f d, good d -> exists d' s, run_callback f d = Ok (d', s) /\ good d') -> Forall dm_op_ok os ->
  exists d', dm_calls regex_match time free run_callback (switch_ivr_dmachine_create dt it on_match on_nonmatch data) os = Ok d' /\
    good d'.
Proof. intros C F. by apply dm_calls_good; [|apply dm_create_good|]. Qed.

(** In a realm of codes without terminators, comparing the digits (two passes over the bindings that keep three
    pointers) answers what the reference says: [NEVER] where no code begins like the digits, [PARTIAL] where one
    can still be completed, [EXACT] with the first binding of the code, [BOTH] where the code is bound and a longer
    one behind it, which counts as [EXACT] at a timeout; and nothing but the last match is changed. *)
Theorem dmachine_match_exact regex_match d h hd t : in_codes d h hd -> digits d <> EmptyString ->
  switch_ivr_dmachine_check_match regex_match d t =
  Ok (matched d h (reference_match (binding_list hd) (digits d) t).2, (reference_match (binding_list hd) (digits d) t).1).
Proof. apply check_match_reference. Qed.

(** C17. Pressing a bound code is recognised: every digit of it is taken, the last one reports a match with the key of
    the binding and the digits pressed, the digits are cleared and the machine is ready for the next
    code.  Under these conditions: the codes of the realm are plain (no regular expressions) and it has no terminators
    (see [terminator_refused]); the code is bound without ambiguity ([clear_code]: different from the codes bound before, neither beginning like nor being the
    beginning of one bound later; see [longer_first_unreachable]); the machine has no digits yet; nobody else holds its mutex;
    callbacks succeed and leave it alone; and the clock stays within the digit timeout between digits. *)
Theorem dmachine_recognises regex_match time free run_callback h hd dt d i b :
  (forall n, free n = true) -> (forall f d, run_callback f d = Ok (d, SWITCH_STATUS_SUCCESS)) -> (forall n, 0 < time n) ->
  (forall n, (dt =? 0) || (u32 (Z.quot (time (Datatypes.S n) - time n) 1000) <=? dt) = true) ->
  ready h hd dt d -> digits d = EmptyString -> clear_code (binding_list hd) i b ->
  exists d', switch_ivr_dmachine_feed regex_match time free run_callback d (Some (bp_digits b)) = Ok (d', SWITCH_STATUS_FOUND, true) /\
    found h hd dt d' b.
Proof.
  intros F Q T P R E C. unfold switch_ivr_dmachine_feed. pose proof C as (_ & N & _).
  assert (Z : zstr (Some (bp_digits b)) = false) by (by destruct (bp_digits b)). rewrite Z. cbn [default].
  apply (press_all regex_match time free run_callback h hd dt F Q T P i b); [done|done|by rewrite E|done].
Qed.

(** ** Witnesses *)

Definition w_time (n : nat) : Z := 1000000 + Z.of_nat n.
Definition w_new : dmachine := switch_ivr_dmachine_create 500 2000 (Some 1) None 7.
Definition w_quiet (f : Z) (d : dmachine) : outcome (dmachine * switch_status) := Ok (d, SWITCH_STATUS_SUCCESS).
(** A callback that clears the machine, as applications do. *)
Definition w_clearing (f : Z) (d : dmachine) : outcome (dmachine * switch_status) :=
  Ok (switch_ivr_dmachine_clear d, SWITCH_STATUS_CONTINUE).
Definition w_codes : list dm_op :=
  [DBind None "1" 10 (Some 2) 0; DBind None "21" 20 None 0; DBind (Some "menu"%string) "~^9" 30 None 0].
Lemma dmachine_safe_witness :
  exists d', dm_calls (fun _ _ => false) w_time (fun _ => true) w_clearing (switch_ivr_dmachine_create 500 2000 (Some 1) None 7)
    (w_codes ++ [DFeed (Some "2112"%string); DPing; DClearRealm (Some "default"%string); DFeed (Some "21"%string)]) = Ok d' /\ good d'.
Proof.
  apply (dmachine_safe (fun _ _ => false) w_time (fun _ => true) w_clearing 500 2000 (Some 1) None 7).
  - intros f d G. exists (switch_ivr_dmachine_clear d), SWITCH_STATUS_CONTINUE. split; [reflexivity|by apply good_clear].
  - repeat constructor; discriminate.
Defined.

Definition w_head : dm_binding_head :=
  Head [Binding "1" 10 0 (Some 2) false 0; Binding "21" 20 0 None false 0; Binding "215" 30 0 None false 0; Binding "3" 40 0 None false 0]
    "default" None.
Definition w_bound (ds : string) : dmachine :=
  DMachine 500 2000 {[ "default"%string := 1 ]} {[ 1 := w_head ]} (Match None 0 DM_MATCH_POSITIVE 0) DIGIT_TARGET_SELF ds EmptyString
    EmptyString (slen ds) 3 0 false (Some 1) None (Some 1) None 7 SWITCH_STATUS_SUCCESS false 0 0.
Lemma dmachine_match_exact_witness :
  in_codes (w_bound "21") 1 w_head /\
  switch_ivr_dmachine_check_match (fun _ _ => false) (w_bound "21") true = Ok (matched (w_bound "21") 1 (Some 1%nat), DM_MATCH_EXACT).
Proof.
  assert (C : in_codes (w_bound "21") 1 w_head) by (constructor; [reflexivity|reflexivity|repeat constructor|reflexivity|reflexivity|repeat constructor; discriminate]).
  split; [exact C|]. apply (dmachine_match_exact (fun _ _ => false) (w_bound "21") 1 w_head true C). discriminate.
Defined.

Lemma w_ready : ready 1 w_head 500 (w_bound EmptyString).
Proof. constructor; [constructor|..]; try reflexivity; repeat constructor; discriminate. Qed.
Lemma w_clear : clear_code (binding_list w_head) 3 (Binding "3" 40 0 None false 0).
Proof.
  split_and!; [reflexivity|discriminate|]. intros [|[|[|[|j]]]] b'; [intros [= <-]..|done]; split; intros ?; (lia || discriminate).
Qed.
Lemma dmachine_recognises_witness :
  exists d', switch_ivr_dmachine_feed (fun _ _ => false) w_time (fun _ => true) w_quiet (w_bound EmptyString) (Some "3"%string) =
    Ok (d', SWITCH_STATUS_FOUND, true) /\ found 1 w_head 500 d' (Binding "3" 40 0 None false 0).
Proof.
  apply (dmachine_recognises (fun _ _ => false) w_time (fun _ => true) w_quiet 1 w_head 500 (w_bound EmptyString) 3
    (Binding "3" 40 0 None false 0)).
  - reflexivity.
  - reflexivity.
  - intros n. unfold w_time. lia.
  - intros n. unfold w_time. replace (1000000 + Z.of_nat (Datatypes.S n) - (1000000 + Z.of_nat n)) with 1 by lia. reflexivity.
  - exact w_ready.
  - reflexivity.
  - exact w_clear.
Defined.

(** ** What the code does not do *)

(** Binds, sets the terminators and feeds. *)
Definition w_run (regex_match : string -> string -> bool) (cb : Z -> dmachine -> outcome (dmachine * switch_status))
    (binds : list dm_op) (fed : list string) : outcome (dmachine * switch_status) :=
  let* d := dm_calls regex_match w_time (fun _ => true) cb w_new binds in
  (fix go l d s := match l with
                   | [] => Ok (d, s)
                   | x :: l => let* (d, s, _) := switch_ivr_dmachine_feed regex_match w_time (fun _ => true) cb d (Some x) in go l d s
                   end) fed d SWITCH_STATUS_SUCCESS.
Definition w_bind (c : string) (key : Z) : dm_op := DBind None c key None 0.
Definition w_answer (r : outcome (dmachine * switch_status)) : option (switch_status * Z) :=
  match r with Ok (d, s) => Some (s, match_key (dm_match d)) | _ => None end.

(** A code bound before one that it begins with is never found: the shorter one is reported
    at the first digit, although the other order waits for the second. *)
Lemma longer_first_unreachable :
  w_answer (w_run (fun _ _ => false) w_quiet [w_bind "12" 12; w_bind "1" 1] ["1"%string]) = Some (SWITCH_STATUS_FOUND, 1) /\
  w_answer (w_run (fun _ _ => false) w_quiet [w_bind "1" 1; w_bind "12" 12] ["12"%string]) = Some (SWITCH_STATUS_FOUND, 12).
Proof. by vm_compute. Qed.

(** Codes are counted before the terminator is cut off, so none begins like the digits: a
    code that is finished with the terminator is refused, but for one with a code two digits longer. *)
Lemma terminator_refused :
  w_answer (w_run (fun _ _ => false) w_quiet [w_bind "12" 12; w_bind "123" 123; DTerminators (Some "#"%string)] ["12#"%string])
    = Some (SWITCH_STATUS_TIMEOUT, 0) /\
  w_answer (w_run (fun _ _ => false) w_quiet [w_bind "12" 12; w_bind "1234" 123; DTerminators (Some "#"%string)] ["12#"%string])
    = Some (SWITCH_STATUS_FOUND, 12).
Proof. by vm_compute. Qed.

(** The first character is not compared where a regular expression is bound: the binding of
    another code replaces its callback. *)
Lemma bind_replaces_regex :
  (let* d := dm_calls (fun _ _ => false) w_time (fun _ => true) w_quiet w_new [DBind None "~55" 1 (Some 2) 3; DBind None "*55" 4 (Some 5) 6] in
   Ok (match heads d !! 0 with Some hd => binding_list hd | None => [] end, heads d))
  = Ok ([Binding "55" 1 0 (Some 5) true 6], {[ 0 := Head [Binding "55" 1 0 (Some 5) true 6] "default" None ]}).
Proof. by vm_compute. Qed.

(** The counts of matches have eight bits: a regular expression that matched at 256 looks counts as one that did not. *)
Lemma regex_count_wraps ds b : is_regex b = true -> rmatch b = 255 -> rmatch (count_one (fun _ _ => true) ds b) = 0.
Proof. intros R M. unfold count_one. rewrite R. rupd. by rewrite M. Qed.

(** A look inside a callback keeps the mutex that it took, for good. *)
Definition w_looking (f : Z) (d : dmachine) : outcome (dmachine * switch_status) :=
  let* (d, s, _) := switch_ivr_dmachine_ping (fun _ _ => false) w_time (fun _ => true) w_quiet d in Ok (d, SWITCH_STATUS_SUCCESS).
Lemma look_inside_keeps_mutex :
  (let* (d, s) := w_run (fun _ _ => false) w_looking [w_bind "1" 1] ["1"%string] in Ok (s, locks d)) = Ok (SWITCH_STATUS_FOUND, 1).
Proof. by vm_compute. Qed.
