(* ===== verification/Utf8.v ===== *)
(** * UTF-8 (src/switch_utf8.c, include/switch_utf8.h)

    Conversion between bytes and code points, positions in texts, escapes.  A text
    is the memory from its first byte on, with its terminator and what follows up
    to the end of its block; reads and writes outside the block are [UB].  Plain
    [char] is unsigned on the ARM target. *)
From S2P Require Import Prelude Bytes.
Open Scope Z_scope.
#[local] Notation length := List.length (only parsing).

(** [s[i]] and [s[i] = v]. *)
Definition rd (s : list Z) (i : Z) : outcome Z :=
  if 0 <=? i then match s !! Z.to_nat i with Some b => Ok b | None => UB end else UB.
Definition wr (s : list Z) (i v : Z) : outcome (list Z) :=
  if (0 <=? i) && (i <? zlen s) then Ok (<[Z.to_nat i := v]> s) else UB.
Fixpoint wrs (s : list Z) (i : Z) (vs : list Z) : outcome (list Z) :=
  match vs with
  | [] => Ok s
  | v :: vs => let* s := wr s i v in wrs s (i + 1) vs
  end.

Definition isutf (c : Z) : bool := negb (Z.land c 192 =? 128).

Definition offsetsFromUTF8 : list Z := [0; 12416; 925824; 63447168; 4194836608; 2181570688].
Definition trailingBytesForUTF8 (c : Z) : Z :=
  if c <? 192 then 0 else if c <? 224 then 1 else if c <? 240 then 2 else if c <? 248 then 3 else if c <? 252 then 4 else 5.

Definition switch_u8_seqlen (s : list Z) : outcome Z := let* b := rd s 0 in Ok (trailingBytesForUTF8 b + 1).

(** ** Conversion *)

(** The cases of the [switch], which fall through: [nb] more bytes follow the one
    at [p].  The last byte is not shifted. *)
Fixpoint gather (nb : nat) (src : list Z) (p ch : Z) : outcome (Z * Z) :=
  let* b := rd src p in
  let ch := u32 (ch + b) in
  match nb with
  | O => Ok (ch, p + 1)
  | S nb => gather nb src (p + 1) (u32 (Z.shiftl ch 6))
  end.
Definition toucs_char (nb : Z) (src : list Z) (p : Z) : outcome (Z * Z) :=
  if nb <=? 3 then gather (Z.to_nat nb) src p 0 else Ok (0, p).

(** [n] turns are left until [i] is [sz - 1]. *)
Fixpoint toucs_loop (n : nat) (dest src : list Z) (srcsz p i : Z) : outcome (list Z * Z) :=
  match n with
  | O => Ok (dest, i)
  | S n =>
    let* b := rd src p in
    let nb := trailingBytesForUTF8 b in
    if (if srcsz =? -1 then b =? 0 else srcsz <=? p + nb) then Ok (dest, i)
    else
      let* (ch, p) := toucs_char nb src p in
      match offsetsFromUTF8 !! Z.to_nat nb with
      | Some o => let* dest := wr dest i (u32 (ch - o)) in toucs_loop n dest src srcsz p (i + 1)
      | None => UB
      end
  end.
Definition switch_u8_toucs (dest : list Z) (sz : Z) (src : list Z) (srcsz : Z) : outcome (list Z * Z) :=
  let* (dest, i) := toucs_loop (Z.to_nat (sz - 1)) dest src srcsz 0 0 in
  let* dest := wr dest i 0 in Ok (dest, i).

(** The bytes of a code point; none for what is not one. *)
Definition utf8_bytes (ch : Z) : list Z :=
  if ch <? 128 then [ch]
  else if ch <? 2048 then [Z.lor (Z.shiftr ch 6) 192; Z.lor (Z.land ch 63) 128]
  else if ch <? 65536 then
    [Z.lor (Z.shiftr ch 12) 224; Z.lor (Z.land (Z.shiftr ch 6) 63) 128; Z.lor (Z.land ch 63) 128]
  else if ch <? 1114112 then
    [Z.lor (Z.shiftr ch 18) 240; Z.lor (Z.land (Z.shiftr ch 12) 63) 128; Z.lor (Z.land (Z.shiftr ch 6) 63) 128;
     Z.lor (Z.land ch 63) 128]
  else [].
(** What is stored in [dest], and how many bytes. *)
Definition switch_u8_wc_toutf8 (ch : Z) : list Z * Z := (utf8_bytes ch, zlen (utf8_bytes ch)).

(** [d] is how far [dest] is; [n] bounds the turns. *)
Fixpoint toutf8_loop (n : nat) (dest : list Z) (sz d : Z) (src : list Z) (srcsz i : Z) : outcome (list Z * Z) :=
  match n with
  | O => UB
  | S n =>
    let finish := if d <? sz then let* dest := wr dest d 0 in Ok (dest, i) else Ok (dest, i) in
    let turn :=
      let* ch := rd src i in
      if sz - d <? zlen (utf8_bytes ch) then Ok (dest, i)
      else
        let* dest := wrs dest d (utf8_bytes ch) in
        toutf8_loop n dest sz (d + zlen (utf8_bytes ch)) src srcsz (i + 1) in
    if srcsz <? 0 then let* ch := rd src i in if ch =? 0 then finish else turn
    else if i <? srcsz then turn else finish
  end.
Definition switch_u8_toutf8 (dest : list Z) (sz : Z) (src : list Z) (srcsz : Z) : outcome (list Z * Z) :=
  toutf8_loop (S (length src)) dest sz 0 src srcsz 0.

(** ** Positions *)

(** [isutf(s[++i]) || isutf(s[++i]) || isutf(s[++i]) || ++i], and backwards. *)
Definition skip (step : Z) (s : list Z) (i : Z) : outcome Z :=
  let* b := rd s (i + step) in
  if isutf b then Ok (i + step)
  else
    let* b := rd s (i + 2 * step) in
    if isutf b then Ok (i + 2 * step)
    else
      let* b := rd s (i + 3 * step) in
      if isutf b then Ok (i + 3 * step) else Ok (i + 4 * step).
Definition switch_u8_inc (s : list Z) (i : Z) : outcome Z := skip 1 s i.
Definition switch_u8_dec (s : list Z) (i : Z) : outcome Z := skip (-1) s i.

Fixpoint offset_loop (charnum : nat) (str : list Z) (offs : Z) : outcome Z :=
  match charnum with
  | O => Ok offs
  | S charnum =>
    let* b := rd str offs in
    if b =? 0 then Ok offs else let* offs := skip 1 str offs in offset_loop charnum str offs
  end.
Definition switch_u8_offset (str : list Z) (charnum : Z) : outcome Z := offset_loop (Z.to_nat charnum) str 0.

Fixpoint charnum_loop (n : nat) (s : list Z) (offset charnum offs : Z) : outcome Z :=
  match n with
  | O => UB
  | S n =>
    if offs <? offset then
      let* b := rd s offs in
      if b =? 0 then Ok charnum else let* offs := skip 1 s offs in charnum_loop n s offset (charnum + 1) offs
    else Ok charnum
  end.
Definition switch_u8_charnum (s : list Z) (offset : Z) : outcome Z := charnum_loop (S (length s)) s offset 0 0.

(** ** Reading code points *)

Fixpoint nextchar_loop (n : nat) (s : list Z) (ch sz i : Z) : outcome (Z * Z) :=
  match n with
  | O => UB
  | S n =>
    let* b := rd s i in
    let ch := u32 (u32 (Z.shiftl ch 6) + b) in
    let* c := rd s (i + 1) in
    if negb (c =? 0) && negb (isutf c) then nextchar_loop n s ch (sz + 1) (i + 1)
    else
      match offsetsFromUTF8 !! Z.to_nat sz with
      | Some o => Ok (u32 (ch - o), i + 1)
      | None => UB
      end
  end.
Definition switch_u8_nextchar (s : list Z) (i : Z) : outcome (Z * Z) := nextchar_loop (S (length s)) s 0 0 i.
Definition switch_u8_get_char (s : list Z) (i : Z) : outcome (Z * Z) := nextchar_loop (S (length s)) s 0 0 i.

Fixpoint strlen_loop (n : nat) (s : list Z) (count i : Z) : outcome Z :=
  match n with
  | O => UB
  | S n => let* (ch, i) := switch_u8_nextchar s i in if ch =? 0 then Ok count else strlen_loop n s (count + 1) i
  end.
Definition switch_u8_strlen (s : list Z) : outcome Z := strlen_loop (S (length s)) s 0 0.

(** The offset of the character, if any, and [*charn]. *)
Fixpoint strchr_loop (n : nat) (s : list Z) (ch i lasti charn : Z) : outcome (option Z * Z) :=
  match n with
  | O => UB
  | S n =>
    let* b := rd s i in
    if b =? 0 then Ok (None, charn)
    else
      let* (c, i) := switch_u8_nextchar s i in
      if c =? ch then Ok (Some lasti, charn) else strchr_loop n s ch i i (charn + 1)
  end.
Definition switch_u8_strchr (s : list Z) (ch : Z) : outcome (option Z * Z) := strchr_loop (S (length s)) s ch 0 0 0.

Fixpoint memchr_char (n : nat) (s : list Z) (size c csz i : Z) : outcome (Z * Z) :=
  match n with
  | O => UB
  | S n =>
    let* b := rd s i in
    let c := u32 (u32 (Z.shiftl c 6) + b) in
    let* more := if i + 1 <? size then let* x := rd s (i + 1) in Ok (negb (isutf x)) else Ok false in
    if more then memchr_char n s size c (csz + 1) (i + 1)
    else
      match offsetsFromUTF8 !! Z.to_nat csz with
      | Some o => Ok (u32 (c - o), i + 1)
      | None => UB
      end
  end.
Fixpoint memchr_loop (n : nat) (s : list Z) (ch size i lasti charn : Z) : outcome (option Z * Z) :=
  match n with
  | O => UB
  | S n =>
    if i <? size then
      let* (c, i) := memchr_char (S (length s)) s size 0 0 i in
      if c =? ch then Ok (Some lasti, charn) else memchr_loop n s ch size i i (charn + 1)
    else Ok (None, charn)
  end.
Definition switch_u8_memchr (s : list Z) (ch size : Z) : outcome (option Z * Z) :=
  memchr_loop (S (S (length s))) s ch size 0 0 0.

(** ** Escapes *)

Definition octal_digit (c : Z) : bool := (48 <=? c) && (c <=? 55).
Definition is_hex_digit (c : Z) : bool :=
  ((48 <=? c) && (c <=? 57)) || ((65 <=? c) && (c <=? 70)) || ((97 <=? c) && (c <=? 102)).
Definition digit_value (c : Z) : Z := if c <=? 57 then c - 48 else if c <=? 70 then c - 55 else c - 87.

(** [strtol] of digits; [long] has 32 bits. *)
Definition strtol (base : Z) (digs : list Z) : Z := foldl (fun v c => Z.min (v * base + digit_value c) (2 ^ 31 - 1)) 0 digs.

(** [while (ok(str[i]) && dno < n)], with the number of digits that may still come. *)
Fixpoint read_digits (n : nat) (ok : Z -> bool) (str : list Z) (i : Z) : outcome (list Z * Z) :=
  let* c := rd str i in
  if ok c then
    match n with
    | O => Ok ([], i)
    | S n => let* (ds, i) := read_digits n ok str (i + 1) in Ok (c :: ds, i)
    end
  else Ok ([], i).

Definition hex_escape (n : nat) (str : list Z) (p c : Z) : outcome (Z * Z) :=
  let* (digs, i) := read_digits n is_hex_digit str (p + 1) in
  Ok (match digs with [] => c | _ => u32 (strtol 16 digs) end, i - p).

(** The character after the backslash is at [p]; the code point and the number of
    characters that were taken. *)
Definition switch_u8_read_escape_sequence (str : list Z) (p : Z) : outcome (Z * Z) :=
  let* c := rd str p in
  if c =? 110 then Ok (10, 1)
  else if c =? 116 then Ok (9, 1)
  else if c =? 114 then Ok (13, 1)
  else if c =? 98 then Ok (8, 1)
  else if c =? 102 then Ok (12, 1)
  else if c =? 118 then Ok (11, 1)
  else if c =? 97 then Ok (7, 1)
  else if octal_digit c then
    let* (digs, i) := read_digits 2 octal_digit str (p + 1) in Ok (u32 (strtol 8 (c :: digs)), i - p)
  else if c =? 120 then hex_escape 2 str p c
  else if c =? 117 then hex_escape 4 str p c
  else if c =? 85 then hex_escape 8 str p c
  else Ok (c, 1).

Fixpoint unescape_loop (n : nat) (buf : list Z) (sz : Z) (src : list Z) (p c : Z) : outcome (list Z * Z) :=
  match n with
  | O => UB
  | S n =>
    let finish := if c <? sz then let* buf := wr buf c 0 in Ok (buf, c) else Ok (buf, c) in
    let* b := rd src p in
    if negb (b =? 0) && (c <? sz) then
      let* (ch, p) :=
        if b =? 92 then let* (ch, amt) := switch_u8_read_escape_sequence src (p + 1) in Ok (ch, p + 1 + amt)
        else Ok (b, p + 1) in
      let '(temp, amt) := switch_u8_wc_toutf8 ch in
      if sz - c <? amt then finish
      else let* buf := wrs buf c temp in unescape_loop n buf sz src p (c + amt)
    else finish
  end.
Definition switch_u8_unescape (buf : list Z) (sz : Z) (src : list Z) : outcome (list Z * Z) :=
  unescape_loop (S (length src)) buf sz src 0 0.

(** Hexadecimal digits with capital letters, [n] of them. *)
Definition hex_char (d : Z) : Z := if d <? 10 then d + 48 else d + 55.
Fixpoint hex_text (n : nat) (v : Z) : list Z :=
  match n with O => [] | S n => hex_text n (v / 16) ++ [hex_char (v mod 16)] end.

(** What [switch_u8_escape_wchar] prints. *)
Definition escape_text (ch : Z) : list Z :=
  if ch =? 10 then [92; 110]
  else if ch =? 9 then [92; 116]
  else if ch =? 13 then [92; 114]
  else if ch =? 8 then [92; 98]
  else if ch =? 12 then [92; 102]
  else if ch =? 11 then [92; 118]
  else if ch =? 7 then [92; 97]
  else if ch =? 92 then [92; 92]
  else if (ch <? 32) || (ch =? 127) then 92 :: 120 :: hex_text (if ch <? 16 then 1 else 2) ch
  else if ch >? 65535 then 92 :: 85 :: hex_text 8 ch
  else if (ch >=? 128) && (ch <=? 65535) then 92 :: 117 :: hex_text 4 ch
  else [ch].
(** [snprintf(buf + c, size, ...)] of a text. *)
Definition snprintf (buf : list Z) (c size : Z) (text : list Z) : outcome (list Z * Z) :=
  if size =? 0 then Ok (buf, zlen text)
  else let* buf := wrs buf c (ztake (size - 1) text ++ [0]) in Ok (buf, zlen text).
Definition switch_u8_escape_wchar (buf : list Z) (c size ch : Z) : outcome (list Z * Z) := snprintf buf c size (escape_text ch).

Fixpoint escape_loop (n : nat) (buf : list Z) (sz : Z) (src : list Z) (escape_quotes : bool) (c i : Z) : outcome (list Z * Z) :=
  match n with
  | O => UB
  | S n =>
    let* b := rd src i in
    if negb (b =? 0) && (c <? sz) then
      let* (buf, amt, i) :=
        if escape_quotes && (b =? 34) then let* (buf, amt) := snprintf buf c (sz - c) [92; 34] in Ok (buf, amt, i + 1)
        else
          let* (ch, i) := switch_u8_nextchar src i in
          let* (buf, amt) := switch_u8_escape_wchar buf c (sz - c) ch in Ok (buf, amt, i) in
      escape_loop n buf sz src escape_quotes (c + amt) i
    else if c <? sz then let* buf := wr buf c 0 in Ok (buf, c) else Ok (buf, c)
  end.
Definition switch_u8_escape (buf : list Z) (sz : Z) (src : list Z) (escape_quotes : bool) : outcome (list Z * Z) :=
  escape_loop (S (length src)) buf sz src escape_quotes 0 0.

(** ** Locales *)

(** The text up to one of [@], [+], [,] or the terminator. *)
Fixpoint locale_part (s : list Z) : list Z :=
  match s with
  | c :: s => if (c =? 0) || (c =? 64) || (c =? 43) || (c =? 44) then [] else c :: locale_part s
  | [] => []
  end.
Fixpoint after_dot (s : list Z) : option (list Z) :=
  match s with [] => None | c :: s => if c =? 46 then Some s else after_dot s end.
Definition switch_u8_is_locale_utf8 (locale : list Z) : bool :=
  match after_dot (locale_part locale) with
  | Some encoding => bool_decide (encoding = [85; 84; 70; 45; 56]) || bool_decide (encoding = [117; 116; 102; 56])
  | None => false
  end.

(** Examples: [a], e acute, euro, a key. *)
Definition sample : list Z := [97; 233; 8364; 128273].
Definition sample_bytes : list Z := utf8_bytes 97 ++ utf8_bytes 233 ++ utf8_bytes 8364 ++ utf8_bytes 128273.
Example sample_out : switch_u8_toutf8 (replicate 12 7) 12 (sample ++ [0]) (-1) = Ok (sample_bytes ++ [0; 7], 4).
Proof. reflexivity. Qed.
Example sample_in : switch_u8_toucs (replicate 6 9) 6 (sample_bytes ++ [0]) (-1) = Ok (sample ++ [0; 9], 4).
Proof. reflexivity. Qed.
Example sample_len : switch_u8_strlen (sample_bytes ++ [0; 0]) = Ok 4.
Proof. reflexivity. Qed.
Example sample_escape : switch_u8_escape (replicate 40 7) 40 (sample_bytes ++ [0]) false
  = Ok ([97; 92; 117; 48; 48; 69; 57; 92; 117; 50; 48; 65; 67; 92; 85; 48; 48; 48; 49; 70; 53; 49; 49; 0] ++ replicate 16 7, 23).
Proof. reflexivity. Qed.
