(* ===== verification/Utf8Text.v ===== *)
(** * Texts in UTF-8 (theorems on [Utf8])

    A text is the encoding of a list of code points.  Conversion there and back,
    positions and escapes are as one expects for texts; what the functions do to
    bytes that are not texts, and behind the end of texts, is at the end. *)
From S2P Require Import Prelude Bytes Utf8.
Open Scope Z_scope.
#[local] Notation length := List.length (only parsing).

Definition code_point (c : Z) : Prop := 0 < c < 1114112.
Fixpoint encode (l : list Z) : list Z := match l with [] => [] | c :: l => utf8_bytes c ++ encode l end.

Lemma encode_app l k : encode (l ++ k) = encode l ++ encode k.
Proof. induction l as [|c l IH]; [done|]. cbn [encode app]. by rewrite IH, app_assoc. Qed.

(** ** Bytes of a code point *)

Lemma lor_add n k a : 0 <= n -> 0 <= a < 2 ^ n -> Z.lor a (Z.shiftl k n) = a + Z.shiftl k n.
Proof.
  intros Hn Ha. rewrite lor_lxor_low by done. symmetry. apply Z.add_nocarry_lxor. apply Z.bits_inj'. intros m Hm.
  rewrite Z.land_spec, Z.bits_0. destruct (Z.ltb_spec m n).
  - rewrite Z.shiftl_spec_low by lia. apply andb_false_r.
  - destruct (decide (a = 0)) as [->|N]; [by rewrite Z.bits_0|]. rewrite (Z.bits_above_log2 a m); [done|lia|].
    apply Z.log2_lt_pow2; [lia|]. eapply Z.lt_le_trans; [apply Ha|]. apply Z.pow_le_mono_r; lia.
Qed.

Definition cont (x : Z) : Z := 128 + x mod 64.
Lemma cont_byte x : Z.lor (Z.land x 63) 128 = cont x.
Proof.
  unfold cont. change 63 with (Z.ones 6). rewrite Z.land_ones by lia. change (2 ^ 6) with 64.
  change 128 with (Z.shiftl 1 7) at 1. rewrite lor_add; [change (Z.shiftl 1 7) with 128; lia|lia|].
  pose proof (Z.mod_pos_bound x 64). lia.
Qed.

(** The bytes, with additions. *)
Lemma utf8_bytes_arith ch : 0 <= ch < 1114112 -> utf8_bytes ch =
  if ch <? 128 then [ch]
  else if ch <? 2048 then [192 + ch / 64; cont ch]
  else if ch <? 65536 then [224 + ch / 4096; cont (ch / 64); cont ch]
  else [240 + ch / 262144; cont (ch / 4096); cont (ch / 64); cont ch].
Proof.
  intros H. unfold utf8_bytes. rewrite !cont_byte, !Z.shiftr_div_pow2 by lia.
  change (2 ^ 6) with 64. change (2 ^ 12) with 4096. change (2 ^ 18) with 262144.
  repeat (ifcase; [try done|]); try lia.
  - f_equal. change 192 with (Z.shiftl 3 6). rewrite (lor_add 6); [lia|lia|cint].
  - f_equal. change 224 with (Z.shiftl 7 5). rewrite (lor_add 5); [lia|lia|cint].
  - f_equal. change 240 with (Z.shiftl 15 4). rewrite (lor_add 4); [lia|lia|cint].
Qed.

Lemma isutf_byte c : 0 <= c < 256 -> isutf c = (c <? 128) || (192 <=? c).
Proof.
  intros H. apply (below 256 (fun c => Bool.eqb (isutf c) ((c <? 128) || (192 <=? c)))) in H; [|by vm_compute].
  by apply Bool.eqb_prop.
Qed.
Lemma isutf_cont x : isutf (cont x) = false.
Proof.
  assert (H : 128 <= cont x < 192) by (unfold cont; pose proof (Z.mod_pos_bound x 64); lia).
  rewrite isutf_byte by lia. rewrite (proj2 (Z.ltb_ge _ _)), (proj2 (Z.leb_gt _ _)) by lia. done.
Qed.
Lemma cont_pos x : (cont x =? 0) = false.
Proof. apply Z.eqb_neq. unfold cont. pose proof (Z.mod_pos_bound x 64). lia. Qed.

(** The first byte of a character, and the shape of the others. *)
Lemma utf8_shape_parts b cs : 0 < b -> b < 256 -> b < 128 \/ 192 <= b -> (length cs <= 3)%nat -> trailingBytesForUTF8 b = zlen cs ->
  b :: (cont <$> cs) = b :: (cont <$> cs) /\ 0 < b < 256 /\ isutf b = true /\ (length cs <= 3)%nat
  /\ trailingBytesForUTF8 b = zlen cs.
Proof.
  intros B0 B1 B L T. split_and!; try done. rewrite isutf_byte by lia.
  destruct B; [by rewrite (proj2 (Z.ltb_lt _ _))|by rewrite (proj2 (Z.leb_le 192 _)), orb_true_r].
Qed.
Lemma utf8_shape ch : code_point ch -> exists b cs, utf8_bytes ch = b :: (cont <$> cs) /\ 0 < b < 256 /\ isutf b = true
  /\ (length cs <= 3)%nat /\ trailingBytesForUTF8 b = zlen cs.
Proof.
  intros H. unfold code_point in H. rewrite utf8_bytes_arith by lia. repeat ifcase.
  - exists ch, []. apply (utf8_shape_parts ch []); [lia|lia|by left|cbn; lia|].
    unfold trailingBytesForUTF8. by rewrite (proj2 (Z.ltb_lt ch 192)) by lia.
  - assert (2 <= ch / 64 < 32) by cint. exists (192 + ch / 64), [ch]. apply (utf8_shape_parts _ [ch]); [lia|lia|right; lia|cbn; lia|].
    unfold trailingBytesForUTF8. by rewrite (proj2 (Z.ltb_ge _ 192)), (proj2 (Z.ltb_lt _ 224)) by lia.
  - assert (0 <= ch / 4096 < 16) by cint. exists (224 + ch / 4096), [ch / 64; ch].
    apply (utf8_shape_parts _ [ch / 64; ch]); [lia|lia|right; lia|cbn; lia|].
    unfold trailingBytesForUTF8. by rewrite (proj2 (Z.ltb_ge _ 192)), (proj2 (Z.ltb_ge _ 224)), (proj2 (Z.ltb_lt _ 240)) by lia.
  - assert (0 <= ch / 262144 < 5) by cint. exists (240 + ch / 262144), [ch / 4096; ch / 64; ch].
    apply (utf8_shape_parts _ [ch / 4096; ch / 64; ch]); [lia|lia|right; lia|cbn; lia|]. unfold trailingBytesForUTF8.
    by rewrite (proj2 (Z.ltb_ge _ 192)), (proj2 (Z.ltb_ge _ 224)), (proj2 (Z.ltb_ge _ 240)), (proj2 (Z.ltb_lt _ 248)) by lia.
Qed.

(** Putting the bytes together again. *)
Lemma utf8_value ch b cs o : code_point ch -> utf8_bytes ch = b :: cs -> offsetsFromUTF8 !! length cs = Some o ->
  u32 (foldl (fun v c => u32 (u32 (Z.shiftl v 6) + c)) (u32 (u32 (Z.shiftl 0 6) + b)) cs - o) = ch.
Proof.
  intros H E O. unfold code_point in H. rewrite utf8_bytes_arith in E by lia. revert E. repeat ifcase; intros [= <- <-];
    cbn in O; injection O as <-; cbn [foldl]; rewrite ?Z.shiftl_mul_pow2 by lia; change (2 ^ 6) with 64; unfold cont.
  - cint.
  - cint.
  - cint.
  - cint.
Qed.

(** ** One character in memory *)

Lemma rd_at pre l k : 0 <= k -> rd (pre ++ l) (zlen pre + k) = rd l k.
Proof.
  intros H. unfold rd. rewrite !(proj2 (Z.leb_le 0 _)) by lia. rewrite lookup_app_r by lia.
  by replace (Z.to_nat (zlen pre + k) - length pre)%nat with (Z.to_nat k) by lia.
Qed.
Lemma rd_here pre b l : rd (pre ++ b :: l) (zlen pre) = Ok b.
Proof. rewrite <- (Z.add_0_r (zlen pre)). by rewrite rd_at. Qed.
Lemma zlen_snoc {A} (pre : list A) b : zlen (pre ++ [b]) = zlen pre + 1.
Proof. rewrite length_app. cbn [length]. lia. Qed.

(** What follows a character of a text is a terminator or another character. *)
Lemma text_next l post : Forall code_point l -> exists nx q, encode l ++ 0 :: post = nx :: q /\ isutf nx = true /\ (nx = 0 <-> l = []).
Proof.
  destruct 1 as [|c l H _]; [by exists 0, post|]. destruct (utf8_shape c H) as (b & cs & E & B & U & _).
  cbn [encode]. rewrite E. eexists b, _. split; [reflexivity|]. split; [done|]. split; [lia|done].
Qed.

Notation join6 := (fun v c => u32 (u32 (Z.shiftl v 6) + c)).

Lemma nextchar_loop_spec cs : forall n pre b nx post ch sz, isutf nx = true -> (length cs < n)%nat -> 0 <= sz ->
  nextchar_loop n (pre ++ b :: (cont <$> cs) ++ nx :: post) ch sz (zlen pre) =
  match offsetsFromUTF8 !! (Z.to_nat sz + length cs)%nat with
  | Some o => Ok (u32 (foldl join6 (join6 ch b) (cont <$> cs) - o), zlen pre + 1 + zlen cs)
  | None => UB
  end.
Proof.
  induction cs as [|x cs IH]; intros n pre b nx post ch sz U L Z; (destruct n as [|n]; [cbn in L; lia|]);
    cbn [nextchar_loop]; rewrite rd_here, rd_at by lia; cbn [fmap list_fmap app foldl length].
  - change (rd (b :: nx :: post) 1) with (Ok nx). cbv iota. rewrite U, andb_false_r, Nat.add_0_r.
    destruct (offsetsFromUTF8 !! Z.to_nat sz); [|done]. do 2 f_equal. lia.
  - change (rd (b :: cont x :: (cont <$> cs) ++ nx :: post) 1) with (Ok (cont x)). cbv iota. rewrite cont_pos, isutf_cont.
    cbn [negb andb]. replace (zlen pre + 1) with (zlen (pre ++ [b])) by apply zlen_snoc.
    replace (pre ++ b :: cont x :: (cont <$> cs) ++ nx :: post) with ((pre ++ [b]) ++ cont x :: (cont <$> cs) ++ nx :: post)
      by (by rewrite <- app_assoc). cbn [length] in L. rewrite IH by (done || lia).
    replace (Z.to_nat (sz + 1) + length cs)%nat with (Z.to_nat sz + S (length cs))%nat by lia.
    destruct (offsetsFromUTF8 !! _); [|done]. do 2 f_equal. rewrite zlen_snoc. lia.
Qed.

Lemma nextchar_char pre c nx post : code_point c -> isutf nx = true ->
  switch_u8_nextchar (pre ++ utf8_bytes c ++ nx :: post) (zlen pre) = Ok (c, zlen pre + zlen (utf8_bytes c)).
Proof.
  intros H U. destruct (utf8_shape c H) as (b & cs & E & _ & _ & L & _). rewrite E. unfold switch_u8_nextchar. cbn [app].
  rewrite nextchar_loop_spec; [|done|rewrite length_app; cbn; rewrite length_app, length_fmap; lia|lia].
  change (Z.to_nat 0) with 0%nat. cbn [Nat.add].
  destruct (offsetsFromUTF8 !! length cs) as [o|] eqn:O;
    [|apply lookup_ge_None in O; cbn in O; lia].
  rewrite (utf8_value c b (cont <$> cs) o H E) by (by rewrite length_fmap). cbn [length]. rewrite length_fmap. do 2 f_equal. lia.
Qed.

Lemma skip_char pre c nx post : code_point c -> isutf nx = true ->
  skip 1 (pre ++ utf8_bytes c ++ nx :: post) (zlen pre) = Ok (zlen pre + zlen (utf8_bytes c)).
Proof.
  intros H U. destruct (utf8_shape c H) as (b & cs & E & _ & _ & L & _). rewrite E. unfold skip. rewrite !rd_at by lia.
  destruct cs as [|x0 [|x1 [|x2 [|]]]]; cbn [fmap list_fmap app length] in *; [..|lia].
  - change (rd (b :: nx :: post) (1)) with (Ok nx). cbv iota. by rewrite U.
  - change (rd (b :: cont x0 :: nx :: post) 1) with (Ok (cont x0)). change (rd (b :: cont x0 :: nx :: post) (2 * 1)) with (Ok nx).
    cbv iota. by rewrite isutf_cont, U.
  - change (rd (b :: cont x0 :: cont x1 :: nx :: post) 1) with (Ok (cont x0)).
    change (rd (b :: cont x0 :: cont x1 :: nx :: post) (2 * 1)) with (Ok (cont x1)).
    change (rd (b :: cont x0 :: cont x1 :: nx :: post) (3 * 1)) with (Ok nx). cbv iota. by rewrite !isutf_cont, U.
  - change (rd (b :: cont x0 :: cont x1 :: cont x2 :: nx :: post) 1) with (Ok (cont x0)).
    change (rd (b :: cont x0 :: cont x1 :: cont x2 :: nx :: post) (2 * 1)) with (Ok (cont x1)).
    change (rd (b :: cont x0 :: cont x1 :: cont x2 :: nx :: post) (3 * 1)) with (Ok (cont x2)). cbv iota. by rewrite !isutf_cont.
Qed.

Lemma gather_spec cs : forall pre b post ch,
  gather (length cs) (pre ++ b :: cs ++ post) (zlen pre) ch =
    Ok (foldl (fun v c => u32 (u32 (Z.shiftl v 6) + c)) (u32 (ch + b)) cs, zlen pre + 1 + zlen cs).
Proof.
  induction cs as [|x cs IH]; intros pre b post ch; cbn [length gather]; rewrite rd_here; [do 2 f_equal; lia|].
  cbn [app foldl]. replace (zlen pre + 1) with (zlen (pre ++ [b])) by apply zlen_snoc.
  replace (pre ++ b :: x :: cs ++ post) with ((pre ++ [b]) ++ x :: cs ++ post) by (by rewrite <- app_assoc).
  rewrite IH. do 2 f_equal. rewrite zlen_snoc. lia.
Qed.

(** ** Writing *)

Lemma wr_at pre x post v : wr (pre ++ x :: post) (zlen pre) v = Ok (pre ++ v :: post).
Proof.
  unfold wr. rewrite (proj2 (Z.leb_le 0 _)), (proj2 (Z.ltb_lt _ _)) by (rewrite ?length_app; cbn [length]; lia). cbn [andb].
  rewrite Nat2Z.id. by rewrite insert_app_r_alt, Nat.sub_diag by lia.
Qed.
Lemma wrs_at vs : forall pre old post, length old = length vs -> wrs (pre ++ old ++ post) (zlen pre) vs = Ok (pre ++ vs ++ post).
Proof.
  induction vs as [|v vs IH]; intros pre old post L; [by destruct old|]. destruct old as [|x old]; [done|].
  cbn [wrs app]. rewrite wr_at. replace (zlen pre + 1) with (zlen (pre ++ [v])) by apply zlen_snoc.
  replace (pre ++ v :: old ++ post) with ((pre ++ [v]) ++ old ++ post) by (by rewrite <- app_assoc).
  rewrite IH by (by injection L). by rewrite <- app_assoc.
Qed.
(** Into the room behind what is written already. *)
Lemma wrs_room vs pre room : zlen vs <= zlen room ->
  wrs (pre ++ room) (zlen pre) vs = Ok ((pre ++ vs) ++ drop (length vs) room).
Proof.
  intros L. rewrite <- (take_drop (length vs) room) at 1. rewrite wrs_at by (rewrite length_take; lia). by rewrite <- app_assoc.
Qed.
Lemma wr_room v pre room : 1 <= zlen room -> wr (pre ++ room) (zlen pre) v = Ok ((pre ++ [v]) ++ drop 1 room).
Proof. intros L. destruct room as [|x room]; [cbn in L; lia|]. rewrite wr_at. by rewrite <- app_assoc. Qed.

(** ** Conversion *)

Lemma toutf8_loop_ok l : Forall code_point l -> forall n pre room done q sz, (length l < n)%nat ->
  zlen pre + zlen (encode l) < sz <= zlen (pre ++ room) ->
  toutf8_loop n (pre ++ room) sz (zlen pre) (done ++ l ++ 0 :: q) (-1) (zlen done) =
    Ok ((pre ++ encode l ++ [0]) ++ drop (length (encode l) + 1) room, zlen done + zlen l).
Proof.
  induction 1 as [|c l H _ IH]; intros n pre room dn q sz L Hs; (destruct n as [|n]; [cbn in L; lia|]);
    cbn [toutf8_loop app encode length] in *; rewrite rd_here; change (-1 <? 0) with true; cbv iota.
  - change (0 =? 0) with true. rewrite (proj2 (Z.ltb_lt _ _)) by lia. rewrite length_app in Hs. rewrite wr_room by lia.
    cbn [Nat.add]. do 2 f_equal. lia.
  - unfold code_point in H. rewrite (proj2 (Z.eqb_neq c 0)) by lia. cbn [length] in L. rewrite !length_app in Hs.
    rewrite (proj2 (Z.ltb_ge (sz - zlen pre) _)) by lia. rewrite wrs_room by lia.
    replace (zlen pre + zlen (utf8_bytes c)) with (zlen (pre ++ utf8_bytes c)) by (rewrite length_app; lia).
    replace (zlen dn + 1) with (zlen (dn ++ [c])) by apply zlen_snoc.
    replace (dn ++ c :: l ++ 0 :: q) with ((dn ++ [c]) ++ l ++ 0 :: q) by (by rewrite <- app_assoc).
    rewrite IH; [|lia|rewrite !length_app, length_drop; lia]. rewrite zlen_snoc, drop_drop, <- !app_assoc, length_app.
    do 2 f_equal; [|cbn [length]; lia]. do 5 f_equal. lia.
Qed.

Lemma toucs_loop_ok l : Forall code_point l -> forall n dpre room pre post, (length l <= n)%nat -> zlen l <= zlen room ->
  toucs_loop n (dpre ++ room) (pre ++ encode l ++ 0 :: post) (-1) (zlen pre) (zlen dpre) =
    Ok ((dpre ++ l) ++ drop (length l) room, zlen dpre + zlen l).
Proof.
  induction 1 as [|c l H _ IH]; intros n dpre room pre post L R.
  - rewrite app_nil_r. destruct n as [|n]; cbn [toucs_loop encode app]; [do 2 f_equal; cbn; lia|]. rewrite rd_here. change (-1 =? -1) with true. change (0 =? 0) with true. cbv iota. do 2 f_equal; cbn; lia.
  - destruct n as [|n]; [cbn in L; lia|]. cbn [toucs_loop encode app].
    destruct (utf8_shape c H) as (b & cs & E & B & _ & L3 & T). rewrite E. cbn [app]. rewrite rd_here, T. change (-1 =? -1) with true.
    cbv iota. rewrite (proj2 (Z.eqb_neq b 0)) by lia. unfold toucs_char. rewrite (proj2 (Z.leb_le _ 3)) by lia.
    rewrite Nat2Z.id. rewrite <- (length_fmap cont cs) at 1. rewrite <- app_assoc, gather_spec.
    destruct (offsetsFromUTF8 !! length cs) as [o|] eqn:O; [|apply lookup_ge_None in O; cbn in O; lia].
    pose proof (utf8_value c b (cont <$> cs) o H E) as V. rewrite length_fmap in V. specialize (V O).
    change (u32 (u32 (Z.shiftl 0 6) + b)) with (u32 (0 + b)) in V. rewrite V. cbn [length] in *.
    rewrite wr_room by lia. replace (zlen dpre + 1) with (zlen (dpre ++ [c])) by apply zlen_snoc.
    replace (pre ++ b :: (cont <$> cs) ++ encode l ++ 0 :: post) with ((pre ++ utf8_bytes c) ++ encode l ++ 0 :: post)
      by (by rewrite E, <- app_assoc).
    replace (zlen pre + 1 + zlen (cont <$> cs)) with (zlen (pre ++ utf8_bytes c)) by (rewrite length_app, E; cbn [length]; lia).
    rewrite IH; [|lia|rewrite length_drop; lia]. rewrite drop_drop, zlen_snoc, <- !app_assoc. do 2 f_equal. lia.
Qed.

(** ** Positions *)

Lemma offset_loop_ok k : forall l pre post, Forall code_point l -> (k <= length l)%nat ->
  offset_loop k (pre ++ encode l ++ 0 :: post) (zlen pre) = Ok (zlen pre + zlen (encode (take k l))).
Proof.
  induction k as [|k IH]; intros l pre post F L; [rewrite take_0; cbn [offset_loop encode length]; f_equal; lia|].
  destruct F as [|c l H F]; [cbn in L; lia|]. rewrite firstn_cons. cbn [offset_loop encode]. rewrite <- app_assoc.
  destruct (utf8_shape c H) as (b & cs & E & B & _). destruct (text_next l post F) as (nx & q & Nx & U & _).
  rewrite Nx, skip_char by done. rewrite <- Nx. rewrite E at 1. cbn [app]. rewrite rd_here, (proj2 (Z.eqb_neq b 0)) by lia.
  replace (zlen pre + zlen (utf8_bytes c)) with (zlen (pre ++ utf8_bytes c)) by (rewrite length_app; lia).
  rewrite (app_assoc pre), IH by (done || (cbn in L; lia)). f_equal. rewrite !length_app. lia.
Qed.

Lemma charnum_loop_ok n : forall l k pre post num, Forall code_point l -> (k <= length l)%nat -> (k < n)%nat ->
  charnum_loop n (pre ++ encode l ++ 0 :: post) (zlen pre + zlen (encode (take k l))) num (zlen pre) = Ok (num + Z.of_nat k).
Proof.
  induction n as [|n IH]; intros l k pre post num F L N; [lia|]. cbn [charnum_loop]. destruct k as [|k].
  { rewrite take_0. cbn [encode length]. rewrite (proj2 (Z.ltb_ge _ _)) by lia. f_equal. lia. }
  destruct F as [|c l H F]; [cbn in L; lia|]. rewrite firstn_cons. cbn [encode]. rewrite <- app_assoc.
  destruct (utf8_shape c H) as (b & cs & E & B & _). destruct (text_next l post F) as (nx & q & Nx & U & _).
  rewrite (proj2 (Z.ltb_lt (zlen pre) _)) by (rewrite length_app, E; cbn [length]; lia).
  rewrite Nx, skip_char by done. rewrite <- Nx. rewrite E at 1. cbn [app]. rewrite rd_here, (proj2 (Z.eqb_neq b 0)) by lia.
  replace (zlen pre + zlen (utf8_bytes c)) with (zlen (pre ++ utf8_bytes c)) by (rewrite length_app; lia).
  rewrite (app_assoc pre).
  replace (zlen pre + zlen (utf8_bytes c ++ encode (take k l))) with (zlen (pre ++ utf8_bytes c) + zlen (encode (take k l)))
    by (rewrite !length_app; lia).
  rewrite IH by (done || (cbn in L; lia)). f_equal. lia.
Qed.
Lemma encode_length l : Forall code_point l -> (length l <= length (encode l))%nat.
Proof.
  induction 1 as [|c l H _ IH]; [done|]. destruct (utf8_shape c H) as (b & cs & E & _). cbn [encode length].
  rewrite E, length_app. cbn [length]. lia.
Qed.

(** The number of characters, when a byte behind the terminator can be read. *)
Lemma strlen_loop_ok l : Forall code_point l -> forall n pre x post count, isutf x = true -> (length l < n)%nat ->
  strlen_loop n (pre ++ encode l ++ 0 :: x :: post) count (zlen pre) = Ok (count + zlen l).
Proof.
  induction 1 as [|c l H F IH]; intros n pre x post count U L; (destruct n as [|n]; [cbn in L; lia|]); cbn [strlen_loop encode].
  - cbn [app]. unfold switch_u8_nextchar. pose proof (nextchar_loop_spec [] (S (length (pre ++ 0 :: x :: post))) pre 0 x post 0 0 U ltac:(cbn; lia) ltac:(lia)) as K.
    cbn [fmap list_fmap app foldl length] in K. rewrite K. cbn. f_equal. lia.
  - rewrite <- app_assoc. destruct (text_next l (x :: post) F) as (nx & q & Nx & Un & _). rewrite Nx, nextchar_char by done. rewrite <- Nx.
    unfold code_point in H. rewrite (proj2 (Z.eqb_neq c 0)) by lia.
    replace (zlen pre + zlen (utf8_bytes c)) with (zlen (pre ++ utf8_bytes c)) by (rewrite length_app; lia).
    rewrite (app_assoc pre), IH by (done || (cbn in L; lia)). f_equal. cbn [length]. lia.
Qed.

(** The first position of a code point in a list. *)
Fixpoint position (c : Z) (l : list Z) : option nat :=
  match l with [] => None | d :: l => if d =? c then Some O else S <$> position c l end.
Lemma strchr_loop_ok ch l : Forall code_point l -> forall n pre post charn, (length l < n)%nat ->
  strchr_loop n (pre ++ encode l ++ 0 :: post) ch (zlen pre) (zlen pre) charn =
  Ok (match position ch l with
      | Some k => (Some (zlen pre + zlen (encode (take k l))), charn + Z.of_nat k)
      | None => (None, charn + zlen l)
      end).
Proof.
  induction 1 as [|c l H F IH]; intros n pre post charn L; (destruct n as [|n]; [cbn in L; lia|]); cbn [strchr_loop encode position].
  - cbn [app]. rewrite rd_here. cbn. f_equal. f_equal. lia.
  - rewrite <- app_assoc. destruct (utf8_shape c H) as (b & cs & E & B & _). destruct (text_next l post F) as (nx & q & Nx & Un & _).
    rewrite Nx, nextchar_char by done. rewrite <- Nx. rewrite E at 1. cbn [app]. rewrite rd_here, (proj2 (Z.eqb_neq b 0)) by lia.
    destruct (c =? ch); [rewrite take_0; cbn [encode length]; do 2 f_equal; [f_equal; lia|lia]|].
    replace (zlen pre + zlen (utf8_bytes c)) with (zlen (pre ++ utf8_bytes c)) by (rewrite length_app; lia).
    rewrite (app_assoc pre), IH by (cbn in L; lia). destruct (position ch l) as [k|]; cbn [fmap option_fmap option_map].
    + rewrite firstn_cons. cbn [encode]. do 2 f_equal; [f_equal; rewrite !length_app; lia|lia].
    + cbn [length]. do 2 f_equal. lia.
Qed.

(** ** Escapes *)

Definition escaped (quotes : bool) (c : Z) : list Z := if quotes && (c =? 34) then [92; 34] else escape_text c.
Fixpoint escapes (quotes : bool) (l : list Z) : list Z :=
  match l with [] => [] | c :: l => escaped quotes c ++ escapes quotes l end.

(** Control characters whose escape has one digit. *)
Definition one_digit (c : Z) : bool := (c <? 7) || (c =? 14) || (c =? 15).
(** None of them comes before a hexadecimal digit. *)
Fixpoint unambiguous (l : list Z) : Prop :=
  match l with
  | c :: (d :: _) as l' => (one_digit c = true -> is_hex_digit d = false) /\ unambiguous l'
  | _ => True
  end.

Lemma hex_char_ok d : 0 <= d < 16 -> is_hex_digit (hex_char d) = true /\ digit_value (hex_char d) = d /\ 32 <= hex_char d < 127.
Proof.
  intros H. apply (below 16 (fun d => is_hex_digit (hex_char d) && (digit_value (hex_char d) =? d)
    && (32 <=? hex_char d) && (hex_char d <? 127))) in H; [|by vm_compute]. btests. split_and!; done || lia.
Qed.
Lemma hex_text_length n : forall v, length (hex_text n v) = n.
Proof. induction n as [|n IH]; intros v; [done|]. cbn [hex_text]. rewrite length_app, IH. cbn. lia. Qed.
Lemma hex_text_hex n : forall v, Forall (fun c => is_hex_digit c = true /\ 32 <= c < 127) (hex_text n v).
Proof.
  induction n as [|n IH]; intros v; [constructor|]. cbn [hex_text]. apply Forall_app. split; [apply IH|].
  pose proof (hex_char_ok (v mod 16) ltac:(apply Z.mod_pos_bound; lia)) as (A & _ & B). constructor; [done|constructor].
Qed.
Lemma strtol_hex n : forall v, 0 <= v < 16 ^ Z.of_nat n -> v < 2 ^ 31 -> strtol 16 (hex_text n v) = v.
Proof.
  induction n as [|n IH]; intros v H B; [cbn in *; lia|]. unfold strtol in *. cbn [hex_text]. rewrite foldl_app. cbn [foldl].
  pose proof (hex_char_ok (v mod 16) ltac:(apply Z.mod_pos_bound; lia)) as (_ & -> & _).
  rewrite Nat2Z.inj_succ, Z.pow_succ_r in H by lia. rewrite IH; [|split; [apply Z.div_pos; lia|apply Z.div_lt_upper_bound; lia]|cint].
  cint.
Qed.

Lemma read_digits_ok n ds : forall pre nx post, Forall (fun c => is_hex_digit c = true /\ 32 <= c < 127) ds -> (length ds <= n)%nat ->
  length ds = n \/ is_hex_digit nx = false ->
  read_digits n is_hex_digit (pre ++ ds ++ nx :: post) (zlen pre) = Ok (ds, zlen pre + zlen ds).
Proof.
  revert n. induction ds as [|d ds IH]; intros n pre nx post F L S; destruct n as [|n]; cbn [length] in *; try lia;
    cbn [read_digits app]; rewrite rd_here.
  - destruct (is_hex_digit nx); do 2 f_equal; lia.
  - destruct S as [S|S]; [lia|]. rewrite S. do 2 f_equal. lia.
  - apply Forall_cons in F as [[Fd _] F]. rewrite Fd. replace (zlen pre + 1) with (zlen (pre ++ [d])) by apply zlen_snoc.
    replace (pre ++ d :: ds ++ nx :: post) with ((pre ++ [d]) ++ ds ++ nx :: post) by (by rewrite <- app_assoc).
    rewrite IH; [rewrite zlen_snoc; do 2 f_equal; lia|done|lia|]. destruct S as [S|S]; [left; lia|by right].
Qed.

(** The number behind [\x], [\u] and [\U]. *)
Lemma hex_escape_ok n k pre c v nx post : (0 < k <= n)%nat -> 0 <= v < 16 ^ Z.of_nat k -> v < 2 ^ 31 -> k = n \/ is_hex_digit nx = false ->
  hex_escape n (pre ++ 92 :: c :: hex_text k v ++ nx :: post) (zlen pre + 1) c = Ok (v, 1 + Z.of_nat k).
Proof.
  intros K V B S. unfold hex_escape.
  replace (zlen pre + 1 + 1) with (zlen (pre ++ [92; c])) by (rewrite length_app; cbn [length]; lia).
  replace (pre ++ 92 :: c :: hex_text k v ++ nx :: post) with ((pre ++ [92; c]) ++ hex_text k v ++ nx :: post) by (by rewrite <- app_assoc).
  rewrite read_digits_ok; [|apply hex_text_hex|rewrite hex_text_length; lia|by rewrite hex_text_length].
  rewrite length_app, hex_text_length. pose proof (hex_text_length k v) as HL.
  destruct (hex_text k v) as [|x xs] eqn:E; [cbn in HL; lia|]. rewrite <- E, strtol_hex, u32_small by lia. cbn [length]. do 2 f_equal. lia.
Qed.

(** One escaped character is read back. *)
Definition unescape_one (src : list Z) (p : Z) : outcome (Z * Z) :=
  let* b := rd src p in
  if b =? 92 then let* (ch, amt) := switch_u8_read_escape_sequence src (p + 1) in Ok (ch, p + 1 + amt) else Ok (b, p + 1).
Lemma unescape_escaped quotes c pre nx post : code_point c -> (one_digit c = true -> is_hex_digit nx = false) ->
  unescape_one (pre ++ escaped quotes c ++ nx :: post) (zlen pre) = Ok (c, zlen pre + zlen (escaped quotes c)).
Proof.
  intros H OD. unfold unescape_one, code_point in *.
  assert (two : forall x y, switch_u8_read_escape_sequence (pre ++ 92 :: x :: nx :: post) (zlen pre + 1) = Ok (y, 1) ->
    (let* b := rd (pre ++ 92 :: x :: nx :: post) (zlen pre) in
     if b =? 92 then let* (ch, amt) := switch_u8_read_escape_sequence (pre ++ 92 :: x :: nx :: post) (zlen pre + 1) in Ok (ch, zlen pre + 1 + amt)
     else Ok (b, zlen pre + 1)) = Ok (y, zlen pre + 2)).
  { intros x y E. rewrite rd_here, E. cbn. do 2 f_equal. lia. }
  assert (R1 : forall x r, rd (pre ++ 92 :: x :: r) (zlen pre + 1) = Ok x) by (intros; by rewrite rd_at).
  assert (num : forall x k n v, (forall r, switch_u8_read_escape_sequence (pre ++ 92 :: x :: r) (zlen pre + 1) =
      hex_escape n (pre ++ 92 :: x :: r) (zlen pre + 1) x) -> (0 < k <= n)%nat -> 0 <= v < 16 ^ Z.of_nat k -> v < 2 ^ 31 ->
      k = n \/ is_hex_digit nx = false ->
    (let* b := rd (pre ++ 92 :: x :: hex_text k v ++ nx :: post) (zlen pre) in
     if b =? 92 then let* (ch, amt) := switch_u8_read_escape_sequence (pre ++ 92 :: x :: hex_text k v ++ nx :: post) (zlen pre + 1) in
       Ok (ch, zlen pre + 1 + amt)
     else Ok (b, zlen pre + 1)) = Ok (v, zlen pre + zlen (92 :: x :: hex_text k v))).
  { intros x k n v E K V B D. rewrite rd_here, E, (hex_escape_ok n k) by done. cbn [Z.eqb Pos.eqb length]. rewrite hex_text_length. do 2 f_equal. lia. }
  unfold escaped, escape_text. unfold one_digit in OD.
  destruct (quotes && (c =? 34)) eqn:QE; [btests; subst c; apply two; unfold switch_u8_read_escape_sequence; by rewrite R1|]. clear QE.
  repeat (match goal with |- context [if c =? ?k then _ else _] => destruct (Z.eqb_spec c k) as [->|?] end;
    [apply two; unfold switch_u8_read_escape_sequence; by rewrite R1|]).
  assert (RE : forall x n, (n = 2%nat /\ x = 120 \/ n = 4%nat /\ x = 117 \/ n = 8%nat /\ x = 85) -> forall r,
    switch_u8_read_escape_sequence (pre ++ 92 :: x :: r) (zlen pre + 1) = hex_escape n (pre ++ 92 :: x :: r) (zlen pre + 1) x).
  { intros x k D r. unfold switch_u8_read_escape_sequence. rewrite R1. by destruct D as [[-> ->]|[[-> ->]|[-> ->]]]. }
  destruct ((c <? 32) || (c =? 127)) eqn:K1.
  { assert (c < 128) by (apply orb_true_iff in K1 as [K1|K1]; btests; lia). destruct (Z.ltb_spec c 16).
    - apply (num 120 1%nat 2%nat); [apply RE; auto|lia|cbn; lia|lia|right; apply OD]. rewrite !orb_true_iff, Z.ltb_lt, !Z.eqb_eq. lia.
    - apply (num 120 2%nat 2%nat); [apply RE; auto|lia|cbn; lia|lia|by left]. }
  btests. destruct (c >? 65535) eqn:K2; btests; [apply (num 85 8%nat 8%nat); [apply RE; auto|lia|cbn; lia|lia|by left]|].
  destruct ((c >=? 128) && (c <=? 65535)) eqn:K3; [apply (num 117 4%nat 4%nat); [apply RE; auto|lia|cbn; lia|lia|by left]|].
  cbn [app length]. rewrite rd_here, (proj2 (Z.eqb_neq c 92)) by done. done.
Qed.

(** Escapes are printable characters; those of a digit begin with it. *)
Lemma escaped_printable quotes c : code_point c -> Forall (fun b => 32 <= b < 127) (escaped quotes c).
Proof.
  intros H. unfold code_point in H.
  assert (X : forall x k, 32 <= x < 127 -> Forall (fun b => 32 <= b < 127) (92 :: x :: hex_text k c)).
  { intros x k Hx. constructor; [lia|]. constructor; [done|]. eapply Forall_impl; [apply hex_text_hex|]. by intros b [_ ?]. }
  unfold escaped, escape_text. repeat (ifcase; [repeat constructor; lia|]).
  destruct ((c <? 32) || (c =? 127)) eqn:K1; [apply X; lia|]. btests. destruct (c >? 65535) eqn:K2; btests; [apply X; lia|].
  destruct ((c >=? 128) && (c <=? 65535)) eqn:K3; [apply X; lia|]. apply andb_false_iff in K3 as [K3|K3]; btests; [|lia].
  constructor; [lia|constructor].
Qed.
Lemma escaped_first quotes c : code_point c -> exists b r, escaped quotes c = b :: r /\ b <> 0 /\ (is_hex_digit b = true -> is_hex_digit c = true).
Proof.
  intros H. pose proof (escaped_printable quotes c H) as P.
  assert (Q : escaped quotes c = [c] \/ exists r, escaped quotes c = 92 :: r).
  { unfold escaped, escape_text. repeat (case_match; [right; by eexists|]). by left. }
  destruct Q as [Q|[r Q]]; rewrite Q in *; apply Forall_cons in P as [P _].
  - exists c, []. split; [done|]. split; [lia|done].
  - exists 92, r. done.
Qed.
Lemma escapes_next quotes c l post : Forall code_point l -> unambiguous (c :: l) ->
  exists nx q, escapes quotes l ++ 0 :: post = nx :: q /\ (one_digit c = true -> is_hex_digit nx = false).
Proof.
  destruct 1 as [|d l H _]; intros A; [by exists 0, post|]. destruct A as [A _].
  destruct (escaped_first quotes d H) as (b & r & E & _ & X). cbn [escapes]. rewrite E. eexists b, _. split; [reflexivity|].
  intros O. specialize (A O). destruct (is_hex_digit b); [|done]. by rewrite X in A.
Qed.

Lemma first_byte c b cs : code_point c -> utf8_bytes c = b :: cs -> (b =? 34) = (c =? 34).
Proof.
  intros H E. unfold code_point in H. rewrite utf8_bytes_arith in E by lia. revert E.
  repeat ifcase; intros [= <- <-]; [done|..]; rewrite (proj2 (Z.eqb_neq c 34)) by lia; apply Z.eqb_neq;
    assert (0 <= c / 64 /\ 0 <= c / 4096 /\ 0 <= c / 262144) by (repeat split; apply Z.div_pos; lia); lia.
Qed.

Lemma snprintf_room text bpre room size : zlen text < size <= zlen room ->
  snprintf (bpre ++ room) (zlen bpre) size text = Ok ((bpre ++ text) ++ 0 :: drop (length text + 1) room, zlen text).
Proof.
  intros L. unfold snprintf. rewrite (proj2 (Z.eqb_neq size 0)) by lia. unfold ztake. rewrite take_ge by lia.
  rewrite wrs_room by (rewrite length_app; cbn [length]; lia). rewrite length_app, <- !app_assoc. done.
Qed.

Lemma escape_loop_ok quotes l : Forall code_point l -> forall n bpre room sz pre post, (length l < n)%nat ->
  zlen bpre + zlen (escapes quotes l) < sz <= zlen (bpre ++ room) ->
  escape_loop n (bpre ++ room) sz (pre ++ encode l ++ 0 :: post) quotes (zlen bpre) (zlen pre) =
    Ok ((bpre ++ escapes quotes l ++ [0]) ++ drop (length (escapes quotes l) + 1) room, zlen bpre + zlen (escapes quotes l)).
Proof.
  induction 1 as [|c l H F IH]; intros n bpre room sz pre post L R; (destruct n as [|n]; [cbn in L; lia|]);
    cbn [escape_loop encode escapes]; rewrite length_app in R.
  - cbn [app] in *. rewrite rd_here. cbn [Z.eqb negb andb length] in *. rewrite (proj2 (Z.ltb_lt _ _)) by lia.
    rewrite wr_room by lia. cbn [Nat.add]. do 2 f_equal. lia.
  - rewrite <- app_assoc. destruct (utf8_shape c H) as (b & cs & E & B & _). destruct (text_next l post F) as (nx & q & Nx & Un & _).
    rewrite Nx, nextchar_char by done. rewrite <- Nx. rewrite E at 1. cbn [app]. rewrite rd_here, (proj2 (Z.eqb_neq b 0)) by lia.
    cbn [escapes] in R. rewrite length_app in R. rewrite (proj2 (Z.ltb_lt _ _)) by lia. cbn [negb andb].
    rewrite (first_byte c b (cont <$> cs) H E).
    assert (X : (if quotes && (c =? 34)
       then let* (buf, amt) := snprintf (bpre ++ room) (zlen bpre) (sz - zlen bpre) [92; 34] in Ok (buf, amt, zlen pre + 1)
       else let* (buf, amt) := switch_u8_escape_wchar (bpre ++ room) (zlen bpre) (sz - zlen bpre) c in
         Ok (buf, amt, zlen pre + zlen (utf8_bytes c)))
      = Ok ((bpre ++ escaped quotes c) ++ 0 :: drop (length (escaped quotes c) + 1) room, zlen (escaped quotes c), zlen pre + zlen (utf8_bytes c))).
    { unfold escaped in *. destruct (quotes && (c =? 34)) eqn:Q; unfold switch_u8_escape_wchar; rewrite snprintf_room by lia; [|done].
      btests. by subst c. }
    rewrite X.
    replace (zlen bpre + zlen (escaped quotes c)) with (zlen (bpre ++ escaped quotes c)) by (rewrite length_app; lia).
    replace (zlen pre + zlen (utf8_bytes c)) with (zlen (pre ++ utf8_bytes c)) by (rewrite length_app; lia).
    rewrite (app_assoc pre). rewrite IH; [|cbn in L; lia|rewrite !length_app; cbn [length]; rewrite length_drop; lia].
    rewrite <- !app_assoc, !length_app. rewrite Nat.add_1_r. cbn [drop]. rewrite drop_drop. do 2 f_equal; [|lia].
    do 5 f_equal. lia.
Qed.

Lemma unescape_loop_ok quotes l : Forall code_point l -> unambiguous l -> forall n bpre room sz pre post, (length l < n)%nat ->
  zlen bpre + zlen (encode l) < sz <= zlen (bpre ++ room) ->
  unescape_loop n (bpre ++ room) sz (pre ++ escapes quotes l ++ 0 :: post) (zlen pre) (zlen bpre) =
    Ok ((bpre ++ encode l ++ [0]) ++ drop (length (encode l) + 1) room, zlen bpre + zlen (encode l)).
Proof.
  induction 1 as [|c l H F IH]; intros A n bpre room sz pre post L R; (destruct n as [|n]; [cbn in L; lia|]);
    cbn [unescape_loop encode escapes]; rewrite length_app in R.
  - cbn [app] in *. rewrite rd_here. cbn [Z.eqb negb andb length] in *. rewrite (proj2 (Z.ltb_lt _ _)) by lia.
    rewrite wr_room by lia. cbn [Nat.add]. do 2 f_equal. lia.
  - rewrite <- app_assoc. destruct (escapes_next quotes c l post F A) as (nx & q & Nx & On). rewrite Nx.
    pose proof (unescape_escaped quotes c pre nx q H On) as U. unfold unescape_one in U.
    destruct (escaped_first quotes c H) as (b & r & E & B & _).
    assert (Rb : rd (pre ++ escaped quotes c ++ nx :: q) (zlen pre) = Ok b) by (rewrite E; apply rd_here). rewrite Rb in *.
    cbn [encode] in R. rewrite length_app in R. rewrite (proj2 (Z.eqb_neq b 0) B), (proj2 (Z.ltb_lt _ _)) by lia. cbn [negb andb].
    rewrite U. unfold switch_u8_wc_toutf8. rewrite (proj2 (Z.ltb_ge _ _)) by lia. rewrite wrs_room by lia. rewrite <- Nx, (app_assoc pre).
    replace (zlen bpre + zlen (utf8_bytes c)) with (zlen (bpre ++ utf8_bytes c)) by (rewrite length_app; lia).
    replace (zlen pre + zlen (escaped quotes c)) with (zlen (pre ++ escaped quotes c)) by (rewrite length_app; lia).
    rewrite IH; [|by destruct l; [|apply A]|cbn in L; lia|rewrite !length_app, length_drop; lia].
    rewrite drop_drop, <- !app_assoc, !length_app. do 2 f_equal; [|lia]. do 5 f_equal. lia.
Qed.
Lemma escapes_length quotes l : Forall code_point l -> (length l <= length (escapes quotes l))%nat.
Proof.
  induction 1 as [|c l H _ IH]; [done|]. destruct (escaped_first quotes c H) as (b & r & E & _). cbn [escapes length].
  rewrite E, length_app. cbn [length]. lia.
Qed.

(** ** Theorems *)

(** Any text of code points other than zero comes back from its encoding: both
    conversions take all of it, terminate what they write and touch nothing else,
    when the buffers have room. *)
Theorem utf8_roundtrip (l dest wide : list Z) (sz n : Z) (q : list Z) :
  Forall code_point l -> zlen (encode l) < sz <= zlen dest -> zlen l < n <= zlen wide ->
  let bytes := encode l ++ 0 :: drop (length (encode l) + 1) dest in
  switch_u8_toutf8 dest sz (l ++ 0 :: q) (-1) = Ok (bytes, zlen l)
  /\ switch_u8_toucs wide n bytes (-1) = Ok (l ++ 0 :: drop (length l + 1) wide, zlen l).
Proof.
  intros F R N bytes. split.
  - unfold switch_u8_toutf8.
    pose proof (toutf8_loop_ok l F (S (length (l ++ 0 :: q))) [] dest [] q sz ltac:(rewrite length_app; lia) ltac:(cbn [length app]; lia)) as K.
    cbn [app length] in K. change (Z.of_nat 0) with 0 in K. rewrite K. unfold bytes. by rewrite <- app_assoc.
  - unfold switch_u8_toucs.
    pose proof (toucs_loop_ok l F (Z.to_nat (n - 1)) [] wide [] (drop (length (encode l) + 1) dest) ) as K.
    cbn [app length] in K. change (Z.of_nat 0) with 0 in K. rewrite Z.add_0_l in K.
    unfold bytes. rewrite K by lia. rewrite wr_room by (rewrite length_drop; lia). by rewrite drop_drop, <- app_assoc.
Qed.

(** Positions in a text are those in its list of code points: the offset of
    the [k]-th character and the number of the character at that offset, the
    number of all characters, and where a character is found first.  Counting all
    reads one byte behind the terminator, which must not continue a character. *)
Theorem utf8_positions (l post : list Z) (k ch : Z) :
  Forall code_point l -> 0 <= k <= zlen l ->
  let s := encode l ++ 0 :: post in
  let at_ k := zlen (encode (take k l)) in
  switch_u8_offset s k = Ok (at_ (Z.to_nat k))
  /\ switch_u8_charnum s (at_ (Z.to_nat k)) = Ok k
  /\ switch_u8_strchr s ch = Ok (match position ch l with Some j => (Some (at_ j), Z.of_nat j) | None => (None, zlen l) end)
  /\ (forall x q, post = x :: q -> isutf x = true -> switch_u8_strlen s = Ok (zlen l)).
Proof.
  intros F K s at_. pose proof (encode_length l F) as EL. assert (length s = length (encode l) + S (length post))%nat as LS
    by (unfold s; by rewrite length_app). split_and!.
  - unfold switch_u8_offset. exact (offset_loop_ok (Z.to_nat k) l [] post F ltac:(lia)).
  - unfold switch_u8_charnum. pose proof (charnum_loop_ok (S (length s)) l (Z.to_nat k) [] post 0 F ltac:(lia) ltac:(lia)) as C.
    rewrite Z2Nat.id in C by lia. exact C.
  - unfold switch_u8_strchr. exact (strchr_loop_ok ch l F (S (length s)) [] post 0 ltac:(lia)).
  - intros x q -> U. unfold switch_u8_strlen. exact (strlen_loop_ok l F (S (length s)) [] x q 0 U ltac:(lia)).
Qed.

(** C38. Escaping a text gives printable ASCII characters, and removing the escapes
    gives the text back, with or without escaped quotes, when the buffers have
    room and no control character that is escaped with one digit comes before a
    hexadecimal digit. *)
Theorem utf8_escape_roundtrip (quotes : bool) (l buf out q : list Z) (sz n : Z) :
  Forall code_point l -> unambiguous l -> zlen (escapes quotes l) < sz <= zlen buf -> zlen (encode l) < n <= zlen out ->
  let text := escapes quotes l ++ 0 :: drop (length (escapes quotes l) + 1) buf in
  Forall (fun b => 32 <= b < 127) (escapes quotes l)
  /\ switch_u8_escape buf sz (encode l ++ 0 :: q) quotes = Ok (text, zlen (escapes quotes l))
  /\ switch_u8_unescape out n text = Ok (encode l ++ 0 :: drop (length (encode l) + 1) out, zlen (encode l)).
Proof.
  intros F A R N text. split; [|split].
  - clear -F. induction F as [|c l H _ IH]; [constructor|]. apply Forall_app. split; [by apply escaped_printable|exact IH].
  - pose proof (encode_length l F).
    pose proof (escape_loop_ok quotes l F (S (length (encode l ++ 0 :: q))) [] buf sz [] q ltac:(rewrite length_app; lia) ltac:(cbn [length app]; lia)) as K.
    unfold switch_u8_escape. cbn [app length] in K. change (Z.of_nat 0) with 0 in K. rewrite K. unfold text. by rewrite <- app_assoc.
  - pose proof (escapes_length quotes l F).
    pose proof (unescape_loop_ok quotes l F A (S (length text)) [] out n [] (drop (length (escapes quotes l) + 1) buf)
      ltac:(unfold text; rewrite length_app; lia) ltac:(cbn [length app]; lia)) as K.
    unfold switch_u8_unescape. cbn [app length] in K. change (Z.of_nat 0) with 0 in K. unfold text at 2. rewrite K. by rewrite <- app_assoc.
Qed.

(** ** Defects, as computations *)

(** Counting the characters of any string goes behind its terminator: in a block
    that ends with it, and into what follows when that continues a character. *)
Lemma strlen_overruns : switch_u8_strlen [104; 105; 0] = UB /\ switch_u8_strlen [104; 105; 0; 128; 0; 0] = Ok 3.
Proof. by split. Qed.

(** A string that ends in a backslash, or in the first byte of a character, makes
    the functions read behind it. *)
Lemma unescape_overruns : switch_u8_unescape (replicate 9 7) 9 [104; 92; 0] = UB.
Proof. done. Qed.
Lemma toucs_overruns : switch_u8_toucs (replicate 9 7) 9 [104; 226; 0] (-1) = UB.
Proof. done. Qed.

(** Removing escapes encodes the bytes of a character that is not escaped once more. *)
Lemma unescape_recodes : switch_u8_unescape (replicate 9 7) 9 [195; 169; 0] = Ok ([195; 131; 194; 169; 0; 7; 7; 7; 7], 4).
Proof. done. Qed.

(** A one-digit escape takes a hexadecimal digit that follows with it. *)
Lemma escape_ambiguous : exists b, switch_u8_escape (replicate 9 7) 9 [1; 65; 0] false = Ok (b, 4)
  /\ switch_u8_unescape (replicate 9 7) 9 b = Ok ([26; 0; 7; 7; 7; 7; 7; 7; 7], 1).
Proof. eexists. split; [vm_compute; reflexivity|reflexivity]. Qed.

(** A text that just fits is cut by one, and its length reported in full. *)
Lemma escape_drops_last : switch_u8_escape (replicate 4 7) 2 [104; 105; 0] false = Ok ([104; 0; 7; 7], 2).
Proof. done. Qed.

(** More than five continuing bytes leave the table of offsets. *)
Lemma nextchar_overruns : switch_u8_nextchar ([128; 128; 128; 128; 128; 128; 128] ++ [0]) 0 = UB.
Proof. done. Qed.

(** ** Witnesses *)

Lemma sample_points : Forall code_point sample.
Proof. repeat constructor; unfold code_point; lia. Qed.

Lemma utf8_roundtrip_witness : (Forall code_point sample /\ zlen (encode sample) < 12 <= zlen (replicate 12 7)
    /\ zlen sample < 6 <= zlen (replicate 6 9)) /\
  let bytes := encode sample ++ 0 :: drop (length (encode sample) + 1) (replicate 12 7) in
  switch_u8_toutf8 (replicate 12 7) 12 (sample ++ 0 :: []) (-1) = Ok (bytes, zlen sample)
  /\ switch_u8_toucs (replicate 6 9) 6 bytes (-1) = Ok (sample ++ 0 :: drop (length sample + 1) (replicate 6 9), zlen sample).
Proof.
  split; [split; [apply sample_points|split; cbn; lia]|].
  apply (utf8_roundtrip sample (replicate 12 7) (replicate 6 9) 12 6 []); [apply sample_points|cbn; lia|cbn; lia].
Defined.

Lemma utf8_positions_witness : (Forall code_point sample /\ 0 <= 2 <= zlen sample) /\
  let s := encode sample ++ 0 :: [0] in
  let at_ k := zlen (encode (take k sample)) in
  switch_u8_offset s 2 = Ok (at_ (Z.to_nat 2))
  /\ switch_u8_charnum s (at_ (Z.to_nat 2)) = Ok 2
  /\ switch_u8_strchr s 8364 = Ok (match position 8364 sample with Some j => (Some (at_ j), Z.of_nat j) | None => (None, zlen sample) end)
  /\ (forall x q, [0] = x :: q -> isutf x = true -> switch_u8_strlen s = Ok (zlen sample)).
Proof.
  split; [split; [apply sample_points|cbn; lia]|]. apply (utf8_positions sample [0] 2 8364); [apply sample_points|cbn; lia].
Defined.

Lemma utf8_escape_roundtrip_witness : (Forall code_point (1 :: 34 :: sample) /\ unambiguous (1 :: 34 :: sample)
    /\ zlen (escapes true (1 :: 34 :: sample)) < 40 <= zlen (replicate 40 7)
    /\ zlen (encode (1 :: 34 :: sample)) < 20 <= zlen (replicate 20 9)) /\
  let l := 1 :: 34 :: sample in
  let text := escapes true l ++ 0 :: drop (length (escapes true l) + 1) (replicate 40 7) in
  Forall (fun b => 32 <= b < 127) (escapes true l)
  /\ switch_u8_escape (replicate 40 7) 40 (encode l ++ 0 :: []) true = Ok (text, zlen (escapes true l))
  /\ switch_u8_unescape (replicate 20 9) 20 text = Ok (encode l ++ 0 :: drop (length (encode l) + 1) (replicate 20 9), zlen (encode l)).
Proof.
  assert (F : Forall code_point (1 :: 34 :: sample)) by (repeat constructor; unfold code_point; lia).
  assert (A : unambiguous (1 :: 34 :: sample)) by (vm_compute; repeat split; intros; congruence).
  split; [split; [exact F|split; [exact A|split; cbn; lia]]|].
  apply (utf8_escape_roundtrip true (1 :: 34 :: sample) (replicate 40 7) (replicate 20 9) [] 40 20); [exact F|exact A|cbn; lia|cbn; lia].
Defined.
