(* ===== verification/Acl.v ===== *)
(** * Network access lists (src/switch_utils.c, src/switch_core.c)

    The lists of networks that calls, registrations and the event socket are
    checked against, the parser of [10.0.0.0/8] and [fe80::/10], the lists that
    the core makes itself and those of acl.conf.  [inet_pton] is a parameter: it
    gives the bytes of an address in network order.  XML elements are what
    [switch_xml_attr] and the chains of [switch_xml_child] return. *)
From stdpp Require Import strings.
From S2P Require Import Prelude Bytes CStrings StringUtils Separator.
From Stdlib Require Import String Ascii.
Open Scope Z_scope.
#[local] Notation length := List.length (only parsing).

(** ** Data

    [ip_t] is a union: sixteen bytes, of which the first four are also a number. *)

Definition ip_t : Type := list Z.
Definition v4 (ip : ip_t) : Z := le_val (take 4 ip).
Definition set_v4 (x : Z) (ip : ip_t) : ip_t := le_bytes 4 x ++ drop 4 ip.
Definition set_bytes (bytes : list Z) (ip : ip_t) : ip_t := bytes ++ drop (length bytes) ip.

Inductive family := AF_UNSPEC | AF_INET | AF_INET6.
#[export] Instance family_eq_dec : EqDecision family.
Proof. solve_decision. Defined.

Record switch_network_node := Node {
  ip : ip_t; mask : ip_t; bits : Z; node_family : family; ok : bool;
  node_token : option string; str : string }.

(** [node_head] is the chain of nodes, the newest first. *)
Record switch_network_list := NetworkList {
  node_head : list switch_network_node; default_type : bool; name : string }.
#[export] Instance eta_list : Eta switch_network_list :=
  fun l => NetworkList (node_head l) (default_type l) (name l).

Definition switch_network_list_create (name : string) (default_type : bool) : switch_network_list :=
  NetworkList [] default_type name.

(** ** Tests *)

Definition switch_test_subnet (ip net mask : Z) : bool :=
  if negb (mask =? 0) then Z.land net mask =? Z.land ip mask
  else if negb (net =? 0) then net =? ip else true.

Definition in6_unspecified (ip : ip_t) : bool := forallb (fun b => b =? 0) ip.
Definition in6_and_mask (ip mask : ip_t) : ip_t := zip_with Z.land ip mask.
Definition switch_testv6_subnet (ip net mask : ip_t) : bool :=
  if negb (in6_unspecified mask) then bool_decide (in6_and_mask net mask = in6_and_mask ip mask)
  else if negb (in6_unspecified net) then bool_decide (net = ip) else true.

(** The loop that both kinds of addresses are looked up with. *)
Fixpoint validate_loop (applies : switch_network_node -> bool) (nodes : list switch_network_node)
    (best : Z) (res : bool) (token : option string) : bool * option string :=
  match nodes with
  | [] => (res, token)
  | node :: nodes =>
    if (best <=? bits node) && applies node
    then validate_loop applies nodes (bits node) (ok node) (node_token node)
    else validate_loop applies nodes best res token
  end.

Definition applies4 (ip4 : Z) (node : switch_network_node) : bool :=
  negb (bool_decide (node_family node = AF_INET6)) && switch_test_subnet ip4 (v4 (ip node)) (v4 (mask node)).
Definition applies6 (ip6 : ip_t) (node : switch_network_node) : bool :=
  negb (bool_decide (node_family node = AF_INET)) && switch_testv6_subnet ip6 (ip node) (mask node).

Definition switch_network_list_validate_ip_token (l : switch_network_list) (ip4 : Z) (token : option string)
  : bool * option string := validate_loop (applies4 ip4) (node_head l) 0 (default_type l) token.
Definition switch_network_list_validate_ip6_token (l : switch_network_list) (ip6 : ip_t) (token : option string)
  : bool * option string := validate_loop (applies6 ip6) (node_head l) 0 (default_type l) token.

(** The text behind [::ffff:]. *)
Fixpoint strip_nocase (p s : string) : option string :=
  match p, s with
  | EmptyString, _ => Some s
  | String c p, String d s => if lower c =c lower d then strip_nocase p s else None
  | _, EmptyString => None
  end.
Definition switch_network_ipv4_mapped_ipv6_addr (ip_str : string) : option string := strip_nocase "::ffff:" ip_str.

(** ** Lists *)

Section Acl.
(** [inet_pton] for the two families; what [0xFFFFFFFF >> 32] yields, which C
    leaves undefined (0 on ARM); and the bytes of uninitialised variables. *)
Context (pton4 pton6 : string -> option (list Z)) (over : Z) (junk : ip_t).

Definition inet_pton (pton : string -> option (list Z)) (src : string) (dst : ip_t) : ip_t :=
  match pton src with Some bytes => set_bytes bytes dst | None => dst end.

Definition ones_right (bits : Z) : Z := if bits =? 32 then over else Z.shiftr 4294967295 bits.
Definition mask4 (bits : Z) : Z := Z.land 4294967295 (Z.lnot (ones_right bits)).
Fixpoint mask6 (len : nat) (n : Z) : list Z :=
  match len with
  | O => []
  | S len =>
    if 8 <=? n then 255 :: mask6 len (n - 8)
    else Z.land 255 (Z.lnot (Z.shiftr 255 n)) :: mask6 len (n - n)
  end.

(** The error code, or the address, the mask and the number of bits.  [ip0] and
    [mask0] are what the variables hold before. *)
Definition switch_parse_cidr (s : string) (ip0 mask0 : ip_t) : Z + ip_t * ip_t * Z :=
  let host := String.substring 0 126 s in
  match split_at_char "/"%char host with
  | (_, None) => inl (-1)
  | (host, Some bit_str) =>
    let bits := atoi_spaces bit_str in
    if strchr s ":"%char then
      if (bits <? 0) || (128 <? bits) then inl (-2)
      else inr (inet_pton pton6 host ip0, set_bytes (mask6 16 bits) mask0, bits)
    else if (bits <? 0) || (32 <? bits) then inl (-2)
    else
      let ip := inet_pton pton4 host ip0 in
      inr (set_v4 (htonl (v4 ip)) ip, set_v4 (mask4 bits) mask0, bits)
  end.

Definition switch_network_list_perform_add_cidr_token (l : switch_network_list) (cidr_str : string) (ok : bool)
    (token : option string) : switch_network_list * switch_status :=
  let cidr_str := default cidr_str (switch_network_ipv4_mapped_ipv6_addr cidr_str) in
  match switch_parse_cidr cidr_str junk junk with
  | inl _ => (l, SWITCH_STATUS_GENERR)
  | inr (ip, mask, bits) =>
    let node := Node ip mask bits (if strchr cidr_str ":"%char then AF_INET6 else AF_INET) ok
                     (if zstr token then None else token) cidr_str in
    (l <| node_head := node :: node_head l |>, SWITCH_STATUS_SUCCESS)
  end.

Fixpoint add_cidrs (l : switch_network_list) (argv : list string) (ok : bool) (token : option string)
    (status : switch_status) : switch_network_list * switch_status :=
  match argv with
  | [] => (l, status)
  | a :: argv =>
    let '(l, this_status) := switch_network_list_perform_add_cidr_token l a ok token in
    add_cidrs l argv ok token (if decide (this_status = SWITCH_STATUS_SUCCESS) then status else this_status)
  end.

Definition switch_network_list_add_cidr_token (l : switch_network_list) (cidr_str : string) (ok : bool)
    (token : option string) : outcome (switch_network_list * switch_status) :=
  if strchr cidr_str ","%char then
    let* argv := switch_separate_string (Some cidr_str) ","%char 32 in
    Ok (add_cidrs l argv ok token SWITCH_STATUS_SUCCESS)
  else Ok (switch_network_list_perform_add_cidr_token l cidr_str ok token).

(** Bits set in a word, added up in fields of two, four and eight bits. *)
Definition bit_count (m : Z) : Z :=
  let m := u32 (m - Z.land (Z.shiftr m 1) 1431655765) in
  let m := u32 (Z.land m 858993459 + Z.land (Z.shiftr m 2) 858993459) in
  Z.shiftr (u32 (Z.land (u32 (m + Z.shiftr m 4)) 252645135 * 16843009)) 24.

Definition switch_network_list_add_host_mask (l : switch_network_list) (host mask_str : string) (ok : bool)
  : switch_network_list * switch_status :=
  let ip := inet_pton pton4 host junk in
  let mask := inet_pton pton4 mask_str junk in
  let zero := replicate 16 0 in
  let node := Node (set_v4 (ntohl (v4 ip)) zero) (set_v4 (ntohl (v4 mask)) zero) (bit_count (v4 mask)) AF_UNSPEC ok
                   None (host +:+ ":" +:+ mask_str) in
  (l <| node_head := node :: node_head l |>, SWITCH_STATUS_SUCCESS).

(** ** The check

    [lists] is the table of lists.  A name that is not in it may be a network
    itself, or several that are separated by commas. *)

Definition test_net (ip6 : bool) (ip net mask : ip_t) : bool :=
  if ip6 then switch_testv6_subnet ip net mask else switch_test_subnet (v4 ip) (v4 net) (v4 mask).
Definition parse_net (s : string) (vars : ip_t * ip_t) : ip_t * ip_t :=
  match switch_parse_cidr s vars.1 vars.2 with inl _ => vars | inr (net, mask, _) => (net, mask) end.
Fixpoint test_nets (ip6 : bool) (ip : ip_t) (argv : list string) (vars : ip_t * ip_t) : bool :=
  match argv with
  | [] => false
  | a :: argv =>
    let vars := parse_net a vars in
    if test_net ip6 ip vars.1 vars.2 then true else test_nets ip6 ip argv vars
  end.

Definition switch_check_network_list_ip_token (lists : gmap string switch_network_list) (ip_str : string)
    (list_name token : option string) : outcome (bool * option string) :=
  match list_name with
  | None => Ok (false, token)
  | Some list_name =>
    let mapped := switch_network_ipv4_mapped_ipv6_addr ip_str in
    let ip6 := match mapped with Some _ => false | None => strchr ip_str ":"%char end in
    let ip_str := default ip_str mapped in
    let ip := if ip6 then inet_pton pton6 ip_str junk
              else let ip := inet_pton pton4 ip_str junk in set_v4 (htonl (v4 ip)) ip in
    match lists !! list_name with
    | Some l =>
      Ok (if ip6 then switch_network_list_validate_ip6_token l ip token
          else switch_network_list_validate_ip_token l (v4 ip) token)
    | None =>
      if strchr list_name "/"%char then
        if strchr list_name ","%char then
          let* argv := switch_separate_string (Some list_name) ","%char 32 in
          Ok (test_nets ip6 ip argv (junk, junk), token)
        else let vars := parse_net list_name (junk, junk) in Ok (test_net ip6 ip vars.1 vars.2, token)
      else Ok (false, token)
    end
  end.

(** ** Loading *)

(** An XML element: the value of an attribute, the chain of children with a name. *)
Inductive xml := Xml (attr : string -> option string) (children : string -> list xml).
Definition xattr (x : xml) : string -> option string := let '(Xml a _) := x in a.
Definition xchildren (x : xml) : string -> list xml := let '(Xml _ c) := x in c.

Definition add_user (domain : string) (ok : bool) (l : switch_network_list) (ut : xml) : outcome switch_network_list :=
  match xattr ut "id", xattr ut "cidr" with
  | Some id, Some user_cidr =>
    let* (l, _) := switch_network_list_add_cidr_token l user_cidr ok (Some (id +:+ "@" +:+ domain)) in Ok l
  | _, _ => Ok l
  end.
Fixpoint add_users (domain : string) (ok : bool) (l : switch_network_list) (uts : list xml)
  : outcome switch_network_list :=
  match uts with
  | [] => Ok l
  | ut :: uts => let* l := add_user domain ok l ut in add_users domain ok l uts
  end.

(** The users of a domain, in the order of the loops; a [users] element takes
    the place of the domain, its groups included. *)
Definition domain_users (x_domain : xml) : list xml :=
  let x_domain := match xchildren x_domain "users" with ut :: _ => ut | [] => x_domain end in
  xchildren x_domain "user" ++
  (gts ← xchildren x_domain "groups"; gt ← xchildren gts "group";
   uts ← xchildren gt "users"; xchildren uts "user").

(** The calls made of the rest of the system: domains of the directory, and the
    address and mask of the machine. *)
Context (locate : string -> option xml) (guess_ip guess_mask : string).

(** [None]: the element is skipped before the list is entered into the table. *)
Definition add_x_node (l : switch_network_list) (x_node : xml) : outcome (option switch_network_list) :=
  let ok := match xattr x_node "type" with Some t => switch_true (Some t) | None => default_type l end in
  match xattr x_node "domain" with
  | Some domain =>
    match locate domain with
    | None => Ok None
    | Some x_domain => let* l := add_users domain ok l (domain_users x_domain) in Ok (Some l)
    end
  | None =>
    match xattr x_node "cidr" with
    | Some cidr => let* (l, _) := switch_network_list_add_cidr_token l cidr ok None in Ok (Some l)
    | None =>
      match xattr x_node "host", xattr x_node "mask" with
      | Some host, Some mask => Ok (Some (switch_network_list_add_host_mask l host mask ok).1)
      | _, _ => Ok (Some l)
      end
    end
  end.

Definition ip_lists := gmap string switch_network_list.

Fixpoint add_nodes (lists : ip_lists) (nm : string) (l : switch_network_list) (x_nodes : list xml) : outcome ip_lists :=
  match x_nodes with
  | [] => Ok lists
  | x :: x_nodes =>
    let* r := add_x_node l x in
    match r with
    | None => add_nodes lists nm l x_nodes
    | Some l => add_nodes (<[nm := l]> lists) nm l x_nodes
    end
  end.

Definition load_list (lists : ip_lists) (x_list : xml) : outcome ip_lists :=
  if zstr (xattr x_list "name") then Ok lists
  else
    let nm := default EmptyString (xattr x_list "name") in
    let dft := match xattr x_list "default" with Some d => switch_true (Some d) | None => true end in
    add_nodes lists nm (switch_network_list_create nm dft) (xchildren x_list "node").
Fixpoint load_lists (lists : ip_lists) (x_lists : list xml) : outcome ip_lists :=
  match x_lists with
  | [] => Ok lists
  | x :: x_lists => let* lists := load_list lists x in load_lists lists x_lists
  end.

(** A list of the core: its own network first where it has one, then others. *)
Definition auto_list (nm : string) (dft : bool) (own : option bool) (cidrs : list string) (ok : bool)
  : switch_network_list :=
  let l := switch_network_list_create nm dft in
  let l := match own with Some ok => (switch_network_list_add_host_mask l guess_ip guess_mask ok).1 | None => l end in
  fold_left (fun l cidr => (switch_network_list_perform_add_cidr_token l cidr ok None).1) cidrs l.

Definition private_nets : list string := ["10.0.0.0/8"; "172.16.0.0/12"; "192.168.0.0/16"].
Definition special_nets : list string := "0.0.0.0/8" :: private_nets ++ ["169.254.0.0/16"].
Definition auto_lists : list (string * switch_network_list) :=
  let entry nm dft own cidrs ok := (nm, auto_list nm dft own cidrs ok) in
  [entry "rfc6598.auto" false None ["100.64.0.0/10"] true;
   entry "rfc1918.auto" false None (private_nets ++ ["fe80::/10"]) true;
   entry "wan.auto" true None (special_nets ++ ["fe80::/10"]) false;
   entry "wan_v6.auto" true None ["0.0.0.0/0"; "fe80::/10"] false;
   entry "wan_v4.auto" true None (special_nets ++ ["::/0"]) false;
   entry "any_v6.auto" true None ["0.0.0.0/0"] false;
   entry "any_v4.auto" true None ["::/0"] false;
   entry "nat.auto" false (Some false) (private_nets ++ ["100.64.0.0/10"]) true;
   entry "loopback.auto" false None ["127.0.0.0/8"; "::1/128"] true;
   entry "localnet.auto" false (Some true) [] true].

(** [cfg] is the contents of acl.conf. *)
Definition switch_load_network_lists (cfg : option xml) : outcome ip_lists :=
  let auto := fold_left (fun m p => <[p.1 := p.2]> m) auto_lists (∅ : ip_lists) in
  match cfg with
  | None => Ok auto
  | Some cfg =>
    match xchildren cfg "network-lists" with
    | [] => Ok auto
    | x_lists :: _ => load_lists auto (xchildren x_lists "list")
    end
  end.

End Acl.
