(* ===== verification/AclNets.v ===== *)
(** * Access lists: which addresses they allow

    A list is searched for the longest prefix ([acl_longest_prefix]); an entry
    [net/bits] covers the addresses that share the first [bits] bits with it
    ([acl_cidr_exact], [acl_cidr6_exact]); the lists of private and of public
    networks that the core makes are exact ([acl_private_nets]). *)
From stdpp Require Import strings pretty.
From S2P Require Import Prelude Bytes CStrings StringUtils Separator Acl.
From Stdlib Require Import String Ascii.
Open Scope Z_scope.
#[local] Notation length := List.length (only parsing).

(** ** Longest prefix *)

Lemma validate_best applies nodes : forall best res token,
  (forall n, n ∈ nodes -> applies n = true -> bits n < best) /\
    validate_loop applies nodes best res token = (res, token)
  \/ exists before n after, nodes = before ++ n :: after /\ applies n = true /\ best <= bits n /\
    (forall m, m ∈ before -> applies m = true -> bits m <= bits n) /\
    (forall m, m ∈ after -> applies m = true -> bits m < bits n) /\
    validate_loop applies nodes best res token = (ok n, node_token n).
Proof.
  induction nodes as [|a nodes IH]; intros best res token; [left; set_solver|]. cbn [validate_loop].
  destruct ((best <=? bits a) && applies a) eqn:E; btests.
  - destruct (IH (bits a) (ok a) (node_token a)) as [(L & ->)|(p & n & q & -> & An & B & P & Q & ->)]; right.
    + exists [], a, nodes. split_and!; try done. set_solver.
    + exists (a :: p), n, q. split_and!; try done; [lia|]. intros m [->|Hm]%elem_of_cons; [done|by apply P].
  - assert (K : applies a = true -> bits a < best) by (intros A; rewrite A, andb_true_r in E; lia).
    destruct (IH best res token) as [(L & ->)|(p & n & q & -> & An & B & P & Q & ->)].
    + left. split; [|done]. intros m [->|Hm]%elem_of_cons; [done|by apply L].
    + right. exists (a :: p), n, q. split_and!; try done.
      intros m [->|Hm]%elem_of_cons; [intros A%K; lia|by apply P].
Qed.

(** A list with one kind of entries is their union. *)
Lemma validate_uniform applies nodes o : Forall (fun n => 0 <= bits n /\ ok n = o /\ node_token n = None) nodes ->
  validate_loop applies nodes 0 (negb o) None = (if existsb applies nodes then o else negb o, None).
Proof.
  intros U. rewrite Forall_forall in U.
  destruct (validate_best applies nodes 0 (negb o) None) as [(L & ->)|(p & n & q & -> & An & _ & _ & _ & ->)].
  - destruct (existsb applies nodes) eqn:E; [|done]. apply existsb_exists in E as (n & Hn & An).
    apply list_elem_of_In in Hn. destruct (U n Hn) as [? _]. specialize (L n Hn An). lia.
  - destruct (U n) as (_ & -> & ->); [set_solver|].
    replace (existsb _ _) with true; [done|]. symmetry. apply existsb_exists. exists n. split; [|done].
    apply list_elem_of_In. set_solver.
Qed.

(** ** Masks *)

Definition be_val (bytes : list Z) : Z := le_val (reverse bytes).
(** The addresses of [net/bits] as the code has them; with no bits, the network
    zero is every address and another network is one address. *)
Definition in_net (len bits ip net : Z) : bool :=
  if bits =? 0 then (net =? 0) || (net =? ip) else net / 2 ^ (len - bits) =? ip / 2 ^ (len - bits).

Lemma land_high x n k : 0 <= k -> 0 <= n -> 0 <= x < 2 ^ (n + k) ->
  Z.land x (2 ^ (n + k) - 2 ^ k) = x / 2 ^ k * 2 ^ k.
Proof.
  intros Hk Hn Hx. replace (2 ^ (n + k) - 2 ^ k) with (Z.shiftl (Z.ones n) k).
  2: { rewrite Z.shiftl_mul_pow2, Z.ones_equiv by done. rewrite Z.pow_add_r by done. lia. }
  transitivity (Z.shiftl (Z.land (Z.shiftr x k) (Z.ones n)) k).
  - apply Z.bits_inj'. intros i Hi. rewrite Z.land_spec, !Z.shiftl_spec, Z.land_spec by done.
    destruct (decide (k <= i)).
    + rewrite Z.shiftr_spec by lia. by rewrite Z.sub_add.
    + rewrite (Z.testbit_neg_r (Z.ones n)) by lia. by rewrite !andb_false_r.
  - rewrite Z.land_ones, Z.shiftl_mul_pow2, Z.shiftr_div_pow2 by done. f_equal. apply Z.mod_small.
    split; [apply Z.div_pos; lia|]. apply Z.div_lt_upper_bound; [lia|]. rewrite <- Z.pow_add_r by done.
    rewrite (Z.add_comm k). lia.
Qed.

Lemma mask4_ones over b : over = 0 \/ b <> 32 -> 0 <= b <= 32 -> mask4 over b = 2 ^ 32 - 2 ^ (32 - b).
Proof.
  intros O Hb. destruct (decide (b = 32)) as [->|N]; [destruct O as [->|?]; [reflexivity|done]|].
  assert (K : mask4 0 b = 2 ^ 32 - 2 ^ (32 - b)).
  { apply Z.eqb_eq, (below 33 (fun b => mask4 0 b =? 2 ^ 32 - 2 ^ (32 - b))); [by vm_compute|lia]. }
  rewrite <- K. unfold mask4, ones_right. by apply Z.eqb_neq in N as ->.
Qed.

Lemma test_subnet_exact over b ip net : over = 0 \/ b <> 32 -> 0 <= b <= 32 -> 0 <= ip < 2 ^ 32 -> 0 <= net < 2 ^ 32 ->
  switch_test_subnet ip net (mask4 over b) = in_net 32 b ip net.
Proof.
  intros O Hb Hi Hn. rewrite mask4_ones by done. unfold switch_test_subnet, in_net.
  destruct (Z.eqb_spec b 0) as [->|B]; [cbn; by destruct (net =? 0)|].
  assert (P : 2 ^ (32 - b) < 2 ^ 32) by (apply Z.pow_lt_mono_r; lia).
  replace (2 ^ 32 - _ =? 0) with false by lia. cbn [negb].
  pose proof (land_high net b (32 - b)) as L1. pose proof (land_high ip b (32 - b)) as L2.
  replace (b + (32 - b)) with 32 in * by lia. rewrite L1, L2 by lia.
  assert (0 < 2 ^ (32 - b)) by (apply Z.pow_pos_nonneg; lia).
  apply eq_bool_prop_intro. rewrite !Is_true_true, !Z.eqb_eq. rewrite Z.mul_cancel_r; [done|lia].
Qed.

Lemma be_val_cons b bytes : be_val (b :: bytes) = b * 256 ^ zlen bytes + be_val bytes.
Proof.
  unfold be_val. rewrite reverse_cons, <- (length_reverse bytes).
  induction (reverse bytes) as [|c l IH]; [cbn; lia|]. cbn [app le_val length]. rewrite IH, Nat2Z.inj_succ, Z.pow_succ_r by lia.
  lia.
Qed.
Lemma be_range bytes : Forall byte bytes -> 0 <= be_val bytes < 256 ^ zlen bytes.
Proof.
  intros B. unfold be_val. pose proof (le_range (reverse bytes)) as R. rewrite length_reverse in R.
  change 256 with (2 ^ 8). rewrite <- Z.pow_mul_r by lia. apply R. by apply Forall_reverse.
Qed.

Lemma div_split x y r s m : 0 <= r < m -> 0 <= s < m -> (x * m + r = y * m + s <-> x = y /\ r = s).
Proof.
  intros Hr Hs. split; [intros E|by intros [-> ->]].
  destruct (Z.lt_trichotomy x y) as [L|[->|L]]; [nia|lia|nia].
Qed.

Lemma quotient_cons x r p q : 0 <= p -> 0 <= q -> (x * 2 ^ (p + q) + r) / 2 ^ q = x * 2 ^ p + r / 2 ^ q.
Proof.
  intros Hp Hq. rewrite Z.pow_add_r by lia. replace (x * (2 ^ p * 2 ^ q)) with (x * 2 ^ p * 2 ^ q) by lia.
  rewrite Z.div_add_l by lia. done.
Qed.

Lemma byte_mask n x y : 0 <= n < 8 -> byte x -> byte y ->
  Z.land x (Z.land 255 (Z.lnot (Z.shiftr 255 n))) = Z.land y (Z.land 255 (Z.lnot (Z.shiftr 255 n)))
  <-> x / 2 ^ (8 - n) = y / 2 ^ (8 - n).
Proof.
  intros Hn Hx Hy.
  assert (K : forall z, byte z -> Z.land z (Z.land 255 (Z.lnot (Z.shiftr 255 n))) = z / 2 ^ (8 - n) * 2 ^ (8 - n)).
  { intros z Hz. replace (Z.land 255 _) with (2 ^ (n + (8 - n)) - 2 ^ (8 - n)).
    - apply land_high; try lia. replace (n + (8 - n)) with 8 by lia. exact Hz.
    - apply Z.eqb_eq, (below 8 (fun n => 2 ^ (n + (8 - n)) - 2 ^ (8 - n) =? Z.land 255 (Z.lnot (Z.shiftr 255 n)))); [by vm_compute|lia]. }
  rewrite !K by done. assert (0 < 2 ^ (8 - n)) by (apply Z.pow_pos_nonneg; lia). apply Z.mul_cancel_r. lia.
Qed.

Lemma byte_full x : byte x -> Z.land x 255 = x.
Proof. intros Hx. change 255 with (Z.ones 8). rewrite Z.land_ones by lia. apply Z.mod_small, Hx. Qed.

Lemma mask6_none len : mask6 len 0 = replicate len 0.
Proof. induction len as [|len IH]; [done|]. cbn [mask6 Z.leb Z.compare]. change (0 - 0) with 0. by rewrite IH. Qed.
Lemma and_zero len l : length l = len -> in6_and_mask l (replicate len 0) = replicate len 0.
Proof.
  revert l. induction len as [|len IH]; intros [|x l]; try done. intros [= E]. cbn. rewrite Z.land_0_r.
  f_equal. by apply IH.
Qed.

Lemma and_cons a x m ms : in6_and_mask (a :: x) (m :: ms) = Z.land a m :: in6_and_mask x ms.
Proof. done. Qed.

(** Equal under the mask: the same first [n] bits. *)
Lemma mask6_exact len : forall n x y, length x = len -> length y = len -> Forall byte x -> Forall byte y ->
  0 <= n <= 8 * Z.of_nat len ->
  (in6_and_mask x (mask6 len n) = in6_and_mask y (mask6 len n) <->
   be_val x / 2 ^ (8 * Z.of_nat len - n) = be_val y / 2 ^ (8 * Z.of_nat len - n)).
Proof.
  induction len as [|len IH]; intros n [|a x] [|b y]; try done. intros [= Lx] [= Ly] [Ba Bx]%Forall_cons [Bb By]%Forall_cons Hn.
  rewrite !be_val_cons, Lx, Ly. change 256 with (2 ^ 8). rewrite <- !Z.pow_mul_r by lia.
  cbn [mask6]. destruct (Z.leb_spec 8 n); rewrite !and_cons.
  - rewrite !byte_full by done. replace (8 * Z.of_nat (Datatypes.S len) - n) with (8 * Z.of_nat len - (n - 8)) by lia.
    set (k := 8 * Z.of_nat len - (n - 8)). replace (8 * Z.of_nat len) with (n - 8 + k) by lia.
    assert (R : forall l, Forall byte l -> length l = len -> 0 <= be_val l / 2 ^ k < 2 ^ (n - 8)).
    { intros l B L. apply be_range in B. rewrite L in B. change 256 with (2 ^ 8) in B. rewrite <- Z.pow_mul_r in B by lia.
      replace (8 * Z.of_nat len) with (k + (n - 8)) in B by lia. rewrite Z.pow_add_r in B by lia.
      split; [apply Z.div_pos; lia|]. apply Z.div_lt_upper_bound; lia. }
    rewrite !quotient_cons by lia. rewrite div_split by auto.
    assert (I := IH (n - 8) x y Lx Ly Bx By ltac:(lia)). fold k in I. rewrite <- I.
    split; [by intros [= -> ->]|by intros [-> ->]].
  - replace (n - n) with 0 by lia. rewrite mask6_none, !and_zero by done.
    set (k := 8 * Z.of_nat len). assert (0 <= k) by (subst k; lia).
    replace (8 * Z.of_nat (Datatypes.S len) - n) with (8 - n + k) by lia.
    assert (0 < 2 ^ k) by (apply Z.pow_pos_nonneg; lia). assert (0 < 2 ^ (8 - n)) by (apply Z.pow_pos_nonneg; lia).
    assert (R : forall c l, Forall byte l -> length l = len -> (c * 2 ^ k + be_val l) / 2 ^ (8 - n + k) = c / 2 ^ (8 - n)).
    { intros c l B L. apply be_range in B. rewrite L in B. change 256 with (2 ^ 8) in B. rewrite <- Z.pow_mul_r in B by lia.
      rewrite (Z.add_comm (8 - n)), Z.pow_add_r, <- Z.div_div by lia. rewrite Z.div_add_l by lia.
      rewrite (Z.div_small (be_val l)) by done. by rewrite Z.add_0_r. }
    rewrite !R by done. rewrite <- byte_mask by (done || lia). split; [by intros [= ->]|by intros ->].
Qed.

Lemma be_inj x y : Forall byte x -> Forall byte y -> length x = length y -> be_val x = be_val y -> x = y.
Proof.
  intros Bx By L E. apply (inj reverse). apply le_inj; try by apply Forall_reverse. by rewrite !length_reverse. done.
Qed.
Lemma unspecified_zero x : Forall byte x -> in6_unspecified x = (be_val x =? 0).
Proof.
  induction 1 as [|b x B H IH]; [done|]. change (in6_unspecified (b :: x)) with ((b =? 0) && in6_unspecified x).
  rewrite IH, be_val_cons. apply be_range in H. destruct B, H. destruct (Z.eqb_spec b 0) as [->|]; [done|].
  symmetry. apply Z.eqb_neq. nia.
Qed.
Lemma mask6_length len : forall n, length (mask6 len n) = len.
Proof. induction len as [|len IH]; intros n; [done|]. cbn [mask6]. ifcase; cbn; by rewrite IH. Qed.

Lemma testv6_exact b ip net : length ip = 16%nat -> length net = 16%nat -> Forall byte ip -> Forall byte net ->
  0 <= b <= 128 -> switch_testv6_subnet ip net (mask6 16 b) = in_net 128 b (be_val ip) (be_val net).
Proof.
  intros Li Ln Bi Bn Hb. unfold switch_testv6_subnet, in_net.
  assert (U : in6_unspecified (mask6 16 b) = (b =? 0)).
  { apply eqb_prop, (below 129 (fun b => Bool.eqb (in6_unspecified (mask6 16 b)) (b =? 0))); [by vm_compute|lia]. }
  rewrite U. destruct (b =? 0); cbn [negb].
  - rewrite unspecified_zero by done. destruct (be_val net =? 0); [done|]. cbn [negb orb].
    apply eq_bool_prop_intro. rewrite bool_decide_spec, Is_true_true, Z.eqb_eq. split; [by intros ->|].
    apply be_inj; congruence.
  - apply eq_bool_prop_intro. rewrite bool_decide_spec, Is_true_true, Z.eqb_eq. apply (mask6_exact 16 b); done || lia.
Qed.

(** ** The text of an entry *)

Definition dec (b : Z) : string := pretty b.
Lemma dec_reads b : 0 <= b <= 128 -> atoi_spaces (dec b) = b /\ strchr (dec b) ":" = false /\ (String.length (dec b) <= 3)%nat.
Proof.
  intros Hb.
  assert (K : (atoi_spaces (dec b) =? b) && negb (strchr (dec b) ":") && (String.length (dec b) <=? 3)%nat = true).
  { apply (below 129 (fun b => (atoi_spaces (dec b) =? b) && negb (strchr (dec b) ":") && (String.length (dec b) <=? 3)%nat));
      [by vm_compute|lia]. }
  btests. split_and!; [done..|by apply Nat.leb_le].
Qed.

Lemma mapped_none s : strchr s ":" = false -> switch_network_ipv4_mapped_ipv6_addr s = None.
Proof.
  destruct s as [|c s]; [done|]. intros [N _]%orb_false_elim. unfold switch_network_ipv4_mapped_ipv6_addr.
  cbn [strip_nocase]. destruct (lower ":" =c lower c) eqn:E; [|done].
  exfalso. revert N E. destruct c as [[] [] [] [] [] [] [] []]; vm_compute; discriminate.
Qed.

(** [host/b], where the host is a text without a slash. *)
Definition entry_text (host : string) (b : Z) : string := host +:+ String "/" (dec b).
Definition host_text (host : string) : Prop := strchr host "/" = false /\ (String.length host <= 122)%nat.

Section Entries.
Context (pton4 pton6 : string -> option (list Z)) (over : Z).

Lemma parse_entry host b ip0 mask0 : host_text host -> 0 <= b <= 128 ->
  switch_parse_cidr pton4 pton6 over (entry_text host b) ip0 mask0 =
  if strchr host ":" then inr (inet_pton pton6 host ip0, set_bytes (mask6 16 b) mask0, b)
  else if 32 <? b then inl (-2)
  else let ip := inet_pton pton4 host ip0 in inr (set_v4 (htonl (v4 ip)) ip, set_v4 (mask4 over b) mask0, b).
Proof.
  intros [HH HL] Hb. destruct (dec_reads b Hb) as (D1 & D2 & D3). unfold switch_parse_cidr, entry_text.
  rewrite substring_whole by (rewrite length_sapp; cbn; lia). rewrite split_here by done. rewrite D1, strchr_app.
  cbn [strchr]. rewrite D2. change ("/" =c ":") with false. rewrite !orb_false_r.
  replace (b <? 0) with false by lia. cbn [orb]. destruct (strchr host ":"); [|done].
  by replace (128 <? b) with false by lia.
Qed.

(** ** What an entry covers *)

Definition address (len : nat) (bytes : list Z) : Prop := length bytes = len /\ Forall byte bytes.

Lemma v4_set_v4 x ip : v4 (set_v4 x ip) = u32 x.
Proof.
  unfold v4, set_v4. rewrite take_app_le by (rewrite le_bytes_length; lia).
  rewrite firstn_all2 by (rewrite le_bytes_length; lia). by rewrite le_val_bytes.
Qed.
Lemma v4_pton host bytes ip0 : pton4 host = Some bytes -> address 4 bytes ->
  v4 (set_v4 (htonl (v4 (inet_pton pton4 host ip0))) (inet_pton pton4 host ip0)) = be_val bytes.
Proof.
  intros P [L B]. rewrite v4_set_v4. unfold inet_pton. rewrite P. unfold v4, set_bytes.
  rewrite take_app_le by lia. rewrite firstn_all2 by lia. unfold u32.
  change 32 with (8 * Z.of_nat 4). rewrite <- le_val_bytes, swap32_bytes. unfold be_val.
  f_equal. rewrite <- L at 1. by rewrite le_bytes_val.
Qed.
Lemma be_val_range4 bytes : address 4 bytes -> 0 <= be_val bytes < 2 ^ 32.
Proof. intros [L B]. apply be_range in B. by rewrite L in B. Qed.

Context (junk : ip_t).

Lemma entry4 l host b bytes o token x : host_text host -> strchr host ":" = false -> pton4 host = Some bytes ->
  address 4 bytes -> 0 <= b <= 32 -> over = 0 \/ b <> 32 -> 0 <= x < 2 ^ 32 ->
  exists n, switch_network_list_perform_add_cidr_token pton4 pton6 over junk l (entry_text host b) o token =
      (l <| node_head := n :: node_head l |>, SWITCH_STATUS_SUCCESS) /\
    bits n = b /\ ok n = o /\ node_token n = (if zstr token then None else token) /\ node_family n = AF_INET /\
    applies4 x n = in_net 32 b x (be_val bytes).
Proof.
  intros HT NC P A Hb O Hx.
  assert (NE : strchr (entry_text host b) ":" = false).
  { unfold entry_text. rewrite strchr_app, NC. cbn [strchr]. by apply dec_reads; lia. }
  unfold switch_network_list_perform_add_cidr_token. rewrite mapped_none by done. cbn [default].
  rewrite parse_entry, NC by (done || lia). replace (32 <? b) with false by lia. cbv zeta.
  eexists. split; [reflexivity|]. rewrite NE. split_and!; try done. unfold applies4. cbn [node_family ip mask].
  rewrite v4_pton with (bytes := bytes), v4_set_v4 by done. cbn [negb andb bool_decide decide].
  rewrite bool_decide_eq_false_2 by done. cbn [negb andb].
  rewrite (u32_small (mask4 over b)).
  - apply test_subnet_exact; try done. by apply be_val_range4.
  - rewrite mask4_ones by done. assert (0 < 2 ^ (32 - b) <= 2 ^ 32); [|lia].
    split; [apply Z.pow_pos_nonneg; lia|apply Z.pow_le_mono_r; lia].
Qed.

Context (JUNK : length junk = 16%nat).

Lemma entry6 l host b bytes o token ip6 : host_text host -> strchr host ":" = true ->
  switch_network_ipv4_mapped_ipv6_addr (entry_text host b) = None -> pton6 host = Some bytes ->
  address 16 bytes -> 0 <= b <= 128 -> address 16 ip6 ->
  exists n, switch_network_list_perform_add_cidr_token pton4 pton6 over junk l (entry_text host b) o token =
      (l <| node_head := n :: node_head l |>, SWITCH_STATUS_SUCCESS) /\
    bits n = b /\ ok n = o /\ node_token n = (if zstr token then None else token) /\ node_family n = AF_INET6 /\
    applies6 ip6 n = in_net 128 b (be_val ip6) (be_val bytes).
Proof using JUNK.
  intros HT NC M P [Lb Bb] Hb [Li Bi].
  assert (NE : strchr (entry_text host b) ":" = true) by (unfold entry_text; by rewrite strchr_app, NC).
  unfold switch_network_list_perform_add_cidr_token. rewrite M. cbn [default].
  rewrite parse_entry, NC by (done || lia).
  eexists. split; [reflexivity|]. rewrite NE. split_and!; try done. unfold applies6. cbn [node_family ip mask].
  rewrite bool_decide_eq_false_2 by done. cbn [negb andb]. unfold inet_pton, set_bytes. rewrite P, mask6_length.
  rewrite !(drop_ge junk), !app_nil_r by lia. by apply testv6_exact.
Qed.

(** ** The lists that the core makes *)

Lemma entry6_added l host b o token : host_text host -> strchr host ":" = true -> 0 <= b <= 128 ->
  switch_network_ipv4_mapped_ipv6_addr (entry_text host b) = None ->
  exists n, switch_network_list_perform_add_cidr_token pton4 pton6 over junk l (entry_text host b) o token =
      (l <| node_head := n :: node_head l |>, SWITCH_STATUS_SUCCESS) /\
    bits n = b /\ ok n = o /\ node_token n = (if zstr token then None else token) /\ node_family n = AF_INET6.
Proof using Type.
  clear JUNK. intros HT NC Hb M.
  assert (NE : strchr (entry_text host b) ":" = true) by (unfold entry_text; by rewrite strchr_app, NC).
  unfold switch_network_list_perform_add_cidr_token. rewrite M. cbn [default].
  rewrite parse_entry, NC by (done || lia). eexists. split; [reflexivity|]. by rewrite NE.
Qed.

(** IPv4 networks: their text, their bits and their bytes. *)
Definition net4 : Type := string * Z * list Z.
Definition net_text (e : net4) : string := entry_text e.1.1 e.1.2.
Definition net_ok (e : net4) : Prop :=
  (strchr e.1.1 "/" = false /\ strchr e.1.1 ":" = false /\ (String.length e.1.1 <= 122)%nat) /\
  pton4 e.1.1 = Some e.2 /\ address 4 e.2 /\ 0 <= e.1.2 < 32.
Definition net_covers (x : Z) (e : net4) : bool := in_net 32 e.1.2 x (be_val e.2).

Definition one_kind (o : bool) (n : switch_network_node) : Prop := 0 <= bits n /\ ok n = o /\ node_token n = None.
Definition add_all (o : bool) (l : switch_network_list) (cidrs : list string) : switch_network_list :=
  fold_left (fun l cidr => (switch_network_list_perform_add_cidr_token pton4 pton6 over junk l cidr o None).1) cidrs l.

Lemma add_nets o x es : Forall net_ok es -> 0 <= x < 2 ^ 32 -> forall l, Forall (one_kind o) (node_head l) ->
  let l' := add_all o l (net_text <$> es) in
  Forall (one_kind o) (node_head l') /\ default_type l' = default_type l /\
  existsb (applies4 x) (node_head l') = existsb (net_covers x) es || existsb (applies4 x) (node_head l).
Proof using Type.
  clear JUNK. intros G Hx. induction G as [|e es [(H1 & H2 & H3) (P & A & Hb)] G IH]; intros l K; [done|].
  destruct (entry4 l e.1.1 e.1.2 e.2 o None x) as (n & E & B & O & T & _ & C); try done; [lia|right; lia|].
  unfold add_all. cbn [fmap list_fmap fold_left]. unfold net_text at 2 4 6. rewrite E. cbn [fst].
  destruct (IH (l <| node_head := n :: node_head l |>)) as (K' & D & X).
  { rupd. constructor; [|done]. split; [lia|done]. }
  unfold add_all in K', D, X. split_and!; [done|by rewrite D|]. rewrite X. rupd. cbn [existsb]. rewrite C.
  unfold net_covers at 2. rewrite !orb_assoc. f_equal. apply orb_comm.
Qed.

(** A list of IPv4 networks and one of IPv6 allows the former's union. *)
Lemma validate_nets o x es host b nm : Forall net_ok es -> 0 <= x < 2 ^ 32 -> host_text host -> strchr host ":" = true ->
  0 <= b <= 128 -> switch_network_ipv4_mapped_ipv6_addr (entry_text host b) = None ->
  switch_network_list_validate_ip_token
    (add_all o (switch_network_list_create nm (negb o)) ((net_text <$> es) ++ [entry_text host b])) x None =
  (if existsb (net_covers x) es then o else negb o, None).
Proof using Type.
  clear JUNK. intros G Hx HT NC Hb M. unfold add_all. rewrite fold_left_app.
  destruct (add_nets o x es G Hx (switch_network_list_create nm (negb o))) as (K & D & X); [constructor|].
  unfold add_all in *. set (l := fold_left _ (net_text <$> es) _) in *.
  destruct (entry6_added l host b o None HT NC Hb M) as (n & E & B & O & T & F). cbn [fold_left]. rewrite E. cbn [fst].
  unfold switch_network_list_validate_ip_token. rupd. rewrite D. cbn [default_type switch_network_list_create].
  rewrite validate_uniform.
  - cbn [existsb]. rewrite X. cbn [node_head switch_network_list_create existsb]. rewrite orb_false_r.
    unfold applies4 at 1. by rewrite F.
  - constructor; [split; [lia|done]|done].
Qed.

Context (locate : string -> option xml) (guess_ip guess_mask : string).

(** Lists that acl.conf does not name stay as the core made them. *)
Lemma add_nodes_other nm x_nodes : forall lists l lists' nm', nm' <> nm ->
  add_nodes pton4 pton6 over junk locate lists nm' l x_nodes = Ok lists' -> lists' !! nm = lists !! nm.
Proof using Type.
  clear JUNK. induction x_nodes as [|x x_nodes IH]; intros lists l lists' nm' N; [by intros [= ->]|].
  cbn [add_nodes]. destruct (add_x_node _ _ _ _ _ l x) as [[l'|]| |]; try done; intros E; [|eauto].
  rewrite (IH _ _ _ _ N E). by apply (lookup_insert_ne (M := gmap string)).
Qed.
Lemma load_lists_other nm x_lists : Forall (fun x => xattr x "name" <> Some nm) x_lists -> forall lists lists',
  load_lists pton4 pton6 over junk locate lists x_lists = Ok lists' -> lists' !! nm = lists !! nm.
Proof using Type.
  clear JUNK. induction 1 as [|x x_lists N _ IH]; intros lists lists'; [by intros [= ->]|].
  cbn [load_lists]. destruct (load_list _ _ _ _ _ lists x) as [m| |] eqn:E; try done. intros L.
  rewrite (IH _ _ L). unfold load_list in E. revert N E. destruct (xattr x "name") as [nm'|]; cbn [default].
  - intros N. destruct (zstr _); [by intros [= ->]|]. apply add_nodes_other. unfold id. congruence.
  - by intros _ [= ->].
Qed.

Definition configured (cfg : option xml) : list xml :=
  match cfg with
  | Some cfg => match xchildren cfg "network-lists" with x :: _ => xchildren x "list" | [] => [] end
  | None => []
  end.

Lemma auto_lists_kept cfg lists nm : Forall (fun x => xattr x "name" <> Some nm) (configured cfg) ->
  switch_load_network_lists pton4 pton6 over junk locate guess_ip guess_mask cfg = Ok lists ->
  lists !! nm = fold_left (fun m p => <[p.1 := p.2]> m) (auto_lists pton4 pton6 over junk guess_ip guess_mask) (∅ : ip_lists) !! nm.
Proof using Type.
  clear JUNK. unfold switch_load_network_lists, configured. cbv zeta. destruct cfg as [cfg|]; [|by intros _ [= <-]].
  destruct (xchildren cfg "network-lists") as [|x xs]; [by intros _ [= <-]|]. intros N E.
  by apply (load_lists_other nm) in E.
Qed.

Definition nets : Type := list net4.
Definition private : nets :=
  [("10.0.0.0", 8, [10; 0; 0; 0]); ("172.16.0.0", 12, [172; 16; 0; 0]); ("192.168.0.0", 16, [192; 168; 0; 0])].
Definition special : nets := ("0.0.0.0", 8, [0; 0; 0; 0]) :: private ++ [("169.254.0.0", 16, [169; 254; 0; 0])].

(** An address by its ranges. *)
Definition is_private (x : Z) : bool :=
  ((10 * 2 ^ 24 <=? x) && (x <? 11 * 2 ^ 24))
  || ((172 * 2 ^ 24 + 16 * 2 ^ 16 <=? x) && (x <? 172 * 2 ^ 24 + 32 * 2 ^ 16))
  || ((192 * 2 ^ 24 + 168 * 2 ^ 16 <=? x) && (x <? 192 * 2 ^ 24 + 169 * 2 ^ 16)).
Definition is_local (x : Z) : bool :=
  (x <? 2 ^ 24) || ((169 * 2 ^ 24 + 254 * 2 ^ 16 <=? x) && (x <? 169 * 2 ^ 24 + 255 * 2 ^ 16)).

Lemma covers_range x a lo hi b bytes : 0 < b <= 32 -> be_val bytes = lo -> lo mod 2 ^ (32 - b) = 0 -> hi = lo + 2 ^ (32 - b) ->
  net_covers x (a, b, bytes) = (lo <=? x) && (x <? hi).
Proof using Type.
  clear JUNK. intros Hb L M H. unfold net_covers, in_net. cbn [fst snd]. rewrite L.
  replace (b =? 0) with false by lia. assert (P : 0 < 2 ^ (32 - b)) by (apply Z.pow_pos_nonneg; lia).
  set (k := 2 ^ (32 - b)) in *. clearbody k. apply eq_bool_prop_intro.
  rewrite !Is_true_true, andb_true_iff, Z.eqb_eq, Z.leb_le, Z.ltb_lt.
  pose proof (Z.div_mod lo k). pose proof (Z.div_mod x k). pose proof (Z.mod_pos_bound x k). nia.
Qed.

Lemma private_range x : existsb (net_covers x) private = is_private x.
Proof using Type.
  clear JUNK. cbn [existsb private]. unfold is_private. rewrite orb_false_r, orb_assoc.
  by repeat f_equal; apply covers_range.
Qed.
Lemma special_range x : 0 <= x -> existsb (net_covers x) special = is_private x || is_local x.
Proof using Type.
  clear JUNK. intros Hx. unfold special. cbn [existsb]. rewrite existsb_app, private_range. unfold is_local. cbn [existsb].
  rewrite (covers_range x _ 0 (2 ^ 24)) by done. rewrite (covers_range x _ (169 * 2 ^ 24 + 254 * 2 ^ 16) (169 * 2 ^ 24 + 255 * 2 ^ 16)) by done.
  replace (0 <=? x) with true by lia. cbn [andb]. rewrite orb_false_r, orb_assoc, (orb_comm (x <? 2 ^ 24)), <- orb_assoc. done.
Qed.

(** What [inet_pton] documents for the constants. *)
Definition reads_nets : Prop := Forall (fun e => pton4 e.1.1 = Some e.2) special.

Lemma special_ok : reads_nets -> Forall net_ok special.
Proof using Type.
  clear JUNK. unfold reads_nets, special, private. cbn [app]. rewrite !Forall_cons. cbn [fst snd].
  intros (A & B & C & D & E & _). repeat constructor; try done; cbn; lia.
Qed.
Lemma private_ok : reads_nets -> Forall net_ok private.
Proof using Type.
  intros R%special_ok. unfold special in R. apply Forall_cons in R as [_ R]. by apply Forall_app in R as [R _].
Qed.

Lemma check4 lists ip_str bytes nm l token : strchr ip_str ":" = false -> pton4 ip_str = Some bytes -> address 4 bytes ->
  lists !! nm = Some l ->
  switch_check_network_list_ip_token pton4 pton6 over junk lists ip_str (Some nm) token =
  Ok (switch_network_list_validate_ip_token l (be_val bytes) token).
Proof using Type.
  clear JUNK. intros NC P A L. unfold switch_check_network_list_ip_token. rewrite mapped_none, NC, L by done.
  cbn [default]. cbv zeta. by rewrite v4_pton with (bytes := bytes).
Qed.

Lemma auto_found cfg lists nm nets o : Forall (fun x => xattr x "name" <> Some nm) (configured cfg) ->
  switch_load_network_lists pton4 pton6 over junk locate guess_ip guess_mask cfg = Ok lists ->
  (nm, nets, o) ∈ [("rfc1918.auto"%string, private, true); ("wan.auto"%string, special, false)] ->
  lists !! nm = Some (add_all o (switch_network_list_create nm (negb o)) ((net_text <$> nets) ++ [entry_text "fe80::" 10])).
Proof using Type.
  clear JUNK. intros N L H. rewrite (auto_lists_kept cfg lists nm N L). unfold auto_lists. cbn [fold_left fst snd].
  apply elem_of_cons in H as [[= -> -> ->]|[[= -> -> ->]|[]%elem_of_nil]%elem_of_cons].
  all: repeat (etrans; [apply (lookup_insert_ne (M := gmap string)); done|]).
  all: etrans; [apply (lookup_insert_eq (M := gmap string))|reflexivity].
Qed.

End Entries.
(** ** The theorems *)

(** C24. An address is judged by the entry with the longest prefix among those that
    cover it, by the one that was entered first among equals, and by the
    default of the list where no entry covers it; the token is that of the entry. *)
Theorem acl_longest_prefix (l : switch_network_list) (ip4 : Z) (ip6 : ip_t) (token : option string) :
  (forall n, n ∈ node_head l -> 0 <= bits n) ->
  forall applies validated,
    (applies, validated) = (applies4 ip4, switch_network_list_validate_ip_token l ip4 token) \/
    (applies, validated) = (applies6 ip6, switch_network_list_validate_ip6_token l ip6 token) ->
  ((forall n, n ∈ node_head l -> applies n = false) /\ validated = (default_type l, token)) \/
  exists newer n older, node_head l = newer ++ n :: older /\ applies n = true /\
    (forall m, m ∈ newer -> applies m = true -> bits m <= bits n) /\
    (forall m, m ∈ older -> applies m = true -> bits m < bits n) /\
    validated = (ok n, node_token n).
Proof.
  intros B applies validated E.
  assert (V : validated = validate_loop applies (node_head l) 0 (default_type l) token) by (by destruct E as [[= -> ->]|[= -> ->]]).
  rewrite V. destruct (validate_best applies (node_head l) 0 (default_type l) token) as [(L & ->)|(p & n & q & Q & A & _ & H)].
  - left. split; [|done]. intros n Hn. destruct (applies n) eqn:A; [|done]. specialize (L n Hn A). specialize (B n Hn). lia.
  - right. exists p, n, q. naive_solver.
Qed.

(** Adding [host/b] to a list puts one entry before the others, and the entry
    covers the addresses that have the first [b] bits of the host's: for
    IPv4 with the 32 bits of an address and for IPv6 with its 128. *)
Theorem acl_cidr_exact pton4 pton6 junk (l : switch_network_list) (host : string) (b : Z) (bytes addr : list Z)
    (o : bool) (token : option string) (width : nat) :
  length junk = 16%nat -> host_text host -> 0 < b <= 8 * Z.of_nat width ->
  (width = 4%nat /\ strchr host ":" = false /\ pton4 host = Some bytes \/
   width = 16%nat /\ strchr host ":" = true /\ pton6 host = Some bytes /\
     switch_network_ipv4_mapped_ipv6_addr (entry_text host b) = None) ->
  address width bytes -> address width addr ->
  exists n, switch_network_list_perform_add_cidr_token pton4 pton6 0 junk l (entry_text host b) o token =
      (l <| node_head := n :: node_head l |>, SWITCH_STATUS_SUCCESS) /\
    bits n = b /\ ok n = o /\ node_token n = (if zstr token then None else token) /\
    (if decide (width = 4%nat) then applies4 (be_val addr) n else applies6 addr n) =
    (be_val bytes / 2 ^ (8 * Z.of_nat width - b) =? be_val addr / 2 ^ (8 * Z.of_nat width - b)).
Proof.
  intros J HT Hb D A A'. assert (NZ : (b =? 0) = false) by lia. destruct D as [(-> & NC & P)|(-> & NC & P & M)].
  - destruct (entry4 pton4 pton6 0 junk l host b bytes o token (be_val addr)) as (n & E & B & O & T & _ & C);
      try done; [lia|by left|by apply be_val_range4|].
    exists n. split_and!; try done. rewrite decide_True by done. rewrite C. unfold in_net. by rewrite NZ.
  - destruct (entry6 pton4 pton6 0 junk J l host b bytes o token addr) as (n & E & B & O & T & _ & C); try done; [lia|].
    exists n. split_and!; try done. rewrite decide_False by done. rewrite C. unfold in_net. by rewrite NZ.
Qed.

(** After loading, with any acl.conf that does not define the two lists anew,
    "rfc1918.auto" allows exactly the private IPv4 addresses 10.x, 172.16.x to
    172.31.x and 192.168.x, and "wan.auto" exactly those that are neither
    private nor in 0.x or 169.254.x. *)
Theorem acl_private_nets pton4 pton6 over junk locate guess_ip guess_mask cfg lists (ip_str : string) (bytes : list Z) :
  reads_nets pton4 ->
  switch_load_network_lists pton4 pton6 over junk locate guess_ip guess_mask cfg = Ok lists ->
  Forall (fun x => xattr x "name" <> Some "rfc1918.auto" /\ xattr x "name" <> Some "wan.auto") (configured cfg) ->
  strchr ip_str ":" = false -> pton4 ip_str = Some bytes -> address 4 bytes ->
  let allowed nm := switch_check_network_list_ip_token pton4 pton6 over junk lists ip_str (Some nm) None in
  allowed "rfc1918.auto"%string = Ok (is_private (be_val bytes), None) /\
  allowed "wan.auto"%string = Ok (negb (is_private (be_val bytes) || is_local (be_val bytes)), None).
Proof.
  intros R L N NC P A. cbv zeta. pose proof (be_val_range4 bytes A) as X.
  apply Forall_and in N as [N1 N2].
  split.
  - erewrite check4; [|done..|by apply (auto_found _ _ _ _ _ _ _ _ _ _ private true N1 L); set_solver].
    rewrite validate_nets by (done || (split; [done|cbn; lia]) || by apply private_ok). rewrite private_range. by destruct (is_private _).
  - erewrite check4; [|done..|by apply (auto_found _ _ _ _ _ _ _ _ _ _ special false N2 L); set_solver].
    rewrite validate_nets by (done || (split; [done|cbn; lia]) || by apply special_ok). rewrite special_range by lia. by destruct (_ || _).
Qed.

(** ** Defects *)

Definition table (t : list (string * list Z)) (s : string) : option (list Z) := snd <$> find (fun e => String.eqb e.1 s) t.
Definition w_pton4 : string -> option (list Z) :=
  table ([("10.1.2.3", [10; 1; 2; 3]); ("255.0.0.0", [255; 0; 0; 0]); ("192.168.3.4", [192; 168; 3; 4]);
          ("8.8.8.8", [8; 8; 8; 8])] ++ ((fun e => (e.1.1, e.2)) <$> special)).
Definition w_pton6 : string -> option (list Z) :=
  table [("fe80::"%string, [254; 128] ++ replicate 14 0);
         ("2001:d0a::1"%string, [32; 1; 13; 10] ++ replicate 11 0 ++ [1])].
Definition w_junk : ip_t := replicate 16 165.
Definition w_lists : ip_lists :=
  match switch_load_network_lists w_pton4 w_pton6 0 w_junk (fun _ => None) "10.1.2.3" "255.0.0.0" None with
  | Ok l => l | _ => ∅ end.
Lemma w_loaded : switch_load_network_lists w_pton4 w_pton6 0 w_junk (fun _ => None) "10.1.2.3" "255.0.0.0" None = Ok w_lists.
Proof. reflexivity. Qed.
Definition w_check (ip_str nm : string) : outcome (bool * option string) :=
  switch_check_network_list_ip_token w_pton4 w_pton6 0 w_junk w_lists ip_str (Some nm) None.

(** The machine's own network is an entry without a family; its IPv4 mask is
    compared with the first word of IPv6 addresses too, which makes an
    address from anywhere one of the local network 10.0.0.0/8. *)
Lemma acl_local_net_any_family : w_check "2001:d0a::1" "localnet.auto" = Ok (true, None).
Proof. by vm_compute. Qed.

(** An entry whose address is not readable is accepted with whatever was on the
    stack as its network. *)
Lemma acl_unreadable_entry pton4 pton6 over junk l host o : length junk = 16%nat -> host_text host ->
  strchr host ":" = false -> pton4 host = None ->
  exists n, switch_network_list_perform_add_cidr_token pton4 pton6 over junk l (entry_text host 8) o None =
    (l <| node_head := n :: node_head l |>, SWITCH_STATUS_SUCCESS) /\ v4 (ip n) = u32 (htonl (v4 junk)).
Proof.
  intros J HT NC P. unfold switch_network_list_perform_add_cidr_token.
  rewrite mapped_none by (unfold entry_text; by rewrite strchr_app, NC). cbn [default].
  rewrite parse_entry, NC by (done || lia). eexists. split; [reflexivity|]. cbn [ip]. unfold inet_pton. rewrite P.
  apply v4_set_v4.
Qed.

(** A network of mapped addresses loses its prefix but keeps its bits. *)
Lemma acl_mapped_net_refused l :
  switch_network_list_perform_add_cidr_token w_pton4 w_pton6 0 w_junk l "::ffff:10.0.0.0/104" true None =
  (l, SWITCH_STATUS_GENERR).
Proof. by vm_compute. Qed.

(** A list that allows everything by default and has no entries is not found,
    and denies everything. *)
Lemma acl_empty_list_denies pton4 pton6 over junk locate (lists : gmap string switch_network_list) ip_str :
  let x_list := Xml (fun a => if String.eqb a "name" then Some "lan" else Some "allow")%string (fun _ => []) in
  load_list pton4 pton6 over junk locate lists x_list = Ok lists /\
  (lists !! "lan"%string = None ->
   switch_check_network_list_ip_token pton4 pton6 over junk lists ip_str (Some "lan"%string) None = Ok (false, None)).
Proof. cbv zeta. split; [done|]. unfold switch_check_network_list_ip_token. by intros ->. Qed.

(** Of the networks of one entry the first 32 are used. *)
Lemma acl_many_nets :
  let nets := join "," (replicate 32 "10.0.0.0/8"%string ++ ["192.168.0.0/16"%string]) in
  match switch_network_list_add_cidr_token w_pton4 w_pton6 0 w_junk (switch_network_list_create "l" false) nets true None with
  | Ok (l, SWITCH_STATUS_SUCCESS) => (length (node_head l), switch_network_list_validate_ip_token l 3232236292 None)
  | _ => (0%nat, (true, None))
  end = (32%nat, (false, None)).
Proof. by vm_compute. Qed.

(** The parser's refusal of a network that is used as the name of a list goes
    unnoticed, and uninitialised variables decide. *)
Lemma acl_refused_net_decides :
  w_check "8.8.8.8" "8.8.8.8/33" = Ok (switch_test_subnet 134744072 (v4 w_junk) (v4 w_junk), None).
Proof. by vm_compute. Qed.

(** No bits, or letters in their place, and the entry is one address. *)
Lemma acl_zero_bits x net : in_net 32 0 x net = (net =? 0) || (net =? x).
Proof. done. Qed.

(** A domain with users of its own has no groups. *)
Lemma acl_groups_hidden a c ut uts : c "users"%string = ut :: uts -> xchildren ut "groups" = [] ->
  domain_users (Xml a c) = xchildren ut "user".
Proof. intros U G. unfold domain_users. cbn [xchildren]. by rewrite U, G, app_nil_r. Qed.

(** ** Witnesses *)

Definition w_list : switch_network_list :=
  (switch_network_list_perform_add_cidr_token w_pton4 w_pton6 0 w_junk
     (switch_network_list_create "l" false) "10.0.0.0/8" true (Some "t"%string)).1.

Lemma acl_longest_prefix_witness :
  (forall n, n ∈ node_head w_list -> applies4 134744072 n = false) /\
    switch_network_list_validate_ip_token w_list 134744072 None = (false, None) \/
  exists newer n older, node_head w_list = newer ++ n :: older /\ applies4 134744072 n = true /\
    (forall m, m ∈ newer -> applies4 134744072 m = true -> bits m <= bits n) /\
    (forall m, m ∈ older -> applies4 134744072 m = true -> bits m < bits n) /\
    switch_network_list_validate_ip_token w_list 134744072 None = (ok n, node_token n).
Proof.
  apply (acl_longest_prefix w_list 134744072 w_junk None); [|by left].
  intros n Hn. vm_compute in Hn. apply list_elem_of_singleton in Hn as ->. done.
Defined.

Lemma acl_cidr_exact_witness :
  exists n, switch_network_list_perform_add_cidr_token w_pton4 w_pton6 0 w_junk w_list (entry_text "fe80::" 10) true None =
      (w_list <| node_head := n :: node_head w_list |>, SWITCH_STATUS_SUCCESS) /\
    bits n = 10 /\ ok n = true /\ node_token n = None /\
    applies6 ([254; 143] ++ replicate 14 7) n =
    (be_val ([254; 128] ++ replicate 14 0) / 2 ^ 118 =? be_val ([254; 143] ++ replicate 14 7) / 2 ^ 118).
Proof.
  apply (acl_cidr_exact w_pton4 w_pton6 w_junk w_list "fe80::" 10 ([254; 128] ++ replicate 14 0) ([254; 143] ++ replicate 14 7)
           true None 16); [done|split; [done|cbn; lia]|lia|right; done| |];
    (split; [done|]); repeat constructor; done.
Defined.

Lemma acl_private_nets_witness :
  w_check "192.168.3.4" "rfc1918.auto" = Ok (true, None) /\ w_check "192.168.3.4" "wan.auto" = Ok (false, None).
Proof.
  apply (acl_private_nets w_pton4 w_pton6 0 w_junk (fun _ => None) "10.1.2.3" "255.0.0.0" None w_lists "192.168.3.4" [192; 168; 3; 4]);
    [|exact w_loaded|constructor|done|done|split; [done|by repeat constructor]].
  unfold reads_nets, special, private. cbn [app]. rewrite !Forall_cons. by vm_compute.
Defined.
