(* ===== verification/Hashtable.v ===== *)
(** * The hash table (src/switch_hashtable.c, src/include/switch_hashtable.h,
    src/include/private/switch_hashtable_private.h, src/switch_core_hash.c)

    Chained buckets with a prime number of them, the iterator, and the two
    kinds of tables built on it: string keys and 32-bit integer keys. *)
From S2P Require Import Prelude CStrings.
From stdpp Require Import strings sorting.
From Stdlib Require Import String Ascii.
Open Scope Z_scope.
#[local] Notation length := List.length (only parsing).
#[local] Notation concat := List.concat (only parsing).

(** ** Keys: the hash and equality functions a table is created with *)

Class HashKey (K : Type) := {
  hashfn : K -> Z;
  eqfn : K -> K -> bool
}.

(** What a table relies on: an equivalence that the hash respects. *)
Class HashKeyOk (K : Type) `{!HashKey K} : Prop := {
  eqfn_refl k : eqfn k k = true;
  eqfn_sym k k' : eqfn k k' = eqfn k' k;
  eqfn_trans k1 k2 k3 : eqfn k1 k2 = true -> eqfn k2 k3 = true -> eqfn k1 k3 = true;
  hashfn_eq k k' : eqfn k k' = true -> hashfn k = hashfn k'
}.

(** [switch_hash_default_int] and [switch_hash_equalkeys_int]. *)
Definition switch_hash_default_int (x : Z) : Z :=
  let x := u32 (Z.lxor (Z.shiftr x 16) x * 73244475) in
  let x := u32 (Z.lxor (Z.shiftr x 16) x * 73244475) in
  Z.lxor (Z.shiftr x 16) x.
Definition switch_hash_equalkeys_int (k1 k2 : Z) : bool := k1 =? k2.

(** [hash = c + (hash << 6) + (hash << 16) - hash]. *)
Fixpoint sdbm (f : ascii -> ascii) (s : string) (hash : Z) : Z :=
  match s with
  | EmptyString => hash
  | String c s =>
    sdbm f s (u32 (Z.of_N (N_of_ascii (f c)) + u32 (Z.shiftl hash 6) + u32 (Z.shiftl hash 16) - hash))
  end.
Definition switch_hash_default (s : string) : Z := sdbm (fun c => c) s 0.
Definition switch_hash_default_ci (s : string) : Z := sdbm lower s 0.

(** Keys compared without case. *)
Record ci_string := Ci { ci : string }.

#[export] Instance int_key : HashKey Z := {|
  hashfn := switch_hash_default_int; eqfn := switch_hash_equalkeys_int |}.
#[export] Instance string_key : HashKey string := {|
  hashfn := switch_hash_default; eqfn := String.eqb |}.
#[export] Instance ci_key : HashKey ci_string := {|
  hashfn := fun k => switch_hash_default_ci (ci k); eqfn := fun k k' => strcaseeq (ci k) (ci k') |}.

(** ** The table *)

Definition HASHTABLE_FLAG_FREE_KEY : Z := 1.
Definition HASHTABLE_FLAG_FREE_VALUE : Z := 2.
Definition HASHTABLE_DUP_CHECK : Z := 4.

Definition primes : list Z :=
  [53; 97; 193; 389; 769; 1543; 3079; 6151; 12289; 24593; 49157; 98317; 196613; 393241; 786433;
   1572869; 3145739; 6291469; 12582917; 25165843; 50331653; 100663319; 201326611; 402653189;
   805306457; 1610612741].
Definition prime_table_length : Z := zlen primes.

(** [(unsigned int) ceil(size * max_load_factor)]: the product is taken in
    binary32, with [max_load_factor = 0.65f = 10905190 * 2^-24].  A float is a
    mantissa of 24 bits with its exponent; [round24] rounds to nearest even. *)
Definition round24 (m e : Z) : Z * Z :=
  let b := Z.log2 m + 1 in
  if b <=? 24 then (m, e)
  else
    let s := b - 24 in
    let q := Z.shiftr m s in
    let r := m mod 2 ^ s in
    let half := 2 ^ (s - 1) in
    (if (half <? r) || ((r =? half) && Z.odd q) then q + 1 else q, e + s).
Definition load_limit (size : Z) : Z :=
  let '(m, e) := round24 size 0 in
  let '(m, e) := round24 (m * 10905190) (e - 24) in
  if 0 <=? e then m * 2 ^ e else - (- m / 2 ^ (- e)).

(** [i << n] and [i >> n] on [unsigned int], and the finalizer of the private
    header. *)
Definition mix (i : Z) : Z :=
  let i := u32 (i + (UINT_MAX - u32 (Z.shiftl i 9))) in
  let i := Z.lxor i (Z.lor (Z.shiftr i 14) (u32 (Z.shiftl i 18))) in
  let i := u32 (i + u32 (Z.shiftl i 4)) in
  Z.lxor i (Z.lor (Z.shiftr i 10) (u32 (Z.shiftl i 22))).
Definition indexFor (tablelength hashvalue : Z) : Z := hashvalue mod tablelength.

(** The outcomes of [malloc(newtable)], of [realloc] and of [malloc(entry)]. *)
Record mem := mk_mem { table_ok : bool; realloc_ok : bool; entry_ok : bool }.

Section Table.
Context {K V : Type} `{!HashKey K}.

(** [destructor] says whether the entry has one.  Values are pointers that are
    not null, so that [None] is the null result of a search. *)
Record entry := mk_entry { ek : K; ev : V; eh : Z; eflags : Z; edestructor : bool }.

(** [freed] collects, newest first, the values given to [free] or to their
    destructor. *)
Record switch_hashtable := mk_table {
  tablelength : Z;
  table : list (list entry);
  entrycount : Z;
  loadlimit : Z;
  primeindex : Z;
  freed : list V
}.

#[export] Instance eta_hashtable : Eta switch_hashtable := fun h =>
  mk_table (tablelength h) (table h) (entrycount h) (loadlimit h) (primeindex h) (freed h).

Definition hash (k : K) : Z := mix (hashfn k).

(** The first prime above [minsize], and its index. *)
Fixpoint first_prime (ps : list Z) (minsize pindex : Z) : Z * Z :=
  match ps with
  | [] => (53, pindex)
  | p :: ps => if minsize <? p then (p, pindex) else first_prime ps minsize (pindex + 1)
  end.

Definition switch_create_hashtable (minsize : Z) : option switch_hashtable * switch_status :=
  if 2 ^ 30 <? minsize then (None, SWITCH_STATUS_FALSE)
  else
    let '(size, pindex) := first_prime primes minsize 0 in
    (Some (mk_table size (replicate (Z.to_nat size) []) 0 (load_limit size) pindex []),
     SWITCH_STATUS_SUCCESS).

(** Entry [e] is put at the head of its bucket of a table of [size] buckets. *)
Definition put_head (size : Z) (t : list (list entry)) (e : entry) : list (list entry) :=
  let index := Z.to_nat (indexFor size (eh e)) in
  <[index := e :: default [] (t !! index)]> t.

(** Buckets in order, each from its head: the moves of the two nested loops. *)
Definition rehash (newsize : Z) (t : list (list entry)) : list (list entry) :=
  foldl (put_head newsize) (replicate (Z.to_nat newsize) []) (concat t).

(** The fallback after a failed allocation takes a bucket that does not exist
    yet as the address to clear. *)
Definition hashtable_expand (m : mem) (h : switch_hashtable) : outcome (switch_hashtable * Z) :=
  if primeindex h =? prime_table_length - 1 then Ok (h, 0)
  else
    let h := h <| primeindex := primeindex h + 1 |> in
    match primes !! Z.to_nat (primeindex h) with
    | None => UB
    | Some newsize =>
      if table_ok m then
        let h := h <| table := rehash newsize (table h) |> in
        let h := h <| tablelength := newsize |> in
        Ok (h <| loadlimit := load_limit newsize |>, -1)
      else if realloc_ok m then UB
      else Ok (h <| primeindex := primeindex h - 1 |>, 0)
    end.

Definition switch_hashtable_count (h : switch_hashtable) : Z := entrycount h.

(** The chain without its first entry for [k], and that entry. *)
Fixpoint chain_remove (hashvalue : Z) (k : K) (es : list entry) : option (entry * list entry) :=
  match es with
  | [] => None
  | e :: es =>
    if (hashvalue =? eh e) && eqfn k (ek e) then Some (e, es)
    else match chain_remove hashvalue k es with
         | Some (r, es) => Some (r, e :: es)
         | None => None
         end
  end.

Definition remove_at (h : switch_hashtable) (k : K) (hashvalue index : Z)
  : switch_hashtable * option V :=
  match chain_remove hashvalue k (default [] (table h !! Z.to_nat index)) with
  | None => (h, None)
  | Some (e, es) =>
    let h := h <| table := <[Z.to_nat index := es]> (table h) |> in
    let h := h <| entrycount := u32 (entrycount h - 1) |> in
    if test_flag (eflags e) HASHTABLE_FLAG_FREE_VALUE then (h <| freed := ev e :: freed h |>, None)
    else if edestructor e then (h <| freed := ev e :: freed h |>, None)
    else (h, Some (ev e))
  end.

Definition switch_hashtable_insert_destructor (m : mem) (h : switch_hashtable) (k : K) (v : V)
    (flags : Z) (destructor : bool) : outcome (switch_hashtable * Z) :=
  let hashvalue := hash k in
  let index := indexFor (tablelength h) hashvalue in
  let h := if test_flag flags HASHTABLE_DUP_CHECK then fst (remove_at h k hashvalue index) else h in
  let h := h <| entrycount := u32 (entrycount h + 1) |> in
  h ← (if loadlimit h <? entrycount h then
         match hashtable_expand m h with
         | Ok (h, _) => Ok h
         | Assert => Assert
         | UB => UB
         end
       else Ok h);
  let index := Z.to_nat (indexFor (tablelength h) hashvalue) in
  if negb (entry_ok m) then Ok (h <| entrycount := u32 (entrycount h - 1) |>, 0)
  else
    let e := mk_entry k v hashvalue flags destructor in
    Ok (h <| table := <[index := e :: default [] (table h !! index)]> (table h) |>, -1).

Fixpoint chain_search (hashvalue : Z) (k : K) (es : list entry) : option V :=
  match es with
  | [] => None
  | e :: es => if (hashvalue =? eh e) && eqfn k (ek e) then Some (ev e) else chain_search hashvalue k es
  end.

Definition switch_hashtable_search (h : switch_hashtable) (k : K) : option V :=
  let hashvalue := hash k in
  let index := indexFor (tablelength h) hashvalue in
  chain_search hashvalue k (default [] (table h !! Z.to_nat index)).

Definition switch_hashtable_remove (h : switch_hashtable) (k : K) : switch_hashtable * option V :=
  let hashvalue := hash k in
  remove_at h k hashvalue (indexFor (tablelength h) hashvalue).

(** The values that [switch_hashtable_destroy] frees or destroys, in order. *)
Definition destroyed (e : entry) : list V :=
  if test_flag (eflags e) HASHTABLE_FLAG_FREE_VALUE || edestructor e then [ev e] else [].
Definition switch_hashtable_destroy (h : switch_hashtable) : list V :=
  concat (map destroyed (concat (table h))).

(** ** The iterator

    The current entry is its position in the chain of bucket [pos]. *)
Record iterator := mk_iter { pos : nat; cur : option nat }.

(** The scan for the next bucket that is not empty. *)
Fixpoint skip_empty (t : list (list entry)) (p : nat) : nat :=
  match t with
  | [] :: t => skip_empty t (S p)
  | _ => p
  end.

Definition chain_at (h : switch_hashtable) (p : nat) : list entry := default [] (table h !! p).

(** [None] is the end: the iterator is freed. *)
Definition scan (h : switch_hashtable) (p : nat) : option iterator :=
  let p := skip_empty (drop p (table h)) p in
  if (Z.to_nat (tablelength h) <=? p)%nat then None
  else match chain_at h p with [] => None | _ => Some (mk_iter p (Some O)) end.

Definition switch_hashtable_next (h : switch_hashtable) (i : iterator) : option iterator :=
  match cur i with
  | Some n =>
    if (S n <? length (chain_at h (pos i)))%nat then Some (mk_iter (pos i) (Some (S n)))
    else scan h (S (pos i))
  | None => scan h (pos i)
  end.

Definition switch_hashtable_first_iter (h : switch_hashtable) : option iterator :=
  switch_hashtable_next h (mk_iter 0 None).

Definition switch_hashtable_this (h : switch_hashtable) (i : iterator) : option (K * V) :=
  match cur i with
  | Some n => option_map (fun e => (ek e, ev e)) (chain_at h (pos i) !! n)
  | None => None
  end.

(** [for (hi = first; hi; hi = next(&hi)) this(hi)], with a bound on the turns. *)
Fixpoint walk (fuel : nat) (h : switch_hashtable) (i : option iterator) : list (option (K * V)) :=
  match fuel, i with
  | S fuel, Some i => switch_hashtable_this h i :: walk fuel h (switch_hashtable_next h i)
  | _, _ => []
  end.

Definition switch_core_hash_empty (h : switch_hashtable) : bool :=
  match switch_hashtable_first_iter h with Some _ => false | None => true end.

(** ** Invariant *)

Definition entries (h : switch_hashtable) : list entry := concat (table h).

(** An entry in the bucket that its hash selects. *)
Definition placed (size : Z) (i : nat) (e : entry) : Prop :=
  eh e = hash (ek e) /\ i = Z.to_nat (indexFor size (eh e)).
Definition placed_all (size : Z) (t : list (list entry)) : Prop :=
  forall i b, t !! i = Some b -> Forall (placed size i) b.

Fixpoint distinct (l : list entry) : Prop :=
  match l with
  | [] => True
  | e :: l => Forall (fun e' => eqfn (ek e) (ek e') = false) l /\ distinct l
  end.

Record wf (h : switch_hashtable) : Prop := mk_wf {
  wf_len : zlen (table h) = tablelength h;
  wf_prime : primes !! Z.to_nat (primeindex h) = Some (tablelength h) /\ 0 <= primeindex h;
  wf_placed : placed_all (tablelength h) (table h);
  wf_distinct : distinct (entries h);
  wf_count : entrycount h = zlen (entries h)
}.
End Table.
Arguments entry : clear implicits.
Arguments switch_hashtable : clear implicits.

(** ** Tables with string keys and with integer keys (switch_core_hash.c) *)

Definition switch_core_hash_init {V} : option (switch_hashtable string V) * switch_status :=
  switch_create_hashtable 16.
Definition switch_core_hash_init_nocase {V} : option (switch_hashtable ci_string V) * switch_status :=
  switch_create_hashtable 16.

Section CoreHash.
Context {K V : Type} `{!HashKey K}.

(** [switch_core_hash_insert_destructor]; [strdup] is taken to succeed. *)
Definition switch_core_hash_insert_destructor (m : mem) (h : switch_hashtable K V) (k : K) (v : V)
    (destructor : bool) : outcome (switch_hashtable K V * switch_status) :=
  '(h, r) ← switch_hashtable_insert_destructor m h k v
              (Z.lor HASHTABLE_FLAG_FREE_KEY HASHTABLE_DUP_CHECK) destructor;
  Ok (h, if negb (r =? 0) then SWITCH_STATUS_SUCCESS else SWITCH_STATUS_FALSE).
Definition switch_core_hash_delete (h : switch_hashtable K V) (k : K)
  : switch_hashtable K V * option V := switch_hashtable_remove h k.
Definition switch_core_hash_find (h : switch_hashtable K V) (k : K) : option V :=
  switch_hashtable_search h k.

(** The keys that the callback accepts (all without one), and the deletion of
    keys, the two halves of [switch_core_hash_delete_multi]. *)
Definition accepted_keys (callback : option (K -> V -> bool)) (h : switch_hashtable K V) : list K :=
  omap (fun o => match o, callback with
                 | Some (k, v), Some f => if f k v then Some k else None
                 | Some (k, _), None => Some k
                 | None, _ => None
                 end) (walk (S (length (concat (table h)))) h (switch_hashtable_first_iter h)).
Definition delete_keys (h : switch_hashtable K V) (ks : list K) (st : switch_status)
  : switch_hashtable K V * switch_status :=
  foldl (fun '(h, st) k =>
           match switch_core_hash_delete h k with
           | (h, Some _) => (h, SWITCH_STATUS_SUCCESS)
           | (h, None) => (h, st)
           end) (h, st) ks.
End CoreHash.

Definition switch_core_inthash_init {V} : option (switch_hashtable Z V) * switch_status :=
  switch_create_hashtable 16.
Definition switch_core_inthash_insert {V} (m : mem) (h : switch_hashtable Z V) (key : Z) (data : V)
  : outcome (switch_hashtable Z V * switch_status) :=
  switch_core_hash_insert_destructor m h key data false.
Definition switch_core_inthash_delete {V} (h : switch_hashtable Z V) (key : Z)
  : switch_hashtable Z V * option V := switch_hashtable_remove h key.
Definition switch_core_inthash_find {V} (h : switch_hashtable Z V) (key : Z) : option V :=
  switch_hashtable_search h key.

(** ** The key functions meet what a table relies on *)

#[export] Instance int_key_ok : HashKeyOk Z.
Proof.
  constructor; simpl; unfold switch_hash_equalkeys_int; intros; btests; subst;
    first [apply Z.eqb_refl | apply Z.eqb_sym | done].
Qed.

#[export] Instance string_key_ok : HashKeyOk string.
Proof.
  constructor; simpl; intros; rewrite ?String.eqb_eq in *; subst;
    first [apply String.eqb_refl | apply String.eqb_sym | done].
Qed.

Lemma sdbm_slower s n : sdbm lower s n = sdbm (fun c => c) (slower s) n.
Proof. revert n. induction s as [|c s IH]; intros n; [done|]. apply IH. Qed.

#[export] Instance ci_key_ok : HashKeyOk ci_string.
Proof.
  constructor; simpl.
  - intros k. by apply strcaseeq_slower.
  - intros k k'. apply eq_true_iff_eq. rewrite !strcaseeq_slower. done.
  - intros k1 k2 k3. rewrite !strcaseeq_slower. congruence.
  - intros k k' E%strcaseeq_slower. unfold switch_hash_default_ci. by rewrite !sdbm_slower, E.
Qed.

(** ** The entries of a table, as an association list *)

Section TableFacts.
#[local] Set Default Proof Using "Type*".
Context {K V : Type} `{!HashKey K, !HashKeyOk K}.
Implicit Types (k : K) (e : entry K V) (t : list (list (entry K V))) (h : switch_hashtable K V).

Fixpoint lookup_key (l : list (entry K V)) (k : K) : option V :=
  match l with
  | [] => None
  | e :: l => if eqfn k (ek e) then Some (ev e) else lookup_key l k
  end.

Definition matches k e : Prop := eqfn k (ek e) = true.
Definition absent k (l : list (entry K V)) : Prop := Forall (fun e => eqfn k (ek e) = false) l.

Lemma lookup_key_app l l' k :
  lookup_key (l ++ l') k = match lookup_key l k with Some v => Some v | None => lookup_key l' k end.
Proof. induction l as [|e l IH]; simpl; [done|]. by destruct (eqfn k (ek e)). Qed.

Lemma lookup_key_absent l k : absent k l <-> lookup_key l k = None.
Proof.
  induction l as [|e l IH]; simpl; [split; [done|by constructor]|]. unfold absent in *.
  rewrite Forall_cons. destruct (eqfn k (ek e)); [split; [intros [? _]|]; done|]. rewrite IH. naive_solver.
Qed.

Lemma eqfn_congr k k' k'' : eqfn k k' = true -> eqfn k k'' = eqfn k' k''.
Proof.
  intros E. apply eq_true_iff_eq. split; intros F.
  - eapply eqfn_trans; [|exact F]. by rewrite eqfn_sym.
  - by eapply eqfn_trans.
Qed.

Lemma lookup_key_congr l k k' : eqfn k k' = true -> lookup_key l k = lookup_key l k'.
Proof. intros E. induction l as [|e l IH]; simpl; [done|]. by rewrite (eqfn_congr _ _ _ E), IH. Qed.

Lemma perm_distinct (l l' : list (entry K V)) : l ≡ₚ l' -> distinct l -> distinct l'.
Proof.
  induction 1 as [|e l l' P IH|e e' l|l1 l2 l3 _ IH1 _ IH2]; simpl; [done|..|by auto].
  - intros [F D]. split; [by rewrite <- P|by apply IH].
  - rewrite !Forall_cons. intros [[E F] [F' D]]. rewrite eqfn_sym in E. naive_solver.
Qed.

Lemma perm_lookup (l l' : list (entry K V)) k : l ≡ₚ l' -> distinct l -> lookup_key l k = lookup_key l' k.
Proof.
  induction 1 as [|e l l' P IH|e e' l|l1 l2 l3 P1 IH1 P2 IH2]; simpl; [done|..].
  - intros [_ D]. by rewrite IH.
  - rewrite Forall_cons. intros [[E _] _].
    destruct (eqfn k (ek e)) eqn:E1, (eqfn k (ek e')) eqn:E2; try done.
    rewrite (eqfn_congr _ _ _ E2) in E1. congruence.
  - intros D. rewrite IH1 by done. apply IH2. by eapply perm_distinct.
Qed.

(** ** Buckets *)

Lemma index_bound size x : 0 < size -> (Z.to_nat (indexFor size x) < Z.to_nat size)%nat.
Proof. intros H. unfold indexFor. pose proof (Z.mod_pos_bound x size H). lia. Qed.

Lemma bucket_split t i b : t !! i = Some b -> concat t = concat (take i t) ++ b ++ concat (drop (S i) t).
Proof.
  intros E. rewrite <- (take_drop_middle t i b E) at 1. by rewrite concat_app.
Qed.

Lemma bucket_insert t i b b' :
  t !! i = Some b -> concat (<[i := b']> t) = concat (take i t) ++ b' ++ concat (drop (S i) t).
Proof.
  intros E. pose proof (lookup_lt_Some _ _ _ E).
  rewrite (bucket_split (<[i:=b']> t) i b') by (by apply list_lookup_insert_eq).
  by rewrite take_insert_ge, drop_insert_lt by lia.
Qed.

Lemma placed_insert size t i b' :
  placed_all size t -> Forall (placed size i) b' -> placed_all size (<[i := b']> t).
Proof.
  intros P F j b E. destruct (decide (i = j)) as [->|N].
  - apply list_lookup_insert_Some in E as [(_ & <- & _)|(? & _)]; done.
  - rewrite list_lookup_insert_ne in E by done. by apply P.
Qed.

Lemma chain_search_lookup es k :
  Forall (fun e => eh e = hash (ek e)) es -> chain_search (hash k) k es = lookup_key es k.
Proof.
  induction 1 as [|e es E _ IH]; simpl; [done|]. rewrite E, IH.
  destruct (eqfn k (ek e)) eqn:M; [|by rewrite andb_false_r].
  unfold hash. rewrite (hashfn_eq _ _ M), Z.eqb_refl. done.
Qed.

(** A key can only be in the bucket of its hash. *)
Lemma absent_elsewhere size t k j b :
  placed_all size t -> t !! j = Some b -> j <> Z.to_nat (indexFor size (hash k)) -> absent k b.
Proof.
  intros P E N. apply (P j b) in E. unfold absent. eapply Forall_impl; [exact E|].
  intros e [H1 H2]. destruct (eqfn k (ek e)) eqn:M; [|done]. exfalso. apply N.
  rewrite H2, H1. unfold hash. by rewrite (hashfn_eq _ _ M).
Qed.

Lemma absent_concat k t :
  (forall j b, t !! j = Some b -> absent k b) -> absent k (concat t).
Proof.
  induction t as [|b t IH]; intros H; [constructor|]. simpl. apply Forall_app. split.
  - by apply (H O).
  - apply IH. intros j c E. by apply (H (S j)).
Qed.

Lemma split_around size t k b :
  placed_all size t -> t !! Z.to_nat (indexFor size (hash k)) = Some b ->
  exists A C, concat t = A ++ b ++ C /\ absent k A /\ absent k C /\
    forall b', concat (<[Z.to_nat (indexFor size (hash k)) := b']> t) = A ++ b' ++ C.
Proof.
  set (i := Z.to_nat _). intros P E. exists (concat (take i t)), (concat (drop (S i) t)).
  split_and!.
  - by apply bucket_split.
  - apply absent_concat. intros j c Hj. apply lookup_take_Some in Hj as [Hj L].
    eapply (absent_elsewhere size t k j); [done|done|subst i; lia].
  - apply absent_concat. intros j c Hj. rewrite lookup_drop in Hj.
    eapply (absent_elsewhere size t k); [done|exact Hj|subst i; lia].
  - intros b'. by apply (bucket_insert _ _ b).
Qed.

(** ** Operations on the entries *)

(** [wf] with [n] in the count that are not in the table. *)
Record wf_but (n : Z) h : Prop := mk_wf_but {
  wb_len : zlen (table h) = tablelength h;
  wb_prime : primes !! Z.to_nat (primeindex h) = Some (tablelength h) /\ 0 <= primeindex h;
  wb_placed : placed_all (tablelength h) (table h);
  wb_distinct : distinct (entries h);
  wb_count : entrycount h = zlen (entries h) + n
}.

Lemma wf_wf_but h : wf h <-> wf_but 0 h.
Proof. split; intros []; constructor; done || lia. Qed.

Lemma prime_pos i p : primes !! i = Some p -> 0 < p < 2 ^ 32.
Proof.
  intros E. assert (Forall (fun p => 0 < p < 2 ^ 32) primes) as F by (by repeat constructor).
  rewrite Forall_lookup in F. by eapply F.
Qed.

Lemma table_bucket n h k : wf_but n h ->
  exists b, table h !! Z.to_nat (indexFor (tablelength h) (hash k)) = Some b.
Proof.
  intros []. destruct wb_prime0 as [Pr _]. apply prime_pos in Pr.
  apply lookup_lt_is_Some_2. pose proof (index_bound (tablelength h) (hash k)). lia.
Qed.

Lemma search_spec n h k : wf_but n h -> switch_hashtable_search h k = lookup_key (entries h) k.
Proof.
  intros W. destruct (table_bucket n h k W) as [b E]. destruct W.
  unfold switch_hashtable_search. rewrite E. change (default [] (Some b)) with b.
  rewrite chain_search_lookup.
  2:{ apply (wb_placed0 _ _) in E. eapply Forall_impl; [exact E|]. by intros e [? _]. }
  destruct (split_around _ _ _ _ wb_placed0 E) as (A & C & S & NA & NC & _).
  unfold entries. rewrite S, !lookup_key_app. apply lookup_key_absent in NA, NC. rewrite NA, NC.
  by destruct (lookup_key b k).
Qed.

Lemma chain_remove_spec es k :
  Forall (fun e => eh e = hash (ek e)) es ->
  match chain_remove (hash k) k es with
  | None => absent k es
  | Some (e, es') => matches k e /\ es ≡ₚ e :: es' /\ lookup_key es k = Some (ev e) /\
      forall P, Forall P es -> Forall P es'
  end.
Proof.
  induction 1 as [|e es E _ IH]; cbn [chain_remove]; [constructor|]. rewrite E.
  destruct (eqfn k (ek e)) eqn:M.
  - unfold hash. rewrite (hashfn_eq _ _ M), Z.eqb_refl. cbn [andb].
    split_and!; [done|done|cbn; by rewrite M|]. intros P HF. by inversion HF.
  - rewrite andb_false_r. destruct (chain_remove (hash k) k es) as [[r es']|]; [|by constructor].
    destruct IH as (IM & IP & IL & IF). split_and!; [done|rewrite IP; constructor|cbn; by rewrite M|].
    intros P HF. inversion HF; subst. constructor; auto.
Qed.

Lemma count_dec x n : 0 <= n -> x = n + 1 -> x < 2 ^ 32 -> u32 (x - 1) = n.
Proof. intros ? -> ?. rewrite u32_small; lia. Qed.

(** What removal does to the table, to the count and to the result. *)
Lemma remove_spec h k :
  wf h -> entrycount h < 2 ^ 32 ->
  let '(h', r) := switch_hashtable_remove h k in
  wf h' /\
  ((absent k (entries h) /\ h' = h /\ r = None) \/
   (exists e, matches k e /\ entries h ≡ₚ e :: entries h' /\
      entrycount h' = entrycount h - 1 /\ tablelength h' = tablelength h /\
      loadlimit h' = loadlimit h /\
      (if test_flag (eflags e) HASHTABLE_FLAG_FREE_VALUE || edestructor e
       then r = None /\ freed h' = ev e :: freed h
       else r = Some (ev e) /\ freed h' = freed h))).
Proof.
  intros W%wf_wf_but B. destruct (table_bucket 0 h k W) as [b E]. pose proof W as [].
  unfold switch_hashtable_remove, remove_at. rewrite E. change (default [] (Some b)) with b.
  destruct (split_around _ _ _ _ wb_placed0 E) as (A & C & S & NA & NC & I).
  pose proof (wb_placed0 _ _ E) as PE.
  pose proof (chain_remove_spec b k) as R.
  destruct (chain_remove (hash k) k b) as [[e es]|].
  2:{ split; [by apply wf_wf_but|]. left. split_and!; try done. unfold entries, absent. rewrite S.
      rewrite !Forall_app. split_and!; try done. apply R. eapply Forall_impl; [exact PE|]. by intros ? [? _]. }
  destruct R as (M & P & _ & F); [eapply Forall_impl; [exact PE|]; by intros ? [? _]|].
  set (t' := <[_ := es]> (table h)).
  assert (PM : entries h ≡ₚ e :: concat t').
  { unfold entries, t'. rewrite S, I, P. rewrite <- app_comm_cons. by rewrite <- Permutation_middle. }
  assert (CN : u32 (entrycount h - 1) = zlen (concat t')).
  { apply count_dec; [lia| |done]. rewrite wb_count0, PM. simpl. lia. }
  assert (WF : wf (h <| table := t' |> <| entrycount := u32 (entrycount h - 1) |>)).
  { constructor; rupd; try done.
    - unfold t'. by rewrite length_insert.
    - apply placed_insert; [done|]. by apply F.
    - pose proof (perm_distinct _ _ PM wb_distinct0) as D. by destruct D. }
  assert (CE : entrycount h - 1 = zlen (concat t')) by (rewrite wb_count0, PM; simpl; lia).
  destruct (test_flag (eflags e) HASHTABLE_FLAG_FREE_VALUE) eqn:Te; [|destruct (edestructor e) eqn:De];
    (split; [by destruct WF; constructor|]); right; exists e; rewrite ?Te, ?De; cbn [orb]; rupd;
    split_and!; first [done | exact PM | by rewrite CN, CE].
Qed.

(** The same, read off the searches. *)
Lemma lookup_removed h h' k e k' :
  wf h -> matches k e -> entries h ≡ₚ e :: entries h' ->
  lookup_key (entries h') k' = if eqfn k' k then None else lookup_key (entries h) k'.
Proof.
  intros [] M P. pose proof (perm_distinct _ _ P wf_distinct0) as [F _].
  rewrite (perm_lookup _ _ k' P wf_distinct0). simpl. unfold matches in M.
  destruct (eqfn k' k) eqn:E.
  - apply lookup_key_absent. unfold absent. eapply Forall_impl; [exact F|]. intros x Hx.
    rewrite (eqfn_congr _ _ _ E), (eqfn_congr _ _ _ M). done.
  - destruct (eqfn k' (ek e)) eqn:E'; [|done]. rewrite (eqfn_congr _ _ _ E'), eqfn_sym in E. congruence.
Qed.

(** ** Growth *)

Lemma put_head_spec size t e :
  0 < size -> zlen t = size -> placed_all size t -> eh e = hash (ek e) ->
  zlen (put_head size t e) = size /\ placed_all size (put_head size t e) /\
  concat (put_head size t e) ≡ₚ e :: concat t.
Proof.
  intros S L P E. unfold put_head. pose proof (index_bound size (eh e) S).
  destruct (lookup_lt_is_Some_2 t (Z.to_nat (indexFor size (eh e)))) as [b B]; [lia|].
  rewrite B. change (default [] (Some b)) with b. split_and!.
  - by rewrite length_insert.
  - apply placed_insert; [done|]. constructor; [by split|]. by apply P.
  - rewrite (bucket_insert _ _ _ _ B), (bucket_split _ _ _ B).
    rewrite <- app_comm_cons. by rewrite <- Permutation_middle.
Qed.

Lemma concat_empty n : concat (replicate n ([] : list (entry K V))) = [].
Proof. by induction n. Qed.

Lemma rehash_spec size t :
  0 < size -> Forall (fun e => eh e = hash (ek e)) (concat t) ->
  zlen (rehash size t) = size /\ placed_all size (rehash size t) /\ concat (rehash size t) ≡ₚ concat t.
Proof.
  intros S F. unfold rehash.
  assert (G : forall es t0, Forall (fun e => eh e = hash (ek e)) es ->
    zlen t0 = size -> placed_all size t0 ->
    zlen (foldl (put_head size) t0 es) = size /\ placed_all size (foldl (put_head size) t0 es) /\
    concat (foldl (put_head size) t0 es) ≡ₚ es ++ concat t0).
  { induction es as [|e es IH]; intros t0 Fe L P; [done|].
    apply Forall_cons in Fe as [He Fe]. cbn [foldl].
    destruct (put_head_spec size t0 e) as (L1 & P1 & C1); try done.
    destruct (IH _ Fe L1 P1) as (L2 & P2 & C2). split_and!; try done.
    rewrite C2, C1. by rewrite <- Permutation_middle. }
  destruct (G (concat t) (replicate (Z.to_nat size) []) F) as (L & P & C).
  - rewrite length_replicate. lia.
  - intros i b [-> _]%lookup_replicate. constructor.
  - split_and!; try done. by rewrite C, concat_empty, app_nil_r.
Qed.

(** The allocation outcomes under which a growth does not take the broken
    fallback. *)
Definition mem_safe (m : mem) : Prop := table_ok m = true \/ realloc_ok m = false.

Lemma placed_hashes size t : placed_all size t -> Forall (fun e => eh e = hash (ek e)) (concat t).
Proof.
  intros P. apply Forall_concat. apply Forall_lookup. intros i b E.
  eapply Forall_impl; [by apply (P i b)|]. by intros e [? _].
Qed.

Lemma expand_spec n m h :
  wf_but n h -> mem_safe m ->
  exists h' r, hashtable_expand m h = Ok (h', r) /\ wf_but n h' /\ entries h' ≡ₚ entries h /\
    freed h' = freed h /\ entrycount h' = entrycount h.
Proof.
  intros W M. pose proof W as []. unfold hashtable_expand. destruct wb_prime0 as [Pr Pp].
  destruct (Z.eqb_spec (primeindex h) (prime_table_length - 1)) as [E|E]; [by eauto 10|]. rupd.
  pose proof (lookup_lt_Some _ _ _ Pr) as Lp.
  destruct (lookup_lt_is_Some_2 primes (Z.to_nat (primeindex h + 1))) as [p Hp].
  { unfold prime_table_length in E. lia. }
  rewrite Hp. destruct (table_ok m) eqn:T.
  - destruct (rehash_spec p (table h)) as (L & P & C); [apply prime_pos in Hp; lia|by eapply placed_hashes|].
    eexists _, _. split; [reflexivity|]. split; [|by rupd].
    constructor; rupd; try done.
    + split; [done|lia].
    + eapply perm_distinct; [|exact wb_distinct0]. symmetry. exact C.
    + unfold entries. rupd. rewrite C. done.
  - destruct M as [M|M]; [congruence|]. rewrite M. eexists _, _. split; [reflexivity|]. rupd.
    split; [|done]. constructor; rupd; try done. rewrite Z.add_simpl_r. done.
Qed.

Definition present k h : Z := match lookup_key (entries h) k with Some _ => 1 | None => 0 end.

Lemma lookup_perm_head k e l l' :
  matches k e -> l ≡ₚ e :: l' -> lookup_key l k <> None.
Proof.
  intros M P N%lookup_key_absent. unfold absent in N. rewrite P, Forall_cons in N.
  unfold matches in M. destruct N. congruence.
Qed.

Lemma insert_spec m h k v flags d :
  wf h -> entrycount h < UINT_MAX -> mem_safe m -> test_flag flags HASHTABLE_DUP_CHECK = true ->
  exists h' r, switch_hashtable_insert_destructor m h k v flags d = Ok (h', r) /\ wf h' /\
    r = (if entry_ok m then -1 else 0) /\
    entrycount h' = entrycount h - present k h + (if entry_ok m then 1 else 0) /\
    forall k', lookup_key (entries h') k' =
      if eqfn k' k then if entry_ok m then Some v else None else lookup_key (entries h) k'.
Proof.
  intros W B M D. unfold switch_hashtable_insert_destructor. rewrite D. unfold UINT_MAX in B.
  pose proof (remove_spec h k W) as R. unfold switch_hashtable_remove in R. cbv zeta in R.
  destruct (remove_at h k (hash k) (indexFor (tablelength h) (hash k))) as [h1 r1]. cbn [fst].
  destruct R as [W1 R]; [lia|].
  assert (X : entrycount h1 = entrycount h - present k h /\ forall k', lookup_key (entries h1) k'
    = if eqfn k' k then None else lookup_key (entries h) k').
  { unfold present. destruct R as [(A & -> & _)|(e & Me & P & C & _)].
    - apply lookup_key_absent in A as A'. rewrite A'. split; [lia|]. intros k'.
      destruct (eqfn k' k) eqn:E; [|done]. by rewrite (lookup_key_congr _ _ _ E).
    - pose proof (lookup_perm_head _ _ _ _ Me P). destruct (lookup_key (entries h) k); [|done].
      split; [lia|]. intros k'. by eapply lookup_removed. }
  destruct X as [Xc Xl]. clear R. assert (0 <= present k h) by (unfold present; by destruct (lookup_key _ _)).
  pose proof W1 as [].
  set (h2 := h1 <| entrycount := u32 (entrycount h1 + 1) |>).
  assert (W2 : wf_but 1 h2).
  { constructor; subst h2; rupd; try done. rewrite u32_small; unfold entries in *; rupd; lia. }
  assert (G : exists h3, (if loadlimit h2 <? entrycount h2 then
      match hashtable_expand m h2 with Ok (h, _) => Ok h | Assert => Assert | UB => UB end else Ok h2) = Ok h3 /\
      wf_but 1 h3 /\ entries h3 ≡ₚ entries h2 /\ entrycount h3 = entrycount h2).
  { destruct (_ <? _); [|by eauto]. destruct (expand_spec 1 m h2 W2 M) as (h3 & r & -> & ? & ? & _ & ?). eauto. }
  destruct G as (h3 & -> & W3 & P3 & C3). cbn [mbind outcome_bind].
  assert (L3 : forall k', lookup_key (entries h3) k' = lookup_key (entries h1) k').
  { intros k'. symmetry. apply perm_lookup; [by symmetry|done]. }
  assert (entrycount h3 = entrycount h1 + 1) as C4 by (rewrite C3; subst h2; rupd; apply u32_small; lia).
  pose proof W3 as []. destruct (entry_ok m); cbn [negb]; eexists _, _; (split; [reflexivity|]).
  2:{ split; [|split_and!; [done|rupd; rewrite u32_small; lia|intros k'; rewrite <- Xl; apply L3]].
      apply wf_wf_but. constructor; rupd; try done.
      rewrite u32_small; unfold entries in *; rupd; lia. }
  set (e := mk_entry k v (hash k) flags d).
  destruct (put_head_spec (tablelength h3) (table h3) e) as (L4 & P4 & C5); try done.
  { destruct wb_prime0 as [Pr _]. apply prime_pos in Pr. lia. }
  change (<[_ := _]> (table h3)) with (put_head (tablelength h3) (table h3) e).
  split; [|split; [done|split]].
  - apply wf_wf_but. constructor; rupd; try done.
    + eapply (perm_distinct (e :: entries h3)); [symmetry; exact C5|]. split; [|done].
      apply lookup_key_absent. rewrite L3, Xl, eqfn_refl. done.
    + unfold entries in *. rupd. rewrite C5. simpl. lia.
  - rupd. lia.
  - intros k'. rewrite <- (perm_lookup (e :: entries h3)).
    + cbn [lookup_key]. change (ek e) with k. rewrite L3, Xl. by destruct (eqfn k' k).
    + symmetry. exact C5.
    + split; [|done]. apply lookup_key_absent. rewrite L3, Xl, eqfn_refl. done.
Qed.

Lemma create_spec minsize : 0 <= minsize <= 2 ^ 30 ->
  exists h : switch_hashtable K V, switch_create_hashtable minsize = (Some h, SWITCH_STATUS_SUCCESS) /\
    wf h /\ entries h = [] /\ minsize < tablelength h.
Proof.
  intros B. unfold switch_create_hashtable. rewrite (proj2 (Z.ltb_ge _ _)) by lia.
  assert (G : forall ps i, (exists p, p ∈ ps /\ minsize < p) ->
    exists p j, first_prime ps minsize (Z.of_nat i) = (p, Z.of_nat (i + j)) /\ ps !! j = Some p /\ minsize < p).
  { induction ps as [|p ps IH]; intros i (q & Q & Hq); [set_solver|]. cbn [first_prime].
    destruct (Z.ltb_spec minsize p); [exists p, O; rewrite Nat.add_0_r; auto|].
    replace (Z.of_nat i + 1) with (Z.of_nat (S i)) by lia.
    destruct (IH (S i)) as (r & j & -> & Hj & Hr).
    { exists q. split; [|done]. apply elem_of_cons in Q as [->|]; [lia|done]. }
    exists r, (S j). split_and!; [f_equal; f_equal; lia|done|done]. }
  destruct (G primes O) as (p & j & E & Hj & Hp).
  { exists 1610612741. split; [compute_done|lia]. }
  change 0 with (Z.of_nat 0) at 1. rewrite E. simpl.
  pose proof (concat_empty (Z.to_nat p)) as CE.
  eexists. split; [reflexivity|]. unfold entries. simpl. split_and!; try done.
  pose proof (prime_pos _ _ Hj). constructor; unfold entries; simpl; rewrite ?CE; try done.
  - rewrite length_replicate. lia.
  - rewrite Nat2Z.id. split; [done|lia].
  - intros i b [-> _]%lookup_replicate. constructor.
Qed.

(** ** Iteration *)

Definition pairs (l : list (entry K V)) : list (option (K * V)) :=
  map (fun e => Some (ek e, ev e)) l.

(** The entries from the current one on. *)
Definition rest h (i : iterator) : list (entry K V) :=
  match cur i with
  | Some n => drop n (chain_at h (pos i)) ++ concat (drop (S (pos i)) (table h))
  | None => concat (drop (pos i) (table h))
  end.

Lemma skip_empty_spec t p :
  exists n, skip_empty t p = (p + n)%nat /\ (n <= length t)%nat /\ concat (drop n t) = concat t /\
    ((n < length t)%nat -> exists e b, t !! n = Some (e :: b)).
Proof.
  revert p. induction t as [|[|e b] t IH]; intros p; cbn [skip_empty].
  - exists O. split_and!; [lia|done|done|simpl; lia].
  - destruct (IH (S p)) as (n & -> & L & C & B). exists (S n). simpl. split_and!; [lia|lia|done|].
    intros ?. apply B. lia.
  - exists O. split_and!; [lia|simpl; lia|done|by eauto].
Qed.

Lemma chain_rest h p : concat (drop p (table h)) = chain_at h p ++ concat (drop (S p) (table h)).
Proof.
  unfold chain_at. destruct (table h !! p) as [b|] eqn:E.
  - by rewrite (drop_S _ _ _ E).
  - apply lookup_ge_None in E. rewrite !drop_ge by lia. done.
Qed.

(** What a call of [switch_hashtable_next] has before it. *)
Definition ahead h (i : iterator) : list (entry K V) :=
  match cur i with Some _ => drop 1 (rest h i) | None => rest h i end.

Lemma scan_spec h p :
  zlen (table h) = tablelength h ->
  match concat (drop p (table h)) with
  | [] => scan h p = None
  | e :: r => exists i', scan h p = Some i' /\ rest h i' = e :: r /\
      switch_hashtable_this h i' = Some (ek e, ev e)
  end.
Proof.
  intros L. unfold scan. destruct (skip_empty_spec (drop p (table h)) p) as (n & -> & Ln & Cn & Bn).
  rewrite length_drop in Ln, Bn. rewrite drop_drop in Cn. rewrite <- Cn.
  destruct (Nat.leb_spec (Z.to_nat (tablelength h)) (p + n)) as [G|G].
  - by rewrite drop_ge by lia.
  - destruct Bn as (e & b & B); [lia|]. rewrite lookup_drop in B.
    assert (chain_at h (p + n) = e :: b) as CB by (unfold chain_at; by rewrite B).
    rewrite chain_rest, CB. cbn [app].
    eexists. split; [reflexivity|]. unfold rest, switch_hashtable_this. cbn [cur pos]. by rewrite CB.
Qed.

Lemma next_spec h i :
  zlen (table h) = tablelength h ->
  (forall n, cur i = Some n -> (n < length (chain_at h (pos i)))%nat) ->
  match ahead h i with
  | [] => switch_hashtable_next h i = None
  | e :: r => exists i', switch_hashtable_next h i = Some i' /\ rest h i' = e :: r /\
      switch_hashtable_this h i' = Some (ek e, ev e)
  end.
Proof.
  intros L C. unfold switch_hashtable_next. pose proof (fun p => scan_spec h p L) as Sc.
  unfold ahead, rest. destruct (cur i) as [n|] eqn:Ci.
  - specialize (C n eq_refl).
    destruct (drop n (chain_at h (pos i))) as [|e0 r0] eqn:D;
      [apply (f_equal length) in D; rewrite length_drop in D; simpl in D; lia|].
    cbn [app drop]. apply (f_equal (drop 1)) in D as D'. rewrite drop_drop in D'. simpl (drop 1 _) in D'. rewrite ?drop_0 in D'.
    destruct (Nat.ltb_spec (S n) (length (chain_at h (pos i)))) as [G|G].
    + destruct (lookup_lt_is_Some_2 (chain_at h (pos i)) (S n)) as [e Ee]; [lia|].
      rewrite Nat.add_1_r in D'. rewrite (drop_S _ _ _ Ee) in D'. rewrite <- D'. cbn [app].
      eexists. split; [reflexivity|]. unfold rest, switch_hashtable_this. cbn [cur pos].
      rewrite (drop_S _ _ _ Ee), Ee. done.
    + rewrite drop_ge in D' by lia. rewrite <- D'. cbn [app]. apply Sc.
  - apply Sc.
Qed.

Lemma rest_cur h i e r :
  rest h i = e :: r -> switch_hashtable_this h i = Some (ek e, ev e) ->
  (forall n, cur i = Some n -> (n < length (chain_at h (pos i)))%nat) /\ ahead h i = r.
Proof.
  unfold ahead, switch_hashtable_this. intros R T. destruct (cur i) as [n|]; [|done]. split.
  - intros n' [= <-]. destruct (chain_at h (pos i) !! n) eqn:E; [|done]. by eapply lookup_lt_Some.
  - by rewrite R.
Qed.

Lemma walk_spec fuel h i e r :
  zlen (table h) = tablelength h -> rest h i = e :: r ->
  switch_hashtable_this h i = Some (ek e, ev e) -> (length r < fuel)%nat ->
  walk fuel h (Some i) = pairs (e :: r).
Proof.
  intros L. revert i e r. induction fuel as [|fuel IH]; intros i e r R T F; [lia|]. cbn [walk].
  rewrite T. destruct (rest_cur h i e r R T) as [C A]. pose proof (next_spec h i L C) as N.
  rewrite A in N. destruct r as [|e' r].
  - rewrite N. by destruct fuel.
  - destruct N as (i' & -> & R' & T'). rewrite (IH i' e' r R' T') by (simpl in F; lia). done.
Qed.

Lemma walk_all h : zlen (table h) = tablelength h ->
  walk (S (length (entries h))) h (switch_hashtable_first_iter h) = pairs (entries h).
Proof.
  intros L. unfold switch_hashtable_first_iter.
  pose proof (next_spec h (mk_iter 0 None) L ltac:(done)) as N. unfold ahead, rest in N. cbn [cur pos drop] in N.
  rewrite drop_0 in N. unfold entries. destruct (concat (table h)) as [|e r]; [by rewrite N|].
  destruct N as (i' & -> & R & T). apply walk_spec; try done. simpl. lia.
Qed.

Lemma search_wf h k : wf h -> switch_hashtable_search h k = lookup_key (entries h) k.
Proof. intros W%wf_wf_but. by eapply search_spec. Qed.

Lemma wf_count_pos h : wf h -> 0 <= entrycount h.
Proof. intros []. lia. Qed.

Lemma remove_lookup h k : wf h -> entrycount h < 2 ^ 32 ->
  wf (fst (switch_hashtable_remove h k)) /\
  entrycount (fst (switch_hashtable_remove h k)) = entrycount h - present k h /\
  forall k', lookup_key (entries (fst (switch_hashtable_remove h k))) k'
    = if eqfn k' k then None else lookup_key (entries h) k'.
Proof.
  intros W B. pose proof (remove_spec h k W B) as R. unfold present.
  destruct (switch_hashtable_remove h k) as [h' r]. destruct R as [W' R]. cbn [fst]. split; [done|].
  destruct R as [(A & -> & _)|(e & M & P & C & _)].
  - apply lookup_key_absent in A as A'. rewrite A'. split; [lia|]. intros k'.
    destruct (eqfn k' k) eqn:E; [|done]. by rewrite (lookup_key_congr _ _ _ E).
  - pose proof (lookup_perm_head _ _ _ _ M P). destruct (lookup_key (entries h) k); [|done].
    split; [done|]. intros k'. by eapply lookup_removed.
Qed.

Lemma delete_keys_spec ks h st : wf h -> entrycount h < 2 ^ 32 ->
  wf (fst (delete_keys h ks st)) /\
  forall k, lookup_key (entries (fst (delete_keys h ks st))) k
    = if existsb (eqfn k) ks then None else lookup_key (entries h) k.
Proof.
  unfold delete_keys. revert h st. induction ks as [|k0 ks IH]; intros h st W B; [done|]. cbn [foldl].
  destruct (remove_lookup h k0 W B) as (W1 & C1 & L1).
  assert (entrycount (fst (switch_hashtable_remove h k0)) < 2 ^ 32)
    by (rewrite C1; unfold present; destruct (lookup_key _ _); lia).
  unfold switch_core_hash_delete at 2 4. destruct (switch_hashtable_remove h k0) as [h1 [v|]];
    cbn [fst] in *; match goal with |- context [foldl _ (h1, ?s) _] => destruct (IH h1 s) as [W2 L2] end;
    try done; (split; [done|]); intros k; rewrite L2, L1; simpl;
    by destruct (eqfn k k0), (existsb (eqfn k) ks).
Qed.

Lemma lookup_key_elem l e : distinct l -> e ∈ l -> lookup_key l (ek e) = Some (ev e).
Proof.
  induction l as [|x l IH]; intros D Hin; [set_solver|]. destruct D as [F D]. simpl.
  apply elem_of_cons in Hin as [->|Hin]; [by rewrite eqfn_refl|].
  rewrite Forall_forall in F. specialize (F e Hin). rewrite eqfn_sym, F. by apply IH.
Qed.

Lemma lookup_key_Some l k v :
  lookup_key l k = Some v -> exists e, e ∈ l /\ matches k e /\ ev e = v.
Proof.
  induction l as [|x l IH]; simpl; [done|]. destruct (eqfn k (ek x)) eqn:E.
  - intros [= <-]. exists x. split_and!; [set_solver|done|done].
  - intros (e & ? & ? & ?)%IH. exists e. split_and!; [set_solver|done|done].
Qed.

(** ** Properties *)

(** C4. A table in which every insertion checks for duplicates is a map, for
    any hash and equality functions that agree, through every growth and every
    outcome of the allocations (the broken fallback of a growth apart): an
    insertion binds its key and no other, and unbinds it when the entry could
    not be allocated; a removal unbinds its key and returns what a search for
    it returned, or nothing when the table has freed the value. *)
Theorem hashtable_map m h k v flags d :
  wf h -> entrycount h < UINT_MAX -> mem_safe m -> test_flag flags HASHTABLE_DUP_CHECK = true ->
  (exists h' r, switch_hashtable_insert_destructor m h k v flags d = Ok (h', r) /\ wf h' /\
     r = (if entry_ok m then -1 else 0) /\
     forall k', switch_hashtable_search h' k' =
       if eqfn k' k then if entry_ok m then Some v else None else switch_hashtable_search h k') /\
  (exists h' r, switch_hashtable_remove h k = (h', r) /\ wf h' /\
     (r = switch_hashtable_search h k \/
      (r = None /\ exists x, switch_hashtable_search h k = Some x /\ freed h' = x :: freed h)) /\
     forall k', switch_hashtable_search h' k' =
       if eqfn k' k then None else switch_hashtable_search h k').
Proof.
  intros W B M D. split.
  - destruct (insert_spec m h k v flags d W B M D) as (h' & r & E & W' & Hr & _ & L).
    exists h', r. split_and!; try done. intros k'. by rewrite !search_wf by done.
  - assert (entrycount h < 2 ^ 32) as B' by (unfold UINT_MAX in B; lia).
    pose proof (remove_spec h k W B') as R. destruct (remove_lookup h k W B') as (_ & _ & L).
    destruct (switch_hashtable_remove h k) as [h' r]. destruct R as [W' R]. cbn [fst] in L.
    exists h', r. split_and!; try done; [|intros k'; by rewrite !search_wf by done].
    rewrite search_wf by done. destruct R as [(A & _ & ->)|(e & Me & P & _ & _ & _ & X)].
    + left. by apply lookup_key_absent in A.
    + assert (lookup_key (entries h) k = Some (ev e)) as Lk.
      { rewrite (perm_lookup _ _ k P) by apply W. simpl. unfold matches in Me. by rewrite Me. }
      rewrite Lk. destruct (_ || _); destruct X as [-> ?]; eauto.
Qed.

(** A growth keeps every search result, the count and the invariant, and
    does nothing when the memory or the prime table is exhausted; but when the
    new table cannot be allocated and the old one can be reallocated it clears
    memory through the contents of an uninitialised bucket. *)
Theorem hashtable_growth m h :
  wf h ->
  (mem_safe m -> exists h' r, hashtable_expand m h = Ok (h', r) /\ wf h' /\
     entrycount h' = entrycount h /\
     forall k, switch_hashtable_search h' k = switch_hashtable_search h k) /\
  (table_ok m = false -> realloc_ok m = true -> primeindex h <> prime_table_length - 1 ->
     hashtable_expand m h = UB).
Proof.
  intros W. split.
  - intros M. destruct (expand_spec 0 m h (proj1 (wf_wf_but h) W) M) as (h' & r & E & W' & P & _ & C).
    apply wf_wf_but in W'. exists h', r. split_and!; try done.
    intros k. rewrite !search_wf by done. apply perm_lookup; [done|]. apply W'.
  - intros T R N. unfold hashtable_expand. rewrite (proj2 (Z.eqb_neq _ _) N), T, R.
    by destruct (primes !! _).
Qed.

(** The iterator visits every binding once: the keys and values it yields
    are the entries of the table, no two with equal keys, and each is what a
    search for its key returns. *)
Theorem hashtable_iterates h :
  wf h ->
  exists l, walk (S (Z.to_nat (entrycount h))) h (switch_hashtable_first_iter h) = map Some l /\
    zlen l = switch_hashtable_count h /\
    (forall i j k k' v v', l !! i = Some (k, v) -> l !! j = Some (k', v') -> eqfn k k' = true -> i = j) /\
    (forall k v, switch_hashtable_search h k = Some v <-> exists k', eqfn k k' = true /\ (k', v) ∈ l).
Proof.
  intros W. pose proof W as []. exists (map (fun e => (ek e, ev e)) (entries h)). split_and!.
  - rewrite wf_count0, Nat2Z.id, walk_all by done. unfold pairs. by rewrite map_map.
  - rewrite length_map. unfold switch_hashtable_count. lia.
  - clear wf_count0. unfold entries in *. generalize dependent (concat (table h)).
    induction l as [|e l IH]; intros D i j k k' v v' Hi Hj E; [done|]. destruct D as [F D].
    rewrite Forall_forall in F.
    assert (X : forall n q w, map (fun e => (ek e, ev e)) l !! n = Some (q, w) -> eqfn (ek e) q = false).
    { intros n q w Hn. apply list_elem_of_lookup_2 in Hn. apply list_elem_of_fmap in Hn as (x & [= -> ->] & Hx).
      by apply F. }
    destruct i as [|i], j as [|j]; simpl in Hi, Hj; [done|..].
    + injection Hi as <- <-. rewrite (X _ _ _ Hj) in E. done.
    + injection Hj as <- <-. rewrite eqfn_sym, (X _ _ _ Hi) in E. done.
    + f_equal. by eapply IH.
  - intros k v. rewrite search_wf by done. split.
    + intros (e & Hin & M & <-)%lookup_key_Some. exists (ek e). split; [done|].
      by apply (list_elem_of_fmap_2 (fun e => (ek e, ev e))).
    + intros (k' & E & Hin). apply list_elem_of_fmap in Hin as (e & [= -> ->] & Hin).
      rewrite (lookup_key_congr _ _ _ E). by apply lookup_key_elem.
Qed.

(** Whether the callback accepts a binding. *)
Definition accepts (callback : option (K -> V -> bool)) (k : K) (v : V) : bool :=
  match callback with Some f => f k v | None => true end.

(** Deletion of the accepted keys removes exactly the bindings that the callback
    accepts: afterwards a search finds nothing for them and finds the others
    unchanged. *)
Lemma delete_accepted callback h k st :
  (forall k1 k2 v, eqfn k1 k2 = true -> accepts callback k1 v = accepts callback k2 v) ->
  wf h -> entrycount h < 2 ^ 32 ->
  wf (fst (delete_keys h (accepted_keys callback h) st)) /\
  switch_core_hash_find (fst (delete_keys h (accepted_keys callback h) st)) k =
    match switch_core_hash_find h k with
    | Some v => if accepts callback k v then None else Some v
    | None => None
    end.
Proof.
  intros CB W B. unfold accepted_keys. pose proof W as [].
  change (concat (table h)) with (entries h). rewrite walk_all by done.
  set (ks := omap _ _). destruct (delete_keys_spec ks h st W B) as [W' L].
  split; [done|]. unfold switch_core_hash_find. rewrite !search_wf by done. rewrite L.
  assert (X : existsb (eqfn k) ks = true <-> exists e, e ∈ entries h /\ matches k e /\ accepts callback (ek e) (ev e) = true).
  { rewrite existsb_exists. unfold ks, pairs. split.
    - intros (k' & Hin & E). apply list_elem_of_In, list_elem_of_omap in Hin as (o & Ho & Hk).
      apply list_elem_of_fmap in Ho as (e & -> & He). exists e. unfold accepts.
      destruct callback as [f|]; [destruct (f _ _) eqn:C; [|done]|]; by injection Hk as <-.
    - intros (e & He & M & C). exists (ek e). split; [|done]. apply list_elem_of_In, list_elem_of_omap.
      exists (Some (ek e, ev e)). split; [|unfold accepts in C; destruct callback; [by rewrite C|done]].
      by apply (list_elem_of_fmap_2 (fun e => Some (ek e, ev e))). }
  destruct (lookup_key (entries h) k) as [v|] eqn:Lk; [|by destruct (existsb _ _)].
  apply lookup_key_Some in Lk as (e & He & M & <-). rewrite (CB k (ek e)) by exact M.
  destruct (accepts callback (ek e) (ev e)) eqn:C.
  - rewrite (proj2 X); [done|]. eauto.
  - destruct (existsb (eqfn k) ks); [|done]. destruct (proj1 X eq_refl) as (e' & He' & M' & C').
    assert (Some (ev e') = Some (ev e)) as [= E].
    { rewrite <- !(lookup_key_elem (entries h)) by done. apply lookup_key_congr.
      unfold matches in *. rewrite <- (eqfn_congr _ _ _ M'). done. }
    assert (eqfn (ek e') (ek e) = true) as EE by (unfold matches in *; by rewrite <- (eqfn_congr _ _ _ M')).
    rewrite (CB _ _ _ EE), E in C'. congruence.
Qed.
End TableFacts.

(** ** The interface that the users of integer tables rely on

    A table stands for a finite map of 32-bit keys; [ih_list] is what a loop with
    the iterator visits.  Allocations succeed: the
    users ignore the status of an insertion. *)

Class IntHash (H : Type) (V : Type) := {
  ih_new : H;
  ih_insert : H -> Z -> V -> H;
  ih_delete : H -> Z -> H;
  ih_find : H -> Z -> option V;
  ih_list : H -> list (Z * V);
  ih_repr : H -> gmap Z V -> Prop
}.

Class IntHashOk (H V : Type) `{!IntHash H V} : Prop := {
  ih_new_repr : ih_repr ih_new ∅;
  ih_insert_repr h m k v : ih_repr h m -> Z.of_nat (size m) < UINT_MAX ->
    ih_repr (ih_insert h k v) (<[k := v]> m);
  ih_delete_repr h m k : ih_repr h m -> ih_repr (ih_delete h k) (delete k m);
  ih_find_repr h m k : ih_repr h m -> ih_find h k = m !! k;
  ih_list_repr h m : ih_repr h m -> ih_list h ≡ₚ map_to_list m
}.

Definition all_ok : mem := mk_mem true true true.

#[export] Instance inthash {V} : IntHash (switch_hashtable Z V) V := {|
  ih_new := default (mk_table 0 [] 0 0 0 []) (fst switch_core_inthash_init);
  ih_insert h k v := match switch_core_inthash_insert all_ok h k v with Ok (h, _) => h | _ => h end;
  ih_delete h k := fst (switch_core_inthash_delete h k);
  ih_find := switch_core_inthash_find;
  ih_list h := omap id (walk (S (length (entries h))) h (switch_hashtable_first_iter h));
  ih_repr h m := wf h /\ entrycount h = Z.of_nat (size m) /\ entrycount h <= UINT_MAX /\
    forall k, switch_hashtable_search h k = m !! k
|}.

Lemma inthash_find_eq {V} (h : switch_hashtable Z V) k : ih_find h k = switch_hashtable_search h k.
Proof. reflexivity. Qed.

Lemma int_eqfn (k k' : Z) : eqfn k k' = bool_decide (k = k').
Proof.
  apply eq_true_iff_eq. rewrite bool_decide_eq_true. unfold eqfn, int_key, switch_hash_equalkeys_int. lia.
Qed.

Lemma int_distinct {V} (l : list (entry Z V)) : distinct l -> NoDup (ek <$> l).
Proof.
  induction l as [|e l IH]; intros D; [constructor|]. destruct D as [F D]. constructor; [|by apply IH].
  intros (x & E & Hx)%list_elem_of_fmap. rewrite Forall_forall in F. specialize (F x Hx).
  rewrite int_eqfn, E, bool_decide_true in F; done.
Qed.

#[export] Instance inthash_ok {V} : IntHashOk (switch_hashtable Z V) V.
Proof.
  constructor.
  - destruct (create_spec (K := Z) (V := V) 16) as (h & E & W & En & _); [lia|].
    unfold ih_new, ih_repr, inthash, switch_core_inthash_init. rewrite E. cbn.
    pose proof W as []. rewrite En in wf_count0. simpl in wf_count0. rewrite map_size_empty.
    split_and!; [done|done|unfold UINT_MAX; lia|].
    intros k. rewrite search_wf, En by done. done.
  - intros h m k v (W & C & _ & F) B. rewrite <- C in B.
    destruct (insert_spec all_ok h k v (Z.lor HASHTABLE_FLAG_FREE_KEY HASHTABLE_DUP_CHECK) false)
      as (h' & r & E & W' & _ & C' & L'); [done|done|by left|done|].
    unfold ih_insert, ih_repr, inthash, switch_core_inthash_insert, switch_core_hash_insert_destructor.
    rewrite E. cbn [mbind outcome_bind]. unfold present in C'. rewrite <- search_wf, F in C' by done.
    rewrite map_size_insert. pose proof (wf_count_pos h W).
    split_and!; [done|destruct (m !! k); simpl in *; lia|destruct (m !! k); simpl in *; lia|].
    intros k'. rewrite search_wf, L' by done. rewrite <- search_wf, F by done. rewrite int_eqfn.
    case_bool_decide; [subst; by rewrite lookup_insert_eq|by rewrite lookup_insert_ne].
  - intros h m k (W & C & B & F). unfold ih_delete, ih_repr, inthash, switch_core_inthash_delete.
    unfold UINT_MAX in *. destruct (remove_lookup h k W) as (W' & C' & L'); [lia|].
    unfold present in C'. rewrite <- search_wf, F in C' by done. rewrite map_size_delete.
    assert (m !! k <> None -> size m <> 0%nat) as Sz
      by (intros N S; apply map_size_empty_inv in S as ->; by rewrite lookup_empty in N).
    split_and!; [done|destruct (m !! k); simpl in *; [specialize (Sz ltac:(done))|]; lia
      |destruct (m !! k); simpl in *; lia|].
    intros k'. rewrite search_wf, L' by done. rewrite <- search_wf, F by done. rewrite int_eqfn.
    case_bool_decide; [subst; by rewrite lookup_delete_eq|by rewrite lookup_delete_ne].
  - intros h m k (_ & _ & _ & F). apply F.
  - intros h m (W & _ & _ & F). unfold ih_list, inthash. rewrite walk_all by apply W.
    unfold pairs. replace (omap id _) with ((fun e => (ek e, ev e)) <$> entries h).
    2:{ induction (entries h) as [|e l IH]; [done|]. cbn. by f_equal. }
    apply NoDup_Permutation; [|apply NoDup_map_to_list|].
    + apply (NoDup_fmap_1 fst). rewrite <- list_fmap_compose. apply int_distinct, W.
    + intros [k v]. rewrite elem_of_map_to_list, <- F, search_wf by done. split.
      * intros (e & [= -> ->] & Hin)%list_elem_of_fmap. apply lookup_key_elem; [apply W|done].
      * intros (e & Hin & M & <-)%lookup_key_Some. unfold matches in M. rewrite int_eqfn, bool_decide_eq_true in M.
        subst k. by apply (list_elem_of_fmap_2 (fun e => (ek e, ev e))).
Qed.

(** Sequences of operations on a table of integer keys. *)
Inductive int_op (V : Type) := IInsert (k : Z) (v : V) | IDelete (k : Z).
Arguments IInsert {V}.
Arguments IDelete {V}.

Definition int_run {V} (ops : list (int_op V)) (h : switch_hashtable Z V) : switch_hashtable Z V :=
  foldl (fun h o => match o with IInsert k v => ih_insert h k v | IDelete k => ih_delete h k end) h ops.
Definition map_run {V} (ops : list (int_op V)) (m : gmap Z V) : gmap Z V :=
  foldl (fun m o => match o with IInsert k v => <[k := v]> m | IDelete k => delete k m end) m ops.

Lemma int_run_repr {V} (ops : list (int_op V)) h m :
  ih_repr h m -> Z.of_nat (size m) + zlen ops <= UINT_MAX -> ih_repr (int_run ops h) (map_run ops m).
Proof.
  revert h m. induction ops as [|o ops IH]; intros h m R B; [done|]. simpl in B.
  cbn [int_run map_run foldl]. destruct o as [k v|k].
  - apply IH; [apply ih_insert_repr; [done|lia]|]. rewrite map_size_insert. destruct (m !! k); simpl; lia.
  - apply IH; [by apply ih_delete_repr|]. rewrite map_size_delete. destruct (m !! k); simpl; lia.
Qed.

(** A table of integer keys, from its creation through any sequence of
    insertions and deletions (fewer than 2^32 of them), is the finite map built
    by the same operations: every lookup and the count agree with it. *)
Theorem inthash_refines_map {V} (ops : list (int_op V)) k :
  zlen ops <= UINT_MAX ->
  switch_core_inthash_find (int_run ops ih_new) k = map_run ops ∅ !! k /\
  switch_hashtable_count (int_run ops ih_new) = Z.of_nat (size (map_run ops ∅)).
Proof.
  intros B. pose proof (int_run_repr ops ih_new ∅ ih_new_repr) as R.
  rewrite map_size_empty in R. specialize (R ltac:(lia)). split.
  - rewrite <- (ih_find_repr _ _ k R). done.
  - apply R.
Qed.

(** ** Witnesses *)

Definition w_table : switch_hashtable Z Z := int_run [IInsert 7 70; IInsert 60 600] ih_new.

Lemma w_table_wf : wf w_table /\ entrycount w_table = 2.
Proof.
  split; [|vm_compute; reflexivity].
  apply (int_run_repr [IInsert 7 70; IInsert 60 600] ih_new ∅ ih_new_repr). rewrite map_size_empty.
  unfold UINT_MAX. simpl. lia.
Qed.

Lemma hashtable_map_witness :
  exists h' r, switch_hashtable_insert_destructor all_ok w_table 9 90 4 false = Ok (h', r) /\
    switch_hashtable_search h' 7 = Some 70.
Proof.
  destruct (hashtable_map all_ok w_table 9 90 4 false (proj1 w_table_wf)) as [(h' & r & E & _ & _ & S) _];
    [rewrite (proj2 w_table_wf); unfold UINT_MAX; lia|left; reflexivity|reflexivity|].
  exists h', r. split; [exact E|]. rewrite S. vm_compute. reflexivity.
Defined.

Lemma hashtable_growth_witness :
  hashtable_expand (mk_mem false true true) w_table = UB /\
  exists h' r, hashtable_expand all_ok w_table = Ok (h', r) /\ switch_hashtable_search h' 60 = Some 600.
Proof.
  split.
  - apply (hashtable_growth (mk_mem false true true) w_table (proj1 w_table_wf)); try reflexivity.
    vm_compute. discriminate.
  - destruct (hashtable_growth all_ok w_table (proj1 w_table_wf)) as [H _].
    destruct H as (h' & r & E & _ & _ & S); [left; reflexivity|].
    exists h', r. split; [exact E|]. rewrite S. vm_compute. reflexivity.
Defined.

Lemma hashtable_iterates_witness :
  exists l, walk 3 w_table (switch_hashtable_first_iter w_table) = map Some l /\ zlen l = 2.
Proof.
  destruct (hashtable_iterates w_table (proj1 w_table_wf)) as (l & E & C & _).
  rewrite (proj2 w_table_wf) in E. exists l. split; [exact E|]. rewrite C. apply (proj2 w_table_wf).
Defined.

Lemma inthash_refines_map_witness :
  switch_core_inthash_find (int_run [IInsert 5 50; IInsert 5 51; IDelete 6] ih_new) 5 = Some 51.
Proof.
  destruct (inthash_refines_map [IInsert 5 50; IInsert 5 51; IDelete 6] 5) as [E _];
    [unfold UINT_MAX; simpl; lia|]. rewrite E. vm_compute. reflexivity.
Defined.
