(* ===== verification/EventTypes.v ===== *)
(** * Event types and their names (src/include/switch_types.h, src/switch_event.c) *)
From S2P Require Import Prelude CStrings StringUtils.
From stdpp Require Import strings.
From Stdlib Require Import String Ascii.
Open Scope Z_scope.
#[local] Notation length := List.length (only parsing).

Inductive switch_event_types :=
| SWITCH_EVENT_CUSTOM | SWITCH_EVENT_CLONE | SWITCH_EVENT_CHANNEL_CREATE | SWITCH_EVENT_CHANNEL_DESTROY
| SWITCH_EVENT_CHANNEL_STATE | SWITCH_EVENT_CHANNEL_CALLSTATE | SWITCH_EVENT_CHANNEL_ANSWER
| SWITCH_EVENT_CHANNEL_HANGUP | SWITCH_EVENT_CHANNEL_HANGUP_COMPLETE | SWITCH_EVENT_CHANNEL_EXECUTE
| SWITCH_EVENT_CHANNEL_EXECUTE_COMPLETE | SWITCH_EVENT_CHANNEL_HOLD | SWITCH_EVENT_CHANNEL_UNHOLD
| SWITCH_EVENT_CHANNEL_BRIDGE | SWITCH_EVENT_CHANNEL_UNBRIDGE | SWITCH_EVENT_CHANNEL_PROGRESS
| SWITCH_EVENT_CHANNEL_PROGRESS_MEDIA | SWITCH_EVENT_CHANNEL_OUTGOING | SWITCH_EVENT_CHANNEL_PARK
| SWITCH_EVENT_CHANNEL_UNPARK | SWITCH_EVENT_CHANNEL_APPLICATION | SWITCH_EVENT_CHANNEL_ORIGINATE
| SWITCH_EVENT_CHANNEL_UUID | SWITCH_EVENT_API | SWITCH_EVENT_LOG | SWITCH_EVENT_INBOUND_CHAN
| SWITCH_EVENT_OUTBOUND_CHAN | SWITCH_EVENT_STARTUP | SWITCH_EVENT_SHUTDOWN | SWITCH_EVENT_PUBLISH
| SWITCH_EVENT_UNPUBLISH | SWITCH_EVENT_TALK | SWITCH_EVENT_NOTALK | SWITCH_EVENT_SESSION_CRASH
| SWITCH_EVENT_MODULE_LOAD | SWITCH_EVENT_MODULE_UNLOAD | SWITCH_EVENT_DTMF | SWITCH_EVENT_MESSAGE
| SWITCH_EVENT_PRESENCE_IN | SWITCH_EVENT_NOTIFY_IN | SWITCH_EVENT_PRESENCE_OUT
| SWITCH_EVENT_PRESENCE_PROBE | SWITCH_EVENT_MESSAGE_WAITING | SWITCH_EVENT_MESSAGE_QUERY
| SWITCH_EVENT_ROSTER | SWITCH_EVENT_CODEC | SWITCH_EVENT_BACKGROUND_JOB | SWITCH_EVENT_DETECTED_SPEECH
| SWITCH_EVENT_DETECTED_TONE | SWITCH_EVENT_PRIVATE_COMMAND | SWITCH_EVENT_HEARTBEAT
| SWITCH_EVENT_TRAP | SWITCH_EVENT_ADD_SCHEDULE | SWITCH_EVENT_DEL_SCHEDULE | SWITCH_EVENT_EXE_SCHEDULE
| SWITCH_EVENT_RE_SCHEDULE | SWITCH_EVENT_RELOADXML | SWITCH_EVENT_NOTIFY | SWITCH_EVENT_PHONE_FEATURE
| SWITCH_EVENT_PHONE_FEATURE_SUBSCRIBE | SWITCH_EVENT_SEND_MESSAGE | SWITCH_EVENT_RECV_MESSAGE
| SWITCH_EVENT_REQUEST_PARAMS | SWITCH_EVENT_CHANNEL_DATA | SWITCH_EVENT_GENERAL | SWITCH_EVENT_COMMAND
| SWITCH_EVENT_SESSION_HEARTBEAT | SWITCH_EVENT_CLIENT_DISCONNECTED | SWITCH_EVENT_SERVER_DISCONNECTED
| SWITCH_EVENT_SEND_INFO | SWITCH_EVENT_RECV_INFO | SWITCH_EVENT_RECV_RTCP_MESSAGE
| SWITCH_EVENT_CALL_SECURE | SWITCH_EVENT_NAT | SWITCH_EVENT_RECORD_START | SWITCH_EVENT_RECORD_STOP
| SWITCH_EVENT_PLAYBACK_START | SWITCH_EVENT_PLAYBACK_STOP | SWITCH_EVENT_CALL_UPDATE
| SWITCH_EVENT_FAILURE | SWITCH_EVENT_SOCKET_DATA | SWITCH_EVENT_MEDIA_BUG_START
| SWITCH_EVENT_MEDIA_BUG_STOP | SWITCH_EVENT_CONFERENCE_DATA_QUERY | SWITCH_EVENT_CONFERENCE_DATA
| SWITCH_EVENT_CALL_SETUP_REQ | SWITCH_EVENT_CALL_SETUP_RESULT | SWITCH_EVENT_CALL_DETAIL
| SWITCH_EVENT_DEVICE_STATE | SWITCH_EVENT_ALL.

Definition all_events : list switch_event_types :=
  [SWITCH_EVENT_CUSTOM; SWITCH_EVENT_CLONE; SWITCH_EVENT_CHANNEL_CREATE; SWITCH_EVENT_CHANNEL_DESTROY;
  SWITCH_EVENT_CHANNEL_STATE; SWITCH_EVENT_CHANNEL_CALLSTATE; SWITCH_EVENT_CHANNEL_ANSWER;
  SWITCH_EVENT_CHANNEL_HANGUP; SWITCH_EVENT_CHANNEL_HANGUP_COMPLETE; SWITCH_EVENT_CHANNEL_EXECUTE;
  SWITCH_EVENT_CHANNEL_EXECUTE_COMPLETE; SWITCH_EVENT_CHANNEL_HOLD; SWITCH_EVENT_CHANNEL_UNHOLD;
  SWITCH_EVENT_CHANNEL_BRIDGE; SWITCH_EVENT_CHANNEL_UNBRIDGE; SWITCH_EVENT_CHANNEL_PROGRESS;
  SWITCH_EVENT_CHANNEL_PROGRESS_MEDIA; SWITCH_EVENT_CHANNEL_OUTGOING; SWITCH_EVENT_CHANNEL_PARK;
  SWITCH_EVENT_CHANNEL_UNPARK; SWITCH_EVENT_CHANNEL_APPLICATION; SWITCH_EVENT_CHANNEL_ORIGINATE;
  SWITCH_EVENT_CHANNEL_UUID; SWITCH_EVENT_API; SWITCH_EVENT_LOG; SWITCH_EVENT_INBOUND_CHAN;
  SWITCH_EVENT_OUTBOUND_CHAN; SWITCH_EVENT_STARTUP; SWITCH_EVENT_SHUTDOWN; SWITCH_EVENT_PUBLISH;
  SWITCH_EVENT_UNPUBLISH; SWITCH_EVENT_TALK; SWITCH_EVENT_NOTALK; SWITCH_EVENT_SESSION_CRASH;
  SWITCH_EVENT_MODULE_LOAD; SWITCH_EVENT_MODULE_UNLOAD; SWITCH_EVENT_DTMF; SWITCH_EVENT_MESSAGE;
  SWITCH_EVENT_PRESENCE_IN; SWITCH_EVENT_NOTIFY_IN; SWITCH_EVENT_PRESENCE_OUT;
  SWITCH_EVENT_PRESENCE_PROBE; SWITCH_EVENT_MESSAGE_WAITING; SWITCH_EVENT_MESSAGE_QUERY;
  SWITCH_EVENT_ROSTER; SWITCH_EVENT_CODEC; SWITCH_EVENT_BACKGROUND_JOB; SWITCH_EVENT_DETECTED_SPEECH;
  SWITCH_EVENT_DETECTED_TONE; SWITCH_EVENT_PRIVATE_COMMAND; SWITCH_EVENT_HEARTBEAT; SWITCH_EVENT_TRAP;
  SWITCH_EVENT_ADD_SCHEDULE; SWITCH_EVENT_DEL_SCHEDULE; SWITCH_EVENT_EXE_SCHEDULE;
  SWITCH_EVENT_RE_SCHEDULE; SWITCH_EVENT_RELOADXML; SWITCH_EVENT_NOTIFY; SWITCH_EVENT_PHONE_FEATURE;
  SWITCH_EVENT_PHONE_FEATURE_SUBSCRIBE; SWITCH_EVENT_SEND_MESSAGE; SWITCH_EVENT_RECV_MESSAGE;
  SWITCH_EVENT_REQUEST_PARAMS; SWITCH_EVENT_CHANNEL_DATA; SWITCH_EVENT_GENERAL; SWITCH_EVENT_COMMAND;
  SWITCH_EVENT_SESSION_HEARTBEAT; SWITCH_EVENT_CLIENT_DISCONNECTED; SWITCH_EVENT_SERVER_DISCONNECTED;
  SWITCH_EVENT_SEND_INFO; SWITCH_EVENT_RECV_INFO; SWITCH_EVENT_RECV_RTCP_MESSAGE;
  SWITCH_EVENT_CALL_SECURE; SWITCH_EVENT_NAT; SWITCH_EVENT_RECORD_START; SWITCH_EVENT_RECORD_STOP;
  SWITCH_EVENT_PLAYBACK_START; SWITCH_EVENT_PLAYBACK_STOP; SWITCH_EVENT_CALL_UPDATE;
  SWITCH_EVENT_FAILURE; SWITCH_EVENT_SOCKET_DATA; SWITCH_EVENT_MEDIA_BUG_START;
  SWITCH_EVENT_MEDIA_BUG_STOP; SWITCH_EVENT_CONFERENCE_DATA_QUERY; SWITCH_EVENT_CONFERENCE_DATA;
  SWITCH_EVENT_CALL_SETUP_REQ; SWITCH_EVENT_CALL_SETUP_RESULT; SWITCH_EVENT_CALL_DETAIL;
  SWITCH_EVENT_DEVICE_STATE; SWITCH_EVENT_ALL].

(** The number of an event type. *)
Definition ev_index (e : switch_event_types) : nat :=
  match e with
  | SWITCH_EVENT_CUSTOM => 0 | SWITCH_EVENT_CLONE => 1 | SWITCH_EVENT_CHANNEL_CREATE => 2
  | SWITCH_EVENT_CHANNEL_DESTROY => 3 | SWITCH_EVENT_CHANNEL_STATE => 4
  | SWITCH_EVENT_CHANNEL_CALLSTATE => 5 | SWITCH_EVENT_CHANNEL_ANSWER => 6
  | SWITCH_EVENT_CHANNEL_HANGUP => 7 | SWITCH_EVENT_CHANNEL_HANGUP_COMPLETE => 8
  | SWITCH_EVENT_CHANNEL_EXECUTE => 9 | SWITCH_EVENT_CHANNEL_EXECUTE_COMPLETE => 10
  | SWITCH_EVENT_CHANNEL_HOLD => 11 | SWITCH_EVENT_CHANNEL_UNHOLD => 12
  | SWITCH_EVENT_CHANNEL_BRIDGE => 13 | SWITCH_EVENT_CHANNEL_UNBRIDGE => 14
  | SWITCH_EVENT_CHANNEL_PROGRESS => 15 | SWITCH_EVENT_CHANNEL_PROGRESS_MEDIA => 16
  | SWITCH_EVENT_CHANNEL_OUTGOING => 17 | SWITCH_EVENT_CHANNEL_PARK => 18
  | SWITCH_EVENT_CHANNEL_UNPARK => 19 | SWITCH_EVENT_CHANNEL_APPLICATION => 20
  | SWITCH_EVENT_CHANNEL_ORIGINATE => 21 | SWITCH_EVENT_CHANNEL_UUID => 22 | SWITCH_EVENT_API => 23
  | SWITCH_EVENT_LOG => 24 | SWITCH_EVENT_INBOUND_CHAN => 25 | SWITCH_EVENT_OUTBOUND_CHAN => 26
  | SWITCH_EVENT_STARTUP => 27 | SWITCH_EVENT_SHUTDOWN => 28 | SWITCH_EVENT_PUBLISH => 29
  | SWITCH_EVENT_UNPUBLISH => 30 | SWITCH_EVENT_TALK => 31 | SWITCH_EVENT_NOTALK => 32
  | SWITCH_EVENT_SESSION_CRASH => 33 | SWITCH_EVENT_MODULE_LOAD => 34 | SWITCH_EVENT_MODULE_UNLOAD => 35
  | SWITCH_EVENT_DTMF => 36 | SWITCH_EVENT_MESSAGE => 37 | SWITCH_EVENT_PRESENCE_IN => 38
  | SWITCH_EVENT_NOTIFY_IN => 39 | SWITCH_EVENT_PRESENCE_OUT => 40 | SWITCH_EVENT_PRESENCE_PROBE => 41
  | SWITCH_EVENT_MESSAGE_WAITING => 42 | SWITCH_EVENT_MESSAGE_QUERY => 43 | SWITCH_EVENT_ROSTER => 44
  | SWITCH_EVENT_CODEC => 45 | SWITCH_EVENT_BACKGROUND_JOB => 46 | SWITCH_EVENT_DETECTED_SPEECH => 47
  | SWITCH_EVENT_DETECTED_TONE => 48 | SWITCH_EVENT_PRIVATE_COMMAND => 49 | SWITCH_EVENT_HEARTBEAT => 50
  | SWITCH_EVENT_TRAP => 51 | SWITCH_EVENT_ADD_SCHEDULE => 52 | SWITCH_EVENT_DEL_SCHEDULE => 53
  | SWITCH_EVENT_EXE_SCHEDULE => 54 | SWITCH_EVENT_RE_SCHEDULE => 55 | SWITCH_EVENT_RELOADXML => 56
  | SWITCH_EVENT_NOTIFY => 57 | SWITCH_EVENT_PHONE_FEATURE => 58
  | SWITCH_EVENT_PHONE_FEATURE_SUBSCRIBE => 59 | SWITCH_EVENT_SEND_MESSAGE => 60
  | SWITCH_EVENT_RECV_MESSAGE => 61 | SWITCH_EVENT_REQUEST_PARAMS => 62 | SWITCH_EVENT_CHANNEL_DATA => 63
  | SWITCH_EVENT_GENERAL => 64 | SWITCH_EVENT_COMMAND => 65 | SWITCH_EVENT_SESSION_HEARTBEAT => 66
  | SWITCH_EVENT_CLIENT_DISCONNECTED => 67 | SWITCH_EVENT_SERVER_DISCONNECTED => 68
  | SWITCH_EVENT_SEND_INFO => 69 | SWITCH_EVENT_RECV_INFO => 70 | SWITCH_EVENT_RECV_RTCP_MESSAGE => 71
  | SWITCH_EVENT_CALL_SECURE => 72 | SWITCH_EVENT_NAT => 73 | SWITCH_EVENT_RECORD_START => 74
  | SWITCH_EVENT_RECORD_STOP => 75 | SWITCH_EVENT_PLAYBACK_START => 76 | SWITCH_EVENT_PLAYBACK_STOP => 77
  | SWITCH_EVENT_CALL_UPDATE => 78 | SWITCH_EVENT_FAILURE => 79 | SWITCH_EVENT_SOCKET_DATA => 80
  | SWITCH_EVENT_MEDIA_BUG_START => 81 | SWITCH_EVENT_MEDIA_BUG_STOP => 82
  | SWITCH_EVENT_CONFERENCE_DATA_QUERY => 83 | SWITCH_EVENT_CONFERENCE_DATA => 84
  | SWITCH_EVENT_CALL_SETUP_REQ => 85 | SWITCH_EVENT_CALL_SETUP_RESULT => 86
  | SWITCH_EVENT_CALL_DETAIL => 87 | SWITCH_EVENT_DEVICE_STATE => 88 | SWITCH_EVENT_ALL => 89
  end.

Lemma all_events_index e : all_events !! ev_index e = Some e.
Proof. by destruct e. Qed.
#[export] Instance event_types_eq_dec : EqDecision switch_event_types.
Proof.
  refine (fun a b => cast_if (decide (ev_index a = ev_index b))).
  - apply (inj Some). by rewrite <- !all_events_index, e.
  - abstract congruence.
Defined.

Definition EVENT_NAMES : list string :=
  ["CUSTOM"; "CLONE"; "CHANNEL_CREATE"; "CHANNEL_DESTROY"; "CHANNEL_STATE"; "CHANNEL_CALLSTATE";
  "CHANNEL_ANSWER"; "CHANNEL_HANGUP"; "CHANNEL_HANGUP_COMPLETE"; "CHANNEL_EXECUTE";
  "CHANNEL_EXECUTE_COMPLETE"; "CHANNEL_HOLD"; "CHANNEL_UNHOLD"; "CHANNEL_BRIDGE"; "CHANNEL_UNBRIDGE";
  "CHANNEL_PROGRESS"; "CHANNEL_PROGRESS_MEDIA"; "CHANNEL_OUTGOING"; "CHANNEL_PARK"; "CHANNEL_UNPARK";
  "CHANNEL_APPLICATION"; "CHANNEL_ORIGINATE"; "CHANNEL_UUID"; "API"; "LOG"; "INBOUND_CHAN";
  "OUTBOUND_CHAN"; "STARTUP"; "SHUTDOWN"; "PUBLISH"; "UNPUBLISH"; "TALK"; "NOTALK"; "SESSION_CRASH";
  "MODULE_LOAD"; "MODULE_UNLOAD"; "DTMF"; "MESSAGE"; "PRESENCE_IN"; "NOTIFY_IN"; "PRESENCE_OUT";
  "PRESENCE_PROBE"; "MESSAGE_WAITING"; "MESSAGE_QUERY"; "ROSTER"; "CODEC"; "BACKGROUND_JOB";
  "DETECTED_SPEECH"; "DETECTED_TONE"; "PRIVATE_COMMAND"; "HEARTBEAT"; "TRAP"; "ADD_SCHEDULE";
  "DEL_SCHEDULE"; "EXE_SCHEDULE"; "RE_SCHEDULE"; "RELOADXML"; "NOTIFY"; "PHONE_FEATURE";
  "PHONE_FEATURE_SUBSCRIBE"; "SEND_MESSAGE"; "RECV_MESSAGE"; "REQUEST_PARAMS"; "CHANNEL_DATA";
  "GENERAL"; "COMMAND"; "SESSION_HEARTBEAT"; "CLIENT_DISCONNECTED"; "SERVER_DISCONNECTED"; "SEND_INFO";
  "RECV_INFO"; "RECV_RTCP_MESSAGE"; "CALL_SECURE"; "NAT"; "RECORD_START"; "RECORD_STOP";
  "PLAYBACK_START"; "PLAYBACK_STOP"; "CALL_UPDATE"; "FAILURE"; "SOCKET_DATA"; "MEDIA_BUG_START";
  "MEDIA_BUG_STOP"; "CONFERENCE_DATA_QUERY"; "CONFERENCE_DATA"; "CALL_SETUP_REQ"; "CALL_SETUP_RESULT";
  "CALL_DETAIL"; "DEVICE_STATE"; "ALL"].

(** An index outside the table is read from behind it. *)
Definition switch_event_name (e : switch_event_types) : outcome string :=
  match EVENT_NAMES !! ev_index e with Some n => Ok n | None => UB end.

(** [name + 13]: what follows SWITCH_EVENT_. *)
Fixpoint skip_chars (n : nat) (s : string) : string :=
  match n, s with
  | S n, String _ s => skip_chars n s
  | _, _ => s
  end.

Fixpoint name_event_from (name : string) (es : list switch_event_types) (names : list string)
  : option switch_event_types :=
  match es, names with
  | e :: es, n :: names =>
    if ((13 <? slen name) && strcaseeq (skip_chars 13 name) n) || strcaseeq name n then Some e
    else name_event_from name es names
  | _, _ => None
  end.
(** [None] is [SWITCH_STATUS_FALSE]. *)
Definition switch_name_event (name : string) : option switch_event_types :=
  name_event_from name all_events EVENT_NAMES.

Lemma all_events_complete e : e ∈ all_events.
Proof. apply list_elem_of_lookup. exists (ev_index e). apply all_events_index. Qed.

(** ** Names *)

Lemma slower_slen s : slen (slower s) = slen s.
Proof. induction s; simpl; lia. Qed.
Lemma slower_skip n s : slower (skip_chars n s) = skip_chars n (slower s).
Proof. revert s. induction n as [|n IH]; intros [|c s]; done || apply IH. Qed.

(** Only the lower-case form of a name matters. *)
Lemma name_event_from_lower a b es names : slower a = slower b ->
  name_event_from a es names = name_event_from b es names.
Proof.
  intros E. revert names. induction es as [|e es IH]; intros [|n names]; try done. cbn [name_event_from].
  assert (K : forall x y, slower x = slower y -> strcaseeq x n = strcaseeq y n).
  { intros x y F. apply eq_true_iff_eq. rewrite !strcaseeq_slower. by rewrite F. }
  rewrite <- (slower_slen a), E, slower_slen, (K a b E), (K (skip_chars 13 a) (skip_chars 13 b)).
  - by rewrite IH.
  - by rewrite !slower_skip, E.
Qed.

(** The name of an event type, in any mixture of cases and with or without
    its prefix SWITCH_EVENT_, is parsed back to the type. *)
Theorem event_name_roundtrip e n s :
  switch_event_name e = Ok n ->
  slower s = slower n \/ slower s = slower ("SWITCH_EVENT_" +:+ n) ->
  switch_name_event s = Some e.
Proof.
  intros N K. unfold switch_name_event.
  assert (T : name_event_from n all_events EVENT_NAMES = Some e /\
    name_event_from ("SWITCH_EVENT_" +:+ n) all_events EVENT_NAMES = Some e).
  { destruct e; vm_compute in N; injection N as <-; split; vm_compute; reflexivity. }
  destruct T as [T1 T2]. destruct K as [K|K]; rewrite (name_event_from_lower _ _ _ _ K); done.
Qed.

Lemma event_name_roundtrip_witness : switch_name_event "switch_event_Channel_Hangup_Complete" = Some SWITCH_EVENT_CHANNEL_HANGUP_COMPLETE.
Proof.
  apply (event_name_roundtrip SWITCH_EVENT_CHANNEL_HANGUP_COMPLETE "CHANNEL_HANGUP_COMPLETE").
  - vm_compute. reflexivity.
  - right. vm_compute. reflexivity.
Defined.
