(* ===== verification/Event.v ===== *)
(** * Events (src/switch_event.c, src/include/switch_event.h)

    An event is a list of headers, each with a name and a value or an array of
    values; channel variables are kept in one.  Headers are numbered in the order
    of their allocation, and a pointer to a header is its number. *)
From stdpp Require Import strings pretty.
From Stdlib Require Import String Ascii.
From S2P Require Import Prelude CStrings StringUtils Url Separator EventTypes.
Open Scope Z_scope.
#[local] Notation length := List.length (only parsing).

Definition SWITCH_STACK_BOTTOM : Z := 1.
Definition SWITCH_STACK_TOP : Z := 2.
Definition SWITCH_STACK_NODUP : Z := 4.
Definition SWITCH_STACK_UNSHIFT : Z := 8.
Definition SWITCH_STACK_PUSH : Z := 16.
Definition EF_UNIQ_HEADERS : Z := 1.

(** [idx] is the length of [h_array]. *)
Record switch_event_header := mk_header {
  h_name : string;
  h_value : option string;
  h_array : list string;
  h_hash : Z
}.
#[export] Instance eta_header : Eta switch_event_header := fun h =>
  mk_header (h_name h) (h_value h) (h_array h) (h_hash h).

(** [next_id] is the number of the next header that is allocated. *)
Record switch_event := mk_event {
  event_id : switch_event_types;
  priority : Z;
  subclass_name : option string;
  headers : list (Z * switch_event_header);
  last_header : option Z;
  body : option string;
  user_data : Z * Z;
  key : Z;
  ev_flags : Z;
  next_id : Z
}.
#[export] Instance eta_event : Eta switch_event := fun e =>
  mk_event (event_id e) (priority e) (subclass_name e) (headers e) (last_header e) (body e)
    (user_data e) (key e) (ev_flags e) (next_id e).

(** ** Text *)

(** [switch_ci_hashfunc_default] of switch_apr.c on a string. *)
Fixpoint ci_hash_from (hash : Z) (s : string) : Z :=
  match s with
  | EmptyString => hash
  | String c s => ci_hash_from (u32 (hash * 33 + ord (lower c))) s
  end.
Definition switch_ci_hashfunc_default (s : string) : Z := ci_hash_from 0 s.

Fixpoint skip_blanks (s : string) : string :=
  match s with
  | String c q => if (c =c " ") || ((8 <? ord c) && (ord c <? 14)) then skip_blanks q else s
  | EmptyString => s
  end.
Fixpoint digits_value (acc : Z) (s : string) : Z :=
  match s with
  | EmptyString => acc
  | String c s => match digit c with Some d => digits_value (acc * 10 + d) s | None => acc end
  end.
(** [atoi]: blanks, a sign and digits, clamped to a 32-bit [long]. *)
Definition c_atoi (s : string) : Z :=
  let clamp x := Z.max (- 2 ^ 31) (Z.min x (2 ^ 31 - 1)) in
  match skip_blanks s with
  | EmptyString => 0
  | String c q =>
    if c =c "-" then clamp (- digits_value 0 q)
    else if c =c "+" then clamp (digits_value 0 q) else clamp (digits_value 0 (String c q))
  end.

(** [name[index]]: the name and the index. *)
Definition header_index (header_name : string) : string * option Z :=
  match strstr "[" header_name with
  | Some (name, q) => (name, Some (c_atoi q))
  | None => (header_name, None)
  end.

(** ** Finding, deleting and renaming headers *)

Definition hash_matches (hash : Z) (h : switch_event_header) : bool := (h_hash h =? 0) || (hash =? h_hash h).

Fixpoint find_header (hash : Z) (header_name : string) (l : list (Z * switch_event_header))
  : option (Z * switch_event_header) :=
  match l with
  | [] => None
  | (id, h) :: l =>
    if hash_matches hash h && strcaseeq (h_name h) header_name then Some (id, h)
    else find_header hash header_name l
  end.
Definition switch_event_get_header_ptr (ev : switch_event) (header_name : option string)
  : option (Z * switch_event_header) :=
  match header_name with
  | None => None
  | Some n => find_header (switch_ci_hashfunc_default n) n (headers ev)
  end.

Definition switch_event_get_header_idx (ev : switch_event) (header_name : string) (idx : Z) : option string :=
  match switch_event_get_header_ptr ev (Some header_name) with
  | Some (_, hp) =>
    if -1 <? idx then (if idx <? zlen (h_array hp) then h_array hp !! Z.to_nat idx else None) else h_value hp
  | None => if String.eqb header_name "_body" then body ev else None
  end.
Definition switch_event_get_header (ev : switch_event) (header_name : string) : option string :=
  switch_event_get_header_idx ev header_name (-1).

Definition switch_event_get_body (ev : option switch_event) : option string :=
  match ev with None => None | Some ev => body ev end.

(** Whether a header is to be deleted; a null value is dereferenced by [strcmp]. *)
Definition del_match (hash : Z) (header_name : string) (val : option string) (h : switch_event_header)
  : outcome bool :=
  if hash_matches hash h && strcaseeq header_name (h_name h) then
    if zstr val then Ok true
    else match h_value h with None => UB | Some v => Ok (String.eqb v (default EmptyString val)) end
  else Ok false.

(** The walk; [lp] is the last header kept. *)
Fixpoint del_walk (hash : Z) (header_name : string) (val : option string) (x : Z) (lp last : option Z)
    (l : list (Z * switch_event_header)) : outcome (list (Z * switch_event_header) * option Z * bool) :=
  match l with
  | [] => Ok ([], last, false)
  | (id, h) :: rest =>
    let x := x + 1 in
    if 1000000 <=? x then Assert
    else
      let* m := del_match hash header_name val h in
      if (m : bool) then
        let last := if bool_decide (last = Some id) || bool_decide (rest = []) then lp else last in
        let* (kept, last, _) := del_walk hash header_name val x lp last rest in Ok (kept, last, true)
      else
        let* (kept, last, found) := del_walk hash header_name val x (Some id) last rest in
        Ok ((id, h) :: kept, last, found)
  end.
Definition switch_event_del_header_val (ev : switch_event) (header_name : string) (val : option string)
  : outcome (switch_event * switch_status) :=
  let* (hs, last, found) :=
    del_walk (switch_ci_hashfunc_default header_name) header_name val 0 None (last_header ev) (headers ev) in
  Ok (ev <| headers := hs |> <| last_header := last |>,
      if (found : bool) then SWITCH_STATUS_SUCCESS else SWITCH_STATUS_FALSE).
Definition switch_event_del_header (ev : switch_event) (header_name : string) : outcome switch_event :=
  let* (ev, _) := switch_event_del_header_val ev header_name None in Ok ev.

Definition renamed (hash : Z) (header_name new_name : string) (h : switch_event_header) : switch_event_header :=
  if hash_matches hash h && strcaseeq (h_name h) header_name
  then h <| h_name := new_name |> <| h_hash := switch_ci_hashfunc_default new_name |> else h.
Definition switch_event_rename_header (ev : switch_event) (header_name : option string) (new_name : string)
  : switch_event * switch_status :=
  match header_name with
  | None => (ev, SWITCH_STATUS_FALSE)
  | Some n =>
    let hash := switch_ci_hashfunc_default n in
    (ev <| headers := prod_map id (renamed hash n new_name) <$> headers ev |>,
     if existsb (fun p => hash_matches hash (snd p) && strcaseeq (h_name (snd p)) n) (headers ev)
     then SWITCH_STATUS_SUCCESS else SWITCH_STATUS_FALSE)
  end.

Definition switch_event_set_body (ev : switch_event) (b : option string) : switch_event := ev <| body := b |>.

(** ** Adding headers *)

Definition new_header (header_name : string) : switch_event_header := mk_header header_name None [] 0.

(** The text of an array, into [len] bytes. *)
Fixpoint join_fields (a : list string) : string :=
  match a with
  | [] => EmptyString
  | [x] => x
  | x :: a => x +:+ "|:" +:+ join_fields a
  end.
Definition array_value (a : list string) : string :=
  (if 1 <? zlen a then "ARRAY::" else EmptyString) +:+ join_fields a.
Definition redraw (h : switch_event_header) : outcome switch_event_header :=
  let len := foldr (fun x n => slen x + 2 + n) 0 (h_array h) in
  if len =? 0 then Ok h
  else if slen (array_value (h_array h)) + 1 <=? len + 8
  then Ok (h <| h_value := Some (array_value (h_array h)) |>) else UB.

Definition push_onto (stack : Z) (h : switch_event_header) (data : string) : outcome switch_event_header :=
  let h := match h_value h, h_array h with
           | Some v, [] => h <| h_value := None |> <| h_array := [v] |>
           | _, _ => h
           end in
  redraw (h <| h_array := if test_flag stack SWITCH_STACK_PUSH then h_array h ++ [data] else data :: h_array h |>).

(** [last_header->next = header]; the new header has no successor. *)
Fixpoint link_after (l : Z) (x : Z * switch_event_header) (hs : list (Z * switch_event_header))
  : option (list (Z * switch_event_header)) :=
  match hs with
  | [] => None
  | (id, h) :: hs => if id =? l then Some [(id, h); x] else cons (id, h) <$> link_after l x hs
  end.
Definition link_header (ev : switch_event) (stack id : Z) (h : switch_event_header) : outcome switch_event :=
  let h := h <| h_hash := switch_ci_hashfunc_default (h_name h) |> in
  if test_flag stack SWITCH_STACK_TOP then
    Ok (ev <| headers := (id, h) :: headers ev |> <| last_header := Some (default id (last_header ev)) |>)
  else
    match last_header ev with
    | None => Ok (ev <| headers := [(id, h)] |> <| last_header := Some id |>)
    | Some l =>
      match link_after l (id, h) (headers ev) with
      | Some hs => Ok (ev <| headers := hs |> <| last_header := Some id |>)
      | None => UB
      end
    end.

Definition update_header (ev : switch_event) (id : Z) (h : switch_event_header) : switch_event :=
  ev <| headers := (fun p => if fst p =? id then (id, h) else p) <$> headers ev |>.

Definition uniq_delete (ev : switch_event) (header_name : string) : outcome switch_event :=
  if test_flag (ev_flags ev) EF_UNIQ_HEADERS then switch_event_del_header ev header_name else Ok ev.

(** [name[index]]: an element that is there is replaced, without a new value;
    otherwise the array is extended up to the index. *)
Definition set_index (ev : switch_event) (stack : Z) (header_name : string) (index : Z) (data : string)
  : outcome switch_event :=
  let found := switch_event_get_header_ptr ev (Some header_name) in
  let* ev' := (match found with None => uniq_delete ev header_name | Some _ => Ok ev end) in
  let '(id, h) := default (next_id ev', new_header header_name) found in
  let ev' := match found with None => ev' <| next_id := next_id ev' + 1 |> | Some _ => ev' end in
  if (-1 <? index) && (index <=? 4000) then
    let n := zlen (h_array h) in
    if index <? n then Ok (update_header ev' id (h <| h_array := <[Z.to_nat index := data]> (h_array h) |>))
    else
      let* h := redraw (h <| h_array := h_array h ++ replicate (Z.to_nat (index - n)) EmptyString ++ [data] |>) in
      match found with None => link_header ev' stack id h | Some _ => Ok (update_header ev' id h) end
  else Ok ev'.

Definition PREFIX : string := "ARRAY::".

(** How many times [delim] is found; [n] bounds the number of looks. *)
Fixpoint count_fields (delim : string) (n : nat) (p : string) : nat :=
  match n with
  | O => O
  | S n => match strstr delim p with Some (_, q) => S (count_fields delim n q) | None => O end
  end.

Fixpoint add_fields (add : switch_event -> string -> option (outcome switch_event)) (ev : switch_event)
    (fields : list string) : option (outcome switch_event) :=
  match fields with
  | [] => Some (Ok ev)
  | f :: fields =>
    match add ev f with
    | Some (Ok ev) => add_fields add ev fields
    | r => r
    end
  end.

(** [val] without its first seven characters, separated; [add] pushes a field. *)
Definition switch_event_add_array (add : switch_event -> string -> option (outcome switch_event))
    (ev : switch_event) (val : string) : option (outcome switch_event) :=
  if slen val <? 8 then Some (Ok ev)
  else
    let p := skip_chars 7 val in
    let max := S (count_fields "|:" (String.length p) p) in
    match switch_separate_string_string p "|:" max with
    | Ok fields => add_fields add ev fields
    | Assert => Some Assert
    | UB => Some UB
    end.

(** A text that starts with [ARRAY::] is added field by field; [None] means that
    its nesting exceeds [n]. *)
Fixpoint base_add (n : nat) (ev : switch_event) (stack : Z) (header_name data : string)
  : option (outcome switch_event) :=
  match n with
  | O => None
  | S n =>
    let ev := if String.eqb header_name "_body" then switch_event_set_body ev (Some data) else ev in
    let push := test_flag stack SWITCH_STACK_PUSH || test_flag stack SWITCH_STACK_UNSHIFT in
    match header_index header_name with
    | (name, Some index) => Some (set_index ev stack name index data)
    | (name, None) =>
      match (if push then switch_event_get_header_ptr ev (Some name) else None) with
      | Some (id, h) => Some (let* h := push_onto stack h data in Ok (update_header ev id h))
      | None =>
        if zstr (Some data) then Some (switch_event_del_header ev name)
        else
          match uniq_delete ev name with
          | Ok ev =>
            match strip_prefix PREFIX data with
            | Some _ =>
              switch_event_add_array (fun ev f => base_add n ev SWITCH_STACK_PUSH name f) ev data
            | None =>
              Some (let id := next_id ev in
                    let* h := (if push then push_onto stack (new_header name) data
                               else Ok ((new_header name) <| h_value := Some data |>)) in
                    link_header (ev <| next_id := id + 1 |>) stack id h)
            end
          | Assert => Some Assert
          | UB => Some UB
          end
      end
    end
  end.

(** Nested arrays get shorter ([base_add_enough]). *)
Definition switch_event_base_add_header (ev : switch_event) (stack : Z) (header_name data : string)
  : outcome switch_event :=
  default UB (base_add (S (String.length data)) ev stack header_name data).

Definition switch_event_add_header_string (ev : switch_event) (stack : Z) (header_name : string)
    (data : option string) : outcome (switch_event * switch_status) :=
  match data with
  | Some data =>
    let* ev := switch_event_base_add_header ev stack header_name data in Ok (ev, SWITCH_STATUS_SUCCESS)
  | None => Ok (ev, SWITCH_STATUS_GENERR)
  end.
(** The same when the status is not looked at. *)
Definition add_header (ev : switch_event) (stack : Z) (header_name : string) (data : option string)
  : outcome switch_event :=
  let* (ev, _) := switch_event_add_header_string ev stack header_name data in Ok ev.

Fixpoint add_headers (ev : switch_event) (stack : Z) (l : list (string * option string)) : outcome switch_event :=
  match l with
  | [] => Ok ev
  | (name, data) :: l => let* ev := add_header ev stack name data in add_headers ev stack l
  end.

(** ** Making events *)

(** What [switch_event_prep_for_delivery] reads: identity of the core, dates and
    the place of the call. *)
Record prep_env := mk_prep {
  core_uuid : option string; hostname : option string; switchname : option string;
  guess_ip_v4 : string; guess_ip_v6 : string; date_local : string; date_gmt : string; timestamp : Z;
  calling_file : option string; calling_function : option string; calling_line : Z
}.

(** [seq] is [EVENT_SEQUENCE_NR]. *)
Definition switch_event_prep_for_delivery_detailed (p : prep_env) (seq : Z) (ev : switch_event)
  : outcome (switch_event * Z) :=
  let seq := u64 (seq + 1) in
  let* name := switch_event_name (event_id ev) in
  let* ev := add_headers ev SWITCH_STACK_BOTTOM
    [("Event-Name"%string, Some name); ("Core-UUID"%string, core_uuid p);
     ("FreeSWITCH-Hostname"%string, hostname p); ("FreeSWITCH-Switchname"%string, switchname p);
     ("FreeSWITCH-IPv4"%string, Some (guess_ip_v4 p)); ("FreeSWITCH-IPv6"%string, Some (guess_ip_v6 p));
     ("Event-Date-Local"%string, Some (date_local p)); ("Event-Date-GMT"%string, Some (date_gmt p));
     ("Event-Date-Timestamp"%string, Some (pretty (timestamp p)));
     ("Event-Calling-File"%string, calling_file p); ("Event-Calling-Function"%string, calling_function p);
     ("Event-Calling-Line-Number"%string, Some (pretty (calling_line p)));
     ("Event-Sequence"%string, Some (pretty seq))] in
  Ok (ev, seq).

Definition blank_event : switch_event := mk_event SWITCH_EVENT_CUSTOM 0 None [] None None (0, 0) 0 0 0.

Definition switch_event_create_subclass_detailed (p : prep_env) (seq : Z) (event_id : switch_event_types)
    (subclass : option string) : outcome (option (switch_event * Z)) :=
  let clone := bool_decide (event_id = SWITCH_EVENT_CLONE) in
  if negb clone && negb (bool_decide (event_id = SWITCH_EVENT_CUSTOM)) && bool_decide (subclass <> None)
  then Ok None
  else
    let ev := blank_event in
    let ev := if bool_decide (event_id = SWITCH_EVENT_REQUEST_PARAMS)
                 || bool_decide (event_id = SWITCH_EVENT_CHANNEL_DATA)
                 || bool_decide (event_id = SWITCH_EVENT_MESSAGE)
              then ev <| ev_flags := set_flag (ev_flags ev) EF_UNIQ_HEADERS |> else ev in
    let* (ev, seq) := (if clone then Ok (ev, seq)
                       else switch_event_prep_for_delivery_detailed p seq (ev <| Event.event_id := event_id |>)) in
    match subclass with
    | None => Ok (Some (ev, seq))
    | Some name =>
      let* ev := add_header (ev <| subclass_name := Some name |>) SWITCH_STACK_BOTTOM "Event-Subclass" (Some name) in
      Ok (Some (ev, seq))
    end.

Definition switch_priority_name (p : Z) : string :=
  if p =? 0 then "NORMAL" else if p =? 1 then "LOW" else if p =? 2 then "HIGH" else "INVALID".
Definition switch_event_set_priority (ev : switch_event) (p : Z) : outcome switch_event :=
  add_header (ev <| priority := p |>) SWITCH_STACK_TOP "priority" (Some (switch_priority_name p)).

Definition switch_event_set_subclass_name (ev : switch_event) (name : option string)
  : outcome (switch_event * switch_status) :=
  match name with
  | None => Ok (ev, SWITCH_STATUS_GENERR)
  | Some name =>
    let* ev := switch_event_del_header (ev <| subclass_name := Some name |>) "Event-Subclass" in
    let* ev := add_header ev SWITCH_STACK_BOTTOM "Event-Subclass" (Some name) in
    Ok (ev, SWITCH_STATUS_SUCCESS)
  end.

(** The headers of one event added to another: arrays are pushed. *)
Definition add_copy (ev : switch_event) (name : string) (h : switch_event_header) : outcome switch_event :=
  match h_array h with
  | [] => add_header ev SWITCH_STACK_BOTTOM name (h_value h)
  | a => add_headers ev SWITCH_STACK_PUSH ((fun x => (name, Some x)) <$> a)
  end.
Fixpoint switch_event_merge (ev : switch_event) (tomerge : list (Z * switch_event_header))
  : outcome switch_event :=
  match tomerge with
  | [] => Ok ev
  | (_, h) :: l => let* ev := add_copy ev (h_name h) h in switch_event_merge ev l
  end.

(** The headers that [switch_event_dup] copies under the names given by [rename]. *)
Fixpoint copy_headers (rename : string -> string) (skip : bool) (ev : switch_event)
    (l : list (Z * switch_event_header)) : outcome switch_event :=
  match l with
  | [] => Ok ev
  | (_, h) :: l =>
    if skip && String.eqb (h_name h) "Event-Subclass" then copy_headers rename skip ev l
    else let* ev := add_copy ev (rename (h_name h)) h in copy_headers rename skip ev l
  end.
Definition dup_start (todup : switch_event) : outcome (option switch_event) :=
  let* r := switch_event_create_subclass_detailed
    (mk_prep None None None EmptyString EmptyString EmptyString EmptyString 0 None None 0) 0
    SWITCH_EVENT_CLONE (subclass_name todup) in
  match r with
  | None => Ok None
  | Some (ev, _) =>
    Ok (Some (ev <| event_id := event_id todup |> <| user_data := user_data todup |>
                 <| ev_flags := ev_flags todup |>))
  end.
Definition switch_event_dup (todup : switch_event) : outcome (option switch_event) :=
  let* r := dup_start todup in
  match r with
  | None => Ok None
  | Some ev =>
    let* ev := copy_headers id (bool_decide (subclass_name todup <> None)) ev (headers todup) in
    let ev := match body todup with Some b => ev <| body := Some b |> | None => ev end in
    Ok (Some (ev <| key := key todup |>))
  end.

(** [strncasecmp(s, p, strlen(p)) == 0]. *)
Fixpoint prefix_nocase (p s : string) : bool :=
  match p, s with
  | EmptyString, _ => true
  | String c p, String d s => (lower c =c lower d) && prefix_nocase p s
  | _, EmptyString => false
  end.
(** [snprintf] of a text into a buffer of [n] bytes. *)
Fixpoint fit (n : Z) (s : string) : string :=
  match s with
  | EmptyString => EmptyString
  | String c s => if n <=? 1 then EmptyString else String c (fit (n - 1) s)
  end.
Definition reply_name (name : string) : string :=
  if prefix_nocase "from_" name then fit 1024 ("to_" +:+ skip_chars 5 name)
  else if prefix_nocase "to_" name then fit 1024 ("from_" +:+ skip_chars 3 name)
  else if strcaseeq name "to" then "from"
  else if strcaseeq name "from" then "to" else name.
Definition switch_event_dup_reply (todup : switch_event) : outcome (option switch_event) :=
  let* r := dup_start todup in
  match r with
  | None => Ok None
  | Some ev =>
    let* ev := copy_headers reply_name (bool_decide (subclass_name todup <> None)) ev (headers todup) in
    let* ev := add_header ev SWITCH_STACK_BOTTOM "replying" (Some "true"%string) in
    let* ev := (match body todup with
                | Some b => add_header ev SWITCH_STACK_BOTTOM "orig_body" (Some b)
                | None => Ok ev
                end) in
    Ok (Some (ev <| key := key todup |>))
  end.

Definition switch_event_create_array_pair (p : prep_env) (seq : Z) (l : list (option string * option string))
  : outcome (option switch_event) :=
  let* r := switch_event_create_subclass_detailed p seq SWITCH_EVENT_CLONE None in
  match r with
  | None => Ok None
  | Some (ev, _) =>
    let* ev := add_headers ev SWITCH_STACK_BOTTOM
      ((fun '(n, v) => (if zstr n then "Unknown"%string else default EmptyString n,
                        Some (default EmptyString v))) <$> l) in
    Ok (Some ev)
  end.

(** ** Serialization *)

(** The text so far with the sizes of its buffer and of the encoding buffer. *)
Record serial := mk_serial { buf : string; dlen : Z; encode_len : Z }.

Definition blocksize : Z := 512.

(** [snprintf] behind the text. *)
Definition print (s : serial) (llen : Z) (text : string) : serial :=
  let len := slen (buf s) in
  let dlen := if dlen s <? len + llen then dlen s + (blocksize + (len + llen)) else dlen s in
  mk_serial (buf s +:+ fit (dlen - len) text) dlen (encode_len s).

Definition serialize_header (encode : bool) (s : serial) (h : switch_event_header) : outcome serial :=
  match h_value h with
  | None => UB
  | Some value =>
    let new_len := match h_array h with
                   | [] => slen value * 3 + 1
                   | a => foldr (fun x n => slen x * 3 + 1 + n) 0 a
                   end in
    let encode_len := Z.max (encode_len s) new_len in
    let* enc := (if encode then switch_url_encode value encode_len
                 else Ok (fit encode_len ("[" +:+ value +:+ "]"))) in
    Ok (print (mk_serial (buf s) (dlen s) encode_len) (slen (h_name h) + slen enc + 8)
          (h_name h +:+ ": " +:+ (if String.eqb enc EmptyString then "_undef_"%string else enc)
             +:+ String (chr 10) EmptyString))
  end.
Fixpoint serialize_headers (encode : bool) (s : serial) (l : list (Z * switch_event_header)) : outcome serial :=
  match l with
  | [] => Ok s
  | (_, h) :: l => let* s := serialize_header encode s h in serialize_headers encode s l
  end.

Definition switch_event_serialize (ev : switch_event) (encode : bool) : outcome string :=
  let newline := String (chr 10) EmptyString in
  let* s := serialize_headers encode (mk_serial EmptyString (blocksize * 2) 1536) (headers ev) in
  match body ev with
  | Some b =>
    let blen := slen b in
    if blen =? 0 then Ok (buf (print s (blen + 5) newline))
    else Ok (buf (print s (blen + 25)
                    ("Content-Length: " +:+ pretty blen +:+ newline +:+ newline +:+ b)))
  | None =>
    Ok (buf s +:+ fit (dlen s - slen (buf s)) newline)
  end.
