(* ===== verification/EventVars.v ===== *)
(** * Events with unique headers are maps (theorems on [Event])

    The variables of a channel are the headers of an event with
    [EF_UNIQ_HEADERS].  Seen from outside such an event is an ordered map from
    names, without regard to case, to non-empty lists of values. *)
From stdpp Require Import strings.
From Stdlib Require Import String Ascii.
From S2P Require Import Prelude CStrings StringUtils Separator EventTypes Event.
Open Scope Z_scope.
#[local] Notation length := List.length (only parsing).

(** ** The map *)

Notation vars_t := (list (string * list string)) (only parsing).

Definition vfind (n : string) (l : vars_t) : option (list string) :=
  snd <$> List.find (fun v => strcaseeq (fst v) n) l.
Definition vunset (n : string) (l : vars_t) : vars_t :=
  List.filter (fun v => negb (strcaseeq (fst v) n)) l.
Definition vset (top : bool) (n : string) (vs : list string) (l : vars_t) : vars_t :=
  if top then (n, vs) :: vunset n l else vunset n l ++ [(n, vs)].
Definition vupdate (n : string) (f : list string -> list string) (l : vars_t) : vars_t :=
  (fun v => if strcaseeq (fst v) n then (fst v, f (snd v)) else v) <$> l.

Inductive vop :=
| VSet (top : bool) (n v : string)
| VArray (n : string) (vs : list string)
| VPush (n v : string)
| VUnshift (n v : string)
| VUnset (n : string)
| VDel (n v : string).

Definition vstep (l : vars_t) (o : vop) : vars_t :=
  match o with
  | VSet top n v => if zstr (Some v) then vunset n l else vset top n [v] l
  | VArray n vs => vset false n vs l
  | VPush n v =>
    match vfind n l with
    | Some _ => vupdate n (fun vs => vs ++ [v]) l
    | None => if zstr (Some v) then l else vset false n [v] l
    end
  | VUnshift n v =>
    match vfind n l with
    | Some _ => vupdate n (cons v) l
    | None => if zstr (Some v) then l else vset false n [v] l
    end
  | VUnset n => vunset n l
  | VDel n v =>
    if zstr (Some v) then vunset n l
    else List.filter (fun x => negb (strcaseeq (fst x) n && String.eqb (array_value (snd x)) v)) l
  end.

(** The calls that the operations stand for. *)
Definition vcall (ev : switch_event) (o : vop) : outcome switch_event :=
  match o with
  | VSet top n v => add_header ev (if top then SWITCH_STACK_TOP else SWITCH_STACK_BOTTOM) n (Some v)
  | VArray n vs => add_header ev SWITCH_STACK_BOTTOM n (Some (array_value vs))
  | VPush n v => add_header ev SWITCH_STACK_PUSH n (Some v)
  | VUnshift n v => add_header ev SWITCH_STACK_UNSHIFT n (Some v)
  | VUnset n => switch_event_del_header ev n
  | VDel n v => let* (ev, _) := switch_event_del_header_val ev n (Some v) in Ok ev
  end.
Fixpoint vcalls (ev : switch_event) (os : list vop) : outcome switch_event :=
  match os with
  | [] => Ok ev
  | o :: os => let* ev := vcall ev o in vcalls ev os
  end.

(** Names without an index; values that are not the text of an array, but for
    arrays of several fields without the separator and with a first field that
    counts. *)
Definition plain_name (n : string) : Prop := strstr "[" n = None.
Definition plain (v : string) : Prop := strip_prefix PREFIX v = None.
Definition vop_ok (o : vop) : Prop :=
  match o with
  | VSet _ n v | VPush n v | VUnshift n v => plain_name n /\ plain v
  | VArray n vs =>
    plain_name n /\ Forall (fun v => strstr "|:" v = None) vs /\
    match vs with v :: _ :: _ => v <> EmptyString /\ plain v | _ => False end
  | VUnset n | VDel n _ => True
  end.

(** ** What an event holds *)

Definition content (h : switch_event_header) : list string :=
  match h_array h with [] => [default EmptyString (h_value h)] | a => a end.
Definition view (p : Z * switch_event_header) : string * list string := (h_name (snd p), content (snd p)).
Definition vars (ev : switch_event) : vars_t := view <$> headers ev.

Definition lastid {A} (lp : option Z) (l : list (Z * A)) : option Z := foldl (fun _ p => Some (fst p)) lp l.

Definition good (p : Z * switch_event_header) : Prop :=
  h_hash (snd p) = switch_ci_hashfunc_default (h_name (snd p)) /\
  h_value (snd p) = Some (array_value (content (snd p))).

Definition names (l : vars_t) : list string := (fun v => slower (fst v)) <$> l.

(** The list is well linked and every name is there once. *)
Record uniq_event (ev : switch_event) : Prop := mk_uniq_event {
  ue_flag : test_flag (ev_flags ev) EF_UNIQ_HEADERS = true;
  ue_ids : NoDup (fst <$> headers ev);
  ue_fresh : Forall (fun p => fst p < next_id ev) (headers ev);
  ue_last : last_header ev = lastid None (headers ev);
  ue_good : Forall good (headers ev);
  ue_names : NoDup (names (vars ev))
}.

(** ** Hashes and look-ups *)

Lemma ci_hash_lower a b acc : slower a = slower b -> ci_hash_from acc a = ci_hash_from acc b.
Proof.
  revert b acc. induction a as [|x a IH]; intros [|y b] acc; try done. cbn [slower ci_hash_from].
  intros [= E F]. rewrite E. by apply IH.
Qed.

Lemma strcaseeq_sym a b : strcaseeq a b = strcaseeq b a.
Proof. apply eq_true_iff_eq. by rewrite !strcaseeq_slower. Qed.

Lemma good_matches p n : good p ->
  hash_matches (switch_ci_hashfunc_default n) (snd p) && strcaseeq (h_name (snd p)) n = strcaseeq (h_name (snd p)) n.
Proof.
  intros [E _]. destruct (strcaseeq _ _) eqn:K; [|by rewrite andb_false_r]. rewrite andb_true_r.
  apply strcaseeq_slower in K. unfold hash_matches. rewrite E. unfold switch_ci_hashfunc_default.
  rewrite (ci_hash_lower n _ 0 (eq_sym K)), Z.eqb_refl. apply orb_true_r.
Qed.

Lemma find_header_spec n l : Forall good l ->
  find_header (switch_ci_hashfunc_default n) n l = List.find (fun p => strcaseeq (h_name (snd p)) n) l.
Proof.
  induction 1 as [|[id h] l G _ IH]; [done|]. cbn [find_header List.find].
  pose proof (good_matches _ n G) as E. cbn [snd] in *. rewrite E. by destruct (strcaseeq _ _).
Qed.

Lemma vfind_view n l :
  vfind n (view <$> l) = (fun p => content (snd p)) <$> List.find (fun p => strcaseeq (h_name (snd p)) n) l.
Proof.
  unfold vfind. induction l as [|p l IH]; [done|]. cbn. by destruct (strcaseeq _ _).
Qed.

(** ** Linking *)

Lemma lastid_app {A} lp (l : list (Z * A)) x : lastid lp (l ++ [x]) = Some (fst x).
Proof. unfold lastid. by rewrite foldl_app. Qed.

Lemma lastid_in {A} lp (l : list (Z * A)) z : lastid lp l = Some z -> lp = Some z \/ z ∈ fst <$> l.
Proof.
  revert lp. induction l as [|[i a] l IH]; intros lp; [by left|]. cbn. intros [[= ->]|K]%IH; right; set_solver.
Qed.

Lemma lastid_cons {A} lp lq (l : list (Z * A)) p : lastid lp (p :: l) = lastid lq (p :: l).
Proof. done. Qed.

Lemma lastid_none {A} (l : list (Z * A)) : lastid None l = None -> l = [].
Proof.
  destruct l as [|q l]; [done|]. cbn. intros E. exfalso. revert E. generalize (fst q).
  induction l as [|p l IH]; intros z E; [done|]. by apply (IH (fst p)).
Qed.

Lemma link_after_last l z x : NoDup (fst <$> l) -> lastid None l = Some z -> link_after z x l = Some (l ++ [x]).
Proof.
  assert (G : forall lp, NoDup (fst <$> l) -> lastid lp l = Some z -> l <> [] -> link_after z x l = Some (l ++ [x])).
  { induction l as [|[i h] l IH]; intros lp ND L N; [done|]. cbn in *. apply NoDup_cons in ND as [NI ND].
    destruct l as [|q l].
    - cbn in L. injection L as ->. by rewrite Z.eqb_refl.
    - destruct (lastid_in _ _ _ L) as [[= ->]|K].
      + exfalso. cbn [lastid foldl] in L. destruct (lastid_in (Some (fst q)) l z) as [[= E]|K]; [exact L| |]; set_solver.
      + rewrite (proj2 (Z.eqb_neq i z)) by set_solver.
        erewrite IH; [done|done|exact L|done]. }
  intros ND L. apply (G None ND L). by intros ->.
Qed.

(** ** Deletion *)

Definition doomed (n : string) (val : option string) (v : string * list string) : bool :=
  strcaseeq (fst v) n && (zstr val || String.eqb (array_value (snd v)) (default EmptyString val)).

Lemma del_match_spec n val p : good p ->
  del_match (switch_ci_hashfunc_default n) n val (snd p) = Ok (doomed n val (view p)).
Proof.
  intros G. unfold del_match, doomed, view. cbn [fst snd].
  rewrite (strcaseeq_sym n), (good_matches p n G). destruct G as [_ ->].
  destruct (strcaseeq _ _), (zstr val); done.
Qed.

Lemma lastid_skip {A} i (q : Z * A) l : i ∉ fst <$> (q :: l) -> lastid (Some i) (q :: l) <> Some i.
Proof. intros N E. rewrite (lastid_cons _ None) in E. apply lastid_in in E as [E|E]; [done|by apply N]. Qed.

Lemma del_walk_spec n val l : forall x lp, NoDup (fst <$> l) -> Forall good l -> x + zlen l < 1000000 ->
  let kept := List.filter (fun p => negb (doomed n val (view p))) l in
  exists f, del_walk (switch_ci_hashfunc_default n) n val x lp (lastid lp l) l = Ok (kept, lastid lp kept, f).
Proof.
  induction l as [|[i h] l IH]; intros x lp ND G Hx; [by exists false|]. cbv zeta.
  apply NoDup_cons in ND as [NI ND]. apply Forall_cons in G as [Gh G]. cbn [length] in Hx.
  cbn [del_walk]. rewrite (proj2 (Z.leb_gt _ _)) by lia. change h with (snd (i, h)). rewrite del_match_spec by done.
  cbn [List.filter snd]. destruct (doomed n val (view (i, h))); cbn [negb].
  - assert (E : (if bool_decide (lastid lp ((i, h) :: l) = Some i) || bool_decide (l = []) then lp
                 else lastid lp ((i, h) :: l)) = lastid lp l).
    { destruct l as [|q l]; [by rewrite orb_true_r|].
      rewrite bool_decide_eq_false_2 by (by apply lastid_skip). done. }
    rewrite E. destruct (IH (x + 1) lp ND G) as [f ->]; [lia|]. by eexists.
  - destruct (IH (x + 1) (Some i) ND G) as [f E]; [lia|].
    change (lastid lp ((i, h) :: l)) with (lastid (Some i) l). rewrite E. by eexists.
Qed.

Lemma filter_view f (l : list (Z * switch_event_header)) :
  view <$> List.filter (fun p => f (view p)) l = List.filter f (view <$> l).
Proof. induction l as [|p l IH]; [done|]. cbn. destruct (f _); cbn; by rewrite IH. Qed.

Lemma filter_sub {A} f (l : list A) : sublist (List.filter f l) l.
Proof. induction l as [|a l IH]; cbn; [constructor|]. destruct (f a); by constructor. Qed.

Lemma sublist_Forall {A} (P : A -> Prop) l k : sublist k l -> Forall P l -> Forall P k.
Proof. rewrite !Forall_forall. intros S H x Hx. apply H. by eapply elem_of_sublist. Qed.

(** Sublists of a good list are good. *)
Lemma uniq_sub ev hs : uniq_event ev -> sublist hs (headers ev) ->
  uniq_event (ev <| headers := hs |> <| last_header := lastid None hs |>).
Proof.
  intros [U1 U2 U3 U4 U5 U6] S. constructor; rupd; try done.
  - eapply sublist_NoDup; [exact U2|by apply fmap_sublist].
  - by eapply sublist_Forall.
  - by eapply sublist_Forall.
  - unfold vars, names. rupd. eapply sublist_NoDup; [exact U6|by do 2 apply fmap_sublist].
Qed.

Definition few (ev : switch_event) : Prop := zlen (headers ev) < 999999.

Lemma del_spec ev n val : uniq_event ev -> few ev ->
  exists ev' st, switch_event_del_header_val ev n val = Ok (ev', st) /\ uniq_event ev' /\
    vars ev' = List.filter (fun v => negb (doomed n val v)) (vars ev) /\ next_id ev' = next_id ev.
Proof.
  intros U F. unfold switch_event_del_header_val. rewrite (ue_last ev U). unfold few in F.
  destruct (del_walk_spec n val (headers ev) 0 None) as [f ->]; [apply U|apply U|lia|].
  do 2 eexists. split; [reflexivity|]. split_and!; [apply uniq_sub; [done|apply filter_sub]| |done].
  unfold vars. rupd. apply (filter_view (fun v => negb (doomed n val v))).
Qed.

Lemma doomed_none n v : doomed n None v = strcaseeq (fst v) n.
Proof. apply andb_true_r. Qed.

Lemma del_all_spec ev n : uniq_event ev -> few ev ->
  exists ev', switch_event_del_header ev n = Ok ev' /\ uniq_event ev' /\ vars ev' = vunset n (vars ev) /\
    next_id ev' = next_id ev.
Proof.
  intros U F. unfold switch_event_del_header. destruct (del_spec ev n None U F) as (ev' & st & -> & U' & E & N).
  exists ev'. split_and!; try done. rewrite E. unfold vunset.
  apply List.filter_ext. intros v. by rewrite doomed_none.
Qed.

(** ** Adding *)

Lemma names_app l k : names (l ++ k) = names l ++ names k.
Proof. apply fmap_app. Qed.

Lemma names_unset n l : slower n ∉ names (vunset n l).
Proof.
  intros K. apply list_elem_of_fmap in K as (v & E & K). apply list_elem_of_In, filter_In in K as [_ K].
  apply negb_true_iff in K. rewrite (proj2 (strcaseeq_slower _ _)) in K; congruence.
Qed.

Lemma vfind_none n l : vfind n l = None -> slower n ∉ names l.
Proof.
  unfold vfind. intros E K. apply list_elem_of_fmap in K as (v & En & K). apply fmap_None in E.
  eapply List.find_none in E; [|by apply list_elem_of_In]. rewrite (proj2 (strcaseeq_slower _ _)) in E; congruence.
Qed.

Lemma vunset_absent n l : slower n ∉ names l -> vunset n l = l.
Proof.
  unfold vunset. induction l as [|v l IH]; [done|]. cbn. intros [N1 N2]%not_elem_of_cons. rewrite IH by done.
  destruct (strcaseeq (fst v) n) eqn:E; [apply strcaseeq_slower in E; congruence|done].
Qed.

(** A header with a name that is not there is linked at an end. *)
Lemma link_spec ev stack h : uniq_event ev -> slower (h_name h) ∉ names (vars ev) ->
  h_value h = Some (array_value (content h)) ->
  exists ev', link_header (ev <| next_id := next_id ev + 1 |>) stack (next_id ev) h = Ok ev' /\ uniq_event ev' /\
    vars ev' = if test_flag stack SWITCH_STACK_TOP then (h_name h, content h) :: vars ev
               else vars ev ++ [(h_name h, content h)].
Proof.
  intros [U1 U2 U3 U4 U5 U6] N V. unfold link_header. rupd. rewrite U4.
  set (h' := h <| h_hash := _ |>). set (x := (next_id ev, h')).
  assert (Gx : good x) by (split; [done|exact V]). assert (Vx : view x = (h_name h, content h)) by done.
  assert (NI : next_id ev ∉ fst <$> headers ev).
  { intros K. apply list_elem_of_fmap in K as (p & E & K). rewrite Forall_forall in U3. apply U3 in K. lia. }
  assert (F : Forall (fun p => fst p < next_id ev + 1) (headers ev)) by (eapply Forall_impl; [exact U3|]; cbn; lia).
  change (fst x) with (next_id ev) in *. clearbody h'.
  destruct (test_flag stack SWITCH_STACK_TOP).
  - eexists. split; [reflexivity|]. split.
    + constructor; rupd; try done.
      * cbn. by constructor.
      * constructor; [cbn; lia|done].
      * fold x. destruct (headers ev) as [|q l]; [done|]. change (lastid None (x :: q :: l)) with (lastid None (q :: l)).
        destruct (lastid None (q :: l)) eqn:E; [done|]. by apply lastid_none in E.
      * by constructor.
      * unfold vars. rupd. cbn [fmap list_fmap]. fold x. rewrite Vx. cbn. by constructor.
    + unfold vars. rupd. cbn [fmap list_fmap]. fold x. by rewrite Vx.
  - destruct (lastid None (headers ev)) as [z|] eqn:E.
    + fold x. rewrite (link_after_last _ _ x U2 E). eexists. split; [reflexivity|]. split.
      * constructor; rupd; try done.
        -- rewrite fmap_app. apply NoDup_app. split_and!; [done| |apply NoDup_singleton]. set_solver.
        -- apply Forall_app. split; [done|]. constructor; [cbn; lia|done].
        -- by rewrite lastid_app.
        -- apply Forall_app. by split; [|constructor].
        -- unfold vars. rupd. rewrite fmap_app, names_app. cbn [fmap list_fmap]. rewrite Vx.
           apply NoDup_app. split_and!; [done| |apply NoDup_singleton].
           intros y Hy ->%list_elem_of_singleton. by apply N.
      * unfold vars. rupd. rewrite fmap_app. cbn [fmap list_fmap]. by rewrite Vx.
    + apply lastid_none in E as H0.
      unfold vars in *. rewrite H0 in *. eexists. split; [reflexivity|]. fold x. split.
      * constructor; rupd; try done; [apply NoDup_singleton|constructor; [cbn; lia|done]|by constructor|].
        unfold vars. rupd. cbn [fmap list_fmap]. rewrite Vx. apply NoDup_singleton.
      * rupd. cbn [fmap list_fmap]. by rewrite Vx.
Qed.

Lemma slen_join a : a <> [] -> slen (join_fields a) + 2 = foldr (fun x n => slen x + 2 + n) 0 a.
Proof.
  induction a as [|x a IH]; [done|]. intros _. destruct a as [|y a]; [cbn; lia|].
  change (join_fields (x :: y :: a)) with (x +:+ "|:" +:+ join_fields (y :: a)).
  rewrite !slen_sapp. cbn [foldr] in *. specialize (IH ltac:(done)). change (slen "|:") with 2. lia.
Qed.

Lemma redraw_spec h : h_array h <> [] -> redraw h = Ok (h <| h_value := Some (array_value (h_array h)) |>).
Proof.
  intros N. unfold redraw. rewrite <- slen_join by done. pose proof (slen_pos (join_fields (h_array h))).
  rewrite (proj2 (Z.eqb_neq _ _)) by lia. unfold array_value. rewrite slen_sapp.
  rewrite (proj2 (Z.leb_le _ _)); [done|]. destruct (1 <? _); cbn; lia.
Qed.

Lemma push_spec stack h data : good (0, h) ->
  let a := if test_flag stack SWITCH_STACK_PUSH then content h ++ [data] else data :: content h in
  push_onto stack h data = Ok (h <| h_array := a |> <| h_value := Some (array_value a) |>).
Proof.
  intros [_ V]. unfold push_onto, content in *. destruct h as [n v [|x a] k]; cbn in V |- *.
  - destruct v as [v|]; [|done]. rewrite redraw_spec by (by destruct (test_flag _ _)). by destruct (test_flag _ _).
  - subst v. rewrite redraw_spec by (by destruct (test_flag _ _)). by destruct (test_flag _ _).
Qed.

(** One header gets another content. *)
Lemma update_spec ev n id h h' : uniq_event ev -> (id, h) ∈ headers ev -> strcaseeq (h_name h) n = true ->
  h_name h' = h_name h -> h_hash h' = h_hash h -> h_value h' = Some (array_value (content h')) ->
  uniq_event (update_header ev id h') /\
  vars (update_header ev id h') = vupdate n (fun _ => content h') (vars ev).
Proof.
  intros [U1 U2 U3 U4 U5 U6] Hin Hn N K V.
  assert (G : forall p, p ∈ headers ev -> fst p = id -> p = (id, h)).
  { intros p Hp E. by apply (NoDup_fmap_same fst (headers ev)). }
  assert (E1 : fst <$> headers (update_header ev id h') = fst <$> headers ev).
  { unfold update_header. rupd. rewrite <- list_fmap_compose. apply list_fmap_ext. intros i p _. cbn.
    by destruct (Z.eqb_spec (fst p) id). }
  assert (E2 : vars (update_header ev id h') = vupdate n (fun _ => content h') (vars ev)).
  { unfold vars, vupdate, update_header. rupd. rewrite <- !list_fmap_compose. apply list_fmap_ext.
    intros i p Hp%list_elem_of_lookup_2. cbn. destruct (Z.eqb_spec (fst p) id) as [E|E].
    - rewrite (G p Hp E). cbn. rewrite Hn. unfold view. cbn. by rewrite N.
    - destruct (strcaseeq (h_name (snd p)) n) eqn:F; [|done]. exfalso. apply E.
      assert (p = (id, h)) as ->; [|done].
      apply (NoDup_fmap_same (fun p => slower (h_name (snd p))) (headers ev)); try done.
      + unfold names, vars in U6. by rewrite <- list_fmap_compose in U6.
      + apply strcaseeq_slower in F, Hn. cbn in *. congruence. }
  assert (E3 : names (vars (update_header ev id h')) = names (vars ev)).
  { rewrite E2. unfold names, vupdate. rewrite <- list_fmap_compose. apply list_fmap_ext. intros i v _. cbn.
    destruct (strcaseeq (fst v) n); done. }
  split; [|done]. constructor; rewrite ?E1, ?E3; try done.
  - apply Forall_fmap. eapply Forall_impl; [exact U3|]. intros p Hp. cbn.
    destruct (Z.eqb_spec (fst p) id) as [E|E]; cbn; [by rewrite <- E|done].
  - change (last_header (update_header ev id h')) with (last_header ev). rewrite U4. clear -E1.
    revert E1. generalize (headers (update_header ev id h')) (None : option Z).
    induction (headers ev) as [|p l IH]; intros [|q k] lp E; try done. cbn in *. injection E as -> E. by apply IH.
  - apply Forall_fmap. rewrite Forall_forall in *. intros p Hp. cbn. destruct (Z.eqb_spec (fst p) id) as [E|E]; [|by apply U5].
    split; cbn; [|done]. rewrite K, N. by apply (U5 (id, h)).
Qed.

Lemma find_some_in {A} (f : A -> bool) l x : List.find f l = Some x -> x ∈ l /\ f x = true.
Proof. intros [K F]%find_some. by rewrite list_elem_of_In. Qed.

Lemma ptr_spec ev n : uniq_event ev ->
  match switch_event_get_header_ptr ev (Some n) with
  | Some (id, h) => (id, h) ∈ headers ev /\ strcaseeq (h_name h) n = true /\ vfind n (vars ev) = Some (content h)
  | None => vfind n (vars ev) = None
  end.
Proof.
  intros U. unfold switch_event_get_header_ptr, vars. rewrite find_header_spec, vfind_view by apply U.
  destruct (List.find _ _) as [[id h]|] eqn:E; [|done]. by apply find_some_in in E as [Hin F].
Qed.

(** The body that a header of the name [_body] sets as well. *)
Lemma body_spec ev (b : bool) x : uniq_event ev -> uniq_event (if b then switch_event_set_body ev x else ev).
Proof. destruct b; [|done]. by intros []. Qed.
Lemma body_vars ev (b : bool) x : vars (if b then switch_event_set_body ev x else ev) = vars ev.
Proof. by destruct b. Qed.
Lemma body_few ev (b : bool) x : few ev -> few (if b then switch_event_set_body ev x else ev).
Proof. by destruct b. Qed.

Lemma uniq_delete_spec ev n : uniq_event ev -> few ev ->
  exists ev', uniq_delete ev n = Ok ev' /\ uniq_event ev' /\ vars ev' = vunset n (vars ev) /\ next_id ev' = next_id ev.
Proof. intros U F. unfold uniq_delete. rewrite (ue_flag ev U). by apply del_all_spec. Qed.

Section BaseAdd.
Context (ev : switch_event) (k : nat) (stack : Z) (name data : string).
Context (U : uniq_event ev) (F : few ev) (Hn : plain_name name).
#[local] Set Default Proof Using "All".

Notation pushes := (test_flag stack SWITCH_STACK_PUSH || test_flag stack SWITCH_STACK_UNSHIFT).

Lemma plain_index : header_index name = (name, None).
Proof using Hn. clear F U. unfold header_index. by rewrite Hn. Qed.

(** Onto a header that is there. *)
Lemma add_onto vs : pushes = true -> vfind name (vars ev) = Some vs ->
  exists ev', base_add (S k) ev stack name data = Some (Ok ev') /\ uniq_event ev' /\
    vars ev' = vupdate name (fun vs => if test_flag stack SWITCH_STACK_PUSH then vs ++ [data] else data :: vs) (vars ev).
Proof using U Hn.
  clear F. intros P V. cbn [base_add]. rewrite plain_index, P.
  set (ev1 := if String.eqb name "_body" then _ else _).
  pose proof (body_spec ev (String.eqb name "_body") (Some data) U : uniq_event ev1) as U1.
  pose proof (body_vars ev (String.eqb name "_body") (Some data) : vars ev1 = vars ev) as V1. clearbody ev1.
  pose proof (ptr_spec ev1 name U1) as K. rewrite V1 in K.
  destruct (switch_event_get_header_ptr ev1 (Some name)) as [[id h]|]; [|congruence]. destruct K as (Hin & E & C).
  assert (G : good (0, h)) by (pose proof (ue_good ev1 U1) as G; rewrite Forall_forall in G; apply (G (id, h) Hin)).
  rewrite push_spec by done. set (a := if test_flag _ _ then _ else _).
  set (h' := _ <| h_value := _ |>).
  assert (C' : content h' = a) by (subst h' a; unfold content at 1; rupd; destruct (test_flag _ _); [by destruct (content h)|done]).
  destruct (update_spec ev1 name id h h' U1 Hin E) as [U2 V2]; [done|done|by rewrite C'|].
  eexists. split; [reflexivity|]. split; [done|]. rewrite V2, V1, C'. unfold vupdate. apply list_fmap_ext.
  intros i v Hv%list_elem_of_lookup_2. destruct (strcaseeq (fst v) name) eqn:Ev; [|done]. f_equal.
  assert (snd v = content h) as ->; [|done]. unfold vfind in C. destruct (List.find _ _) as [w|] eqn:Fw; [|done].
  cbn in C. injection C as C. rewrite <- C. f_equal. apply find_some_in in Fw as [Hw Ew].
  apply (NoDup_fmap_same (fun v => slower (fst v)) (vars ev)); [|done|done|].
  - rewrite <- V1. apply U1.
  - apply strcaseeq_slower in Ev, Ew. congruence.
Qed.

(** Nothing is there to push onto. *)
Hypothesis NP : pushes = true -> vfind name (vars ev) = None.

Lemma add_empty : data = EmptyString ->
  exists ev', base_add (S k) ev stack name data = Some (Ok ev') /\ uniq_event ev' /\ vars ev' = vunset name (vars ev).
Proof.
  intros D. cbn [base_add]. rewrite plain_index.
  set (ev1 := if String.eqb name "_body" then _ else _).
  pose proof (body_spec ev (String.eqb name "_body") (Some data) U : uniq_event ev1) as U1.
  pose proof (body_vars ev (String.eqb name "_body") (Some data) : vars ev1 = vars ev) as V1.
  pose proof (body_few ev (String.eqb name "_body") (Some data) F : few ev1) as F1. clearbody ev1.
  pose proof (ptr_spec ev1 name U1) as K. rewrite V1 in K.
  assert (E : (if pushes then switch_event_get_header_ptr ev1 (Some name) else None) = None).
  { destruct pushes; [|done]. specialize (NP eq_refl). destruct (switch_event_get_header_ptr _ _) as [[]|]; [|done].
    destruct K as (_ & _ & K). congruence. }
  rewrite E. destruct (del_all_spec ev1 name U1 F1) as (ev2 & E2 & U2 & V2 & _).
  rewrite D. cbn [zstr]. rewrite E2. exists ev2. by rewrite V2, V1.
Qed.

Lemma add_plain : data <> EmptyString -> plain data ->
  exists ev', base_add (S k) ev stack name data = Some (Ok ev') /\ uniq_event ev' /\
    vars ev' = vset (test_flag stack SWITCH_STACK_TOP) name [data] (vars ev).
Proof.
  intros D Pl. cbn [base_add]. rewrite plain_index.
  set (ev1 := if String.eqb name "_body" then _ else _).
  pose proof (body_spec ev (String.eqb name "_body") (Some data) U : uniq_event ev1) as U1.
  pose proof (body_vars ev (String.eqb name "_body") (Some data) : vars ev1 = vars ev) as V1.
  pose proof (body_few ev (String.eqb name "_body") (Some data) F : few ev1) as F1. clearbody ev1.
  pose proof (ptr_spec ev1 name U1) as K. rewrite V1 in K.
  assert (E : (if pushes then switch_event_get_header_ptr ev1 (Some name) else None) = None).
  { destruct pushes; [|done]. specialize (NP eq_refl). destruct (switch_event_get_header_ptr _ _) as [[]|]; [|done].
    destruct K as (_ & _ & K). congruence. }
  assert (Z0 : zstr (Some data) = false) by (clear -D; by destruct data). rewrite E, Z0.
  destruct (uniq_delete_spec ev1 name U1 F1) as (ev2 & -> & U2 & V2 & _). rewrite Pl. cbv zeta.
  set (h := if pushes then _ else _).
  assert (exists h', h = Ok h' /\ h_name h' = name /\ content h' = [data] /\ h_value h' = Some data) as (h' & -> & N' & C' & X').
  { subst h. destruct pushes; [|by eexists]. unfold push_onto. cbn [new_header h_value h_array]. rupd.
    destruct (test_flag stack SWITCH_STACK_PUSH); (rewrite redraw_spec by done); eexists; done. }
  destruct (link_spec ev2 stack h' U2) as (ev3 & E3 & U3 & V3).
  - rewrite N', V2. apply names_unset.
  - rewrite C', X'. done.
  - exists ev3. rewrite E3. split_and!; [done|done|]. rewrite V3, N', C', V2, V1. done.
Qed.
End BaseAdd.

(** ** The text of an array *)

Lemma strstr_nil d s : d <> EmptyString -> strstr d s = None -> strip_prefix d s = None.
Proof. destruct s; cbn; by destruct (strip_prefix _ _). Qed.

Lemma strstr_field v r : strstr "|:" v = None -> strstr "|:" (v +:+ "|:" +:+ r) = Some (v, r).
Proof.
  induction v as [|c v IH]; intros N; [done|].
  assert (N1 : strstr "|:" v = None).
  { cbn [strstr] in N. destruct (strip_prefix _ _); [done|]. by destruct (strstr "|:" v) as [[]|]. }
  rewrite sapp_cons. specialize (IH N1). cbn [strstr].
  assert (strip_prefix "|:" (String c (v +:+ "|:" +:+ r)) = None) as ->; [|by rewrite IH].
  apply strstr_nil in N; [|done]. cbn [strip_prefix] in *. destruct (_ =c _); [|done].
  destruct v as [|d v]; [done|]. rewrite sapp_cons. cbn [strip_prefix] in *. by destruct (_ =c _).
Qed.

Lemma fields_of_array v vs : Forall (fun v => strstr "|:" v = None) (v :: vs) ->
  string_fields "|:" (length vs) (join_fields (v :: vs)) = v :: vs.
Proof.
  revert v. induction vs as [|w vs IH]; intros v [Hv H]%Forall_cons; [done|]. cbn [length string_fields].
  change (join_fields (v :: w :: vs)) with (v +:+ "|:" +:+ join_fields (w :: vs)).
  by rewrite strstr_field, IH.
Qed.

Lemma count_of_array v vs n : Forall (fun v => strstr "|:" v = None) (v :: vs) ->
  (String.length (join_fields (v :: vs)) <= n)%nat -> count_fields "|:" n (join_fields (v :: vs)) = length vs.
Proof.
  revert v n. induction vs as [|w vs IH]; intros v n [Hv H]%Forall_cons L.
  - destruct n; [done|]. cbn [join_fields count_fields]. by rewrite Hv.
  - change (join_fields (v :: w :: vs)) with (v +:+ "|:" +:+ join_fields (w :: vs)) in *.
    rewrite !length_sapp in L. cbn [String.length] in L. destruct n as [|n]; [lia|].
    cbn [count_fields length]. rewrite strstr_field, IH; [done|done|lia|done].
Qed.

Lemma vfind_last n l w : slower n ∉ names l -> vfind n (l ++ [(n, w)]) = Some w.
Proof.
  unfold vfind. induction l as [|v l IH]; cbn.
  - by rewrite (proj2 (strcaseeq_slower n n)).
  - intros [N1 N2]%not_elem_of_cons. destruct (strcaseeq (fst v) n) eqn:E; [apply strcaseeq_slower in E; congruence|].
    by apply IH.
Qed.

Lemma vupdate_last n f l w : slower n ∉ names l -> vupdate n f (l ++ [(n, w)]) = l ++ [(n, f w)].
Proof.
  unfold vupdate. induction l as [|v l IH]; cbn.
  - by rewrite (proj2 (strcaseeq_slower n n)).
  - intros [N1 N2]%not_elem_of_cons. destruct (strcaseeq (fst v) n) eqn:E; [apply strcaseeq_slower in E; congruence|].
    by rewrite IH.
Qed.

(** Fields pushed one after the other. *)
Lemma add_fields_spec k name l fs : plain_name name -> slower name ∉ names l -> forall ev w, uniq_event ev ->
  vars ev = l ++ [(name, w)] ->
  exists ev', add_fields (fun ev f => base_add (S k) ev SWITCH_STACK_PUSH name f) ev fs = Some (Ok ev') /\
    uniq_event ev' /\ vars ev' = l ++ [(name, w ++ fs)].
Proof.
  intros Hn N. induction fs as [|f fs IH]; intros ev w U V; cbn [add_fields].
  - exists ev. by rewrite app_nil_r.
  - destruct (add_onto ev k SWITCH_STACK_PUSH name f U Hn w) as (ev1 & E1 & U1 & V1);
      [done|rewrite V; by apply vfind_last|].
    rewrite E1. destruct (IH ev1 (w ++ [f]) U1) as (ev2 & E2 & U2 & V2).
    + rewrite V1, V, vupdate_last by done. done.
    + exists ev2. rewrite E2, V2, <- app_assoc. done.
Qed.

Lemma add_array_spec ev k name v w vs : uniq_event ev -> few ev -> plain_name name ->
  Forall (fun v => strstr "|:" v = None) (v :: w :: vs) -> v <> EmptyString -> plain v ->
  exists ev', base_add (S (S k)) ev SWITCH_STACK_BOTTOM name (array_value (v :: w :: vs)) = Some (Ok ev') /\
    uniq_event ev' /\ vars ev' = vset false name (v :: w :: vs) (vars ev).
Proof.
  intros U F Hn Hf Hv Pv.
  assert (D : array_value (v :: w :: vs) = PREFIX +:+ join_fields (v :: w :: vs)).
  { unfold array_value. by rewrite (proj2 (Z.ltb_lt 1 _)) by (cbn [length]; lia). }
  rewrite D. clear D. set (data := PREFIX +:+ _).
  remember (S k) as k1. cbn [base_add]. rewrite (plain_index name Hn).
  set (ev1 := if String.eqb name "_body" then _ else _).
  pose proof (body_spec ev (String.eqb name "_body") (Some data) U : uniq_event ev1) as U1.
  pose proof (body_vars ev (String.eqb name "_body") (Some data) : vars ev1 = vars ev) as V1.
  pose proof (body_few ev (String.eqb name "_body") (Some data) F : few ev1) as F1. clearbody ev1.
  change (test_flag SWITCH_STACK_BOTTOM SWITCH_STACK_PUSH || test_flag SWITCH_STACK_BOTTOM SWITCH_STACK_UNSHIFT) with false.
  cbv iota. change (zstr (Some data)) with false. cbv iota.
  destruct (uniq_delete_spec ev1 name U1 F1) as (ev2 & -> & U2 & V2 & _).
  change (strip_prefix PREFIX data) with (Some (join_fields (v :: w :: vs))).
  unfold switch_event_add_array.
  assert (L : (slen data <? 8) = false).
  { apply Z.ltb_ge. subst data. change (join_fields (v :: w :: vs)) with (v +:+ "|:" +:+ join_fields (w :: vs)).
    rewrite !slen_sapp. change (slen PREFIX) with 7. change (slen "|:") with 2.
    pose proof (slen_pos v). pose proof (slen_pos (join_fields (w :: vs))). lia. }
  rewrite L. change (skip_chars 7 data) with (join_fields (v :: w :: vs)). cbv zeta.
  rewrite count_of_array by done. unfold switch_separate_string_string. rewrite fields_of_array by done.
  cbn [add_fields]. subst k1.
  assert (A2 : slower name ∉ names (vars ev2)) by (rewrite V2; apply names_unset).
  destruct (add_plain ev2 k SWITCH_STACK_PUSH name v U2) as (ev3 & E3 & U3 & V3).
  - unfold few. rewrite <- (length_fmap view). change (view <$> headers ev2) with (vars ev2). rewrite V2.
    unfold few in F1. rewrite <- (length_fmap view) in F1. change (view <$> headers ev1) with (vars ev1) in F1.
    pose proof (sublist_length _ _ (filter_sub (fun v => negb (strcaseeq (fst v) name)) (vars ev1))). unfold vunset. lia.
  - done.
  - intros _. destruct (vfind name (vars ev2)) eqn:E; [|done]. exfalso. apply A2. unfold vfind in E.
    destruct (List.find _ _) as [x|] eqn:Fx; [|done]. apply find_some_in in Fx as [Hx Ex].
    apply list_elem_of_fmap. exists x. by apply strcaseeq_slower in Ex.
  - done.
  - done.
  - rewrite E3. destruct (add_fields_spec k name (vars ev2) (w :: vs) Hn A2 ev3 [v] U3) as (ev4 & E4 & U4 & V4).
    + rewrite V3. change (test_flag _ _) with false. unfold vset. by rewrite (vunset_absent _ _ A2).
    + exists ev4. split; [exact E4|]. by rewrite V4, V2, V1.
Qed.

(** ** Nested arrays end *)

Lemma strip_prefix_length d s r : strip_prefix d s = Some r -> (String.length r <= String.length s)%nat.
Proof.
  revert s. induction d as [|c d IH]; intros s; cbn; [by intros [= ->]|].
  destruct s as [|e s]; [done|]. destruct (_ =c _); [|done]. intros E%IH. cbn. lia.
Qed.
Lemma strstr_length d s a b : strstr d s = Some (a, b) ->
  (String.length a <= String.length s /\ String.length b <= String.length s)%nat.
Proof.
  revert a. induction s as [|c s IH]; intros a; cbn [strstr].
  - destruct (strip_prefix d _) as [r|] eqn:E; [|done]. intros [= <- <-]. apply strip_prefix_length in E. cbn in *. lia.
  - destruct (strip_prefix d _) as [r|] eqn:E.
    + intros [= <- <-]. apply strip_prefix_length in E. cbn in *. lia.
    + destruct (strstr d s) as [[x y]|]; [|done]. intros [= <- <-]. destruct (IH x eq_refl). cbn. lia.
Qed.
Lemma string_fields_length d n s : Forall (fun f => (String.length f <= String.length s)%nat) (string_fields d n s).
Proof.
  revert s. induction n as [|n IH]; intros s; cbn [string_fields]; [by constructor|].
  destruct (strstr d s) as [[a b]|] eqn:E; [|by constructor]. apply strstr_length in E as [L1 L2].
  constructor; [done|]. eapply Forall_impl; [apply IH|]. cbn. lia.
Qed.
Lemma skip_length n s : (String.length (skip_chars n s) <= String.length s - n)%nat.
Proof. revert s. induction n as [|n IH]; intros [|c s]; cbn; try lia. apply IH. Qed.

Lemma add_fields_some add fs : Forall (fun f => forall ev, add ev f <> None) fs -> forall ev, add_fields add ev fs <> None.
Proof.
  induction 1 as [|f fs H _ IH]; intros ev; cbn [add_fields]; [done|].
  specialize (H ev). destruct (add ev f) as [[ev1| |]|]; [apply IH|done..].
Qed.

(** The fuel is enough for any text. *)
Lemma base_add_enough n : forall ev stack name data, (String.length data < n)%nat -> base_add n ev stack name data <> None.
Proof.
  induction n as [|n IH]; intros ev stack name data L; [lia|]. cbn [base_add].
  destruct (header_index name) as [m [i|]]; [done|]. destruct (if _ || _ then _ else _) as [[id h]|]; [done|].
  destruct (zstr _); [done|]. destruct (uniq_delete _ _) as [ev1| |]; [|done..].
  destruct (strip_prefix PREFIX data); [|done]. unfold switch_event_add_array.
  destruct (Z.ltb_spec (slen data) 8) as [|G]; [done|]. cbv zeta. unfold switch_separate_string_string.
  apply add_fields_some. eapply Forall_impl; [apply string_fields_length|]. cbn beta. intros f Lf ev2. apply IH.
  pose proof (skip_length 7 data). assert (8 <= String.length data)%nat; [|lia]. rewrite slen_length in G. lia.
Qed.

(** ** Runs *)

Lemma few_vars ev : few ev <-> zlen (vars ev) < 999999.
Proof. unfold few, vars. by rewrite length_fmap. Qed.

Lemma base_add_header ev stack name data r :
  base_add (S (String.length data)) ev stack name data = Some (Ok r) -> add_header ev stack name (Some data) = Ok r.
Proof.
  unfold add_header, switch_event_add_header_string, switch_event_base_add_header. by intros ->.
Qed.

Lemma vcall_spec ev o : uniq_event ev -> few ev -> vop_ok o ->
  exists ev', vcall ev o = Ok ev' /\ uniq_event ev' /\ vars ev' = vstep (vars ev) o.
Proof.
  intros U F Ho. destruct o as [top n v|n vs|n v|n v|n|n v]; cbn [vcall vstep].
  - destruct Ho as [Hn Hv]. destruct (decide (v = EmptyString)) as [->|N].
    + destruct (add_empty ev 0 (if top then SWITCH_STACK_TOP else SWITCH_STACK_BOTTOM) n "" U F Hn) as (ev' & E & U' & V);
        [by destruct top|done|]. exists ev'. split_and!; [by apply base_add_header|done|done].
    + destruct (add_plain ev (String.length v) (if top then SWITCH_STACK_TOP else SWITCH_STACK_BOTTOM) n v U F Hn)
        as (ev' & E & U' & V); [by destruct top|done|done|].
      exists ev'. split_and!; [by apply base_add_header|done|]. rewrite V. by destruct v, top.
  - destruct Ho as (Hn & Hf & Hv). destruct vs as [|v [|w vs]]; [done..|]. destruct Hv as [N P].
    destruct (add_array_spec ev (String.length (array_value (v :: w :: vs)) - 1) n v w vs U F Hn Hf N P)
      as (ev' & E & U' & V).
    exists ev'. split_and!; [|done|done]. apply base_add_header. rewrite <- E. f_equal. f_equal.
    unfold array_value. rewrite (proj2 (Z.ltb_lt 1 _)) by (cbn [length]; lia). rewrite length_sapp.
    change (String.length "ARRAY::") with 7%nat. lia.
  - destruct Ho as [Hn Hv]. destruct (vfind n (vars ev)) as [c|] eqn:Ef.
    + destruct (add_onto ev (String.length v) SWITCH_STACK_PUSH n v U Hn c) as (ev' & E & U' & V); [done|done|].
      exists ev'. split_and!; [by apply base_add_header|done|done].
    + destruct (decide (v = EmptyString)) as [->|N].
      * destruct (add_empty ev 0 SWITCH_STACK_PUSH n "" U F Hn) as (ev' & E & U' & V); [done..|].
        exists ev'. split_and!; [by apply base_add_header|done|]. rewrite V. apply vunset_absent. by apply vfind_none.
      * destruct (add_plain ev (String.length v) SWITCH_STACK_PUSH n v U F Hn) as (ev' & E & U' & V); [done..|].
        exists ev'. split_and!; [by apply base_add_header|done|]. rewrite V. by destruct v.
  - destruct Ho as [Hn Hv]. destruct (vfind n (vars ev)) as [c|] eqn:Ef.
    + destruct (add_onto ev (String.length v) SWITCH_STACK_UNSHIFT n v U Hn c) as (ev' & E & U' & V); [done|done|].
      exists ev'. split_and!; [by apply base_add_header|done|done].
    + destruct (decide (v = EmptyString)) as [->|N].
      * destruct (add_empty ev 0 SWITCH_STACK_UNSHIFT n "" U F Hn) as (ev' & E & U' & V); [done..|].
        exists ev'. split_and!; [by apply base_add_header|done|]. rewrite V. apply vunset_absent. by apply vfind_none.
      * destruct (add_plain ev (String.length v) SWITCH_STACK_UNSHIFT n v U F Hn) as (ev' & E & U' & V); [done..|].
        exists ev'. split_and!; [by apply base_add_header|done|]. rewrite V. by destruct v.
  - destruct (del_all_spec ev n U F) as (ev' & E & U' & V & _). by exists ev'.
  - destruct (del_spec ev n (Some v) U F) as (ev' & st & -> & U' & V & _). exists ev'. split_and!; [done|done|].
    rewrite V. destruct v as [|c v].
    + apply List.filter_ext. intros x. unfold doomed. cbn [zstr orb]. by rewrite andb_true_r.
    + done.
Qed.

Lemma length_vstep l o : zlen (vstep l o) <= zlen l + 1.
Proof.
  assert (F : forall f, (length (List.filter f l) <= length l)%nat) by (intros f; apply sublist_length, filter_sub).
  assert (S : forall t n c, (length (vset t n c l) <= S (length l))%nat).
  { intros t n c. specialize (F (fun v => negb (strcaseeq (fst v) n))). unfold vset, vunset.
    destruct t; rewrite ?length_app; cbn; lia. }
  assert (P : forall n f, length (vupdate n f l) = length l) by (intros; apply length_fmap).
  destruct o as [top n v|n vs|n v|n v|n|n v]; cbn [vstep]; unfold vunset in *;
    repeat case_match; rewrite ?P; try specialize (S top n [v]); try specialize (S false n [v]); try specialize (S false n vs);
    try match goal with |- context [List.filter ?f l] => specialize (F f) end; lia.
Qed.

Lemma few_step ev ev1 o : vars ev1 = vstep (vars ev) o -> zlen (headers ev1) <= zlen (headers ev) + 1.
Proof.
  intros V. rewrite <- (length_fmap view (headers ev)), <- (length_fmap view (headers ev1)).
  change (view <$> headers ev) with (vars ev). change (view <$> headers ev1) with (vars ev1).
  rewrite V. apply length_vstep.
Qed.

Lemma vcalls_spec ev os : uniq_event ev -> Forall vop_ok os -> zlen (headers ev) + zlen os < 999999 ->
  exists ev', vcalls ev os = Ok ev' /\ uniq_event ev' /\ vars ev' = foldl vstep (vars ev) os.
Proof.
  intros U Ho. revert ev U. induction Ho as [|o os Ho _ IH]; intros ev U L; cbn [vcalls foldl]; [by exists ev|].
  cbn [length] in L. destruct (vcall_spec ev o U) as (ev1 & E & U1 & V1); [unfold few; lia|done|].
  rewrite E, <- V1. apply IH; [done|]. pose proof (few_step _ _ _ V1). lia.
Qed.

Lemma get_header_spec ev n : uniq_event ev -> n <> "_body"%string ->
  switch_event_get_header_idx ev n (-1) = array_value <$> vfind n (vars ev).
Proof.
  intros U Hb. unfold switch_event_get_header_idx. pose proof (ptr_spec ev n U) as P.
  destruct (switch_event_get_header_ptr ev (Some n)) as [[id h]|].
  - destruct P as (Hin & _ & ->). pose proof (ue_good ev U) as G. rewrite Forall_forall in G. apply (G (id, h) Hin).
  - rewrite P. by rewrite (proj2 (String.eqb_neq _ _) Hb).
Qed.
(** C9. Any run of additions, arrays, pushes, insertions at the front and
    deletions on an event with unique headers (fewer than a million) is the same
    run on an ordered map from case-insensitive names to lists of values, and
    reading a header gives the text of its list. *)
Theorem event_vars_map ev os :
  uniq_event ev -> Forall vop_ok os -> zlen (headers ev) + zlen os < 999999 ->
  exists ev', vcalls ev os = Ok ev' /\ uniq_event ev' /\ vars ev' = foldl vstep (vars ev) os /\
    forall n, n <> "_body"%string ->
      switch_event_get_header ev' n = array_value <$> vfind n (foldl vstep (vars ev) os).
Proof.
  intros U Ho L. destruct (vcalls_spec ev os U Ho L) as (ev' & E & U' & V). exists ev'. rewrite <- V.
  split_and!; [done|done|done|]. intros n Hb. by apply get_header_spec.
Qed.

(** ** Copies *)

Definition copies (h : switch_event_header) : list vop :=
  match h_array h with
  | [] => [VSet false (h_name h) (default EmptyString (h_value h))]
  | a => VPush (h_name h) <$> a
  end.

(** What a copy keeps: the first value of a name counts and starts no array. *)
Definition copied (v : string * list string) : Prop :=
  plain_name (fst v) /\ Forall plain (snd v) /\ hd_error (snd v) <> Some EmptyString.

Lemma add_pushes ev n a : add_headers ev SWITCH_STACK_PUSH ((fun x => (n, Some x)) <$> a) = vcalls ev (VPush n <$> a).
Proof. revert ev. induction a as [|x a IH]; intros ev; [done|]. cbn. destruct (add_header _ _ _ _); [apply IH|done..]. Qed.

Lemma vcalls_app ev os os' : vcalls ev (os ++ os') = (let* ev := vcalls ev os in vcalls ev os').
Proof. revert ev. induction os as [|o os IH]; intros ev; [done|]. cbn. destruct (vcall ev o); [apply IH|done..]. Qed.

Lemma copy_calls l : Forall good l -> forall ev, copy_headers id false ev l = vcalls ev (l ≫= (fun p => copies (snd p))).
Proof.
  induction 1 as [|[i h] l [_ G] _ IH]; intros ev; [done|]. cbn [copy_headers mbind list_bind snd andb].
  rewrite vcalls_app. assert (E : add_copy ev (id (h_name h)) h = vcalls ev (copies h)).
  { cbn in G. unfold add_copy, copies, id. destruct (h_array h) as [|x a] eqn:A; [|by rewrite <- add_pushes].
    rewrite G. cbn [default vcalls vcall]. by destruct (add_header _ _ _ _). }
  rewrite E. by destruct (vcalls ev (copies h)).
Qed.

Lemma pushes_fresh n x a l : slower n ∉ names l -> x <> EmptyString ->
  foldl vstep l (VPush n <$> (x :: a)) = l ++ [(n, x :: a)].
Proof.
  intros N X. cbn [fmap list_fmap foldl]. assert (vstep l (VPush n x) = l ++ [(n, [x])]) as ->.
  { cbn [vstep]. destruct (vfind n l) eqn:E.
    - exfalso. apply N. unfold vfind in E. destruct (List.find _ _) as [v|] eqn:Fv; [|done].
      apply find_some_in in Fv as [Hv Ev]. apply list_elem_of_fmap. exists v. by apply strcaseeq_slower in Ev.
    - unfold vset. rewrite (vunset_absent n l N). by destruct x. }
  change (x :: a) with ([x] ++ a). generalize [x]. induction a as [|y a IH]; intros c; [by rewrite app_nil_r|].
  cbn [fmap list_fmap foldl vstep]. rewrite (vfind_last n l c N), (vupdate_last n _ l c N), IH. by rewrite <- app_assoc.
Qed.

Lemma copies_spec p l : copied (view p) -> slower (h_name (snd p)) ∉ names l ->
  foldl vstep l (copies (snd p)) = l ++ [view p] /\ Forall vop_ok (copies (snd p)).
Proof.
  destruct p as [i h]. intros (Hn & Hp & Hh) N. unfold copies, view, content in *. cbn [fst snd] in *.
  destruct (h_array h) as [|x a].
  - split; [|constructor; [|done]; split; [done|by apply Forall_cons in Hp as [? _]]].
    cbn [foldl vstep]. destruct (default EmptyString (h_value h)); [done|]. unfold vset. by rewrite vunset_absent.
  - split; [apply pushes_fresh; [done|by intros ->]|]. apply Forall_fmap. eapply Forall_impl; [exact Hp|].
    intros v Hv. by split.
Qed.

Lemma all_copies hs : forall l, Forall (fun p => copied (view p)) hs -> NoDup (names (l ++ (view <$> hs))) ->
  foldl vstep l (hs ≫= (fun p => copies (snd p))) = l ++ (view <$> hs) /\
  Forall vop_ok (hs ≫= (fun p => copies (snd p))).
Proof.
  induction hs as [|p hs IH]; intros l C ND; [by rewrite app_nil_r|]. apply Forall_cons in C as [Cp C].
  cbn [mbind list_bind fmap list_fmap]. rewrite foldl_app.
  cbn [fmap list_fmap] in ND.
  destruct (copies_spec p l Cp) as [E O].
  - unfold names in ND. rewrite fmap_app in ND. apply NoDup_app in ND as (_ & ND & _). intros K. apply (ND _ K). cbn. set_solver.
  - destruct (IH (l ++ [view p]) C) as [E' O']; [by rewrite <- app_assoc|].
    rewrite E, E', <- app_assoc. split; [done|]. by apply Forall_app.
Qed.

Lemma dup_start_plain ev : subclass_name ev = None ->
  dup_start ev = Ok (Some (blank_event <| event_id := event_id ev |> <| user_data := user_data ev |>
    <| ev_flags := ev_flags ev |>)).
Proof. intros H. unfold dup_start. by rewrite H. Qed.

(** A copy of an event with unique headers has the same headers in the same
    order with the same values, arrays included, and the same key and body, if
    the first value of each name is not empty and no value starts an array. *)
Theorem event_dup_exact ev :
  uniq_event ev -> subclass_name ev = None -> Forall (fun p => copied (view p)) (headers ev) ->
  zlen (headers ev ≫= (fun p => copies (snd p))) < 999999 ->
  exists ev', switch_event_dup ev = Ok (Some ev') /\ uniq_event ev' /\ vars ev' = vars ev /\
    key ev' = key ev /\ forall b, body ev = Some b -> body ev' = Some b.
Proof.
  intros U Hs C L. unfold switch_event_dup. rewrite (dup_start_plain ev Hs), Hs.
  change (bool_decide (None <> @None string)) with false. cbv iota.
  set (ev0 := blank_event <| event_id := event_id ev |> <| user_data := user_data ev |> <| ev_flags := ev_flags ev |>).
  assert (U0 : uniq_event ev0).
  { constructor; first [exact (ue_flag ev U) | done | constructor]. }
  destruct (all_copies (headers ev) [] C) as [E O]; [apply U|].
  rewrite (copy_calls (headers ev)) by apply U.
  destruct (vcalls_spec ev0 _ U0 O) as (ev1 & E1 & U1 & V1); [done|]. rewrite E1.
  change (vars ev0) with (@nil (string * list string)) in V1. rewrite E in V1.
  eexists. split; [reflexivity|]. destruct (body ev); split_and!; try done;
    solve [by destruct U1|by intros b [= ->]].
Qed.

(** An empty first value is lost in a copy. *)
Lemma event_dup_drops :
  let h a := mk_header "v" (Some (array_value a)) a (switch_ci_hashfunc_default "v") in
  let ev := blank_event <| headers := [(0, h [EmptyString; "x"%string])] |> <| last_header := Some 0 |>
              <| next_id := 1 |> <| ev_flags := EF_UNIQ_HEADERS |> in
  exists ev', switch_event_dup ev = Ok (Some ev') /\ vars ev' = [("v", ["x"])]%string.
Proof. eexists. split; vm_compute; reflexivity. Qed.

(** An element that is replaced leaves the text of the array as it was. *)
Lemma event_index_stale :
  let calls := let* ev := add_header blank_event SWITCH_STACK_BOTTOM "v[1]" (Some "b"%string) in
               add_header ev SWITCH_STACK_BOTTOM "v[0]" (Some "a"%string) in
  exists ev, calls = Ok ev /\ switch_event_get_header_idx ev "v" 0 = Some "a"%string /\
    switch_event_get_header ev "v" = Some "ARRAY::|:b"%string.
Proof. eexists. split_and!; vm_compute; reflexivity. Qed.

(** ** Witnesses *)

Definition w_blank : switch_event := blank_event <| event_id := SWITCH_EVENT_CHANNEL_DATA |> <| ev_flags := EF_UNIQ_HEADERS |>.
Definition w_ops : list vop :=
  [VSet false "user" "1000"; VArray "codecs" ["PCMU"; "PCMA"; ""]; VPush "Codecs" "GSM"; VSet true "domain" "pbx";
   VSet false "USER" "1001"; VUnshift "domain" "first"; VDel "user" "1000"; VUnset "nothing"]%string.
Definition w_event : switch_event := match vcalls w_blank w_ops with Ok ev => ev | _ => w_blank end.

Lemma w_blank_uniq : uniq_event w_blank.
Proof. constructor; first [done | constructor]. Qed.
Lemma w_ops_ok : Forall vop_ok w_ops.
Proof. repeat (constructor; [repeat split; try done; try (repeat constructor)|]). constructor. Qed.

Lemma event_vars_map_witness :
  switch_event_get_header w_event "codecs" = Some "ARRAY::PCMU|:PCMA|:|:GSM"%string /\
  vars w_event = [("domain", ["first"; "pbx"]); ("codecs", ["PCMU"; "PCMA"; ""; "GSM"]); ("USER", ["1001"])]%string.
Proof.
  destruct (event_vars_map w_blank w_ops w_blank_uniq w_ops_ok) as (ev & E & _ & V & G); [vm_compute; reflexivity|].
  assert (w_event = ev) as -> by (unfold w_event; rewrite E; reflexivity).
  split; [rewrite G by done; vm_compute; reflexivity|rewrite V; vm_compute; reflexivity].
Defined.

Lemma w_event_uniq : uniq_event w_event.
Proof.
  destruct (vcalls_spec w_blank w_ops w_blank_uniq w_ops_ok) as (ev & E & U & _); [vm_compute; reflexivity|].
  unfold w_event. by rewrite E.
Qed.

Lemma event_dup_exact_witness :
  exists ev', switch_event_dup w_event = Ok (Some ev') /\ vars ev' = vars w_event.
Proof.
  destruct (event_dup_exact w_event) as (ev' & E & _ & V & _).
  - exact w_event_uniq.
  - vm_compute. reflexivity.
  - vm_compute headers. repeat constructor; discriminate.
  - vm_compute. reflexivity.
  - exists ev'. split; [exact E|exact V].
Defined.
