(* ===== verification/HashDelete.v ===== *)
(** * Bulk deletion from a hash table (src/switch_core_hash.c)

    [switch_core_hash_delete_multi] keeps the keys that it is to delete as the
    headers of an event, whose values are keys unless [switch_event.c] takes them
    for something else: an empty text removes what was kept before it, and one
    that starts with [ARRAY::] is taken apart. *)
From stdpp Require Import strings.
From Stdlib Require Import String Ascii.
From S2P Require Import Prelude CStrings Separator EventTypes Event EventVars Hashtable.
Open Scope Z_scope.
#[local] Notation length := List.length (only parsing).

Section HashDelete.
Context {K V : Type} `{!HashKey K}.
(** Keys are texts; [fold] is the key that a text stands for. *)
Context (text : K -> string) (fold : string -> K).

(** A header without a value would be looked up as a null pointer. *)
Fixpoint delete_headers (h : switch_hashtable K V) (hs : list (Z * switch_event_header)) (st : switch_status)
  : outcome (switch_hashtable K V * switch_status) :=
  match hs with
  | [] => Ok (h, st)
  | (_, x) :: hs =>
    match h_value x with
    | None => UB
    | Some k =>
      match switch_core_hash_delete h (fold k) with
      | (h, Some _) => delete_headers h hs SWITCH_STATUS_SUCCESS
      | (h, None) => delete_headers h hs st
      end
    end
  end.

Definition switch_core_hash_delete_multi (p : prep_env) (seq : Z) (callback : option (K -> V -> bool))
    (h : switch_hashtable K V) : outcome (switch_hashtable K V * switch_status) :=
  let* r := switch_event_create_subclass_detailed p seq SWITCH_EVENT_CLONE None in
  match r with
  | None => Assert
  | Some (event, _) =>
    let* event := add_headers event SWITCH_STACK_BOTTOM
      ((fun k => ("delete"%string, Some (text k))) <$> accepted_keys callback h) in
    delete_headers h (headers event) SWITCH_STATUS_GENERR
  end.

(** ** Keys that headers keep as they are *)

Definition plain_key (s : string) : Prop := s <> EmptyString /\ strip_prefix PREFIX s = None.

(** The event so far: its headers carry these values and are well linked. *)
Record keeps (ev : switch_event) (l : list string) : Prop := mk_keeps {
  kp_flag : test_flag (ev_flags ev) EF_UNIQ_HEADERS = false;
  kp_ids : NoDup (fst <$> headers ev);
  kp_fresh : Forall (fun p => fst p < next_id ev) (headers ev);
  kp_last : last_header ev = lastid None (headers ev);
  kp_values : (fun p => h_value (snd p)) <$> headers ev = Some <$> l
}.

Lemma keeps_blank : keeps blank_event [].
Proof. constructor; cbn; done || constructor. Qed.

Lemma keeps_add ev l s : keeps ev l -> plain_key s ->
  exists ev', add_header ev SWITCH_STACK_BOTTOM "delete" (Some s) = Ok ev' /\ keeps ev' (l ++ [s]).
Proof.
  intros [F I N L Va] [Ne Np].
  assert (E : add_header ev SWITCH_STACK_BOTTOM "delete" (Some s) =
    link_header (ev <| next_id := next_id ev + 1 |>) SWITCH_STACK_BOTTOM (next_id ev)
      ((new_header "delete") <| h_value := Some s |>)).
  { unfold add_header, switch_event_add_header_string, switch_event_base_add_header. cbn [base_add].
    change (header_index "delete") with ("delete"%string, @None Z). cbv iota beta zeta.
    change (String.eqb "delete" "_body") with false. change (test_flag SWITCH_STACK_BOTTOM SWITCH_STACK_PUSH || test_flag SWITCH_STACK_BOTTOM SWITCH_STACK_UNSHIFT) with false.
    cbv iota. unfold uniq_delete. rewrite F, Np. destruct s as [|c s]; [done|]. cbn [zstr default].
    by destruct (link_header _ _ _ _). }
  rewrite E. unfold link_header. change (test_flag SWITCH_STACK_BOTTOM SWITCH_STACK_TOP) with false. rupd. rewrite L.
  set (x := _ <| h_hash := _ |>).
  assert (G : lastid None (headers ev ++ [(next_id ev, x)]) = Some (next_id ev)) by (unfold lastid; by rewrite foldl_app).
  assert (D : NoDup (fst <$> headers ev ++ [(next_id ev, x)])).
  { rewrite fmap_app. apply NoDup_app. split_and!; [done| |apply NoDup_singleton].
    intros i (q & -> & Hq)%list_elem_of_fmap Hi%list_elem_of_singleton. rewrite Forall_forall in N. specialize (N q Hq). cbn in Hi. lia. }
  assert (R : Forall (fun p => fst p < next_id ev + 1) (headers ev ++ [(next_id ev, x)])).
  { apply Forall_app. split; [|repeat constructor; cbn; lia]. eapply Forall_impl; [exact N|]. cbn. lia. }
  assert (W : (fun p => h_value (snd p)) <$> headers ev ++ [(next_id ev, x)] = Some <$> l ++ [s])
    by (by rewrite !fmap_app, Va).
  destruct (lastid None (headers ev)) as [z|] eqn:Z.
  - rewrite (link_after_last _ z _ I Z). eexists. split; [reflexivity|]. constructor; rupd; done.
  - apply lastid_none in Z. rewrite Z in *. eexists. split; [reflexivity|]. constructor; rupd; done.
Qed.

Lemma keeps_adds ks : forall ev l, keeps ev l -> Forall (fun k => plain_key (text k)) ks ->
  exists ev', add_headers ev SWITCH_STACK_BOTTOM ((fun k => ("delete"%string, Some (text k))) <$> ks) = Ok ev' /\
    keeps ev' (l ++ (text <$> ks)).
Proof.
  induction ks as [|k ks IH]; intros ev l H F; [exists ev; by rewrite app_nil_r|].
  apply Forall_cons in F as [Fk F]. cbn [add_headers fmap list_fmap].
  destruct (keeps_add ev l (text k) H Fk) as (ev1 & -> & H1). cbn [mbind outcome_bind].
  destruct (IH ev1 _ H1 F) as (ev2 & -> & H2). exists ev2. split; [done|]. by rewrite <- app_assoc in H2.
Qed.

Lemma delete_headers_keys hs : forall h ks st,
  (fun p => h_value (snd p)) <$> hs = Some <$> (text <$> ks) -> (forall k, k ∈ ks -> fold (text k) = k) ->
  delete_headers h hs st = Ok (delete_keys h ks st).
Proof.
  induction hs as [|[i x] hs IH]; intros h [|k ks] st E B; try done. cbn in E. injection E as Ex E.
  cbn [delete_headers]. rewrite Ex, B by set_solver. unfold delete_keys. cbn [foldl].
  destruct (switch_core_hash_delete h k) as [h1 [v|]]; rewrite (IH _ ks) by (done || set_solver); done.
Qed.
End HashDelete.

(** Bulk deletion removes exactly the bindings that the callback accepts
    (all without one), if no accepted key is empty or starts with [ARRAY::]:
    afterwards a search finds nothing for them and finds the others unchanged. *)
Theorem delete_multi_exact {K V} `{!HashKey K, !HashKeyOk K} (text : K -> string) (fold : string -> K) p seq
    (callback : option (K -> V -> bool)) (h : switch_hashtable K V) :
  (forall k, fold (text k) = k) ->
  (forall k1 k2 v, eqfn k1 k2 = true -> accepts callback k1 v = accepts callback k2 v) ->
  wf h -> entrycount h < 2 ^ 32 -> Forall (fun k => plain_key (text k)) (accepted_keys callback h) ->
  exists h' st, switch_core_hash_delete_multi text fold p seq callback h = Ok (h', st) /\ wf h' /\
    forall k, switch_core_hash_find h' k =
      match switch_core_hash_find h k with
      | Some v => if accepts callback k v then None else Some v
      | None => None
      end.
Proof.
  intros T CB W B F. destruct (keeps_adds text _ blank_event [] keeps_blank F) as (ev & E & [_ _ _ _ Va]).
  exists (fst (delete_keys h (accepted_keys callback h) SWITCH_STATUS_GENERR)),
    (snd (delete_keys h (accepted_keys callback h) SWITCH_STATUS_GENERR)). split; [|split].
  - unfold switch_core_hash_delete_multi.
    change (switch_event_create_subclass_detailed p seq SWITCH_EVENT_CLONE None) with (Ok (Some (blank_event, seq))).
    cbn [mbind outcome_bind]. rewrite E. cbn [mbind outcome_bind].
    rewrite (delete_headers_keys text fold _ h (accepted_keys callback h)) by done. by destruct (delete_keys _ _ _).
  - apply (delete_accepted callback h (fold EmptyString)); done.
  - intros k. by apply (delete_accepted callback h k).
Qed.

(** ** Keys that are lost, and a witness *)

Definition no_prep : prep_env :=
  mk_prep None None None EmptyString EmptyString EmptyString EmptyString 0 None None 0.
Definition w_keys (l : list string) : switch_hashtable string Z :=
  foldl (fun h k => match switch_core_hash_insert_destructor all_ok h k 1 false with Ok (h, _) => h | _ => h end)
    (default (mk_table 0 [] 0 0 0 []) (fst switch_core_hash_init)) l.
Definition w_left (l : list string) : list (option Z) :=
  match switch_core_hash_delete_multi id id no_prep 0 None (w_keys l) with
  | Ok (h, _) => (fun k => switch_core_hash_find h k) <$> l
  | _ => []
  end.

(** All keys are to go. An empty key stays, and so does one that was visited
    before it ([h] shares its bucket); one that looks like an array of one field
    is looked up as that field. *)
Example delete_multi_forgets :
  w_left ["a"; "b"; "c"]%string = [None; None; None] /\
  w_left [""; "h"; "a"]%string = [Some 1; Some 1; None] /\
  w_left ["a"; "ARRAY::b"]%string = [None; Some 1].
Proof. vm_compute. auto. Qed.
