(* ===== verification/EventText.v ===== *)
(** * The text of an event (theorems on [Event])

    Serialization manages the sizes of two buffers; the text is the one that the
    headers and the body ask for. *)
From stdpp Require Import strings pretty.
From Stdlib Require Import String Ascii.
From S2P Require Import Prelude CStrings StringUtils Url Separator EventTypes Event EventVars.
Open Scope Z_scope.
#[local] Notation length := List.length (only parsing).

(** ** The text *)

Definition newline : string := String (chr 10) EmptyString.

Definition value_text (encode : bool) (v : string) : string :=
  if encode then (if String.eqb v EmptyString then "_undef_" else url_text false v)
  else "[" +:+ v +:+ "]".
Definition header_text (encode : bool) (h : switch_event_header) : string :=
  h_name h +:+ ": " +:+ value_text encode (default EmptyString (h_value h)) +:+ newline.
Fixpoint headers_text (encode : bool) (l : list (Z * switch_event_header)) : string :=
  match l with [] => EmptyString | (_, h) :: l => header_text encode h +:+ headers_text encode l end.
Definition body_text (b : option string) : string :=
  match b with
  | Some (String _ _ as b) => "Content-Length: " +:+ pretty (slen b) +:+ newline +:+ newline +:+ b
  | _ => newline
  end.
Definition event_text (encode : bool) (ev : switch_event) : string :=
  headers_text encode (headers ev) +:+ body_text (body ev).

(** Values are there and not empty, arrays have 511 characters at most. *)
Definition printable (h : switch_event_header) : Prop :=
  exists v, h_value h = Some v /\ v <> EmptyString /\ (h_array h = [] \/ slen v <= 511).

(** ** Room *)

Lemma fit_all s n : slen s < n -> fit n s = s.
Proof.
  revert n. induction s as [|c s IH]; intros n H; [done|]. cbn [fit slen] in *. pose proof (slen_pos s).
  rewrite (proj2 (Z.leb_gt n 1)) by lia. by rewrite IH by lia.
Qed.

(** At least two bytes are free behind the text, the terminator counted. *)
Definition roomy (s : serial) : Prop := slen (buf s) + 2 <= dlen s /\ 1536 <= encode_len s.

Lemma print_spec s llen text : slen (buf s) <= dlen s -> slen text < llen ->
  print s llen text = mk_serial (buf s +:+ text) (dlen (print s llen text)) (encode_len s) /\
  slen (buf s) + llen <= dlen (print s llen text).
Proof.
  intros R H. pose proof (slen_pos text). pose proof (slen_pos (buf s)). unfold print. cbn [dlen].
  destruct (Z.ltb_spec (dlen s) (slen (buf s) + llen)); (split; [rewrite fit_all by (unfold blocksize; lia); done|unfold blocksize; lia]).
Qed.

Lemma url_text_pos v : v <> EmptyString -> url_text false v <> EmptyString.
Proof. destruct v as [|c v]; [done|]. intros _. cbn [url_text]. by destruct (negb _ && _). Qed.

Lemma url_length_max v : url_length false v <= 3 * slen v.
Proof. induction v as [|c v IH]; [done|]. cbn [url_length slen]. destruct (negb _ && _); lia. Qed.

(** What the encoding buffer holds. *)
Lemma value_spec (encode : bool) v len : v <> EmptyString -> 1536 <= len -> (3 * slen v < len) ->
  exists enc, (if encode then switch_url_encode v len else Ok (fit len ("[" +:+ v +:+ "]"))) = Ok enc /\
    enc <> EmptyString /\ enc = value_text encode v.
Proof.
  intros N L1 L2. pose proof (slen_pos v). pose proof (url_length_max v). unfold value_text. destruct encode.
  - exists (url_text false v). rewrite (proj2 (String.eqb_neq v _)) by done. split_and!; [|by apply url_text_pos|done].
    unfold switch_url_encode, switch_url_encode_opt. rewrite (proj2 (Z.eqb_neq len 0)) by lia.
    by rewrite url_encode_enough by lia.
  - exists ("[" +:+ v +:+ "]"). split_and!; [|done|done]. rewrite fit_all; [done|].
    rewrite !slen_sapp. change (slen "[") with 1. change (slen "]") with 1.
    assert (1 <= slen v) by (destruct v; [done|]; cbn; pose proof (slen_pos v); lia). lia.
Qed.

Lemma header_spec encode s h : roomy s -> printable h ->
  exists s', serialize_header encode s h = Ok s' /\ roomy s' /\ buf s' = buf s +:+ header_text encode h.
Proof.
  intros [R1 R2] (v & V & N & A). unfold serialize_header, header_text. rewrite V. cbv zeta.
  set (len := Z.max _ _). change (default EmptyString (Some v)) with v.
  destruct (value_spec encode v len N) as (enc & -> & NE & <-); [subst len; lia| |].
  { subst len. destruct A as [A|A]; [rewrite A; lia|lia]. }
  rewrite (proj2 (String.eqb_neq enc _)) by done. change (String (chr 10) EmptyString) with newline.
  set (text := h_name h +:+ _). assert (T : slen text = slen (h_name h) + slen enc + 3).
  { subst text. rewrite !slen_sapp. change (slen ": ") with 2. change (slen newline) with 1. lia. }
  destruct (print_spec (mk_serial (buf s) (dlen s) len) (slen (h_name h) + slen enc + 8) text) as [P D]; [cbn [buf dlen]; lia|lia|].
  eexists. split; [reflexivity|]. rewrite P. split; [|done]. cbn [buf] in *. split; cbn [buf dlen encode_len].
  - rewrite slen_sapp. lia.
  - subst len. lia.
Qed.

Lemma headers_spec encode l : Forall (fun p => printable (snd p)) l -> forall s, roomy s ->
  exists s', serialize_headers encode s l = Ok s' /\ roomy s' /\ buf s' = buf s +:+ headers_text encode l.
Proof.
  induction 1 as [|[i h] l P _ IH]; intros s R; cbn [serialize_headers headers_text].
  - exists s. by rewrite sapp_nil.
  - destruct (header_spec encode s h R P) as (s1 & -> & R1 & B1). destruct (IH s1 R1) as (s2 & -> & R2 & B2).
    exists s2. by rewrite B2, B1, sapp_assoc.
Qed.

(** ** The length of a number *)

Lemma digits_go k : forall n s, (n < 10 ^ N.of_nat k)%N -> slen (pretty_N_go n s) <= slen s + Z.of_nat k.
Proof.
  induction k as [|k IH]; intros n s H.
  - replace n with 0%N by (cbn in H; lia). rewrite pretty_N_go_0. lia.
  - destruct (decide (n = 0%N)) as [->|Z0]; [rewrite pretty_N_go_0; lia|]. rewrite pretty_N_go_step by lia.
    assert (H' : (n `div` 10 < 10 ^ N.of_nat k)%N).
    { apply N.Div0.div_lt_upper_bound. rewrite Nat2N.inj_succ, N.pow_succ_r' in H. done. }
    specialize (IH (n `div` 10)%N (String (pretty_N_char (n `mod` 10)) s) H'). cbn [slen] in IH. lia.
Qed.

Lemma pretty_short n : 0 <= n < 1000000 -> slen (pretty n) <= 6.
Proof.
  intros H. destruct (decide (n = 0)) as [->|N]; [done|]. destruct n as [|p|p]; [done| |lia].
  change (pretty (Z.pos p)) with (pretty (N.pos p)). unfold pretty, pretty_N. rewrite decide_False by done.
  etrans; [apply (digits_go 6)|done]. change (10 ^ N.of_nat 6)%N with 1000000%N. lia.
Qed.

(** The serialization of an event whose headers are printable and whose body
    has less than a million characters is its reference text: no header is cut
    and no buffer is overrun, however long the values are. *)
Theorem event_serialize_exact ev encode :
  Forall (fun p => printable (snd p)) (headers ev) -> (forall b, body ev = Some b -> slen b < 1000000) ->
  switch_event_serialize ev encode = Ok (event_text encode ev).
Proof.
  intros P B. unfold switch_event_serialize, event_text. change (String (chr 10) EmptyString) with newline.
  destruct (headers_spec encode (headers ev) P (mk_serial EmptyString (blocksize * 2) 1536)) as (s & -> & [R1 R2] & T);
    [done|]. cbn [buf] in T. rewrite sapp_empty in T. rewrite <- T.
  destruct (body ev) as [[|c b]|] eqn:Eb; cbn [body_text].
  - change (slen "" =? 0) with true. cbv iota. rewrite (proj1 (print_spec s (slen "" + 5) newline ltac:(lia) eq_refl)). done.
  - specialize (B _ eq_refl). set (t := String c b) in *. pose proof (slen_pos b).
    assert (1 <= slen t) by (cbn; lia). rewrite (proj2 (Z.eqb_neq (slen t) 0)) by lia.
    set (x := _ +:+ _). destruct (print_spec s (slen t + 25) x) as [-> _]; [lia| |done]. subst x.
    rewrite !slen_sapp. change (slen "Content-Length: ") with 16. change (slen newline) with 1.
    pose proof (pretty_short (slen t)). lia.
  - rewrite fit_all; [done|]. change (slen newline) with 1. lia.
Qed.

(** An array of many short values does not fit the encoding buffer, whose size is
    computed without the separators: its text is cut. *)
Lemma event_serialize_cut :
  let a := replicate 600 "x"%string in
  let h := mk_header "v" (Some (array_value a)) a (switch_ci_hashfunc_default "v") in
  let ev := blank_event <| headers := [(0, h)] |> <| last_header := Some 0 |> in
  exists s, switch_event_serialize ev true = Ok s /\ slen s < slen (event_text true ev) - 1000.
Proof. eexists. split; vm_compute; reflexivity. Qed.

Lemma event_serialize_exact_witness :
  switch_event_serialize (w_event <| body := Some "hello"%string |>) true =
    Ok (event_text true (w_event <| body := Some "hello"%string |>)).
Proof.
  apply event_serialize_exact.
  - assert (H : forall p, p ∈ headers (w_event <| body := Some "hello"%string |>) -> printable (snd p)); [|by apply Forall_forall].
    intros p Hp. vm_compute in Hp.
    repeat (apply elem_of_cons in Hp as [->|Hp]; [eexists; split; [reflexivity|split; [discriminate|right; vm_compute; discriminate]]|]).
    by apply elem_of_nil in Hp.
  - intros b [= <-]. reflexivity.
Defined.
