(* ===== verification/EventBind.v ===== *)
(** * Event bindings and delivery (src/switch_event.c)

    Listeners bind callbacks to an event type, or to all of them, and events are
    delivered to the bindings that match.  A node of the lists is numbered in the
    order of binding; a callback and its user data are numbers.  [CUSTOM_HASH] is
    a string table of [Hashtable], used here by its contract, a finite map. *)
From stdpp Require Import strings functions.
From Stdlib Require Import String Ascii.
From S2P Require Import Prelude CStrings StringUtils Separator EventTypes Event.
Open Scope Z_scope.
#[local] Notation length := List.length (only parsing).

Record switch_event_node := mk_node {
  node_id : string;
  node_event : switch_event_types;
  node_subclass : option string;
  callback : Z;
  node_data : Z
}.
Record switch_event_subclass := mk_subclass { owner : string; sub_bind : bool }.

(** The static variables; [next_node] is the number of the next node. *)
Record event_system := mk_system {
  EVENT_NODES : switch_event_types -> list (Z * switch_event_node);
  CUSTOM_HASH : gmap string switch_event_subclass;
  SYSTEM_RUNNING : bool;
  next_node : Z
}.
#[export] Instance eta_system : Eta event_system := fun s =>
  mk_system (EVENT_NODES s) (CUSTOM_HASH s) (SYSTEM_RUNNING s) (next_node s).

(** ** Subclasses *)

Definition switch_event_free_subclass_detailed (st : event_system) (who name : string)
  : event_system * switch_status :=
  match CUSTOM_HASH st !! name with
  | Some sub =>
    if String.eqb who (owner sub) then (st <| CUSTOM_HASH := delete name (CUSTOM_HASH st) |>, SWITCH_STATUS_SUCCESS)
    else (st <| CUSTOM_HASH := <[name := mk_subclass (owner sub) true]> (CUSTOM_HASH st) |>, SWITCH_STATUS_FALSE)
  | None => (st, SWITCH_STATUS_FALSE)
  end.

Definition switch_event_reserve_subclass_detailed (st : event_system) (who name : string)
  : event_system * switch_status :=
  match CUSTOM_HASH st !! name with
  | Some sub =>
    if sub_bind sub
    then (st <| CUSTOM_HASH := <[name := mk_subclass (owner sub) false]> (CUSTOM_HASH st) |>, SWITCH_STATUS_SUCCESS)
    else (st, SWITCH_STATUS_INUSE)
  | None => (st <| CUSTOM_HASH := <[name := mk_subclass who false]> (CUSTOM_HASH st) |>, SWITCH_STATUS_SUCCESS)
  end.

(** ** Binding *)

Definition bind_subclass (st : event_system) (who : string) (subclass : option string) : event_system :=
  match subclass with
  | None => st
  | Some name =>
    match CUSTOM_HASH st !! name with
    | Some _ => st
    | None =>
      let st := fst (switch_event_reserve_subclass_detailed st who name) in
      match CUSTOM_HASH st !! name with
      | Some sub => st <| CUSTOM_HASH := <[name := mk_subclass (owner sub) true]> (CUSTOM_HASH st) |>
      | None => st
      end
    end
  end.

(** The node that is linked at the front of its list. *)
Definition switch_event_bind_removable (st : event_system) (n : switch_event_node) : event_system * Z :=
  let st := bind_subclass st (node_id n) (node_subclass n) in
  let id := next_node st in
  (st <| EVENT_NODES := <[node_event n := (id, n) :: EVENT_NODES st (node_event n)]> (EVENT_NODES st) |>
      <| next_node := id + 1 |>, id).
Definition switch_event_bind (st : event_system) (n : switch_event_node) : event_system :=
  fst (switch_event_bind_removable st n).



(** ** Delivery *)



(** ** One list of bindings

    What listeners can rely on: the bindings in force, the newest first. *)

Notation bindings := (list (Z * switch_event_node)) (only parsing).














(** A reservation can be taken over: an attempt to release it by somebody else,
    refused, leaves it open to the next reservation. *)
Lemma event_subclass_taken_over st a b name : a <> b -> CUSTOM_HASH st !! name = Some (mk_subclass a false) ->
  let st1 := fst (switch_event_free_subclass_detailed st b name) in
  snd (switch_event_reserve_subclass_detailed st b name) = SWITCH_STATUS_INUSE /\
  snd (switch_event_free_subclass_detailed st b name) = SWITCH_STATUS_FALSE /\
  snd (switch_event_reserve_subclass_detailed st1 b name) = SWITCH_STATUS_SUCCESS.
Proof.
  intros N H. unfold switch_event_reserve_subclass_detailed, switch_event_free_subclass_detailed. rewrite H. cbn.
  rewrite (proj2 (String.eqb_neq b a)) by done. cbn. rupd. by rewrite lookup_insert_eq.
Qed.
