(* ===== verification/TextChecks.v ===== *)
(** * Tests of texts (src/include/switch_utils.h, src/switch_utils.c)

    Which texts refer to variables and how such references are disabled, the
    cleaning of texts that come from the network, brackets that belong together,
    and the tests of file names. *)
From stdpp Require Import strings.
From S2P Require Import Prelude CStrings StringUtils Separator.
From Stdlib Require Import String Ascii.
Open Scope Z_scope.
#[local] Notation length := List.length (only parsing).

Definition DOLLAR : ascii := "$"%char.
Definition BRACE : ascii := "{"%char.

(** ** References to variables *)

(** [dol]: a dollar was seen, with nothing but backslashes since. *)
Fixpoint var_check_from (dol : bool) (s : string) : bool :=
  match s with
  | EmptyString => false
  | String c s =>
    if c =c DOLLAR then var_check_from true s
    else if dol then
      if c =c BRACE then true
      else if negb (c =c ESCAPE_META) then var_check_from false s else var_check_from true s
    else var_check_from false s
  end.
Definition switch_string_var_check_const (s : string) : bool := var_check_from false s.

(** The text that [switch_string_var_check] leaves when it disables references,
    [dol] being the number of backslashes since a dollar that is not written
    yet: the dollar becomes a percent sign if a brace follows. *)
Fixpoint backslashes (n : nat) (s : string) : string :=
  match n with O => s | S n => String ESCAPE_META (backslashes n s) end.
Definition after_dollar (dol : option nat) (d : ascii) (s : string) : string :=
  match dol with None => s | Some n => String d (backslashes n s) end.
Fixpoint disable_from (dol : option nat) (s : string) : string :=
  match s with
  | EmptyString => after_dollar dol DOLLAR s
  | String c s =>
    if c =c DOLLAR then after_dollar dol DOLLAR (disable_from (Some O) s)
    else match dol with
         | Some n =>
           if c =c BRACE then after_dollar dol "%" (String c (disable_from None s))
           else if negb (c =c ESCAPE_META) then after_dollar dol DOLLAR (String c (disable_from None s))
           else disable_from (Some (Datatypes.S n)) s
         | None => String c (disable_from None s)
         end
  end.
(** The value and the text after the call. *)
Definition switch_string_var_check (s : string) (disable : bool) : bool * string :=
  if disable then (false, disable_from None s) else (var_check_from false s, s).
Definition switch_var_clean_string (s : string) : string := (switch_string_var_check s true).2.

(** The loop goes on at the next backslash. *)
Fixpoint escaped_data (n : nat) (i : string) : bool :=
  match n, snd (split_at_char ESCAPE_META i) with
  | Datatypes.S n, Some i =>
    let c := head i in
    if (c =c ESCAPE_META) || (c =c "n") || (c =c "s") || (c =c "t") || (c =c QUOTE) then true
    else escaped_data n i
  | _, _ => false
  end.
Definition switch_string_has_escaped_data (s : string) : bool := escaped_data (String.length s) s.

(** ** Cleaning *)

Fixpoint switch_clean_string (s : string) : string :=
  match s with
  | EmptyString => EmptyString
  | String c s =>
    String (if (ord c <? 32) && negb (c =c chr 10) && negb (c =c chr 13) then SPACE else c) (switch_clean_string s)
  end.

Definition name_char (c : ascii) : ascii :=
  if (ord c <? 32) || (c =c QUOTE) || (c =c DQUOTE) || (c =c "<") || (c =c ">") || (c =c ESCAPE_META) || (c =c ":")
     || (c =c "@") || (c =c "/")
  then SPACE else c.
(** [start]: nothing but blanks so far; they are skipped. *)
Fixpoint clean_name_from (start : bool) (s : string) : string :=
  match s with
  | EmptyString => EmptyString
  | String c s =>
    let c := name_char c in
    if start && (c =c SPACE) then clean_name_from true s else String c (clean_name_from false s)
  end.
Definition switch_clean_name_string (s : string) : string := clean_name_from true s.

(** What follows the last occurrence of a character. *)
Fixpoint after_last (c : ascii) (s : string) : string :=
  match s with
  | EmptyString => EmptyString
  | String d q => if strchr q c then after_last c q else if d =c c then q else s
  end.
Definition switch_sanitize_number (number : string) : string :=
  if negb (strchr number "/" || strchr number ":" || strchr number "@") then number
  else after_last ":" (after_last "/" (fst (split_at_char "@" number))).

(** ** Brackets *)

(** The text between [open] and the [close] that belongs to it, and what follows. *)
Fixpoint end_paren (open close : ascii) (depth : Z) (e : string) : option (string * string) :=
  match e with
  | EmptyString => None
  | String c q =>
    let more d := match end_paren open close d q with Some (a, b) => Some (String c a, b) | None => None end in
    if (c =c open) && negb (open =c close) then more (depth + 1)
    else if c =c close then
      if depth - 1 =? 0 then Some (EmptyString, q) else more (depth - 1)
    else more depth
  end.
Definition switch_find_end_paren (s : string) (open close : ascii) : option (string * string) :=
  match skip_spaces s with
  | String c e => if c =c open then end_paren open close 1 e else None
  | EmptyString => None
  end.

(** [NULL], or the rest from the first [find], empty where there is none. *)
Fixpoint strchr_strict_from (find : ascii) (allowed : option string) (p : string) : option string :=
  match p with
  | EmptyString => Some p
  | String c q =>
    if c =c find then Some p
    else if match allowed with None => true | Some a => strchr a c end then strchr_strict_from find allowed q
    else None
  end.
Definition switch_strchr_strict (s : string) (find : ascii) (allowed : option string) : option string :=
  match s with EmptyString => None | _ => strchr_strict_from find allowed s end.

(** ** File names *)

(** The loop over leading parameters in braces; [None]: more than [n] turns. *)
Fixpoint skip_params (n : nat) (file : string) : option string :=
  match n with
  | O => None
  | Datatypes.S n =>
    match file with
    | String c _ =>
      if c =c BRACE then
        match switch_find_end_paren file BRACE "}" with
        | Some (_, rest) => skip_params n (skip_spaces rest)
        | None => skip_params n file
        end
      else Some file
    | EmptyString => Some file
    end
  end.
Definition switch_is_file_path (n : nat) (file : option string) : option bool :=
  if zstr file then Some false
  else
    match skip_params n (default EmptyString file) with
    | None => None
    | Some file =>
      Some ((head file =c "/") || match strstr "://" file with Some _ => true | None => false end)
    end.

(** The file and the parameters before it; [gap] is the blanks since the last
    brace.  With no closing brace a null pointer is moved and read. *)
Fixpoint separate_params (n : nat) (params : option string) (gap file : string) : outcome (string * option string) :=
  match file with
  | String c _ =>
    if c =c BRACE then
      match n, switch_find_end_paren file BRACE "}" with
      | Datatypes.S n, Some (inside, rest) =>
        let next := skip_spaces rest in
        let blanks := String.substring 0 (String.length rest - String.length next) rest in
        separate_params n (Some (default EmptyString params +:+ gap +:+ String c inside +:+ "}")) blanks next
      | _, _ => UB
      end
    else Ok (file, params)
  | EmptyString => Ok (file, params)
  end.
Definition switch_separate_file_params (file : string) : outcome (string * option string) :=
  separate_params (String.length file) None EmptyString file.

(** ** Disabled references *)

Lemma check_backslashes b n s : var_check_from b (backslashes n s) = var_check_from b s.
Proof. induction n as [|n IH]; [done|]. cbn. destruct b; exact IH. Qed.

Lemma disable_checked s :
  var_check_from false (disable_from None s) = false /\ forall b n, var_check_from b (disable_from (Some n) s) = false.
Proof.
  induction s as [|c s [IHn IHs]].
  - split; [done|]. intros b n. cbn. by rewrite check_backslashes.
  - split; [|intros b n]; cbn [disable_from]; destruct (c =c DOLLAR) eqn:D; cbn [after_dollar]; [by apply IHs| | |].
    + cbn. rewrite D. exact IHn.
    + cbn. rewrite check_backslashes. apply IHs.
    + destruct (c =c BRACE) eqn:B; [|destruct (c =c ESCAPE_META) eqn:E; cbn [negb]; [apply IHs|]].
      * apply Ascii.eqb_eq in B as ->. cbn. destruct b; cbn; rewrite check_backslashes; exact IHn.
      * cbn -[ESCAPE_META]. rewrite check_backslashes. cbn -[ESCAPE_META]. by rewrite D, B, E.
Qed.
Lemma var_clean_checked s : switch_string_var_check_const (switch_var_clean_string s) = false.
Proof. apply disable_checked. Qed.

(** A text without references is not changed. *)
Lemma disable_none s :
  (var_check_from false s = false -> disable_from None s = s) /\
  (var_check_from true s = false -> forall n, disable_from (Some n) s = String DOLLAR (backslashes n s)).
Proof.
  induction s as [|c s [IHn IHs]]; [done|]. cbn -[ESCAPE_META]. destruct (c =c DOLLAR) eqn:D.
  - apply Ascii.eqb_eq in D as ->. split; intros N; [|intros n]; rewrite (IHs N); done.
  - split; [by intros N%IHn; rewrite N|]. destruct (c =c BRACE); [done|]. destruct (c =c ESCAPE_META) eqn:E; cbn [negb after_dollar].
    + apply Ascii.eqb_eq in E as ->. intros N n. rewrite (IHs N). f_equal. clear. induction n as [|n IH]; [done|]. cbn -[ESCAPE_META] in *. by rewrite IH.
    + intros N%IHn n. by rewrite N.
Qed.
Lemma var_clean_same s : switch_string_var_check_const s = false -> switch_var_clean_string s = s.
Proof. apply disable_none. Qed.

Lemma unchecked_chars s : strchr s DOLLAR = false -> switch_string_var_check_const s = false.
Proof.
  unfold switch_string_var_check_const. induction s as [|c s IH]; [done|]. cbn [strchr]. intros [D N]%orb_false_elim.
  cbn [var_check_from]. rewrite D. by apply IH.
Qed.

(** ** Brackets *)

Inductive balanced (open close : ascii) : string -> Prop :=
| balanced_nil : balanced open close EmptyString
| balanced_char c s : c <> open -> c <> close -> balanced open close s -> balanced open close (String c s)
| balanced_group s t : balanced open close s -> balanced open close t ->
    balanced open close (String open (s +:+ String close t)).

Lemma end_paren_balanced open close s : open <> close -> balanced open close s -> forall d rest, 1 <= d ->
  end_paren open close d (s +:+ rest) =
  match end_paren open close d rest with Some (a, b) => Some (s +:+ a, b) | None => None end.
Proof.
  intros N. assert (OC : (open =c close) = false) by (by apply Ascii.eqb_neq).
  induction 1 as [|c s Nc Nd _ IH|s t _ IHs _ IHt]; intros d rest D.
  - rewrite sapp_empty. destruct (end_paren open close d rest) as [[a b]|]; [|done]. by rewrite sapp_empty.
  - rewrite sapp_cons. cbn [end_paren]. apply Ascii.eqb_neq in Nc as ->. apply Ascii.eqb_neq in Nd as ->. cbn [andb].
    rewrite IH by done. destruct (end_paren open close d rest) as [[a b]|]; [|done]. by rewrite sapp_cons.
  - rewrite sapp_cons, sapp_assoc, sapp_cons. cbn [end_paren]. rewrite Ascii.eqb_refl, OC. cbn [andb negb].
    rewrite IHs by lia. cbn [end_paren]. rewrite (Ascii.eqb_sym close), OC, Ascii.eqb_refl. cbn [andb].
    replace (d + 1 - 1) with d by lia. replace (d =? 0) with false by lia. rewrite IHt by done.
    destruct (end_paren open close d rest) as [[a b]|]; [|done].
    by rewrite sapp_cons, sapp_assoc, sapp_cons.
Qed.

Lemma find_end_paren_balanced open close s rest : open <> close -> open <> SPACE -> balanced open close s ->
  switch_find_end_paren (String open (s +:+ String close rest)) open close = Some (s, rest).
Proof.
  intros N NS B. unfold switch_find_end_paren. cbn [skip_spaces]. apply Ascii.eqb_neq in NS as ->.
  rewrite Ascii.eqb_refl, (end_paren_balanced open close s N B) by lia. cbn [end_paren].
  assert (OC : (close =c open) = false) by (apply Ascii.eqb_neq; congruence). rewrite OC, Ascii.eqb_refl. cbn [andb].
  change (1 - 1 =? 0) with true. cbv iota. by rewrite sapp_nil.
Qed.

(** ** Defects *)

(** Where a brace is not closed the test of a file name does not end. *)
Lemma file_path_loops n file : switch_find_end_paren (String BRACE file) BRACE "}" = None ->
  switch_is_file_path n (Some (String BRACE file)) = None.
Proof.
  intros N. unfold switch_is_file_path. cbn [zstr].
  change (default EmptyString (Some (String BRACE file))) with (String BRACE file). induction n as [|n IH]; [done|].
  cbn [skip_params]. rewrite N, Ascii.eqb_refl. exact IH.
Qed.
(** And the parameters of a file are looked for at a null pointer. *)
Lemma file_params_null : switch_separate_file_params "{loops=2/tmp/x.wav" = UB.
Proof. by vm_compute. Qed.
