(* ===== verification/Expand.v ===== *)
(** * Expansion of variables and calls in texts (src/switch_channel.c, src/switch_event.c)

    [switch_channel_expand_variables_check] and its twin
    [switch_event_expand_headers_check] replace [${name}], [${name:offset:length}],
    [${name[index]}] and [${function(arguments)}] in a text; names, arguments and
    values are expanded in their turn, to a depth of a hundred.  The text is
    scanned with [scan], which the two share; the text still to be read is what
    the pointer [p] points to.  Calls of functions may change everything: the
    state is passed through them. *)
From stdpp Require Import strings.
From S2P Require Import Prelude CStrings StringUtils Url Separator EventTypes Event TextChecks.
From Stdlib Require Import String Ascii.
Open Scope Z_scope.
#[local] Notation length := List.length (only parsing).

(** ** The buffer of the result *)

Class TextBuffer (B : Type) := {
  tb_new : Z -> outcome B;
  tb_put : B -> ascii -> outcome B;
  tb_puts : B -> string -> outcome B;
  tb_text : B -> string
}.

(** [data], of [block] bytes; the bytes behind the text are zero.  [olen] is what
    the code takes for its size, which is wrong after [realloc] has failed. *)
Record buffer := mk_buffer { text : string; olen : Z; block : Z }.
#[export] Instance eta_buffer : Eta buffer := fun b => mk_buffer (text b) (olen b) (block b).

Section Buffer.
(** Whether [realloc] gives that many bytes. *)
Context (realloc : Z -> bool).

Definition resize (l : Z) (b : buffer) : outcome buffer :=
  let b := b <| olen := size_t (olen b + (slen (text b) + l + 128)) |> in
  if realloc (olen b) then if slen (text b) <=? olen b then Ok (b <| block := olen b |>) else UB else Ok b.
Definition put_char (b : buffer) (c : ascii) : outcome buffer :=
  let* b := (if olen b <=? slen (text b) + 1 then resize 1 b else Ok b) in
  if slen (text b) <? block b then Ok (b <| text := text b +:+ String c EmptyString |>) else UB.
(** [strcat] writes a terminator too. *)
Definition put_string (b : buffer) (s : string) : outcome buffer :=
  let nlen := slen s in
  if nlen =? 0 then Ok b
  else
    let* b := (if olen b <=? slen (text b) + nlen then resize nlen b else Ok b) in
    if slen (text b) + nlen + 1 <=? block b then Ok (b <| text := text b +:+ s |>) else UB.

#[global] Instance growing : TextBuffer buffer := {|
  tb_new olen := Ok (mk_buffer EmptyString olen olen); tb_put := put_char; tb_puts := put_string; tb_text := text
|}.
End Buffer.

(** The reference: a text of less than a gigabyte, whatever its allocation. *)
Definition LIMIT : Z := 2 ^ 30.
Definition within (s : string) : outcome string := if slen s <? LIMIT then Ok s else Assert.
#[export] Instance limited : TextBuffer string := {|
  tb_new olen := if (0 <? olen) && (olen <? LIMIT) then Ok EmptyString else Assert;
  tb_put t c := within (t +:+ String c EmptyString); tb_puts t s := within (t +:+ s); tb_text t := t
|}.

(** ** Names, indices, calls *)

(** The loop behind [${], with [br] braces open: the text up to the brace that
    closes the last one, and what follows. *)
Fixpoint braced (first : bool) (br : Z) (e : string) : string * string * Z :=
  match e with
  | EmptyString => (EmptyString, EmptyString, br)
  | String c q =>
    if (br =? 1) && (c =c "}") then (EmptyString, q, 0)
    else
      let br := if 0 <? br then
                  if negb first && (c =c BRACE) then br + 1 else if (1 <? br) && (c =c "}") then br - 1 else br
                else br in
      let '(v, r, br) := braced false br q in (String c v, r, br)
  end.

(** A blank or a parenthesis ends the name of a function. *)
Fixpoint split_call (s : string) : option (string * bool * string) :=
  match s with
  | EmptyString => None
  | String c q =>
    if c =c SPACE then Some (EmptyString, false, q)
    else if c =c "(" then Some (EmptyString, true, q)
    else match split_call q with Some (a, paren, r) => Some (String c a, paren, r) | None => None end
  end.
Fixpoint call_args (br : Z) (e : string) : string :=
  match e with
  | EmptyString => EmptyString
  | String c q =>
    if c =c "(" then String c (call_args (br + 1) q)
    else if (1 <? br) && (c =c ")") then String c (call_args (br - 1) q)
    else if (br =? 1) && (c =c ")") then EmptyString
    else String c (call_args br q)
  end.

Record reference := mk_reference { var_name : string; index : Z; offset : Z; ooffset : Z }.
Definition parse_reference (vname : string) : reference :=
  let '(vname, tail) := split_at_char ":" vname in
  let offset := match tail with Some ptr => c_atoi ptr | None => 0 end in
  let ooffset := match tail with
                 | Some ptr => match snd (split_at_char ":" ptr) with Some ptr => c_atoi ptr | None => 0 end
                 | None => 0
                 end in
  match split_at_char "[" vname with
  | (name, Some ptr) => if strchr ptr "]" then mk_reference name (c_atoi ptr) offset ooffset
                        else mk_reference vname (-1) offset ooffset
  | (_, None) => mk_reference vname (-1) offset ooffset
  end.

Definition stake (n : Z) (s : string) : string := String.substring 0 (Z.to_nat n) s.
(** [ooffset] cuts what is left behind [offset]. *)
Definition cut_at (ooffset : Z) (s : string) : string :=
  if (0 <? ooffset) && (ooffset <? slen s) then stake ooffset s else s.
Definition negative_offset (offset : Z) (v : string) : string :=
  if Z.abs offset <=? slen v then skip_chars (Z.to_nat (slen v + offset)) v else v.
Definition channel_slice (r : reference) (v : string) : string :=
  cut_at (ooffset r)
    (if 0 <=? offset r then if slen v <? offset r then EmptyString else skip_chars (Z.to_nat (offset r)) v
     else negative_offset (offset r) v).
(** The twin does not compare the offset with the length. *)
Definition event_slice (r : reference) (v : string) : outcome string :=
  if 0 <=? offset r then
    if slen v <? offset r then UB else Ok (cut_at (ooffset r) (skip_chars (Z.to_nat (offset r)) v))
  else Ok (cut_at (ooffset r) (negative_offset (offset r) v)).

(** ** Permissions *)

Definition EF_DEFAULT_ALLOW : Z := 4.
Definition switch_event_check_permission_list (list : option switch_event) (name : string) : bool :=
  match list with
  | None => true
  | Some ev =>
    let default_allow := test_flag (ev_flags ev) EF_DEFAULT_ALLOW in
    match headers ev with
    | [] => default_allow
    | _ => match switch_event_get_header ev name with
           | Some v => negb (head v =c "d")
           | None => default_allow
           end
    end
  end.

(** ** Scanning *)

(** A C string ends at its first zero. *)
Definition c_string (s : string) : string := fst (split_at_char NUL s).

Section Scan.
Context {St B : Type} `{TextBuffer B}.
(** [expand] is the recursive call; [value] what a reference stands for; [api] is
    [switch_api_execute], whose output is [None] when it fails. *)
Context (api : St -> string -> string -> St * option string) (api_expansion : bool) (api_list : option switch_event).
Context (api_denied : string).
Context (value : (string -> St -> outcome (St * string)) -> bool -> reference -> St -> outcome (St * option string)).

Section Loop.
Context (expand : string -> St -> outcome (St * string)).

Definition call (name args : string) (st : St) : outcome (St * option string) :=
  let* (st, name) := expand name st in
  let* (st, args) := expand args st in
  if negb api_expansion || negb (switch_event_check_permission_list api_list name) then Ok (st, Some api_denied)
  else Ok (api st name args).

(** What stands behind [${]: its value and the text that follows. *)
Definition variable (global : bool) (s : string) (st : St) : outcome (St * option string * string) :=
  let '(vname, rest, br) := braced true 1 s in
  let* (st, v) := (match split_call vname with
                   | Some (name, paren, args) => call name (call_args (if paren : bool then 1 else br) args) st
                   | None => let* (st, vname) := expand vname st in value expand global (parse_reference vname) st
                   end) in
  Ok (st, v, rest).

(** After a reference the character at [p] is copied, the terminator too; a
    dollar is looked at again. *)
Fixpoint scan (n : nat) (b : B) (p : string) (st : St) : outcome (St * B) :=
  match n with
  | O => UB
  | Datatypes.S n =>
    let copy c q := let* b := tb_put b c in scan n b q st in
    match p with
    | EmptyString => Ok (st, b)
    | String c q =>
      if c =c ESCAPE_META then
        match q with
        | String d r =>
          if d =c DOLLAR then copy DOLLAR (match r with String e t => if e =c DOLLAR then t else r | _ => r end)
          else if d =c QUOTE then scan n b r st
          else if d =c ESCAPE_META then copy c r
          else copy c q
        | EmptyString => copy c q
        end
      else if c =c DOLLAR then
        let '(global, q) := match q with
                            | String d r => if d =c DOLLAR then (true, r) else (false, q)
                            | _ => (false, q)
                            end in
        match q with
        | String d s =>
          if d =c BRACE then
            let* (st, v, rest) := variable global s st in
            let* b := (match v with Some v => tb_puts b v | None => Ok b end) in
            match rest with
            | EmptyString => let* b := tb_put b NUL in Ok (st, b)
            | String e r => if e =c DOLLAR then scan n b rest st else let* b := tb_put b e in scan n b r st
            end
          else copy DOLLAR q
        | EmptyString => copy DOLLAR q
        end
      else copy c q
    end
  end.
End Loop.

(** [k] is what is left of the depth; every turn of the loop reads a character. *)
Fixpoint expand (k : nat) (in_ : string) (st : St) : outcome (St * string) :=
  match k with
  | O => Ok (st, in_)
  | Datatypes.S k =>
    if zstr (Some in_) then Ok (st, in_)
    else if switch_string_var_check_const in_ || switch_string_has_escaped_data in_ then
      let* b := tb_new (size_t (slen in_ + 1)) in
      let* (st, b) := scan (expand k) (Datatypes.S (String.length in_)) b in_ st in
      Ok (st, c_string (tb_text b))
    else Ok (st, in_)
  end.
End Scan.

Definition DEPTH : nat := 101.
Definition VAR_DENIED : string := "<Variable Expansion Permission Denied>".

(** ** The two functions *)

Section Functions.
Context {St B : Type} `{TextBuffer B}.
Context (api : St -> string -> string -> St * option string) (api_expansion : bool).
Context (var_list api_list : option switch_event).

(** [get_variable] is [switch_channel_get_variable_dup] of the channel. *)
Definition channel_value (get_variable : St -> string -> Z -> option string)
    (expand : string -> St -> outcome (St * string)) (global : bool) (r : reference) (st : St)
  : outcome (St * option string) :=
  match get_variable st (var_name r) (index r) with
  | None => Ok (st, None)
  | Some v =>
    let v := if switch_event_check_permission_list var_list (var_name r) then v else VAR_DENIED in
    let* (st, v) := expand v st in Ok (st, Some (channel_slice r v))
  end.
Definition switch_channel_expand_variables_check (get_variable : St -> string -> Z -> option string)
    (in_ : string) (st : St) : outcome (St * string) :=
  expand api api_expansion api_list "<API Execute Permission Denied>" (channel_value get_variable) DEPTH in_ st.

(** [get_header] is [switch_event_get_header_idx] of the event, [core_variable]
    the copy of a global variable.  The permission is asked and the value is
    expanded for global variables only. *)
Definition event_value (get_header : St -> string -> Z -> option string) (core_variable : St -> string -> option string)
    (expand : string -> St -> outcome (St * string)) (global : bool) (r : reference) (st : St)
  : outcome (St * option string) :=
  match (if global then None else get_header st (var_name r) (index r)) with
  | Some v => let* v := event_slice r v in Ok (st, Some v)
  | None =>
    let sub_val := if switch_event_check_permission_list var_list (var_name r) then core_variable st (var_name r)
                   else Some VAR_DENIED in
    match sub_val with
    | None => Ok (st, None)
    | Some v => let* (st, v) := expand v st in let* v := event_slice r v in Ok (st, Some v)
    end
  end.
Definition switch_event_expand_headers_check (get_header : St -> string -> Z -> option string)
    (core_variable : St -> string -> option string) (in_ : string) (st : St) : outcome (St * string) :=
  expand api api_expansion api_list "<API execute Permission Denied>" (event_value get_header core_variable) DEPTH in_ st.
End Functions.
