(* ===== verification/ExpandText.v ===== *)
(** * What expanded texts are

    The buffer that grows by [realloc] holds what an unbounded text would
    ([expand_refines]); literal text and references come out as they are meant
    ([expand_template]); texts in which references were disabled are expanded
    without any look-up or call ([expand_inert]). *)
From stdpp Require Import strings.
From S2P Require Import Prelude CStrings StringUtils Url Separator EventTypes Event TextChecks Expand.
From Stdlib Require Import String Ascii.
Open Scope Z_scope.
#[local] Notation length := List.length (only parsing).

(** ** Simulation of buffers *)

Definition refines {A} (concrete abstract : outcome A) : Prop := forall a, abstract = Ok a -> concrete = Ok a.
Definition refines_by {A B} (R : A -> B -> Prop) (concrete : outcome A) (abstract : outcome B) : Prop :=
  forall b, abstract = Ok b -> exists a, concrete = Ok a /\ R a b.

(** What a client of a buffer may rely on to replace one by another. *)
Class BufferSim {B C : Type} `{TextBuffer B, TextBuffer C} (R : B -> C -> Prop) : Prop := {
  sim_new n : refines_by R (tb_new n) (tb_new n);
  sim_put b c x : R b c -> refines_by R (tb_put b x) (tb_put c x);
  sim_puts b c s : R b c -> refines_by R (tb_puts b s) (tb_puts c s);
  sim_text b c : R b c -> tb_text b = tb_text c
}.

Section Simulation.
Context {St B C : Type} `{HB : TextBuffer B, HC : TextBuffer C} (R : B -> C -> Prop) {SIM : BufferSim R}.
Context (api : St -> string -> string -> St * option string) (api_expansion : bool) (api_list : option switch_event).
Context (api_denied : string).
Context (value : (string -> St -> outcome (St * string)) -> bool -> reference -> St -> outcome (St * option string)).
Context (MONO : forall e1 e2 g r st, (forall s st, refines (e1 s st) (e2 s st)) -> refines (value e1 g r st) (value e2 g r st)).

Section Loop.
Context (e1 e2 : string -> St -> outcome (St * string)) (E : forall s st, refines (e1 s st) (e2 s st)).

Lemma call_sim name args st :
  refines (call api api_expansion api_list api_denied e1 name args st) (call api api_expansion api_list api_denied e2 name args st).
Proof using E.
  unfold call, refines. intros a. destruct (e2 name st) as [[st1 n]| |] eqn:E1; try done. rewrite (E _ _ _ E1).
  destruct (e2 args st1) as [[st2 x]| |] eqn:E2; try done. by rewrite (E _ _ _ E2).
Qed.
Lemma variable_sim g s st :
  refines (variable api api_expansion api_list api_denied value e1 g s st)
    (variable api api_expansion api_list api_denied value e2 g s st).
Proof using E MONO.
  unfold variable, refines. intros a. destruct (braced true 1 s) as [[vname rest] br].
  destruct (split_call vname) as [[[name paren] args]|].
  - destruct (call _ _ _ _ e2 _ _ st) as [[st1 v]| |] eqn:E1; try done. by rewrite (call_sim _ _ _ _ E1).
  - destruct (e2 vname st) as [[st1 n]| |] eqn:E1; try done. rewrite (E _ _ _ E1).
    destruct (value e2 g (parse_reference n) st1) as [[st2 v]| |] eqn:E2; try done. by rewrite (MONO _ _ _ _ _ E _ E2).
Qed.

Lemma scan_sim n : forall b c p st, R b c ->
  refines_by (fun x y => fst x = fst y /\ R (snd x) (snd y))
    (scan api api_expansion api_list api_denied value e1 n b p st)
    (scan api api_expansion api_list api_denied value e2 n c p st).
Proof using E MONO SIM.
  induction n as [|n IH]; [done|]. intros b c p st Rbc.
  assert (COPY : forall b c x q st, R b c ->
    refines_by (fun x y => fst x = fst y /\ R (snd x) (snd y))
      (let* b := tb_put b x in scan api api_expansion api_list api_denied value e1 n b q st)
      (let* c := tb_put c x in scan api api_expansion api_list api_denied value e2 n c q st)).
  { intros b' c' x q st' R' a. destruct (tb_put c' x) as [c1| |] eqn:P; try done.
    destruct (sim_put b' c' x R' c1 P) as (b1 & -> & R1). by apply IH. }
  cbn [scan]. cbv zeta. destruct p as [|d q]; [intros a [= <-]; by exists (st, b)|].
  destruct (d =c ESCAPE_META).
  { destruct q as [|e r]; [by apply COPY|]. repeat (case_match; [by apply COPY || by apply IH|]). by apply COPY. }
  destruct (d =c DOLLAR); [|by apply COPY].
  destruct (match q with String d r => if d =c DOLLAR then (true, r) else (false, q) | _ => (false, q) end) as [g [|x s]];
    [by apply COPY|]. destruct (x =c BRACE); [|by apply COPY].
  intros a. destruct (variable _ _ _ _ value e2 g s st) as [[[st1 v] rest]| |] eqn:V; try done.
  rewrite (variable_sim _ _ _ _ V).
  assert (VB : refines_by R (match v with Some v => tb_puts b v | None => Ok b end)
                 (match v with Some v => tb_puts c v | None => Ok c end)).
  { destruct v; [by apply sim_puts|]. intros c1 [= <-]. by exists b. }
  destruct (match v with Some v => tb_puts c v | None => Ok c end) as [c1| |]; try done.
  destruct (VB c1 eq_refl) as (b1 & -> & R1). destruct rest as [|y r]; [|destruct (y =c DOLLAR)].
  - destruct (tb_put c1 NUL) as [c2| |] eqn:P; try done. intros [= <-].
    destruct (sim_put b1 c1 NUL R1 c2 P) as (b2 & -> & R2). by exists (st1, b2).
  - by apply IH.
  - by apply COPY.
Qed.
End Loop.

Lemma expand_sim k : forall s st,
  refines (expand (B := B) api api_expansion api_list api_denied value k s st)
    (expand (B := C) api api_expansion api_list api_denied value k s st).
Proof using MONO SIM.
  induction k as [|k IH]; intros s st a; [done|]. cbn [expand]. destruct (zstr (Some s)); [done|].
  destruct (_ || _); [|done]. destruct (tb_new (B := C) _) as [c| |] eqn:N; try done.
  destruct (sim_new _ c N) as (b & -> & Rbc).
  destruct (scan (B := C) _ _ _ _ _ _ _ c s st) as [[st1 c1]| |] eqn:S; try done. intros [= <-].
  destruct (scan_sim _ _ IH _ b c s st Rbc _ S) as ([st2 b1] & -> & [= ->] & R1). by rewrite (sim_text _ _ R1).
Qed.
End Simulation.

(** ** The buffer that grows *)

Definition grown (b : buffer) (t : string) : Prop :=
  text b = t /\ block b = olen b /\ slen t < olen b < 2 ^ 32.

Lemma resize_grown b t l : grown b t -> 0 <= l -> slen t + l < LIMIT -> olen b <= slen t + l ->
  exists b', resize (fun _ => true) l b = Ok b' /\ grown b' t /\ slen t + l + 1 < olen b'.
Proof.
  intros (T & K & L) Hl Hs Ho. unfold LIMIT in Hs. pose proof (slen_pos t).
  assert (E : size_t (olen b + (slen t + l + 128)) = olen b + (slen t + l + 128)) by (apply size_t_small; lia).
  unfold resize. cbv zeta. rupd. rewrite T, E. destruct (Z.leb_spec (slen t) (olen b + (slen t + l + 128))); [|lia].
  eexists. split; [reflexivity|]. unfold grown. rupd. rewrite T. split_and!; done || lia.
Qed.
Lemma room_grown b t l : grown b t -> 0 <= l -> slen t + l < LIMIT ->
  exists b', (if olen b <=? slen (text b) + l then resize (fun _ => true) l b else Ok b) = Ok b' /\
    grown b' t /\ slen t + l < olen b'.
Proof.
  intros G Hl Hs. destruct (proj1 G). destruct (Z.leb_spec (olen b) (slen (text b) + l)); [|by exists b].
  destruct (resize_grown b (text b) l) as (b' & E & G' & L); [done..|]. exists b'. split_and!; [done|done|lia].
Qed.

#[export] Instance grown_sim : @BufferSim buffer string (growing (fun _ => true)) limited grown.
Proof.
  split.
  - intros n c. cbn. destruct (_ && _) eqn:E; [|done]. btests. intros [= <-]. eexists. split; [reflexivity|].
    unfold grown, LIMIT in *. cbn. split_and!; done || lia.
  - intros b c x G d. cbn. unfold within. rewrite slen_sapp. change (slen (String x EmptyString)) with 1. ifcase; [|done].
    intros [= <-]. destruct (room_grown b c 1) as (b1 & E & (T & K & L) & R); [done|lia|lia|].
    unfold put_char. rewrite E. cbv beta iota. rewrite T, K. ifcase; [|lia]. eexists. split; [reflexivity|]. unfold grown. rupd.
    rewrite slen_sapp. change (slen (String x EmptyString)) with 1. split_and!; done || lia.
  - intros b c s G d. cbn. unfold within. rewrite slen_sapp. ifcase; [|done]. intros [= <-]. unfold put_string.
    pose proof (slen_pos s). destruct (slen s =? 0) eqn:Z0; btests.
    + exists b. destruct s; [|cbn [slen] in Z0; pose proof (slen_pos s); lia]. rewrite sapp_nil. done.
    + destruct (room_grown b c (slen s)) as (b1 & E & (T & K & L) & R); [done|lia|lia|].
      rewrite E. cbv beta iota. rewrite T, K. ifcase; [|lia]. eexists. split; [reflexivity|]. unfold grown. rupd. rewrite slen_sapp. split_and!; done || lia.
  - by intros b c (T & _).
Qed.

(** ** Termination: a text of less than a gigabyte is never out of turns *)

Definition defined {A} (m : outcome A) : Prop := m <> UB.

Lemma braced_length first : forall e br v r b, braced first br e = (v, r, b) ->
  (String.length r <= String.length e)%nat.
Proof.
  intros e. revert first. induction e as [|c e IH]; intros first br v r b; cbn [braced].
  - by intros [= <- <- <-].
  - destruct (_ && _); [intros [= <- <- <-]; cbn; lia|]. destruct (braced false _ e) as [[v' r'] b'] eqn:E. intros [= <- <- <-].
    apply IH in E. cbn. lia.
Qed.

Section Defined.
Context {St B : Type} `{HB : TextBuffer B}.
Context (PUT : forall (b : B) c, defined (tb_put b c)) (PUTS : forall (b : B) s, defined (tb_puts b s)).
Context (NEW : forall n, defined (tb_new (B := B) n)).
Context (api : St -> string -> string -> St * option string) (api_expansion : bool) (api_list : option switch_event).
Context (api_denied : string).
Context (value : (string -> St -> outcome (St * string)) -> bool -> reference -> St -> outcome (St * option string)).
Context (VALUE : forall e g r st, (forall s st, defined (e s st)) -> defined (value e g r st)).

Lemma variable_defined e g s st : (forall s st, defined (e s st)) ->
  defined (variable api api_expansion api_list api_denied value e g s st).
Proof using VALUE.
  intros E. unfold variable, call. destruct (braced true 1 s) as [[v r] br].
  destruct (split_call v) as [[[name paren] args]|].
  - pose proof (E name st). destruct (e name st) as [[st1 n]| |]; try done.
    set (a := call_args _ args). pose proof (E a st1). destruct (e a st1) as [[st2 x]| |]; try done.
    destruct (_ || _); [done|]. by destruct (api st2 n x).
  - pose proof (E v st). destruct (e v st) as [[st1 n]| |]; try done.
    pose proof (VALUE e g (parse_reference n) st1 E). by destruct (value e g (parse_reference n) st1) as [[? ?]| |].
Qed.

Lemma scan_defined e : (forall s st, defined (e s st)) -> forall n (b : B) p st, (String.length p < n)%nat ->
  defined (scan api api_expansion api_list api_denied value e n b p st).
Proof using PUT PUTS VALUE.
  intros E. induction n as [|n IH]; intros b p st L; [lia|]. cbn [scan]. cbv zeta.
  assert (COPY : forall b c q st, (String.length q < n)%nat ->
    defined (let* b := tb_put b c in scan api api_expansion api_list api_denied value e n b q st)).
  { intros b' c q st' Lq. pose proof (PUT b' c). destruct (tb_put b' c); try done. by apply IH. }
  destruct p as [|c q]; [done|]. cbn [String.length] in L. destruct (c =c ESCAPE_META).
  { destruct q as [|d r]; [apply COPY; lia|]. cbn [String.length] in *.
    destruct (d =c DOLLAR); [|destruct (d =c QUOTE); [apply IH; lia|destruct (d =c ESCAPE_META); apply COPY; cbn; lia]].
    apply COPY. destruct r as [|x t]; [|destruct (x =c DOLLAR)]; cbn in *; lia. }
  destruct (c =c DOLLAR); [|apply COPY; lia].
  destruct (match q with String d r => if d =c DOLLAR then (true, r) else (false, q) | _ => (false, q) end) as [g q'] eqn:Q.
  assert (Lq : (String.length q' <= String.length q)%nat).
  { destruct q as [|d r]; [|destruct (d =c DOLLAR)]; injection Q as <- <-; cbn; lia. }
  destruct q' as [|d s]; [apply COPY; cbn in *; lia|]. destruct (d =c BRACE); [|apply COPY; lia].
  cbn [String.length] in Lq. pose proof (variable_defined e g s st E) as V.
  destruct (variable _ _ _ _ value e g s st) as [[[st1 v] rest]| |] eqn:EV; try done.
  assert (Lr : (String.length rest <= String.length s)%nat).
  { unfold variable in EV. destruct (braced true 1 s) as [[v1 r1] br] eqn:BR. apply braced_length in BR.
    case_match; [|done..]. repeat case_match; try done; by injection EV as <- <- <-. }
  assert (PV : defined (match v with Some v => tb_puts b v | None => Ok b end)) by (destruct v; [apply PUTS|done]).
  destruct (match v with Some v => tb_puts b v | None => Ok b end) as [b1| |]; try done.
  destruct rest as [|y r]; [|cbn [String.length] in Lr; destruct (y =c DOLLAR)].
  - pose proof (PUT b1 NUL). by destruct (tb_put b1 NUL).
  - apply IH. cbn [String.length]. lia.
  - apply COPY. lia.
Qed.

Lemma expand_defined k : forall s st, defined (expand api api_expansion api_list api_denied value k s st).
Proof using PUT PUTS NEW VALUE.
  induction k as [|k IH]; intros s st; [done|]. cbn [expand]. destruct (zstr (Some s)); [done|].
  destruct (_ || _); [|done]. pose proof (NEW (size_t (slen s + 1))). destruct (tb_new _) as [b| |]; try done.
  pose proof (scan_defined _ IH (Datatypes.S (String.length s)) b s st) as D.
  destruct (scan _ _ _ _ _ _ _ b s st) as [[st1 b1]| |]; [done|done|]. by destruct D; [lia|].
Qed.
End Defined.

(** ** Texts without references *)

(** The text of a run in which nothing is looked up: escapes are taken away. *)
Fixpoint unescape (n : nat) (p : string) : string :=
  match n with
  | O => p
  | Datatypes.S n =>
    match p with
    | EmptyString => EmptyString
    | String c q =>
      if c =c ESCAPE_META then
        match q with
        | String d r =>
          if d =c DOLLAR then
            String DOLLAR (unescape n (match r with String e t => if e =c DOLLAR then t else r | _ => r end))
          else if d =c QUOTE then unescape n r
          else if d =c ESCAPE_META then String c (unescape n r)
          else String c (unescape n q)
        | EmptyString => String c EmptyString
        end
      else if c =c DOLLAR then
        match q with
        | String d r => String DOLLAR (unescape n (if d =c DOLLAR then r else q))
        | EmptyString => String c EmptyString
        end
      else String c (unescape n q)
    end
  end.

Lemma var_check_mono s : var_check_from false s = true -> var_check_from true s = true.
Proof.
  induction s as [|c s IH]; [done|]. cbn -[ESCAPE_META]. destruct (c =c DOLLAR); [done|].
  destruct (c =c BRACE); [done|]. destruct (c =c ESCAPE_META); cbn [negb]; [exact IH|done].
Qed.
Lemma unchecked_cons b c q : var_check_from b (String c q) = false ->
  var_check_from (c =c DOLLAR) q = false /\ var_check_from false q = false.
Proof.
  assert (K : var_check_from true q = false -> var_check_from false q = false).
  { destruct (var_check_from false q) eqn:E; [|done]. by rewrite (var_check_mono _ E). }
  cbn -[ESCAPE_META]. destruct (c =c DOLLAR); [by auto|]. destruct b; [|done].
  destruct (c =c BRACE); [done|]. destruct (c =c ESCAPE_META); cbn [negb]; [by auto|done].
Qed.

Section Inert.
Context {St : Type}.
Context (api : St -> string -> string -> St * option string) (api_expansion : bool) (api_list : option switch_event).
Context (api_denied : string).
Context (value : (string -> St -> outcome (St * string)) -> bool -> reference -> St -> outcome (St * option string)).

Lemma scan_inert e n : forall t p st, (String.length p < n)%nat -> var_check_from false p = false ->
  slen t + slen p < LIMIT ->
  scan (B := string) api api_expansion api_list api_denied value e n t p st = Ok (st, t +:+ unescape n p).
Proof using Type.
  induction n as [|n IH]; intros t p st L V W; [lia|]. cbn [scan unescape]. cbv zeta.
  assert (COPY : forall c q, (String.length q < n)%nat -> var_check_from false q = false -> slen t + 1 + slen q < LIMIT ->
    (let* b := tb_put t c in scan (B := string) api api_expansion api_list api_denied value e n b q st)
    = Ok (st, t +:+ String c (unescape n q))).
  { intros c q Lq Vq Wq. cbn [tb_put limited]. unfold within. rewrite slen_sapp. cbn [slen]. pose proof (slen_pos q).
    ifcase; [|lia]. rewrite IH; [|done|done|rewrite slen_sapp; cbn [slen]; lia]. by rewrite sapp_assoc. }
  destruct p as [|c q]; [by rewrite sapp_nil|]. cbn [String.length slen] in *. apply unchecked_cons in V as [V1 V2].
  assert (NIL : forall n, unescape n EmptyString = EmptyString) by (by intros []).
  destruct (c =c ESCAPE_META) eqn:CE.
  { destruct q as [|d r]; [rewrite COPY by (cbn [String.length slen] in *; done || lia); by rewrite NIL|].
    cbn [String.length slen] in *. apply unchecked_cons in V2 as [V3 V4].
    destruct (d =c DOLLAR) eqn:D.
    - destruct r as [|x u]; [apply COPY; done || lia|]. destruct (x =c DOLLAR) eqn:X; cbn [String.length slen] in *.
      + apply unchecked_cons in V4 as [V5 V6]. apply COPY; done || lia.
      + apply COPY; cbn [String.length slen]; done || lia.
    - destruct (d =c QUOTE); [apply IH; done || lia|]. destruct (d =c ESCAPE_META); [apply COPY; done || lia|].
      apply COPY; cbn [String.length slen]; [lia| |lia]. cbn -[ESCAPE_META]. rewrite D. exact V4. }
  destruct (c =c DOLLAR) eqn:CD; [|apply COPY; done || lia].
  destruct q as [|d r]; [rewrite COPY by (cbn [String.length slen] in *; done || lia); apply Ascii.eqb_eq in CD as ->; by rewrite NIL|].
  cbn [String.length slen] in *. destruct (d =c DOLLAR) eqn:D.
  - apply unchecked_cons in V2 as [V3 V4]. destruct r as [|x u]; [apply COPY; done || lia|].
    destruct (x =c BRACE) eqn:X; [|apply COPY; done || lia]. rewrite D in V3. cbn in V3.
    by rewrite (proj1 (Ascii.eqb_eq _ _) X) in V3.
  - destruct (d =c BRACE) eqn:B; [|apply COPY; cbn [String.length slen]; done || lia].
    cbn in V1. by rewrite D, B in V1.
Qed.

(** Nothing is read and nothing is called. *)
Lemma expand_inert_text k s st : switch_string_var_check_const s = false -> slen s + 1 < LIMIT ->
  expand (B := string) api api_expansion api_list api_denied value k s st =
  Ok (st, if negb (Nat.eqb k 0) && switch_string_has_escaped_data s
          then c_string (unescape (Datatypes.S (String.length s)) s) else s).
Proof using Type.
  intros V L. destruct k as [|k]; [done|]. cbn [expand Nat.eqb negb andb]. rewrite V. cbn [orb].
  destruct s as [|c s]; [done|]. cbn [zstr]. destruct (switch_string_has_escaped_data _); [|done].
  pose proof (slen_pos s). cbn [slen] in *. unfold LIMIT in L.
  rewrite size_t_small by lia. cbn [tb_new limited]. replace (0 <? _) with true by lia.
  replace (_ <? LIMIT) with true by (unfold LIMIT; lia). cbn [andb].
  rewrite scan_inert; [by rewrite sapp_empty|cbn; lia|done|cbn [slen]; unfold LIMIT; lia].
Qed.
End Inert.

(** ** Templates: literal texts and references *)

Inductive segment := Lit (s : string) | Ref (name : string).

(** How a literal text is written. *)
Fixpoint escape (s : string) : string :=
  match s with
  | EmptyString => EmptyString
  | String c s =>
    if (c =c ESCAPE_META) || (c =c DOLLAR) then String ESCAPE_META (String c (escape s)) else String c (escape s)
  end.
Definition render_one (g : segment) : string :=
  match g with Lit s => escape s | Ref name => String DOLLAR (String BRACE (name +:+ "}")) end.
Fixpoint render (t : list segment) : string :=
  match t with [] => EmptyString | g :: t => render_one g +:+ render t end.

Definition name_char (c : ascii) : bool := negb (strchr "{} (:[$\" c).
Definition plain_reference (name : string) : Prop := all_chars name_char name = true.

(** A literal does not begin with a character that needs an escape where a
    reference stands before it, and does not end with a dollar where one follows. *)
Definition begins (f : ascii -> bool) (s : string) : bool := match s with String c _ => f c | EmptyString => false end.
Fixpoint ends_dollar (s : string) : bool :=
  match s with
  | EmptyString => false
  | String c EmptyString => c =c DOLLAR
  | String _ s => ends_dollar s
  end.
Definition is_ref (t : list segment) : bool := match t with Ref _ :: _ => true | _ => false end.
Fixpoint template_ok (after_ref : bool) (t : list segment) : Prop :=
  match t with
  | [] => True
  | Lit s :: t =>
    s <> EmptyString /\ (after_ref = true -> begins (fun c => (c =c ESCAPE_META) || (c =c DOLLAR)) s = false) /\
    (is_ref t = true -> ends_dollar s = false) /\ template_ok false t
  | Ref name :: t => plain_reference name /\ template_ok true t
  end.

Lemma all_chars_app f a b : all_chars f (a +:+ b) = all_chars f a && all_chars f b.
Proof. induction a as [|c a IH]; [done|]. rewrite sapp_cons. cbn. by rewrite IH, andb_assoc. Qed.
Lemma strchr_all c s f : all_chars f s = true -> f c = false -> strchr s c = false.
Proof.
  intros A F. induction s as [|d s IH]; [done|]. cbn in *. apply andb_prop in A as [D A].
  rewrite (IH A). destruct (Ascii.eqb_spec d c); [congruence|done].
Qed.

Lemma braced_plain name rest : plain_reference name ->
  forall first, braced first 1 (name +:+ String "}" rest) = (name, rest, 0).
Proof.
  unfold plain_reference. induction name as [|c name IH]; intros A first; [by rewrite sapp_empty|].
  rewrite sapp_cons. cbn in A. apply andb_prop in A as [C A]. cbn [braced].
  assert (NB : (c =c "}") = false /\ (c =c BRACE) = false).
  { unfold name_char in C. apply negb_true_iff in C. cbn in C. apply orb_false_elim in C as [C1 C].
    apply orb_false_elim in C as [C2 _]. rewrite !(Ascii.eqb_sym c). done. }
  destruct NB as [-> ->]. rewrite !andb_false_r. change (1 =? 1) with true. cbn [andb]. change (0 <? 1) with true.
  cbv iota. by rewrite IH.
Qed.
Lemma split_call_plain name : plain_reference name -> split_call name = None.
Proof.
  unfold plain_reference. induction name as [|c name IH]; intros A; [done|]. cbn in A. apply andb_prop in A as [C A].
  cbn [split_call]. rewrite (IH A).
  destruct (c =c SPACE) eqn:S; [by apply Ascii.eqb_eq in S as ->|].
  destruct (c =c "(") eqn:P; [by apply Ascii.eqb_eq in P as ->|]. done.
Qed.
Lemma parse_plain name : plain_reference name -> parse_reference name = mk_reference name (-1) 0 0.
Proof.
  intros A. unfold parse_reference. rewrite !split_none; [done|by apply (strchr_all _ _ name_char)..].
Qed.
Lemma unescaped_chars s : strchr s ESCAPE_META = false -> switch_string_has_escaped_data s = false.
Proof. intros N. unfold switch_string_has_escaped_data. destruct (String.length s); [done|]. cbn [escaped_data]. by rewrite split_none. Qed.

Lemma begins_render t : template_ok false t -> is_ref t = false -> begins (fun c => c =c DOLLAR) (render t) = false.
Proof.
  destruct t as [|[[|c s]|name] t]; [done|by intros [? _]| |done]. intros _ _. cbn [render render_one escape].
  destruct (c =c ESCAPE_META) eqn:E; [done|]. destruct (c =c DOLLAR) eqn:D; [done|exact D].
Qed.

Section Template.
Context {St : Type}.
Context (api : St -> string -> string -> St * option string) (api_expansion : bool) (api_list : option switch_event).
Context (api_denied : string).
Context (value : (string -> St -> outcome (St * string)) -> bool -> reference -> St -> outcome (St * option string)).
Context (e : string -> St -> outcome (St * string)) (st : St).
Notation scan := (scan (B := string) api api_expansion api_list api_denied value e).

Lemma scan_copy n t c q : slen t + 1 < LIMIT ->
  (let* b := tb_put t c in scan n b q st) = scan n (t +:+ String c EmptyString) q st.
Proof using Type.
  intros L. cbn [tb_put limited]. unfold within. rewrite slen_sapp. cbn [slen]. ifcase; [done|lia].
Qed.

Lemma scan_lit s : forall n t rest, (ends_dollar s = true -> begins (fun c => c =c DOLLAR) rest = false) ->
  (String.length (escape s +:+ rest) < n)%nat -> slen t + slen s < LIMIT ->
  exists m, (String.length rest < m)%nat /\ scan n t (escape s +:+ rest) st = scan m (t +:+ s) rest st.
Proof using Type.
  induction s as [|c s IH]; intros n t rest D L W; [rewrite sapp_nil; by exists n|].
  destruct n as [|n]; [lia|]. cbn [slen] in W. pose proof (slen_pos s) as SP.
  assert (GO : (String.length (escape s +:+ rest) < n)%nat ->
    exists m, (String.length rest < m)%nat /\ scan n (t +:+ String c EmptyString) (escape s +:+ rest) st =
      scan m (t +:+ String c s) rest st).
  { intros Ln. destruct (IH n (t +:+ String c EmptyString) rest) as (m & Lm & E).
    - intros Ed. apply D. cbn. destruct s; [done|exact Ed].
    - done.
    - rewrite slen_sapp. cbn [slen]. lia.
    - exists m. split; [done|]. by rewrite E, sapp_assoc. }
  cbn [escape] in *. destruct (c =c ESCAPE_META) eqn:CE; [|destruct (c =c DOLLAR) eqn:CD]; cbn [orb] in *;
    rewrite !sapp_cons in *; cbn [Expand.scan String.length] in *; cbv zeta.
  - apply Ascii.eqb_eq in CE as ->. rewrite !Ascii.eqb_refl. change (ESCAPE_META =c DOLLAR) with false.
    change (ESCAPE_META =c QUOTE) with false. cbv iota. rewrite scan_copy by lia. apply GO. lia.
  - apply Ascii.eqb_eq in CD as ->. rewrite !Ascii.eqb_refl. rewrite scan_copy by lia.
    assert (R : match escape s +:+ rest with String x u => if x =c DOLLAR then u else escape s +:+ rest | _ => escape s +:+ rest end
                = escape s +:+ rest).
    { destruct s as [|x s]; cbn [escape].
      - rewrite sapp_empty. destruct rest as [|x u]; [done|]. specialize (D eq_refl). cbn in D. by rewrite D.
      - destruct ((x =c ESCAPE_META) || (x =c DOLLAR)) eqn:X; rewrite sapp_cons; [done|].
        apply orb_false_elim in X as [_ X]. by rewrite X. }
    rewrite R. apply GO. lia.
  - rewrite CE, CD. rewrite scan_copy by lia. apply GO. lia.
Qed.
Context (val : string -> option string) (used : string -> Prop).
Context (NAME : forall name, plain_reference name -> e name st = Ok (st, name)).
Context (VAL : forall name, used name -> plain_reference name -> value e false (mk_reference name (-1) 0 0) st = Ok (st, val name)).

Definition meaning_one (g : segment) : string := match g with Lit s => s | Ref name => default EmptyString (val name) end.
Fixpoint meaning (t : list segment) : string :=
  match t with [] => EmptyString | g :: t => meaning_one g +:+ meaning t end.
(** The terminator that is copied after a reference at the end. *)
Fixpoint last_nul (after_ref : bool) (t : list segment) : string :=
  match t with
  | [] => if after_ref then String NUL EmptyString else EmptyString
  | Lit _ :: t => last_nul false t
  | Ref _ :: t => last_nul true t
  end.

Definition after_reference (n : nat) (b rest : string) : outcome (St * string) :=
  match rest with
  | EmptyString => let* b := tb_put b NUL in Ok (st, b)
  | String c r => if c =c DOLLAR then scan n b rest st else let* b := tb_put b c in scan n b r st
  end.

Lemma scan_ref n t name rest : used name -> plain_reference name -> slen t + slen (default EmptyString (val name)) < LIMIT ->
  scan (Datatypes.S n) t (String DOLLAR (String BRACE (name +:+ String "}" rest))) st =
  after_reference n (t +:+ default EmptyString (val name)) rest.
Proof using NAME VAL.
  intros U P W. cbn [Expand.scan]. change (DOLLAR =c ESCAPE_META) with false. rewrite !Ascii.eqb_refl.
  change (BRACE =c DOLLAR) with false. cbv iota beta. rewrite Ascii.eqb_refl. unfold variable.
  rewrite braced_plain, split_call_plain, NAME, parse_plain, VAL by done. cbv iota beta.
  destruct (val name) as [v|]; [|change (default EmptyString None) with EmptyString; by rewrite sapp_nil].
  change (default EmptyString (Some v)) with v in *. cbn [tb_puts limited]. unfold within. rewrite slen_sapp.
  ifcase; [done|lia].
Qed.

Lemma render_ref name t : render (Ref name :: t) = String DOLLAR (String BRACE (name +:+ String "}" (render t))).
Proof using Type. cbn [render render_one]. by rewrite !sapp_cons, sapp_assoc. Qed.
Lemma slen_meaning t : 0 <= slen (meaning t).
Proof using Type. apply slen_pos. Qed.

Lemma scan_template t : (forall name, Ref name ∈ t -> used name) -> forall acc n, (String.length (render t) < n)%nat -> slen acc + slen (meaning t) + 1 < LIMIT ->
  (template_ok false t -> scan n acc (render t) st = Ok (st, acc +:+ (meaning t +:+ last_nul false t))) /\
  (template_ok true t -> after_reference n acc (render t) = Ok (st, acc +:+ (meaning t +:+ last_nul true t))).
Proof using NAME VAL.
  induction t as [|g t IH]; intros US acc n L W.
  { split; intros _; cbn [render meaning last_nul].
    - destruct n; [cbn in L; lia|]. by rewrite !sapp_nil.
    - unfold after_reference. cbn [tb_put limited meaning slen] in *. unfold within. rewrite slen_sapp. cbn [slen].
      ifcase; [by rewrite sapp_empty|lia]. }
  specialize (IH ltac:(set_solver)).
  cbn [meaning] in W. rewrite slen_sapp in W. pose proof (slen_meaning t). pose proof (slen_pos acc).
  pose proof (slen_pos (meaning_one g)). destruct g as [s|name].
  - assert (TAIL : forall acc' s' n', (String.length (escape s' +:+ render t) < n')%nat -> slen acc' + slen s' = slen acc + slen s ->
      (ends_dollar s' = true -> begins (fun c => c =c DOLLAR) (render t) = false) -> template_ok false t ->
      scan n' acc' (escape s' +:+ render t) st = Ok (st, (acc' +:+ s') +:+ (meaning t +:+ last_nul false t))).
    { intros acc' s' n' L' W' D T. cbn [meaning_one] in *. pose proof (slen_pos acc'). pose proof (slen_pos s').
      destruct (scan_lit s' n' acc' (render t) D L') as (m & Lm & E); [lia|].
      rewrite E. apply IH; [done|rewrite slen_sapp; lia|done]. }
    split; intros (NE & B & D & T).
    + cbn [render render_one meaning meaning_one last_nul] in *. rewrite TAIL; [by rewrite !sapp_assoc|done|done| |done].
      intros Es. apply begins_render; [done|]. destruct (is_ref t); [by rewrite D in Es|done].
    + destruct s as [|c s]; [done|]. specialize (B eq_refl). cbn [begins] in B.
      assert (R : render (Lit (String c s) :: t) = String c (escape s +:+ render t)).
      { cbn [render render_one escape]. by rewrite B. }
      rewrite R in *. unfold after_reference. apply orb_false_elim in B as [_ ->]. cbn [String.length meaning_one slen] in *.
      rewrite scan_copy by lia. cbn [meaning meaning_one last_nul]. rewrite TAIL.
      * by rewrite !sapp_assoc, sapp_cons.
      * lia.
      * rewrite slen_sapp. cbn [slen]. lia.
      * intros Es. apply begins_render; [done|]. destruct (is_ref t); [|done]. exfalso. specialize (D eq_refl).
        cbn in D. destruct s; [done|congruence].
      * done.
  - assert (P : template_ok false (Ref name :: t) -> forall m, (String.length (render (Ref name :: t)) < m)%nat ->
      scan m acc (render (Ref name :: t)) st = Ok (st, acc +:+ (meaning (Ref name :: t) +:+ last_nul true t))).
    { intros [PN T] m Lm. rewrite render_ref in *. cbn [String.length] in Lm. destruct m as [|m]; [lia|].
      rewrite length_sapp in Lm. cbn [String.length meaning_one] in *. rewrite scan_ref by (done || lia || (apply US; set_solver)).
      cbn [meaning meaning_one]. rewrite !sapp_assoc.
      destruct (IH (acc +:+ default EmptyString (val name)) m) as [_ Q]; [lia|rewrite slen_sapp; lia|].
      rewrite Q, !sapp_assoc; done. }
    split; [by intros T; apply P|]. intros T. unfold after_reference. rewrite render_ref at 1.
    rewrite Ascii.eqb_refl. by apply P.
Qed.
End Template.

(** ** The two functions *)

Lemma channel_value_mono {St} var_list (gv : St -> string -> Z -> option string) e1 e2 g r st :
  (forall s st, refines (e1 s st) (e2 s st)) ->
  refines (channel_value var_list gv e1 g r st) (channel_value var_list gv e2 g r st).
Proof.
  intros E a. unfold channel_value. destruct (gv st _ _) as [w|]; [|done]. cbv zeta.
  set (v := if switch_event_check_permission_list _ _ then w else VAR_DENIED).
  destruct (e2 v st) as [[st1 x]| |] eqn:X; try done. by rewrite (E _ _ _ X).
Qed.
Lemma event_value_mono {St} var_list (gh : St -> string -> Z -> option string) cv e1 e2 g r st :
  (forall s st, refines (e1 s st) (e2 s st)) ->
  refines (event_value var_list gh cv e1 g r st) (event_value var_list gh cv e2 g r st).
Proof.
  intros E a. unfold event_value. destruct (if g then None else gh st _ _); [done|].
  cbv zeta. destruct (if switch_event_check_permission_list var_list _ then _ else _) as [v|]; [|done].
  destruct (e2 v st) as [[st1 x]| |] eqn:X; try done. by rewrite (E _ _ _ X).
Qed.
Lemma channel_value_defined {St} var_list (gv : St -> string -> Z -> option string) e g r st :
  (forall s st, defined (e s st)) -> defined (channel_value var_list gv e g r st).
Proof.
  intros E. unfold channel_value. destruct (gv st _ _) as [w|]; [|done]. cbv zeta.
  set (v := if switch_event_check_permission_list _ _ then w else VAR_DENIED). pose proof (E v st).
  by destruct (e v st) as [[st1 x]| |].
Qed.

Lemma limited_put_defined (b : string) c : defined (tb_put b c).
Proof. cbn. unfold within. by ifcase. Qed.
Lemma limited_puts_defined (b s : string) : defined (tb_puts b s).
Proof. cbn. unfold within. by ifcase. Qed.
Lemma limited_new_defined n : defined (tb_new (B := string) n).
Proof. cbn. by ifcase. Qed.

(** What is neither a reference nor an escape is left alone. *)
Definition inert (s : string) : bool := negb (strchr s DOLLAR) && negb (strchr s ESCAPE_META).
Lemma expand_inert_same {St B} `{TextBuffer B} api ae al ad value k s (st : St) : inert s = true ->
  expand (B := B) api ae al ad value k s st = Ok (st, s).
Proof.
  intros [D E]%andb_prop. apply negb_true_iff in D, E. destruct k; [done|]. cbn [expand].
  destruct (zstr (Some s)); [done|]. by rewrite unchecked_chars, unescaped_chars.
Qed.
Lemma plain_inert name : plain_reference name -> inert name = true.
Proof. intros P. unfold inert. by rewrite !(strchr_all _ name _ P). Qed.

Lemma channel_slice_whole name i v : channel_slice (mk_reference name i 0 0) v = v.
Proof.
  unfold channel_slice, cut_at. cbn [offset ooffset]. change (0 <? 0) with false. cbn [andb]. change (0 <=? 0) with true.
  cbv iota. pose proof (slen_pos v). by replace (slen v <? 0) with false by lia.
Qed.

(** C18. Expanding a text for a channel ends, and in a buffer that grows by [realloc] it
    gives what it gives in an unbounded text, without touching memory behind the
    buffer, unless some text of the expansion exceeds a gigabyte; so does the
    expansion for an event wherever it is defined. *)
Theorem expand_refines {St} api api_expansion var_list api_list (in_ : string) (st : St) gv gh cv :
  let channel B (H : TextBuffer B) :=
    switch_channel_expand_variables_check api api_expansion var_list api_list gv in_ st in
  let event B (H : TextBuffer B) :=
    switch_event_expand_headers_check api api_expansion var_list api_list gh cv in_ st in
  (channel string limited = Assert \/
   exists r, channel string limited = Ok r /\ channel buffer (growing (fun _ => true)) = Ok r) /\
  (forall r, event string limited = Ok r -> event buffer (growing (fun _ => true)) = Ok r).
Proof.
  cbv zeta. split.
  - unfold switch_channel_expand_variables_check.
    pose proof (expand_defined limited_put_defined limited_puts_defined limited_new_defined api api_expansion api_list
      "<API Execute Permission Denied>" (channel_value var_list gv)
      (fun e g r st => channel_value_defined var_list gv e g r st) DEPTH in_ st) as D.
    destruct (expand (B := string) _ _ _ _ _ DEPTH in_ st) as [r| |] eqn:E; [right; exists r; split; [done|]|by left|done].
    by apply (expand_sim grown api api_expansion api_list _ _ (channel_value_mono var_list gv)).
  - intros r. apply (expand_sim grown api api_expansion api_list _ _ (event_value_mono var_list gh cv)).
Qed.

(** C23. A text put together from escaped literals and references [${name}] is expanded to the literals and
    the values of the variables, under these conditions: the text has something to be expanded; its literals meet
    [template_ok] (none is empty, begins with a character to be escaped behind a reference or ends with a dollar before one: see
    [expand_escape_lost] and [expand_dollar_eaten]); the values themselves hold nothing to be expanded; no permission list is in
    force; and text and result stay below a gigabyte and have no character 0. *)
Theorem expand_template {St} api api_expansion api_list (st : St) (get_variable : St -> string -> Z -> option string)
    (t : list segment) :
  let val name := get_variable st name (-1) in
  template_ok false t ->
  switch_string_var_check_const (render t) || switch_string_has_escaped_data (render t) = true ->
  (forall name v, Ref name ∈ t -> val name = Some v -> inert v = true) ->
  strchr (meaning val t) NUL = false -> slen (render t) + 1 < LIMIT -> slen (meaning val t) + 1 < LIMIT ->
  @switch_channel_expand_variables_check St buffer (growing (fun _ => true)) api api_expansion None api_list get_variable
    (render t) st = Ok (st, meaning val t).
Proof.
  cbv zeta. intros T A V N L M. unfold switch_channel_expand_variables_check.
  apply (expand_sim grown api api_expansion api_list _ _ (channel_value_mono None get_variable)).
  unfold DEPTH. generalize 100%nat as k. intros k. cbn [expand]. rewrite A.
  destruct (zstr (Some (render t))) eqn:Z0; [by destruct (render t)|].
  pose proof (slen_pos (render t)). rewrite size_t_small by (unfold LIMIT in L; lia). cbn [tb_new limited].
  replace (0 <? slen (render t) + 1) with true by lia. replace (slen (render t) + 1 <? LIMIT) with true by lia.
  cbn [andb]. pose (val := fun name => get_variable st name (-1)).
  destruct (scan_template api api_expansion api_list "<API Execute Permission Denied>" (channel_value None get_variable)
    (expand (B := string) api api_expansion api_list "<API Execute Permission Denied>" (channel_value None get_variable) k)
    st val (fun name => Ref name ∈ t)) with (t := t) (acc := EmptyString) (n := Datatypes.S (String.length (render t))) as [P _].
  - intros name PN. apply expand_inert_same. by apply plain_inert.
  - intros name U PN. unfold channel_value. cbn [var_name Expand.index switch_event_check_permission_list].
    change (get_variable st name (-1)) with (val name). destruct (val name) as [v|] eqn:E; [|done].
    rewrite expand_inert_same by (by apply (V name v)). by rewrite channel_slice_whole.
  - done.
  - lia.
  - exact M.
  - rewrite (P T). cbn [tb_text limited]. rewrite sapp_empty. unfold c_string.
    assert (K : forall b, last_nul b t = EmptyString \/ last_nul b t = String NUL EmptyString).
    { clear. induction t as [|[s|name] t IH]; intros b; cbn; [destruct b; auto|apply IH..]. }
    destruct (K false) as [->| ->]; [rewrite sapp_nil, split_none; done|by rewrite split_here].
Qed.

(** C22. The fields of a caller profile are cleaned when they come from the network: whatever
    a text says, its cleaned form is expanded to a text that depends on no variable and no
    call, and the state is not touched. *)
Theorem expand_inert (s : string) : slen s + 1 < LIMIT ->
  exists text, forall St api api_expansion var_list api_list get_variable (st : St),
    @switch_channel_expand_variables_check St buffer (growing (fun _ => true)) api api_expansion var_list api_list
      get_variable (switch_var_clean_string s) st = Ok (st, text).
Proof.
  intros L. eexists. intros. unfold switch_channel_expand_variables_check.
  apply (expand_sim grown api api_expansion api_list _ _ (channel_value_mono var_list get_variable)).
  apply expand_inert_text; [apply var_clean_checked|].
  assert (K : slen (switch_var_clean_string s) = slen s); [|by rewrite K].
  unfold switch_var_clean_string, switch_string_var_check. cbn [snd].
  assert (BS : forall n s, slen (backslashes n s) = Z.of_nat n + slen s).
  { clear. induction n as [|n IH]; intros s; [done|]. cbn [backslashes slen]. rewrite IH. lia. }
  assert (AD : forall dol d s, slen (after_dollar dol d s) = match dol with None => 0 | Some n => 1 + Z.of_nat n end + slen s).
  { intros [n|] d s'; cbn [after_dollar slen]; [rewrite BS; lia|lia]. }
  clear L. assert (G : forall dol, slen (disable_from dol s) = match dol with None => 0 | Some n => 1 + Z.of_nat n end + slen s);
    [|by rewrite G].
  induction s as [|c q IH]; intros dol; cbn [disable_from]; [by rewrite AD|]. cbn [slen] in *.
  destruct (c =c DOLLAR); [rewrite AD, IH; lia|].
  destruct dol as [n|]; [|cbn [slen]; rewrite IH; lia].
  destruct (c =c BRACE); [rewrite AD; cbn [slen]; rewrite IH; lia|].
  destruct (c =c ESCAPE_META); cbn [negb]; [rewrite IH; lia|rewrite AD; cbn [slen]; rewrite IH; lia].
Qed.

(** ** Defects *)

Definition w_vars (st : unit) (name : string) (idx : Z) : option string :=
  if String.eqb name "a" then Some "hello"%string
  else if String.eqb name "loop" then Some "${loop}"%string else None.
Definition w_api (st : unit) (name args : string) : unit * option string := (st, Some (name +:+ "<" +:+ args +:+ ">")).
Definition w_expand (s : string) : outcome (unit * string) :=
  @switch_channel_expand_variables_check unit buffer (growing (fun _ => true)) w_api true None None w_vars s tt.

(** A variable that refers to itself is followed a hundred times and then left. *)
Lemma expand_loop_ends : w_expand "${loop}" = Ok (tt, "${loop}"%string).
Proof. by vm_compute. Qed.
(** The character behind a reference is copied unseen, a backslash too: an escaped
    dollar behind a reference is expanded. *)
Lemma expand_escape_lost : w_expand "${a}\${a}" = Ok (tt, "hello\hello"%string).
Proof. by vm_compute. Qed.
(** An escaped dollar takes the dollar of the reference behind it. *)
Lemma expand_dollar_eaten : w_expand "\$${a}" = Ok (tt, "${a}"%string).
Proof. by vm_compute. Qed.
(** Two dollars become one, but only where something else in the text is expanded. *)
Lemma expand_context : w_expand "$$5" = Ok (tt, "$$5"%string) /\ w_expand "$$5 ${a}" = Ok (tt, "$5 hello"%string) /\
  w_expand "\$5" = Ok (tt, "\$5"%string) /\ w_expand "\$5 ${a}" = Ok (tt, "$5 hello"%string).
Proof. by vm_compute. Qed.
(** Where a blank separates a function from its arguments, they end at the first
    closing parenthesis. *)
Lemma expand_call_cut : w_expand "${expr (1+2)*3}" = Ok (tt, "expr<(1+2>"%string).
Proof. by vm_compute. Qed.

(** The twin for events moves an offset over the end of the value. *)
Lemma event_offset_overruns {St B} `{TextBuffer B} var_list gh cv e i (st : St) :
  gh st "a"%string i = Some "x"%string ->
  event_value var_list gh cv e false (mk_reference "a" i 10 0) st = UB.
Proof. intros E. unfold event_value. cbn [var_name Expand.index]. by rewrite E. Qed.
(** And the headers of the event are not subject to permissions. *)
Lemma event_permission_skipped {St} var_list gh cv e i v (st : St) :
  gh st "a"%string i = Some v ->
  event_value var_list gh cv e false (mk_reference "a" i 0 0) st = Ok (st, Some v).
Proof.
  intros E. unfold event_value. cbn [var_name Expand.index]. rewrite E. unfold event_slice. cbn [offset ooffset].
  change (0 <=? 0) with true. cbv iota. pose proof (slen_pos v). by replace (slen v <? 0) with false by lia.
Qed.

(** Where [realloc] fails the size is counted up all the same, and the text is
    written behind the buffer. *)
Lemma expand_realloc_fails :
  @switch_channel_expand_variables_check unit buffer (growing (fun _ => false)) w_api true None None w_vars "${a}" tt = UB.
Proof. by vm_compute. Qed.

(** ** Witnesses *)

Definition w_template : list segment := [Lit "to $5 "; Ref "a"; Lit ": it's "; Ref "a"].
Lemma expand_template_witness :
  w_expand "to \$5 ${a}: it's ${a}" = Ok (tt, "to $5 hello: it's hello"%string).
Proof.
  apply (expand_template w_api true None tt w_vars w_template).
  - cbn. unfold plain_reference. split_and!; try done.
  - done.
  - intros name v [[=]|[[= ->]|[[=]|[[= ->]|[]%elem_of_nil]%elem_of_cons]%elem_of_cons]%elem_of_cons]%elem_of_cons [= <-]; done.
  - done.
  - by vm_compute.
  - by vm_compute.
Defined.
Lemma expand_inert_witness :
  exists text, forall St api api_expansion var_list api_list get_variable (st : St),
    @switch_channel_expand_variables_check St buffer (growing (fun _ => true)) api api_expansion var_list api_list
      get_variable (switch_var_clean_string "a\'${system(reboot)}") st = Ok (st, text).
Proof. apply (expand_inert "a\'${system(reboot)}"). by vm_compute. Defined.
