(* ===== verification/Caller.v ===== *)
(** * Caller profiles and extensions (src/switch_caller.c)

    What is known of the two ends of a call, and the applications that a dialplan
    has chosen.  Profiles refer to each other and to extensions by numbers; a
    null text and an empty one are told apart as in the code. *)
From stdpp Require Import strings pretty.
From S2P Require Import Prelude CStrings StringUtils Url Separator EventTypes Event TextChecks.
From Stdlib Require Import String Ascii.
Open Scope Z_scope.
#[local] Notation length := List.length (only parsing).

(** ** Profiles *)

Record timetable := Times {
  t_profile_created : Z; t_created : Z; t_answered : Z; t_progress : Z; t_progress_media : Z; t_hungup : Z;
  t_transferred : Z; t_resurrected : Z; t_bridged : Z; t_last_hold : Z; t_hold_accum : Z }.
Definition no_times : timetable := Times 0 0 0 0 0 0 0 0 0 0 0.
#[export] Instance eta_timetable : Eta timetable := fun t =>
  Times (t_profile_created t) (t_created t) (t_answered t) (t_progress t) (t_progress_media t) (t_hungup t)
    (t_transferred t) (t_resurrected t) (t_bridged t) (t_last_hold t) (t_hold_accum t).

(** [soft] is the list of the fields that the structure does not have; [inbound]
    is [direction == SWITCH_CALL_DIRECTION_INBOUND]. *)
Record switch_caller_profile := Profile {
  username : option string; dialplan : option string;
  caller_id_name : option string; caller_id_number : option string;
  orig_caller_id_name : option string; orig_caller_id_number : option string;
  callee_id_name : option string; callee_id_number : option string;
  caller_ton : Z; caller_numplan : Z;
  network_addr : option string; ani : option string; ani_ton : Z; ani_numplan : Z;
  aniii : option string; rdnis : option string; rdnis_ton : Z; rdnis_numplan : Z;
  destination_number : option string; destination_number_ton : Z; destination_number_numplan : Z;
  cp_source : option string; chan_name : option string; cp_uuid : option string; cp_context : option string;
  profile_index : option string; cp_flags : Z;
  originator_caller_profile : option Z; originatee_caller_profile : option Z;
  origination_caller_profile : option Z; hunt_caller_profile : option Z;
  times : option timetable; old_times : option timetable; cp_extension : option Z; cp_next : option Z;
  inbound : bool; logical_inbound : bool; soft : list (string * string);
  uuid_str : option string; clone_of : option string; transfer_source : option string }.

#[export] Instance eta_profile : Eta switch_caller_profile := fun p =>
  Profile (username p) (dialplan p) (caller_id_name p) (caller_id_number p) (orig_caller_id_name p)
    (orig_caller_id_number p) (callee_id_name p) (callee_id_number p) (caller_ton p) (caller_numplan p)
    (network_addr p) (ani p) (ani_ton p) (ani_numplan p) (aniii p) (rdnis p) (rdnis_ton p) (rdnis_numplan p)
    (destination_number p) (destination_number_ton p) (destination_number_numplan p) (cp_source p) (chan_name p)
    (cp_uuid p) (cp_context p) (profile_index p) (cp_flags p) (originator_caller_profile p)
    (originatee_caller_profile p) (origination_caller_profile p) (hunt_caller_profile p) (times p) (old_times p)
    (cp_extension p) (cp_next p) (inbound p) (logical_inbound p) (soft p) (uuid_str p) (clone_of p)
    (transfer_source p).

Definition SWITCH_TON_UNDEF : Z := 255.
Definition SWITCH_NUMPLAN_UNDEF : Z := 255.
Definition SWITCH_DEFAULT_CLID_NAME : string := "".
Definition SWITCH_DEFAULT_CLID_NUMBER : string := "0000000000".
Definition SWITCH_CPF_SCREEN : Z := 1.
Definition SWITCH_CPF_HIDE_NAME : Z := 2.
Definition SWITCH_CPF_HIDE_NUMBER : Z := 4.
Definition SWITCH_BLANK_STRING : string := "".

Definition profile_dup (a : option string) : option string :=
  if negb (zstr a) then a else Some SWITCH_BLANK_STRING.
Definition profile_dup_clean (a : option string) : option string :=
  match a with
  | Some s => if negb (zstr a) then Some (switch_var_clean_string (switch_clean_string s)) else Some SWITCH_BLANK_STRING
  | None => Some SWITCH_BLANK_STRING
  end.

(** [uuid] is what [switch_uuid_str] makes. *)
Definition switch_caller_profile_new (uuid : string)
    (username dialplan caller_id_name caller_id_number network_addr ani aniii rdnis source context destination_number
     : option string) : switch_caller_profile :=
  let context := match context with None => Some "default"%string | c => c end in
  let caller_id_name := if zstr caller_id_name then Some SWITCH_DEFAULT_CLID_NAME else caller_id_name in
  let caller_id_number := if zstr caller_id_number then Some SWITCH_DEFAULT_CLID_NUMBER else caller_id_number in
  let ani := if zstr ani then caller_id_number else ani in
  Profile (profile_dup_clean username) (profile_dup_clean dialplan)
    (profile_dup_clean caller_id_name) (profile_dup_clean caller_id_number)
    (profile_dup_clean caller_id_name) (profile_dup_clean caller_id_number)
    (Some SWITCH_BLANK_STRING) (Some SWITCH_BLANK_STRING)
    SWITCH_TON_UNDEF SWITCH_NUMPLAN_UNDEF
    (profile_dup_clean network_addr) (profile_dup_clean ani) SWITCH_TON_UNDEF SWITCH_NUMPLAN_UNDEF
    (profile_dup_clean aniii) (profile_dup_clean rdnis) SWITCH_TON_UNDEF SWITCH_NUMPLAN_UNDEF
    (profile_dup_clean destination_number) SWITCH_TON_UNDEF SWITCH_NUMPLAN_UNDEF
    (profile_dup_clean source) (Some SWITCH_BLANK_STRING) (Some SWITCH_BLANK_STRING) (profile_dup_clean context)
    None (set_flag 0 SWITCH_CPF_SCREEN) None None None None None None None None true true [] (Some uuid) None None.

(** The copy, and the original: it gets a time table if it has none. *)
Definition switch_caller_profile_dup (uuid : string) (tocopy : switch_caller_profile)
  : switch_caller_profile * switch_caller_profile :=
  (Profile (profile_dup (username tocopy)) (profile_dup (dialplan tocopy))
    (profile_dup (caller_id_name tocopy)) (profile_dup (caller_id_number tocopy))
    (profile_dup (orig_caller_id_name tocopy)) (profile_dup (orig_caller_id_number tocopy))
    (profile_dup (callee_id_name tocopy)) (profile_dup (callee_id_number tocopy))
    (caller_ton tocopy) (caller_numplan tocopy)
    (profile_dup (network_addr tocopy)) (profile_dup (ani tocopy)) (ani_ton tocopy) (ani_numplan tocopy)
    (profile_dup (aniii tocopy)) (profile_dup (rdnis tocopy)) (rdnis_ton tocopy) (rdnis_numplan tocopy)
    (profile_dup (destination_number tocopy)) (destination_number_ton tocopy) (destination_number_numplan tocopy)
    (profile_dup (cp_source tocopy)) (profile_dup (chan_name tocopy)) (profile_dup (cp_uuid tocopy))
    (profile_dup (cp_context tocopy)) None (cp_flags tocopy) None None None None None (times tocopy) None None
    (inbound tocopy) true (soft tocopy) (Some uuid) (uuid_str tocopy) None,
   match times tocopy with None => tocopy <| times := Some no_times |> | Some _ => tocopy end).

(** ** Fields by name *)

Definition text_field (f : switch_caller_profile -> option string) (p : switch_caller_profile)
  : outcome (option string) := Ok (f p).
Definition number_field (f : switch_caller_profile -> Z) (p : switch_caller_profile) : outcome (option string) :=
  Ok (Some (pretty (f p))).
Definition flag_field (flag : Z) (p : switch_caller_profile) : outcome (option string) :=
  Ok (Some (if test_flag (cp_flags p) flag then "true" else "false")%string).
Definition time_field (f : timetable -> Z) (p : switch_caller_profile) : outcome (option string) :=
  match times p with None => UB | Some t => Ok (Some (pretty (f t))) end.

Definition field_table : list (string * (switch_caller_profile -> outcome (option string))) :=
  [("dialplan", text_field dialplan); ("username", text_field username);
   ("caller_id_name", text_field caller_id_name); ("caller_id_number", text_field caller_id_number);
   ("orig_caller_id_name", text_field orig_caller_id_name);
   ("orig_caller_id_number", text_field orig_caller_id_number);
   ("callee_id_name", text_field callee_id_name); ("callee_id_number", text_field callee_id_number);
   ("ani", text_field ani); ("aniii", text_field aniii); ("network_addr", text_field network_addr);
   ("rdnis", text_field rdnis); ("destination_number", text_field destination_number);
   ("uuid", text_field cp_uuid); ("source", text_field cp_source); ("transfer_source", text_field transfer_source);
   ("context", text_field cp_context); ("chan_name", text_field chan_name);
   ("profile_index", text_field profile_index);
   ("caller_ton", number_field caller_ton); ("caller_numplan", number_field caller_numplan);
   ("destination_number_ton", number_field destination_number_ton);
   ("destination_number_numplan", number_field destination_number_numplan);
   ("ani_ton", number_field ani_ton); ("ani_numplan", number_field ani_numplan);
   ("rdnis_ton", number_field rdnis_ton); ("rdnis_numplan", number_field rdnis_numplan);
   ("screen_bit", flag_field SWITCH_CPF_SCREEN); ("privacy_hide_name", flag_field SWITCH_CPF_HIDE_NAME);
   ("privacy_hide_number", flag_field SWITCH_CPF_HIDE_NUMBER);
   ("profile_created_time", time_field t_profile_created); ("created_time", time_field t_created);
   ("answered_time", time_field t_answered); ("progress_time", time_field t_progress);
   ("progress_media_time", time_field t_progress_media); ("hungup_time", time_field t_hungup);
   ("transferred_time", time_field t_transferred)]%string.

(** The comparisons one after the other. *)
Fixpoint find_field {A} (name : string) (l : list (string * A)) : option A :=
  match l with
  | [] => None
  | (n, f) :: l => if strcaseeq name n then Some f else find_field name l
  end.
Definition switch_caller_get_field_by_name (p : switch_caller_profile) (name : string) : outcome (option string) :=
  match find_field name field_table with Some f => f p | None => Ok None end.

(** ** The profile in an event *)

(** A header is added if the text that is tested is not empty. *)
Definition text_header (test : option string) (suffix : string) (v : option string)
  : list (string * option string) := if zstr test then [] else [(suffix, v)].
Definition bit_text (b : bool) : option string := Some (if b then "true" else "false")%string.
Definition direction_text (b : bool) : option string := Some (if b then "inbound" else "outbound")%string.

Definition profile_headers (p : switch_caller_profile) : list (string * option string) :=
  [("-Direction"%string, direction_text (inbound p)); ("-Logical-Direction"%string, direction_text (logical_inbound p))]
  ++ text_header (username p) "-Username" (username p)
  ++ text_header (dialplan p) "-Dialplan" (dialplan p)
  ++ text_header (caller_id_name p) "-Caller-ID-Name" (caller_id_name p)
  ++ text_header (caller_id_number p) "-Caller-ID-Number" (caller_id_number p)
  ++ text_header (caller_id_name p) "-Orig-Caller-ID-Name" (orig_caller_id_name p)
  ++ text_header (caller_id_number p) "-Orig-Caller-ID-Number" (orig_caller_id_number p)
  ++ text_header (callee_id_name p) "-Callee-ID-Name" (callee_id_name p)
  ++ text_header (callee_id_number p) "-Callee-ID-Number" (callee_id_number p)
  ++ text_header (network_addr p) "-Network-Addr" (network_addr p)
  ++ text_header (ani p) "-ANI" (ani p)
  ++ text_header (aniii p) "-ANI-II" (aniii p)
  ++ text_header (destination_number p) "-Destination-Number" (destination_number p)
  ++ text_header (cp_uuid p) "-Unique-ID" (cp_uuid p)
  ++ text_header (cp_source p) "-Source" (cp_source p)
  ++ text_header (transfer_source p) "-Transfer-Source" (transfer_source p)
  ++ text_header (cp_context p) "-Context" (cp_context p)
  ++ text_header (rdnis p) "-RDNIS" (rdnis p)
  ++ text_header (chan_name p) "-Channel-Name" (chan_name p)
  ++ text_header (profile_index p) "-Profile-Index" (profile_index p).

Definition time_headers (p : switch_caller_profile) : list (string * option string) :=
  match (match times p with Some t => Some t | None => old_times p end) with
  | None => []
  | Some t =>
    (fun e => (e.1, Some (pretty (e.2 t : Z)))) <$>
    [("-Profile-Created-Time"%string, t_profile_created); ("-Channel-Created-Time"%string, t_created);
     ("-Channel-Answered-Time"%string, t_answered); ("-Channel-Progress-Time"%string, t_progress);
     ("-Channel-Progress-Media-Time"%string, t_progress_media); ("-Channel-Hangup-Time"%string, t_hungup);
     ("-Channel-Transfer-Time"%string, t_transferred); ("-Channel-Resurrect-Time"%string, t_resurrected);
     ("-Channel-Bridged-Time"%string, t_bridged); ("-Channel-Last-Hold"%string, t_last_hold);
     ("-Channel-Hold-Accum"%string, t_hold_accum)]
  end.

Definition flag_headers (p : switch_caller_profile) : list (string * option string) :=
  [("-Screen-Bit"%string, bit_text (test_flag (cp_flags p) SWITCH_CPF_SCREEN));
   ("-Privacy-Hide-Name"%string, bit_text (test_flag (cp_flags p) SWITCH_CPF_HIDE_NAME));
   ("-Privacy-Hide-Number"%string, bit_text (test_flag (cp_flags p) SWITCH_CPF_HIDE_NUMBER))].

Definition prefixed (prefix : string) (l : list (string * option string)) : list (string * option string) :=
  (fun e => (fit 1024 (prefix +:+ e.1), e.2)) <$> l.
Definition switch_caller_profile_event_set_data (p : switch_caller_profile) (prefix : string) (event : switch_event)
  : outcome switch_event :=
  add_headers event SWITCH_STACK_BOTTOM
    (prefixed prefix (profile_headers p) ++ ((fun e => (e.1, Some e.2)) <$> soft p)
     ++ prefixed prefix (time_headers p) ++ prefixed prefix (flag_headers p)).

(** ** Extensions

    [last_application] is the last of the list, [current_application] a place in it. *)
Record application := Application { application_name : option string; application_data : option string }.
Record switch_caller_extension := Extension {
  extension_name : option string; extension_number : option string; applications : list application;
  current_application : option nat; ext_next : option Z }.
#[export] Instance eta_extension : Eta switch_caller_extension := fun e =>
  Extension (extension_name e) (extension_number e) (applications e) (current_application e) (ext_next e).

Definition switch_caller_extension_new (extension_name extension_number : option string) : switch_caller_extension :=
  Extension extension_name extension_number [] None None.

(** Data with a backslash and a quote is refused; adding starts the extension anew. *)
Definition bad_data (data : option string) : bool :=
  match data with
  | Some d => match strstr (String ESCAPE_META (String QUOTE EmptyString)) d with Some _ => true | None => false end
  | None => false
  end.
Definition switch_caller_extension_add_application (e : switch_caller_extension) (application_name application_data : option string)
  : switch_caller_extension :=
  if bad_data application_data then e
  else e <| applications := applications e ++ [Application application_name application_data] |>
         <| current_application := Some O |>.
(** [data] is what [switch_vasprintf] makes, if it does. *)
Definition switch_caller_extension_add_application_printf (e : switch_caller_extension)
    (application_name data : option string) : switch_caller_extension :=
  match data with
  | None => e
  | Some _ => if bad_data data then e else switch_caller_extension_add_application e application_name data
  end.

(** The applications from the current one on. *)
Fixpoint clone_from (match_ : bool) (current : option nat) (i : nat) (l : list application) : list application :=
  match l with
  | [] => []
  | ap :: l =>
    let match_ := match_ || bool_decide (current = Some i) in
    if match_ then ap :: clone_from match_ current (Datatypes.S i) l else clone_from match_ current (Datatypes.S i) l
  end.
Definition switch_caller_extension_clone (orig : switch_caller_extension) : switch_caller_extension :=
  let apps := clone_from false (current_application orig) 0 (applications orig) in
  Extension (extension_name orig) (extension_number orig) apps
    (match apps with [] => None | _ => Some O end) None.
