(* ===== verification/Variables.v ===== *)
(** * Variables and profiles of a channel (src/switch_channel.c, src/switch_core.c)

    A channel's variables are an event, above which events of shorter life
    ([scope_variables]) may lie; what they do not have is looked for in the caller
    profile and among the global variables.  Variables are exported to the
    other leg of a call.  Profiles are objects with numbers. *)
From stdpp Require Import strings pretty.
From S2P Require Import Prelude CStrings StringUtils Url Separator EventTypes Event TextChecks Caller.
From Stdlib Require Import String Ascii.
Open Scope Z_scope.
#[local] Notation length := List.length (only parsing).

(** ** State *)

(** The fields of [switch_channel_t] that this file uses; [bridged], [bleg] and
    [in_dialplan] are the flags CF_BRIDGED, CF_BLEG and CF_DIALPLAN. *)
Record channel_data := Data {
  variables : option switch_event; scope_variables : list switch_event;
  d_profile : option Z; profiles : gmap Z switch_caller_profile; next_profile : Z;
  d_extensions : gmap Z switch_caller_extension; d_queued : option Z;
  d_name : option string; d_uuid : string; d_index : Z; d_inbound : bool; d_logical_inbound : bool;
  bridged : bool; bleg : bool; in_dialplan : bool }.
#[export] Instance eta_data : Eta channel_data := fun d =>
  Data (variables d) (scope_variables d) (d_profile d) (profiles d) (next_profile d) (d_extensions d) (d_queued d)
    (d_name d) (d_uuid d) (d_index d) (d_inbound d) (d_logical_inbound d) (bridged d) (bleg d) (in_dialplan d).

(** A null or dangling pointer is [UB]. *)
Definition profile_at (d : channel_data) (p : option Z) : outcome switch_caller_profile :=
  match p with
  | None => UB
  | Some p => match profiles d !! p with Some cp => Ok cp | None => UB end
  end.
Definition put_profile (d : channel_data) (p : option Z) (cp : switch_caller_profile) : channel_data :=
  match p with Some p => d <| profiles := <[p := cp]> (profiles d) |> | None => d end.

(** ** Reading *)

Section Globals.
(** [runtime.global_vars]. *)
Context (global_vars : switch_event).

Definition switch_core_get_variable (varname : string) : option string := switch_event_get_header global_vars varname.

(** [switch_channel_get_caller_profile]. *)
Definition get_caller_profile (d : channel_data) : outcome (option Z) :=
  match d_profile d with
  | None => Ok None
  | p => let* cp := profile_at d p in
         Ok (match hunt_caller_profile cp with Some h => Some h | None => p end)
  end.

Fixpoint find_scope (l : list switch_event) (varname : string) (idx : Z) : option string :=
  match l with
  | [] => None
  | ep :: l => match switch_event_get_header_idx ep varname idx with Some v => Some v | None => find_scope l varname idx end
  end.

(** The prefixes of the two other legs. *)
Definition leg_profile (d : channel_data) (cp : option Z) (varname : string) : outcome (option Z * string) :=
  match cp with
  | None => Ok (None, varname)
  | Some _ =>
    let* p := profile_at d cp in
    Ok (match strip_prefix "aleg_" varname with
        | Some r => (originator_caller_profile p, r)
        | None => match strip_prefix "bleg_" varname with
                  | Some r => (originatee_caller_profile p, r)
                  | None => (cp, varname)
                  end
        end)
  end.

(** What is read where no variable has the name. *)
Definition profile_variable (d : channel_data) (varname : string) : outcome (option string) :=
  let* cp := get_caller_profile d in
  let* (cp, varname) := leg_profile d cp varname in
  match cp with
  | None => Ok (switch_core_get_variable varname)
  | Some _ =>
    let* p := profile_at d cp in
    let* v := switch_caller_get_field_by_name p varname in
    match v with
    | Some v => Ok (Some v)
    | None => Ok (switch_core_get_variable varname)
    end
  end.
Definition switch_channel_get_variable_dup (d : channel_data) (varname : string) (idx : Z) : outcome (option string) :=
  if zstr (Some varname) then Ok None
  else
    match find_scope (scope_variables d) varname idx with
    | Some v => Ok (Some v)
    | None =>
      match (match variables d with Some ev => switch_event_get_header_idx ev varname idx | None => None end) with
      | Some v => Ok (Some v)
      | None => profile_variable d varname
      end
    end.
Definition switch_channel_get_variable (d : channel_data) (varname : string) : outcome (option string) :=
  switch_channel_get_variable_dup d varname (-1).

(** ** Writing *)

Definition switch_channel_add_variable_var_check (d : channel_data) (varname value : option string) (var_check : bool)
    (stack : Z) : outcome (channel_data * switch_status) :=
  match variables d, varname with
  | Some ev, Some ((String _ _) as name) =>
    if zstr value then
      let* ev := switch_event_del_header ev name in
      Ok (d <| variables := Some ev |>, SWITCH_STATUS_SUCCESS)
    else if negb var_check || negb (switch_string_var_check_const (default EmptyString value)) then
      let* ev := add_header ev stack name value in
      Ok (d <| variables := Some ev |>, SWITCH_STATUS_SUCCESS)
    else Ok (d, SWITCH_STATUS_SUCCESS)
  | _, _ => Ok (d, SWITCH_STATUS_FALSE)
  end.
Definition switch_channel_set_variable_var_check (d : channel_data) (varname value : option string) (var_check : bool)
  : outcome (channel_data * switch_status) :=
  switch_channel_add_variable_var_check d varname value var_check SWITCH_STACK_BOTTOM.
(** [switch_channel_set_variable] checks for references. *)
Definition set_variable (d : channel_data) (varname value : option string) : outcome channel_data :=
  let* (d, _) := switch_channel_set_variable_var_check d varname value true in Ok d.

(** [data] is what [switch_vasprintf] makes. *)
Definition switch_channel_set_variable_printf (d : channel_data) (varname data : option string)
  : outcome (channel_data * switch_status) :=
  match variables d, varname with
  | Some ev, Some ((String _ _) as name) =>
    let* ev := switch_event_del_header ev name in
    let d := d <| variables := Some ev |> in
    match data with
    | None => Ok (d, SWITCH_STATUS_MEMERR)
    | Some _ => switch_channel_set_variable_var_check d varname data true
    end
  | _, _ => Ok (d, SWITCH_STATUS_FALSE)
  end.
Definition switch_channel_set_variable_name_printf (d : channel_data) (val varname : option string)
  : outcome (channel_data * switch_status) :=
  match varname with
  | None => Ok (d, SWITCH_STATUS_MEMERR)
  | Some _ => switch_channel_set_variable_var_check d varname val true
  end.

(** [Some ev]: push, otherwise pop. *)
Definition switch_channel_set_scope_variables (d : channel_data) (event : option switch_event) : channel_data :=
  match event with
  | Some ev => d <| scope_variables := ev :: scope_variables d |>
  | None => d <| scope_variables := tl (scope_variables d) |>
  end.

(** [hp->value], the value, is looked up where the name is meant. *)
Fixpoint copy_scope (ev : switch_event) (l : list (Z * switch_event_header)) : outcome switch_event :=
  match l with
  | [] => Ok ev
  | (_, hp) :: l =>
    match (match h_value hp with Some v => switch_event_get_header ev v | None => None end) with
    | Some _ => copy_scope ev l
    | None => let* ev := add_header ev SWITCH_STACK_BOTTOM (h_name hp) (h_value hp) in copy_scope ev l
    end
  end.
Fixpoint copy_scopes (ev : switch_event) (l : list switch_event) : outcome switch_event :=
  match l with
  | [] => Ok ev
  | ep :: l => let* ev := copy_scope ev (headers ep) in copy_scopes ev l
  end.
(** An event for the data of a channel has unique headers. *)
Definition plain_event : switch_event :=
  blank_event <| event_id := SWITCH_EVENT_CHANNEL_DATA |> <| ev_flags := EF_UNIQ_HEADERS |>.
Definition switch_channel_get_scope_variables (d : channel_data) : outcome (switch_status * option switch_event) :=
  match scope_variables d with
  | [] => Ok (SWITCH_STATUS_FALSE, None)
  | l => let* ev := copy_scopes plain_event l in Ok (SWITCH_STATUS_SUCCESS, Some ev)
  end.

(** ** Exporting *)

Definition strip_nolocal (var : string) : string :=
  if prefix_nocase "nolocal:" var then skip_chars 8 var
  else if prefix_nocase "_nolocal_" var then skip_chars 9 var else var.

Definition switch_channel_export_variable_var_check (d : channel_data) (varname val : option string)
    (export_varname : string) (var_check : bool) : outcome (channel_data * switch_status) :=
  let* exports := switch_channel_get_variable d export_varname in
  let* (d, _) := switch_channel_set_variable_var_check d varname val var_check in
  match varname, val with
  | Some var, Some _ =>
    let new_exports := match exports with Some e => e +:+ "," +:+ var | None => var end in
    let* d := set_variable d (Some export_varname) (Some new_exports) in Ok (d, SWITCH_STATUS_SUCCESS)
  | _, _ => Ok (d, SWITCH_STATUS_SUCCESS)
  end.

(** A header of the event, set anew. *)
Definition replace_header (ev : switch_event) (name value : string) : outcome switch_event :=
  let* ev := switch_event_del_header ev name in add_header ev SWITCH_STACK_BOTTOM name (Some value).
Definition export_one (d : channel_data) (name : string) (peer : option channel_data) (var_event : option switch_event)
  : outcome (option channel_data * option switch_event) :=
  let* vval := switch_channel_get_variable d name in
  match vval with
  | None => Ok (peer, var_event)
  | Some v =>
    let vvar := strip_nolocal name in
    let* var_event := (match var_event with
                       | Some ev => let* ev := replace_header ev vvar v in Ok (Some ev)
                       | None => Ok None
                       end) in
    let* peer := (match peer with
                  | Some p => let* p := set_variable p (Some vvar) (Some v) in Ok (Some p)
                  | None => Ok None
                  end) in
    Ok (peer, var_event)
  end.
Fixpoint export_all (d : channel_data) (argv : list string) (peer : option channel_data) (var_event : option switch_event)
  : outcome (option channel_data * option switch_event) :=
  match argv with
  | [] => Ok (peer, var_event)
  | a :: argv => let* (peer, var_event) := export_one d a peer var_event in export_all d argv peer var_event
  end.
Definition switch_channel_process_export (d : channel_data) (peer : option channel_data) (var_event : option switch_event)
    (export_varname : string) : outcome (option channel_data * option switch_event) :=
  let* export_vars := switch_channel_get_variable d export_varname in
  match export_vars with
  | None | Some EmptyString => Ok (peer, var_event)
  | Some vars =>
    let* var_event := (match var_event with
                       | Some ev => let* ev := replace_header ev export_varname vars in Ok (Some ev)
                       | None => Ok None
                       end) in
    let* peer := (match peer with
                  | Some p => let* p := set_variable p (Some export_varname) (Some vars) in Ok (Some p)
                  | None => Ok None
                  end) in
    let* argv := switch_separate_string (Some vars) "," 256 in
    export_all d argv peer var_event
  end.

(** ** Prefixes *)

Definition has_prefix (prefix : option string) (name : string) : bool :=
  zstr prefix || prefix_nocase (default EmptyString prefix) name.
Fixpoint unset_prefix (d : channel_data) (prefix : option string) (l : list (Z * switch_event_header)) : outcome channel_data :=
  match l with
  | [] => Ok d
  | (_, hp) :: l =>
    let* d := (if has_prefix prefix (h_name hp) then set_variable d (Some (h_name hp)) None else Ok d) in
    unset_prefix d prefix l
  end.
(** The walk is over a copy of the variables; the count that is returned is 0. *)
Definition switch_channel_del_variable_prefix (d : channel_data) (prefix : option string) : outcome (channel_data * Z) :=
  match variables d with
  | None => Ok (d, 0)
  | Some ev =>
    let* copy := switch_event_dup ev in
    match copy with
    | None => UB
    | Some ev => let* d := unset_prefix d prefix (headers ev) in Ok (d, 0)
    end
  end.

Fixpoint transfer_prefix (new : channel_data) (prefix : option string) (l : list (Z * switch_event_header)) (x : Z)
  : outcome (channel_data * Z) :=
  match l with
  | [] => Ok (new, x)
  | (_, hp) :: l =>
    if has_prefix prefix (h_name hp) then
      let* new := set_variable new (Some (h_name hp)) (h_value hp) in transfer_prefix new prefix l (x + 1)
    else transfer_prefix new prefix l x
  end.
Definition switch_channel_transfer_variable_prefix (orig new : channel_data) (prefix : option string)
  : outcome (channel_data * switch_status) :=
  let* (new, x) := transfer_prefix new prefix (match variables orig with Some ev => headers ev | None => [] end) 0 in
  Ok (new, if x =? 0 then SWITCH_STATUS_FALSE else SWITCH_STATUS_SUCCESS).

Definition switch_channel_set_name (d : channel_data) (name : option string) : outcome channel_data :=
  let d := d <| d_name := None |> in
  match name with
  | None => Ok d
  | Some _ => set_variable (d <| d_name := name |>) (Some "channel_name"%string) name
  end.
Definition switch_channel_get_name (d : channel_data) : string :=
  if zstr (d_name d) then "N/A" else default EmptyString (d_name d).
End Globals.

(** ** Global variables *)

Definition SWITCH_GLOBAL_STACK : Z := Z.lor SWITCH_STACK_BOTTOM SWITCH_STACK_NODUP.
Definition put_global (ev : switch_event) (varname : string) (value : option string) : outcome switch_event :=
  match value with
  | Some v => add_header ev SWITCH_GLOBAL_STACK varname (Some (switch_var_clean_string v))
  | None => switch_event_del_header ev varname
  end.
Definition switch_core_set_variable (ev : switch_event) (varname value : option string) : outcome switch_event :=
  match varname with
  | None => Ok ev
  | Some name =>
    let* ev := (match switch_event_get_header ev name with
                | Some _ => switch_event_del_header ev name
                | None => Ok ev
                end) in
    put_global ev name value
  end.
Definition switch_core_set_var_conditional (ev : switch_event) (varname value val2 : option string)
  : outcome (switch_event * bool) :=
  match varname with
  | None => Ok (ev, true)
  | Some name =>
    match switch_event_get_header ev name, val2 with
    | Some val, Some v2 =>
      if String.eqb val v2 then
        let* ev := switch_event_del_header ev name in let* ev := put_global ev name value in Ok (ev, true)
      else Ok (ev, false)
    | Some _, None => Ok (ev, false)
    | None, _ => if negb (zstr val2) then Ok (ev, false) else let* ev := put_global ev name value in Ok (ev, true)
    end
  end.
