(* ===== verification/Profiles.v ===== *)
(** * The profiles and extensions of a channel (src/switch_channel.c)

    The caller profile and its predecessors, the profiles of the other legs, the
    exchange of caller and callee, and the extension that is executed.  Times are
    arguments; the event that tells about an exchange is not modelled. *)
From stdpp Require Import strings pretty.
From S2P Require Import Prelude CStrings StringUtils Url Separator EventTypes Event TextChecks Caller Variables.
From Stdlib Require Import String Ascii.
Open Scope Z_scope.
#[local] Notation length := List.length (only parsing).

(** ** Setting a field by name *)

Definition set_soft (l : list (string * string)) (var val : string) : list (string * string) :=
  (fix go l := match l with
               | [] => [(var, val)]
               | (n, w) :: l => if strcaseeq n var then (n, val) :: l else (n, w) :: go l
               end) l.

(** A field that takes a text, or one that takes a number and only if there is a value. *)
Inductive setter :=
| SetText (f : option string -> switch_caller_profile -> switch_caller_profile)
| SetNumber (f : Z -> switch_caller_profile -> switch_caller_profile).
Definition set_table : list (string * setter) :=
  [("dialplan", SetText (fun v p => p <| dialplan := v |>)); ("username", SetText (fun v p => p <| username := v |>));
   ("caller_id_name", SetText (fun v p => p <| caller_id_name := v |>));
   ("caller_id_number", SetText (fun v p => p <| caller_id_number := v |>));
   ("callee_id_name", SetText (fun v p => p <| callee_id_name := v |>));
   ("callee_id_number", SetText (fun v p => p <| callee_id_number := v |>));
   ("caller_ton", SetNumber (fun n p => p <| caller_ton := n |>));
   ("caller_numplan", SetNumber (fun n p => p <| caller_numplan := n |>));
   ("destination_number_ton", SetNumber (fun n p => p <| destination_number_ton := n |>));
   ("destination_number_numplan", SetNumber (fun n p => p <| destination_number_numplan := n |>));
   ("ani", SetText (fun v p => p <| ani := v |>)); ("aniii", SetText (fun v p => p <| aniii := v |>));
   ("network_addr", SetText (fun v p => p <| network_addr := v |>)); ("rdnis", SetText (fun v p => p <| rdnis := v |>));
   ("destination_number", SetText (fun v p => p <| destination_number := v |>));
   ("uuid", SetText (fun v p => p <| cp_uuid := v |>)); ("source", SetText (fun v p => p <| cp_source := v |>));
   ("context", SetText (fun v p => p <| cp_context := v |>)); ("chan_name", SetText (fun v p => p <| chan_name := v |>))]%string.

(** [strcasecmp] with the names one after the other; numbers are passed over
    where there is no value. *)
Fixpoint find_setter (name : string) (val : bool) (l : list (string * setter)) : option setter :=
  match l with
  | [] => None
  | (n, s) :: l =>
    let skip := match s with SetNumber _ => negb val | SetText _ => false end in
    if negb skip && strcaseeq name n then Some s else find_setter name val l
  end.
Definition assign (name : string) (val : option string) (p : switch_caller_profile) : switch_caller_profile :=
  let v := if zstr val then SWITCH_BLANK_STRING else default EmptyString val in
  match find_setter name (match val with Some _ => true | None => false end) set_table with
  | Some (SetText f) => f (Some v) p
  | Some (SetNumber f) => f (u8 (c_atoi v)) p
  | None => p <| soft := set_soft (soft p) name v |>
  end.

(** [set_device_id]: what [switch_channel_set_device_id] makes of the value. *)
Definition switch_channel_set_profile_var (set_device_id : string -> option string) (d : channel_data) (name : string)
    (val : option string) : outcome (channel_data * switch_status) :=
  let device := strcaseeq name "device_id" && negb (zstr val) in
  match (if device then set_device_id (default EmptyString val) else val), device with
  | None, true => Ok (d, SWITCH_STATUS_SUCCESS)
  | val, _ =>
    let* p := profile_at d (d_profile d) in
    Ok (put_profile d (d_profile d) (assign name val p), SWITCH_STATUS_SUCCESS)
  end.

(** ** The caller profile *)

(** A new object; [switch_caller_profile_clone] with its identifier. *)
Definition new_profile (d : channel_data) (p : switch_caller_profile) : channel_data * Z :=
  (d <| profiles := <[next_profile d := p]> (profiles d) |> <| next_profile := next_profile d + 1 |>, next_profile d).
Definition switch_caller_profile_clone (uuid : string) (d : channel_data) (tocopy : option Z) : outcome (channel_data * Z) :=
  let* p := profile_at d tocopy in
  let '(copy, p) := switch_caller_profile_dup uuid p in
  Ok (new_profile (put_profile d tocopy p) copy).

Definition same_nocase (a : option string) (b : string) : bool :=
  match a with Some a => strcaseeq a b | None => false end.

(** The extension of the profile before is cloned into the new one. *)
Definition clone_extension (d : channel_data) (e : option Z) : outcome (channel_data * option Z) :=
  match e with
  | None => Ok (d, None)
  | Some e =>
    match d_extensions d !! e with
    | None => UB
    | Some ext =>
      let id := fresh (dom (d_extensions d)) in
      Ok (d <| d_extensions := <[id := switch_caller_extension_clone ext]> (d_extensions d) |>, Some id)
    end
  end.

(** The time of the first profile; what a profile takes over from the one before. *)
Definition created (now : nat -> Z) (d : channel_data) (cp : Z) : outcome channel_data :=
  let* p := profile_at d (Some cp) in
  match times p with
  | None => UB
  | Some t => Ok (put_profile d (Some cp) (p <| times := Some (t <| t_created := now 1%nat |>) |>))
  end.
Definition inherit (d : channel_data) (cp : Z) (old : switch_caller_profile) : outcome channel_data :=
  let* p := profile_at d (Some cp) in
  match times p, times old with
  | Some t, Some ot =>
    let t := t <| t_answered := t_answered ot |> <| t_progress := t_progress ot |>
               <| t_progress_media := t_progress_media ot |> <| t_created := t_created ot |>
               <| t_hungup := t_hungup ot |> in
    let* (d, e) := clone_extension d (cp_extension old) in
    let p := p <| times := Some t |> in
    Ok (put_profile d (Some cp) (match e with Some _ => p <| cp_extension := e |> | None => p end))
  | _, _ => UB
  end.

(** [now i] is the [i]-th reading of the clock. *)
Definition switch_channel_set_caller_profile (now : nat -> Z) (d : channel_data) (cp : Z) : outcome channel_data :=
  let* p := profile_at d (Some cp) in
  let p := p <| inbound := d_inbound d |> <| logical_inbound := d_logical_inbound d |> in
  let p := if same_nocase (cp_uuid p) (d_uuid d) then p else p <| cp_uuid := Some (d_uuid d) |> in
  let* p := (match chan_name p, d_name d with
             | None, _ => Ok (p <| chan_name := d_name d |>)
             | Some _, None => UB
             | Some c, Some n => Ok (if strcaseeq c n then p else p <| chan_name := d_name d |>)
             end) in
  let p := match cp_context p with None => p <| cp_context := Some "default"%string |> | Some _ => p end in
  let t := match times p with None => no_times <| t_profile_created := now 0%nat |> | Some t => t end in
  let d := put_profile d (Some cp) (p <| times := Some t |>) in
  let* old := (match d_profile d with None => Ok None | o => let* old := profile_at d o in Ok (Some old) end) in
  let* d := (match old with
             | Some old =>
               match times old with
               | None => created now d cp
               | Some ot =>
                 let d := put_profile d (d_profile d) (old <| times := Some (ot <| t_transferred := t_profile_created t |>) |>) in
                 inherit d cp old
               end
             | None => created now d cp
             end) in
  let* p := profile_at d (Some cp) in
  let index := d_index d + 1 in
  Ok (put_profile d (Some cp) (p <| cp_next := d_profile d |> <| profile_index := Some (pretty index) |>)
        <| d_profile := Some cp |> <| d_index := index |>).

Definition switch_channel_step_caller_profile (uuid : string) (now : nat -> Z) (d : channel_data) : outcome channel_data :=
  let* (d, cp) := switch_caller_profile_clone uuid d (d_profile d) in switch_channel_set_caller_profile now d cp.

(** ** The profiles of the other legs

    They are lists too; a profile that is put before itself fails an assertion. *)

Definition push_other (get : switch_caller_profile -> option Z)
    (set : option Z -> switch_caller_profile -> switch_caller_profile) (d : channel_data) (cp : Z) : outcome channel_data :=
  match d_profile d with
  | None => Assert
  | own =>
    let* p := profile_at d own in
    let* o := profile_at d (Some cp) in
    let d := put_profile d (Some cp) (o <| cp_next := get p |>) in
    let* p := profile_at d own in
    let d := put_profile d own (set (Some cp) p) in
    let* o := profile_at d (Some cp) in
    if bool_decide (cp_next o = Some cp) then Assert else Ok d
  end.
Definition switch_channel_set_originator_caller_profile (d : channel_data) (cp : Z) : outcome channel_data :=
  match d_profile d with
  | None => Assert
  | _ =>
    let* o := profile_at d (Some cp) in
    let d := match times o with None => put_profile d (Some cp) (o <| times := Some no_times |>) | Some _ => d end in
    push_other originator_caller_profile (fun v p => p <| originator_caller_profile := v |>) d cp
  end.
Definition switch_channel_set_originatee_caller_profile : channel_data -> Z -> outcome channel_data :=
  push_other originatee_caller_profile (fun v p => p <| originatee_caller_profile := v |>).
Definition switch_channel_set_origination_caller_profile : channel_data -> Z -> outcome channel_data :=
  push_other origination_caller_profile (fun v p => p <| origination_caller_profile := v |>).
Definition switch_channel_set_hunt_caller_profile (d : channel_data) (cp : option Z) : outcome channel_data :=
  match d_profile d with
  | None => Assert
  | own =>
    let* p := profile_at d own in
    let d := put_profile d own (p <| hunt_caller_profile := None |>) in
    match cp with
    | None => Ok d
    | Some _ =>
      let* h := profile_at d cp in
      let d := put_profile d cp (h <| inbound := d_inbound d |> <| logical_inbound := d_logical_inbound d |>) in
      let* p := profile_at d own in
      Ok (put_profile d own (p <| hunt_caller_profile := cp |>))
    end
  end.

Definition other_profile (get : switch_caller_profile -> option Z) (d : channel_data) : outcome (option Z) :=
  match d_profile d with None => Ok None | own => let* p := profile_at d own in Ok (get p) end.
Definition switch_channel_get_originator_caller_profile := other_profile originator_caller_profile.
Definition switch_channel_get_originatee_caller_profile := other_profile originatee_caller_profile.
Definition switch_channel_get_origination_caller_profile := other_profile origination_caller_profile.

(** ** Caller and callee *)

(** [tmp] is shared by the two halves of [switch_channel_flip_cid]. *)
Definition flip_field (is_bridged : bool) (tmp caller callee : option string)
  : option string * option string * option string :=
  let '(tmp, caller) := match callee with Some _ => (caller, callee) | None => (tmp, caller) end in
  let callee := if is_bridged then Some SWITCH_BLANK_STRING else match tmp with Some _ => tmp | None => callee end in
  (tmp, caller, callee).

Definition switch_channel_flip_cid (d : channel_data) : outcome channel_data :=
  let own := d_profile d in
  let* p := profile_at d own in
  let* d := (match callee_id_name p with
             | Some _ => set_variable d (Some "pre_transfer_caller_id_name"%string) (caller_id_name p)
             | None => Ok d
             end) in
  let '(tmp, name, cname) := flip_field (bridged d) None (caller_id_name p) (callee_id_name p) in
  let* d := (match callee_id_number p with
             | Some _ => set_variable d (Some "pre_transfer_caller_id_number"%string) (caller_id_number p)
             | None => Ok d
             end) in
  let '(_, number, cnumber) := flip_field (bridged d) tmp (caller_id_number p) (callee_id_number p) in
  Ok (put_profile d own (p <| caller_id_name := name |> <| callee_id_name := cname |>
                           <| caller_id_number := number |> <| callee_id_number := cnumber |>)).

Definition known (s : option string) : option string := if zstr s then Some "Unknown"%string else s.
Definition switch_channel_invert_cid (d : channel_data) : outcome channel_data :=
  let* cp := get_caller_profile d in
  let* p := profile_at d cp in
  Ok (put_profile d cp (p <| caller_id_name := known (callee_id_name p) |>
                          <| caller_id_number := known (callee_id_number p) |>
                          <| callee_id_name := caller_id_name p |> <| callee_id_number := caller_id_number p |>)).

Definition switch_channel_sort_cid (d : channel_data) : outcome channel_data :=
  if d_inbound d && bleg d then let* d := switch_channel_flip_cid d in Ok (d <| bleg := false |>)
  else if negb (d_inbound d) && negb (in_dialplan d) then switch_channel_flip_cid (d <| in_dialplan := true |>)
  else Ok d.

(** ** Extensions *)

Definition switch_channel_get_queued_extension (d : channel_data) : channel_data * option Z :=
  (d <| d_queued := None |>, d_queued d).
Definition switch_channel_set_caller_extension (d : channel_data) (ext : Z) : outcome channel_data :=
  let* d := switch_channel_sort_cid d in
  let* p := profile_at d (d_profile d) in
  match d_extensions d !! ext with
  | None => UB
  | Some e =>
    Ok (put_profile (d <| d_extensions := <[ext := e <| ext_next := cp_extension p |>]> (d_extensions d) |>) (d_profile d)
          (p <| cp_extension := Some ext |>))
  end.
Definition switch_channel_get_caller_extension : channel_data -> outcome (option Z) := other_profile cp_extension.

(** What is left of an extension's applications, [offset] of them skipped. *)
Definition remaining (e : switch_caller_extension) (offset : Z) : list application :=
  match current_application e with None => [] | Some i => drop (Z.to_nat offset) (drop i (applications e)) end.
Fixpoint add_applications (e : switch_caller_extension) (l : list application) : switch_caller_extension :=
  match l with
  | [] => e
  | ap :: l =>
    add_applications (switch_caller_extension_add_application e (application_name ap) (application_data ap)) l
  end.
Fixpoint copy_variables (new : channel_data) (except : list string) (l : list (Z * switch_event_header)) : outcome channel_data :=
  match l with
  | [] => Ok new
  | (_, hi) :: l =>
    if existsb (fun a => strcaseeq a (h_name hi)) except then copy_variables new except l
    else let* new := set_variable new (Some (h_name hi)) (h_value hi) in copy_variables new except l
  end.

(** The rest of one channel's extension is given to another. *)
Definition switch_channel_caller_extension_masquerade (global_vars : switch_event) (uuid : string) (now : nat -> Z)
    (orig new : channel_data) (offset : Z) : outcome (channel_data * switch_status) :=
  let* no_copy := switch_channel_get_variable global_vars orig "attended_transfer_no_copy" in
  let* except := (match no_copy with Some s => switch_separate_string (Some s) "," 128 | None => Ok [] end) in
  let* (new, cp) := switch_caller_profile_clone uuid new (d_profile new) in
  let* p := profile_at new (Some cp) in
  let extension := switch_caller_extension_new (destination_number p) (destination_number p) in
  let* orig_extension := switch_channel_get_caller_extension orig in
  match orig_extension with
  | None => Ok (new, SWITCH_STATUS_FALSE)
  | Some oe =>
    match d_extensions orig !! oe, variables orig with
    | Some e, Some vars =>
      let extension := add_applications extension (remaining e offset) in
      let ext := fresh (dom (d_extensions new)) in
      let new := new <| d_extensions := <[ext := extension]> (d_extensions new) |> in
      let* op := profile_at orig (d_profile orig) in
      let new := put_profile new (Some cp) (p <| destination_number := destination_number op |>) in
      let* new := switch_channel_set_caller_profile now new cp in
      let* new := switch_channel_set_caller_extension new ext in
      let* new := copy_variables new except (headers vars) in
      Ok (new, SWITCH_STATUS_SUCCESS)
    | _, _ => UB
    end
  end.
