(* ===== verification/VariableMaps.v ===== *)
(** * Variables as maps

    Under any sequence of settings and scopes a channel's variables are a stack
    of maps over a map ([variables_map]); what is exported reaches the
    other leg ([export_transfers]). *)
From stdpp Require Import strings.
From S2P Require Import Prelude CStrings StringUtils Url Separator EventTypes Event EventVars TextChecks Caller Variables.
From Stdlib Require Import String Ascii.
Open Scope Z_scope.
#[local] Notation length := List.length (only parsing).

(** ** One setting *)

(** How a value is added: at the end, at the front, to an array. *)
Inductive var_op :=
| OpAdd (stack : Z) (n v : string) (check : bool)
| OpUnset (n : string)
| OpPush (ev : switch_event)
| OpPop.

Definition stack_op (stack : Z) (n v : string) : vop :=
  if test_flag stack SWITCH_STACK_PUSH then VPush n v
  else if test_flag stack SWITCH_STACK_UNSHIFT then VUnshift n v
  else VSet (test_flag stack SWITCH_STACK_TOP) n v.
Definition known_stack (stack : Z) : Prop :=
  stack ∈ [SWITCH_STACK_BOTTOM; SWITCH_STACK_TOP; SWITCH_STACK_PUSH; SWITCH_STACK_UNSHIFT].

Definition var_step (l : vars_t) (o : var_op) : vars_t :=
  match o with
  | OpAdd stack n v check =>
    if String.eqb v EmptyString then vunset n l
    else if check && switch_string_var_check_const v then l else vstep l (stack_op stack n v)
  | OpUnset n => vunset n l
  | _ => l
  end.
Definition scope_step (s : list switch_event) (o : var_op) : list switch_event :=
  match o with OpPush ev => ev :: s | OpPop => tl s | _ => s end.
Definition var_call (d : channel_data) (o : var_op) : outcome channel_data :=
  match o with
  | OpAdd stack n v check =>
    let* (d, _) := switch_channel_add_variable_var_check d (Some n) (Some v) check stack in Ok d
  | OpUnset n => set_variable d (Some n) None
  | OpPush ev => Ok (switch_channel_set_scope_variables d (Some ev))
  | OpPop => Ok (switch_channel_set_scope_variables d None)
  end.
Fixpoint var_calls (d : channel_data) (os : list var_op) : outcome channel_data :=
  match os with [] => Ok d | o :: os => let* d := var_call d o in var_calls d os end.

Definition var_op_ok (o : var_op) : Prop :=
  match o with
  | OpAdd stack n v _ => known_stack stack /\ n <> EmptyString /\ plain_name n /\ plain v
  | OpUnset n => n <> EmptyString
  | OpPush ev => uniq_event ev
  | OpPop => True
  end.

(** [d'] is [d] but for its variables, which are [l], and its scopes. *)
Definition now_has (d d' : channel_data) (l : vars_t) (s : list switch_event) : Prop :=
  exists ev, uniq_event ev /\ vars ev = l /\ d' = d <| variables := Some ev |> <| scope_variables := s |>.

Lemma add_variable_spec d ev stack n v check : variables d = Some ev -> uniq_event ev -> few ev ->
  var_op_ok (OpAdd stack n v check) ->
  exists ev' st, switch_channel_add_variable_var_check d (Some n) (Some v) check stack = Ok (d <| variables := Some ev' |>, st) /\
    uniq_event ev' /\ vars ev' = var_step (vars ev) (OpAdd stack n v check).
Proof.
  intros E U F (K & N & PN & PV). unfold switch_channel_add_variable_var_check. rewrite E.
  destruct n as [|c n]; [done|]. cbn [var_step]. destruct v as [|x v].
  - cbn [zstr String.eqb]. destruct (del_all_spec ev (String c n) U F) as (ev' & D & U' & V & _). rewrite D.
    eexists _, _. split_and!; [reflexivity|done|done].
  - cbn [zstr]. change (default EmptyString (Some (String x v))) with (String x v).
    change (String.eqb (String x v) EmptyString) with false. cbv iota.
    destruct (check && switch_string_var_check_const (String x v)) eqn:C.
    + apply andb_prop in C as [-> ->]. cbn [negb orb]. exists ev, SWITCH_STATUS_SUCCESS. split_and!; [|done..].
      f_equal. f_equal. destruct d; cbn in *. by rewrite E.
    + assert (G : negb check || negb (switch_string_var_check_const (String x v)) = true).
      { destruct check; [|done]. cbn in *. by rewrite C. }
      rewrite G. destruct (vcall_spec ev (stack_op stack (String c n) (String x v)) U F) as (ev' & D & U' & V).
      { unfold stack_op. repeat case_match; done. }
      assert (A : vcall ev (stack_op stack (String c n) (String x v)) = add_header ev stack (String c n) (Some (String x v))).
      { unfold known_stack in K. repeat (apply elem_of_cons in K as [->|K]; [reflexivity|]). by apply elem_of_nil in K. }
      rewrite <- A, D. eexists _, _. split_and!; [reflexivity|done|done].
Qed.

Lemma var_step_length l o : zlen (var_step l o) <= zlen l + 1.
Proof.
  assert (UN : forall n, zlen (vunset n l) <= zlen l + 1) by (intros n; exact (length_vstep l (VUnset n))).
  destruct o as [stack n v check|n|ev|]; cbn [var_step]; [|apply UN|lia|lia].
  destruct (String.eqb v EmptyString); [apply UN|]. destruct (_ && _); [lia|apply length_vstep].
Qed.

Lemma var_call_spec d ev o : variables d = Some ev -> uniq_event ev -> few ev -> var_op_ok o ->
  exists d', var_call d o = Ok d' /\ now_has d d' (var_step (vars ev) o) (scope_step (scope_variables d) o).
Proof.
  intros E U F O. destruct o as [stack n v check|n|ep|]; cbn [var_call].
  - destruct (add_variable_spec d ev stack n v check E U F O) as (ev' & st & -> & U' & V). eexists. split; [reflexivity|].
    exists ev'. split_and!; [done..|]. by destruct d.
  - unfold set_variable, switch_channel_set_variable_var_check, switch_channel_add_variable_var_check. rewrite E.
    destruct n as [|c n]; [by destruct O|]. cbn [zstr].
    destruct (del_all_spec ev (String c n) U F) as (ev' & D & U' & V & _). rewrite D. eexists. split; [reflexivity|].
    exists ev'. split_and!; [done..|]. by destruct d.
  - eexists. split; [reflexivity|]. exists ev. split_and!; [done..|]. destruct d; cbn in E; subst. done.
  - eexists. split; [reflexivity|]. exists ev. split_and!; [done..|]. destruct d; cbn in E; subst. done.
Qed.

Lemma var_calls_spec os : forall d ev, variables d = Some ev -> uniq_event ev -> Forall var_op_ok os ->
  zlen (headers ev) + zlen os < 999999 ->
  exists d', var_calls d os = Ok d' /\
    now_has d d' (foldl var_step (vars ev) os) (foldl scope_step (scope_variables d) os).
Proof.
  induction os as [|o os IH]; intros d ev E U O L; cbn [var_calls foldl].
  - exists d. split; [done|]. exists ev. split_and!; [done..|]. destruct d; cbn in E; subst; done.
  - apply Forall_cons in O as [Oo O]. cbn [length] in L.
    destruct (var_call_spec d ev o E U) as (d1 & -> & ev1 & U1 & V1 & ->); [unfold few; lia|done|].
    destruct (IH (d <| variables := Some ev1 |> <| scope_variables := scope_step (scope_variables d) o |>) ev1)
      as (d2 & E2 & ev2 & U2 & V2 & ->); [done|done|done| |].
    { pose proof (var_step_length (vars ev) o) as VL. rewrite <- V1 in VL. unfold vars in VL. rewrite !length_fmap in VL. lia. }
    exists (d <| variables := Some ev2 |> <| scope_variables := foldl scope_step (scope_step (scope_variables d) o) os |>).
    split; [|exists ev2; rewrite <- V1; done]. rewrite E2. by destruct d.
Qed.

(** ** Reading *)

Fixpoint find_map (n : string) (s : list vars_t) : option (list string) :=
  match s with [] => None | m :: s => match vfind n m with Some vs => Some vs | None => find_map n s end end.

Lemma find_scope_spec n s : Forall uniq_event s -> n <> "_body"%string ->
  find_scope s n (-1) = array_value <$> find_map n (vars <$> s).
Proof.
  induction 1 as [|ev s U _ IH]; intros Hb; [done|]. cbn [find_scope fmap list_fmap find_map].
  rewrite get_header_spec by done. destruct (vfind n (vars ev)); [done|by apply IH].
Qed.

Lemma get_variable_spec g d d' l s n : now_has d d' l s -> Forall uniq_event s -> n <> EmptyString -> n <> "_body"%string ->
  switch_channel_get_variable g d' n =
  match find_map n ((vars <$> s) ++ [l]) with
  | Some vs => Ok (Some (array_value vs))
  | None => profile_variable g d n
  end.
Proof.
  intros (ev & U & <- & ->) S N Hb. unfold switch_channel_get_variable, switch_channel_get_variable_dup.
  replace (zstr (Some n)) with false by (by destruct n). rupd.
  assert (K : find_map n ((vars <$> s) ++ [vars ev]) =
    match find_map n (vars <$> s) with Some vs => Some vs | None => vfind n (vars ev) end).
  { generalize (vars <$> s). intros m. induction m as [|x m IH]; cbn; [by destruct (vfind _ _)|]. rewrite IH. by destruct (vfind _ x). }
  rewrite K, find_scope_spec by done. destruct (find_map n (vars <$> s)); [done|]. cbn [fmap option_fmap option_map].
  rewrite get_header_spec by done. by destruct (vfind n (vars ev)).
Qed.

(** C19. Under any sequence of settings (at either end or pushed to an array, checked for
    references or not), deletions, and scopes that are opened and
    closed, a channel's variables are a stack of maps over a map from
    case-insensitive names to values: reading gives the value of the innermost
    map that has the name, and where none has it what the profile and the global
    variables say, which are not touched. *)
Theorem variables_map g d ev os : variables d = Some ev -> uniq_event ev -> Forall uniq_event (scope_variables d) ->
  Forall var_op_ok os -> zlen (headers ev) + zlen os < 999999 ->
  exists d', var_calls d os = Ok d' /\
    forall n, n <> EmptyString -> n <> "_body"%string ->
      switch_channel_get_variable g d' n =
      match find_map n ((vars <$> foldl scope_step (scope_variables d) os) ++ [foldl var_step (vars ev) os]) with
      | Some vs => Ok (Some (array_value vs))
      | None => profile_variable g d n
      end.
Proof.
  intros E U S O L. destruct (var_calls_spec os d ev E U O L) as (d' & R & H). exists d'. split; [done|].
  intros n N Hb. apply get_variable_spec; [done| |done|done].
  clear - S O. revert S. generalize (scope_variables d). induction O as [|o os Oo O IH]; intros s S; [done|]. cbn [foldl].
  apply IH. destruct o; cbn; [done|done|by constructor|]. destruct s; [done|]. by apply Forall_cons in S as [_ S].
Qed.

(** ** Exports *)

Lemma strcaseeq_refl n : strcaseeq n n = true.
Proof. by apply strcaseeq_slower. Qed.
Lemma vfind_vset m n vs l : vfind m (vset false n vs l) = if strcaseeq n m then Some vs else vfind m l.
Proof.
  unfold vset, vfind, vunset. induction l as [|x l IH]; cbn [List.filter app List.find].
  - cbn [fst]. by destruct (strcaseeq n m).
  - destruct (strcaseeq x.1 n) eqn:E; cbn [negb app List.find].
    + rewrite IH. destruct (strcaseeq n m) eqn:M; [done|]. destruct (strcaseeq x.1 m) eqn:X; [|done].
      apply strcaseeq_slower in E, X. assert (strcaseeq n m = true) by (apply strcaseeq_slower; congruence). congruence.
    + destruct (strcaseeq x.1 m) eqn:X; [|exact IH]. destruct (strcaseeq n m) eqn:M; [|done].
      apply strcaseeq_slower in M, X. assert (strcaseeq x.1 n = true) by (apply strcaseeq_slower; congruence). congruence.
Qed.

(** Names of exported variables: no separators, escapes, indices or references. *)
Definition word_char (c : ascii) : bool := negb (strchr " \',^[$" c).
Definition word (n : string) : Prop := n <> EmptyString /\ n <> "_body"%string /\ all_chars word_char n = true /\ plain n.
Definition simple_value (v : string) : Prop := v <> EmptyString /\ plain v /\ switch_string_var_check_const v = false.

Lemma all_chars_without n c : all_chars word_char n = true -> word_char c = false -> strchr n c = false.
Proof.
  intros A F. induction n as [|d n IH]; [done|]. cbn in *. apply andb_prop in A as [D A].
  rewrite (IH A). destruct (Ascii.eqb_spec d c); [congruence|done].
Qed.
Lemma strstr_char c s : strchr s c = false -> strstr (String c EmptyString) s = None.
Proof.
  induction s as [|d s IH]; [done|]. intros [D N]%orb_false_elim. cbn. rewrite (Ascii.eqb_sym c), D.
  by rewrite (IH N).
Qed.
Lemma word_plain n : word n -> plain_name n.
Proof. intros (_ & _ & A & _). apply strstr_char. by eapply all_chars_without. Qed.
Lemma word_protect n : all_chars word_char n = true -> protect "," n = n.
Proof.
  induction n as [|c n IH]; [done|]. cbn [all_chars protect]. intros [C A]%andb_prop. rewrite (IH A).
  assert (D : forall x, word_char x = false -> (c =c x) = false).
  { intros x X. destruct (Ascii.eqb_spec c x) as [->|]; [congruence|done]. }
  unfold protect_char. by rewrite !D.
Qed.
Definition words (ns : list string) : Prop := Forall word ns.
Lemma words_snoc ns n : words ns -> word n -> words (ns ++ [n]).
Proof. intros W Wn. apply Forall_app. split; [exact W|]. constructor; [done|constructor]. Qed.
Lemma words_text ns : words ns -> text "," ns = join "," ns.
Proof.
  intros W. unfold text. f_equal. induction W as [|n ns (_ & _ & A & _) W IH]; [done|]. cbn. by rewrite word_protect, IH.
Qed.
Lemma words_separable ns : words ns -> separable "," ns.
Proof.
  induction 1 as [|n ns (N & _) W IH]; [done|]. cbn. destruct ns; [done|]. by split.
Qed.
Lemma join_cons n ns : join "," (n :: ns) = n +:+ match ns with [] => EmptyString | _ => String "," (join "," ns) end.
Proof. destruct ns; cbn; [by rewrite sapp_nil|done]. Qed.
Lemma join_chars ns c : words ns -> word_char c = false -> c <> ","%char -> strchr (join "," ns) c = false.
Proof.
  intros W F N. induction W as [|n ns (_ & _ & A & _) W IH]; [done|]. rewrite join_cons, strchr_app, (all_chars_without n c) by done.
  destruct ns; [done|]. cbn [strchr orb]. rewrite IH. by destruct (Ascii.eqb_spec "," c).
Qed.
Lemma words_own ns : words ns -> ns <> [] -> own_delim (join "," ns) "," = (join "," ns, ","%char).
Proof.
  intros W N. pose proof (join_chars ns "^" W eq_refl ltac:(done)) as C. unfold own_delim.
  destruct (join "," ns) as [|a [|b [|c [|e r]]]]; try done. cbn in C. by apply orb_false_elim in C as [-> _].
Qed.
Lemma words_separate ns : words ns -> ns <> [] -> (length ns <= 256)%nat ->
  switch_separate_string (Some (join "," ns)) "," 256 = Ok ns.
Proof.
  intros W N L. rewrite <- words_text by done. apply separate_text; [done|by apply words_separable|done|done|].
  rewrite words_text by done. by apply words_own.
Qed.
Lemma strip_prefix_app p a c b : strip_prefix p a = None -> strchr p c = false -> strip_prefix p (a +:+ String c b) = None.
Proof.
  revert a. induction p as [|d p IH]; intros a S C; [by destruct a|]. cbn in C. apply orb_false_elim in C as [C1 C].
  destruct a as [|x a]; [rewrite sapp_empty; cbn; by rewrite C1|]. rewrite sapp_cons. cbn in *. destruct (d =c x); [by apply IH|done].
Qed.
Lemma join_simple ns : words ns -> ns <> [] -> simple_value (join "," ns).
Proof.
  intros W N. split_and!.
  - destruct ns as [|n ns]; [done|]. apply Forall_cons in W as [(? & _) _]. rewrite join_cons. by destruct n.
  - destruct ns as [|n ns]; [done|]. apply Forall_cons in W as [(_ & _ & _ & P) _]. rewrite join_cons.
    destruct ns; [by rewrite sapp_nil|]. by apply strip_prefix_app.
  - apply unchecked_chars. by apply join_chars.
Qed.

(** Settings, one after the other. *)
Definition sets (l : list (string * string)) : list var_op :=
  (fun e => OpAdd SWITCH_STACK_BOTTOM e.1 e.2 true) <$> l.
Definition settable (e : string * string) : Prop := word e.1 /\ simple_value e.2.
Definition lowers (ns : list string) : list string := slower <$> ns.

Lemma sets_ok l : Forall settable l -> Forall var_op_ok (sets l).
Proof.
  induction 1 as [|[n v] l [W (V & P & _)] _ IH]; constructor; [|done].
  split_and!; [by constructor|by destruct W|by apply word_plain|done].
Qed.
Lemma sets_calls d l : var_calls d (sets l) = 
  match l with [] => Ok d | e :: l => let* d := set_variable d (Some e.1) (Some e.2) in var_calls d (sets l) end.
Proof.
  destruct l as [|[n v] l]; [done|]. cbn. unfold set_variable, switch_channel_set_variable_var_check.
  by destruct (switch_channel_add_variable_var_check _ _ _ _ _) as [[? ?]| |].
Qed.
Lemma step_set m n v : simple_value v -> var_step m (OpAdd SWITCH_STACK_BOTTOM n v true) = vset false n [v] m.
Proof. intros (V & _ & C). cbn [var_step]. rewrite (proj2 (String.eqb_neq _ _) V), C. by destruct v. Qed.
Lemma strcaseeq_neq a b : slower a <> slower b -> strcaseeq a b = false.
Proof. intros N. destruct (strcaseeq a b) eqn:E; [|done]. by apply strcaseeq_slower in E. Qed.

(** What settings of distinct names leave. *)
Lemma sets_other l n : Forall settable l -> slower n ∉ lowers l.*1 -> forall m, vfind n (foldl var_step m (sets l)) = vfind n m.
Proof.
  induction 1 as [|[a v] l [_ S] _ IH]; intros N m; [done|]. unfold sets in *. cbn [fmap list_fmap foldl].
  apply not_elem_of_cons in N as [N1 N]. rewrite IH by done. cbn [fst snd] in *. rewrite step_set, vfind_vset by done.
  by rewrite strcaseeq_neq.
Qed.
Lemma sets_find l n v : Forall settable l -> NoDup (lowers l.*1) -> (n, v) ∈ l ->
  forall m, vfind n (foldl var_step m (sets l)) = Some [v].
Proof.
  induction 1 as [|[a w] l [W S] F IH]; intros D I m; [by apply elem_of_nil in I|].
  apply NoDup_cons in D as [D1 D]. change (sets ((a, w) :: l)) with (OpAdd SWITCH_STACK_BOTTOM a w true :: sets l). cbn [foldl].
  apply elem_of_cons in I as [[= -> ->]|I]; [|by apply IH]. cbn [fst snd] in *. rewrite sets_other by done.
  rewrite step_set, vfind_vset by done. by rewrite strcaseeq_refl.
Qed.

Section Exporting.
Context (g : switch_event) (exp : string).

Fixpoint export_calls (d : channel_data) (l : list (string * string)) : outcome channel_data :=
  match l with
  | [] => Ok d
  | e :: l =>
    let* (d, _) := switch_channel_export_variable_var_check g d (Some e.1) (Some e.2) exp true in export_calls d l
  end.

Hypothesis exp_word : word exp.

Lemma join_snoc ns n : ns <> [] -> join "," (ns ++ [n]) = join "," ns +:+ "," +:+ n.
Proof.
  induction ns as [|a ns IH]; [done|]. intros _. cbn [app]. rewrite !join_cons. destruct ns as [|b ns]; cbn [app].
  - cbn. by rewrite sapp_nil.
  - change (b :: ns ++ [n]) with ((b :: ns) ++ [n]). rewrite IH by done. by rewrite sapp_assoc, !sapp_cons.
Qed.

(** Two settings: the variable, and the longer list. *)
Lemma export_one_spec d ev ns n v : variables d = Some ev -> uniq_event ev -> zlen (headers ev) + 2 < 999999 ->
  scope_variables d = [] -> profile_variable g d exp = Ok None -> words ns -> settable (n, v) ->
  vfind exp (vars ev) = match ns with [] => None | _ => Some [join "," ns] end ->
  exists d', (let* (d, _) := switch_channel_export_variable_var_check g d (Some n) (Some v) exp true in Ok d) = Ok d' /\
    now_has d d' (foldl var_step (vars ev) (sets [(n, v); (exp, join "," (ns ++ [n]))])) [].
Proof using exp_word.
  intros E U F S PV W [Wn Sv] X. cbn [fst snd] in *.
  set (j := join "," (ns ++ [n])).
  assert (Sj : simple_value j). { apply join_simple; [by apply words_snoc|by destruct ns]. }
  assert (OK : Forall settable [(n, v); (exp, j)]) by (apply Forall_cons; split; [by split|]; apply Forall_cons; split; [by split|constructor]).
  destruct (var_calls_spec (sets [(n, v); (exp, j)]) d ev E U (sets_ok _ OK)) as (d' & R & H); [cbn; lia|].
  exists d'. rewrite S in H. cbn in H. split; [|exact H].
  unfold switch_channel_export_variable_var_check.
  assert (Hd : now_has d d (vars ev) []). { exists ev. split_and!; [done..|]. destruct d; cbn in *; subst; done. }
  destruct exp_word as (X1 & X2 & _).
  rewrite (get_variable_spec g d d (vars ev) [] exp Hd) by (done || constructor). cbn [fmap list_fmap app find_map]. rewrite X.
  rewrite sets_calls in R. cbn [fst snd] in R. unfold set_variable in R at 1.
  assert (J : match match ns with [] => None | _ :: _ => Some (join "," ns) end with Some e => e +:+ "," +:+ n | None => n end = j).
  { subst j. destruct ns; [done|]. by rewrite join_snoc. }
  destruct (switch_channel_set_variable_var_check d (Some n) (Some v) true) as [[d1 st]| |] eqn:E1; [|done..].
  rewrite sets_calls in R. cbn [fst snd] in R.
  destruct ns as [|a ns]; cbv iota beta in *; [rewrite PV|change (array_value [?x]) with x]; rewrite J; destruct (set_variable d1 _ _); done.
Qed.

Definition held (m : vars_t) (e : string * string) : Prop := vfind e.1 m = Some [e.2].
Definition listing (l : list (string * string)) : option (list string) :=
  match l with [] => None | _ => Some [join "," l.*1] end.

Lemma now_has_trans d d1 d2 m m' s s' : now_has d d1 m s -> now_has d1 d2 m' s' -> now_has d d2 m' s'.
Proof. intros (e1 & _ & _ & ->) (e2 & U & V & ->). exists e2. split_and!; [done..|]. by destruct d. Qed.

Lemma step_held gone n v l j m : settable (n, v) -> simple_value j -> NoDup (lowers (exp :: (gone ++ (n, v) :: l).*1)) ->
  Forall (held m) gone ->
  let m' := foldl var_step m (sets [(n, v); (exp, j)]) in
  Forall (held m') (gone ++ [(n, v)]) /\ vfind exp m' = Some [j].
Proof using exp_word.
  intros Sn Sj D H m'.
  assert (OK : Forall settable [(n, v); (exp, j)]) by (apply Forall_cons; split; [done|]; apply Forall_cons; split; [by split|constructor]).
  unfold lowers in D. rewrite fmap_cons, !fmap_app, !fmap_cons in D. cbn [fst] in D. apply NoDup_cons in D as [D1 D].
  apply NoDup_app in D as (_ & D2 & _). apply not_elem_of_app in D1 as [D1 D1'].
  assert (NE : slower n <> slower exp). { intros K. apply D1'. rewrite <- K. left. }
  assert (D3 : NoDup (lowers [(n, v); (exp, j)].*1)).
  { apply NoDup_cons. split; [by intros K%list_elem_of_singleton|apply NoDup_singleton]. }
  split; [apply Forall_app; split|].
  - rewrite Forall_forall in H |- *. intros e I. unfold held. subst m'.
    assert (Ie : slower e.1 ∈ slower <$> gone.*1) by (by do 2 apply list_elem_of_fmap_2).
    rewrite sets_other; [by apply H|done|]. cbn. intros K. apply elem_of_cons in K as [K|K%list_elem_of_singleton].
    + apply (D2 _ Ie). cbn in K. rewrite K. left.
    + apply D1. by rewrite <- K.
  - constructor; [|constructor]. apply sets_find; [done..|left].
  - apply sets_find; [done..|right; left].
Qed.

Lemma export_calls_spec l : forall gone d ev, variables d = Some ev -> uniq_event ev ->
  zlen (headers ev) + 2 * zlen l < 999999 -> scope_variables d = [] -> profile_variable g d exp = Ok None ->
  Forall settable (gone ++ l) -> NoDup (lowers (exp :: (gone ++ l).*1)) -> Forall (held (vars ev)) gone ->
  vfind exp (vars ev) = listing gone ->
  exists d' m, export_calls d l = Ok d' /\ now_has d d' m [] /\ Forall (held m) (gone ++ l) /\
    vfind exp m = listing (gone ++ l).
Proof using exp_word.
  induction l as [|[n v] l IH]; intros gone d ev E U L S PV F D H X; cbn [export_calls].
  - rewrite app_nil_r in *. exists d, (vars ev). split_and!; try done. exists ev. split_and!; [done..|].
    destruct d; cbn in *; by subst.
  - cbn [length] in L. pose proof F as [Fg [Fn Fl]%Forall_cons]%Forall_app.
    assert (W : words gone.*1). { clear -Fg. induction Fg as [|e gone [We _] _ IH]; by constructor. }
    assert (X' : vfind exp (vars ev) = match gone.*1 with [] => None | _ => Some [join "," gone.*1] end) by (by destruct gone).
    destruct (export_one_spec d ev gone.*1 n v E U ltac:(lia) S PV W Fn X') as (d1 & R & N1).
    cbn [fst snd]. destruct (switch_channel_export_variable_var_check g d (Some n) (Some v) exp true) as [[d1' st]| |]; [|done..].
    injection R as ->. destruct N1 as (ev1 & U1 & V1 & ->).
    assert (LE : zlen (headers ev1) <= zlen (headers ev) + 2).
    { pose proof (var_step_length (vars ev) (OpAdd SWITCH_STACK_BOTTOM n v true)) as A.
      pose proof (var_step_length (var_step (vars ev) (OpAdd SWITCH_STACK_BOTTOM n v true))
        (OpAdd SWITCH_STACK_BOTTOM exp (join "," (gone.*1 ++ [n])) true)) as B.
      cbn [sets fmap list_fmap foldl fst snd] in V1. rewrite <- V1 in B. unfold vars in A, B. rewrite !length_fmap in *. lia. }
    assert (Sj : simple_value (join "," (gone.*1 ++ [n]))).
    { apply join_simple; [apply words_snoc; [done|by destruct Fn]|by destruct gone]. }
    destruct (step_held gone n v l _ (vars ev) Fn Sj D H) as [H1 X1]. rewrite <- V1 in H1, X1.
    destruct (IH (gone ++ [(n, v)]) (d <| variables := Some ev1 |> <| scope_variables := [] |>) ev1)
      as (d' & m & E' & N' & H' & X2); try done; rewrite <- ?app_assoc; try done; [lia| |].
    + rewrite X1. unfold listing. rewrite fmap_app. by destruct gone.
    + rewrite <- app_assoc in H', X2. exists d', m. split_and!; [done| |done..].
      eapply now_has_trans; [|exact N']. exists ev1. by split_and!.
Qed.

(** What the other leg is given. *)
Definition stripped (l : list (string * string)) : list (string * string) := (fun e => (strip_nolocal e.1, e.2)) <$> l.

Lemma export_all_calls d l : Forall (fun e => switch_channel_get_variable g d e.1 = Ok (Some e.2)) l ->
  forall p, export_all g d l.*1 (Some p) None = (let* p := var_calls p (sets (stripped l)) in Ok (Some p, None)).
Proof using Type.
  induction 1 as [|e l G _ IH]; intros p; [done|]. rewrite sets_calls. cbn [fmap list_fmap export_all stripped fst snd].
  unfold export_one. rewrite G. cbv beta iota. destruct (set_variable p _ _); [apply IH|done..].
Qed.

Lemma process_export_calls d m l p : now_has d d m [] -> l <> [] -> (length l <= 256)%nat -> Forall settable l ->
  Forall (held m) l -> vfind exp m = Some [join "," l.*1] ->
  switch_channel_process_export g d (Some p) None exp =
  (let* p := var_calls p (sets ((exp, join "," l.*1) :: stripped l)) in Ok (Some p, None)).
Proof using exp_word.
  intros N Nl L F H X. unfold switch_channel_process_export.
  assert (G : forall n v, n <> EmptyString -> n <> "_body"%string -> vfind n m = Some [v] ->
    switch_channel_get_variable g d n = Ok (Some v)).
  { intros n v N1 N2 V. rewrite (get_variable_spec g d d m [] n) by (done || constructor). cbn. by rewrite V. }
  destruct exp_word as (X1 & X2 & _). rewrite (G exp _ X1 X2 X).
  assert (W : words l.*1). { clear -F. induction F as [|e l [We _] _ IH]; by constructor. }
  assert (Nn : l.*1 <> []) by (by destruct l).
  destruct (join_simple _ W Nn) as (J & _). rewrite sets_calls. cbn [fst snd].
  destruct (join "," l.*1) as [|c r] eqn:EJ; [done|]. cbv beta iota. rewrite <- EJ.
  destruct (set_variable p _ _); [|done..]. rewrite words_separate by (rewrite ?length_fmap; done).
  apply export_all_calls. apply Forall_forall. intros e I. rewrite Forall_forall in H, F.
  destruct (F e I) as [(N1 & N2 & _) _]. by apply G, H.
Qed.
End Exporting.

(** How a name is listed: as it is, or with one of the two marks. *)
Inductive mark := Unmarked | Nolocal | Underscored.
Definition marked (k : mark) (n : string) : string :=
  match k with Unmarked => n | Nolocal => "nolocal:" +:+ n | Underscored => "_nolocal_" +:+ n end.
Definition sent (e : mark * (string * string)) : string * string := (marked e.1 e.2.1, e.2.2).
Definition unmarked (e : mark * (string * string)) : Prop :=
  e.1 = Unmarked -> prefix_nocase "nolocal:" e.2.1 = false /\ prefix_nocase "_nolocal_" e.2.1 = false.
Lemma strip_marked e : unmarked e -> strip_nolocal (marked e.1 e.2.1) = e.2.1.
Proof.
  destruct e as [[] [n v]]; cbn [fst snd]; intros U; [|reflexivity..]. destruct (U eq_refl) as [A B]. cbn [fst snd] in A, B. unfold strip_nolocal, marked.
  by rewrite A, B.
Qed.
Lemma stripped_sent es : Forall unmarked es -> stripped (sent <$> es) = es.*2.
Proof.
  induction 1 as [|[k [n v]] es U _ IH]; [done|]. unfold stripped in *. rewrite !fmap_cons, IH. f_equal. cbn [sent fst snd].
  exact (f_equal (fun x => (x, v)) (strip_marked (k, (n, v)) U)).
Qed.

(** C20. Variables that are exported under a list of names reach the other leg: the list of
    their names, as they were given, is kept in the variable that names it, and when the export is processed
    every variable is set there to the value it was exported with, under its name without the mark
    ("nolocal:" or "_nolocal_") that may stand before it; no other variable of the
    other leg changes.  For at most 256 names that differ in more than case and have none of the characters of separators,
    quotes and references, values that are not empty, hold no reference and do not look like an array, and legs
    without scopes, the first without an earlier list of exports.  A value with a reference is
    not set, but its name is listed: [export_stale]. *)
Theorem export_transfers g exp es d ev p pev :
  let l := sent <$> es in
  word exp -> Forall unmarked es -> Forall settable l -> Forall settable es.*2 ->
  NoDup (lowers (exp :: l.*1)) -> NoDup (lowers (exp :: es.*2.*1)) -> es <> [] -> (length es <= 256)%nat ->
  variables d = Some ev -> uniq_event ev -> scope_variables d = [] -> zlen (headers ev) < 999000 ->
  vfind exp (vars ev) = None -> profile_variable g d exp = Ok None ->
  variables p = Some pev -> uniq_event pev -> scope_variables p = [] -> zlen (headers pev) < 999000 ->
  exists d' p', export_calls g exp d l = Ok d' /\
    switch_channel_process_export g d' (Some p) None exp = Ok (Some p', None) /\
    switch_channel_get_variable g p' exp = Ok (Some (join "," l.*1)) /\
    Forall (fun e => switch_channel_get_variable g p' e.2.1 = Ok (Some e.2.2)) es /\
    forall n, n <> EmptyString -> n <> "_body"%string -> slower n ∉ lowers (exp :: es.*2.*1) ->
      switch_channel_get_variable g p' n = switch_channel_get_variable g p n.
Proof.
  intros l Wx Un F Fs D Ds Ne Le E U S Lh X PV Ep Up Sp Lp.
  assert (Nl : l <> []) by (by subst l; destruct es). assert (L : (length l <= 256)%nat) by (subst l; by rewrite length_fmap).
  assert (St : stripped l = es.*2) by (by apply stripped_sent).
  destruct (export_calls_spec g exp Wx l [] d ev) as (d' & m & R & N & H & X'); try done; [lia|]. cbn [app] in H, X'.
  exists d'. rewrite R.
  assert (N' : now_has d' d' m []).
  { destruct N as (e & Ue & V & ->). exists e. by split_and!. }
  rewrite (process_export_calls g exp Wx d' m l p N' Nl L F H) by (by destruct l).
  rewrite St. set (os := (exp, join "," l.*1) :: es.*2).
  assert (W : words l.*1). { clear -F. induction F as [|e l [We _] _ IH]; by constructor. }
  assert (OK : Forall settable os).
  { apply Forall_cons. split; [|done]. split; [done|]. apply join_simple; [done|by destruct l]. }
  assert (Lo : (length (sets os) <= 257)%nat). { unfold sets, os. rewrite !fmap_cons. cbn [length]. rewrite !length_fmap. lia. }
  destruct (var_calls_spec (sets os) p pev Ep Up (sets_ok _ OK)) as (p' & -> & Np); [lia|]. exists p'.
  assert (Sc : forall os, foldl scope_step [] (sets os) = []). { intros o. induction o; done. }
  rewrite Sp, Sc in Np.
  assert (G : forall n v, word n -> (n, v) ∈ os -> switch_channel_get_variable g p' n = Ok (Some v)).
  { intros n v (N1 & N2 & _) I. rewrite (get_variable_spec g p p' _ [] n Np) by (done || constructor). cbn [fmap list_fmap app find_map].
    by rewrite (sets_find os n v OK Ds I). }
  split_and!; [done|done|apply G; [done|left]| |].
  - apply Forall_forall. intros [k [n v]] I. assert (Is : (n, v) ∈ es.*2) by (by apply (list_elem_of_fmap_2 snd) in I).
    rewrite Forall_forall in Fs. apply G; [by destruct (Fs _ Is)|by right].
  - intros n N1 N2 A. rewrite (get_variable_spec g p p' _ [] n Np) by (done || constructor).
    assert (Np0 : now_has p p (vars pev) []). { exists pev. split_and!; [done..|]. destruct p; cbn in *; by subst. }
    rewrite (get_variable_spec g p p _ [] n Np0) by (done || constructor). cbn [fmap list_fmap app find_map].
    by rewrite (sets_other os n OK A).
Qed.

(** ** Examples *)

(** A channel without a profile. *)
Definition w_channel (ev : switch_event) : channel_data :=
  Data (Some ev) [] None ∅ 0 ∅ None None "u" 0 true true false false false.
Definition w_scope (n v : string) : switch_event := match vcalls w_blank [VSet false n v] with Ok ev => ev | _ => w_blank end.
Lemma w_scope_uniq n v : plain_name n -> plain v -> n <> EmptyString -> uniq_event (w_scope n v).
Proof.
  intros P Pv N. unfold w_scope. destruct (vcalls_spec w_blank [VSet false n v]) as (ev & -> & U & _); [exact w_blank_uniq| |vm_compute; reflexivity|exact U].
  constructor; [by split_and!|constructor].
Qed.

Definition w_var_ops : list var_op :=
  [OpAdd SWITCH_STACK_BOTTOM "codec" "PCMU" true; OpAdd SWITCH_STACK_PUSH "Codec" "PCMA" false;
   OpAdd SWITCH_STACK_BOTTOM "bad" "${x}" true; OpPush (w_scope "codec" "GSM"); OpPush (w_scope "lang" "de");
   OpAdd SWITCH_STACK_BOTTOM "lang" "en" true; OpPop]%string.
Lemma variables_map_witness :
  exists d', var_calls (w_channel w_blank) w_var_ops = Ok d' /\
    switch_channel_get_variable w_blank d' "CODEC" = Ok (Some "GSM"%string) /\
    switch_channel_get_variable w_blank d' "lang" = Ok (Some "en"%string) /\
    switch_channel_get_variable w_blank d' "bad" = Ok None.
Proof.
  destruct (variables_map w_blank (w_channel w_blank) w_blank w_var_ops) as (d' & E & G).
  - reflexivity.
  - exact w_blank_uniq.
  - constructor.
  - repeat (constructor; [first [exact I | by apply w_scope_uniq |
      split_and!; [by apply (bool_decide_unpack _)|done..]]|]). constructor.
  - vm_compute. reflexivity.
  - exists d'. split; [exact E|]. split_and!; rewrite G by done; vm_compute; reflexivity.
Defined.

Definition w_exports : list (mark * (string * string)) :=
  [(Unmarked, ("codec", "PCMU")); (Nolocal, ("lang", "de")); (Underscored, ("x", "a,b"))]%string.
Lemma export_transfers_witness :
  exists d' p', export_calls w_blank "export_vars" (w_channel w_event) (sent <$> w_exports) = Ok d' /\
    switch_channel_process_export w_blank d' (Some (w_channel w_blank)) None "export_vars" = Ok (Some p', None) /\
    switch_channel_get_variable w_blank p' "export_vars" = Ok (Some "codec,nolocal:lang,_nolocal_x"%string) /\
    switch_channel_get_variable w_blank p' "lang" = Ok (Some "de"%string).
Proof.
  destruct (export_transfers w_blank "export_vars" w_exports (w_channel w_event) w_event (w_channel w_blank) w_blank)
    as (d' & p' & E & P & L & V & _).
  - by split_and!.
  - repeat (constructor; [by intros|]). constructor.
  - repeat (constructor; [by split_and!|]). constructor.
  - repeat (constructor; [by split_and!|]). constructor.
  - by apply (bool_decide_unpack _).
  - by apply (bool_decide_unpack _).
  - done.
  - vm_compute. lia.
  - reflexivity.
  - exact w_event_uniq.
  - reflexivity.
  - vm_compute. reflexivity.
  - vm_compute. reflexivity.
  - vm_compute. reflexivity.
  - reflexivity.
  - exact w_blank_uniq.
  - reflexivity.
  - vm_compute. reflexivity.
  - exists d', p'. split_and!; [exact E|exact P|exact L|]. apply Forall_cons in V as [_ V].
    apply Forall_cons in V as [V _]. exact V.
Defined.

(** ** Defects *)

(** The name of an exported variable is listed although a value with a reference
    is not set: what is exported is the value from before. *)
Lemma export_stale :
  (let* d := set_variable (w_channel w_blank) (Some "x") (Some "old") in
   let* (d, _) := switch_channel_export_variable_var_check w_blank d (Some "x") (Some "${new}") "export_vars" true in
   let* (p, _) := switch_channel_process_export w_blank d (Some (w_channel w_blank)) None "export_vars" in
   match p with Some p => switch_channel_get_variable w_blank p "x" | None => Ok None end)%string = Ok (Some "old"%string).
Proof. vm_compute. reflexivity. Qed.

(** Of two scopes with a variable the outer one's is what
    [switch_channel_get_scope_variables] gives, since it asks for the value's text as a name. *)
Lemma scope_order_lost :
  (let* d := var_calls (w_channel w_blank) [OpPush (w_scope "lang" "outer"); OpPush (w_scope "lang" "inner")] in
   let* read := switch_channel_get_variable w_blank d "lang" in
   let* (_, ev) := switch_channel_get_scope_variables d in
   match ev with Some ev => Ok (read, switch_event_get_header ev "lang") | None => UB end)%string =
  Ok (Some "inner", Some "outer")%string.
Proof. vm_compute. reflexivity. Qed.

(** The variables with a prefix are deleted, but the count is always 0. *)
Lemma del_prefix_uncounted d prefix d' n : switch_channel_del_variable_prefix d prefix = Ok (d', n) -> n = 0.
Proof.
  unfold switch_channel_del_variable_prefix. destruct (variables d); [|by intros [= _ <-]].
  destruct (switch_event_dup s) as [[copy|]| |]; [|done..]. by destruct (unset_prefix _ _ _); [intros [= _ <-]|..].
Qed.
