(* ===== verification/ProfileFields.v ===== *)
(** * Fields of caller profiles

    No field of a new profile has a reference to a variable ([caller_profile_inert]);
    setting a field by name changes it and nothing else ([profile_var_exact]);
    copies read as their originals ([profile_dup_reads]); exchanging caller and callee
    twice changes nothing ([flip_cid_restores]); a cloned extension is what
    is left to execute ([extension_clone_rest]). *)
From stdpp Require Import strings pretty.
From S2P Require Import Prelude CStrings StringUtils Url Separator EventTypes Event EventVars TextChecks Caller Variables Profiles VariableMaps.
From Stdlib Require Import String Ascii.
Open Scope Z_scope.
#[local] Notation length := List.length (only parsing).

(** ** The tables *)

Lemma find_field_in {A} name (l : list (string * A)) f : find_field name l = Some f ->
  exists n, (n, f) ∈ l /\ slower n = slower name.
Proof.
  induction l as [|[n a] l IH]; [done|]. cbn [find_field]. destruct (strcaseeq name n) eqn:E.
  - intros [= ->]. exists n. split; [left|]. symmetry. by apply strcaseeq_slower.
  - intros (k & I & S)%IH. exists k. split; [by right|done].
Qed.
Lemma find_field_lower {A} a b (l : list (string * A)) : slower a = slower b -> find_field a l = find_field b l.
Proof.
  intros S. induction l as [|[n f] l IH]; [done|]. cbn [find_field]. rewrite IH.
  destruct (strcaseeq a n) eqn:E; destruct (strcaseeq b n) eqn:F; try done; apply strcaseeq_slower in E || apply strcaseeq_slower in F;
    [assert (strcaseeq b n = true) by (apply strcaseeq_slower; congruence)|assert (strcaseeq a n = true) by (apply strcaseeq_slower; congruence)];
    congruence.
Qed.
Lemma find_setter_in name val (l : list (string * setter)) s : find_setter name val l = Some s ->
  exists n, (n, s) ∈ l /\ slower n = slower name.
Proof.
  induction l as [|[n a] l IH]; [done|]. cbn [find_setter].
  destruct (negb _ && strcaseeq name n) eqn:E.
  - intros [= ->]. apply andb_prop in E as [_ E]. exists n. split; [left|]. symmetry. by apply strcaseeq_slower.
  - intros (k & I & S)%IH. exists k. split; [by right|done].
Qed.

(** A property of every entry of a table, entry by entry. *)
Ltac each_entry tac := repeat (apply Forall_cons; split; [cbn [fst snd]; tac|]); solve [constructor].

(** ** New profiles *)

Definition inert_field (p : switch_caller_profile) (f : switch_caller_profile -> outcome (option string)) : Prop :=
  forall v, f p = Ok (Some v) -> switch_string_var_check_const v = false.

Lemma dup_clean_inert a v : profile_dup_clean a = Some v -> switch_string_var_check_const v = false.
Proof.
  unfold profile_dup_clean. destruct a as [s|]; [|by intros [= <-]].
  destruct (negb _); intros [= <-]; [apply var_clean_checked|done].
Qed.

Lemma new_inert uuid u d cn c na a a3 r s x n :
  Forall (fun q => inert_field (switch_caller_profile_new uuid u d cn c na a a3 r s x n) q.2) field_table.
Proof.
  unfold field_table.
  each_entry ltac:(intros v; try done; intros [= E]; first [by apply dup_clean_inert in E | by subst v]).
Qed.

(** C21. Whatever a caller sends as names, numbers or addresses, no field of the
    profile that is made of it, read under any name, has a reference to a variable:
    expanding it copies it. *)
Theorem caller_profile_inert uuid username dialplan caller_id_name caller_id_number network_addr ani aniii rdnis source
    context destination_number name :
  inert_field (switch_caller_profile_new uuid username dialplan caller_id_name caller_id_number network_addr ani aniii
    rdnis source context destination_number) (fun p => switch_caller_get_field_by_name p name).
Proof.
  intros v. unfold switch_caller_get_field_by_name. destruct (find_field name field_table) as [f|] eqn:F; [|done].
  apply find_field_in in F as (n & I & _). eapply (proj1 (Forall_forall _ _) (new_inert _ _ _ _ _ _ _ _ _ _ _ _) _ I).
Qed.

(** ** Setting *)

(** How a field reads after it is set. *)
Definition stored (s : setter) (v : string) : string :=
  match s with SetText _ => v | SetNumber _ => pretty (u8 (c_atoi v)) end.
Definition apply_setter (s : setter) (v : string) (p : switch_caller_profile) : switch_caller_profile :=
  match s with SetText f => f (Some v) p | SetNumber f => f (u8 (c_atoi v)) p end.

(** A setter changes the field of its name and no other. *)
Definition sets_one (e : string * setter) : Prop := forall v p,
  switch_caller_get_field_by_name (apply_setter e.2 v p) e.1 = Ok (Some (stored e.2 v)) /\
  Forall (fun q => String.eqb (slower e.1) (slower q.1) = false -> q.2 (apply_setter e.2 v p) = q.2 p) field_table.
Ltac field_case :=
  let D := fresh in intros D; vm_compute in D;
  first [discriminate D | clear D; cbn [snd apply_setter]; unfold text_field, number_field, flag_field, time_field; rupd; reflexivity].
Lemma all_set_one : Forall sets_one set_table.
Proof.
  unfold set_table. each_entry ltac:(intros v p; split; [reflexivity|]; unfold field_table; each_entry field_case).
Qed.

Lemma strcaseeq_swap a b : strcaseeq a b = String.eqb (slower a) (slower b).
Proof.
  destruct (String.eqb_spec (slower a) (slower b)) as [E|N]; [by apply strcaseeq_slower|by apply strcaseeq_neq].
Qed.
Lemma set_soft_cons k w l n v : set_soft ((k, w) :: l) n v = if strcaseeq k n then (k, v) :: l else (k, w) :: set_soft l n v.
Proof. reflexivity. Qed.
Lemma find_set_soft m l n v : find_field m (set_soft l n v) = if strcaseeq m n then Some v else find_field m l.
Proof.
  induction l as [|[k w] l IH]; [done|]. rewrite set_soft_cons.
  rewrite !strcaseeq_swap in *. destruct (String.eqb_spec (slower k) (slower n)) as [E|N]; cbn [find_field]; rewrite !strcaseeq_swap.
  - rewrite E. by destruct (String.eqb_spec (slower m) (slower n)).
  - rewrite IH. destruct (String.eqb_spec (slower m) (slower k)) as [->|]; [|done]. by rewrite (proj2 (String.eqb_neq _ _) N).
Qed.
Lemma field_lower p a b : slower a = slower b -> switch_caller_get_field_by_name p a = switch_caller_get_field_by_name p b.
Proof. intros S. unfold switch_caller_get_field_by_name. by rewrite (find_field_lower a b). Qed.
Lemma fields_not_soft : Forall (fun q => forall p s, q.2 (p <| soft := s |>) = q.2 p) field_table.
Proof. unfold field_table. each_entry ltac:(intros; reflexivity). Qed.
Lemma setters_not_soft : Forall (fun e => forall v p, soft (apply_setter e.2 v p) = soft p) set_table.
Proof. unfold set_table. each_entry ltac:(intros; reflexivity). Qed.
Lemma field_soft p s m : switch_caller_get_field_by_name (p <| soft := s |>) m = switch_caller_get_field_by_name p m.
Proof.
  unfold switch_caller_get_field_by_name. destruct (find_field m field_table) as [f|] eqn:F; [|done].
  apply find_field_in in F as (n & I & _). apply (proj1 (Forall_forall _ _) fields_not_soft _ I).
Qed.
Lemma setter_exact name s v p : find_setter name true set_table = Some s \/ find_setter name false set_table = Some s ->
  switch_caller_get_field_by_name (apply_setter s v p) name = Ok (Some (stored s v)) /\
  forall m, strcaseeq m name = false ->
    switch_caller_get_field_by_name (apply_setter s v p) m = switch_caller_get_field_by_name p m.
Proof.
  intros F. assert (I : exists n, (n, s) ∈ set_table /\ slower n = slower name) by (destruct F; by eapply find_setter_in).
  destruct I as (n & I & S). pose proof all_set_one as A. rewrite Forall_forall in A. destruct (A _ I v p) as [R O].
  split; [by rewrite <- (field_lower _ n name S)|]. intros m N. rewrite strcaseeq_swap, <- S in N.
  unfold switch_caller_get_field_by_name. destruct (find_field m field_table) as [f|] eqn:E; [|done].
  apply find_field_in in E as (q & Iq & Sq). rewrite Forall_forall in O. apply (O _ Iq). cbn [fst].
  rewrite Sq. by rewrite String.eqb_sym.
Qed.

(** Setting a field of a channel's profile by its name, in any case of letters, sets
    that field of the current profile, numbers to the value of their digits modulo
    256, and changes no other field; under a name that no setting knows all fields
    stay and the value is kept among the soft ones. *)
Theorem profile_var_exact set_device_id d k p name val :
  d_profile d = Some k -> profiles d !! k = Some p -> strcaseeq name "device_id" = false ->
  let v := default EmptyString val in
  exists p', switch_channel_set_profile_var set_device_id d name val =
    Ok (d <| profiles := <[k := p']> (profiles d) |>, SWITCH_STATUS_SUCCESS) /\
    match find_setter name (match val with Some _ => true | None => false end) set_table with
    | Some s => switch_caller_get_field_by_name p' name = Ok (Some (stored s v)) /\ soft p' = soft p /\
        forall m, strcaseeq m name = false -> switch_caller_get_field_by_name p' m = switch_caller_get_field_by_name p m
    | None => (forall m, switch_caller_get_field_by_name p' m = switch_caller_get_field_by_name p m) /\
        forall m, find_field m (soft p') = if strcaseeq m name then Some v else find_field m (soft p)
    end.
Proof.
  intros Dp Pk Nd v. exists (assign name val p). split.
  - unfold switch_channel_set_profile_var. rewrite Nd, Dp. cbn [andb profile_at put_profile]. rewrite Pk. by destruct val.
  - assert (V : (if zstr val then SWITCH_BLANK_STRING else v) = v) by (subst v; by destruct val as [[|]|]).
    unfold assign. fold v. rewrite V. destruct (find_setter name _ set_table) as [s|] eqn:F.
    + assert (F' : find_setter name true set_table = Some s \/ find_setter name false set_table = Some s) by (destruct val; auto).
      change (match s with SetText f => f (Some v) p | SetNumber f => f (u8 (c_atoi v)) p end) with (apply_setter s v p).
      destruct (setter_exact name s v p F') as [R O]. split_and!; [done| |done].
      apply find_setter_in in F as (n & I & _). apply (proj1 (Forall_forall _ _) setters_not_soft _ I).
    + split; [intros m; apply field_soft|]. intros m. apply find_set_soft.
Qed.

(** ** Copies *)

(** A null text and an empty one read the same. *)
Definition same_reading (a b : outcome (option string)) : Prop :=
  match a, b with
  | Ok a, Ok b => default EmptyString a = default EmptyString b
  | Assert, Assert | UB, UB => True
  | _, _ => False
  end.
Definition not_copied (n : string) : bool :=
  existsb (String.eqb n) ["transfer_source"; "profile_index"; "profile_created_time"; "created_time"; "answered_time";
    "progress_time"; "progress_media_time"; "hungup_time"; "transferred_time"]%string.
Lemma dup_text a : default EmptyString (profile_dup a) = default EmptyString a.
Proof. by destruct a as [[|]|]. Qed.
Lemma reading_refl a : same_reading a a.
Proof. by destruct a. Qed.
Lemma dup_fields uuid p : Forall (fun q => not_copied q.1 = false ->
  same_reading (q.2 (switch_caller_profile_dup uuid p).1) (q.2 p)) field_table.
Proof.
  unfold field_table. each_entry ltac:(let D := fresh in intros D; vm_compute in D;
    first [discriminate D | exact (dup_text _) | exact (reading_refl _)]).
Qed.

(** A copy of a profile reads under every name as its original does, an empty text
    standing for none, but for the source of a transfer, the index and the times, which
    it keeps as the old ones and does not have itself; the original stays, but for a
    table of times that it gets if it has none. *)
Theorem profile_dup_reads uuid p name : not_copied (slower name) = false ->
  let '(copy, orig) := switch_caller_profile_dup uuid p in
  same_reading (switch_caller_get_field_by_name copy name) (switch_caller_get_field_by_name p name) /\
  soft copy = soft p /\ times copy = None /\ old_times copy = times p /\ orig <| times := None |> = p <| times := None |> /\ times orig <> None /\
  (times p <> None -> orig = p).
Proof.
  intros N. unfold switch_caller_profile_dup. cbv zeta beta iota. split_and!.
  - unfold switch_caller_get_field_by_name. destruct (find_field name field_table) as [f|] eqn:F; [|done].
    assert (L : Forall (fun q => slower q.1 = q.1) field_table) by (unfold field_table; each_entry ltac:(vm_compute; reflexivity)).
    apply find_field_in in F as (n & I & S). pose proof (proj1 (Forall_forall _ _) (dup_fields uuid p) _ I) as D.
    apply D. cbn [fst]. pose proof (proj1 (Forall_forall _ _) L _ I) as E. cbn [fst] in E. by rewrite <- E, S.
  - done.
  - done.
  - done.
  - by destruct (times p).
  - by destruct (times p) eqn:T; rewrite ?T.
  - by destruct (times p).
Qed.

(** ** Caller and callee *)

(** The profile with its ends exchanged. *)
Definition exchanged (p : switch_caller_profile) : switch_caller_profile :=
  p <| caller_id_name := callee_id_name p |> <| caller_id_number := callee_id_number p |>
    <| callee_id_name := caller_id_name p |> <| callee_id_number := caller_id_number p |>.
Definition storable (v : option string) : Prop := match v with Some v => plain v | None => True end.

(** Variables change, and one profile. *)
Definition now_holds (d d' : channel_data) (k : Z) (p : switch_caller_profile) : Prop :=
  exists ev, uniq_event ev /\ d' = d <| variables := Some ev |> <| profiles := <[k := p]> (profiles d) |>.

Lemma set_variable_spec d ev n v : variables d = Some ev -> uniq_event ev -> few ev -> n <> EmptyString -> plain_name n ->
  storable v -> exists ev', set_variable d (Some n) v = Ok (d <| variables := Some ev' |>) /\ uniq_event ev' /\
    vars ev' = var_step (vars ev) (OpAdd SWITCH_STACK_BOTTOM n (default EmptyString v) true).
Proof.
  intros E U F N P S. unfold set_variable, switch_channel_set_variable_var_check. destruct v as [v|].
  - destruct (add_variable_spec d ev SWITCH_STACK_BOTTOM n v true E U F) as (ev' & st & -> & U' & V); [|by exists ev'].
    split_and!; [by apply (bool_decide_unpack _)|done..].
  - destruct (var_call_spec d ev (OpUnset n) E U F N) as (d' & R & ev' & U' & V & ->).
    exists ev'. split_and!; [|done..]. cbn [var_call] in R. unfold set_variable, switch_channel_set_variable_var_check in R.
    cbn [scope_step] in R. destruct d; exact R.
Qed.

Lemma step_grows ev ev' o : vars ev' = var_step (vars ev) o -> zlen (headers ev') <= zlen (headers ev) + 1.
Proof. intros V. pose proof (var_step_length (vars ev) o) as K. rewrite <- V in K. unfold vars in K. by rewrite !length_fmap in K. Qed.

Lemma flip_spec d ev k p : d_profile d = Some k -> profiles d !! k = Some p -> bridged d = false ->
  variables d = Some ev -> uniq_event ev -> zlen (headers ev) + 2 < 999999 ->
  callee_id_name p <> None -> callee_id_number p <> None -> storable (caller_id_name p) -> storable (caller_id_number p) ->
  caller_id_name p <> None -> caller_id_number p <> None ->
  exists ev', switch_channel_flip_cid d = Ok (d <| variables := Some ev' |> <| profiles := <[k := exchanged p]> (profiles d) |>) /\
    uniq_event ev' /\ zlen (headers ev') <= zlen (headers ev) + 2.
Proof.
  intros Dp Pk B E U L C1 C2 S1 S2 N1 N2. unfold switch_channel_flip_cid. rewrite Dp. cbn [profile_at]. rewrite Pk.
  destruct (callee_id_name p) as [a|] eqn:Ca; [|done]. destruct (callee_id_number p) as [b|] eqn:Cb; [|done].
  destruct (set_variable_spec d ev "pre_transfer_caller_id_name" (caller_id_name p) E U) as (e1 & -> & U1 & V1); [unfold few; lia|done..|].
  destruct (set_variable_spec (d <| variables := Some e1 |>) e1 "pre_transfer_caller_id_number" (caller_id_number p) ltac:(by rupd) U1)
    as (e2 & -> & U2 & V2); [|done..|].
  { unfold few. apply step_grows in V1. lia. }
  exists e2. split_and!; [|done|].
  - rupd. rewrite B. destruct (caller_id_name p) as [x|] eqn:Cx; [|done]. destruct (caller_id_number p) as [y|] eqn:Cy; [|done].
    cbn [flip_field]. unfold exchanged. rewrite Ca, Cb, Cx, Cy. by destruct d.
  - apply step_grows in V1, V2. lia.
Qed.

Lemma exchanged_twice p : exchanged (exchanged p) = p.
Proof. by destruct p. Qed.

(** Where neither end is unknown and no call is bridged, flipping caller and callee
    exchanges their names and numbers in the profile and nothing else of it, and
    flipping again restores it. *)
Theorem flip_cid_restores d ev k p : d_profile d = Some k -> profiles d !! k = Some p -> bridged d = false ->
  variables d = Some ev -> uniq_event ev -> zlen (headers ev) + 4 < 999999 ->
  Forall (fun v => v <> None /\ storable v) [caller_id_name p; caller_id_number p; callee_id_name p; callee_id_number p] ->
  exists d1 d2, switch_channel_flip_cid d = Ok d1 /\ profile_at d1 (Some k) = Ok (exchanged p) /\
    switch_channel_flip_cid d1 = Ok d2 /\ profile_at d2 (Some k) = Ok p.
Proof.
  intros Dp Pk B E U L F. rewrite !Forall_cons in F. destruct F as ([N1 S1] & [N2 S2] & [N3 S3] & [N4 S4] & _).
  destruct (flip_spec d ev k p) as (e1 & F1 & U1 & L1); try done; [lia|].
  eexists. destruct (flip_spec (d <| variables := Some e1 |> <| profiles := <[k := exchanged p]> (profiles d) |>) e1 k (exchanged p))
    as (e2 & F2 & U2 & L2); try done; [rupd; by rewrite lookup_insert_eq|lia|].
  eexists. split_and!; [exact F1| |exact F2|]; cbn [profile_at]; rupd; rewrite lookup_insert_eq; [done|]. by rewrite exchanged_twice.
Qed.

(** ** Extensions *)

Lemma clone_all current l : forall i, clone_from true current i l = l.
Proof. induction l as [|a l IH]; intros i; cbn; [done|by rewrite IH]. Qed.
Lemma clone_at i l : forall j, (j <= i)%nat -> clone_from false (Some i) j l = drop (i - j) l.
Proof.
  induction l as [|a l IH]; intros j L; [by rewrite drop_nil|]. cbn [clone_from orb]. destruct (bool_decide_reflect (Some i = Some j)) as [[= ->]|N].
  - by rewrite clone_all, Nat.sub_diag.
  - rewrite IH by (assert (i <> j) by congruence; lia). assert (i - j = Datatypes.S (i - Datatypes.S j))%nat as -> by (assert (i <> j) by congruence; lia). done.
Qed.
Lemma clone_none l : forall j, clone_from false None j l = [].
Proof. induction l as [|a l IH]; intros j; cbn; [done|apply IH]. Qed.
Lemma clone_rest e : applications (switch_caller_extension_clone e) = remaining e 0.
Proof.
  unfold switch_caller_extension_clone, remaining. cbn [applications]. destruct (current_application e) as [i|].
  - rewrite clone_at by lia. by rewrite Nat.sub_0_r.
  - apply clone_none.
Qed.
Lemma added_rest l : forall e, applications (add_applications e l) =
  applications e ++ List.filter (fun a => negb (bad_data (application_data a))) l.
Proof.
  induction l as [|[n x] l IH]; intros e; cbn [add_applications]; [by rewrite app_nil_r|]. rewrite IH.
  unfold switch_caller_extension_add_application. cbn [application_name application_data List.filter].
  destruct (bad_data x); [done|]. rupd. by rewrite <- app_assoc.
Qed.

(** A clone of an extension has the applications that the original has yet to
    execute, from the current one on, and starts with them; adding what is left of one
    extension to another keeps their order and leaves out those whose data has an
    escaped quote. *)
Theorem extension_clone_rest e e' offset :
  remaining (switch_caller_extension_clone e) offset = remaining e offset /\
  applications (switch_caller_extension_clone e) = remaining e 0 /\
  applications (add_applications e' (remaining e offset)) =
    applications e' ++ List.filter (fun a => negb (bad_data (application_data a))) (remaining e offset).
Proof.
  split_and!; [|apply clone_rest|apply added_rest].
  assert (R : remaining (switch_caller_extension_clone e) offset = drop (Z.to_nat offset) (applications (switch_caller_extension_clone e))).
  { unfold remaining, switch_caller_extension_clone. cbn [current_application applications].
    destruct (clone_from _ _ _ _); [by rewrite drop_nil|done]. }
  rewrite R, clone_rest. unfold remaining. by destruct (current_application e); [|rewrite drop_nil].
Qed.

(** ** Examples *)

Definition w_profile : switch_caller_profile :=
  (switch_caller_profile_new "u" (Some "alice") (Some "XML") (Some "Alice ${x}") (Some "100") (Some "10.0.0.1") None None None
     (Some "mod") None (Some "200"))%string <| callee_id_name := Some "Bob"%string |> <| callee_id_number := Some "200"%string |>.
Definition w_leg : channel_data := Data (Some w_event) [] (Some 1) {[1 := w_profile]} 2 ∅ None (Some "c"%string) "u" 0 true true false false false.

Lemma profile_var_exact_witness : exists p', 
  switch_channel_set_profile_var Some w_leg "Caller_TON" (Some "300"%string) = Ok (w_leg <| profiles := <[1 := p']> (profiles w_leg) |>, SWITCH_STATUS_SUCCESS) /\
  switch_caller_get_field_by_name p' "caller_ton" = Ok (Some "44"%string).
Proof.
  destruct (profile_var_exact Some w_leg 1 w_profile "Caller_TON" (Some "300"%string)) as (p' & E & R & _); [reflexivity..|].
  exists p'. split; [exact E|]. rewrite (field_lower p' "caller_ton" "Caller_TON") by reflexivity. rewrite R. vm_compute. reflexivity.
Defined.
Lemma profile_dup_reads_witness :
  same_reading (switch_caller_get_field_by_name (switch_caller_profile_dup "v" w_profile).1 "ANI")
    (switch_caller_get_field_by_name w_profile "ANI").
Proof. apply (profile_dup_reads "v" w_profile "ANI"). reflexivity. Defined.
Lemma flip_cid_restores_witness : exists d1 d2, switch_channel_flip_cid w_leg = Ok d1 /\
  profile_at d1 (Some 1) = Ok (exchanged w_profile) /\ switch_channel_flip_cid d1 = Ok d2 /\ profile_at d2 (Some 1) = Ok w_profile.
Proof.
  apply (flip_cid_restores w_leg w_event 1 w_profile); try reflexivity; [exact w_event_uniq|].
  repeat (constructor; [split; [discriminate|vm_compute; reflexivity]|]). constructor.
Defined.

(** ** Defects *)

(** A caller whose callee number is missing: the name is given as the callee's number. *)
Lemma flip_number_mixed :
  (let* d1 := switch_channel_flip_cid (w_leg <| profiles := {[1 := w_profile <| callee_id_number := None |>]} |>) in
   let* p1 := profile_at d1 (Some 1) in Ok (callee_id_number p1, caller_id_number p1)) =
  Ok (caller_id_name w_profile, caller_id_number w_profile).
Proof. vm_compute. reflexivity. Qed.

(** Where the leg that a prefix names is missing, a global variable with the rest of the name is read. *)
Lemma leg_reads_global g d k p n : d_profile d = Some k -> profiles d !! k = Some p -> hunt_caller_profile p = None ->
  originator_caller_profile p = None -> profile_variable g d ("aleg_" +:+ n) = Ok (switch_core_get_variable g n).
Proof.
  intros Dp Pk H O. unfold profile_variable, get_caller_profile. rewrite Dp. cbn [profile_at]. rewrite Pk, H.
  unfold leg_profile. cbn [profile_at]. rewrite Pk. cbn [strip_prefix]. change ("aleg_" +:+ n) with (String "a" (String "l" (String "e" (String "g" (String "_" n))))).
  cbn. by rewrite O.
Qed.

(** Fields that are read under a name under which setting puts a soft one, never read. *)
Lemma read_not_set : Forall (fun n => find_setter n true set_table = None /\ find_field n field_table <> None)
  ["orig_caller_id_name"; "orig_caller_id_number"; "ani_ton"; "ani_numplan"; "rdnis_ton"; "rdnis_numplan"; "transfer_source";
   "profile_index"; "screen_bit"; "privacy_hide_name"; "privacy_hide_number"]%string.
Proof. repeat (constructor; [split; [reflexivity|discriminate]|]). constructor. Qed.

(** The original caller's name is left out of an event when the present one is empty. *)
Lemma orig_header_lost p : caller_id_name p = Some EmptyString ->
  text_header (caller_id_name p) "-Orig-Caller-ID-Name" (orig_caller_id_name p) = [].
Proof. by intros ->. Qed.

(** A copy, or a new profile, has no times before it is a channel's. *)
Lemma copy_times_null uuid p : switch_caller_get_field_by_name (switch_caller_profile_dup uuid p).1 "created_time" = UB.
Proof. reflexivity. Qed.

(** A channel without a name is compared by its null pointer. *)
Lemma unnamed_channel now d cp p n : profiles d !! cp = Some p -> chan_name p = Some n -> d_name d = None ->
  switch_channel_set_caller_profile now d cp = UB.
Proof.
  intros P C N. unfold switch_channel_set_caller_profile. cbn [profile_at]. rewrite P, N.
  assert (K : chan_name (if same_nocase (cp_uuid p) (d_uuid d) then p else p <| cp_uuid := Some (d_uuid d) |>) = Some n)
    by (by destruct (same_nocase _ _)).
  rupd. destruct (same_nocase _ _); rupd; by rewrite C.
Qed.
