(* ===== verification/Scheduler.v ===== *)
(** * The task scheduler (src/switch_scheduler.c)

    The scheduler's thread walks over a list of tasks; tasks run in it with the
    mutex released, or each in a thread of its own without the mutex, while any
    other thread adds and deletes tasks; a thread that has added one looks at it
    again behind the mutex.  An [action] is one step of one of these
    threads, and a run is any sequence of actions.  Containers are numbered in
    the order of their allocation and an access to a freed one is [UB]. *)
From S2P Require Import Prelude CStrings EventTypes Event.
From stdpp Require Import strings.
From Stdlib Require Import String Ascii.
Open Scope Z_scope.
#[local] Notation length := List.length (only parsing).

Definition SSHF_OWN_THREAD : Z := 1.
Definition SSHF_FREE_ARG : Z := 2.
Definition SSHF_NO_DEL : Z := 4.

(** [switch_scheduler_task_container] with its [task]; the function, its
    argument and the description carry no behaviour here. *)
Record container := mk_container {
  created : Z;
  runtime : Z;
  repeat : Z;
  cmd_id : Z;
  group : string;
  task_id : Z;
  task_hash : Z;
  executed : Z;
  in_thread : bool;
  destroyed : Z;
  running : bool;
  task_flags : Z
}.
#[export] Instance eta_container : Eta container := fun c =>
  mk_container (created c) (runtime c) (repeat c) (cmd_id c) (group c) (task_id c) (task_hash c)
    (executed c) (in_thread c) (destroyed c) (running c) (task_flags c).

(** How far [switch_scheduler_execute] is. *)
Inductive stage := Call | Repeat | Test | Finish.

(** Where the scheduler's thread is in [task_thread_loop]: outside, in the first
    loop about to look at a task, behind each of its two tests, in a task, between
    the loops, in the second loop. *)
Inductive place :=
| Idle
| Scan (done : bool) (tp : option Z)
| Alive (tp : Z)
| Due (tp now : Z)
| Inline (tp : Z) (g : stage)
| Between
| Sweep (tp : option Z).

(** [task_list] holds the numbers of the containers in their order, [memory] the
    containers that were not freed; [threads] are the running threads of tasks,
    [starts] the tasks started so far, newest first, and [adders] the containers
    of the calls of [switch_scheduler_add_task] that have released the mutex and
    not returned. *)
Record scheduler := mk_scheduler {
  memory : gmap Z container;
  task_list : list Z;
  fresh : Z;
  g_task_id : Z;
  at_ : place;
  threads : list (Z * stage);
  starts : list Z;
  adders : list Z
}.
#[export] Instance eta_scheduler : Eta scheduler := fun s =>
  mk_scheduler (memory s) (task_list s) (fresh s) (g_task_id s) (at_ s) (threads s) (starts s) (adders s).

(** The successor in the list. *)
Fixpoint next_of (p : Z) (l : list Z) : option Z :=
  match l with
  | [] => None
  | q :: l => if q =? p then hd_error l else next_of p l
  end.

Definition at_container (s : scheduler) (p : Z) (k : container -> outcome scheduler) : outcome scheduler :=
  match memory s !! p with Some c => k c | None => UB end.
Definition store (s : scheduler) (p : Z) (c : container) : scheduler := s <| memory := <[p := c]> (memory s) |>.

(** ** Running a task

    [switch_scheduler_execute] in its steps; [now] is the clock, and the task's
    function may set its run time and its repetition ([set]). *)
Definition execute_stage (g : stage) (now : Z) (set : Z * Z) (c : container) : container :=
  match g with
  | Call => c <| runtime := fst set |> <| repeat := u32 (snd set) |>
  | Repeat => if repeat c =? 0 then c else c <| runtime := now + repeat c |>
  | Test => if executed c <? runtime c then c <| executed := 0 |> else c <| destroyed := 1 |>
  | Finish => c
  end.
Definition next_stage (g : stage) : stage :=
  match g with Call => Repeat | Repeat => Test | Test => Finish | Finish => Finish end.

(** A step of the thread of a task, [task_own_thread]. *)
Definition task_own_thread (s : scheduler) (i : nat) (now : Z) (set : Z * Z) : option (outcome scheduler) :=
  match threads s !! i with
  | None => None
  | Some (p, g) =>
    Some (at_container s p (fun c =>
      match g with
      | Finish => Ok (store s p (c <| in_thread := false |>) <| threads := delete i (threads s) |>)
      | _ => Ok (store s p (execute_stage g now set c) <| threads := <[i := (p, next_stage g)]> (threads s) |>)
      end))
  end.

(** ** The scheduler's thread *)

Definition go (s : scheduler) (w : place) : scheduler := s <| at_ := w |>.

(** A due task is started. *)
Definition start (s : scheduler) (p now : Z) (c : container) : scheduler :=
  let c := c <| executed := now |> in
  let s := s <| starts := p :: starts s |> in
  if test_flag (task_flags c) SSHF_OWN_THREAD then
    go (store s p (c <| in_thread := true |>) <| threads := (p, Call) :: threads s |>) (Scan false (next_of p (task_list s)))
  else go (store s p (c <| running := true |>)) (Inline p Call).

(** [done] is the argument of [task_thread_loop] when the thread enters it. *)
Definition task_thread_loop (s : scheduler) (done : bool) (now : Z) (set : Z * Z) : outcome scheduler :=
  match at_ s with
  | Idle => Ok (go s (Scan done (hd_error (task_list s))))
  | Scan _ None => Ok (go s Between)
  | Scan true (Some p) => at_container s p (fun c =>
      Ok (go (store s p (c <| destroyed := 1 |>)) (Scan true (next_of p (task_list s)))))
  | Scan false (Some p) => at_container s p (fun c =>
      Ok (go s (if destroyed c =? 0 then Alive p else Scan false (next_of p (task_list s)))))
  | Alive p => at_container s p (fun c =>
      Ok (go s (if runtime c <=? now then Due p now else Scan false (next_of p (task_list s)))))
  | Due p now => at_container s p (fun c =>
      Ok (if in_thread c then go s (Scan false (next_of p (task_list s))) else start s p now c))
  | Inline p Finish => at_container s p (fun c =>
      Ok (go (store s p (c <| running := false |>)) (Scan false (next_of p (task_list s)))))
  | Inline p g => at_container s p (fun c => Ok (go (store s p (execute_stage g now set c)) (Inline p (next_stage g))))
  | Between => Ok (go s (Sweep (hd_error (task_list s))))
  | Sweep None => Ok (go s Idle)
  | Sweep (Some p) => at_container s p (fun c =>
      let next := next_of p (task_list s) in
      if negb (destroyed c =? 0) && negb (in_thread c) then
        Ok (go (s <| memory := delete p (memory s) |> <| task_list := filter (fun q => q <> p) (task_list s) |>) (Sweep next))
      else Ok (go s (Sweep next)))
  end.

(** The mutex is held by the scheduler's thread. *)
Definition locked (s : scheduler) : bool :=
  match at_ s with Scan _ _ | Alive _ | Due _ _ | Sweep _ => true | _ => false end.

(** ** Adding and deleting tasks *)

(** [++globals.task_id] until it is not zero. *)
Definition next_task_id (id : Z) : Z := let id := u32 (id + 1) in if id =? 0 then 1 else id.

(** [switch_scheduler_add_task] under the mutex. *)
Definition add_locked (s : scheduler) (now task_runtime : Z) (grp : option string) (cmd flags : Z) : scheduler :=
  let rep := if task_runtime <? now then u32 task_runtime else 0 in
  let task_runtime := if task_runtime <? now then task_runtime + now else task_runtime in
  let g := default "none"%string grp in
  let id := next_task_id (g_task_id s) in
  let c := mk_container now task_runtime rep cmd g id (switch_ci_hashfunc_default g) 0 false 0 false flags in
  s <| memory := <[fresh s := c]> (memory s) |> <| task_list := task_list s ++ [fresh s] |>
    <| fresh := fresh s + 1 |> <| g_task_id := id |> <| adders := fresh s :: adders s |>.

(** A read of the container behind the unlock: for the log and the event, and at
    last for the task's number that is returned. *)
Definition add_reads (s : scheduler) (i : nat) (last : bool) : option (outcome (scheduler * Z)) :=
  match adders s !! i with
  | None => None
  | Some p =>
    Some (match memory s !! p with
          | None => UB
          | Some c => Ok (if last then s <| adders := delete i (adders s) |> else s, task_id c)
          end)
  end.

(** The call when nobody comes between. *)
Definition switch_scheduler_add_task (s : scheduler) (now task_runtime : Z) (grp : option string) (cmd flags : Z)
  : outcome (scheduler * Z) :=
  default UB (add_reads (add_locked s now task_runtime grp cmd flags) 0 true).

(** The first task with the number, and what becomes of it. *)
Fixpoint del_id (mem : gmap Z container) (id : Z) (l : list Z) : option (gmap Z container * Z) :=
  match l with
  | [] => Some (mem, 0)
  | p :: l =>
    match mem !! p with
    | None => None
    | Some c =>
      if task_id c =? id then
        if test_flag (task_flags c) SSHF_NO_DEL || running c then Some (mem, 0)
        else Some (<[p := c <| destroyed := destroyed c + 1 |>]> mem, 1)
      else del_id mem id l
    end
  end.
Fixpoint del_group (mem : gmap Z container) (hash : Z) (g : string) (l : list Z) (cnt : Z)
  : option (gmap Z container * Z) :=
  match l with
  | [] => Some (mem, cnt)
  | p :: l =>
    match mem !! p with
    | None => None
    | Some c =>
      if (destroyed c =? 0) && ((hash =? task_hash c) && String.eqb (group c) g)
         && negb (test_flag (task_flags c) SSHF_NO_DEL)
      then del_group (<[p := c <| destroyed := destroyed c + 1 |>]> mem) hash g l (u32 (cnt + 1))
      else del_group mem hash g l cnt
    end
  end.
Definition deleted (s : scheduler) (r : option (gmap Z container * Z)) : outcome (scheduler * Z) :=
  match r with Some (m, cnt) => Ok (s <| memory := m |>, cnt) | None => UB end.
Definition switch_scheduler_del_task_id (s : scheduler) (id : Z) : outcome (scheduler * Z) :=
  deleted s (del_id (memory s) id (task_list s)).
Definition switch_scheduler_del_task_group (s : scheduler) (g : option string) : outcome (scheduler * Z) :=
  if zstr g then Ok (s, 0)
  else let g := default EmptyString g in
    deleted s (del_group (memory s) (switch_ci_hashfunc_default g) g (task_list s) 0).

(** ** Runs *)

Inductive action :=
| Loop (done : bool) (now : Z) (set : Z * Z)
| Own (i : nat) (now : Z) (set : Z * Z)
| Add (now task_runtime : Z) (grp : option string) (cmd flags : Z)
| Read (i : nat) (last : bool)
| DelId (id : Z)
| DelGroup (g : option string).

(** [None]: the thread waits for the mutex, or there is no such thread. *)
Definition act (s : scheduler) (a : action) : option (outcome scheduler) :=
  match a with
  | Loop done now set => Some (task_thread_loop s done now set)
  | Own i now set => task_own_thread s i now set
  | Add now rt g cmd fl => if locked s then None else Some (Ok (add_locked s now rt g cmd fl))
  | Read i last => option_map (fun r => let* (s, _) := r in Ok s) (add_reads s i last)
  | DelId id => if locked s then None else Some (let* (s, _) := switch_scheduler_del_task_id s id in Ok s)
  | DelGroup g => if locked s then None else Some (let* (s, _) := switch_scheduler_del_task_group s g in Ok s)
  end.
Fixpoint acts (s : scheduler) (l : list action) : outcome scheduler :=
  match l with
  | [] => Ok s
  | a :: l =>
    match act s a with
    | None => acts s l
    | Some (Ok s) => acts s l
    | Some Assert => Assert
    | Some UB => UB
    end
  end.

Definition globals0 : scheduler := mk_scheduler ∅ [] 0 0 Idle [] [] [].
