(* ===== verification/SchedulerSafe.v ===== *)
(** * The scheduler is safe (theorems on [Scheduler])

    Whatever tasks do and other threads ask for, no task is in two executions at
    once and no freed container is touched, but by the thread that added it; a
    deleted task is not started. *)
From stdpp Require Import strings.
From S2P Require Import Prelude CStrings EventTypes Event Scheduler.
Open Scope Z_scope.
#[local] Notation length := List.length (only parsing).

(** ** The invariant *)

(** The task that the scheduler's thread looks at. *)
Definition place_task (w : place) : option Z :=
  match w with
  | Scan _ tp | Sweep tp => tp
  | Alive p | Due p _ | Inline p _ => Some p
  | Idle | Between => None
  end.
Definition inline_task (w : place) : option Z := match w with Inline p _ => Some p | _ => None end.

(** The executions in progress. *)
Definition executions (s : scheduler) : list Z := option_list (inline_task (at_ s)) ++ (fst <$> threads s).

Record safe (s : scheduler) : Prop := mk_safe {
  sf_dom p : p ∈ task_list s <-> is_Some (memory s !! p);
  sf_list : NoDup (task_list s);
  sf_fresh p : p ∈ task_list s -> p < fresh s;
  sf_place p : place_task (at_ s) = Some p -> p ∈ task_list s;
  sf_inline p : inline_task (at_ s) = Some p -> exists c, memory s !! p = Some c /\ in_thread c = false;
  sf_threads p : p ∈ fst <$> threads s -> exists c, memory s !! p = Some c /\ in_thread c = true;
  sf_once : NoDup (fst <$> threads s)
}.

Lemma next_of_in p l q : next_of p l = Some q -> q ∈ l.
Proof.
  induction l as [|x l IH]; cbn; [done|]. destruct (x =? p); intros E; [|set_solver].
  destruct l; [done|]. injection E as ->. set_solver.
Qed.
Lemma next_of_other p l q : NoDup l -> next_of p l = Some q -> q <> p.
Proof.
  induction l as [|x l IH]; cbn; [done|]. intros [NI ND]%NoDup_cons. destruct (Z.eqb_spec x p) as [->|N]; [|by apply IH].
  intros E ->. apply NI. destruct l; [done|]. injection E as ->. set_solver.
Qed.

(** Another container in the memory, the same list. *)
Lemma dom_store s p c c' : safe s -> memory s !! p = Some c -> forall q, q ∈ task_list s <-> is_Some (<[p := c']> (memory s) !! q).
Proof.
  intros S Hp q. rewrite (sf_dom s S q), lookup_insert. case_decide as E; [|done]. subst. rewrite Hp. split; by eexists.
Qed.

(** A change of one container that keeps [in_thread], at another place. *)
Lemma safe_store s p c c' w : safe s -> memory s !! p = Some c -> in_thread c' = in_thread c ->
  (forall q, place_task w = Some q -> q ∈ task_list s) ->
  (forall q, inline_task w = Some q -> exists c, memory s !! q = Some c /\ in_thread c = false) ->
  safe (go (store s p c') w).
Proof.
  intros S Hp E W I.
  assert (G : forall q b, (exists c, memory s !! q = Some c /\ in_thread c = b) ->
    exists c, <[p := c']> (memory s) !! q = Some c /\ in_thread c = b).
  { intros q b (d & Hd & Ed). rewrite lookup_insert. case_decide as F; [|by exists d].
    subst. exists c'. rewrite E. naive_solver. }
  unfold go, store. constructor; rupd; cbn; try apply S; try done.
  - by eapply dom_store.
  - intros q Hq. by apply G, I.
  - intros q Hq. by apply G, S.
Qed.

(** The same memory, at another place. *)
Lemma safe_go s w : safe s -> (forall q, place_task w = Some q -> q ∈ task_list s) ->
  (forall q, inline_task w = Some q -> exists c, memory s !! q = Some c /\ in_thread c = false) -> safe (go s w).
Proof. intros [] W I. unfold go. by constructor. Qed.

Lemma next_place s p q : next_of p (task_list s) = Some q -> q ∈ task_list s.
Proof. apply next_of_in. Qed.

Lemma head_place (l : list Z) q : hd_error l = Some q -> q ∈ l.
Proof. destruct l; [done|]. intros [= ->]. set_solver. Qed.

#[local] Hint Resolve next_place head_place : core.

Lemma execute_keeps g now set c : in_thread (execute_stage g now set c) = in_thread c.
Proof. destruct g; cbn; try case_match; done. Qed.

(** ** Every step *)

Lemma safe_start s p now c : safe s -> memory s !! p = Some c -> in_thread c = false -> p ∈ task_list s ->
  safe (start s p now c).
Proof.
  intros S Hp Hi Hl. unfold start. cbv zeta. rupd.
  assert (NT : p ∉ fst <$> threads s) by (intros K; destruct (sf_threads s S p K) as (d & Hd & E); congruence).
  destruct (test_flag (task_flags c) SSHF_OWN_THREAD).
  - unfold go, store. constructor; rupd; cbn; try apply S.
    + by eapply dom_store.
    + intros q Hq. by eapply next_place.
    + done.
    + intros q Hq. rewrite lookup_insert. case_decide as E; [by eexists|]. apply S. set_solver.
    + constructor; [done|apply S].
  - set (c' := _ <| running := true |>). assert (S1 : safe (s <| starts := p :: starts s |>)) by (by destruct S).
    apply (safe_store _ p c c' (Inline p Call) S1 Hp eq_refl).
    + by intros q [= <-].
    + intros q [= <-]. by exists c.
Qed.

Lemma safe_loop s done now set : safe s -> exists s', task_thread_loop s done now set = Ok s' /\ safe s'.
Proof.
  intros S. unfold task_thread_loop. pose proof (sf_place s S) as P. pose proof (sf_inline s S) as I.
  destruct (at_ s) as [|[] [p|]|p|p t|p g| |[p|]] eqn:A; cbn in P, I;
    try (eexists; split; [reflexivity|]; apply safe_go; cbn; eauto; done);
    destruct (proj1 (sf_dom s S p) (P p eq_refl)) as [c Hp]; specialize (P p eq_refl).
  - unfold at_container. rewrite Hp. eexists. split; [done|]. eapply safe_store; cbn; eauto; done.
  - unfold at_container. rewrite Hp. eexists. split; [done|]. apply safe_go; [done|..]; intros q; destruct (_ =? _); cbn; eauto; naive_solver.
  - unfold at_container. rewrite Hp. eexists. split; [done|]. apply safe_go; [done|..]; intros q; destruct (_ <=? _); cbn; eauto; naive_solver.
  - unfold at_container. rewrite Hp. eexists. split; [done|]. destruct (in_thread c) eqn:E; [|by apply safe_start].
    apply safe_go; cbn; eauto; done.
  - destruct (I p eq_refl) as (d & Hd & Ei). rewrite Hp in Hd. injection Hd as <-.
    unfold at_container. destruct g; rewrite Hp; eexists; (split; [done|]);
      (eapply safe_store; [done|done|by rewrite ?execute_keeps|..]); cbn; eauto; intros q [= <-]; eauto.
  - unfold at_container. rewrite Hp. cbv zeta. destruct (_ && _) eqn:D; eexists; (split; [reflexivity|]); [|apply safe_go; cbn; eauto; done].
    btests. unfold go, store. constructor; rupd; cbn; try apply S.
    + intros q. rewrite list_elem_of_filter, lookup_delete, (sf_dom s S q).
      case_decide; [|naive_solver]. split; [naive_solver|]. by intros [].
    + apply NoDup_filter, S.
    + intros q [_ Hq]%list_elem_of_filter. by apply S.
    + intros q Hq. apply list_elem_of_filter. split; [|by eapply next_of_in].
      eapply next_of_other; [apply S|done].
    + done.
    + intros q Hq. destruct (sf_threads s S q Hq) as (d & Hd & E). exists d. split; [|done].
      rewrite lookup_delete_ne; [done|]. intros <-. congruence.
Qed.

Lemma safe_own s i now set r : safe s -> task_own_thread s i now set = Some r -> exists s', r = Ok s' /\ safe s'.
Proof.
  intros S. unfold task_own_thread. destruct (threads s !! i) as [[p g]|] eqn:T; [|done].
  assert (Hin : p ∈ fst <$> threads s) by (apply list_elem_of_fmap; exists (p, g); split; [done|by eapply list_elem_of_lookup_2]).
  destruct (sf_threads s S p Hin) as (c & Hp & Ei). unfold at_container. rewrite Hp. intros [= <-].
  assert (NI : inline_task (at_ s) <> Some p) by (intros K; destruct (sf_inline s S p K) as (d & Hd & E); congruence).
  assert (K : forall g' c', in_thread c' = in_thread c ->
    safe (store s p c' <| threads := <[i := (p, g')]> (threads s) |>)).
  { intros g' c' E. assert (F : fst <$> <[i := (p, g')]> (threads s) = fst <$> threads s).
    { rewrite list_fmap_insert. apply list_insert_id. by rewrite list_lookup_fmap, T. }
    destruct (safe_store s p c c' (at_ s) S Hp E (sf_place s S) (sf_inline s S)) as [].
    constructor; rupd; rewrite ?F; done. }
  destruct g; (eexists; split; [reflexivity|]); try (apply K; by rewrite ?execute_keeps).
  assert (Ed : threads s ≡ₚ (p, Finish) :: delete i (threads s)) by (by apply delete_Permutation).
  pose proof (sf_once s S) as ND. rewrite Ed in ND. cbn in ND. apply NoDup_cons in ND as [N1 N2].
  unfold go, store. constructor; rupd; cbn; try apply S.
  - by eapply dom_store.
  - intros q Hq. rewrite lookup_insert_ne by congruence. by apply S.
  - intros q Hq. rewrite lookup_insert_ne by (intros ->; by apply N1). apply S. rewrite Ed. cbn. by right.
  - done.
Qed.

(** Changes of single fields by the deletions. *)
Definition marks (m m' : gmap Z container) : Prop :=
  forall p, match m !! p, m' !! p with
            | Some c, Some c' => in_thread c' = in_thread c /\ destroyed c <= destroyed c'
            | None, None => True
            | _, _ => False
            end.
Lemma marks_refl m : marks m m.
Proof. intros p. destruct (m !! p); [split; [done|lia]|done]. Qed.
Lemma marks_trans m1 m2 m3 : marks m1 m2 -> marks m2 m3 -> marks m1 m3.
Proof.
  intros H1 H2 p. specialize (H1 p). specialize (H2 p). destruct (m1 !! p), (m2 !! p), (m3 !! p); try done.
  destruct H1 as [E1 L1], H2 as [E2 L2]. split; [congruence|lia].
Qed.
Lemma marks_one m p c : m !! p = Some c -> marks m (<[p := c <| destroyed := destroyed c + 1 |>]> m).
Proof.
  intros Hp q. rewrite lookup_insert. case_decide as E; [subst; rewrite Hp; rupd; split; [done|lia]|].
  destruct (m !! q); [split; [done|lia]|done].
Qed.

Lemma del_id_spec m id l : (forall p, p ∈ l -> is_Some (m !! p)) ->
  exists m' cnt, del_id m id l = Some (m', cnt) /\ marks m m' /\
    (cnt = 1 -> exists p c, p ∈ l /\ m !! p = Some c /\ task_id c = id /\
       m' = <[p := c <| destroyed := destroyed c + 1 |>]> m).
Proof.
  induction l as [|p l IH]; intros D; cbn [del_id]; [exists m, 0; by split_and!; [|apply marks_refl|]|].
  destruct (D p) as [c Hp]; [set_solver|]. rewrite Hp. destruct (Z.eqb_spec (task_id c) id) as [E|E].
  - destruct (_ || _); [exists m, 0; by split_and!; [|apply marks_refl|]|].
    do 2 eexists. split; [reflexivity|]. split; [by apply marks_one|]. intros _. exists p, c. split_and!; try done. set_solver.
  - destruct IH as (m' & cnt & -> & M & F); [set_solver|]. do 2 eexists. split_and!; try done.
    intros (q & d & Hq & K)%F. exists q, d. split; [set_solver|done].
Qed.

Lemma del_group_spec hash g l : forall m cnt, (forall p, p ∈ l -> is_Some (m !! p)) ->
  exists m' cnt', del_group m hash g l cnt = Some (m', cnt') /\ marks m m'.
Proof.
  induction l as [|p l IH]; intros m cnt D; cbn [del_group]; [exists m, cnt; by split; [|apply marks_refl]|].
  destruct (D p) as [c Hp]; [set_solver|]. rewrite Hp. destruct (_ && _).
  - destruct (IH (<[p := c <| destroyed := destroyed c + 1 |>]> m) (u32 (cnt + 1))) as (m' & cnt' & -> & M).
    { intros q Hq. rewrite lookup_insert. case_decide; [by eexists|]. apply D. set_solver. }
    do 2 eexists. split; [done|]. eapply marks_trans; [by apply marks_one|done].
  - apply IH. set_solver.
Qed.

Lemma safe_marks s m : safe s -> marks (memory s) m -> safe (s <| memory := m |>).
Proof.
  intros [] M. assert (G : forall p b, (exists c, memory s !! p = Some c /\ in_thread c = b) -> exists c, m !! p = Some c /\ in_thread c = b).
  { intros p b (c & Hc & E). specialize (M p). rewrite Hc in M. destruct (m !! p) as [c'|]; [|done]. exists c'. naive_solver. }
  constructor; rupd; try done.
  - intros p. rewrite sf_dom0. specialize (M p). destruct (memory s !! p), (m !! p); try done; split; by intros [].
  - intros p Hp. by apply G, sf_inline0.
  - intros p Hp. by apply G, sf_threads0.
Qed.

(** The read of a thread that has added task [p], which has been freed since. *)
Definition reads_freed (s : scheduler) (a : action) : Prop :=
  exists i last p, a = Read i last /\ adders s !! i = Some p /\ memory s !! p = None.

Lemma act_safe s a r : safe s -> act s a = Some r ->
  (exists s', r = Ok s' /\ safe s') \/ (r = UB /\ reads_freed s a).
Proof.
  intros S. destruct a as [done now set|i now set|now rt g cmd fl|i last|id|g]; cbn [act].
  4:{ unfold add_reads. destruct (adders s !! i) as [p|] eqn:E; [|done]. cbn [option_map]. intros [= <-].
      destruct (memory s !! p) as [c|] eqn:Hp; [left|right; split; [done|by exists i, last, p]].
      eexists. split; [reflexivity|]. destruct last; [|done]. destruct S. by constructor. }
  all: intros E; left; revert E.
  - intros [= <-]. by apply safe_loop.
  - by apply safe_own.
  - destruct (locked s); [done|]. intros [= <-]. eexists. split; [reflexivity|].
    assert (NF : memory s !! fresh s = None).
    { destruct (memory s !! fresh s) eqn:E; [|done]. assert (K : fresh s ∈ task_list s) by (apply S; by eexists).
      apply (sf_fresh s S) in K. lia. }
    assert (G : forall p b c', (exists c, memory s !! p = Some c /\ in_thread c = b) ->
      exists c, <[fresh s := c']> (memory s) !! p = Some c /\ in_thread c = b).
    { intros p b c' (c & Hc & E). exists c. rewrite lookup_insert_ne by congruence. done. }
    unfold add_locked. cbv zeta. constructor; rupd; cbn; try apply S.
    + intros p. rewrite lookup_insert. case_decide as E.
      * subst. split; [by eexists|]. set_solver.
      * rewrite <- (sf_dom s S p). set_solver.
    + apply NoDup_app. split_and!; [apply S| |apply NoDup_singleton]. intros p Hp ->%list_elem_of_singleton.
      apply S in Hp as [c Hc]. congruence.
    + intros p [Hp| ->%list_elem_of_singleton]%elem_of_app; [apply (sf_fresh s S) in Hp; lia|lia].
    + intros p Hp. apply elem_of_app. left. by apply (sf_place s S).
    + intros p Hp. by apply G, (sf_inline s S).
    + intros p Hp. by apply G, (sf_threads s S).
  - destruct (locked s); [done|]. intros [= <-]. unfold switch_scheduler_del_task_id.
    destruct (del_id_spec (memory s) id (task_list s)) as (m & cnt & -> & M & _); [by intros p; apply S|].
    eexists. split; [reflexivity|]. by apply safe_marks.
  - destruct (locked s); [done|]. intros [= <-]. unfold switch_scheduler_del_task_group. destruct (zstr g).
    { by eexists. }
    destruct (del_group_spec (switch_ci_hashfunc_default (default EmptyString g)) (default EmptyString g) (task_list s) (memory s) 0)
      as (m & cnt & -> & M); [by intros p; apply S|].
    eexists. split; [reflexivity|]. by apply safe_marks.
Qed.

Lemma acts_safe l : forall s, safe s ->
  (exists s', acts s l = Ok s' /\ safe s') \/
  (exists l1 a l2 s', l = l1 ++ a :: l2 /\ acts s l1 = Ok s' /\ safe s' /\ reads_freed s' a /\ acts s l = UB).
Proof.
  induction l as [|a l IH]; intros s S; cbn [acts]; [left; by exists s|].
  destruct (act s a) as [r|] eqn:E.
  - destruct (act_safe s a r S E) as [(s1 & -> & S1)|[-> R]].
    + destruct (IH s1 S1) as [?|(l1 & b & l2 & s' & -> & E1 & K)]; [by left|right].
      exists (a :: l1), b, l2, s'. split; [done|]. split; [|done]. cbn [acts]. by rewrite E.
    + right. exists [], a, l, s. done.
  - destruct (IH s S) as [?|(l1 & b & l2 & s' & -> & E1 & K)]; [by left|right].
    exists (a :: l1), b, l2, s'. split; [done|]. split; [|done]. cbn [acts]. by rewrite E.
Qed.
Lemma acts_ok_safe l s s' : safe s -> acts s l = Ok s' -> safe s'.
Proof.
  intros S E. destruct (acts_safe l s S) as [(s1 & E1 & S1)|(_ & _ & _ & _ & _ & _ & _ & _ & U)]; congruence.
Qed.

Lemma safe_globals0 : safe globals0.
Proof.
  constructor; cbn; try done; try (intros p Hp; set_solver); try constructor.
  - set_solver.
  - rewrite lookup_empty. by intros [].
Qed.

Lemma safe_executions s : safe s -> NoDup (executions s) /\ forall p, p ∈ executions s -> is_Some (memory s !! p).
Proof.
  intros S.
  assert (K : forall p, inline_task (at_ s) = Some p -> p ∉ fst <$> threads s).
  { intros p Hp Hq. destruct (sf_inline s S p Hp) as (c & Hc & Ec). destruct (sf_threads s S p Hq) as (d & Hd & Ed). congruence. }
  unfold executions. destruct (inline_task (at_ s)) as [p|] eqn:Hi; cbn; (split; [|intros q Hq]).
  - constructor; [by apply K|apply S].
  - apply elem_of_cons in Hq as [->|Hq]; [destruct (sf_inline s S p Hi) as (c & Hc & _)|destruct (sf_threads s S q Hq) as (c & Hc & _)]; by exists c.
  - apply S.
  - destruct (sf_threads s S q Hq) as (c & Hc & _). by exists c.
Qed.

(** C35. Whatever tasks do and in whatever order the scheduler's thread, the
    threads of tasks and other threads proceed, no task is in two executions at
    once and no task that is executed has been freed.  The only access to freed
    memory that a run can make is that of [switch_scheduler_add_task] behind its
    unlock, to the container it has added and the scheduler's thread has freed
    since; up to there the run is as described, and a run without such a read
    has no undefined behaviour at all. *)
Theorem scheduler_safe l :
  (exists s, acts globals0 l = Ok s /\ NoDup (executions s) /\ forall p, p ∈ executions s -> is_Some (memory s !! p)) \/
  (exists l1 i last l2 s p, l = l1 ++ Read i last :: l2 /\ acts globals0 l1 = Ok s /\
     NoDup (executions s) /\ (forall p, p ∈ executions s -> is_Some (memory s !! p)) /\
     adders s !! i = Some p /\ p ∉ task_list s /\ memory s !! p = None /\ acts globals0 l = UB).
Proof.
  destruct (acts_safe l globals0 safe_globals0) as [(s & E & S)|(l1 & a & l2 & s & -> & E & S & (i & last & p & -> & Ha & Hp) & U)].
  - left. exists s. split; [done|]. by apply safe_executions.
  - right. exists l1, i, last, l2, s, p. destruct (safe_executions s S). split_and!; try done.
    intros K%(sf_dom s S). rewrite Hp in K. by destruct K.
Qed.

(** The read of a freed container: the task is due at once, runs and is freed
    before the thread that added it looks at it for the log. *)
Definition freed_early : list action :=
  Add 5 5 None 0 0 :: replicate 14 (Loop false 5 (5, 0)).
Lemma adder_reads_freed :
  (exists s, acts globals0 freed_early = Ok s /\ adders s = [0] /\ starts s = [0] /\ memory s = ∅) /\
  acts globals0 (freed_early ++ [Read 0 false]) = UB.
Proof. split; [eexists|]; vm_compute; auto. Qed.

(** A call in one go returns the number it has given out. *)
Lemma add_task_number s now rt g cmd fl :
  exists s', switch_scheduler_add_task s now rt g cmd fl = Ok (s', next_task_id (g_task_id s)) /\ adders s' = adders s.
Proof.
  unfold switch_scheduler_add_task, add_reads. set (s1 := add_locked _ _ _ _ _ _).
  assert (adders s1 = fresh s :: adders s) as -> by done. cbn [lookup list_lookup default].
  assert (exists c, memory s1 !! fresh s = Some c /\ task_id c = next_task_id (g_task_id s)) as (c & -> & ->)
    by (eexists; split; [apply lookup_insert_eq|done]).
  eexists. split; [reflexivity|]. by rupd.
Qed.

(** ** Deleted tasks *)

(** Started [n] times and never again: the task is marked or gone, its number is
    used, and the scheduler's thread is not about to start it. *)
Record dead (p : Z) (n : nat) (s : scheduler) : Prop := mk_dead {
  de_mark c : memory s !! p = Some c -> 0 < destroyed c;
  de_used : p < fresh s;
  de_place : at_ s <> Alive p /\ forall now, at_ s <> Due p now;
  de_starts : List.count_occ Z.eq_dec (starts s) p = n
}.

Lemma dead_frame p n s w m : dead p n s -> (forall c, m !! p = Some c -> 0 < destroyed c) ->
  w <> Alive p -> (forall now, w <> Due p now) -> dead p n (go (s <| memory := m |>) w).
Proof. intros [] M W1 W2. unfold go. by constructor. Qed.

Lemma dead_store p n s q c c' w : dead p n s -> memory s !! q = Some c -> (0 < destroyed c -> 0 < destroyed c') ->
  w <> Alive p -> (forall now, w <> Due p now) -> dead p n (go (store s q c') w).
Proof.
  intros D Hq M W1 W2. apply dead_frame; try done. intros d. rewrite lookup_insert. case_decide as E.
  - subst. intros [= <-]. apply M. by eapply de_mark.
  - by apply de_mark with n.
Qed.
Lemma dead_go p n s w : dead p n s -> w <> Alive p -> (forall now, w <> Due p now) -> dead p n (go s w).
Proof. intros [] W1 W2. unfold go. by constructor. Qed.

#[local] Hint Resolve dead_go : core.

Lemma dead_loop p n s done now set s' : dead p n s -> task_thread_loop s done now set = Ok s' -> dead p n s'.
Proof.
  intros D. unfold task_thread_loop, at_container. pose proof (de_place p n s D) as [A1 A2].
  destruct (at_ s) as [|[] [q|]|q|q t|q g| |[q|]] eqn:A; try (intros [= <-]; apply dead_go; done).
  - destruct (memory s !! q) as [c|] eqn:Hq; [|done]. intros [= <-]. by eapply dead_store.
  - destruct (memory s !! q) as [c|] eqn:Hq; [|done]. intros [= <-]. destruct (Z.eqb_spec (destroyed c) 0) as [E|E]; apply dead_go; try done.
    intros [= ->]. pose proof (de_mark p n s D c Hq). lia.
  - destruct (memory s !! q) as [c|] eqn:Hq; [|done]. intros [= <-]. destruct (_ <=? _); apply dead_go; try done.
    intros t [= -> _]. by apply A1.
  - destruct (memory s !! q) as [c|] eqn:Hq; [|done]. intros [= <-]. destruct (in_thread c); [by apply dead_go|].
    assert (N : q <> p) by (intros ->; by apply (A2 t)).
    assert (D1 : dead p n (s <| starts := q :: starts s |>)).
    { destruct D as [D1 D2 D3 D4]. constructor; rupd; try done. by rewrite count_occ_cons_neq. }
    unfold start. cbv zeta. rupd. destruct (test_flag _ _).
    + assert (D2 : dead p n (go (store (s <| starts := q :: starts s |>) q (c <| executed := t |> <| in_thread := true |>))
        (Scan false (next_of q (task_list s))))) by (by eapply dead_store; [exact D1|exact Hq|..]).
      destruct D2. by constructor.
    + eapply dead_store; [exact D1|exact Hq|done..].
  - destruct (memory s !! q) as [c|] eqn:Hq; [|by destruct g].
    destruct g; intros [= <-]; (eapply dead_store; [done|exact Hq|cbn; try case_match; rupd; lia|done..]).
  - destruct (memory s !! q) as [c|] eqn:Hq; [|done]. destruct (_ && _); intros [= <-]; [|by apply dead_go].
    destruct D as [D1 D2 D3 D4]. unfold go. constructor; rupd; try done.
    intros d. rewrite lookup_delete. case_decide; [done|]. apply D1.
Qed.

Lemma dead_marks p n s m : dead p n s -> marks (memory s) m -> dead p n (s <| memory := m |>).
Proof.
  intros [D1 D2 D3 D4] M. constructor; rupd; try done. intros c Hc. specialize (M p). rewrite Hc in M.
  destruct (memory s !! p) as [d|] eqn:E; [|done]. specialize (D1 d eq_refl). lia.
Qed.

Lemma dead_act p n s a s' : safe s -> dead p n s -> act s a = Some (Ok s') -> dead p n s'.
Proof.
  intros S D. destruct a as [done now set|i now set|now rt g cmd fl|i last|id|g]; cbn [act].
  - intros [= E]. by eapply dead_loop.
  - unfold task_own_thread, at_container. destruct (threads s !! i) as [[q g]|]; [|done].
    destruct (memory s !! q) as [c|] eqn:Hq; [|done].
    assert (K : forall l c', (0 < destroyed c -> 0 < destroyed c') -> dead p n (store s q c' <| threads := l |>)).
    { intros l c' M. destruct (de_place p n s D) as [A1 A2].
      destruct (dead_store p n s q c c' (at_ s) D Hq M A1 A2). by constructor. }
    destruct g; intros [= <-]; apply K; cbn; try case_match; rupd; lia.
  - destruct (locked s); [done|]. intros [= <-]. destruct D as [D1 D2 D3 D4]. unfold add_locked. cbv zeta. constructor; cbn; rupd; try done; [|lia].
    intros c. rewrite lookup_insert_ne by lia. apply D1.
  - unfold add_reads. destruct (adders s !! i) as [q|]; [|done]. cbn [option_map].
    destruct (memory s !! q) as [c|]; [|done]. intros [= <-]. destruct last; [|done]. by destruct D.
  - destruct (locked s); [done|]. unfold switch_scheduler_del_task_id.
    destruct (del_id_spec (memory s) id (task_list s)) as (m & cnt & -> & M & _); [by intros q; apply S|].
    cbn [deleted]. intros [= <-]. by apply dead_marks.
  - destruct (locked s); [done|]. unfold switch_scheduler_del_task_group. destruct (zstr g); [by intros [= <-]|].
    destruct (del_group_spec (switch_ci_hashfunc_default (default EmptyString g)) (default EmptyString g) (task_list s) (memory s) 0)
      as (m & cnt & -> & M); [by intros q; apply S|].
    cbn [deleted]. intros [= <-]. by apply dead_marks.
Qed.

Lemma dead_acts p n l : forall s s', safe s -> dead p n s -> acts s l = Ok s' -> dead p n s'.
Proof.
  induction l as [|a l IH]; intros s s' S D; cbn [acts]; [by intros [= <-]|].
  destruct (act s a) as [r|] eqn:E; [|by apply IH]. destruct (act_safe s a r S E) as [(s1 & -> & S1)|[-> _]]; [|done].
  intros E1. eapply IH; [exact S1| |exact E1]. exact (dead_act p n s a s1 S D E).
Qed.

(** Marks count up from zero. *)
Definition counted (s : scheduler) : Prop := forall p c, memory s !! p = Some c -> 0 <= destroyed c.

Lemma counted_store s q c c' : counted s -> memory s !! q = Some c -> (0 <= destroyed c -> 0 <= destroyed c') ->
  counted (store s q c').
Proof.
  intros N Hq M p d. unfold store. rupd. rewrite lookup_insert. case_decide as E; [|by apply N].
  intros [= <-]. apply M. by apply (N q).
Qed.

Lemma counted_act s a s' : safe s -> counted s -> act s a = Some (Ok s') -> counted s'.
Proof.
  intros S N. destruct a as [done now set|i now set|now rt g cmd fl|i last|id|g]; cbn [act].
  - unfold task_thread_loop, at_container, start. intros [= E].
    repeat (case_match; try done); simplify_eq; try exact N;
      try (eapply (counted_store s); [exact N|eassumption|cbn; try case_match; rupd; lia]).
    intros q d. unfold go. rupd. rewrite lookup_delete. case_decide; [done|]. apply N.
  - unfold task_own_thread, at_container. intros E. repeat (case_match; try done); simplify_eq;
      (eapply (counted_store s); [exact N|eassumption|cbn; try case_match; rupd; lia]).
  - destruct (locked s); [done|]. intros [= <-] p c. unfold add_locked. cbv zeta. cbn. rupd. rewrite lookup_insert. case_decide; [by intros [= <-]|apply N].
  - unfold add_reads. destruct (adders s !! i) as [q|]; [|done]. cbn [option_map].
    destruct (memory s !! q) as [c|]; [|done]. intros [= <-]. by destruct last.
  - destruct (locked s); [done|]. unfold switch_scheduler_del_task_id.
    destruct (del_id_spec (memory s) id (task_list s)) as (m & cnt & -> & M & _); [by intros q; apply S|].
    cbn [deleted]. intros [= <-] p c Hc. cbn in Hc. rupd. specialize (M p). rewrite Hc in M. destruct (memory s !! p) as [d|] eqn:E; [|done].
    specialize (N p d E). lia.
  - destruct (locked s); [done|]. unfold switch_scheduler_del_task_group. destruct (zstr g); [by intros [= <-]|].
    destruct (del_group_spec (switch_ci_hashfunc_default (default EmptyString g)) (default EmptyString g) (task_list s) (memory s) 0)
      as (m & cnt & -> & M); [by intros q; apply S|].
    cbn [deleted]. intros [= <-] p c Hc. cbn in Hc. rupd. specialize (M p). rewrite Hc in M. destruct (memory s !! p) as [d|] eqn:E; [|done].
    specialize (N p d E). lia.
Qed.

Lemma counted_acts l : forall s s', safe s -> counted s -> acts s l = Ok s' -> counted s'.
Proof.
  induction l as [|a l IH]; intros s s' S N; cbn [acts]; [by intros [= <-]|].
  destruct (act s a) as [r|] eqn:E; [|by apply IH]. destruct (act_safe s a r S E) as [(s1 & -> & S1)|[-> _]]; [|done].
  intros E1. eapply IH; [exact S1| |exact E1]. exact (counted_act s a s1 S N E).
Qed.

(** A deletion by number that reports a task marks one that has the number
    and was not running in the scheduler's thread; this task is never started
    again, whatever happens later. *)
Theorem scheduler_deleted l s id s1 l' s2 :
  acts globals0 l = Ok s -> locked s = false -> switch_scheduler_del_task_id s id = Ok (s1, 1) -> acts s1 l' = Ok s2 ->
  exists p c, p ∈ task_list s /\ memory s !! p = Some c /\ task_id c = id /\
    List.count_occ Z.eq_dec (starts s2) p = List.count_occ Z.eq_dec (starts s) p.
Proof.
  intros E L Del E2. pose proof (acts_ok_safe l globals0 s safe_globals0 E) as S.
  unfold switch_scheduler_del_task_id in Del.
  destruct (del_id_spec (memory s) id (task_list s)) as (m & cnt & Em & M & F); [by intros p; apply S|].
  rewrite Em in Del. cbn in Del. injection Del as Es Ec. subst cnt. destruct (F eq_refl) as (p & c & Hl & Hp & Ht & Hm).
  exists p, c. split_and!; [done|done|done|]. subst s1.
  eapply (dead_acts p _ l'); [by apply safe_marks| |exact E2].
  assert (N : counted s) by (eapply (counted_acts l globals0); [exact safe_globals0| |exact E]; intros q d Hq; change (memory globals0) with (∅ : gmap Z container) in Hq; by rewrite lookup_empty in Hq).
  constructor; rupd.
  - intros d. rewrite Hm, lookup_insert, decide_True by done. intros [= <-]. rupd. specialize (N p c Hp). lia.
  - by apply S.
  - unfold locked in L. by destruct (at_ s).
  - done.
Qed.

(** A task in its own thread can be started twice for one run time: the thread
    finishes between the scheduler's test of [destroyed] and that of
    [in_thread].  Here the task runs at 5 and leaves its times as they are. *)
Definition own_twice : list action :=
  let loop now := Loop false now (5, 0) in
  [Add 0 5 None 0 SSHF_OWN_THREAD;
   loop 6; loop 6; loop 6; loop 6; loop 6; loop 6; loop 6; loop 6;
   loop 6; loop 6; loop 6;
   Own 0 6 (5, 0); Own 0 6 (5, 0); Own 0 6 (5, 0); Own 0 6 (5, 0);
   loop 6].
Lemma scheduler_own_twice :
  exists s, acts globals0 own_twice = Ok s /\ starts s = [0; 0].
Proof. eexists. split; vm_compute; reflexivity. Qed.

Lemma scheduler_deleted_witness :
  exists p c, p ∈ [0; 1] /\ p = 1 /\ task_id c = 2.
Proof.
  set (l := [Add 0 5 None 0 0; Add 0 7 None 0 0]).
  set (s := match acts globals0 l with Ok s => s | _ => globals0 end).
  set (r := match switch_scheduler_del_task_id s 2 with Ok (s1, _) => s1 | _ => s end).
  set (l' := replicate 12 (Loop false 9 (0, 0))).
  set (s2 := match acts r l' with Ok s => s | _ => r end).
  destruct (scheduler_deleted l s 2 r l' s2) as (p & c & Hl & Hp & Ht & _);
    [vm_compute; reflexivity|vm_compute; reflexivity|vm_compute; reflexivity|vm_compute; reflexivity|].
  exists p, c. change (task_list s) with [0; 1] in Hl. split; [exact Hl|]. split; [|exact Ht].
  apply elem_of_cons in Hl as [->|Hl]; [|apply list_elem_of_singleton in Hl; exact Hl].
  vm_compute in Hp. injection Hp as <-. vm_compute in Ht. discriminate.
Defined.
