(* ===== verification/ChannelTypes.v ===== *)
(** * Enumerations and name tables of a channel
    (src/include/switch_types.h, the tables of src/switch_channel.c)

    Channel states, call states, channel flags and hangup causes, with the
    functions that print and parse their names. *)
From S2P Require Import Prelude CStrings.
From stdpp Require Import strings.
From Stdlib Require Import String Ascii.
Open Scope Z_scope.

(** ** Channel states *)

Inductive switch_channel_state :=
| CS_NEW | CS_INIT | CS_ROUTING | CS_SOFT_EXECUTE | CS_EXECUTE | CS_EXCHANGE_MEDIA | CS_PARK
| CS_CONSUME_MEDIA | CS_HIBERNATE | CS_RESET | CS_HANGUP | CS_REPORTING | CS_DESTROY | CS_NONE.

#[export] Instance switch_channel_state_eq_dec : EqDecision switch_channel_state.
Proof. solve_decision. Defined.

(** The number of the state: C compares states with [<], [>=], ... *)
Definition cs (s : switch_channel_state) : Z :=
  match s with
  | CS_NEW => 0 | CS_INIT => 1 | CS_ROUTING => 2 | CS_SOFT_EXECUTE => 3 | CS_EXECUTE => 4
  | CS_EXCHANGE_MEDIA => 5 | CS_PARK => 6 | CS_CONSUME_MEDIA => 7 | CS_HIBERNATE => 8
  | CS_RESET => 9 | CS_HANGUP => 10 | CS_REPORTING => 11 | CS_DESTROY => 12 | CS_NONE => 13
  end.

Definition all_states : list switch_channel_state :=
  [CS_NEW; CS_INIT; CS_ROUTING; CS_SOFT_EXECUTE; CS_EXECUTE; CS_EXCHANGE_MEDIA; CS_PARK;
   CS_CONSUME_MEDIA; CS_HIBERNATE; CS_RESET; CS_HANGUP; CS_REPORTING; CS_DESTROY; CS_NONE].

Definition state_names : list string :=
  ["CS_NEW"; "CS_INIT"; "CS_ROUTING"; "CS_SOFT_EXECUTE"; "CS_EXECUTE"; "CS_EXCHANGE_MEDIA";
   "CS_PARK"; "CS_CONSUME_MEDIA"; "CS_HIBERNATE"; "CS_RESET"; "CS_HANGUP"; "CS_REPORTING";
   "CS_DESTROY"; "CS_NONE"]%string.

Definition switch_channel_state_name (state : switch_channel_state) : option string :=
  state_names !! Z.to_nat (cs state).

(** The scan of [state_names] from entry [x]. *)
Fixpoint name_state_from (name : string) (names : list string) (x : nat) : switch_channel_state :=
  match names with
  | [] => CS_DESTROY
  | n :: names =>
    if strcaseeq n name then default CS_DESTROY (all_states !! x)
    else name_state_from name names (S x)
  end.
Definition switch_channel_name_state (name : string) : switch_channel_state :=
  name_state_from name state_names 0.

(** ** Call states *)

Inductive switch_channel_callstate :=
| CCS_DOWN | CCS_DIALING | CCS_RINGING | CCS_EARLY | CCS_ACTIVE | CCS_HELD | CCS_RING_WAIT
| CCS_HANGUP | CCS_UNHELD.

#[export] Instance switch_channel_callstate_eq_dec : EqDecision switch_channel_callstate.
Proof. solve_decision. Defined.

Definition ccs (s : switch_channel_callstate) : Z :=
  match s with
  | CCS_DOWN => 0 | CCS_DIALING => 1 | CCS_RINGING => 2 | CCS_EARLY => 3 | CCS_ACTIVE => 4
  | CCS_HELD => 5 | CCS_RING_WAIT => 6 | CCS_HANGUP => 7 | CCS_UNHELD => 8
  end.

Definition CALLSTATE_CHART : list (string * Z) :=
  [("DOWN", ccs CCS_DOWN); ("DIALING", ccs CCS_DIALING); ("RINGING", ccs CCS_RINGING);
   ("EARLY", ccs CCS_EARLY); ("ACTIVE", ccs CCS_ACTIVE); ("HELD", ccs CCS_HELD);
   ("RING_WAIT", ccs CCS_RING_WAIT); ("HANGUP", ccs CCS_HANGUP); ("UNHELD", ccs CCS_UNHELD)]%string.

(** The two scans that the print and parse functions of this file share: the
    first entry with the value, the first entry with the name. *)
Fixpoint chart_name (chart : list (string * Z)) (v : Z) : option string :=
  match chart with
  | [] => None
  | (n, w) :: chart => if w =? v then Some n else chart_name chart v
  end.
Fixpoint chart_value (chart : list (string * Z)) (s : string) : option Z :=
  match chart with
  | [] => None
  | (n, w) :: chart => if strcaseeq n s then Some w else chart_value chart s
  end.

Definition starts_with_digit (s : string) : bool :=
  match s with String c _ => if digit c then true else false | EmptyString => false end.

Definition switch_channel_callstate2str (callstate : Z) : string :=
  default "UNKNOWN"%string (chart_name CALLSTATE_CHART callstate).

Definition switch_channel_str2callstate (str : string) : Z :=
  if starts_with_digit str then atoi str else default 0 (chart_value CALLSTATE_CHART str).

(** ** Device states *)

Inductive switch_device_state :=
| SDS_DOWN | SDS_RINGING | SDS_ACTIVE | SDS_ACTIVE_MULTI | SDS_HELD | SDS_UNHELD | SDS_HANGUP.

Definition sds (s : switch_device_state) : Z :=
  match s with
  | SDS_DOWN => 0 | SDS_RINGING => 1 | SDS_ACTIVE => 2 | SDS_ACTIVE_MULTI => 3 | SDS_HELD => 4
  | SDS_UNHELD => 5 | SDS_HANGUP => 6
  end.

Definition DEVICE_STATE_CHART : list (string * Z) :=
  [("DOWN", sds SDS_DOWN); ("RINGING", sds SDS_RINGING); ("ACTIVE", sds SDS_ACTIVE);
   ("ACTIVE_MULTI", sds SDS_ACTIVE_MULTI); ("HELD", sds SDS_HELD); ("UNHELD", sds SDS_UNHELD);
   ("HANGUP", sds SDS_HANGUP)]%string.

Definition switch_channel_device_state2str (device_state : Z) : string :=
  default "UNKNOWN"%string (chart_name DEVICE_STATE_CHART device_state).

(** ** Hangup causes *)

Definition SWITCH_CAUSE_NONE : Z := 0.
Definition SWITCH_CAUSE_UNALLOCATED_NUMBER : Z := 1.
Definition SWITCH_CAUSE_NO_ROUTE_TRANSIT_NET : Z := 2.
Definition SWITCH_CAUSE_NO_ROUTE_DESTINATION : Z := 3.
Definition SWITCH_CAUSE_CHANNEL_UNACCEPTABLE : Z := 6.
Definition SWITCH_CAUSE_CALL_AWARDED_DELIVERED : Z := 7.
Definition SWITCH_CAUSE_NORMAL_CLEARING : Z := 16.
Definition SWITCH_CAUSE_USER_BUSY : Z := 17.
Definition SWITCH_CAUSE_NO_USER_RESPONSE : Z := 18.
Definition SWITCH_CAUSE_NO_ANSWER : Z := 19.
Definition SWITCH_CAUSE_SUBSCRIBER_ABSENT : Z := 20.
Definition SWITCH_CAUSE_CALL_REJECTED : Z := 21.
Definition SWITCH_CAUSE_NUMBER_CHANGED : Z := 22.
Definition SWITCH_CAUSE_REDIRECTION_TO_NEW_DESTINATION : Z := 23.
Definition SWITCH_CAUSE_EXCHANGE_ROUTING_ERROR : Z := 25.
Definition SWITCH_CAUSE_DESTINATION_OUT_OF_ORDER : Z := 27.
Definition SWITCH_CAUSE_INVALID_NUMBER_FORMAT : Z := 28.
Definition SWITCH_CAUSE_FACILITY_REJECTED : Z := 29.
Definition SWITCH_CAUSE_RESPONSE_TO_STATUS_ENQUIRY : Z := 30.
Definition SWITCH_CAUSE_NORMAL_UNSPECIFIED : Z := 31.
Definition SWITCH_CAUSE_NORMAL_CIRCUIT_CONGESTION : Z := 34.
Definition SWITCH_CAUSE_NETWORK_OUT_OF_ORDER : Z := 38.
Definition SWITCH_CAUSE_NORMAL_TEMPORARY_FAILURE : Z := 41.
Definition SWITCH_CAUSE_SWITCH_CONGESTION : Z := 42.
Definition SWITCH_CAUSE_ACCESS_INFO_DISCARDED : Z := 43.
Definition SWITCH_CAUSE_REQUESTED_CHAN_UNAVAIL : Z := 44.
Definition SWITCH_CAUSE_PRE_EMPTED : Z := 45.
Definition SWITCH_CAUSE_FACILITY_NOT_SUBSCRIBED : Z := 50.
Definition SWITCH_CAUSE_OUTGOING_CALL_BARRED : Z := 52.
Definition SWITCH_CAUSE_INCOMING_CALL_BARRED : Z := 54.
Definition SWITCH_CAUSE_BEARERCAPABILITY_NOTAUTH : Z := 57.
Definition SWITCH_CAUSE_BEARERCAPABILITY_NOTAVAIL : Z := 58.
Definition SWITCH_CAUSE_SERVICE_UNAVAILABLE : Z := 63.
Definition SWITCH_CAUSE_BEARERCAPABILITY_NOTIMPL : Z := 65.
Definition SWITCH_CAUSE_CHAN_NOT_IMPLEMENTED : Z := 66.
Definition SWITCH_CAUSE_FACILITY_NOT_IMPLEMENTED : Z := 69.
Definition SWITCH_CAUSE_SERVICE_NOT_IMPLEMENTED : Z := 79.
Definition SWITCH_CAUSE_INVALID_CALL_REFERENCE : Z := 81.
Definition SWITCH_CAUSE_INCOMPATIBLE_DESTINATION : Z := 88.
Definition SWITCH_CAUSE_INVALID_MSG_UNSPECIFIED : Z := 95.
Definition SWITCH_CAUSE_MANDATORY_IE_MISSING : Z := 96.
Definition SWITCH_CAUSE_MESSAGE_TYPE_NONEXIST : Z := 97.
Definition SWITCH_CAUSE_WRONG_MESSAGE : Z := 98.
Definition SWITCH_CAUSE_IE_NONEXIST : Z := 99.
Definition SWITCH_CAUSE_INVALID_IE_CONTENTS : Z := 100.
Definition SWITCH_CAUSE_WRONG_CALL_STATE : Z := 101.
Definition SWITCH_CAUSE_RECOVERY_ON_TIMER_EXPIRE : Z := 102.
Definition SWITCH_CAUSE_MANDATORY_IE_LENGTH_ERROR : Z := 103.
Definition SWITCH_CAUSE_PROTOCOL_ERROR : Z := 111.
Definition SWITCH_CAUSE_INTERWORKING : Z := 127.
Definition SWITCH_CAUSE_SUCCESS : Z := 142.
Definition SWITCH_CAUSE_ORIGINATOR_CANCEL : Z := 487.
Definition SWITCH_CAUSE_CRASH : Z := 500.
Definition SWITCH_CAUSE_SYSTEM_SHUTDOWN : Z := 501.
Definition SWITCH_CAUSE_LOSE_RACE : Z := 502.
Definition SWITCH_CAUSE_MANAGER_REQUEST : Z := 503.
Definition SWITCH_CAUSE_BLIND_TRANSFER : Z := 600.
Definition SWITCH_CAUSE_ATTENDED_TRANSFER : Z := 601.
Definition SWITCH_CAUSE_ALLOTTED_TIMEOUT : Z := 602.
Definition SWITCH_CAUSE_USER_CHALLENGE : Z := 603.
Definition SWITCH_CAUSE_MEDIA_TIMEOUT : Z := 604.
Definition SWITCH_CAUSE_PICKED_OFF : Z := 605.
Definition SWITCH_CAUSE_USER_NOT_REGISTERED : Z := 606.
Definition SWITCH_CAUSE_PROGRESS_TIMEOUT : Z := 607.
Definition SWITCH_CAUSE_INVALID_GATEWAY : Z := 608.
Definition SWITCH_CAUSE_GATEWAY_DOWN : Z := 609.
Definition SWITCH_CAUSE_INVALID_URL : Z := 610.
Definition SWITCH_CAUSE_INVALID_PROFILE : Z := 611.
Definition SWITCH_CAUSE_NO_PICKUP : Z := 612.
Definition SWITCH_CAUSE_SRTP_READ_ERROR : Z := 613.

Definition CAUSE_CHART : list (string * Z) :=
  
   [("NONE"%string, SWITCH_CAUSE_NONE);
   ("UNALLOCATED_NUMBER"%string, SWITCH_CAUSE_UNALLOCATED_NUMBER);
   ("NO_ROUTE_TRANSIT_NET"%string, SWITCH_CAUSE_NO_ROUTE_TRANSIT_NET);
   ("NO_ROUTE_DESTINATION"%string, SWITCH_CAUSE_NO_ROUTE_DESTINATION);
   ("CHANNEL_UNACCEPTABLE"%string, SWITCH_CAUSE_CHANNEL_UNACCEPTABLE);
   ("CALL_AWARDED_DELIVERED"%string, SWITCH_CAUSE_CALL_AWARDED_DELIVERED);
   ("NORMAL_CLEARING"%string, SWITCH_CAUSE_NORMAL_CLEARING);
   ("USER_BUSY"%string, SWITCH_CAUSE_USER_BUSY);
   ("NO_USER_RESPONSE"%string, SWITCH_CAUSE_NO_USER_RESPONSE);
   ("NO_ANSWER"%string, SWITCH_CAUSE_NO_ANSWER);
   ("SUBSCRIBER_ABSENT"%string, SWITCH_CAUSE_SUBSCRIBER_ABSENT);
   ("CALL_REJECTED"%string, SWITCH_CAUSE_CALL_REJECTED);
   ("NUMBER_CHANGED"%string, SWITCH_CAUSE_NUMBER_CHANGED);
   ("REDIRECTION_TO_NEW_DESTINATION"%string, SWITCH_CAUSE_REDIRECTION_TO_NEW_DESTINATION);
   ("EXCHANGE_ROUTING_ERROR"%string, SWITCH_CAUSE_EXCHANGE_ROUTING_ERROR);
   ("DESTINATION_OUT_OF_ORDER"%string, SWITCH_CAUSE_DESTINATION_OUT_OF_ORDER);
   ("INVALID_NUMBER_FORMAT"%string, SWITCH_CAUSE_INVALID_NUMBER_FORMAT);
   ("FACILITY_REJECTED"%string, SWITCH_CAUSE_FACILITY_REJECTED);
   ("RESPONSE_TO_STATUS_ENQUIRY"%string, SWITCH_CAUSE_RESPONSE_TO_STATUS_ENQUIRY);
   ("NORMAL_UNSPECIFIED"%string, SWITCH_CAUSE_NORMAL_UNSPECIFIED);
   ("NORMAL_CIRCUIT_CONGESTION"%string, SWITCH_CAUSE_NORMAL_CIRCUIT_CONGESTION);
   ("NETWORK_OUT_OF_ORDER"%string, SWITCH_CAUSE_NETWORK_OUT_OF_ORDER);
   ("NORMAL_TEMPORARY_FAILURE"%string, SWITCH_CAUSE_NORMAL_TEMPORARY_FAILURE);
   ("SWITCH_CONGESTION"%string, SWITCH_CAUSE_SWITCH_CONGESTION);
   ("ACCESS_INFO_DISCARDED"%string, SWITCH_CAUSE_ACCESS_INFO_DISCARDED);
   ("REQUESTED_CHAN_UNAVAIL"%string, SWITCH_CAUSE_REQUESTED_CHAN_UNAVAIL);
   ("PRE_EMPTED"%string, SWITCH_CAUSE_PRE_EMPTED);
   ("FACILITY_NOT_SUBSCRIBED"%string, SWITCH_CAUSE_FACILITY_NOT_SUBSCRIBED);
   ("OUTGOING_CALL_BARRED"%string, SWITCH_CAUSE_OUTGOING_CALL_BARRED);
   ("INCOMING_CALL_BARRED"%string, SWITCH_CAUSE_INCOMING_CALL_BARRED);
   ("BEARERCAPABILITY_NOTAUTH"%string, SWITCH_CAUSE_BEARERCAPABILITY_NOTAUTH);
   ("BEARERCAPABILITY_NOTAVAIL"%string, SWITCH_CAUSE_BEARERCAPABILITY_NOTAVAIL);
   ("SERVICE_UNAVAILABLE"%string, SWITCH_CAUSE_SERVICE_UNAVAILABLE);
   ("BEARERCAPABILITY_NOTIMPL"%string, SWITCH_CAUSE_BEARERCAPABILITY_NOTIMPL);
   ("CHAN_NOT_IMPLEMENTED"%string, SWITCH_CAUSE_CHAN_NOT_IMPLEMENTED);
   ("FACILITY_NOT_IMPLEMENTED"%string, SWITCH_CAUSE_FACILITY_NOT_IMPLEMENTED);
   ("SERVICE_NOT_IMPLEMENTED"%string, SWITCH_CAUSE_SERVICE_NOT_IMPLEMENTED);
   ("INVALID_CALL_REFERENCE"%string, SWITCH_CAUSE_INVALID_CALL_REFERENCE);
   ("INCOMPATIBLE_DESTINATION"%string, SWITCH_CAUSE_INCOMPATIBLE_DESTINATION);
   ("INVALID_MSG_UNSPECIFIED"%string, SWITCH_CAUSE_INVALID_MSG_UNSPECIFIED);
   ("MANDATORY_IE_MISSING"%string, SWITCH_CAUSE_MANDATORY_IE_MISSING);
   ("MESSAGE_TYPE_NONEXIST"%string, SWITCH_CAUSE_MESSAGE_TYPE_NONEXIST);
   ("WRONG_MESSAGE"%string, SWITCH_CAUSE_WRONG_MESSAGE);
   ("IE_NONEXIST"%string, SWITCH_CAUSE_IE_NONEXIST);
   ("INVALID_IE_CONTENTS"%string, SWITCH_CAUSE_INVALID_IE_CONTENTS);
   ("WRONG_CALL_STATE"%string, SWITCH_CAUSE_WRONG_CALL_STATE);
   ("RECOVERY_ON_TIMER_EXPIRE"%string, SWITCH_CAUSE_RECOVERY_ON_TIMER_EXPIRE);
   ("MANDATORY_IE_LENGTH_ERROR"%string, SWITCH_CAUSE_MANDATORY_IE_LENGTH_ERROR);
   ("PROTOCOL_ERROR"%string, SWITCH_CAUSE_PROTOCOL_ERROR);
   ("INTERWORKING"%string, SWITCH_CAUSE_INTERWORKING);
   ("SUCCESS"%string, SWITCH_CAUSE_SUCCESS);
   ("ORIGINATOR_CANCEL"%string, SWITCH_CAUSE_ORIGINATOR_CANCEL);
   ("CRASH"%string, SWITCH_CAUSE_CRASH);
   ("SYSTEM_SHUTDOWN"%string, SWITCH_CAUSE_SYSTEM_SHUTDOWN);
   ("LOSE_RACE"%string, SWITCH_CAUSE_LOSE_RACE);
   ("MANAGER_REQUEST"%string, SWITCH_CAUSE_MANAGER_REQUEST);
   ("BLIND_TRANSFER"%string, SWITCH_CAUSE_BLIND_TRANSFER);
   ("ATTENDED_TRANSFER"%string, SWITCH_CAUSE_ATTENDED_TRANSFER);
   ("ALLOTTED_TIMEOUT"%string, SWITCH_CAUSE_ALLOTTED_TIMEOUT);
   ("USER_CHALLENGE"%string, SWITCH_CAUSE_USER_CHALLENGE);
   ("MEDIA_TIMEOUT"%string, SWITCH_CAUSE_MEDIA_TIMEOUT);
   ("PICKED_OFF"%string, SWITCH_CAUSE_PICKED_OFF);
   ("USER_NOT_REGISTERED"%string, SWITCH_CAUSE_USER_NOT_REGISTERED);
   ("PROGRESS_TIMEOUT"%string, SWITCH_CAUSE_PROGRESS_TIMEOUT);
   ("INVALID_GATEWAY"%string, SWITCH_CAUSE_INVALID_GATEWAY);
   ("GATEWAY_DOWN"%string, SWITCH_CAUSE_GATEWAY_DOWN);
   ("INVALID_URL"%string, SWITCH_CAUSE_INVALID_URL);
   ("INVALID_PROFILE"%string, SWITCH_CAUSE_INVALID_PROFILE);
   ("NO_PICKUP"%string, SWITCH_CAUSE_NO_PICKUP);
   ("SRTP_READ_ERROR"%string, SWITCH_CAUSE_SRTP_READ_ERROR)].

Definition switch_channel_cause2str (cause : Z) : string :=
  default "UNKNOWN"%string (chart_name CAUSE_CHART cause).

Definition switch_channel_str2cause (str : option string) : Z :=
  match str with
  | None | Some EmptyString => SWITCH_CAUSE_NORMAL_CLEARING
  | Some s =>
    if starts_with_digit s then atoi s
    else default SWITCH_CAUSE_NORMAL_CLEARING (chart_value CAUSE_CHART s)
  end.

Definition switch_channel_cause_q850 (cause : Z) : Z :=
  if cause <=? SWITCH_CAUSE_INTERWORKING then cause else SWITCH_CAUSE_NORMAL_CLEARING.

(** ** Channel flags *)

Inductive switch_channel_flag :=
| CF_ANSWERED | CF_OUTBOUND | CF_EARLY_MEDIA | CF_BRIDGE_ORIGINATOR | CF_UUID_BRIDGE_ORIGINATOR
| CF_TRANSFER | CF_ACCEPT_CNG | CF_REDIRECT | CF_BRIDGED | CF_HOLD | CF_SERVICE | CF_TAGGED
| CF_WINNER | CF_CONTROLLED | CF_PROXY_MODE | CF_PROXY_OFF | CF_SUSPEND | CF_EVENT_PARSE
| CF_GEN_RINGBACK | CF_RING_READY | CF_BREAK | CF_BROADCAST | CF_UNICAST | CF_VIDEO
| CF_EVENT_LOCK | CF_EVENT_LOCK_PRI | CF_RESET | CF_ORIGINATING | CF_STOP_BROADCAST
| CF_PROXY_MEDIA | CF_INNER_BRIDGE | CF_REQ_MEDIA | CF_VERBOSE_EVENTS | CF_PAUSE_BUGS
| CF_DIVERT_EVENTS | CF_BLOCK_STATE | CF_FS_RTP | CF_REPORTING | CF_PARK | CF_TIMESTAMP_SET
| CF_ORIGINATOR | CF_XFER_ZOMBIE | CF_MEDIA_ACK | CF_THREAD_SLEEPING | CF_DISABLE_RINGBACK
| CF_NOT_READY | CF_SIGNAL_BRIDGE_TTL | CF_MEDIA_BRIDGE_TTL | CF_BYPASS_MEDIA_AFTER_BRIDGE
| CF_LEG_HOLDING | CF_BROADCAST_DROP_MEDIA | CF_EARLY_HANGUP | CF_MEDIA_SET
| CF_CONSUME_ON_ORIGINATE | CF_PASSTHRU_PTIME_MISMATCH | CF_BRIDGE_NOWRITE | CF_RECOVERED
| CF_JITTERBUFFER | CF_JITTERBUFFER_PLC | CF_DIALPLAN | CF_BLEG
| CF_BLOCK_BROADCAST_UNTIL_MEDIA | CF_CNG_PLC | CF_ATTENDED_TRANSFER
| CF_LAZY_ATTENDED_TRANSFER | CF_SIGNAL_DATA | CF_SIMPLIFY | CF_ZOMBIE_EXEC | CF_INTERCEPT
| CF_INTERCEPTED | CF_VIDEO_REFRESH_REQ | CF_MANUAL_VID_REFRESH | CF_SERVICE_AUDIO
| CF_SERVICE_VIDEO | CF_ZRTP_PASSTHRU_REQ | CF_ZRTP_PASSTHRU | CF_ZRTP_HASH | CF_CHANNEL_SWAP
| CF_DEVICE_LEG | CF_FINAL_DEVICE_LEG | CF_PICKUP | CF_CONFIRM_BLIND_TRANSFER | CF_NO_PRESENCE
| CF_CONFERENCE | CF_CONFERENCE_ADV | CF_RECOVERING | CF_RECOVERING_BRIDGE | CF_TRACKED
| CF_TRACKABLE | CF_NO_CDR | CF_EARLY_OK | CF_MEDIA_TRANS | CF_HOLD_ON_BRIDGE | CF_SECURE
| CF_LIBERAL_DTMF | CF_SLA_BARGE | CF_SLA_BARGING | CF_PROTO_HOLD | CF_HOLD_LOCK
| CF_VIDEO_POSSIBLE | CF_NOTIMER_DURING_BRIDGE | CF_PASS_RFC2833 | CF_T38_PASSTHRU
| CF_DROP_DTMF | CF_REINVITE | CF_AUTOFLUSH_DURING_BRIDGE | CF_RTP_NOTIMER_DURING_BRIDGE
| CF_AVPF | CF_AVPF_MOZ | CF_ICE | CF_DTLS | CF_VERBOSE_SDP | CF_DTLS_OK | CF_3PCC
| CF_VIDEO_PASSIVE | CF_NOVIDEO | CF_VIDEO_BITRATE_UNMANAGABLE | CF_VIDEO_ECHO | CF_VIDEO_BLANK
| CF_VIDEO_WRITING | CF_SLA_INTERCEPT | CF_VIDEO_BREAK | CF_AUDIO_PAUSE_READ
| CF_AUDIO_PAUSE_WRITE | CF_VIDEO_PAUSE_READ | CF_VIDEO_PAUSE_WRITE
| CF_BYPASS_MEDIA_AFTER_HOLD | CF_HANGUP_HELD | CF_CONFERENCE_RESET_MEDIA
| CF_VIDEO_DECODED_READ | CF_VIDEO_DEBUG_READ | CF_VIDEO_DEBUG_WRITE | CF_VIDEO_ONLY
| CF_VIDEO_READY | CF_VIDEO_MIRROR_INPUT | CF_VIDEO_READ_FILE_ATTACHED
| CF_VIDEO_WRITE_FILE_ATTACHED | CF_3P_MEDIA_REQUESTED | CF_3P_NOMEDIA_REQUESTED
| CF_3P_NOMEDIA_REQUESTED_BLEG | CF_IMAGE_SDP | CF_VIDEO_SDP_RECVD.

(** The value of the constant: the flags start at 1. *)
Definition cf (f : switch_channel_flag) : nat :=
  match f with
  | CF_ANSWERED => 1 | CF_OUTBOUND => 2 | CF_EARLY_MEDIA => 3 | CF_BRIDGE_ORIGINATOR => 4
  | CF_UUID_BRIDGE_ORIGINATOR => 5 | CF_TRANSFER => 6 | CF_ACCEPT_CNG => 7 | CF_REDIRECT => 8
  | CF_BRIDGED => 9 | CF_HOLD => 10 | CF_SERVICE => 11 | CF_TAGGED => 12 | CF_WINNER => 13
  | CF_CONTROLLED => 14 | CF_PROXY_MODE => 15 | CF_PROXY_OFF => 16 | CF_SUSPEND => 17
  | CF_EVENT_PARSE => 18 | CF_GEN_RINGBACK => 19 | CF_RING_READY => 20 | CF_BREAK => 21
  | CF_BROADCAST => 22 | CF_UNICAST => 23 | CF_VIDEO => 24 | CF_EVENT_LOCK => 25
  | CF_EVENT_LOCK_PRI => 26 | CF_RESET => 27 | CF_ORIGINATING => 28 | CF_STOP_BROADCAST => 29
  | CF_PROXY_MEDIA => 30 | CF_INNER_BRIDGE => 31 | CF_REQ_MEDIA => 32 | CF_VERBOSE_EVENTS => 33
  | CF_PAUSE_BUGS => 34 | CF_DIVERT_EVENTS => 35 | CF_BLOCK_STATE => 36 | CF_FS_RTP => 37
  | CF_REPORTING => 38 | CF_PARK => 39 | CF_TIMESTAMP_SET => 40 | CF_ORIGINATOR => 41
  | CF_XFER_ZOMBIE => 42 | CF_MEDIA_ACK => 43 | CF_THREAD_SLEEPING => 44
  | CF_DISABLE_RINGBACK => 45 | CF_NOT_READY => 46 | CF_SIGNAL_BRIDGE_TTL => 47
  | CF_MEDIA_BRIDGE_TTL => 48 | CF_BYPASS_MEDIA_AFTER_BRIDGE => 49 | CF_LEG_HOLDING => 50
  | CF_BROADCAST_DROP_MEDIA => 51 | CF_EARLY_HANGUP => 52 | CF_MEDIA_SET => 53
  | CF_CONSUME_ON_ORIGINATE => 54 | CF_PASSTHRU_PTIME_MISMATCH => 55 | CF_BRIDGE_NOWRITE => 56
  | CF_RECOVERED => 57 | CF_JITTERBUFFER => 58 | CF_JITTERBUFFER_PLC => 59 | CF_DIALPLAN => 60
  | CF_BLEG => 61 | CF_BLOCK_BROADCAST_UNTIL_MEDIA => 62 | CF_CNG_PLC => 63
  | CF_ATTENDED_TRANSFER => 64 | CF_LAZY_ATTENDED_TRANSFER => 65 | CF_SIGNAL_DATA => 66
  | CF_SIMPLIFY => 67 | CF_ZOMBIE_EXEC => 68 | CF_INTERCEPT => 69 | CF_INTERCEPTED => 70
  | CF_VIDEO_REFRESH_REQ => 71 | CF_MANUAL_VID_REFRESH => 72 | CF_SERVICE_AUDIO => 73
  | CF_SERVICE_VIDEO => 74 | CF_ZRTP_PASSTHRU_REQ => 75 | CF_ZRTP_PASSTHRU => 76
  | CF_ZRTP_HASH => 77 | CF_CHANNEL_SWAP => 78 | CF_DEVICE_LEG => 79
  | CF_FINAL_DEVICE_LEG => 80 | CF_PICKUP => 81 | CF_CONFIRM_BLIND_TRANSFER => 82
  | CF_NO_PRESENCE => 83 | CF_CONFERENCE => 84 | CF_CONFERENCE_ADV => 85 | CF_RECOVERING => 86
  | CF_RECOVERING_BRIDGE => 87 | CF_TRACKED => 88 | CF_TRACKABLE => 89 | CF_NO_CDR => 90
  | CF_EARLY_OK => 91 | CF_MEDIA_TRANS => 92 | CF_HOLD_ON_BRIDGE => 93 | CF_SECURE => 94
  | CF_LIBERAL_DTMF => 95 | CF_SLA_BARGE => 96 | CF_SLA_BARGING => 97 | CF_PROTO_HOLD => 98
  | CF_HOLD_LOCK => 99 | CF_VIDEO_POSSIBLE => 100 | CF_NOTIMER_DURING_BRIDGE => 101
  | CF_PASS_RFC2833 => 102 | CF_T38_PASSTHRU => 103 | CF_DROP_DTMF => 104 | CF_REINVITE => 105
  | CF_AUTOFLUSH_DURING_BRIDGE => 106 | CF_RTP_NOTIMER_DURING_BRIDGE => 107 | CF_AVPF => 108
  | CF_AVPF_MOZ => 109 | CF_ICE => 110 | CF_DTLS => 111 | CF_VERBOSE_SDP => 112
  | CF_DTLS_OK => 113 | CF_3PCC => 114 | CF_VIDEO_PASSIVE => 115 | CF_NOVIDEO => 116
  | CF_VIDEO_BITRATE_UNMANAGABLE => 117 | CF_VIDEO_ECHO => 118 | CF_VIDEO_BLANK => 119
  | CF_VIDEO_WRITING => 120 | CF_SLA_INTERCEPT => 121 | CF_VIDEO_BREAK => 122
  | CF_AUDIO_PAUSE_READ => 123 | CF_AUDIO_PAUSE_WRITE => 124 | CF_VIDEO_PAUSE_READ => 125
  | CF_VIDEO_PAUSE_WRITE => 126 | CF_BYPASS_MEDIA_AFTER_HOLD => 127 | CF_HANGUP_HELD => 128
  | CF_CONFERENCE_RESET_MEDIA => 129 | CF_VIDEO_DECODED_READ => 130
  | CF_VIDEO_DEBUG_READ => 131 | CF_VIDEO_DEBUG_WRITE => 132 | CF_VIDEO_ONLY => 133
  | CF_VIDEO_READY => 134 | CF_VIDEO_MIRROR_INPUT => 135 | CF_VIDEO_READ_FILE_ATTACHED => 136
  | CF_VIDEO_WRITE_FILE_ATTACHED => 137 | CF_3P_MEDIA_REQUESTED => 138
  | CF_3P_NOMEDIA_REQUESTED => 139 | CF_3P_NOMEDIA_REQUESTED_BLEG => 140 | CF_IMAGE_SDP => 141
  | CF_VIDEO_SDP_RECVD => 142
  end.

Definition CF_FLAG_MAX : nat := 143.

(** ** Channel capabilities *)

Inductive switch_channel_cap :=
| CC_MEDIA_ACK | CC_BYPASS_MEDIA | CC_PROXY_MEDIA | CC_JITTERBUFFER | CC_FS_RTP
| CC_QUEUEABLE_DTMF_DELAY.

Definition cc (c : switch_channel_cap) : nat :=
  match c with
  | CC_MEDIA_ACK => 1 | CC_BYPASS_MEDIA => 2 | CC_PROXY_MEDIA => 3 | CC_JITTERBUFFER => 4
  | CC_FS_RTP => 5 | CC_QUEUEABLE_DTMF_DELAY => 6
  end.
Definition CC_FLAG_MAX : nat := 7.

Definition all_flags : list switch_channel_flag :=
  [CF_ANSWERED; CF_OUTBOUND; CF_EARLY_MEDIA; CF_BRIDGE_ORIGINATOR; CF_UUID_BRIDGE_ORIGINATOR;
   CF_TRANSFER; CF_ACCEPT_CNG; CF_REDIRECT; CF_BRIDGED; CF_HOLD; CF_SERVICE; CF_TAGGED;
   CF_WINNER; CF_CONTROLLED; CF_PROXY_MODE; CF_PROXY_OFF; CF_SUSPEND; CF_EVENT_PARSE;
   CF_GEN_RINGBACK; CF_RING_READY; CF_BREAK; CF_BROADCAST; CF_UNICAST; CF_VIDEO; CF_EVENT_LOCK;
   CF_EVENT_LOCK_PRI; CF_RESET; CF_ORIGINATING; CF_STOP_BROADCAST; CF_PROXY_MEDIA;
   CF_INNER_BRIDGE; CF_REQ_MEDIA; CF_VERBOSE_EVENTS; CF_PAUSE_BUGS; CF_DIVERT_EVENTS;
   CF_BLOCK_STATE; CF_FS_RTP; CF_REPORTING; CF_PARK; CF_TIMESTAMP_SET; CF_ORIGINATOR;
   CF_XFER_ZOMBIE; CF_MEDIA_ACK; CF_THREAD_SLEEPING; CF_DISABLE_RINGBACK; CF_NOT_READY;
   CF_SIGNAL_BRIDGE_TTL; CF_MEDIA_BRIDGE_TTL; CF_BYPASS_MEDIA_AFTER_BRIDGE; CF_LEG_HOLDING;
   CF_BROADCAST_DROP_MEDIA; CF_EARLY_HANGUP; CF_MEDIA_SET; CF_CONSUME_ON_ORIGINATE;
   CF_PASSTHRU_PTIME_MISMATCH; CF_BRIDGE_NOWRITE; CF_RECOVERED; CF_JITTERBUFFER;
   CF_JITTERBUFFER_PLC; CF_DIALPLAN; CF_BLEG; CF_BLOCK_BROADCAST_UNTIL_MEDIA; CF_CNG_PLC;
   CF_ATTENDED_TRANSFER; CF_LAZY_ATTENDED_TRANSFER; CF_SIGNAL_DATA; CF_SIMPLIFY;
   CF_ZOMBIE_EXEC; CF_INTERCEPT; CF_INTERCEPTED; CF_VIDEO_REFRESH_REQ; CF_MANUAL_VID_REFRESH;
   CF_SERVICE_AUDIO; CF_SERVICE_VIDEO; CF_ZRTP_PASSTHRU_REQ; CF_ZRTP_PASSTHRU; CF_ZRTP_HASH;
   CF_CHANNEL_SWAP; CF_DEVICE_LEG; CF_FINAL_DEVICE_LEG; CF_PICKUP; CF_CONFIRM_BLIND_TRANSFER;
   CF_NO_PRESENCE; CF_CONFERENCE; CF_CONFERENCE_ADV; CF_RECOVERING; CF_RECOVERING_BRIDGE;
   CF_TRACKED; CF_TRACKABLE; CF_NO_CDR; CF_EARLY_OK; CF_MEDIA_TRANS; CF_HOLD_ON_BRIDGE;
   CF_SECURE; CF_LIBERAL_DTMF; CF_SLA_BARGE; CF_SLA_BARGING; CF_PROTO_HOLD; CF_HOLD_LOCK;
   CF_VIDEO_POSSIBLE; CF_NOTIMER_DURING_BRIDGE; CF_PASS_RFC2833; CF_T38_PASSTHRU; CF_DROP_DTMF;
   CF_REINVITE; CF_AUTOFLUSH_DURING_BRIDGE; CF_RTP_NOTIMER_DURING_BRIDGE; CF_AVPF; CF_AVPF_MOZ;
   CF_ICE; CF_DTLS; CF_VERBOSE_SDP; CF_DTLS_OK; CF_3PCC; CF_VIDEO_PASSIVE; CF_NOVIDEO;
   CF_VIDEO_BITRATE_UNMANAGABLE; CF_VIDEO_ECHO; CF_VIDEO_BLANK; CF_VIDEO_WRITING;
   CF_SLA_INTERCEPT; CF_VIDEO_BREAK; CF_AUDIO_PAUSE_READ; CF_AUDIO_PAUSE_WRITE;
   CF_VIDEO_PAUSE_READ; CF_VIDEO_PAUSE_WRITE; CF_BYPASS_MEDIA_AFTER_HOLD; CF_HANGUP_HELD;
   CF_CONFERENCE_RESET_MEDIA; CF_VIDEO_DECODED_READ; CF_VIDEO_DEBUG_READ; CF_VIDEO_DEBUG_WRITE;
   CF_VIDEO_ONLY; CF_VIDEO_READY; CF_VIDEO_MIRROR_INPUT; CF_VIDEO_READ_FILE_ATTACHED;
   CF_VIDEO_WRITE_FILE_ATTACHED; CF_3P_MEDIA_REQUESTED; CF_3P_NOMEDIA_REQUESTED;
   CF_3P_NOMEDIA_REQUESTED_BLEG; CF_IMAGE_SDP; CF_VIDEO_SDP_RECVD].

Lemma all_flags_cf f : all_flags !! pred (cf f) = Some f.
Proof. destruct f; reflexivity. Qed.

Lemma cf_pos f : (0 < cf f)%nat.
Proof. destruct f; cbn [cf]; lia. Qed.

Lemma cf_bound f : (cf f < CF_FLAG_MAX)%nat.
Proof.
  pose proof (lookup_lt_Some _ _ _ (all_flags_cf f)) as H.
  change (List.length all_flags) with (pred CF_FLAG_MAX) in H. pose proof (cf_pos f). lia.
Qed.

Lemma cf_inj f g : cf f = cf g -> f = g.
Proof. intros E. pose proof (all_flags_cf f) as F. rewrite E, all_flags_cf in F. congruence. Qed.

#[export] Instance switch_channel_flag_eq_dec : EqDecision switch_channel_flag.
Proof.
  refine (fun f g => match decide (cf f = cf g) with left E => left _ | right N => right _ end).
  - by apply cf_inj.
  - intros ->. done.
Defined.

Lemma cc_bound c : (cc c < CC_FLAG_MAX)%nat.
Proof. destruct c; cbn [cc]; unfold CC_FLAG_MAX; lia. Qed.

Lemma cs_inj s t : cs s = cs t -> s = t.
Proof. destruct s, t; done. Qed.


(** ** Printing and parsing of names *)

Lemma chart_value_spec chart n v s :
  NoDup (map (fun e => slower e.1) chart) -> (n, v) ∈ chart -> strcaseeq n s = true ->
  chart_value chart s = Some v.
Proof.
  intros ND IN E. apply strcaseeq_slower in E. induction chart as [|[m w] chart IH]; [set_solver|].
  simpl in *. apply NoDup_cons in ND as [NI ND]. destruct (strcaseeq m s) eqn:D.
  - apply elem_of_cons in IN as [[= -> ->]|IN]; [done|]. exfalso. apply NI.
    apply strcaseeq_slower in D. rewrite D, <- E. by apply (list_elem_of_fmap_2 (fun e => slower e.1)) in IN.
  - apply elem_of_cons in IN as [[= -> ->]|IN]; [|by apply IH].
    apply strcaseeq_slower in E. congruence.
Qed.

Lemma chart_name_spec chart n v :
  NoDup (map snd chart) -> (n, v) ∈ chart -> chart_name chart v = Some n.
Proof.
  intros ND IN. induction chart as [|[m w] chart IH]; [set_solver|]. simpl in *.
  apply NoDup_cons in ND as [NI ND]. destruct (Z.eqb_spec w v) as [->|D].
  - apply elem_of_cons in IN as [[= ->]|IN]; [done|]. exfalso. apply NI.
    by apply (list_elem_of_fmap_2 snd) in IN.
  - apply elem_of_cons in IN as [[= -> ->]|IN]; [done|]. by apply IH.
Qed.

Lemma chart_name_none chart v : (forall n, (n, v) ∉ chart) -> chart_name chart v = None.
Proof.
  induction chart as [|[m w] chart IH]; intros H; [done|]. simpl.
  destruct (Z.eqb_spec w v) as [->|]; [exfalso; apply (H m); set_solver|].
  apply IH. intros k Hk. apply (H k). set_solver.
Qed.

Lemma chart_value_none chart s :
  (forall n v, (n, v) ∈ chart -> strcaseeq n s = false) -> chart_value chart s = None.
Proof.
  induction chart as [|[m w] chart IH]; intros H; [done|]. simpl.
  rewrite (H m w) by set_solver. apply IH. intros k v Hk. apply (H k v). set_solver.
Qed.

(** No name of a table starts with a digit, whatever the case of its letters. *)
Definition no_digits (chart : list (string * Z)) : bool :=
  forallb (fun e => negb (starts_with_digit (slower e.1)) && negb (String.eqb e.1 "")) chart.

Lemma starts_with_digit_slower s : starts_with_digit (slower s) = starts_with_digit s.
Proof. destruct s; simpl; [done|]. by rewrite lower_digit. Qed.

Lemma no_digits_spec chart n v s :
  no_digits chart = true -> (n, v) ∈ chart -> strcaseeq n s = true ->
  starts_with_digit s = false /\ s <> EmptyString.
Proof.
  intros H IN E. apply forallb_forall with (x := (n, v)) in H; [|by apply list_elem_of_In].
  apply strcaseeq_slower in E. simpl in H. btests. rewrite E, starts_with_digit_slower in H. split; [done|].
  intros ->. by destruct n.
Qed.

(** Hangup causes survive printing and parsing: the name of a cause of the
    table parses back to it in any mixture of cases, the cause prints as that
    name, and a cause outside the table prints as UNKNOWN, which parses as
    NORMAL_CLEARING. *)
Theorem cause_name_roundtrip :
  (forall n c s, (n, c) ∈ CAUSE_CHART -> strcaseeq n s = true ->
     switch_channel_cause2str c = n /\ switch_channel_str2cause (Some s) = c) /\
  (forall c, (forall n, (n, c) ∉ CAUSE_CHART) ->
     switch_channel_cause2str c = "UNKNOWN"%string /\
     switch_channel_str2cause (Some (switch_channel_cause2str c)) = SWITCH_CAUSE_NORMAL_CLEARING).
Proof.
  split.
  - intros n c s IN E. unfold switch_channel_cause2str. split.
    + rewrite (chart_name_spec _ n) by (done || compute_done). done.
    + destruct (no_digits_spec CAUSE_CHART n c s) as [D NE]; try done.
      unfold switch_channel_str2cause. destruct s as [|a s]; [done|]. rewrite D.
      by rewrite (chart_value_spec _ n c) by (done || compute_done).
  - intros c H. unfold switch_channel_cause2str. rewrite chart_name_none by done. done.
Qed.

(** The names of channel states and of call states parse back to the
    state, in any mixture of cases; an unknown channel state name gives
    [CS_DESTROY] and an unknown call state name [CCS_DOWN]. *)
Theorem state_name_roundtrip :
  (forall st s n, switch_channel_state_name st = Some n -> strcaseeq n s = true ->
     switch_channel_name_state s = st) /\
  (forall st, is_Some (switch_channel_state_name st)) /\
  (forall c s, strcaseeq (switch_channel_callstate2str (ccs c)) s = true ->
     switch_channel_str2callstate s = ccs c) /\
  (forall s, (forall st n, switch_channel_state_name st = Some n -> strcaseeq n s = false) ->
     switch_channel_name_state s = CS_DESTROY) /\
  (forall s, starts_with_digit s = false ->
     (forall c, strcaseeq (switch_channel_callstate2str (ccs c)) s = false) ->
     switch_channel_str2callstate s = ccs CCS_DOWN).
Proof.
  split_and!.
  - intros st s n Hn E. apply strcaseeq_slower in E.
    assert (forall m, strcaseeq m s = strcaseeq m n) as X.
    { intros m. apply eq_true_iff_eq. rewrite !strcaseeq_slower. by rewrite E. }
    unfold switch_channel_name_state, state_names in *. cbn [name_state_from]. rewrite !X.
    destruct st; injection Hn as <-; reflexivity.
  - intros []; eexists; reflexivity.
  - intros c s E. unfold switch_channel_str2callstate.
    assert ((switch_channel_callstate2str (ccs c), ccs c) ∈ CALLSTATE_CHART) as IN
      by (apply list_elem_of_In; destruct c; simpl; tauto).
    destruct (no_digits_spec CALLSTATE_CHART _ _ s eq_refl IN E) as [-> _].
    rewrite (chart_value_spec CALLSTATE_CHART _ _ s) with (2 := IN) by (done || compute_done). done.
  - intros s H. unfold switch_channel_name_state, state_names. cbn [name_state_from].
    rewrite (H CS_NEW), (H CS_INIT), (H CS_ROUTING), (H CS_SOFT_EXECUTE), (H CS_EXECUTE),
      (H CS_EXCHANGE_MEDIA), (H CS_PARK), (H CS_CONSUME_MEDIA), (H CS_HIBERNATE), (H CS_RESET),
      (H CS_HANGUP), (H CS_REPORTING), (H CS_DESTROY), (H CS_NONE) by reflexivity. done.
  - intros s D H. unfold switch_channel_str2callstate. rewrite D, chart_value_none; [done|].
    intros n v IN. apply list_elem_of_In in IN.
    repeat (destruct IN as [IN|IN]; [injection IN as <- <-; first
      [ apply (H CCS_DOWN) | apply (H CCS_DIALING) | apply (H CCS_RINGING) | apply (H CCS_EARLY)
      | apply (H CCS_ACTIVE) | apply (H CCS_HELD) | apply (H CCS_RING_WAIT) | apply (H CCS_HANGUP)
      | apply (H CCS_UNHELD) ]|]). done.
Qed.

(** ** Witnesses *)

Lemma cause_name_roundtrip_witness :
  switch_channel_str2cause (Some "User_Busy"%string) = SWITCH_CAUSE_USER_BUSY /\
  switch_channel_str2cause (Some (switch_channel_cause2str 4711)) = SWITCH_CAUSE_NORMAL_CLEARING.
Proof.
  destruct cause_name_roundtrip as [H1 H2]. split.
  - apply (H1 "USER_BUSY"%string); [|reflexivity]. apply list_elem_of_In. simpl. tauto.
  - apply (H2 4711). intros n IN. apply (list_elem_of_fmap_2 snd) in IN. revert IN. compute_done.
Defined.

Lemma state_name_roundtrip_witness :
  switch_channel_name_state "cs_park"%string = CS_PARK /\
  switch_channel_str2callstate "Held"%string = ccs CCS_HELD.
Proof.
  destruct state_name_roundtrip as (H1 & _ & H3 & _). split.
  - exact (H1 CS_PARK "cs_park"%string "CS_PARK"%string eq_refl eq_refl).
  - exact (H3 CCS_HELD "Held"%string eq_refl).
Defined.
