(* ===== verification/Channel.v ===== *)
(** * The channel object (src/switch_channel.c)

    State machine, call state, flags, holding, state handlers and hangup of a
    channel.  Calls to other components (events, variables of other channels,
    the session) are recorded in [out], newest first. *)
From S2P Require Import Prelude ChannelTypes.
From stdpp Require Import strings.
From Stdlib Require Import String.
Open Scope Z_scope.
#[local] Notation length := List.length (only parsing).

(** ** State *)

Inductive switch_call_direction := SWITCH_CALL_DIRECTION_INBOUND | SWITCH_CALL_DIRECTION_OUTBOUND.

#[export] Instance switch_call_direction_eq_dec : EqDecision switch_call_direction.
Proof. solve_decision. Defined.

Record switch_hold_record := mk_hold { on : Z; off : Z; hold_uuid : option string }.

(** The fields of [device_node] and of the profile's time table that this file
    writes. *)
Record switch_device_node := mk_dnode {
  dn_callstate : switch_channel_callstate;
  dn_direction : switch_call_direction
}.
Record switch_channel_timetable := mk_times { last_hold : Z; hold_accum : Z }.

(** Calls out of the channel. *)
Inductive effect :=
| EvCallstate (old new : switch_channel_callstate)
| EvChannelState
| EvHangup (cause : Z)
| EvHold
| EvUnhold
| CheckDeviceState (c : switch_channel_callstate)
| SetVariable (name : string) (val : option string)
| SetVariablePartner (name val : string)
| RequestVideoRefresh
| StartVideoThread
| WakeVideoThread
| RecoveryTrack
| TransferRecordings
| SignalStateChange
| ThreadLaunch
| KillChannel
| HangupState.

Definition OCF_HANGUP : Z := 1.
Definition SWITCH_MAX_STATE_HANDLERS : nat := 30.
Definition SSH_FLAG_STICKY : Z := 1.

(** State handlers are addresses of handler tables, 0 the null pointer. *)
Record switch_channel := mk_channel {
  direction : switch_call_direction;
  logical_direction : switch_call_direction;
  state : switch_channel_state;
  running_state : switch_channel_state;
  callstate : switch_channel_callstate;
  flags : list Z;
  caps : list Z;
  state_flags : list Z;
  private_flags : Z;
  caller_profile : option switch_channel_timetable;
  state_handlers : list Z;
  state_handler_index : Z;
  app_flag_hash : option (gmap string Z);
  hangup_cause : Z;
  opaque_flags : Z;
  hold_record : list switch_hold_record;
  device_node : option switch_device_node;
  out : list effect
}.

#[export] Instance eta_dnode : Eta switch_device_node := fun d =>
  mk_dnode (dn_callstate d) (dn_direction d).
#[export] Instance eta_channel : Eta switch_channel := fun c =>
  mk_channel (direction c) (logical_direction c) (state c) (running_state c) (callstate c)
    (flags c) (caps c) (state_flags c) (private_flags c) (caller_profile c) (state_handlers c)
    (state_handler_index c) (app_flag_hash c) (hangup_cause c) (opaque_flags c) (hold_record c)
    (device_node c) (out c).

(** What an operation reads from outside: successive readings of the clock, the
    partner's uuid, the outcomes of the two trylocks of [careful_set], the
    session thread's situation, and two channel variables. *)
Record env := mk_env {
  clock : nat -> Z;
  partner_uuid : option string;
  thread_trylock : bool;
  session_trylock : nat -> bool;
  session_running : bool;
  session_started : bool;
  proto_hangup_cause : option string;
  flip_record_on_hold : bool;
  has_partner : bool
}.

Definition emit (x : effect) (ch : switch_channel) : switch_channel := ch <| out := x :: out ch |>.

(** A C integer as a condition. *)
Definition truth (x : Z) : bool := negb (x =? 0).
Notation "f 'is' g" := (bool_decide (f = g)) (at level 70, no associativity) : fs_scope.

(** ** Creation *)

(** [switch_core_alloc] returns zeroed memory. *)
Definition switch_channel_alloc (alloc_ok : bool) (dir : switch_call_direction)
  : option switch_channel * switch_status :=
  if negb alloc_ok then (None, SWITCH_STATUS_MEMERR)
  else
    let ch := mk_channel SWITCH_CALL_DIRECTION_INBOUND SWITCH_CALL_DIRECTION_INBOUND CS_NEW CS_NEW
      CCS_DOWN (replicate CF_FLAG_MAX 0) (replicate CC_FLAG_MAX 0) (replicate CF_FLAG_MAX 0) 0 None
      (replicate SWITCH_MAX_STATE_HANDLERS 0) 0 None 0 0 [] None [] in
    let ch := ch <| hangup_cause := SWITCH_CAUSE_NONE |> in
    let ch := ch <| direction := dir |> <| logical_direction := dir |> in
    let ch := emit (SetVariable "direction"
      (Some (if direction ch is SWITCH_CALL_DIRECTION_OUTBOUND then "outbound" else "inbound")))%string ch in
    (Some ch, SWITCH_STATUS_SUCCESS).

Definition switch_channel_set_direction (in_thread : bool) (ch : switch_channel)
    (dir : switch_call_direction) : switch_channel :=
  if negb in_thread then
    let ch := ch <| direction := dir |> <| logical_direction := dir |> in
    emit (SetVariable "direction"
      (Some (if direction ch is SWITCH_CALL_DIRECTION_OUTBOUND then "outbound" else "inbound")))%string ch
  else ch.

(** ** Call state *)

(** The part behind the test, with the call state that was read before it: no
    mutex is held, so the channel may have another one by then. *)
Definition callstate_write (ch : switch_channel) (o_callstate c : switch_channel_callstate) : switch_channel :=
  let ch := ch <| callstate := c |> in
  let ch := match device_node ch with
            | Some d => ch <| device_node := Some (d <| dn_callstate := c |>) |>
            | None => ch
            end in
  let ch := emit (CheckDeviceState (callstate ch)) ch in
  emit (EvCallstate o_callstate c) ch.

(** [switch_channel_perform_set_callstate] when nobody comes between. *)
Definition switch_channel_set_callstate (ch : switch_channel) (c : switch_channel_callstate)
  : switch_channel :=
  let o_callstate := callstate ch in
  if (o_callstate is c) || (o_callstate is CCS_HANGUP) then ch
  else callstate_write ch o_callstate c.

(** ** Flags *)

Definition flag_get (ch : switch_channel) (f : switch_channel_flag) : Z :=
  default 0 (flags ch !! cf f).
Definition flag_put (ch : switch_channel) (f : switch_channel_flag) (v : Z) : switch_channel :=
  ch <| flags := <[cf f := v]> (flags ch) |>.

Definition switch_channel_test_flag (ch : switch_channel) (f : switch_channel_flag) : Z :=
  flag_get ch f.

Definition switch_channel_up_nosig (ch : switch_channel) : bool := cs (state ch) <? cs CS_HANGUP.
Definition switch_channel_down_nosig (ch : switch_channel) : bool := cs CS_HANGUP <=? cs (state ch).

Definition set_device_direction (ch : switch_channel) (dir : switch_call_direction) : switch_channel :=
  match device_node ch with
  | Some d => ch <| device_node := Some (d <| dn_direction := dir |>) |>
  | None => ch
  end.

(** Start of a hold: the null [caller_profile] is dereferenced. *)
Definition hold_start (e : env) (ch : switch_channel) : outcome switch_channel :=
  let brto := partner_uuid e in
  let ch := switch_channel_set_callstate ch CCS_HELD in
  match caller_profile ch with
  | None => UB
  | Some t =>
    let ch := ch <| caller_profile := Some (mk_times (clock e 0) (hold_accum t)) |> in
    let hr := mk_hold (clock e 1) 0 brto in
    Ok (ch <| hold_record := hr :: hold_record ch |>)
  end.

Definition switch_channel_set_flag_value (e : env) (ch : switch_channel)
    (flag : switch_channel_flag) (value : Z) : outcome switch_channel :=
  let HELD := (flag is CF_LEG_HOLDING) && negb (truth (flag_get ch flag))
                && truth (flag_get ch CF_ANSWERED) in
  let just_set := negb (flag_get ch flag =? value) in
  let ch := if just_set then flag_put ch flag value else ch in
  let ch := if (flag is CF_VIDEO_READY) && just_set then emit RequestVideoRefresh ch else ch in
  let ch := if (flag is CF_ORIGINATOR) && truth (switch_channel_test_flag ch CF_ANSWERED)
                 && switch_channel_up_nosig ch
            then switch_channel_set_callstate ch CCS_RING_WAIT else ch in
  let ch :=
    if flag is CF_DIALPLAN then
      if direction ch is SWITCH_CALL_DIRECTION_INBOUND then
        set_device_direction (ch <| logical_direction := SWITCH_CALL_DIRECTION_OUTBOUND |>)
          SWITCH_CALL_DIRECTION_INBOUND
      else
        set_device_direction (ch <| logical_direction := SWITCH_CALL_DIRECTION_INBOUND |>)
          SWITCH_CALL_DIRECTION_OUTBOUND
    else ch in
  ch ← (if HELD then hold_start e ch else Ok ch);
  let ch := if flag is CF_OUTBOUND
            then emit (SetVariable "is_outbound" (Some "true")) ch else ch in
  let ch := if flag is CF_RECOVERED
            then emit (SetVariable "recovered" (Some "true")) ch else ch in
  let ch := if (flag is CF_VIDEO_ECHO) || (flag is CF_VIDEO_BLANK)
                 || (flag is CF_VIDEO_DECODED_READ) || (flag is CF_VIDEO_PASSIVE)
            then emit StartVideoThread ch else ch in
  let ch := if (flag is CF_VIDEO_DECODED_READ) && truth (flag_get ch CF_VIDEO)
            then emit RequestVideoRefresh ch else ch in
  Ok ch.

Definition switch_channel_set_flag (e : env) (ch : switch_channel) (flag : switch_channel_flag)
  : outcome switch_channel := switch_channel_set_flag_value e ch flag 1.

Definition switch_channel_set_flag_recursive (ch : switch_channel) (flag : switch_channel_flag)
  : switch_channel :=
  let ch := flag_put ch flag (u32 (flag_get ch flag + 1)) in
  let ch := if flag is CF_OUTBOUND
            then emit (SetVariable "is_outbound" (Some "true")) ch else ch in
  if flag is CF_RECOVERED then emit (SetVariable "recovered" (Some "true")) ch else ch.

(** End of a hold. *)
Definition hold_stop (e : env) (ch : switch_channel) : outcome switch_channel :=
  let ch := switch_channel_set_callstate ch CCS_UNHELD in
  match caller_profile ch with
  | None => UB
  | Some t =>
    let t := if truth (last_hold t)
             then mk_times (last_hold t) (hold_accum t + (clock e 0 - last_hold t)) else t in
    let ch := ch <| caller_profile := Some t |> in
    let ch := match hold_record ch with
              | hr :: rest => ch <| hold_record := mk_hold (on hr) (clock e 1) (hold_uuid hr) :: rest |>
              | [] => ch
              end in
    Ok (if truth (switch_channel_test_flag ch CF_PROXY_MODE)
           && truth (switch_channel_test_flag ch CF_BRIDGED)
        then switch_channel_set_callstate ch CCS_ACTIVE else ch)
  end.

Definition switch_channel_clear_flag (e : env) (ch : switch_channel) (flag : switch_channel_flag)
  : outcome switch_channel :=
  let ACTIVE := (flag is CF_LEG_HOLDING) && truth (flag_get ch flag)
                  && truth (flag_get ch CF_ANSWERED) in
  let passive := (flag is CF_VIDEO_PASSIVE) && truth (flag_get ch CF_VIDEO) in
  let ch := if passive then flag_put ch CF_VIDEO_READY 1 else ch in
  let CLEAR := passive && truth (flag_get ch flag) in
  let ch := flag_put ch flag 0 in
  let ch :=
    if (flag is CF_DIALPLAN) && (direction ch is SWITCH_CALL_DIRECTION_OUTBOUND) then
      set_device_direction (ch <| logical_direction := SWITCH_CALL_DIRECTION_OUTBOUND |>)
        SWITCH_CALL_DIRECTION_INBOUND
    else ch in
  ch ← (if ACTIVE then hold_stop e ch else Ok ch);
  let ch := if (flag is CF_ORIGINATOR) && truth (switch_channel_test_flag ch CF_ANSWERED)
                 && switch_channel_up_nosig ch
            then switch_channel_set_callstate ch CCS_ACTIVE else ch in
  let ch := if flag is CF_OUTBOUND then emit (SetVariable "is_outbound" None) ch else ch in
  let ch := if flag is CF_RECOVERED then emit (SetVariable "recovered" None) ch else ch in
  let ch := if (flag is CF_VIDEO_PASSIVE) && CLEAR then emit WakeVideoThread ch else ch in
  let ch := if (flag is CF_RECOVERING) && negb (truth (hangup_cause ch))
            then emit RecoveryTrack ch else ch in
  Ok ch.

Definition switch_channel_clear_flag_recursive (ch : switch_channel) (flag : switch_channel_flag)
  : switch_channel :=
  let ch := if truth (flag_get ch flag) then flag_put ch flag (u32 (flag_get ch flag - 1)) else ch in
  if flag is CF_OUTBOUND then emit (SetVariable "is_outbound" None) ch else ch.

Definition switch_channel_set_cap_value (ch : switch_channel) (cap : switch_channel_cap) (value : Z)
  : switch_channel := ch <| caps := <[cc cap := value]> (caps ch) |>.
Definition switch_channel_clear_cap (ch : switch_channel) (cap : switch_channel_cap)
  : switch_channel := ch <| caps := <[cc cap := 0]> (caps ch) |>.
Definition switch_channel_test_cap (ch : switch_channel) (cap : switch_channel_cap) : Z :=
  if truth (default 0 (caps ch !! cc cap)) then 1 else 0.

Definition switch_channel_set_private_flag (ch : switch_channel) (fl : Z) : switch_channel :=
  ch <| private_flags := set_flag (private_flags ch) fl |>.
Definition switch_channel_clear_private_flag (ch : switch_channel) (fl : Z) : switch_channel :=
  ch <| private_flags := clear_flag (private_flags ch) fl |>.
Definition switch_channel_test_private_flag (ch : switch_channel) (fl : Z) : Z :=
  Z.land (private_flags ch) fl.

(** The hash maps a key to the address of a word of its own, so the words are
    modelled as the values of the map. *)
Definition switch_channel_set_app_flag_key (key : string) (ch : switch_channel) (fl : Z)
  : switch_channel :=
  let h := default ∅ (app_flag_hash ch) in
  let v := default 0 (h !! key) in
  ch <| app_flag_hash := Some (<[key := set_flag v fl]> h) |>.

Definition switch_channel_clear_app_flag_key (key : string) (ch : switch_channel) (fl : Z)
  : switch_channel :=
  match app_flag_hash ch with
  | None => ch
  | Some h =>
    match h !! key with
    | None => ch
    | Some v =>
      ch <| app_flag_hash := Some (<[key := if fl =? 0 then 0 else clear_flag v fl]> h) |>
    end
  end.

Definition switch_channel_test_app_flag_key (key : string) (ch : switch_channel) (fl : Z) : Z :=
  match app_flag_hash ch ≫= (.!! key) with
  | Some v => Z.land v fl
  | None => 0
  end.

(** Entry 0 of [state_flags] says that some flag is pending. *)
Definition switch_channel_set_state_flag (ch : switch_channel) (flag : switch_channel_flag)
  : switch_channel :=
  ch <| state_flags := <[cf flag := 1]> (<[0%nat := 1]> (state_flags ch)) |>.

Definition switch_channel_clear_state_flag (ch : switch_channel) (flag : switch_channel_flag)
  : switch_channel := ch <| state_flags := <[cf flag := 0]> (state_flags ch) |>.

(** ** Channel states *)

(** The mutex that a write of [careful_set] was made under. *)
Inductive lock := ThreadMutex | SessionMutex | NoMutex.

Fixpoint session_tries (n x : nat) (try : nat -> bool) : lock :=
  match n with
  | O => NoMutex
  | S n => if try x then SessionMutex else session_tries n (S x) try
  end.

(** On every path [*state = val] is executed once. *)
Definition careful_set (e : env) (val : switch_channel_state) : switch_channel_state * lock :=
  if thread_trylock e then (val, ThreadMutex)
  else (val, session_tries 100 0 (session_trylock e)).

(** The loop over [1 .. CF_FLAG_MAX - 1], on the two arrays side by side. *)
Fixpoint deliver (fs sfs : list Z) : list Z * list Z :=
  match fs, sfs with
  | f :: fs, s :: sfs =>
    let '(fs', sfs') := deliver fs sfs in
    if truth s then (1 :: fs', 0 :: sfs') else (f :: fs', s :: sfs')
  | _, _ => (fs, sfs)
  end.

Definition deliver_state_flags (ch : switch_channel) : switch_channel :=
  if truth (default 0 (state_flags ch !! 0%nat)) then
    let '(fs, sfs) := deliver (drop 1 (flags ch)) (drop 1 (state_flags ch)) in
    ch <| flags := take 1 (flags ch) ++ fs |> <| state_flags := 0 :: sfs |>
  else ch.

(** The C function returns [(switch_channel_state_t) SWITCH_STATUS_SUCCESS]. *)
Definition switch_channel_set_running_state (e : env) (ch : switch_channel)
    (st : switch_channel_state) : outcome switch_channel :=
  let ch := deliver_state_flags ch in
  ch ← switch_channel_clear_flag e ch CF_TAGGED;
  let ch := ch <| running_state := fst (careful_set e st) |> in
  Ok (if cs st <=? cs CS_DESTROY then
        let ch :=
          if (direction ch is SWITCH_CALL_DIRECTION_INBOUND) && (cs st <? cs CS_HANGUP) then
            if st is CS_ROUTING then switch_channel_set_callstate ch CCS_RINGING
            else if truth (switch_channel_test_flag ch CF_ANSWERED)
            then switch_channel_set_callstate ch CCS_ACTIVE
            else if truth (switch_channel_test_flag ch CF_EARLY_MEDIA)
            then switch_channel_set_callstate ch CCS_EARLY
            else ch
          else ch in
        emit EvChannelState ch
      else ch).

(** The switch of [switch_channel_perform_set_state]. *)
Definition state_change_ok (last_state st : switch_channel_state) : bool :=
  match last_state with
  | CS_NEW | CS_RESET => true
  | CS_INIT =>
    match st with
    | CS_EXCHANGE_MEDIA | CS_SOFT_EXECUTE | CS_ROUTING | CS_EXECUTE | CS_PARK | CS_CONSUME_MEDIA
    | CS_HIBERNATE | CS_RESET => true
    | _ => false
    end
  | CS_EXCHANGE_MEDIA =>
    match st with
    | CS_SOFT_EXECUTE | CS_ROUTING | CS_EXECUTE | CS_PARK | CS_CONSUME_MEDIA | CS_HIBERNATE
    | CS_RESET => true
    | _ => false
    end
  | CS_SOFT_EXECUTE =>
    match st with
    | CS_EXCHANGE_MEDIA | CS_ROUTING | CS_EXECUTE | CS_PARK | CS_CONSUME_MEDIA | CS_HIBERNATE
    | CS_RESET => true
    | _ => false
    end
  | CS_PARK =>
    match st with
    | CS_EXCHANGE_MEDIA | CS_ROUTING | CS_EXECUTE | CS_SOFT_EXECUTE | CS_HIBERNATE | CS_RESET
    | CS_CONSUME_MEDIA => true
    | _ => false
    end
  | CS_CONSUME_MEDIA =>
    match st with
    | CS_EXCHANGE_MEDIA | CS_ROUTING | CS_EXECUTE | CS_SOFT_EXECUTE | CS_HIBERNATE | CS_RESET
    | CS_PARK => true
    | _ => false
    end
  | CS_HIBERNATE =>
    match st with
    | CS_EXCHANGE_MEDIA | CS_INIT | CS_ROUTING | CS_EXECUTE | CS_SOFT_EXECUTE | CS_PARK
    | CS_CONSUME_MEDIA | CS_RESET => true
    | _ => false
    end
  | CS_ROUTING =>
    match st with
    | CS_EXCHANGE_MEDIA | CS_EXECUTE | CS_SOFT_EXECUTE | CS_PARK | CS_CONSUME_MEDIA | CS_HIBERNATE
    | CS_RESET => true
    | _ => false
    end
  | CS_EXECUTE =>
    match st with
    | CS_EXCHANGE_MEDIA | CS_SOFT_EXECUTE | CS_ROUTING | CS_PARK | CS_CONSUME_MEDIA | CS_HIBERNATE
    | CS_RESET => true
    | _ => false
    end
  | CS_HANGUP => match st with CS_REPORTING | CS_DESTROY => true | _ => false end
  | CS_REPORTING => match st with CS_DESTROY => true | _ => false end
  | _ => false
  end.

Definition switch_channel_set_state (e : env) (ch : switch_channel) (st : switch_channel_state)
  : outcome (switch_channel * switch_channel_state) :=
  if negb (cs st <=? cs CS_DESTROY) then Assert
  else
    let last_state := state ch in
    if negb (cs last_state <=? cs CS_DESTROY) then Assert
    else if last_state is st then Ok (ch, state ch)
    else if (cs CS_HANGUP <=? cs last_state) && (cs st <? cs last_state) then Ok (ch, state ch)
    else if state_change_ok last_state st then
      let ch := ch <| state := fst (careful_set e st) |> in
      let ch := if (st is CS_HANGUP) && negb (truth (hangup_cause ch))
                then ch <| hangup_cause := SWITCH_CAUSE_NORMAL_CLEARING |> else ch in
      let ch := if cs st <=? cs CS_DESTROY then emit SignalStateChange ch else ch in
      Ok (ch, state ch)
    else if negb (cs CS_HANGUP <=? cs (state ch)) then Assert
    else Ok (ch, state ch).

Definition switch_channel_state_change_pending (in_thread : bool) (ch : switch_channel) : bool :=
  if switch_channel_down_nosig ch || negb in_thread then false
  else negb (running_state ch is state ch).

(** [parse_signal] is [switch_ivr_parse_signal_data] of switch_ivr.c; the codec
    arguments say whether the session has them. *)
Definition switch_channel_test_ready (parse_signal : switch_channel -> switch_channel)
    (in_thread read_codec write_codec : bool) (ch : switch_channel) (check_ready check_media : bool)
  : switch_channel * bool :=
  let ch := parse_signal ch in
  let media :=
    (truth (switch_channel_test_flag ch CF_ANSWERED) || truth (switch_channel_test_flag ch CF_EARLY_MEDIA))
    && negb (truth (switch_channel_test_flag ch CF_PROXY_MODE)) && read_codec && write_codec in
  if check_media && negb media then (ch, false)
  else if negb check_ready then (ch, check_media && media)
  else
    (ch, negb (truth (hangup_cause ch)) && (cs CS_ROUTING <? cs (state ch))
         && (cs (state ch) <? cs CS_HANGUP) && negb (state ch is CS_RESET)
         && negb (truth (switch_channel_test_flag ch CF_TRANSFER))
         && negb (truth (switch_channel_test_flag ch CF_NOT_READY))
         && negb (switch_channel_state_change_pending in_thread ch)).

(** ** Waiting

    A waiting loop looks at the channel again after each [switch_cond_next]:
    the looks are an argument, and [None] means that it still waits when they
    are used up. *)

Record look := mk_look { lk_flag : Z; lk_super_ready : bool; lk_down : bool }.

Fixpoint wait_for_flag_loop (pres super : bool) (to : Z) (looks : list look) : option switch_status :=
  match looks with
  | [] => None
  | k :: looks =>
    if Bool.eqb pres (truth (lk_flag k)) then Some SWITCH_STATUS_SUCCESS
    else if super && negb (lk_super_ready k) then Some SWITCH_STATUS_FALSE
    else if lk_down k then Some SWITCH_STATUS_FALSE
    else if truth to then
      let to := u32 (to - 1) in
      if negb (truth to) then Some SWITCH_STATUS_TIMEOUT
      else wait_for_flag_loop pres super to looks
    else wait_for_flag_loop pres super to looks
  end.

Definition switch_channel_wait_for_flag (pres super : bool) (to : Z) (looks : list look)
  : option switch_status :=
  let to := if truth to then u32 (to + 1) else to in
  wait_for_flag_loop pres super to looks.

(** The state and running state seen at each look. *)
Fixpoint wait_for_state_timeout_loop (want_state : switch_channel_state) (timeout count : Z)
    (looks : list (switch_channel_state * switch_channel_state)) : option Z :=
  match looks with
  | [] => None
  | (s, r) :: looks =>
    if ((s is r) && (r is want_state)) || (cs CS_HANGUP <=? cs s) then Some count
    else
      let count := u32 (count + 1) in
      if timeout <=? count then Some count
      else wait_for_state_timeout_loop want_state timeout count looks
  end.
Definition switch_channel_wait_for_state_timeout (want_state : switch_channel_state) (timeout : Z)
    (looks : list (switch_channel_state * switch_channel_state)) : option Z :=
  wait_for_state_timeout_loop want_state timeout 0 looks.

(** ** State handlers *)

(** Position of a handler in the table. *)
Fixpoint handler_pos (l : list Z) (h : Z) (x : Z) : option Z :=
  match l with
  | [] => None
  | y :: l => if y =? h then Some x else handler_pos l h (x + 1)
  end.

Definition switch_channel_add_state_handler (ch : switch_channel) (h : Z) : switch_channel * Z :=
  match handler_pos (state_handlers ch) h 0 with
  | Some x => (ch, x)
  | None =>
    let index := state_handler_index ch in
    let ch := ch <| state_handler_index := state_handler_index ch + 1 |> in
    if Z.of_nat SWITCH_MAX_STATE_HANDLERS <=? state_handler_index ch then (ch, -1)
    else (ch <| state_handlers := <[Z.to_nat index := h]> (state_handlers ch) |>, index)
  end.

(** An access outside the 30 entries is [UB]. *)
Definition handler_at (l : list Z) (i : Z) : outcome Z :=
  if 0 <=? i then match l !! Z.to_nat i with Some h => Ok h | None => UB end else UB.

Definition switch_channel_get_state_handler (ch : switch_channel) (index : Z) : outcome Z :=
  if (Z.of_nat SWITCH_MAX_STATE_HANDLERS <=? index) || (state_handler_index ch <? index) then Ok 0
  else handler_at (state_handlers ch) index.

(** The entries [index .. index + n - 1] that [keep] accepts. *)
Fixpoint kept (keep : Z -> bool) (l : list Z) (index : Z) (n : nat) : outcome (list Z) :=
  match n with
  | O => Ok []
  | S n =>
    h ← handler_at l index;
    rest ← kept keep l (index + 1) n;
    Ok (if keep h then h :: rest else rest)
  end.

(** [tbl_flags h] is the [flags] field of the table at address [h]. *)
Definition switch_channel_clear_state_handler (tbl_flags : Z -> Z) (ch : switch_channel) (h : Z)
  : outcome switch_channel :=
  let i := state_handler_index ch in
  let keep := if truth h then fun x => negb (x =? h)
              else fun x => truth x && test_flag (tbl_flags x) SSH_FLAG_STICKY in
  new ← kept keep (state_handlers ch) 0 (Z.to_nat i);
  let ch := ch <| state_handler_index := zlen new |> in
  Ok (ch <| state_handlers := new ++ replicate (SWITCH_MAX_STATE_HANDLERS - length new) 0 |>).

(** ** Holding and hangup *)

Definition switch_channel_mark_hold (e : env) (ch : switch_channel) (on : bool)
  : outcome switch_channel :=
  ch ← (if Bool.eqb on (truth (switch_channel_test_flag ch CF_LEG_HOLDING)) then Ok ch
        else
          ch ← (if on then switch_channel_set_flag e ch CF_LEG_HOLDING
                else switch_channel_clear_flag e ch CF_LEG_HOLDING);
          Ok (emit (if on then EvHold else EvUnhold) ch));
  Ok (if on && flip_record_on_hold e && has_partner e then emit TransferRecordings ch else ch).

(** [perform_hangup] up to the first unlock: the second caller gets [false]. *)
Definition hangup_begin (ch : switch_channel) : switch_channel * bool :=
  if negb (test_flag (opaque_flags ch) OCF_HANGUP)
  then (ch <| opaque_flags := set_flag (opaque_flags ch) OCF_HANGUP |>, true)
  else (ch, false).

Definition hangup_unhold (e : env) (ch : switch_channel) : outcome switch_channel :=
  if truth (switch_channel_test_flag ch CF_LEG_HOLDING) then
    ch ← switch_channel_mark_hold e ch false;
    switch_channel_set_flag e ch CF_HANGUP_HELD
  else Ok ch.

(** The hold in progress ends. *)
Definition hangup_end_hold (e : env) (ch : switch_channel) : switch_channel :=
  match hold_record ch with
  | hr :: rest => if truth (off hr) then ch
      else ch <| hold_record := mk_hold (on hr) (clock e 2) (hold_uuid hr) :: rest |>
  | [] => ch
  end.

(** What is told to the partner, the variables and the session thread. *)
Definition hangup_report (e : env) (ch : switch_channel) (cause : Z) : switch_channel :=
  let ch := emit (SetVariablePartner "last_bridge_hangup_cause" (switch_channel_cause2str cause)) ch in
  let ch := match proto_hangup_cause e with
            | Some var => emit (SetVariablePartner "last_bridge_proto_specific_hangup_cause" var) ch
            | None => ch
            end in
  let ch :=
    if truth (switch_channel_test_flag ch CF_BRIDGE_ORIGINATOR)
    then emit (SetVariable "last_bridge_role" (Some "originator")) ch
    else if truth (switch_channel_test_flag ch CF_BRIDGED)
    then emit (SetVariable "last_bridge_role" (Some "originatee")) ch
    else ch in
  if negb (session_running e) && negb (session_started e) then emit ThreadLaunch ch else ch.

(** [channel->state < CS_HANGUP], read without a lock. *)
Definition hangup_live (ch : switch_channel) : bool := cs (state ch) <? cs CS_HANGUP.
(** The write under [state_mutex], and the one behind it under no lock. *)
Definition hangup_enter (ch : switch_channel) : switch_channel := ch <| state := CS_HANGUP |>.
Definition hangup_mark (ch : switch_channel) (cause : Z) : switch_channel := ch <| hangup_cause := cause |>.
(** The event and the two signals to the session. *)
Definition hangup_event (ch : switch_channel) (cause : Z) : switch_channel :=
  emit SignalStateChange (emit KillChannel (emit (EvHangup cause) ch)).

(** [switch_channel_perform_hangup] when nobody comes between its parts. *)
Definition switch_channel_hangup (e : env) (ch : switch_channel) (cause : Z)
  : outcome (switch_channel * switch_channel_state) :=
  let '(ch, ok) := hangup_begin ch in
  ch ← hangup_unhold e ch;
  if negb ok then Ok (ch, state ch)
  else
    ch ← switch_channel_clear_flag e ch CF_BLOCK_STATE;
    if hangup_live ch then
      let ch := hangup_end_hold e ch in
      let ch := hangup_enter ch in
      let ch := hangup_mark ch cause in
      let ch := hangup_report e ch cause in
      let ch := hangup_event ch cause in
      let ch := emit HangupState ch in
      Ok (ch, state ch)
    else Ok (ch, state ch).

(** ** Frames

    [core ch ch']: what the operations on flags, call state and holding leave
    alone.  [hangups] are the causes of the hangup events fired so far. *)

Definition hangups (o : list effect) : list Z :=
  omap (fun x => match x with EvHangup c => Some c | _ => None end) o.

Record core (ch ch' : switch_channel) : Prop := mk_core {
  co_dir : direction ch' = direction ch;
  co_state : state ch' = state ch;
  co_running : running_state ch' = running_state ch;
  co_cause : hangup_cause ch' = hangup_cause ch;
  co_opaque : opaque_flags ch' = opaque_flags ch;
  co_hangups : hangups (out ch') = hangups (out ch);
  co_state_flags : state_flags ch' = state_flags ch;
  co_caps : caps ch' = caps ch;
  co_handlers : state_handlers ch' = state_handlers ch /\ state_handler_index ch' = state_handler_index ch;
  co_len : length (flags ch') = length (flags ch)
}.

#[export] Instance core_preorder : PreOrder core.
Proof.
  split; [by constructor|]. intros x y z [] [].
  constructor; try congruence. intuition congruence.
Qed.

Lemma core_emit ch x e : core ch x -> (forall c, e <> EvHangup c) -> core ch (emit e x).
Proof.
  intros H N. etrans; [done|]. constructor; try done. unfold emit. rupd.
  destruct e; try done. by destruct (N cause).
Qed.

Lemma core_callstate_write ch x o c : core ch x -> core ch (callstate_write x o c).
Proof.
  intros H. etrans; [done|]. unfold callstate_write. apply core_emit; [|done]. apply core_emit; [|done].
  destruct (device_node _); constructor; done.
Qed.
Lemma core_callstate ch x c : core ch x -> core ch (switch_channel_set_callstate x c).
Proof.
  intros H. unfold switch_channel_set_callstate. destruct (_ || _); [done|]. by apply core_callstate_write.
Qed.

Lemma core_flag_put ch x f v : core ch x -> core ch (flag_put x f v).
Proof.
  intros H. etrans; [done|]. constructor; try done. unfold flag_put. rupd. by rewrite length_insert.
Qed.

Lemma core_device_direction ch x d : core ch x -> core ch (set_device_direction x d).
Proof. intros H. etrans; [done|]. unfold set_device_direction. destruct (device_node _); by constructor. Qed.

Lemma core_logical ch x d : core ch x -> core ch (x <| logical_direction := d |>).
Proof. intros H. etrans; [done|]. by constructor. Qed.
Lemma core_profile ch x d : core ch x -> core ch (x <| caller_profile := d |>).
Proof. intros H. etrans; [done|]. by constructor. Qed.
Lemma core_hold_record ch x d : core ch x -> core ch (x <| hold_record := d |>).
Proof. intros H. etrans; [done|]. by constructor. Qed.

#[export] Hint Resolve core_callstate core_flag_put core_device_direction core_logical core_profile
  core_hold_record : fs.
#[export] Hint Extern 1 (core _ (emit _ _)) => (apply core_emit; [|done]) : fs.

(** [okc ch m]: if [m] returns a channel it is framed by [ch]. *)
Definition okc (ch : switch_channel) (m : outcome switch_channel) : Prop :=
  forall ch', m = Ok ch' -> core ch ch'.

Lemma okc_ok ch x : core ch x -> okc ch (Ok x).
Proof. by intros ? ? [= <-]. Qed.

Lemma okc_bind ch m f : okc ch m -> (forall x, core ch x -> okc ch (f x)) -> okc ch (m ≫= f).
Proof. intros H F ch' (x & E & E')%outcome_bind_ok. eapply F; eauto. Qed.

Lemma okc_trans ch x m : core ch x -> okc x m -> okc ch m.
Proof. intros H F ch' E. etrans; eauto. Qed.

(** Intermediate channels are framed one binding at a time. *)
Lemma let_okc ch t (b : switch_channel -> outcome switch_channel) :
  core ch t -> (forall x, core ch x -> okc ch (b x)) -> okc ch (let x := t in b x).
Proof. auto. Qed.
Lemma let_core ch t (b : switch_channel -> switch_channel) :
  core ch t -> (forall x, core ch x -> core ch (b x)) -> core ch (let x := t in b x).
Proof. intros H F. cbv zeta. by apply F. Qed.

Lemma let_any {A B} (P : B -> Prop) (t : A) (b : A -> B) : (forall x, P (b x)) -> P (let x := t in b x).
Proof. intros H. apply H. Qed.
Lemma core_refl ch : core ch ch.
Proof. reflexivity. Qed.
#[export] Hint Resolve core_refl : fs.

Ltac frame1 :=
  match goal with
  | |- okc ?ch (let x := ?t in @?b x) =>
      first [ apply (let_okc ch t b); [|intros ? ?] | apply (let_any (okc ch) t b); intros ? ]
  | |- core ?ch (let x := ?t in @?b x) =>
      first [ apply (let_core ch t b); [|intros ? ?] | apply (let_any (core ch) t b); intros ? ]
  | |- okc _ (Ok _) => apply okc_ok
  | |- core _ (switch_channel_set_callstate _ _) => apply core_callstate
  | |- core _ (flag_put _ _ _) => apply core_flag_put
  | |- core _ (emit _ _) => apply core_emit; [|intros ?; by repeat case_match]
  | |- okc _ UB => by intros ? ?
  | |- okc _ (if ?b then _ else _) => destruct b
  | |- core _ (if ?b then _ else _) => destruct b
  | |- okc _ (match ?x with _ => _ end) => destruct x eqn:?
  | |- core _ (match ?x with _ => _ end) => destruct x eqn:?
  | |- okc _ (_ ≫= _) => apply okc_bind; [|intros ? ?]
  end.
(** [unfold] would substitute the bindings of a definition's body. *)
Ltac frames := repeat frame1; eauto 7 with fs.
Tactic Notation "frame" reference(f) := cbv delta [f]; cbv beta; frames.

Lemma hold_start_core e ch : okc ch (hold_start e ch).
Proof. frame hold_start. Qed.

Lemma hold_stop_core e ch : okc ch (hold_stop e ch).
Proof. frame hold_stop. Qed.

#[export] Hint Resolve okc_trans hold_start_core hold_stop_core : fs.

Lemma set_flag_value_core e ch f v : okc ch (switch_channel_set_flag_value e ch f v).
Proof. frame switch_channel_set_flag_value. Qed.

Lemma clear_flag_core e ch f : okc ch (switch_channel_clear_flag e ch f).
Proof. frame switch_channel_clear_flag. Qed.

Lemma set_flag_recursive_core ch f : core ch (switch_channel_set_flag_recursive ch f).
Proof. frame switch_channel_set_flag_recursive. Qed.

Lemma clear_flag_recursive_core ch f : core ch (switch_channel_clear_flag_recursive ch f).
Proof. frame switch_channel_clear_flag_recursive. Qed.

Lemma set_flag_core e ch f : okc ch (switch_channel_set_flag e ch f).
Proof. apply set_flag_value_core. Qed.

#[export] Hint Resolve set_flag_core clear_flag_core : fs.

Lemma mark_hold_core e ch b : okc ch (switch_channel_mark_hold e ch b).
Proof. frame switch_channel_mark_hold. Qed.

#[export] Hint Resolve mark_hold_core : fs.

Lemma hangup_unhold_core e ch : okc ch (hangup_unhold e ch).
Proof. frame hangup_unhold. Qed.

(** ** States: the transitions, and what hangup leaves in place *)

(** The transitions the code allows, by class of states. *)
Inductive transition : switch_channel_state -> switch_channel_state -> Prop :=
| tr_start s t : s = CS_NEW \/ s = CS_RESET -> t <> s -> t <> CS_NONE -> transition s t
| tr_live s t : s <> CS_NEW -> s <> CS_RESET -> cs s < cs CS_HANGUP ->
    t <> s -> t <> CS_NEW -> t <> CS_INIT -> cs t < cs CS_HANGUP -> transition s t
| tr_wake : transition CS_HIBERNATE CS_INIT
| tr_end s t : cs CS_HANGUP <= cs s < cs t -> t <> CS_NONE -> transition s t.

Lemma state_change_ok_transition s t :
  s <> t -> s <> CS_NONE -> t <> CS_NONE -> ~ (cs CS_HANGUP <= cs s /\ cs t < cs s) ->
  state_change_ok s t = true <-> transition s t.
Proof.
  intros N S T B. split.
  - intros E. destruct s, t; try discriminate E; try done;
      (apply tr_start; [by auto|done|done]) || (apply tr_live; done) || (apply tr_end; done)
      || apply tr_wake.
  - intros [s1 t1 [-> | ->] ? ?|s1 t1 ? ? ? ? ? ? ?| |s1 t1 [? ?] ?]; try done;
      destruct s1, t1; done.
Qed.

Lemma careful_set_val e v : fst (careful_set e v) = v.
Proof. unfold careful_set. by destruct (thread_trylock e). Qed.

(** [still ch ch']: nothing that hangup decides has changed. *)
Record still (ch ch' : switch_channel) : Prop := mk_still {
  sl_state : state ch' = state ch;
  sl_cause : hangup_cause ch' = hangup_cause ch;
  sl_opaque : opaque_flags ch' = opaque_flags ch;
  sl_hangups : hangups (out ch') = hangups (out ch)
}.

#[export] Instance still_preorder : PreOrder still.
Proof. split; [by constructor|]. intros x y z [] []. constructor; congruence. Qed.

Lemma core_still ch ch' : core ch ch' -> still ch ch'.
Proof. intros []. by constructor. Qed.

Lemma okc_still ch m ch' : okc ch m -> m = Ok ch' -> still ch ch'.
Proof. intros H E. apply core_still. by apply H. Qed.

Lemma deliver_still ch : still ch (deliver_state_flags ch).
Proof. unfold deliver_state_flags. destruct (truth _); [|done]. destruct (deliver _ _). by constructor. Qed.

Lemma clear_tagged e ch : switch_channel_clear_flag e ch CF_TAGGED = Ok (flag_put ch CF_TAGGED 0).
Proof. reflexivity. Qed.

(** The part of [switch_channel_set_running_state] after the flags. *)
Lemma set_running_state_tail e ch st ch' :
  switch_channel_set_running_state e ch st = Ok ch' ->
  exists ch1, ch1 = flag_put (deliver_state_flags ch) CF_TAGGED 0 <| running_state := st |> /\
    core ch1 ch' /\ flags ch' = flags ch1.
Proof.
  unfold switch_channel_set_running_state. rewrite clear_tagged. cbn [mbind outcome_bind].
  rewrite careful_set_val. intros [= <-]. eexists. split; [reflexivity|].
  assert (F : forall x c, flags (switch_channel_set_callstate x c) = flags x).
  { intros x c. unfold switch_channel_set_callstate. destruct (_ || _); [done|].
    unfold callstate_write, emit. rupd. by destruct (device_node _). }
  split; [frames|]. unfold emit. repeat case_match; rupd; by rewrite ?F.
Qed.

Lemma running_state_still e ch st ch' :
  switch_channel_set_running_state e ch st = Ok ch' -> still ch ch'.
Proof.
  intros (ch1 & -> & C & _)%set_running_state_tail.
  etrans; [apply deliver_still|]. etrans; [|by apply core_still].
  by constructor.
Qed.

Lemma set_state_cases e ch st ch' r :
  switch_channel_set_state e ch st = Ok (ch', r) ->
  r = state ch' /\ opaque_flags ch' = opaque_flags ch /\ hangups (out ch') = hangups (out ch) /\
  callstate ch' = callstate ch /\
  ((state ch' = state ch /\ hangup_cause ch' = hangup_cause ch) \/
   (state ch' = st /\ state_change_ok (state ch) st = true /\
    ~ (cs CS_HANGUP <= cs (state ch) /\ cs st < cs (state ch)) /\ state ch <> st /\
    hangup_cause ch' = if (st is CS_HANGUP) && negb (truth (hangup_cause ch))
                       then SWITCH_CAUSE_NORMAL_CLEARING else hangup_cause ch)).
Proof.
  unfold switch_channel_set_state. rewrite careful_set_val.
  destruct (negb (cs st <=? _)) eqn:?; [done|]. destruct (negb (cs (state ch) <=? _)); [done|].
  destruct (decide (state ch = st)) as [Eq|Ne].
  { rewrite bool_decide_eq_true_2 by done. intros [= <- <-]. auto 10. }
  rewrite bool_decide_eq_false_2 by done.
  destruct ((cs CS_HANGUP <=? cs (state ch)) && (cs st <? cs (state ch))) eqn:B; [intros [= <- <-]; auto 10|].
  destruct (state_change_ok (state ch) st) eqn:K.
  - assert (~ (cs CS_HANGUP <= cs (state ch) /\ cs st < cs (state ch))).
    { intros [?%Z.leb_le ?%Z.ltb_lt]. by rewrite H, H0 in B. }
    btests. rewrite (proj2 (Z.leb_le _ _)) by done. intros [= <- <-]. rupd.
    destruct ((st is CS_HANGUP) && _); rupd; auto 10.
  - intros E. case_match; [done|]. injection E as <- <-. auto 10.
Qed.

Lemma hangup_end_hold_core e ch : core ch (hangup_end_hold e ch).
Proof. frame hangup_end_hold. Qed.

Lemma hangup_report_core e ch c : core ch (hangup_report e ch c).
Proof. frame hangup_report. Qed.

(** ** Threads on one channel

    Operations of any threads interleave.  Those that [state_mutex] covers are
    steps; of the others the steps are the parts between which no lock is held:
    [st_callstate] writes a call state with one that was read earlier, and
    [st_between] is any point within an operation on flags, call state or
    holding.  [winners] holds the hangup calls that got [true] from
    [hangup_begin] and have not fired their event, with the point each one has
    reached: it has still to test the state, has found it below [CS_HANGUP], has
    set it, has stored its cause. *)

Inductive stage := Won | Decided | Entered | Marked.

Record sys := mk_sys { chan : switch_channel; winners : list (Z * stage) }.

Inductive step : sys -> sys -> Prop :=
| st_set_state e st ch ch' r w :
    switch_channel_set_state e ch st = Ok (ch', r) -> step (mk_sys ch w) (mk_sys ch' w)
| st_running e st ch ch' w :
    switch_channel_set_running_state e ch st = Ok ch' -> step (mk_sys ch w) (mk_sys ch' w)
| st_set_flag e f v ch ch' w :
    switch_channel_set_flag_value e ch f v = Ok ch' -> step (mk_sys ch w) (mk_sys ch' w)
| st_clear_flag e f ch ch' w :
    switch_channel_clear_flag e ch f = Ok ch' -> step (mk_sys ch w) (mk_sys ch' w)
| st_set_rec f ch w : step (mk_sys ch w) (mk_sys (switch_channel_set_flag_recursive ch f) w)
| st_clear_rec f ch w : step (mk_sys ch w) (mk_sys (switch_channel_clear_flag_recursive ch f) w)
| st_callstate o c ch w :
    o <> c -> o <> CCS_HANGUP -> step (mk_sys ch w) (mk_sys (callstate_write ch o c) w)
| st_hold e b ch ch' w :
    switch_channel_mark_hold e ch b = Ok ch' -> step (mk_sys ch w) (mk_sys ch' w)
| st_between ch ch' w : core ch ch' -> step (mk_sys ch w) (mk_sys ch' w)
| st_state_flag f ch w : step (mk_sys ch w) (mk_sys (switch_channel_set_state_flag ch f) w)
| st_clear_state_flag f ch w : step (mk_sys ch w) (mk_sys (switch_channel_clear_state_flag ch f) w)
| st_direction b d ch w : step (mk_sys ch w) (mk_sys (switch_channel_set_direction b ch d) w)
| st_cap c v ch w : step (mk_sys ch w) (mk_sys (switch_channel_set_cap_value ch c v) w)
| st_private_flag f ch w : step (mk_sys ch w) (mk_sys (switch_channel_set_private_flag ch f) w)
| st_clear_private_flag f ch w : step (mk_sys ch w) (mk_sys (switch_channel_clear_private_flag ch f) w)
| st_app_flag k f ch w : step (mk_sys ch w) (mk_sys (switch_channel_set_app_flag_key k ch f) w)
| st_clear_app_flag k f ch w : step (mk_sys ch w) (mk_sys (switch_channel_clear_app_flag_key k ch f) w)
| st_add_handler h ch w : step (mk_sys ch w) (mk_sys (fst (switch_channel_add_state_handler ch h)) w)
| st_clear_handler tf h ch ch' w :
    switch_channel_clear_state_handler tf ch h = Ok ch' -> step (mk_sys ch w) (mk_sys ch' w)
| st_hangup_begin c ch w1 w2 :
    step (mk_sys ch (w1 ++ w2))
      (mk_sys (fst (hangup_begin ch)) (if snd (hangup_begin ch) then w1 ++ (c, Won) :: w2 else w1 ++ w2))
| st_hangup_unhold e ch ch' w :
    hangup_unhold e ch = Ok ch' -> step (mk_sys ch w) (mk_sys ch' w)
| st_hangup_decide c ch w1 w2 : hangup_live ch = true ->
    step (mk_sys ch (w1 ++ (c, Won) :: w2)) (mk_sys ch (w1 ++ (c, Decided) :: w2))
| st_hangup_late c ch w1 w2 : hangup_live ch = false ->
    step (mk_sys ch (w1 ++ (c, Won) :: w2)) (mk_sys ch (w1 ++ w2))
| st_hangup_end_hold e ch w : step (mk_sys ch w) (mk_sys (hangup_end_hold e ch) w)
| st_hangup_enter c ch w1 w2 :
    step (mk_sys ch (w1 ++ (c, Decided) :: w2)) (mk_sys (hangup_enter ch) (w1 ++ (c, Entered) :: w2))
| st_hangup_mark c ch w1 w2 :
    step (mk_sys ch (w1 ++ (c, Entered) :: w2)) (mk_sys (hangup_mark ch c) (w1 ++ (c, Marked) :: w2))
| st_hangup_report e c ch w : step (mk_sys ch w) (mk_sys (hangup_report e ch c) w)
| st_hangup_event c ch w1 w2 :
    step (mk_sys ch (w1 ++ (c, Marked) :: w2)) (mk_sys (hangup_event ch c) (w1 ++ w2)).

Lemma step_cases s s' : step s s' ->
  (still (chan s) (chan s') /\ winners s' = winners s) \/
  (exists e st r, switch_channel_set_state e (chan s) st = Ok (chan s', r) /\ winners s' = winners s) \/
  (exists c w1 w2, chan s' = fst (hangup_begin (chan s)) /\ winners s = w1 ++ w2 /\
     winners s' = if snd (hangup_begin (chan s)) then w1 ++ (c, Won) :: w2 else w1 ++ w2) \/
  (exists c g w1 w2, winners s = w1 ++ (c, g) :: w2 /\
     match g with
     | Won => chan s' = chan s /\
         winners s' = if hangup_live (chan s) then w1 ++ (c, Decided) :: w2 else w1 ++ w2
     | Decided => chan s' = hangup_enter (chan s) /\ winners s' = w1 ++ (c, Entered) :: w2
     | Entered => chan s' = hangup_mark (chan s) c /\ winners s' = w1 ++ (c, Marked) :: w2
     | Marked => chan s' = hangup_event (chan s) c /\ winners s' = w1 ++ w2
     end).
Proof.
  destruct 1; simpl; try (right; left; by eauto); try (right; right; left; by eauto 10);
    try (right; right; right; eexists c, _, w1, w2; split; [reflexivity|]; by rewrite ?H); left; (split; [|done]).
  - by eapply running_state_still.
  - eapply okc_still; [apply set_flag_value_core|done].
  - eapply okc_still; [apply clear_flag_core|done].
  - apply core_still, set_flag_recursive_core.
  - apply core_still, clear_flag_recursive_core.
  - by apply core_still, core_callstate_write.
  - eapply okc_still; [apply mark_hold_core|done].
  - by apply core_still.
  - by constructor.
  - by constructor.
  - unfold switch_channel_set_direction. by destruct b.
  - by constructor.
  - by constructor.
  - by constructor.
  - by constructor.
  - unfold switch_channel_clear_app_flag_key. repeat case_match; by constructor.
  - unfold switch_channel_add_state_handler. repeat case_match; by constructor.
  - match goal with E : switch_channel_clear_state_handler _ _ _ = _ |- _ =>
      apply outcome_bind_ok in E as (new & _ & [= <-]) end. by constructor.
  - eapply okc_still; [apply hangup_unhold_core|done].
  - apply core_still, hangup_end_hold_core.
  - apply core_still, hangup_report_core.
Qed.

(** No hangup call is at point [g]. *)
Definition none (g : stage) (w : list (Z * stage)) : Prop := forall c, (c, g) ∉ w.

(** What the requests for a state leave in place after a hangup. *)
Lemma set_state_settled e ch st ch' r : switch_channel_set_state e ch st = Ok (ch', r) ->
  cs CS_HANGUP <= cs (state ch) ->
  cs (state ch) <= cs (state ch') /\ hangup_cause ch' = hangup_cause ch.
Proof.
  intros (_ & _ & _ & _ & [[-> ->]|(-> & K & B & N & ->)])%set_state_cases L; [split; [lia|done]|].
  split; [lia|]. rewrite bool_decide_eq_false_2; [done|]. intros ->. destruct (state ch); done.
Qed.

(** The state stays at [CS_HANGUP] or behind it; it does not go back unless a
    hangup call is about to write it; and the cause stays unless one is about to
    store its own. *)
Lemma step_settled s s' : step s s' -> cs CS_HANGUP <= cs (state (chan s)) ->
  cs CS_HANGUP <= cs (state (chan s')) /\
  (none Decided (winners s) -> cs (state (chan s)) <= cs (state (chan s')) /\ none Decided (winners s')) /\
  (none Decided (winners s) -> none Entered (winners s) ->
     hangup_cause (chan s') = hangup_cause (chan s) /\ none Entered (winners s')).
Proof.
  unfold none. intros [[[] ->]|[(e & st & r & E & ->)|[(c & w1 & w2 & -> & Ew & ->)|(c & g & w1 & w2 & Ew & E)]]]%step_cases L.
  - rewrite sl_state0, sl_cause0. split_and!; [lia|by intros|done].
  - destruct (set_state_settled _ _ _ _ _ E L). split_and!; [lia|by intros|done].
  - rewrite Ew. unfold hangup_begin. destruct (negb _); simpl; split_and!; set_solver by lia.
  - rewrite Ew. destruct g, E as [-> ->].
    + unfold hangup_live. rewrite (proj2 (Z.ltb_ge _ _)) by lia. split_and!; set_solver by lia.
    + split_and!; [done|set_solver..].
    + unfold hangup_mark. rupd. split_and!; set_solver by lia.
    + unfold hangup_event, emit. rupd. split_and!; set_solver by lia.
Qed.

Definition winner_inv (s : sys) : Prop :=
  (length (winners s) + length (hangups (out (chan s)))
     <= if test_flag (opaque_flags (chan s)) OCF_HANGUP then 1 else 0)%nat /\
  (forall c g, (c, g) ∈ winners s ->
     match g with
     | Won | Decided => True
     | Entered => cs CS_HANGUP <= cs (state (chan s))
     | Marked => cs CS_HANGUP <= cs (state (chan s)) /\ hangup_cause (chan s) = c
     end) /\
  (forall c, c ∈ hangups (out (chan s)) ->
     cs CS_HANGUP <= cs (state (chan s)) /\ hangup_cause (chan s) = c).

Lemma test_set_flag x : test_flag (set_flag x OCF_HANGUP) OCF_HANGUP = true.
Proof.
  unfold test_flag, set_flag. rewrite Z.land_lor_distr_l.
  destruct (Z.eqb_spec (Z.lor (Z.land x OCF_HANGUP) (Z.land OCF_HANGUP OCF_HANGUP)) 0) as [E|]; [|done].
  apply Z.lor_eq_0_iff in E as [_ E]. done.
Qed.

(** A list of winners and hangups with one winner. *)
Lemma one_winner (w1 w2 : list (Z * stage)) x (h : list Z) (b : bool) :
  (length (w1 ++ x :: w2) + length h <= if b then 1 else 0)%nat -> w1 = [] /\ w2 = [] /\ h = [] /\ b = true.
Proof.
  rewrite length_app. simpl. destruct b; [|lia]. intros H.
  destruct w1; [|simpl in H; lia]. destruct w2; [|simpl in H; lia]. by destruct h; [|simpl in H; lia].
Qed.

Lemma step_winner s s' : winner_inv s -> step s s' -> winner_inv s'.
Proof.
  intros (W & P & C) S. pose proof (fun L => proj1 (step_settled _ _ S L)) as D. unfold winner_inv.
  destruct (step_cases _ _ S) as [[[] ->]|[(e & st & r & E & ->)|[(c & w1 & w2 & Ec & Ew & ->)|(c & g & w1 & w2 & Ew & E)]]].
  - rewrite sl_hangups0, sl_opaque0, sl_cause0, sl_state0. by split_and!.
  - pose proof (set_state_settled _ _ _ _ _ E) as F. apply set_state_cases in E as (_ & O & Hs & _).
    rewrite Hs, O. split; [done|]. split.
    + intros c g Hc. specialize (P c g Hc). destruct g; [done..|by apply D|].
      destruct P as [L <-]. split; [by apply D|by apply F].
    + intros c Hc. destruct (C c Hc) as [L <-]. split; [by apply D|by apply F].
  - rewrite Ec. unfold hangup_begin in *.
    destruct (test_flag (opaque_flags (chan s)) OCF_HANGUP) eqn:T; simpl; [by rewrite T, <- Ew|].
    rupd. rewrite test_set_flag. rewrite Ew in W. destruct (w1 ++ w2) eqn:Z; [|simpl in W; lia].
    apply app_eq_nil in Z as [-> ->]. simpl in W |- *. split; [lia|]. split; [|done].
    by intros d g [[= -> ->]|?%elem_of_nil]%elem_of_cons.
  - rewrite Ew in W. apply one_winner in W as (-> & -> & Hh & T). rewrite Hh in C. specialize (P c g).
    rewrite Ew in P. specialize (P ltac:(set_solver)). destruct g, E as [-> ->]; cbn [app] in *.
    + rewrite T, Hh. destruct (hangup_live _); simpl; (split; [lia|]); (split; [|set_solver]); [|set_solver].
      by intros d g [[= -> ->]|?%elem_of_nil]%elem_of_cons.
    + unfold hangup_enter. rupd. rewrite T, Hh. simpl. split; [lia|]. split; [|set_solver].
      by intros d g [[= -> ->]|?%elem_of_nil]%elem_of_cons.
    + unfold hangup_mark. rupd. rewrite T, Hh. simpl. split; [lia|]. split; [|set_solver].
      by intros d g [[= -> ->]|?%elem_of_nil]%elem_of_cons.
    + unfold hangup_event, emit. rupd. rewrite T. cbn [hangups omap list_omap]. fold (hangups (out (chan s))).
      rewrite Hh. simpl. split; [lia|]. split; [set_solver|].
      by intros d [->|?%elem_of_nil]%elem_of_cons.
Qed.

(** C2. One hangup per channel: however the operations of any number of threads
    interleave from a new channel on, hangup calls between any two of their
    unlocked reads and writes included, at most one hangup is carried out; its
    cause is the hangup cause of the channel, and the channel is in [CS_HANGUP]
    or later. *)
Theorem hangup_once dir ch s st :
  switch_channel_alloc true dir = (Some ch, st) -> rtc step (mk_sys ch []) s ->
  (length (hangups (out (chan s))) <= 1)%nat /\
  (forall c, c ∈ hangups (out (chan s)) ->
     hangup_cause (chan s) = c /\ cs CS_HANGUP <= cs (state (chan s))).
Proof.
  intros [= <- _] R.
  assert (winner_inv s) as (W & _ & C).
  { eapply (rtc_ind_r (fun s => winner_inv s)); [|intros ? ? _ S I; by eapply step_winner|exact R].
    unfold winner_inv, emit. rupd. simpl. split; [lia|set_solver]. }
  split; [destruct (test_flag _ _); lia|]. intros c Hc. destruct (C c Hc). by split.
Qed.

(** C34. A channel that has reached [CS_HANGUP] never comes back to life: under
    any interleaving its state stays at [CS_HANGUP] or behind it.  The state
    number does not decrease either unless a hangup call is between its test of
    the state and its write of [CS_HANGUP], and the hangup cause does not change
    unless one is between its test and the storing of its cause. *)
Theorem hangup_final s s' : rtc step s s' -> cs CS_HANGUP <= cs (state (chan s)) ->
  cs CS_HANGUP <= cs (state (chan s')) /\
  (none Decided (winners s) -> cs (state (chan s)) <= cs (state (chan s'))) /\
  (none Decided (winners s) -> none Entered (winners s) -> hangup_cause (chan s') = hangup_cause (chan s)).
Proof.
  intros R L. enough (G : cs CS_HANGUP <= cs (state (chan s')) /\
    (none Decided (winners s) -> cs (state (chan s)) <= cs (state (chan s')) /\ none Decided (winners s')) /\
    (none Decided (winners s) -> none Entered (winners s) ->
       hangup_cause (chan s') = hangup_cause (chan s) /\ none Entered (winners s'))) by naive_solver.
  revert L. induction R as [s|x y z S _ IH]; intros L; [by split_and!|].
  destruct (step_settled _ _ S L) as (L1 & D1 & C1). destruct (IH L1) as (L2 & D2 & C2).
  split; [done|]. split.
  - intros N. destruct (D1 N) as [? N1]. destruct (D2 N1). split; [lia|done].
  - intros N M. destruct (D1 N) as [_ N1], (C1 N M) as [<- M1]. by apply C2.
Qed.

(** C33. A state change, whatever locks it gets, does exactly one of three
    things: an allowed transition is made (with NORMAL_CLEARING as the cause of
    a hangup that has none) and signalled to the session; a request for the
    present state, or back from a state after hangup, is ignored; any other
    request of a live channel aborts. *)
Theorem set_state_exact e ch st :
  state ch <> CS_NONE -> st <> CS_NONE ->
  (transition (state ch) st ->
     exists ch', switch_channel_set_state e ch st = Ok (ch', st) /\ state ch' = st /\
       out ch' = SignalStateChange :: out ch /\
       hangup_cause ch' = if (st is CS_HANGUP) && (hangup_cause ch =? 0)
                          then SWITCH_CAUSE_NORMAL_CLEARING else hangup_cause ch) /\
  (state ch = st \/ cs CS_HANGUP <= cs (state ch) /\ cs st < cs (state ch) ->
     switch_channel_set_state e ch st = Ok (ch, state ch)) /\
  (~ transition (state ch) st -> state ch <> st -> cs (state ch) < cs CS_HANGUP ->
     switch_channel_set_state e ch st = Assert) /\
  (cs CS_HANGUP <= cs (state ch) ->
     transition (state ch) st \/ state ch = st \/ cs st < cs (state ch)).
Proof.
  intros N1 N2. unfold switch_channel_set_state. rewrite careful_set_val.
  assert (D : forall s, s <> CS_NONE -> cs s <=? cs CS_DESTROY = true) by (by intros []).
  rewrite !D by done. cbn [negb]. split_and!.
  - intros T.
    assert (state ch <> st /\ ~ (cs CS_HANGUP <= cs (state ch) /\ cs st < cs (state ch))) as [N B]
      by (destruct T as [? ? [-> | ->]| | |]; split; first [congruence|lia|cbn [cs]; lia|intros ->; lia]).
    rewrite bool_decide_eq_false_2 by done.
    destruct (_ && (cs st <? _)) eqn:X; btests; [lia|].
    rewrite (proj2 (state_change_ok_transition _ _ N N1 N2 B)) by done.
    unfold emit, truth. rupd.
    destruct (st is CS_HANGUP), (hangup_cause ch =? 0); cbn [negb andb];
      (eexists; split; [reflexivity|split_and!; reflexivity]).
  - intros [->|[L1 L2]]; [by rewrite bool_decide_eq_true_2|].
    rewrite bool_decide_eq_false_2 by (intros <-; lia).
    rewrite (proj2 (Z.leb_le _ _)), (proj2 (Z.ltb_lt _ _)) by done. done.
  - intros T N L. rewrite bool_decide_eq_false_2 by done.
    rewrite (proj2 (Z.leb_gt (cs CS_HANGUP) _)) by done. cbn [andb].
    destruct (state_change_ok (state ch) st) eqn:K; [|done].
    apply state_change_ok_transition in K; try done. lia.
  - intros L. destruct (Z.lt_trichotomy (cs st) (cs (state ch))) as [|[E|]]; [auto|..].
    + right. left. symmetry. by apply cs_inj.
    + left. by apply tr_end.
Qed.

(** ** Flags that wait for the next state *)

Definition flags_wf (ch : switch_channel) : Prop :=
  length (flags ch) = CF_FLAG_MAX /\ length (state_flags ch) = CF_FLAG_MAX.

Lemma flag_get_put ch f g v :
  flags_wf ch -> flag_get (flag_put ch f v) g = if decide (f = g) then v else flag_get ch g.
Proof.
  intros [L _]. unfold flag_get, flag_put. rupd. pose proof (cf_bound f). case_decide as E.
  - subst. rewrite list_lookup_insert_eq by lia. done.
  - rewrite list_lookup_insert_ne; [done|]. intros F. by apply E, cf_inj.
Qed.

Lemma flags_wf_put ch f v : flags_wf ch -> flags_wf (flag_put ch f v).
Proof. intros [? ?]. unfold flags_wf, flag_put. rupd. by rewrite length_insert. Qed.

Definition pending (ch : switch_channel) (f : switch_channel_flag) : bool :=
  truth (default 0 (state_flags ch !! cf f)).

(** Entry 0 marks the array: no flag is pending behind a cleared mark. *)
Definition marked (ch : switch_channel) : Prop :=
  forall f, pending ch f = true -> truth (default 0 (state_flags ch !! 0%nat)) = true.

Lemma deliver_lookup fs sfs i :
  length fs = length sfs -> (i < length fs)%nat ->
  fst (deliver fs sfs) !! i = (if truth (default 0 (sfs !! i)) then Some 1 else fs !! i) /\
  snd (deliver fs sfs) !! i = Some (0).
Proof.
  revert sfs i. induction fs as [|f fs IH]; intros [|s sfs] i L Hi; simpl in *; try lia.
  destruct (deliver fs sfs) as [fs' sfs'] eqn:E.
  destruct i as [|i].
  - destruct (truth s) eqn:T; simpl; rewrite T; [done|]. unfold truth in T. btests. by subst.
  - specialize (IH sfs i). rewrite E in IH. destruct (truth s); apply IH; simpl in *; lia.
Qed.

Lemma deliver_length fs sfs :
  length fs = length sfs ->
  length (fst (deliver fs sfs)) = length fs /\ length (snd (deliver fs sfs)) = length fs.
Proof.
  revert sfs. induction fs as [|f fs IH]; intros [|s sfs] L; simpl in *; try lia.
  specialize (IH sfs). destruct (deliver fs sfs). destruct (truth s); simpl in *; lia.
Qed.

Lemma deliver_state_flags_spec ch :
  flags_wf ch -> marked ch ->
  flags_wf (deliver_state_flags ch) /\
  forall f, flag_get (deliver_state_flags ch) f = (if pending ch f then 1 else flag_get ch f) /\
    pending (deliver_state_flags ch) f = false.
Proof.
  intros [L1 L2] M. unfold deliver_state_flags.
  destruct (truth (default 0 (state_flags ch !! 0%nat))) eqn:T.
  2:{ split; [done|]. intros f. destruct (pending ch f) eqn:P; [|done]. by rewrite (M f P) in T. }
  assert (LD : length (drop 1 (flags ch)) = length (drop 1 (state_flags ch)))
    by (rewrite !length_drop; lia).
  pose proof (deliver_length _ _ LD) as [D1 D2].
  pose proof (fun i => deliver_lookup _ _ i LD) as D.
  destruct (deliver _ _) as [fs sfs] eqn:E. simpl in D1, D2. rewrite length_drop in D1, D2.
  split.
  { unfold flags_wf, CF_FLAG_MAX in *. rupd. rewrite length_app, length_take. cbn [List.length]. lia. }
  intros f. pose proof (cf_pos f). pose proof (cf_bound f). unfold CF_FLAG_MAX in *.
  destruct (D (pred (cf f))) as [F1 F2]; [rewrite length_drop; lia|].
  simpl in F1, F2. rewrite !lookup_drop in F1. replace (1 + pred (cf f))%nat with (cf f) in F1 by lia.
  unfold pending, flag_get. rupd. split.
  - rewrite lookup_app_r, length_take by (rewrite length_take; lia).
    replace (cf f - _)%nat with (pred (cf f)) by lia. rewrite F1.
    by destruct (truth (default 0 (state_flags ch !! cf f))).
  - destruct (cf f) as [|n]; [lia|]. simpl in *. by rewrite F2.
Qed.

(** A request for the next state: set or withdraw a flag. *)
Definition ask (ch : switch_channel) (r : bool * switch_channel_flag) : switch_channel :=
  if fst r then switch_channel_set_state_flag ch (snd r)
  else switch_channel_clear_state_flag ch (snd r).

Lemma ask_spec ch b f :
  flags_wf ch -> marked ch ->
  flags_wf (ask ch (b, f)) /\ marked (ask ch (b, f)) /\
  (forall g, pending (ask ch (b, f)) g = if decide (f = g) then b else pending ch g) /\
  (forall g, flag_get (ask ch (b, f)) g = flag_get ch g).
Proof.
  intros [L1 L2] M. unfold ask, switch_channel_set_state_flag, switch_channel_clear_state_flag.
  pose proof (cf_pos f). pose proof (cf_bound f). cbn [fst snd].
  assert (P : forall v l g, length l = CF_FLAG_MAX ->
    default 0 ((<[cf f := v]> l : list Z) !! cf g) = if decide (f = g) then v else default 0 (l !! cf g)).
  { intros v l g L. case_decide as E; [subst; by rewrite list_lookup_insert_eq by lia|].
    rewrite list_lookup_insert_ne; [done|]. intros F. by apply E, cf_inj. }
  destruct b.
  - split_and!; try done.
    + unfold flags_wf. rupd. by rewrite !length_insert.
    + intros g _. rupd. rewrite list_lookup_insert_ne by lia.
      by rewrite list_lookup_insert_eq by (unfold CF_FLAG_MAX in *; lia).
    + intros g. unfold pending. rupd. rewrite P by (by rewrite length_insert).
      pose proof (cf_pos g). case_decide; [done|]. by rewrite list_lookup_insert_ne by lia.
  - assert (Q : forall g, pending (ch <| state_flags := <[cf f:=0]> (state_flags ch) |>) g
                = if decide (f = g) then false else pending ch g).
    { intros g. unfold pending. rupd. rewrite P by done. by case_decide. }
    split_and!; try done.
    + unfold flags_wf. rupd. by rewrite !length_insert.
    + intros g. rewrite Q. case_decide; [done|]. intros G. rupd.
      rewrite list_lookup_insert_ne by lia. by apply (M g).
Qed.

(** The last request about a flag. *)
Fixpoint wanted (rs : list (bool * switch_channel_flag)) (f : switch_channel_flag) (d : bool) : bool :=
  match rs with
  | [] => d
  | (b, g) :: rs => wanted rs f (if decide (g = f) then b else d)
  end.

Lemma asks_spec rs ch :
  flags_wf ch -> marked ch ->
  flags_wf (foldl ask ch rs) /\ marked (foldl ask ch rs) /\
  (forall g, pending (foldl ask ch rs) g = wanted rs g (pending ch g)) /\
  (forall g, flag_get (foldl ask ch rs) g = flag_get ch g).
Proof.
  revert ch. induction rs as [|[b f] rs IH]; intros ch W M; [done|]. cbn [foldl].
  destruct (ask_spec ch b f W M) as (W1 & M1 & P1 & F1).
  destruct (IH _ W1 M1) as (W2 & M2 & P2 & F2). split_and!; try done.
  - intros g. rewrite P2, P1. simpl. by case_decide.
  - intros g. by rewrite F2, F1.
Qed.

(** Flags asked for the next state: after any sequence of set and clear
    requests, entering a running state raises exactly the flags whose last
    request was to set them (and those already pending), changes no other flag
    except [CF_TAGGED], which it clears, and leaves nothing pending. *)
Theorem state_flags_delivered e ch rs st ch' :
  flags_wf ch -> marked ch ->
  switch_channel_set_running_state e (foldl ask ch rs) st = Ok ch' ->
  running_state ch' = st /\ flags_wf ch' /\
  forall f, pending ch' f = false /\
    flag_get ch' f = if decide (f = CF_TAGGED) then 0
                     else if wanted rs f (pending ch f) then 1 else flag_get ch f.
Proof.
  intros W M (ch1 & -> & C & F)%set_running_state_tail.
  destruct (asks_spec rs ch W M) as (W1 & M1 & P1 & F1).
  destruct (deliver_state_flags_spec _ W1 M1) as [W2 D]. destruct C. rupd.
  assert (forall f, flag_get ch' f = flag_get (flag_put (deliver_state_flags (foldl ask ch rs)) CF_TAGGED 0) f) as G
    by (intros f; unfold flag_get at 1; rewrite F; reflexivity).
  split_and!; try done.
  - unfold flags_wf. rewrite F, co_state_flags0. rupd. exact (flags_wf_put _ CF_TAGGED 0 W2).
  - intros f. rewrite G, flag_get_put by done. destruct (D f) as [D1 D2]. split.
    + unfold pending. rewrite co_state_flags0. exact D2.
    + rewrite D1, P1, F1. repeat case_decide; congruence.
Qed.

Lemma set_rec_spec c f : flags_wf c ->
  flags_wf (switch_channel_set_flag_recursive c f) /\
  forall g, flag_get (switch_channel_set_flag_recursive c f) g
    = if decide (f = g) then u32 (flag_get c f + 1) else flag_get c g.
Proof.
  intros Wc. split.
  - unfold switch_channel_set_flag_recursive. repeat case_match; by apply (flags_wf_put c f _ Wc).
  - intros g. rewrite <- (flag_get_put c f g) by done.
    unfold switch_channel_set_flag_recursive. repeat case_match; reflexivity.
Qed.

Lemma clear_rec_spec c f : flags_wf c ->
  flags_wf (switch_channel_clear_flag_recursive c f) /\
  forall g, flag_get (switch_channel_clear_flag_recursive c f) g
    = if decide (f = g) then (if flag_get c f =? 0 then 0 else u32 (flag_get c f - 1)) else flag_get c g.
Proof.
  intros Wc. unfold switch_channel_clear_flag_recursive, truth.
  destruct (Z.eqb_spec (flag_get c f) 0) as [E|E]; cbn [negb]; split.
  - repeat case_match; done.
  - intros g. repeat case_match; simplify_eq; done.
  - repeat case_match; by apply (flags_wf_put c f _ Wc).
  - intros g. rewrite <- (flag_get_put c f g) by done. repeat case_match; reflexivity.
Qed.

Definition raise_n (n : nat) (f : switch_channel_flag) (ch : switch_channel) : switch_channel :=
  Nat.iter n (fun c => switch_channel_set_flag_recursive c f) ch.
Definition lower_n (n : nat) (f : switch_channel_flag) (ch : switch_channel) : switch_channel :=
  Nat.iter n (fun c => switch_channel_clear_flag_recursive c f) ch.

Lemma raise_n_spec ch f n :
  flags_wf ch -> 0 <= flag_get ch f -> flag_get ch f + Z.of_nat n < 2 ^ 32 ->
  flags_wf (raise_n n f ch) /\
  forall g, flag_get (raise_n n f ch) g = flag_get ch g + if decide (f = g) then Z.of_nat n else 0.
Proof.
  intros W P. induction n as [|n IH]; intros B; [split; [done|intros g; simpl; case_decide; lia]|].
  destruct IH as [Wk Gk]; [lia|]. destruct (set_rec_spec _ f Wk) as [W1 G1]. split; [done|].
  intros g. change (raise_n (S n) f ch) with (switch_channel_set_flag_recursive (raise_n n f ch) f).
  rewrite G1, !Gk, (decide_True (P := f = f)) by done.
  case_decide as E; [|done]. subst. rewrite u32_small; lia.
Qed.

Lemma lower_n_spec ch f n :
  flags_wf ch -> Z.of_nat n <= flag_get ch f < 2 ^ 32 ->
  flags_wf (lower_n n f ch) /\
  forall g, flag_get (lower_n n f ch) g = flag_get ch g - if decide (f = g) then Z.of_nat n else 0.
Proof.
  intros W. induction n as [|n IH]; intros B; [split; [done|intros g; simpl; case_decide; lia]|].
  destruct IH as [Wk Gk]; [lia|]. destruct (clear_rec_spec _ f Wk) as [W1 G1]. split; [done|].
  intros g. change (lower_n (S n) f ch) with (switch_channel_clear_flag_recursive (lower_n n f ch) f).
  rewrite G1, !Gk, (decide_True (P := f = f)) by done.
  case_decide as E; [|done]. subst.
  destruct (Z.eqb_spec (flag_get ch g - Z.of_nat n) 0); [lia|]. rewrite u32_small; lia.
Qed.

(** Recursive flags nest: as many clears as sets give every flag back its
    value and a flag that is down stays down; the count is a 32-bit word, so
    one set too many brings a raised flag down. *)
Theorem recursive_flags ch f n :
  flags_wf ch -> 0 <= flag_get ch f -> flag_get ch f + Z.of_nat n < 2 ^ 32 ->
  flag_get (raise_n n f ch) f = flag_get ch f + Z.of_nat n /\
  (forall g, flag_get (lower_n n f (raise_n n f ch)) g = flag_get ch g) /\
  (flag_get ch f = 0 -> flag_get (switch_channel_clear_flag_recursive ch f) f = 0) /\
  (flag_get ch f = UINT_MAX -> flag_get (switch_channel_set_flag_recursive ch f) f = 0).
Proof.
  intros W P B. destruct (raise_n_spec ch f n W P B) as [W1 G1].
  assert (flag_get (raise_n n f ch) f = flag_get ch f + Z.of_nat n) as E
    by (by rewrite G1, decide_True).
  split_and!; try done.
  - intros g. destruct (lower_n_spec _ f n W1) as [_ G2]; [lia|]. rewrite G2, G1. case_decide; lia.
  - intros Z. destruct (clear_rec_spec ch f W) as [_ G]. by rewrite G, decide_True, Z by done.
  - intros Z. destruct (set_rec_spec ch f W) as [_ G]. by rewrite G, decide_True, Z by done.
Qed.

(** ** Holding *)

Lemma set_callstate_frame ch c :
  caller_profile (switch_channel_set_callstate ch c) = caller_profile ch /\
  hold_record (switch_channel_set_callstate ch c) = hold_record ch /\
  flags (switch_channel_set_callstate ch c) = flags ch.
Proof.
  unfold switch_channel_set_callstate. destruct (_ || _); [done|]. unfold callstate_write.
  by destruct (device_node _).
Qed.

Lemma set_callstate_get ch c :
  callstate ch <> CCS_HANGUP -> callstate (switch_channel_set_callstate ch c) = c.
Proof.
  intros H. unfold switch_channel_set_callstate. rewrite (bool_decide_eq_false_2 (_ = CCS_HANGUP)) by done.
  case_bool_decide; [done|]. cbn [orb]. unfold callstate_write. by destruct (device_node _).
Qed.

(** The two operations at the flag of holding. *)
Lemma set_holding_eq e ch :
  switch_channel_set_flag e ch CF_LEG_HOLDING =
    let ch1 := if negb (flag_get ch CF_LEG_HOLDING =? 1) then flag_put ch CF_LEG_HOLDING 1 else ch in
    if negb (truth (flag_get ch CF_LEG_HOLDING)) && truth (flag_get ch CF_ANSWERED)
    then hold_start e ch1 else Ok ch1.
Proof.
  cbv zeta. set (m := if _ && _ then _ else _). transitivity (m ≫= Ok); [reflexivity|].
  by destruct m.
Qed.

Lemma clear_holding_eq e ch :
  switch_channel_clear_flag e ch CF_LEG_HOLDING =
    let ch1 := flag_put ch CF_LEG_HOLDING 0 in
    if truth (flag_get ch CF_LEG_HOLDING) && truth (flag_get ch CF_ANSWERED)
    then hold_stop e ch1 else Ok ch1.
Proof.
  cbv zeta. set (m := if _ && _ then _ else _). transitivity (m ≫= Ok); [reflexivity|].
  by destruct m.
Qed.

Lemma truth_neq x : x <> 0 -> truth x = true.
Proof. intros H. unfold truth. by rewrite (proj2 (Z.eqb_neq _ _) H). Qed.

Lemma hold_on_spec e ch :
  flag_get ch CF_LEG_HOLDING = 0 -> flag_get ch CF_ANSWERED <> 0 -> callstate ch <> CCS_HANGUP ->
  match caller_profile ch with
  | Some t => exists ch1, switch_channel_set_flag e ch CF_LEG_HOLDING = Ok ch1 /\
      callstate ch1 = CCS_HELD /\ flags ch1 = flags (flag_put ch CF_LEG_HOLDING 1) /\
      hold_record ch1 = mk_hold (clock e 1) 0 (partner_uuid e) :: hold_record ch /\
      caller_profile ch1 = Some (mk_times (clock e 0) (hold_accum t)) /\
      state_flags ch1 = state_flags ch
  | None => switch_channel_set_flag e ch CF_LEG_HOLDING = UB
  end.
Proof.
  intros H A N. rewrite set_holding_eq, H, (truth_neq _ A). cbn [Z.eqb negb andb truth].
  set (c1 := flag_put ch CF_LEG_HOLDING 1). unfold hold_start.
  destruct (set_callstate_frame c1 CCS_HELD) as (F1 & F2 & F3). rewrite F1.
  change (caller_profile c1) with (caller_profile ch).
  destruct (caller_profile ch) as [t|]; [|reflexivity].
  eexists. split; [reflexivity|]. rupd. rewrite F2, F3. split_and!; try reflexivity.
  - by apply set_callstate_get.
  - apply (co_state_flags _ _ (core_callstate c1 c1 CCS_HELD (core_refl _))).
Qed.

Lemma hold_off_spec e ch t hr rest :
  flags_wf ch -> flag_get ch CF_LEG_HOLDING <> 0 -> flag_get ch CF_ANSWERED <> 0 ->
  callstate ch <> CCS_HANGUP -> caller_profile ch = Some t -> last_hold t <> 0 ->
  hold_record ch = hr :: rest ->
  exists ch2, switch_channel_clear_flag e ch CF_LEG_HOLDING = Ok ch2 /\
    callstate ch2 = (if truth (flag_get ch CF_PROXY_MODE) && truth (flag_get ch CF_BRIDGED)
                     then CCS_ACTIVE else CCS_UNHELD) /\
    flags ch2 = flags (flag_put ch CF_LEG_HOLDING 0) /\
    hold_record ch2 = mk_hold (on hr) (clock e 1) (hold_uuid hr) :: rest /\
    caller_profile ch2 = Some (mk_times (last_hold t) (hold_accum t + (clock e 0 - last_hold t))).
Proof.
  intros W H A N T L R. rewrite clear_holding_eq, !truth_neq by done. cbn [andb].
  set (c3 := flag_put ch CF_LEG_HOLDING 0). unfold hold_stop.
  destruct (set_callstate_frame c3 CCS_UNHELD) as (F4 & F5 & F6). rewrite F4.
  change (caller_profile c3) with (caller_profile ch). rewrite T, (truth_neq _ L). rupd. rewrite F5.
  change (hold_record c3) with (hold_record ch). rewrite R.
  set (c4 := _ <| hold_record := _ |>).
  assert (G : forall f, CF_LEG_HOLDING <> f -> flag_get c4 f = flag_get ch f).
  { intros f D. transitivity (flag_get c3 f); [unfold flag_get; subst c4; rupd; by rewrite F6|].
    subst c3. by rewrite flag_get_put, decide_False. }
  assert (callstate c4 = CCS_UNHELD) as U by (by apply set_callstate_get).
  unfold switch_channel_test_flag. rewrite !G by done. eexists. split; [reflexivity|].
  destruct (set_callstate_frame c4 CCS_ACTIVE) as (F7 & F8 & F9).
  destruct (truth (flag_get ch CF_PROXY_MODE) && truth (flag_get ch CF_BRIDGED));
    rewrite ?F7, ?F8, ?F9, ?set_callstate_get by (by rewrite U); split_and!;
    try done; by rewrite <- F6.
Qed.

(** A hold and its end on an answered leg: the call state goes to HELD and
    then to UNHELD (back to ACTIVE on a bridged leg in proxy mode), the hold is
    recorded with its two times and its partner in front of the earlier ones,
    and the time between is added to the hold total.  Without a caller profile
    the hold dereferences a null pointer. *)
Theorem hold_accounting e1 e2 ch :
  flags_wf ch -> flag_get ch CF_LEG_HOLDING = 0 -> flag_get ch CF_ANSWERED <> 0 ->
  callstate ch <> CCS_HANGUP -> clock e1 0 <> 0 ->
  match caller_profile ch with
  | Some t => exists ch1 ch2,
     switch_channel_set_flag e1 ch CF_LEG_HOLDING = Ok ch1 /\ callstate ch1 = CCS_HELD /\
     switch_channel_clear_flag e2 ch1 CF_LEG_HOLDING = Ok ch2 /\
     callstate ch2 = (if truth (flag_get ch CF_PROXY_MODE) && truth (flag_get ch CF_BRIDGED)
                      then CCS_ACTIVE else CCS_UNHELD) /\
     (forall f, flag_get ch2 f = flag_get ch f) /\
     hold_record ch2 = mk_hold (clock e1 1) (clock e2 1) (partner_uuid e1) :: hold_record ch /\
     caller_profile ch2 = Some (mk_times (clock e1 0) (hold_accum t + (clock e2 0 - clock e1 0)))
  | None => switch_channel_set_flag e1 ch CF_LEG_HOLDING = UB
  end.
Proof.
  intros W H A N C. pose proof (hold_on_spec e1 ch H A N) as X.
  destruct (caller_profile ch) as [t|]; [|done].
  destruct X as (ch1 & E1 & S1 & F1 & R1 & P1 & Sf).
  assert (forall f, flag_get ch1 f = if decide (CF_LEG_HOLDING = f) then 1 else flag_get ch f) as G
    by (intros f; rewrite <- flag_get_put by done; unfold flag_get; by rewrite F1).
  assert (flags_wf ch1) as W1
    by (destruct W; unfold flags_wf, flag_put in *; rewrite F1, Sf; rupd; by rewrite length_insert).
  edestruct (hold_off_spec e2 ch1) as (ch2 & E2 & S2 & F2 & R2 & P2);
    [exact W1|rewrite G; done|rewrite G; done|by rewrite S1|exact P1|exact C|exact R1|].
  exists ch1, ch2. split_and!; try done.
  - by rewrite S2, !G.
  - intros f. transitivity (flag_get (flag_put ch1 CF_LEG_HOLDING 0) f);
      [unfold flag_get; by rewrite F2|].
    rewrite flag_get_put, G by done. repeat case_decide; congruence.
Qed.

(** ** State handlers: the table as a list *)

Record handlers (ch : switch_channel) (hs : list Z) : Prop := mk_handlers {
  hl_table : state_handlers ch = hs ++ replicate (SWITCH_MAX_STATE_HANDLERS - length hs) 0;
  hl_index : state_handler_index ch = zlen hs;
  hl_room : (length hs < SWITCH_MAX_STATE_HANDLERS)%nat;
  hl_nonnull : 0 ∉ hs;
  hl_nodup : NoDup hs
}.

Lemma handler_pos_spec l h x :
  match handler_pos l h x with
  | Some p => exists i, p = x + Z.of_nat i /\ l !! i = Some h /\ forall j, (j < i)%nat -> l !! j <> Some h
  | None => h ∉ l
  end.
Proof.
  revert x. induction l as [|y l IH]; intros x; simpl; [set_solver|].
  destruct (Z.eqb_spec y h) as [->|N]; [exists O; split_and!; [lia|done|lia]|].
  specialize (IH (x + 1)). destruct (handler_pos l h (x + 1)) as [p|]; [|set_solver].
  destruct IH as (i & -> & Hi & Hj). exists (S i). split_and!; [lia|done|].
  intros [|j] Hl; simpl; [congruence|]. apply Hj. lia.
Qed.

Lemma kept_spec keep l n i :
  (Z.to_nat i + n <= length l)%nat -> 0 <= i ->
  kept keep l i n = Ok (filter (fun h => keep h = true) (take n (drop (Z.to_nat i) l))).
Proof.
  revert i. induction n as [|n IH]; intros i L P; [done|]. cbn [kept].
  destruct (lookup_lt_is_Some_2 l (Z.to_nat i)) as [h E]; [lia|].
  unfold handler_at. rewrite (proj2 (Z.leb_le _ _)) by done. rewrite E. cbn [mbind outcome_bind].
  rewrite IH by lia. cbn [mbind outcome_bind]. rewrite (drop_S _ _ _ E). cbn [take].
  rewrite Z2Nat.inj_add, Nat.add_1_r by lia. rewrite filter_cons.
  destruct (keep h); [by rewrite decide_True|by rewrite decide_False].
Qed.

Lemma take_handlers ch hs :
  handlers ch hs -> take (length hs) (state_handlers ch) = hs /\ length (state_handlers ch) = SWITCH_MAX_STATE_HANDLERS.
Proof.
  intros []. rewrite hl_table0. split; [by rewrite take_app_length|].
  rewrite length_app, length_replicate. lia.
Qed.

(** The entries that a clear keeps, and the table it leaves. *)
Lemma clear_handlers tbl ch hs h P `{!forall x, Decision (P x)} :
  handlers ch hs ->
  (forall x, x ∈ hs ->
     (if truth h then negb (x =? h) else truth x && test_flag (tbl x) SSH_FLAG_STICKY) = true <-> P x) ->
  exists ch', switch_channel_clear_state_handler tbl ch h = Ok ch' /\ handlers ch' (filter P hs).
Proof.
  intros HL HP. destruct (take_handlers ch hs HL) as [TH LH]. pose proof HL as [].
  unfold switch_channel_clear_state_handler. rewrite kept_spec by (rewrite ?LH, ?hl_index0; lia).
  rewrite hl_index0, Nat2Z.id. change (drop (Z.to_nat 0) (state_handlers ch)) with (state_handlers ch).
  rewrite TH. cbn [mbind outcome_bind].
  rewrite (filter_same_in _ P) by (intros x Hx; rewrite <- HP by done; by destruct (truth h)).
  eexists. split; [reflexivity|]. constructor; rupd; try done.
  - pose proof (length_filter P hs). lia.
  - rewrite list_elem_of_filter. naive_solver.
  - by apply NoDup_filter.
Qed.

Lemma handlers_elem ch hs h : handlers ch hs -> h <> 0 -> h ∈ state_handlers ch <-> h ∈ hs.
Proof. intros [] N. rewrite hl_table0, elem_of_app, elem_of_replicate. naive_solver. Qed.

Lemma add_known_handler ch hs h i :
  handlers ch hs -> h <> 0 -> hs !! i = Some h ->
  switch_channel_add_state_handler ch h = (ch, Z.of_nat i).
Proof.
  intros H N Hi. pose proof (handlers_elem ch hs h H N) as In. destruct H.
  unfold switch_channel_add_state_handler. pose proof (handler_pos_spec (state_handlers ch) h 0) as HP.
  destruct (handler_pos _ _ _) as [p|].
  - destruct HP as (j & -> & Hj & _). assert (j = i); [|by subst].
    eapply (NoDup_lookup hs); eauto. rewrite hl_table0 in Hj.
    apply lookup_app_Some in Hj as [?|[_ [? _]%lookup_replicate]]; done.
  - exfalso. apply HP, In. by eapply list_elem_of_lookup_2.
Qed.

Lemma add_new_handler ch hs h :
  handlers ch hs -> h <> 0 -> h ∉ hs -> (length hs < 29)%nat ->
  exists ch', switch_channel_add_state_handler ch h = (ch', zlen hs) /\ handlers ch' (hs ++ [h]).
Proof.
  intros H N NI L. pose proof (handlers_elem ch hs h H N) as In. destruct H.
  unfold switch_channel_add_state_handler. pose proof (handler_pos_spec (state_handlers ch) h 0) as HP.
  destruct (handler_pos _ _ _) as [p|].
  { exfalso. destruct HP as (j & _ & Hj & _). apply NI, In. by eapply list_elem_of_lookup_2. }
  rupd. rewrite hl_index0. rewrite (proj2 (Z.leb_gt _ _)) by (unfold SWITCH_MAX_STATE_HANDLERS; lia).
  eexists. split; [reflexivity|]. rewrite Nat2Z.id.
  constructor; rupd; rewrite ?length_app; cbn [List.length].
  - rewrite hl_table0, insert_app_r_alt, Nat.sub_diag by lia.
    replace (SWITCH_MAX_STATE_HANDLERS - length hs)%nat
      with (S (SWITCH_MAX_STATE_HANDLERS - (length hs + 1)))%nat by lia.
    cbn [replicate insert list_insert]. by rewrite <- app_assoc.
  - lia.
  - unfold SWITCH_MAX_STATE_HANDLERS. lia.
  - set_solver.
  - apply NoDup_app. split_and!; [done|set_solver|apply NoDup_singleton].
Qed.

(** State handlers behave as a list without repetitions: adding a handler
    that is there returns its position and changes nothing, a new one goes to
    the end while there are fewer than 29; lookup returns the entry; clearing a
    handler removes it and keeps the order of the others, clearing with the
    null pointer keeps the sticky ones. *)
Theorem handlers_list tbl ch hs h :
  handlers ch hs -> h <> 0 ->
  (forall i, hs !! i = Some h -> switch_channel_add_state_handler ch h = (ch, Z.of_nat i)) /\
  (h ∉ hs -> (length hs < 29)%nat ->
     exists ch', switch_channel_add_state_handler ch h = (ch', zlen hs) /\ handlers ch' (hs ++ [h])) /\
  (forall i x, hs !! i = Some x -> switch_channel_get_state_handler ch (Z.of_nat i) = Ok x) /\
  (exists ch', switch_channel_clear_state_handler tbl ch h = Ok ch' /\
     handlers ch' (filter (fun x => x <> h) hs)) /\
  (exists ch', switch_channel_clear_state_handler tbl ch 0 = Ok ch' /\
     handlers ch' (filter (fun x => test_flag (tbl x) SSH_FLAG_STICKY = true) hs)).
Proof.
  intros H N. split_and!.
  - intros i. by apply add_known_handler.
  - by apply add_new_handler.
  - intros i x Hi. destruct H. pose proof (lookup_lt_Some _ _ _ Hi).
    unfold switch_channel_get_state_handler, handler_at. rewrite hl_index0.
    rewrite (proj2 (Z.leb_gt _ _)), (proj2 (Z.ltb_ge _ _)), (proj2 (Z.leb_le _ _)) by lia. cbn [orb].
    rewrite Nat2Z.id, hl_table0, lookup_app_l by lia. by rewrite Hi.
  - apply clear_handlers; [done|]. intros x _. rewrite truth_neq by done.
    rewrite negb_true_iff, Z.eqb_neq. done.
  - apply clear_handlers; [done|]. intros x Hx. destruct H. rewrite (truth_neq x) by set_solver. done.
Qed.

Fixpoint add_all (ch : switch_channel) (hs : list Z) : switch_channel :=
  match hs with [] => ch | h :: hs => add_all (fst (switch_channel_add_state_handler ch h)) hs end.

Definition new_channel : switch_channel :=
  default (mk_channel SWITCH_CALL_DIRECTION_INBOUND SWITCH_CALL_DIRECTION_INBOUND CS_NEW CS_NEW CCS_DOWN
             [] [] [] 0 None [] 0 None 0 0 [] None [])
    (fst (switch_channel_alloc true SWITCH_CALL_DIRECTION_INBOUND)).

(** Refused handlers are counted: the index grows past the table each time
    an addition is refused, so that after 31 additions a clear reads and writes
    beyond the 30 entries.  One handler less than the table has room for is
    kept: the thirtieth is refused. *)
Theorem handlers_overflow :
  let hs := map Z.of_nat (seq 1 31) in
  snd (switch_channel_add_state_handler (add_all new_channel (take 28 hs)) 29) = 28 /\
  snd (switch_channel_add_state_handler (add_all new_channel (take 29 hs)) 30) = -1 /\
  state_handler_index (add_all new_channel hs) = 31 /\
  switch_channel_clear_state_handler (fun _ => 0) (add_all new_channel hs) 1 = UB.
Proof. vm_compute. auto. Qed.

(** ** Waiting *)

(** A look that ends the waiting, and its verdict. *)
Definition verdict (pres super : bool) (k : look) : option switch_status :=
  if Bool.eqb pres (truth (lk_flag k)) then Some SWITCH_STATUS_SUCCESS
  else if (super && negb (lk_super_ready k)) || lk_down k then Some SWITCH_STATUS_FALSE
  else None.
Fixpoint first_verdict (pres super : bool) (looks : list look) : option switch_status :=
  match looks with
  | [] => None
  | k :: looks => match verdict pres super k with Some v => Some v | None => first_verdict pres super looks end
  end.

Lemma wait_loop_spec pres super to looks :
  0 <= to < 2 ^ 32 ->
  wait_for_flag_loop pres super to looks =
    if to =? 0 then first_verdict pres super looks
    else match first_verdict pres super (ztake to looks) with
         | Some v => Some v
         | None => if to <=? zlen looks then Some SWITCH_STATUS_TIMEOUT else None
         end.
Proof.
  revert to. induction looks as [|k looks IH]; intros to B; cbn [wait_for_flag_loop].
  { destruct (Z.eqb_spec to 0); [done|]. unfold ztake. rewrite take_nil. simpl.
    by rewrite (proj2 (Z.leb_gt _ _)) by lia. }
  cbn [first_verdict]. destruct (Z.eqb_spec to 0) as [->|Nz].
  - rewrite (IH 0) by lia. unfold verdict. cbn [truth Z.eqb negb].
    destruct (Bool.eqb _ _); [done|]. destruct super, (lk_super_ready k), (lk_down k); done.
  - unfold ztake. replace (Z.to_nat to) with (S (Z.to_nat (to - 1))) by lia.
    cbn [take first_verdict List.length]. fold (ztake (to - 1) looks). rewrite (truth_neq to) by done.
    rewrite u32_small by lia. rewrite IH by lia. unfold verdict.
    destruct (Bool.eqb _ _); [done|]. destruct (super && negb (lk_super_ready k)), (lk_down k); try done. cbn [orb]. unfold truth.
    destruct (Z.eqb_spec (to - 1) 0) as [E|E]; cbn [negb].
    + rewrite E. unfold ztake. cbn [Z.to_nat take first_verdict]. by rewrite (proj2 (Z.leb_le _ _)) by lia.
    + destruct (first_verdict pres super (ztake (to - 1) looks)); [reflexivity|].
      destruct (Z.leb_spec (to - 1) (zlen looks)), (Z.leb_spec to (Z.of_nat (S (length looks)))); done || lia.
Qed.

(** Waiting for a flag with a timeout ends: within [to + 1] looks it gives
    the verdict of the first look that has one (the flag, a lost parent
    channel, a hangup), and TIMEOUT when none has.  Without a timeout, and also
    with the largest one, which wraps to zero, only a verdict ends it. *)
Theorem wait_for_flag_ends pres super to looks :
  0 <= to < 2 ^ 32 ->
  (0 < to < UINT_MAX -> to + 1 <= zlen looks ->
     switch_channel_wait_for_flag pres super to looks =
       Some (default SWITCH_STATUS_TIMEOUT (first_verdict pres super (ztake (to + 1) looks)))) /\
  (to = 0 \/ to = UINT_MAX ->
     switch_channel_wait_for_flag pres super to looks = first_verdict pres super looks).
Proof.
  intros B. unfold switch_channel_wait_for_flag. split.
  - unfold UINT_MAX. intros R L. rewrite truth_neq by lia. rewrite u32_small by lia.
    rewrite wait_loop_spec by lia. rewrite (proj2 (Z.eqb_neq _ _)) by lia.
    rewrite (proj2 (Z.leb_le _ _)) by lia. by destruct (first_verdict _ _ _).
  - intros [->| ->]; [by rewrite wait_loop_spec|].
    change (if truth UINT_MAX then u32 (UINT_MAX + 1) else UINT_MAX) with 0. by rewrite wait_loop_spec.
Qed.

(** Waiting for a state ends within [max 1 timeout] looks, whatever is
    seen. *)
Theorem wait_for_state_ends want timeout looks :
  0 <= timeout < 2 ^ 32 -> Z.max 1 timeout <= zlen looks ->
  exists n, switch_channel_wait_for_state_timeout want timeout looks = Some n /\
    0 <= n <= Z.max 1 timeout.
Proof.
  intros B L. unfold switch_channel_wait_for_state_timeout.
  assert (G : forall looks count, 0 <= count -> count < Z.max 1 timeout ->
    Z.max 1 timeout <= count + zlen looks ->
    exists n, wait_for_state_timeout_loop want timeout count looks = Some n /\ 0 <= n <= Z.max 1 timeout).
  { clear looks L. induction looks as [|[s r] looks IH]; intros count P Q L; simpl in L; [lia|].
    cbn [wait_for_state_timeout_loop]. destruct (_ || _); [eexists; split; [done|lia]|].
    rewrite u32_small by lia. destruct (Z.leb_spec timeout (count + 1)); [eexists; split; [done|lia]|].
    apply IH; lia. }
  apply G; lia.
Qed.

(** ** Application flags *)

Definition app_word (key : string) (ch : switch_channel) : Z :=
  default 0 (app_flag_hash ch ≫= (.!! key)).

(** Application flags are one word per key: setting adds bits to the word of
    its key only, clearing removes them (all of them when no bit is named), a
    test reads the word, and a key that was never set reads as 0. *)
Theorem app_flags_words ch k fl k' :
  app_word k' (switch_channel_set_app_flag_key k ch fl)
    = (if decide (k = k') then set_flag (app_word k' ch) fl else app_word k' ch) /\
  app_word k' (switch_channel_clear_app_flag_key k ch fl)
    = (if decide (k = k') then if fl =? 0 then 0 else clear_flag (app_word k' ch) fl
       else app_word k' ch) /\
  switch_channel_test_app_flag_key k ch fl = Z.land (app_word k ch) fl.
Proof.
  unfold app_word, switch_channel_set_app_flag_key, switch_channel_clear_app_flag_key,
    switch_channel_test_app_flag_key. split_and!.
  - rupd. cbn [mbind option_bind]. destruct (decide (k = k')) as [<-|N].
    + rewrite lookup_insert_eq. by destruct (app_flag_hash ch).
    + rewrite lookup_insert_ne by done. by destruct (app_flag_hash ch).
  - destruct (app_flag_hash ch) as [h|] eqn:E; cbn [mbind option_bind].
    2:{ rewrite E. cbn. case_decide; [|done]. by destruct (fl =? 0). }
    destruct (h !! k) as [v|] eqn:L; rupd; rewrite ?E; cbn [mbind option_bind];
      destruct (decide (k = k')) as [<-|N]; rewrite ?lookup_insert_eq, ?lookup_insert_ne by done;
      try done; rewrite L; simpl; [done|]. by destruct (fl =? 0).
  - by destruct (app_flag_hash ch ≫= (.!! k)).
Qed.

(** ** Witnesses *)

Definition w_env : env :=
  mk_env (fun n => 100 + Z.of_nat n) (Some "peer"%string) false (fun n => Nat.leb 3 n) false false None
    false false.
Definition ok_or (d : switch_channel) (m : outcome switch_channel) : switch_channel :=
  match m with Ok c => c | _ => d end.

(** A hangup from start to end, one step at a time. *)
Definition w_begun : switch_channel := fst (hangup_begin new_channel).
Definition w_marked_channel : switch_channel := hangup_mark (hangup_enter w_begun) 17.
Definition w_ended : switch_channel := hangup_event w_marked_channel 17.

Lemma w_run_marked : rtc step (mk_sys new_channel []) (mk_sys w_marked_channel [(17, Marked)]).
Proof.
  eapply rtc_l; [apply (st_hangup_begin 17 new_channel [] [])|].
  eapply rtc_l; [by apply (st_hangup_decide 17 w_begun [] [])|].
  eapply rtc_l; [apply (st_hangup_enter 17 w_begun [] [])|].
  apply rtc_once. apply (st_hangup_mark 17 (hangup_enter w_begun) [] []).
Qed.
Lemma w_run : rtc step (mk_sys new_channel []) (mk_sys w_ended []).
Proof. eapply rtc_r; [exact w_run_marked|]. apply (st_hangup_event 17 w_marked_channel [] []). Qed.

Lemma hangup_once_witness :
  hangups (out w_ended) = [17] /\ hangup_cause w_ended = 17.
Proof.
  split; [vm_compute; reflexivity|].
  apply (hangup_once SWITCH_CALL_DIRECTION_INBOUND new_channel (mk_sys w_ended []) SWITCH_STATUS_SUCCESS);
    [reflexivity|exact w_run|]. apply list_elem_of_In. vm_compute. auto.
Defined.

(** A second call after the first one, and a state behind it. *)
Lemma hangup_final_witness :
  hangup_cause (fst (hangup_begin w_ended)) = hangup_cause w_ended /\
  cs (state w_ended) <= cs (state (fst (hangup_begin w_ended))).
Proof.
  destruct (hangup_final (mk_sys w_ended []) (mk_sys (fst (hangup_begin w_ended)) [])) as (_ & D & C).
  - apply rtc_once. exact (st_hangup_begin 16 w_ended [] []).
  - vm_compute. discriminate.
  - split; [apply C; intros c; apply not_elem_of_nil|apply D; intros c; apply not_elem_of_nil].
Defined.

(** What the code allows when a call is between its test and its writes: the
    channel has been set to [CS_HANGUP] and [CS_REPORTING] by other threads, and
    goes back to [CS_HANGUP] with another cause. *)
Definition w_reset : switch_channel := new_channel <| state := CS_RESET |>.
Definition then_state (ch : switch_channel) (st : switch_channel_state) : switch_channel :=
  match switch_channel_set_state w_env ch st with Ok (ch, _) => ch | _ => ch end.
Definition w_late : switch_channel := then_state (then_state (fst (hangup_begin w_reset)) CS_HANGUP) CS_REPORTING.

Lemma hangup_goes_back :
  rtc step (mk_sys w_reset []) (mk_sys w_late [(17, Decided)]) /\
  rtc step (mk_sys w_late [(17, Decided)]) (mk_sys (hangup_mark (hangup_enter w_late) 17) [(17, Marked)]) /\
  (state w_late, hangup_cause w_late) = (CS_REPORTING, SWITCH_CAUSE_NORMAL_CLEARING) /\
  (state (hangup_enter w_late), hangup_cause (hangup_mark (hangup_enter w_late) 17)) = (CS_HANGUP, 17).
Proof.
  split; [|split; [|split; vm_compute; reflexivity]].
  - eapply rtc_l; [apply (st_hangup_begin 17 w_reset [] [])|].
    eapply rtc_l; [by apply (st_hangup_decide 17 (fst (hangup_begin w_reset)) [] [])|].
    eapply rtc_l; [apply (st_set_state w_env CS_HANGUP _ (then_state (fst (hangup_begin w_reset)) CS_HANGUP) CS_HANGUP);
      vm_compute; reflexivity|].
    apply rtc_once. apply (st_set_state w_env CS_REPORTING _ w_late CS_REPORTING). vm_compute. reflexivity.
  - eapply rtc_l; [apply (st_hangup_enter 17 w_late [] [])|].
    apply rtc_once. apply (st_hangup_mark 17 (hangup_enter w_late) [] []).
Qed.

(** And a call state of [CCS_HANGUP], which the test is to protect, is
    overwritten by a call that made the test before it was set. *)
Lemma callstate_hangup_overwritten :
  let ch := switch_channel_set_callstate new_channel CCS_HANGUP in
  callstate ch = CCS_HANGUP /\
  step (mk_sys ch []) (mk_sys (callstate_write ch (callstate new_channel) CCS_HELD) []) /\
  callstate (callstate_write ch (callstate new_channel) CCS_HELD) = CCS_HELD.
Proof. split; [reflexivity|]. split; [by apply st_callstate|reflexivity]. Qed.

Lemma set_state_exact_witness :
  switch_channel_set_state w_env (new_channel <| state := CS_INIT |>) CS_HANGUP = Assert /\
  exists ch', switch_channel_set_state w_env (new_channel <| state := CS_RESET |>) CS_HANGUP
                = Ok (ch', CS_HANGUP).
Proof.
  split.
  - apply (set_state_exact w_env (new_channel <| state := CS_INIT |>) CS_HANGUP); try done.
    change (state (new_channel <| state := CS_INIT |>)) with CS_INIT. intros T. inversion T; subst.
    + destruct H; discriminate.
    + vm_compute in H5. discriminate.
    + vm_compute in H. destruct H as [H _]. by apply H.
  - destruct (set_state_exact w_env (new_channel <| state := CS_RESET |>) CS_HANGUP) as [H _]; try done.
    destruct H as (ch' & E & _); [|by exists ch'].
    apply tr_start; [right; reflexivity|done|done].
Defined.

Lemma w_flags_wf : flags_wf new_channel.
Proof. split; reflexivity. Qed.

Lemma w_marked : marked new_channel.
Proof. intros f. destruct f; vm_compute; discriminate. Qed.

Definition w_asks : list (bool * switch_channel_flag) :=
  [(true, CF_TRANSFER); (true, CF_RESET); (false, CF_RESET)].

Lemma state_flags_delivered_witness :
  exists ch', switch_channel_set_running_state w_env (foldl ask new_channel w_asks) CS_ROUTING = Ok ch' /\
    flag_get ch' CF_TRANSFER = 1 /\ flag_get ch' CF_RESET = 0.
Proof.
  destruct (switch_channel_set_running_state w_env (foldl ask new_channel w_asks) CS_ROUTING)
    as [ch'| |] eqn:E; [|vm_compute in E; discriminate E|vm_compute in E; discriminate E].
  destruct (state_flags_delivered w_env new_channel w_asks CS_ROUTING ch' w_flags_wf w_marked E)
    as (_ & _ & F).
  exists ch'. split; [reflexivity|].
  split; [rewrite (proj2 (F CF_TRANSFER))|rewrite (proj2 (F CF_RESET))]; reflexivity.
Defined.

Lemma recursive_flags_witness :
  flag_get (raise_n 3 CF_SUSPEND new_channel) CF_SUSPEND = 3.
Proof. apply (recursive_flags new_channel CF_SUSPEND 3 w_flags_wf); vm_compute; congruence. Defined.

Definition w_answered : switch_channel :=
  flag_put new_channel CF_ANSWERED 1 <| caller_profile := Some (mk_times 0 7) |>.

Lemma hold_accounting_witness :
  exists ch1, switch_channel_set_flag w_env w_answered CF_LEG_HOLDING = Ok ch1 /\ callstate ch1 = CCS_HELD.
Proof.
  destruct (hold_accounting w_env w_env w_answered) as (ch1 & ch2 & E & C & _);
    [split; reflexivity|reflexivity|vm_compute; discriminate|vm_compute; discriminate
    |vm_compute; discriminate|].
  exists ch1. split; [exact E|exact C].
Defined.

Lemma w_handlers : handlers (add_all new_channel [7; 8]) [7; 8].
Proof.
  constructor; try reflexivity; [unfold SWITCH_MAX_STATE_HANDLERS; simpl; lia|set_solver|].
  apply NoDup_cons. split; [set_solver|]. apply NoDup_singleton.
Qed.

Lemma handlers_list_witness :
  switch_channel_add_state_handler (add_all new_channel [7; 8]) 8 = (add_all new_channel [7; 8], 1) /\
  switch_channel_get_state_handler (add_all new_channel [7; 8]) 0 = Ok 7.
Proof.
  destruct (handlers_list (fun _ => 0) (add_all new_channel [7; 8]) [7; 8] 8 w_handlers)
    as (A & _ & G & _); [lia|].
  split; [exact (A 1%nat eq_refl)|exact (G O 7 eq_refl)].
Defined.

Definition w_look (f : Z) : look := mk_look f true false.

Lemma wait_for_flag_ends_witness :
  switch_channel_wait_for_flag true false 2 [w_look 0; w_look 0; w_look 0] = Some SWITCH_STATUS_TIMEOUT.
Proof.
  destruct (wait_for_flag_ends true false 2 [w_look 0; w_look 0; w_look 0]) as [H _]; [lia|].
  rewrite H; [reflexivity|unfold UINT_MAX; lia|simpl; lia].
Defined.

Lemma wait_for_state_ends_witness :
  exists n, switch_channel_wait_for_state_timeout CS_RESET 2 [(CS_NEW, CS_NEW); (CS_NEW, CS_NEW)] = Some n.
Proof.
  destruct (wait_for_state_ends CS_RESET 2 [(CS_NEW, CS_NEW); (CS_NEW, CS_NEW)]) as (n & E & _);
    [lia|simpl; lia|]. exists n. exact E.
Defined.
