(* ===== verification/StateMachine.v ===== *)
(** * The session's state machine (src/switch_core_state_machine.c)

    The thread of a session runs the handlers of the states that its channel
    goes through, from [CS_INIT] to [CS_DESTROY].  Handlers, applications and
    the rest of the core are not modelled: a [world] says what each call out of
    this file does and answers, and what other threads do before each access to
    the channel.  The [log] of a run is the list of these calls, newest first. *)
From S2P Require Import Prelude CStrings StringUtils Separator ChannelTypes Channel.
From stdpp Require Import strings.
From Stdlib Require Import String Ascii.
Open Scope Z_scope.
#[local] Notation length := List.length (only parsing).

(** ** State *)

(** The fields of [switch_session_flag_t] and of [runtime.flags] used here. *)
Definition SSF_HANGUP : Z := 4.
Definition SSF_THREAD_RUNNING : Z := 16.
Definition SSH_FLAG_PRE_EXEC : Z := 2.

(** A table of handlers: which states it has a function for, by the state's
    number ([on_hangup] is that of [CS_HANGUP] and so on). *)
Record switch_state_handler_table := mk_table { on_state : switch_channel_state -> bool; table_flags : Z }.

Record switch_caller_application := mk_app { application_name : string; application_data : string }.

(** [runtime.state_handlers] and [runtime.state_handler_index] of switch_core.c. *)
Record core_handlers := mk_core_handlers { rt_handlers : list Z; rt_index : Z }.

(** The channel with the hangups that other threads have begun and not finished
    ([others], as in [sys]).  Extensions are objects: [extensions]
    holds the applications from [current_application] on of each one, and
    [caller_extension] (of the caller profile) and [queued_extension] point to
    one of them. *)
Record switch_core_session := mk_session {
  channel : switch_channel;
  others : list (Z * stage);
  ssf : Z;
  caller_extension : option Z;
  queued_extension : option Z;
  extensions : gmap Z (list switch_caller_application);
  runtime : core_handlers
}.
#[export] Instance eta_session : Eta switch_core_session := fun s =>
  mk_session (channel s) (others s) (ssf s) (caller_extension s) (queued_extension s)
    (extensions s) (runtime s).

(** Calls out of the file; [Interleave] is the moment before an access to the
    channel, [Do] a function of another part with its arguments. *)
Inductive call :=
| Interleave
| AppHandler (h : Z) (k : switch_channel_state)
| CoreHandler (h : Z) (k : switch_channel_state)
| DriverHandler (k : switch_channel_state)
| Standard (k : switch_channel_state)
| Execute (a : switch_caller_application)
| HookStateRun (n : nat)
| Yield (usec : Z)
| GetVariable (name : string)
| Do (f : string) (args : list string).

(** What a call does to the session and what it answers, given the calls so far
    with itself at the head; [inner] are the calls that the callee makes itself
    in the session's thread, newest first (an application that hangs up may call
    the hangup handlers). *)
Record world := mk_world {
  act : list call -> switch_core_session -> switch_core_session;
  inner : list call -> switch_core_session -> list call;
  answer : list call -> switch_status;
  yes : list call -> bool;
  variable : list call -> option string;
  extension : list call -> option Z;
  look : list call -> env
}.

(** What does not change while sessions run: the contents of handler tables,
    the endpoint's table, its [state_run] and the event hooks. *)
Record setup := mk_setup {
  tables : Z -> switch_state_handler_table;
  driver_state_handler : switch_state_handler_table;
  has_state_run : bool;
  state_run_hooks : nat;
  scf_early_hangup : bool
}.

(** ** switch_core.c: the core's handler table *)

(** [index] may be one behind the last entry, where the array holds null. *)
Definition switch_core_get_state_handler (rt : core_handlers) (index : Z) : outcome Z :=
  if (Z.of_nat SWITCH_MAX_STATE_HANDLERS <=? index) || (rt_index rt <? index) then Ok 0
  else handler_at (rt_handlers rt) index.

Definition switch_core_add_state_handler (rt : core_handlers) (h : Z) : core_handlers * Z :=
  let index := rt_index rt in
  if Z.of_nat SWITCH_MAX_STATE_HANDLERS - 1 <? index then (rt, -1)
  else (mk_core_handlers (<[Z.to_nat index := h]> (rt_handlers rt)) (index + 1), index).

(** The entries below the index are taken out and those other than [h] put back. *)
Definition switch_core_remove_state_handler (rt : core_handlers) (h : Z) : core_handlers :=
  let n := Z.to_nat (rt_index rt) in
  let tmp := filter (fun x => x <> h) (take n (rt_handlers rt)) in
  mk_core_handlers (tmp ++ replicate (n - length tmp) 0 ++ drop n (rt_handlers rt)) (zlen tmp).

(** ** Runs of the session thread

    A run ends with the thread as it is then: it returns, a loop has used up its
    fuel, an assertion fails, or its behaviour is undefined. *)
Record thread := mk_thread { ses : switch_core_session; log : list call }.
Inductive result (A : Type) := Returned (a : A) | OutOfFuel | Aborted | Undefined.
Arguments Returned {A} a.
Arguments OutOfFuel {A}.
Arguments Aborted {A}.
Arguments Undefined {A}.

Definition M (A : Type) : Type := thread -> thread * result A.

Definition ret {A} (a : A) : M A := fun t => (t, Returned a).
Definition bind {A B} (m : M A) (f : A -> M B) : M B := fun t =>
  match m t with
  | (t, Returned a) => f a t
  | (t, OutOfFuel) => (t, OutOfFuel)
  | (t, Aborted) => (t, Aborted)
  | (t, Undefined) => (t, Undefined)
  end.
Declare Scope run_scope.
Notation "x ← m ; k" := (bind m (fun x => k))
  (at level 20, m at level 100, k at level 200) : run_scope.
Notation "m ;; k" := (bind m (fun _ : unit => k)) (at level 100, k at level 200, right associativity) : run_scope.
#[local] Open Scope run_scope.

Definition out_of_fuel {A} : M A := fun t => (t, OutOfFuel).
Definition get {A} (f : switch_core_session -> A) : M A := fun t => (t, Returned (f (ses t))).
Definition modify (f : switch_core_session -> switch_core_session) : M unit :=
  fun t => (mk_thread (f (ses t)) (log t), Returned tt).
Definition lift {A} (m : outcome A) : M A :=
  fun t => (t, match m with Ok a => Returned a | Assert => Aborted | UB => Undefined end).
Definition when (b : bool) (m : M unit) : M unit := if b then m else ret tt.

Section StateMachine.
Context (w : world) (cfg : setup).

Definition called (c : call) (t : thread) : thread :=
  let l := c :: log t in mk_thread (act w l (ses t)) (c :: inner w l (ses t) ++ log t).
Definition call_out (c : call) : M unit := fun t => (called c t, Returned tt).
Definition answered {A} (f : list call -> A) : M A := fun t => (t, Returned (f (log t))).
Definition ask (c : call) : M switch_status := call_out c ;; answered (answer w).
Definition ask_yes (c : call) : M bool := call_out c ;; answered (yes w).
Definition get_variable (name : string) : M (option string) :=
  call_out (GetVariable name) ;; answered (variable w).

(** An access to the channel. *)
Definition peek {A} (f : switch_channel -> A) : M A := call_out Interleave ;; get (fun s => f (channel s)).
Definition on_channel (f : env -> switch_channel -> outcome switch_channel) : M unit :=
  call_out Interleave ;;
  e ← answered (look w);
  ch ← get channel;
  ch ← lift (f e ch);
  modify (fun s => s <| channel := ch |>).

Definition set_state (st : switch_channel_state) : M unit :=
  on_channel (fun e ch => let* (ch, _) := switch_channel_set_state e ch st in Ok ch).
Definition set_ch_flag (f : switch_channel_flag) : M unit :=
  on_channel (fun e ch => switch_channel_set_flag e ch f).
Definition clear_ch_flag (f : switch_channel_flag) : M unit :=
  on_channel (fun e ch => switch_channel_clear_flag e ch f).
Definition test_ch_flag (f : switch_channel_flag) : M bool :=
  peek (fun ch => truth (switch_channel_test_flag ch f)).
(** Read and tested, then written. *)
Definition set_callstate (c : switch_channel_callstate) : M unit :=
  o_callstate ← peek callstate;
  if (o_callstate is c) || (o_callstate is CCS_HANGUP) then ret tt
  else on_channel (fun _ ch => Ok (callstate_write ch o_callstate c)).
Definition get_state : M switch_channel_state := peek state.
Definition get_running_state : M switch_channel_state := peek running_state.

Definition set_variable (name value : string) : M unit :=
  call_out (Do "switch_channel_set_variable" [name; value]).

(** [switch_channel_up]: pending signals are parsed first. *)
Definition channel_up : M bool :=
  call_out (Do "switch_channel_check_signal" []) ;; st ← get_state; ret (cs st <? cs CS_HANGUP).
(** [switch_channel_ready], in the session's own thread. *)
Definition channel_ready : M bool :=
  call_out (Do "switch_ivr_parse_signal_data" []) ;;
  peek (fun ch => snd (switch_channel_test_ready id true false false ch true false)).

Definition get_caller_extension : M (option Z) :=
  call_out Interleave ;;
  get (fun s => match caller_profile (channel s) with None => None | Some _ => caller_extension s end).

(** The applications left of an extension. *)
Definition applications (ext : Z) : M (list switch_caller_application) :=
  get (fun s => default [] (extensions s !! ext)).
Definition set_applications (ext : Z) (apps : list switch_caller_application) : M unit :=
  modify (fun s => s <| extensions := <[ext := apps]> (extensions s) |>).

(** ** STATE_MACRO *)

Definition get_app_handler (index : Z) : M Z :=
  ch ← get channel; lift (switch_channel_get_state_handler ch index).
Definition get_core_handler (index : Z) : M Z :=
  rt ← get runtime; lift (switch_core_get_state_handler rt index).

(** A loop over the channel's handlers, for those with [SSH_FLAG_PRE_EXEC] or
    those without; the result is [proceed]. *)
Fixpoint app_handlers (n : nat) (pre : bool) (k : switch_channel_state) (index proceed : Z) : M Z :=
  match n with
  | O => out_of_fuel
  | S n =>
    h ← get_app_handler index;
    let index := index + 1 in
    if h =? 0 then ret proceed
    else if negb (Bool.eqb pre (test_flag (table_flags (tables cfg h)) SSH_FLAG_PRE_EXEC))
    then app_handlers n pre k index proceed
    else if negb (on_state (tables cfg h) k) then app_handlers n pre k index (proceed + 1)
    else
      st ← ask (AppHandler h k);
      if st is SWITCH_STATUS_SUCCESS then app_handlers n pre k index (proceed + 1) else ret 0
  end.

Fixpoint core_handlers_loop (n : nat) (pre : bool) (k : switch_channel_state) (index proceed : Z) : M Z :=
  match n with
  | O => out_of_fuel
  | S n =>
    if negb (truth proceed) then ret proceed
    else
      h ← get_core_handler index;
      let index := index + 1 in
      if h =? 0 then ret proceed
      else if negb (Bool.eqb pre (test_flag (table_flags (tables cfg h)) SSH_FLAG_PRE_EXEC))
      then core_handlers_loop n pre k index proceed
      else if negb (on_state (tables cfg h) k) then core_handlers_loop n pre k index (proceed + 1)
      else
        st ← ask (CoreHandler h k);
        if st is SWITCH_STATUS_SUCCESS then core_handlers_loop n pre k index (proceed + 1) else ret 0
  end.

(** No index above [SWITCH_MAX_STATE_HANDLERS] gives a handler. *)
Definition fuel : nat := S SWITCH_MAX_STATE_HANDLERS.

(** Up to the endpoint's handler: [global_proceed] and [proceed]. *)
Definition before_driver (k state : switch_channel_state) (do_extra_handlers : bool) : M (bool * Z) :=
  (if cs state <? cs CS_HANGUP then
     c ← peek callstate;
     when (c is CCS_UNHELD) (set_callstate CCS_ACTIVE)
   else ret tt) ;;
  call_out (Do "switch_core_session_request_video_refresh" []) ;;
  call_out (Do "switch_core_media_gen_key_frame" []) ;;
  proceed ← (if do_extra_handlers then app_handlers fuel true k 0 1 else ret 1);
  let global_proceed := truth proceed in
  proceed ← (if do_extra_handlers then core_handlers_loop fuel true k 0 1 else ret 1);
  ret (global_proceed && truth proceed, proceed).

Definition driver_call (k : switch_channel_state) : M switch_status :=
  if on_state (driver_state_handler cfg) k then ask (DriverHandler k) else ret SWITCH_STATUS_SUCCESS.

(** What follows when it has succeeded. *)
Definition after_driver (k midstate : switch_channel_state) (do_extra_handlers : bool) (standard : M unit)
    (global_proceed : bool) (proceed : Z) : M unit :=
  proceed ← (if do_extra_handlers then app_handlers fuel false k 0 proceed else ret proceed);
  let global_proceed := global_proceed && truth proceed in
  proceed ← (if do_extra_handlers then core_handlers_loop fuel false k 0 1 else ret 1);
  global_proceed ← (if negb (truth proceed) then ret false
                    else st ← get_state; ret (global_proceed && (midstate is st)));
  when global_proceed standard.

Definition STATE_MACRO (k state : switch_channel_state) (do_extra_handlers : bool) (standard : M unit) : M unit :=
  r ← before_driver k state do_extra_handlers;
  st ← driver_call k;
  if st is SWITCH_STATUS_SUCCESS
  then after_driver k state do_extra_handlers standard (fst r) (snd r)
  else ret tt.

(** ** Hanging up and reporting *)

Definition execute_application (a : switch_caller_application) : M switch_status := ask (Execute a).

(** The applications left at hangup, each one tried once. *)
Fixpoint zombie_exec (n : nat) (ext : Z) : M unit :=
  match n with
  | O => out_of_fuel
  | S n =>
    apps ← applications ext;
    match apps with
    | app :: rest =>
      set_applications ext rest ;;
      st ← execute_application app;
      if negb (st is SWITCH_STATUS_SUCCESS) && negb (st is SWITCH_STATUS_IGNORE) then ret tt
      else zombie_exec n ext
    | [] => ret tt
    end
  end.

(** [app_fuel] bounds the applications run in one state. *)
Definition switch_core_standard_on_hangup (app_fuel : nat) : M unit :=
  call_out (Standard CS_HANGUP) ;;
  stats ← get_variable "log_audio_stats_on_hangup";
  when (switch_true stats) (call_out (Do "switch_core_media_get_stats" [])) ;;
  rec ← test_ch_flag CF_RECOVERING;
  clear_ch_flag CF_RECOVERING ;;
  when (negb rec) (call_out (Do "switch_core_recovery_untrack" ["true"%string])) ;;
  zombie ← test_ch_flag CF_ZOMBIE_EXEC;
  if negb zombie then ret tt
  else
    ext ← get_caller_extension;
    match ext with
    | None => ret tt
    | Some ext => zombie_exec app_fuel ext
    end.

Definition switch_core_standard_on_reporting : M unit := call_out (Standard CS_REPORTING).
Definition switch_core_standard_on_destroy : M unit := call_out (Standard CS_DESTROY).

(** [cmd::arg] or [cmd arg]. *)
Fixpoint split_at (c : ascii) (s : string) : option (string * string) :=
  match s with
  | EmptyString => None
  | String d s =>
    if d =c c then Some (EmptyString, s)
    else match split_at c s with Some (a, b) => Some (String d a, b) | None => None end
  end.
Definition hook_command (hook : string) : string * option string :=
  match split_at ":" hook with
  | Some (cmd, String c arg) => if c =c ":" then (cmd, Some arg) else
      match split_at SPACE hook with Some (cmd, arg) => (cmd, Some arg) | None => (hook, None) end
  | _ => match split_at SPACE hook with Some (cmd, arg) => (cmd, Some arg) | None => (hook, None) end
  end.
Definition api_hook (hook : option string) (use_session : bool) : M unit :=
  if zstr hook then ret tt
  else
    let '(cmd, arg) := hook_command (default EmptyString hook) in
    call_out (Do "switch_event_expand_headers" [default EmptyString arg]) ;;
    expanded ← answered (variable w);
    call_out (Do "switch_api_execute" [cmd; default EmptyString expanded;
      (if use_session then "session" else "no session")%string]).

(** The hook of a state, if the channel has one. *)
Definition state_hook (name : string) : M unit :=
  hook ← get_variable name;
  match hook with
  | None => ret tt
  | Some _ =>
    use ← get_variable "session_in_hangup_hook";
    api_hook hook (switch_true use)
  end.

(** What [switch_core_session_hangup_state] does when it gets past its tests. *)
Definition hangup_handlers (app_fuel : nat) (state : switch_channel_state) (cause : Z) : M unit :=
  call_out (Do "switch_channel_set_hangup_time" []) ;;
  call_out (Do "switch_core_media_bug_remove_all" []) ;;
  call_out (Do "switch_channel_stop_broadcast" []) ;;
  set_variable "hangup_cause" (switch_channel_cause2str cause) ;;
  call_out (Do "switch_channel_set_variable_printf" ["hangup_cause_q850"%string]) ;;
  call_out (Do "switch_channel_set_timestamps" []) ;;
  set_callstate CCS_HANGUP ;;
  STATE_MACRO CS_HANGUP state true (switch_core_standard_on_hangup app_fuel) ;;
  call_out (Do "switch_core_media_set_stats" []) ;;
  state_hook "api_hangup_hook" ;;
  call_out (Do "switch_channel_process_device_hangup" []) ;;
  modify (fun s => s <| ssf := set_flag (ssf s) SSF_HANGUP |>).

(** [own_thread]: the caller is the session's thread. *)
Definition switch_core_session_hangup_state (app_fuel : nat) (force own_thread : bool) : M unit :=
  cause ← peek hangup_cause;
  state ← get_state;
  early ← (if force then ret true else test_ch_flag CF_EARLY_HANGUP);
  if negb force && (negb (early || scf_early_hangup cfg) || negb own_thread) then ret tt
  else
    fl ← get ssf;
    if test_flag fl SSF_HANGUP then ret tt else hangup_handlers app_fuel state cause.

(** [do_extra_handlers] after the variables were looked at. *)
Definition cdr_wanted (var : option string) : M bool :=
  if zstr var then ret true
  else
    let v := default EmptyString var in
    if strcaseeq v "a_only" then
      p ← ask_yes (Do "switch_channel_get_originator_caller_profile" []); ret (negb p)
    else if strcaseeq v "b_only" then
      p ← ask_yes (Do "switch_channel_get_originatee_caller_profile" []); ret (negb p)
    else ret (switch_true var).

(** [switch_split] with room for 128 fields. *)
Definition cause_skipped (skip_var : option string) (cause : Z) : outcome bool :=
  if zstr skip_var then Ok false
  else
    let* list := switch_separate_string skip_var "|" 128 in
    Ok (existsb (fun x => switch_channel_str2cause (Some x) =? cause) list).

(** The call's record as the body of the event. *)
Definition attach_xml_cdr : M unit :=
  st ← ask (Do "switch_ivr_generate_xml_cdr" []);
  when (st is SWITCH_STATUS_SUCCESS)
    (call_out (Do "switch_xml_toxml" []) ;;
     call_out (Do "switch_event_add_header_string" ["CDR-Attached"; "xml"]%string) ;;
     call_out (Do "switch_event_add_body" []) ;;
     call_out (Do "switch_xml_free" [])).

Definition switch_core_session_reporting_state : M unit :=
  state ← get_state;
  var ← get_variable "process_cdr";
  skip_var ← get_variable "skip_cdr_causes";
  cause ← peek hangup_cause;
  reported ← test_ch_flag CF_REPORTING;
  if reported then ret tt
  else
    set_ch_flag CF_REPORTING ;;
    extra ← cdr_wanted var;
    skipped ← lift (cause_skipped skip_var cause);
    nocdr ← test_ch_flag CF_NO_CDR;
    STATE_MACRO CS_REPORTING state (extra && negb skipped && negb nocdr) switch_core_standard_on_reporting ;;
    state_hook "api_reporting_hook" ;;
    xml ← get_variable "hangup_complete_with_xml";
    when (switch_true xml) attach_xml_cdr ;;
    call_out (Do "switch_event_fire" ["CHANNEL_HANGUP_COMPLETE"%string; switch_channel_cause2str cause]).

(** [switch_channel_hangup] called by the session's thread: the parts of
    [perform_hangup], with other threads between them; its last act, in the call
    that hangs up, is [switch_core_session_hangup_state(session, FALSE)]. *)
Definition hangup (app_fuel : nat) (cause : Z) : M unit :=
  call_out Interleave ;;
  ch ← get channel;
  let '(ch, ok) := hangup_begin ch in
  modify (fun s => s <| channel := ch |>) ;;
  on_channel hangup_unhold ;;
  if negb ok then ret tt
  else
    clear_ch_flag CF_BLOCK_STATE ;;
    live ← peek hangup_live;
    if negb live then ret tt
    else
      on_channel (fun e ch => Ok (hangup_end_hold e ch)) ;;
      on_channel (fun _ ch => Ok (hangup_enter ch)) ;;
      on_channel (fun _ ch => Ok (hangup_mark ch cause)) ;;
      on_channel (fun e ch => Ok (hangup_report e ch cause)) ;;
      on_channel (fun _ ch => Ok (hangup_event ch cause)) ;;
      switch_core_session_hangup_state app_fuel false true.

(** ** The standard behaviour of the other states *)

Definition switch_core_standard_on_init : M unit :=
  call_out (Standard CS_INIT) ;;
  bridge ← test_ch_flag CF_RECOVERING_BRIDGE;
  (if bridge then set_state CS_RESET
   else
     rec ← test_ch_flag CF_RECOVERING;
     if rec then set_state CS_EXECUTE else set_state CS_ROUTING) ;;
  clear_ch_flag CF_RECOVERING.

(** Up to twenty looks for the other leg of a bridge. *)
Fixpoint locate_other (n : nat) (other_uuid : string) : M bool :=
  match n with
  | O => ret false
  | S n =>
    up ← channel_up;
    if negb up then ret false
    else
      found ← ask_yes (Do "switch_core_session_locate" [other_uuid]);
      call_out (Yield 100000) ;;
      if found then ret true else locate_other n other_uuid
  end.

Definition switch_core_standard_on_reset : M unit :=
  call_out (Do "switch_channel_set_variable" ["call_uuid"%string]) ;;
  call_out (Standard CS_RESET) ;;
  bridge ← test_ch_flag CF_RECOVERING_BRIDGE;
  if negb bridge then ret tt
  else
    originator ← test_ch_flag CF_BRIDGE_ORIGINATOR;
    (if negb originator then ret tt
     else
       call_out (Do "switch_channel_get_partner_uuid" []) ;;
       other_uuid ← answered (variable w);
       match other_uuid with
       | None => ret tt
       | Some other_uuid =>
         found ← locate_other 20 other_uuid;
         if negb found then ret tt
         else
           clear_ch_flag CF_BRIDGE_ORIGINATOR ;;
           call_out (Do "switch_channel_wait_for_state_timeout" [other_uuid; "CS_RESET"%string]) ;;
           call_out (Do "switch_channel_wait_for_flag" [other_uuid; "CF_MEDIA_ACK"%string]) ;;
           proxy ← test_ch_flag CF_PROXY_MODE;
           other_proxy ← (if proxy then ask_yes (Do "switch_channel_test_flag" [other_uuid; "CF_PROXY_MODE"%string])
                          else ret false);
           (if proxy && other_proxy then call_out (Do "switch_ivr_signal_bridge" [other_uuid])
            else call_out (Do "switch_ivr_uuid_bridge" [other_uuid])) ;;
           call_out (Do "switch_core_session_rwunlock" [other_uuid])
       end) ;;
    clear_ch_flag CF_RECOVERING_BRIDGE.

(** [switch_channel_set_caller_extension] and the extension's way into
    [CS_EXECUTE]; without a caller profile it dereferences null. *)
Definition set_caller_extension (ext : Z) : M unit :=
  call_out (Do "switch_channel_sort_cid" []) ;;
  ch ← get channel;
  match caller_profile ch with
  | None => lift UB
  | Some _ => modify (fun s => s <| caller_extension := Some ext |>)
  end.

(** [name:arg] of a dialplan. *)
Definition dialplan_name (dp : string) : string * option string :=
  match split_at ":" dp with Some (name, arg) => (name, Some arg) | None => (dp, None) end.

(** The dialplans in turn: [inl] is an extension, [inr] the number of dialplans
    that were known. *)
Fixpoint hunt (dps : list string) (count : Z) : M (Z + Z) :=
  match dps with
  | [] => ret (inr count)
  | dp :: dps =>
    let '(dpname, dparg) := dialplan_name dp in
    known ← ask_yes (Do "switch_loadable_module_get_dialplan_interface" [dpname]);
    if negb known then hunt dps count
    else
      call_out (Do "hunt_function" [dpname; default EmptyString dparg]) ;;
      ext ← answered (extension w);
      match ext with
      | Some ext => ret (inl ext)
      | None => hunt dps (count + 1)
      end
  end.

Definition switch_core_standard_on_routing (app_fuel : nat) : M unit :=
  call_out (Standard CS_ROUTING) ;;
  call_out (Do "switch_channel_set_variable" ["call_uuid"%string]) ;;
  answered_ ← test_ch_flag CF_ANSWERED;
  early ← (if answered_ then ret true else test_ch_flag CF_EARLY_MEDIA);
  ttl ← (if early then ret true else test_ch_flag CF_SIGNAL_BRIDGE_TTL);
  proxy ← (if ttl then test_ch_flag CF_PROXY_MODE else ret false);
  when proxy (call_out (Do "switch_ivr_media" [])) ;;
  profile ← peek caller_profile;
  match profile with
  | None => hangup app_fuel SWITCH_CAUSE_DESTINATION_OUT_OF_ORDER
  | Some _ =>
    call_out Interleave ;;
    queued ← get queued_extension;
    modify (fun s => s <| queued_extension := None |>) ;;
    match queued with
    | Some ext => set_caller_extension ext ;; set_state CS_EXECUTE
    | None =>
      call_out (Do "dialplan" []) ;;
      dialplan ← answered (variable w);
      dps ← (if zstr dialplan then ret []
             else
               call_out (Do "switch_channel_expand_variables" [default EmptyString dialplan]) ;;
               expanded ← answered (variable w);
               lift (switch_separate_string expanded "," 25));
      found ← hunt dps 0;
      match found with
      | inl ext => set_caller_extension ext ;; set_state CS_EXECUTE
      | inr count =>
        dir ← (if count =? 0 then peek direction else ret SWITCH_CALL_DIRECTION_INBOUND);
        if (count =? 0) && (dir is SWITCH_CALL_DIRECTION_OUTBOUND) then
          answered_ ← test_ch_flag CF_ANSWERED;
          if answered_ then hangup app_fuel SWITCH_CAUSE_NO_ROUTE_DESTINATION
          else set_state CS_CONSUME_MEDIA
        else
          st ← ask (Do "switch_ivr_blind_transfer_ack" []);
          when (negb (st is SWITCH_STATUS_SUCCESS)) (hangup app_fuel SWITCH_CAUSE_NO_ROUTE_DESTINATION)
      end
    end
  end.

(** The applications of an extension while the channel stays in [CS_EXECUTE].
    The result says that the loop came to its end; [CF_RESET] starts over with
    the extension that the caller profile has then. *)
Fixpoint execute_loop (n app_fuel : nat) (ext : Z) : M bool :=
  match n with
  | O => out_of_fuel
  | S n =>
    st ← get_state;
    apps ← applications ext;
    match apps with
    | app :: rest =>
      if negb (st is CS_EXECUTE) then ret true
      else
        set_applications ext rest ;;
        status ← execute_application app;
        if negb (status is SWITCH_STATUS_SUCCESS) then ret false
        else
          reset ← test_ch_flag CF_RESET;
          if negb reset then execute_loop n app_fuel ext
          else
            clear_ch_flag CF_RESET ;;
            call_out (Do "switch_core_session_video_reset" []) ;;
            ext ← get_caller_extension;
            match ext with
            | None => hangup app_fuel SWITCH_CAUSE_NORMAL_CLEARING ;; ret false
            | Some ext => execute_loop n app_fuel ext
            end
    | [] => ret true
    end
  end.

Definition blind_transfer_response : M unit :=
  ready ← channel_ready;
  st ← (if ready then get_state else ret CS_NONE);
  confirm ← (if ready && (st is CS_EXECUTE) then test_ch_flag CF_CONFIRM_BLIND_TRANSFER else ret false);
  uuid ← (if confirm then get_variable "blind_transfer_uuid" else ret None);
  match uuid with
  | None => ret tt
  | Some uuid =>
    found ← ask_yes (Do "switch_core_session_locate" [uuid]);
    if negb found then ret tt
    else
      call_out (Do "switch_core_session_receive_message" [uuid]) ;;
      call_out (Do "switch_core_session_rwunlock" [uuid]) ;;
      set_variable "park_timeout" "10:blind_transfer" ;;
      set_state CS_PARK ;;
      clear_ch_flag CF_CONFIRM_BLIND_TRANSFER
  end.

Definition switch_core_standard_on_execute (app_fuel : nat) : M unit :=
  call_out (Standard CS_EXECUTE) ;;
  clear_ch_flag CF_RECOVERING ;;
  call_out (Do "switch_channel_set_variable" ["call_uuid"%string]) ;;
  recovered ← get_variable "recovered";
  (match recovered with
   | None => ret tt
   | Some _ => r ← test_ch_flag CF_RECOVERED; when (negb r) (set_ch_flag CF_RECOVERED)
   end) ;;
  clear_ch_flag CF_RESET ;;
  call_out (Do "switch_core_session_video_reset" []) ;;
  ext ← get_caller_extension;
  match ext with
  | None => hangup app_fuel SWITCH_CAUSE_NORMAL_CLEARING
  | Some ext =>
    done ← execute_loop app_fuel app_fuel ext;
    if negb done then ret tt
    else
      blind_transfer_response ;;
      ready ← channel_ready;
      st ← (if ready then get_state else ret CS_NONE);
      when (ready && (st is CS_EXECUTE)) (hangup app_fuel SWITCH_CAUSE_NORMAL_CLEARING)
  end.

Definition switch_core_standard_on_exchange_media : M unit := call_out (Standard CS_EXCHANGE_MEDIA).
Definition switch_core_standard_on_soft_execute : M unit := call_out (Standard CS_SOFT_EXECUTE).
Definition switch_core_standard_on_park : M unit :=
  call_out (Standard CS_PARK) ;;
  call_out (Do "switch_core_session_reset" []) ;;
  call_out (Do "switch_ivr_park" []).
Definition switch_core_standard_on_consume_media : M unit := call_out (Standard CS_CONSUME_MEDIA).
Definition switch_core_standard_on_hibernate : M unit := call_out (Standard CS_HIBERNATE).

(** ** The thread of a session *)

Definition check_presence : M unit :=
  state ← get_running_state;
  if (state is CS_ROUTING) || (state is CS_HANGUP) then
    cause ← peek hangup_cause;
    if cause =? SWITCH_CAUSE_LOSE_RACE then
      call_out (Do "switch_channel_presence" ["unknown"; "cancelled"]%string) ;;
      call_out (Do "switch_channel_set_variable" ["presence_call_info"%string])
    else call_out (Do "switch_channel_presence" ["unknown"%string; default EmptyString (switch_channel_state_name state)])
  else ret tt.

(** The event hooks until one fails. *)
Fixpoint run_hooks (n i : nat) : M unit :=
  match n with
  | O => ret tt
  | S n =>
    st ← ask (HookStateRun i);
    if st is SWITCH_STATUS_SUCCESS then run_hooks n (S i) else ret tt
  end.

(** The [switch] of [switch_core_session_run]; [true] is [goto done]. *)
Definition run_state (app_fuel : nat) (state : switch_channel_state) : M bool :=
  let macro k std := STATE_MACRO k state true std ;; ret false in
  match state with
  | CS_NEW => ret false
  | CS_DESTROY => ret true
  | CS_REPORTING => switch_core_session_reporting_state ;; set_state CS_DESTROY ;; ret true
  | CS_HANGUP =>
    switch_core_session_hangup_state app_fuel true true ;;
    video ← test_ch_flag CF_VIDEO;
    when video (call_out (Do "switch_core_session_wake_video_thread" [])) ;;
    set_state CS_REPORTING ;; ret false
  | CS_INIT =>
    STATE_MACRO CS_INIT state true switch_core_standard_on_init ;;
    call_out (Do "switch_event_fire" ["CHANNEL_CREATE"%string]) ;;
    dir ← peek direction;
    when (dir is SWITCH_CALL_DIRECTION_OUTBOUND)
      (call_out (Do "switch_event_fire" ["CHANNEL_ORIGINATE"%string])) ;;
    ret false
  | CS_ROUTING => macro CS_ROUTING (switch_core_standard_on_routing app_fuel)
  | CS_RESET => macro CS_RESET switch_core_standard_on_reset
  | CS_EXECUTE => macro CS_EXECUTE (switch_core_standard_on_execute app_fuel)
  | CS_EXCHANGE_MEDIA => macro CS_EXCHANGE_MEDIA switch_core_standard_on_exchange_media
  | CS_SOFT_EXECUTE => macro CS_SOFT_EXECUTE switch_core_standard_on_soft_execute
  | CS_PARK => macro CS_PARK switch_core_standard_on_park
  | CS_CONSUME_MEDIA => macro CS_CONSUME_MEDIA switch_core_standard_on_consume_media
  | CS_HIBERNATE => macro CS_HIBERNATE switch_core_standard_on_hibernate
  | CS_NONE => lift Assert
  end.

(** A state that is new to the thread, or one of the last three. *)
Definition enter_state (app_fuel : nat) (state : switch_channel_state) : M bool :=
  on_channel (fun e ch => switch_channel_set_running_state e ch state) ;;
  clear_ch_flag CF_TRANSFER ;;
  clear_ch_flag CF_REDIRECT ;;
  call_out (Do "switch_ivr_parse_all_messages" []) ;;
  rstatus ← (if has_state_run cfg then ask (Do "state_run" []) else ret SWITCH_STATUS_SUCCESS);
  (if rstatus is SWITCH_STATUS_SUCCESS then run_hooks (state_run_hooks cfg) 0 else ret tt) ;;
  done ← run_state app_fuel state;
  if (done : bool) then ret true
  else check_presence ;; ret (state is CS_DESTROY).

Definition parse_all_events : M unit := call_out (Do "switch_ivr_parse_all_events" []).

(** The thread waits on its condition unless the state has changed meanwhile. *)
Definition sleep : M unit :=
  parse_all_events ;;
  parse_all_events ;;
  st ← get_state;
  running ← get_running_state;
  (if st is running then
     call_out (Do "switch_channel_state_thread_lock" []) ;;
     set_ch_flag CF_THREAD_SLEEPING ;;
     st ← get_state;
     running ← get_running_state;
     when (st is running) (parse_all_events ;; call_out (Do "switch_thread_cond_wait" [])) ;;
     clear_ch_flag CF_THREAD_SLEEPING ;;
     call_out (Do "switch_channel_state_thread_unlock" [])
   else ret tt) ;;
  parse_all_events ;;
  parse_all_events.

(** The end of a turn, with the count of turns that a channel may stay new. *)
Definition end_turn (app_fuel : nat) (new_loops : Z) : M Z :=
  endstate ← get_state;
  running ← get_running_state;
  if endstate is running then
    if endstate is CS_NEW then
      call_out (Yield 20000) ;;
      parse_all_events ;;
      let new_loops := u32 (new_loops - 1) in
      when (new_loops =? 0) (set_ch_flag CF_NO_CDR ;; hangup app_fuel SWITCH_CAUSE_WRONG_CALL_STATE) ;;
      ret new_loops
    else sleep ;; ret new_loops
  else ret new_loops.

(** The body of the loop behind the block, and one turn; [None] ends the loop. *)
Definition turn_rest (app_fuel : nat) (new_loops : Z) (state : switch_channel_state) : M (option Z) :=
  running ← get_running_state;
  done ← (if negb (state is running) || (cs CS_HANGUP <=? cs state)
          then enter_state app_fuel state else ret false);
  if (done : bool) then ret None
  else new_loops ← end_turn app_fuel new_loops; ret (Some new_loops).

Definition turn (app_fuel : nat) (new_loops : Z) : M (option Z) :=
  state ← get_state;
  if state is CS_DESTROY then ret None
  else
    block ← test_ch_flag CF_BLOCK_STATE;
    if block : bool then
      call_out (Do "switch_channel_wait_for_flag" ["CF_BLOCK_STATE"%string]) ;;
      state ← get_state;
      if state is CS_DESTROY then ret None else turn_rest app_fuel new_loops state
    else turn_rest app_fuel new_loops state.

Fixpoint run_loop (n app_fuel : nat) (new_loops : Z) : M unit :=
  match n with
  | O => out_of_fuel
  | S n =>
    r ← turn app_fuel new_loops;
    match r with None => ret tt | Some new_loops => run_loop n app_fuel new_loops end
  end.

Definition switch_core_session_run (n app_fuel : nat) : M unit :=
  modify (fun s => s <| ssf := set_flag (ssf s) SSF_THREAD_RUNNING |>) ;;
  run_loop n app_fuel 500 ;;
  modify (fun s => s <| ssf := clear_flag (ssf s) SSF_THREAD_RUNNING |>).

Definition switch_core_session_destroy_state : M unit :=
  set_callstate CCS_DOWN ;;
  on_channel (fun e ch => switch_channel_set_running_state e ch CS_DESTROY) ;;
  clear_ch_flag CF_TRANSFER ;;
  clear_ch_flag CF_REDIRECT ;;
  STATE_MACRO CS_DESTROY CS_DESTROY true switch_core_standard_on_destroy ;;
  call_out (Do "switch_channel_clear_device_record" []).
End StateMachine.
