(* ===== verification/SessionLife.v ===== *)
(** * The life of a session (theorems on [StateMachine])

    Relations between the states of a session before and after any run of its
    thread, finished or not, and what every step of the channel keeps; with them
    the calls of the endpoint's hangup handler are counted. *)
From stdpp Require Import strings.
From Stdlib Require Import String Ascii.
From S2P Require Import Prelude CStrings StringUtils Separator ChannelTypes Channel StateMachine.
Open Scope Z_scope.
Open Scope run_scope.
#[local] Notation length := List.length (only parsing).

(** ** More on the steps of a channel *)

Lemma kept_length keep l i n new : kept keep l i n = Ok new ->
  (length new <= n)%nat /\ (0 < Z.of_nat n -> 0 <= i /\ i + Z.of_nat n <= zlen l).
Proof.
  revert i new. induction n as [|n IH]; intros i new; cbn [kept]; [intros [= <-]; simpl; lia|].
  intros (h & H & (rest & R & [= <-])%outcome_bind_ok)%outcome_bind_ok.
  apply IH in R as [R1 R2]. unfold handler_at in H. destruct (Z.leb_spec 0 i) as [Hi|]; [|done].
  destruct (l !! Z.to_nat i) eqn:E; [|done]. apply lookup_lt_Some in E.
  split; [destruct (keep h); simpl; lia|]. intros _. destruct n; [lia|]. lia.
Qed.

(** What every step keeps: the size of the handler table and a proper state. *)
Definition sound (ch : switch_channel) : Prop :=
  length (state_handlers ch) = SWITCH_MAX_STATE_HANDLERS /\ state ch <> CS_NONE.

Lemma core_sound ch ch' : core ch ch' -> sound ch -> sound ch'.
Proof. intros [] [? ?]. destruct co_handlers as [E _]. split; congruence. Qed.

Lemma set_state_handlers e ch st ch' r : switch_channel_set_state e ch st = Ok (ch', r) ->
  state_handlers ch' = state_handlers ch.
Proof.
  unfold switch_channel_set_state. intros E. repeat (case_match; try done); injection E as <- _; done.
Qed.

Lemma step_sound s s' : Channel.step s s' -> sound (chan s) -> sound (chan s').
Proof.
  destruct 1; cbn [chan]; intros W; try exact W.
  - pose proof (set_state_handlers _ _ _ _ _ H) as Hh.
    assert (N : st <> CS_NONE) by (intros ->; done).
    apply set_state_cases in H as (_ & _ & _ & _ & [[E _]|(E & _)]); destruct W; split; congruence.
  - apply set_running_state_tail in H as (ch1 & -> & C & _). apply (core_sound _ _ C).
    destruct W as [W1 W2]. unfold deliver_state_flags. destruct (truth _); [|by split].
    destruct (deliver _ _). by split.
  - by apply (core_sound _ _ (set_flag_value_core _ _ _ _ _ H)).
  - by apply (core_sound _ _ (clear_flag_core _ _ _ _ H)).
  - apply (core_sound ch); [apply set_flag_recursive_core|done].
  - apply (core_sound ch); [apply clear_flag_recursive_core|done].
  - apply (core_sound ch); [by apply core_callstate_write|done].
  - by apply (core_sound _ _ (mark_hold_core _ _ _ _ H)).
  - by apply (core_sound _ _ H).
  - unfold switch_channel_set_direction. by destruct b.
  - unfold switch_channel_clear_app_flag_key. by repeat case_match.
  - unfold switch_channel_add_state_handler. repeat case_match; try done. destruct W. split; [|done].
    cbn [fst]. rupd. by rewrite length_insert.
  - apply outcome_bind_ok in H as (new & K & [= <-]). apply kept_length in K as [K1 K2].
    destruct W as [W1 W2]. split; [|done]. rupd. rewrite length_app, length_replicate. lia.
  - unfold hangup_begin. by destruct (negb _).
  - by apply (core_sound _ _ (hangup_unhold_core _ _ _ H)).
  - apply (core_sound ch); [apply hangup_end_hold_core|done].
  - by destruct W.
  - apply (core_sound ch); [apply hangup_report_core|done].
Qed.

Lemma steps_sound s s' : rtc Channel.step s s' -> sound (chan s) -> sound (chan s').
Proof. induction 1; [done|]. intros S. eauto using step_sound. Qed.

Lemma steps_settled s s' : rtc Channel.step s s' -> cs CS_HANGUP <= cs (state (chan s)) ->
  cs CS_HANGUP <= cs (state (chan s')) /\
  (none Decided (winners s) -> cs (state (chan s)) <= cs (state (chan s')) /\ none Decided (winners s')).
Proof.
  induction 1 as [s|x y z S _ IH]; intros L; [by split|].
  destruct (step_settled _ _ S L) as (L1 & D1 & _). destruct (IH L1) as (L2 & D2).
  split; [done|]. intros N. destruct (D1 N) as [? N1]. destruct (D2 N1). split; [lia|done].
Qed.

(** ** Runs

    [runs P I F m]: a run of [m] from a thread in [P] relates the threads before
    and after by [I] if it returns, and by [F] if it ends in another way. *)

Definition runs {A} (P : thread -> Prop) (I F : thread -> thread -> Prop) (m : M A) : Prop :=
  forall t, P t -> match m t with (t', Returned _) => I t t' | (t', _) => F t t' end.

Lemma bind_ok {A B} (m : M A) (f : A -> M B) t t' b :
  bind m f t = (t', Returned b) <-> exists t1 a, m t = (t1, Returned a) /\ f a t1 = (t', Returned b).
Proof.
  unfold bind. split.
  - destruct (m t) as [t1 [a| | |]]; try done. eauto.
  - intros (t1 & a & -> & E). done.
Qed.

Definition with_channel (t : thread) (ch : switch_channel) : thread :=
  mk_thread (ses t <| channel := ch |>) (log t).

(** What the relations have to allow for them to hold across runs. *)
Record closed (w : world) (P : thread -> Prop) (I F : thread -> thread -> Prop) : Prop := mk_closed {
  cl_preorder : PreOrder I;
  cl_keeps t t' : P t -> I t t' -> P t';
  cl_fail t t' : I t t' -> F t t';
  cl_then t1 t2 t3 : I t1 t2 -> F t2 t3 -> F t1 t3;
  cl_call c t : P t -> c <> DriverHandler CS_HANGUP -> I t (called w c t);
  cl_channel t ch' : (forall l, Channel.step (mk_sys (channel (ses t)) l) (mk_sys ch' l)) -> I t (with_channel t ch');
  cl_extension t x : I t (mk_thread (ses t <| caller_extension := x |>) (log t));
  cl_queue t x : I t (mk_thread (ses t <| queued_extension := x |>) (log t));
  cl_apps t ext app rest : default [] (extensions (ses t) !! ext) = app :: rest ->
    I t (mk_thread (ses t <| extensions := <[ext := rest]> (extensions (ses t)) |>) (log t));
  cl_running t (b : bool) :
    I t (mk_thread (ses t <| ssf := (if b then set_flag else clear_flag) (ssf (ses t)) SSF_THREAD_RUNNING |>) (log t))
}.

Section Runs.
Context (w : world) (cfg : setup) (P : thread -> Prop) (I F : thread -> thread -> Prop) (C : closed w P I F).
Notation runs := (runs P I F).
#[local] Set Default Proof Using "C".

Lemma closed_refl t : I t t.
Proof. pose proof (cl_preorder _ _ _ _ C). reflexivity. Qed.
Lemma closed_trans t1 t2 t3 : I t1 t2 -> I t2 t3 -> I t1 t3.
Proof. pose proof (cl_preorder _ _ _ _ C). apply transitivity. Qed.
#[local] Hint Resolve closed_refl : core.

Lemma runs_ret {A} (a : A) : runs (ret a).
Proof. intros t Ht. apply closed_refl. Qed.
(** A part of a run, and the rest from where it has come to. *)
Lemma runs_bind_at {A B} (m : M A) (f : A -> M B) t :
  match m t with (t', Returned _) => I t t' | (t', _) => F t t' end ->
  (forall t1 a, m t = (t1, Returned a) -> I t t1 ->
     match f a t1 with (t', Returned _) => I t1 t' | (t', _) => F t1 t' end) ->
  match bind m f t with (t', Returned _) => I t t' | (t', _) => F t t' end.
Proof.
  unfold bind. destruct (m t) as [t1 [a| | |]]; try done. intros H Hf. specialize (Hf t1 a eq_refl H).
  destruct (f a t1) as [t2 [b| | |]]; [by eapply closed_trans|by eapply (cl_then _ _ _ _ C)..].
Qed.
Lemma runs_bind {A B} (m : M A) (f : A -> M B) : runs m -> (forall a, runs (f a)) -> runs (bind m f).
Proof.
  intros Hm Hf t Ht. apply runs_bind_at; [by apply Hm|]. intros t1 a _ H. apply Hf.
  by apply (cl_keeps _ _ _ _ C t).
Qed.
Lemma runs_fuel {A} : runs (@out_of_fuel A).
Proof. intros t Ht. apply (cl_fail _ _ _ _ C), closed_refl. Qed.
Lemma runs_lift {A} (m : outcome A) : runs (lift m).
Proof. intros t Ht. unfold lift. destruct m; [|apply (cl_fail _ _ _ _ C)..]; apply closed_refl. Qed.
Lemma runs_get {A} (f : _ -> A) : runs (get f).
Proof. intros t Ht. apply closed_refl. Qed.
Lemma runs_answered {A} (f : _ -> A) : runs (answered f).
Proof. intros t Ht. apply closed_refl. Qed.
Lemma runs_modify f : (forall t, P t -> I t (mk_thread (f (ses t)) (log t))) -> runs (modify f).
Proof using Type. intros H t Ht. by apply H. Qed.
Lemma runs_peek {A} (f : switch_channel -> A) : runs (peek w f).
Proof. intros t Ht. by apply (cl_call _ _ _ _ C). Qed.
Lemma runs_call c : c <> DriverHandler CS_HANGUP -> runs (call_out w c).
Proof. intros N t Ht. by apply (cl_call _ _ _ _ C). Qed.

(** Operations of the channel that are steps. *)
Lemma runs_channel f :
  (forall e ch ch' l, f e ch = Ok ch' -> Channel.step (mk_sys ch l) (mk_sys ch' l)) -> runs (on_channel w f).
Proof.
  intros Hf t Ht. assert (V : I t (called w Interleave t)) by by apply (cl_call _ _ _ _ C).
  unfold on_channel, bind, call_out, answered, get, lift, modify.
  destruct (f _ _) as [ch'| |] eqn:E; [|by apply (cl_fail _ _ _ _ C)..].
  eapply closed_trans; [exact V|]. apply (cl_channel _ _ _ _ C (called w Interleave t) ch').
  intros l. by eapply Hf.
Qed.

Lemma runs_set_state st : runs (set_state w st).
Proof.
  apply runs_channel. intros e ch ch' l E.
  destruct (switch_channel_set_state e ch st) as [[ch1 r]| |] eqn:E'; try done. injection E as <-.
  by eapply st_set_state.
Qed.
Lemma runs_set_flag f : runs (set_ch_flag w f).
Proof. apply runs_channel. intros e ch ch' l E. by eapply st_set_flag. Qed.
Lemma runs_clear_flag f : runs (clear_ch_flag w f).
Proof. apply runs_channel. intros e ch ch' l E. by eapply st_clear_flag. Qed.
Lemma runs_callstate c : runs (set_callstate w c).
Proof.
  apply runs_bind; [apply runs_peek|]. intros o.
  destruct (_ || _) eqn:E; [apply runs_ret|]. apply orb_false_elim in E as [E1%bool_decide_eq_false E2%bool_decide_eq_false].
  apply runs_channel. intros e ch ch' l [= <-]. by apply st_callstate.
Qed.
Lemma runs_running st : runs (on_channel w (fun e ch => switch_channel_set_running_state e ch st)).
Proof. apply runs_channel. intros e ch ch' l E. by eapply st_running. Qed.
Lemma runs_unhold : runs (on_channel w hangup_unhold).
Proof. apply runs_channel. intros e ch ch' l E. by eapply st_hangup_unhold. Qed.

(** The next application of an extension. *)
Lemma runs_next_app {A} ext (stop : bool) (d d' : M A) (k : switch_caller_application -> M A) :
  runs d -> runs d' -> (forall app, runs (k app)) ->
  runs (bind (applications ext) (fun apps => match apps with
    | app :: rest => if stop then d' else bind (set_applications ext rest) (fun _ => k app)
    | [] => d end)).
Proof.
  intros Hd Hd' Hk t Ht. apply runs_bind_at; [apply closed_refl|]. intros t1 apps [= <- <-] _.
  destruct (default [] (extensions (ses t) !! ext)) as [|app rest] eqn:L; [by apply Hd|].
  destruct stop; [by apply Hd'|].
  assert (V : I t (mk_thread (ses t <| extensions := <[ext := rest]> (extensions (ses t)) |>) (log t)))
    by (by eapply (cl_apps _ _ _ _ C)).
  apply runs_bind_at; [exact V|]. intros t1 [] [= <-] _. apply Hk. by apply (cl_keeps _ _ _ _ C t).
Qed.

(** The rest is composition. *)
Ltac runs1 :=
  match goal with
  | |- runs (bind _ _) => apply runs_bind; [|intros ?]
  | |- runs (ret _) => apply runs_ret
  | |- runs out_of_fuel => apply runs_fuel
  | |- runs (lift _) => apply runs_lift
  | |- runs (get _) => apply runs_get
  | |- runs (answered _) => apply runs_answered
  | |- runs (call_out _ _) => apply runs_call; done
  | |- runs (set_state _ _) => apply runs_set_state
  | |- runs (set_ch_flag _ _) => apply runs_set_flag
  | |- runs (clear_ch_flag _ _) => apply runs_clear_flag
  | |- runs (set_callstate _ _) => apply runs_callstate
  | |- runs (when ?b _) => destruct b; unfold when
  | |- runs (if ?b then _ else _) => destruct b
  | |- runs (match ?x with _ => _ end) => destruct x
  | |- runs (let '(_, _) := ?x in _) => destruct x
  | |- runs (test_ch_flag _ _) => unfold test_ch_flag
  | |- runs (peek _ _) => unfold peek
  | |- runs (get_state _) => unfold get_state
  | |- runs (get_running_state _) => unfold get_running_state
  | |- runs (get_variable _ _) => unfold get_variable
  | |- runs (ask _ _) => unfold ask
  | |- runs (ask_yes _ _) => unfold ask_yes
  | |- runs (get_caller_extension _) => unfold get_caller_extension
  | |- runs (get_app_handler _) => unfold get_app_handler
  | |- runs (get_core_handler _) => unfold get_core_handler
  | |- runs (channel_up _) => unfold channel_up
  | |- runs (channel_ready _) => unfold channel_ready
  | |- runs (set_variable _ _ _) => unfold set_variable
  | |- runs (execute_application _ _) => unfold execute_application
  | |- runs (parse_all_events _) => unfold parse_all_events
  end.
Ltac runs := repeat runs1; auto.

Lemma runs_app_handlers n pre k i p : runs (app_handlers w cfg n pre k i p).
Proof. revert i p. induction n as [|n IH]; intros i p; cbn [app_handlers]; runs. Qed.
Lemma runs_core_handlers n pre k i p : runs (core_handlers_loop w cfg n pre k i p).
Proof. revert i p. induction n as [|n IH]; intros i p; cbn [core_handlers_loop]; runs. Qed.

Lemma runs_before k st ex : runs (before_driver w cfg k st ex).
Proof.
  unfold before_driver. cbv zeta.
  repeat first [simple apply runs_app_handlers|simple apply runs_core_handlers|runs1].
Qed.
Lemma runs_after k st ex std g p : runs std -> runs (after_driver w cfg k st ex std g p).
Proof.
  intros Hs. unfold after_driver. cbv zeta.
  repeat first [simple apply runs_app_handlers|simple apply runs_core_handlers|exact Hs|runs1].
Qed.
Lemma runs_macro_gen k st ex std : runs (ask w (DriverHandler k)) -> runs std ->
  runs (STATE_MACRO w cfg k st ex std).
Proof.
  intros Hd Hs. unfold STATE_MACRO, driver_call.
  repeat first [simple apply runs_before|simple apply runs_after|exact Hd|exact Hs|runs1].
Qed.
Lemma runs_macro k st ex std : k <> CS_HANGUP -> runs std -> runs (STATE_MACRO w cfg k st ex std).
Proof. intros N Hs. apply runs_macro_gen; [|done]. unfold ask. apply runs_bind; [apply runs_call; congruence|intros; runs]. Qed.

Lemma runs_zombie n ext : runs (zombie_exec w n ext).
Proof. induction n as [|n IH]; cbn [zombie_exec]; [runs|]. apply (runs_next_app ext false _ (ret tt)); intros; runs. Qed.

Lemma runs_on_hangup n : runs (switch_core_standard_on_hangup w n).
Proof. unfold switch_core_standard_on_hangup. repeat first [simple apply runs_zombie|runs1]. Qed.

Lemma runs_state_hook name : runs (state_hook w name).
Proof. unfold state_hook, api_hook. runs. Qed.

Lemma runs_xml : runs (attach_xml_cdr w).
Proof. unfold attach_xml_cdr. runs. Qed.
Lemma runs_cdr_wanted v : runs (cdr_wanted w v).
Proof. unfold cdr_wanted. runs. Qed.

Lemma runs_reporting_state : runs (switch_core_session_reporting_state w cfg).
Proof.
  unfold switch_core_session_reporting_state.
  repeat first [simple apply runs_macro; [done|]|simple apply runs_state_hook|simple apply runs_cdr_wanted|simple apply runs_xml|runs1].
  unfold switch_core_standard_on_reporting. runs.
Qed.

(** [switch_core_session_hangup_state], for relations that allow the endpoint's
    hangup handler and the mark that it has been called. *)
Lemma runs_hangup_state n force own :
  (forall t, P t -> I t (called w (DriverHandler CS_HANGUP) t)) ->
  (forall t, P t -> I t (mk_thread (ses t <| ssf := set_flag (ssf (ses t)) SSF_HANGUP |>) (log t))) ->
  runs (switch_core_session_hangup_state w cfg n force own).
Proof.
  intros Hd Hm. unfold switch_core_session_hangup_state, hangup_handlers.
  repeat first [simple apply runs_macro_gen|simple apply runs_on_hangup|simple apply runs_state_hook|runs1].
  - intros t Ht. by apply Hd.
  - by apply runs_modify.
Qed.

(** The parts that hang up relate the threads by the end. *)
#[local] Set Default Proof Using "All".
Context (I_hangup : forall n cause, runs (hangup w cfg n cause)).

Lemma runs_locate n u : runs (locate_other w n u).
Proof. induction n as [|n IH]; cbn [locate_other]; runs. Qed.
Lemma runs_on_reset : runs (switch_core_standard_on_reset w).
Proof. unfold switch_core_standard_on_reset. repeat first [simple apply runs_locate|runs1]. Qed.
Lemma runs_on_init : runs (switch_core_standard_on_init w).
Proof. unfold switch_core_standard_on_init. runs. Qed.
Lemma runs_set_extension ext : runs (set_caller_extension w ext).
Proof.
  unfold set_caller_extension. repeat runs1. apply runs_modify. intros. apply (cl_extension _ _ _ _ C).
Qed.
Lemma runs_hunt dps c : runs (hunt w dps c).
Proof. revert c. induction dps as [|dp dps IH]; intros c; cbn [hunt]; runs. Qed.
Lemma runs_on_routing n : runs (switch_core_standard_on_routing w cfg n).
Proof.
  unfold switch_core_standard_on_routing.
  repeat first [simple apply runs_hunt|simple apply runs_set_extension|simple apply I_hangup|simple apply runs_modify; intros; apply (cl_queue _ _ _ _ C)|runs1].
Qed.
Lemma runs_execute_loop n m ext : runs (execute_loop w cfg n m ext).
Proof.
  revert ext. induction n as [|n IH]; intros ext; cbn [execute_loop]; [runs|].
  apply runs_bind; [runs|]. intros st. apply runs_next_app; intros; repeat first [simple apply I_hangup|simple apply IH|runs1].
Qed.
Lemma runs_blind : runs (blind_transfer_response w).
Proof. unfold blind_transfer_response. runs. Qed.
Lemma runs_on_execute n : runs (switch_core_standard_on_execute w cfg n).
Proof.
  unfold switch_core_standard_on_execute.
  repeat first [simple apply runs_execute_loop|simple apply runs_blind|simple apply I_hangup|runs1].
Qed.
Lemma runs_hooks n i : runs (run_hooks w n i).
Proof. revert i. induction n as [|n IH]; intros i; cbn [run_hooks]; runs. Qed.
Lemma runs_check_presence : runs (check_presence w).
Proof. unfold check_presence. runs. Qed.
Lemma runs_sleep : runs (sleep w).
Proof. unfold sleep. runs. Qed.

(** The forced call of the hangup handlers is made in [CS_HANGUP] only. *)
Lemma runs_run_state n st :
  (st = CS_HANGUP -> runs (switch_core_session_hangup_state w cfg n true true)) -> runs (run_state w cfg n st).
Proof.
  intros Hh. destruct st; cbn [run_state];
    repeat first [by apply Hh|simple apply runs_reporting_state|simple apply runs_macro; [done|]
      |simple apply runs_on_init|simple apply runs_on_routing|simple apply runs_on_reset|simple apply runs_on_execute|runs1];
    unfold switch_core_standard_on_exchange_media, switch_core_standard_on_soft_execute,
      switch_core_standard_on_park, switch_core_standard_on_consume_media,
      switch_core_standard_on_hibernate; runs.
Qed.

Lemma runs_enter_state n st :
  (st = CS_HANGUP -> runs (switch_core_session_hangup_state w cfg n true true)) -> runs (enter_state w cfg n st).
Proof.
  intros Hh. unfold enter_state.
  repeat first [simple apply runs_running|simple apply runs_hooks|simple apply runs_run_state; exact Hh|simple apply runs_check_presence|runs1].
Qed.
Lemma runs_end_turn n l : runs (end_turn w cfg n l).
Proof. unfold end_turn. cbv zeta. repeat first [simple apply I_hangup|simple apply runs_sleep|runs1]. Qed.

(** The rest of a turn, once the state has been read. *)
Lemma runs_turn_rest n st l :
  (st = CS_HANGUP -> runs (switch_core_session_hangup_state w cfg n true true)) -> runs (turn_rest w cfg n l st).
Proof.
  intros Hh. unfold turn_rest. apply runs_bind; [runs|]. intros running.
  apply runs_bind; [destruct (_ || _); [by apply runs_enter_state|runs]|]. intros []; [runs|].
  apply runs_bind; [apply runs_end_turn|intros l'; runs].
Qed.
End Runs.

(** The channel has been hung up. *)
Definition hung_up (t : thread) : Prop := cs CS_HANGUP <= cs (state (channel (ses t))).

(** Turns, for relations that hold of runs from any thread, and of the forced
    call of the hangup handlers from one that has been hung up. *)
Section Turns.
Context (w : world) (cfg : setup) (I F : thread -> thread -> Prop).
Context (C : closed w (fun _ => True) I F) (CL : closed w hung_up I F).
Context (I_hangup : forall n cause, runs (fun _ => True) I F (hangup w cfg n cause)).
Context (I_hangup_late : forall n cause, runs hung_up I F (hangup w cfg n cause)).
Context (I_forced : forall n, runs hung_up I F (switch_core_session_hangup_state w cfg n true true)).
#[local] Set Default Proof Using "All".

Lemma runs_from_state {A} (k : switch_channel_state -> M A) :
  (forall st, st <> CS_HANGUP -> runs (fun _ => True) I F (k st)) -> runs hung_up I F (k CS_HANGUP) ->
  runs (fun _ => True) I F (bind (get_state w) k).
Proof.
  intros Hk Hh t Ht. eapply runs_bind_at; [exact C|by apply (runs_peek w _ _ _ C)|].
  intros t1 st E _. assert (state (channel (ses t1)) = st) as <- by (by injection E as <- <-).
  destruct (decide (state (channel (ses t1)) = CS_HANGUP)) as [N|N].
  - rewrite N. apply Hh. unfold hung_up. by rewrite N.
  - by apply Hk.
Qed.

Lemma runs_turn n l : runs (fun _ => True) I F (turn w cfg n l).
Proof.
  unfold turn. apply runs_from_state.
  - intros st N. destruct (st is CS_DESTROY); [by eapply runs_ret|].
    eapply runs_bind; [exact C|by apply (runs_peek w _ _ _ C)|]. intros [].
    + eapply runs_bind; [exact C|by apply (runs_call w _ _ _ C)|]. intros []. apply runs_from_state.
      * intros st' N'. destruct (st' is CS_DESTROY); [by eapply runs_ret|]. by apply runs_turn_rest.
      * rewrite bool_decide_eq_false_2 by done. by apply runs_turn_rest.
    + by apply runs_turn_rest.
  - rewrite bool_decide_eq_false_2 by done.
    eapply runs_bind; [exact CL|by apply (runs_peek w _ _ _ CL)|]. intros [].
    + intros t _. eapply runs_bind_at; [exact C|by apply (runs_call w _ _ _ C)|]. intros t1 [] _ _.
      apply runs_from_state; [| |done].
      * intros st' N'. destruct (st' is CS_DESTROY); [by eapply runs_ret|]. by apply runs_turn_rest.
      * rewrite bool_decide_eq_false_2 by done. by apply runs_turn_rest.
    + by apply runs_turn_rest.
Qed.
Lemma runs_loop n m l : runs (fun _ => True) I F (run_loop w cfg n m l).
Proof.
  revert l. induction n as [|n IH]; intros l; cbn [run_loop]; [by apply (runs_fuel w _ _ _ C)|].
  eapply runs_bind; [exact C|apply runs_turn|]. intros [l'|]; [apply IH|by eapply runs_ret].
Qed.
Lemma runs_session n m : runs (fun _ => True) I F (switch_core_session_run w cfg n m).
Proof.
  unfold switch_core_session_run.
  eapply runs_bind; [exact C|apply runs_modify; intros t _; apply (cl_running _ _ _ _ C t true)|]. intros [].
  eapply runs_bind; [exact C|apply runs_loop|]. intros [].
  apply runs_modify. intros t _. apply (cl_running _ _ _ _ C t false).
Qed.
End Turns.

(** ** What other threads and callees may do *)

(** Other threads, handlers and applications act on the channel by steps of its
    transition system. *)
Definition tame (w : world) : Prop := forall l s,
  rtc Channel.step (mk_sys (channel s) (others s)) (mk_sys (channel (act w l s)) (others (act w l s))).

Lemma tame_late w c t : tame w -> hung_up t -> hung_up (called w c t).
Proof. intros Hw L. by apply (steps_settled _ _ (Hw (c :: log t) (ses t))). Qed.

(** ** The hangup handler is called once *)

(** How often the endpoint's hangup handler is among the calls. *)
Fixpoint driver_hangups (l : list call) : nat :=
  match l with
  | [] => 0
  | DriverHandler CS_HANGUP :: l => S (driver_hangups l)
  | _ :: l => driver_hangups l
  end.

Lemma driver_hangups_cons c l : c <> DriverHandler CS_HANGUP -> driver_hangups (c :: l) = driver_hangups l.
Proof. intros N. destruct c as [| | |[]| | | | | |]; done. Qed.
Lemma driver_hangups_app l1 l2 : driver_hangups (l1 ++ l2) = (driver_hangups l1 + driver_hangups l2)%nat.
Proof. induction l1 as [|[| | |[]| | | | | |] l1 IH]; simpl; lia. Qed.

Lemma test_flag_set x f : 0 < f -> test_flag (set_flag x f) f = true.
Proof.
  intros H. unfold test_flag, set_flag. rewrite Z.land_lor_distr_l, Z.land_diag.
  destruct (Z.eqb_spec (Z.lor (Z.land x f) f) 0) as [E|]; [|done].
  apply Z.lor_eq_0_iff in E as [_ E]. lia.
Qed.

(** The calls that the mark [SSF_HANGUP] leaves to be made. *)
Definition calls_left (s : switch_core_session) : nat := if test_flag (ssf s) SSF_HANGUP then 0 else 1.

(** What a callee does in the session's thread about hanging up: the handler is
    called only for a mark that is set for it, nobody takes the mark back, and
    a channel that has been hung up is not hung up by the callee. *)
Record hangs_up_once (w : world) : Prop := mk_hangs_up_once {
  ho_left l s : (driver_hangups (inner w l s) + calls_left (act w l s) <= calls_left s)%nat;
  ho_late l s : cs CS_HANGUP <= cs (state (channel s)) -> driver_hangups (inner w l s) = 0%nat
}.

(** Calls made between two threads are covered by the mark. *)
Definition once (t t' : thread) : Prop :=
  (driver_hangups (log t') + calls_left (ses t') <= driver_hangups (log t) + calls_left (ses t))%nat /\
  (hung_up t -> hung_up t').
Definition once_cut (t t' : thread) : Prop :=
  (driver_hangups (log t') <= driver_hangups (log t) + calls_left (ses t))%nat.
(** At most [n] more calls. *)
Definition more_cut (n : nat) (t t' : thread) : Prop := (driver_hangups (log t') <= driver_hangups (log t) + n)%nat.
Definition more (n : nat) (t t' : thread) : Prop := more_cut n t t' /\ (hung_up t -> hung_up t').
(** And the mark is set by the end. *)
Definition marked (n : nat) (t t' : thread) : Prop := more n t t' /\ calls_left (ses t') = 0%nat.

#[export] Instance once_preorder : PreOrder once.
Proof. unfold once. split; [intros t; by split|intros t1 t2 t3 [] []; split; [lia|auto]]. Qed.
#[export] Instance more_preorder : PreOrder (more 0).
Proof. unfold more, more_cut. split; [intros t; split; [lia|done]|intros t1 t2 t3 [] []; split; [lia|auto]]. Qed.

Lemma hung_running (b : bool) x :
  test_flag ((if b then set_flag else clear_flag) x SSF_THREAD_RUNNING) SSF_HANGUP = test_flag x SSF_HANGUP.
Proof.
  unfold test_flag, set_flag, clear_flag. do 2 f_equal. apply Z.bits_inj'. intros n Hn.
  destruct b; rewrite !Z.land_spec, ?Z.lor_spec, ?Z.land_spec, ?Z.lnot_spec by done;
    destruct (decide (n = 2)) as [-> | N]; [by rewrite ?orb_false_r, ?andb_true_r| |by rewrite ?andb_true_r|].
  all: change SSF_HANGUP with (2 ^ 2); rewrite (Z.pow2_bits_false 2 n) by done; by rewrite !andb_false_r.
Qed.

Section Once.
Context (w : world) (cfg : setup) (Ht : tame w) (Hw : hangs_up_once w).
#[local] Set Default Proof Using "All".

Lemma once_same t s : ssf s = ssf (ses t) -> channel s = channel (ses t) -> once t (mk_thread s (log t)).
Proof. intros E1 E2. unfold once, calls_left, hung_up. cbn [ses log]. by rewrite E1, E2. Qed.

Lemma once_call c t : c <> DriverHandler CS_HANGUP -> once t (called w c t).
Proof.
  intros N. split; [|by apply tame_late]. unfold called. cbn [ses log].
  rewrite driver_hangups_cons, driver_hangups_app by done. pose proof (ho_left _ Hw (c :: log t) (ses t)). lia.
Qed.

Lemma once_channel t ch' : (forall l, Channel.step (mk_sys (channel (ses t)) l) (mk_sys ch' l)) -> once t (with_channel t ch').
Proof.
  intros S. split; [done|]. intros L. unfold hung_up, with_channel. cbn [ses]. rupd.
  by apply (step_settled _ _ (S [])).
Qed.

(** From any thread, or from those in a set that [once] keeps. *)
Lemma once_closed P : (forall t t', P t -> once t t' -> P t') -> closed w P once once_cut.
Proof.
  intros HP. constructor; [typeclasses eauto|done|..].
  - intros t t' [H _]. unfold once_cut. lia.
  - intros t1 t2 t3 [H _] K. unfold once_cut in *. lia.
  - intros c t _. apply once_call.
  - intros t ch'. apply once_channel.
  - intros. by apply once_same.
  - intros. by apply once_same.
  - intros. by apply once_same.
  - intros t b. split; [|done]. unfold calls_left. cbn [ses log]. rupd. by rewrite hung_running.
Qed.
Lemma once_any : closed w (fun _ => True) once once_cut.
Proof. by apply once_closed. Qed.
Lemma once_late : closed w hung_up once once_cut.
Proof. apply once_closed. intros t t' L [_ H]. by apply H. Qed.

Lemma more_same t s : channel s = channel (ses t) -> more 0 t (mk_thread s (log t)).
Proof. intros E. unfold more, more_cut, hung_up. cbn [ses log]. rewrite E. split; [lia|done]. Qed.

(** In a channel that has been hung up callees do not call it. *)
Lemma more_call c t n : hung_up t -> (driver_hangups [c] <= n)%nat -> more n t (called w c t).
Proof.
  intros L N. split; [|intros _; by apply tame_late]. unfold more_cut, called. cbn [log].
  change (c :: ?l) with ([c] ++ l). rewrite !driver_hangups_app, (ho_late _ Hw _ _ L). lia.
Qed.

Lemma more_closed : closed w hung_up (more 0) (more_cut 0).
Proof.
  constructor; [typeclasses eauto|..].
  - intros t t' L [_ H]. by apply H.
  - by intros t t' [H _].
  - intros t1 t2 t3 [H _]. unfold more_cut in *. lia.
  - intros c t L N. apply more_call; [done|]. by rewrite driver_hangups_cons.
  - intros t ch' S. split; [unfold more_cut, with_channel; cbn [log]; lia|]. by apply (once_channel t ch' S).
  - intros. by apply more_same.
  - intros. by apply more_same.
  - intros. by apply more_same.
  - intros. by apply more_same.
Qed.

Lemma more_then {A B} n n' (m : M A) (f : A -> M B) :
  runs hung_up (more n) (more_cut n) m -> (forall a, runs hung_up (more n') (more_cut n') (f a)) ->
  runs hung_up (more (n + n')) (more_cut (n + n')) (bind m f).
Proof.
  intros Hm Hf t L. specialize (Hm t L). unfold bind. destruct (m t) as [t1 [a| | |]];
    [|unfold more_cut in *; lia..].
  destruct Hm as [H1 L1]. specialize (Hf a t1 (L1 L)).
  destruct (f a t1) as [t2 [b| | |]]; [destruct Hf as [H2 L2]; split; [|auto]|..]; unfold more_cut in *; lia.
Qed.

Lemma more_macro st ex std : runs hung_up (more 0) (more_cut 0) std ->
  runs hung_up (more 1) (more_cut 1) (STATE_MACRO w cfg CS_HANGUP st ex std).
Proof.
  intros Hs. pose proof more_closed as C. unfold STATE_MACRO.
  apply (more_then 0 1); [by apply (runs_before w _ _ _ _ C)|]. intros r.
  apply (more_then 1 0).
  - unfold driver_call. destruct (on_state _ _).
    + intros t L. by apply more_call.
    + intros t L. split; [|done]. unfold more_cut. lia.
  - intros r'. destruct (r' is _); [by apply (runs_after w _ _ _ _ C)|by apply (runs_ret w _ _ _ C)].
Qed.

Lemma marked_then {A B} n n' (m : M A) (f : A -> M B) :
  runs hung_up (more n) (more_cut n) m -> (forall a, runs hung_up (marked n') (more_cut n') (f a)) ->
  runs hung_up (marked (n + n')) (more_cut (n + n')) (bind m f).
Proof.
  intros Hm Hf t L. specialize (Hm t L). unfold bind. destruct (m t) as [t1 [a| | |]];
    [|unfold more_cut in *; lia..].
  destruct Hm as [H1 L1]. specialize (Hf a t1 (L1 L)).
  destruct (f a t1) as [t2 [b| | |]]; [destruct Hf as [[H2 L2] M2]; repeat split; [|by auto|done]|..];
    unfold more_cut in *; lia.
Qed.

Lemma marked_handlers n st cause : runs hung_up (marked 1) (more_cut 1) (hangup_handlers w cfg n st cause).
Proof.
  pose proof more_closed as C. unfold hangup_handlers, set_variable.
  do 6 (apply (marked_then 0 1); [by apply (runs_call w _ _ _ C)|intros _]).
  apply (marked_then 0 1); [by apply (runs_callstate w _ _ _ C)|]. intros _.
  apply (marked_then 1 0); [by apply more_macro, (runs_on_hangup w _ _ _ C)|]. intros _.
  apply (marked_then 0 0); [by apply (runs_call w _ _ _ C)|]. intros _.
  apply (marked_then 0 0); [by apply (runs_state_hook w _ _ _ C)|]. intros _.
  apply (marked_then 0 0); [by apply (runs_call w _ _ _ C)|]. intros _.
  intros t L. split; [split; [unfold more_cut; simpl; lia|done]|]. unfold calls_left. cbn [ses]. rupd.
  by rewrite test_flag_set.
Qed.

Lemma once_hangup_state n force own : runs hung_up once once_cut (switch_core_session_hangup_state w cfg n force own).
Proof.
  pose proof once_late as C. unfold switch_core_session_hangup_state.
  apply (runs_bind w _ _ _ C); [by apply (runs_peek w _ _ _ C)|]. intros cause.
  apply (runs_bind w _ _ _ C); [by apply (runs_peek w _ _ _ C)|]. intros st.
  apply (runs_bind w _ _ _ C); [destruct force; [by apply (runs_ret w _ _ _ C)|by apply (runs_peek w _ _ _ C)]|]. intros early.
  destruct (_ && _); [by apply (runs_ret w _ _ _ C)|].
  intros t L. unfold bind, get. destruct (test_flag (ssf (ses t)) SSF_HANGUP) eqn:Hh; [split; [lia|done]|].
  assert (E : calls_left (ses t) = 1%nat) by (unfold calls_left; by rewrite Hh).
  pose proof (marked_handlers n st cause t L) as K. unfold once, once_cut.
  destruct (hangup_handlers _ _ _ _ _ _) as [t' [[]| | |]]; [destruct K as [[K L'] M]; split; [|done]|..];
    unfold more_cut in K; lia.
Qed.

(** The parts of a hangup that are no steps by themselves. *)
Lemma once_write f t : (hung_up t -> cs CS_HANGUP <= cs (state (f (channel (ses t))))) ->
  once t (with_channel t (f (channel (ses t)))).
Proof. intros H. split; [done|exact H]. Qed.

Lemma once_on_channel P f : (forall t t', P t -> once t t' -> P t') ->
  (forall ch, cs CS_HANGUP <= cs (state ch) -> cs CS_HANGUP <= cs (state (f ch))) ->
  runs P once once_cut (on_channel w (fun _ ch => Ok (f ch))).
Proof.
  intros HP H t Hp. change (once t (with_channel (called w Interleave t) (f (channel (ses (called w Interleave t)))))).
  etrans; [by apply (once_call Interleave)|]. apply once_write. apply H.
Qed.

(** The channel has been hung up when the handlers are called. *)
Lemma once_hangup_tail n cause : runs (fun _ => True) once once_cut
  (bind (on_channel w (fun _ ch => Ok (hangup_enter ch))) (fun _ =>
   bind (on_channel w (fun _ ch => Ok (hangup_mark ch cause))) (fun _ =>
   bind (on_channel w (fun e ch => Ok (hangup_report e ch cause))) (fun _ =>
   bind (on_channel w (fun _ ch => Ok (hangup_event ch cause))) (fun _ =>
     switch_core_session_hangup_state w cfg n false true))))).
Proof.
  intros t _. eapply runs_bind_at; [exact once_any|by apply (once_on_channel (fun _ => True))|].
  intros t1 [] [= <-] _. set (t1 := mk_thread _ _). assert (L : hung_up t1) by by subst t1.
  clearbody t1. revert t1 L. pose proof once_late as C.
  apply (runs_bind w _ _ _ C); [apply once_on_channel; [apply (cl_keeps _ _ _ _ C)|done]|]. intros [].
  apply (runs_bind w _ _ _ C).
  { apply (runs_channel w _ _ _ C). intros e ch ch' l [= <-]. apply st_hangup_report. }
  intros []. apply (runs_bind w _ _ _ C); [apply once_on_channel; [apply (cl_keeps _ _ _ _ C)|done]|]. intros [].
  apply once_hangup_state.
Qed.

Lemma once_hangup n cause : runs (fun _ => True) once once_cut (hangup w cfg n cause).
Proof.
  pose proof once_any as C. unfold hangup.
  apply (runs_bind w _ _ _ C); [by apply (runs_call w _ _ _ C)|]. intros []. intros t _.
  eapply runs_bind_at; [exact C|by apply (runs_get w _ _ _ C)|]. intros t1 ch [= <- <-] _.
  destruct (hangup_begin (channel (ses t))) as [ch1 ok] eqn:B.
  eapply runs_bind_at; [exact C|..].
  { apply (once_write (fun _ => ch1)). intros L. unfold hangup_begin in B. destruct (negb _); by injection B as <- _. }
  intros t1 [] _ _. revert t1. cut (runs (fun _ => True) once once_cut
    (bind (on_channel w hangup_unhold) (fun _ => if negb ok then ret tt else
      bind (clear_ch_flag w CF_BLOCK_STATE) (fun _ => bind (peek w hangup_live) (fun live =>
        if negb live then ret tt else bind (on_channel w (fun e ch => Ok (hangup_end_hold e ch))) (fun _ =>
          bind (on_channel w (fun _ ch => Ok (hangup_enter ch))) (fun _ =>
           bind (on_channel w (fun _ ch => Ok (hangup_mark ch cause))) (fun _ =>
           bind (on_channel w (fun e ch => Ok (hangup_report e ch cause))) (fun _ =>
           bind (on_channel w (fun _ ch => Ok (hangup_event ch cause))) (fun _ =>
             switch_core_session_hangup_state w cfg n false true))))))))));
    [intros H t1; by apply H|].
  apply (runs_bind w _ _ _ C); [by apply (runs_unhold w _ _ _ C)|]. intros [].
  destruct (negb ok); [by apply (runs_ret w _ _ _ C)|].
  apply (runs_bind w _ _ _ C); [by apply (runs_clear_flag w _ _ _ C)|]. intros [].
  apply (runs_bind w _ _ _ C); [by apply (runs_peek w _ _ _ C)|]. intros live.
  destruct (negb live); [by apply (runs_ret w _ _ _ C)|].
  apply (runs_bind w _ _ _ C).
  { apply (runs_channel w _ _ _ C). intros e ch' ch2 l [= <-]. apply st_hangup_end_hold. }
  intros []. apply once_hangup_tail.
Qed.

Lemma once_session n m : runs (fun _ => True) once once_cut (switch_core_session_run w cfg n m).
Proof.
  apply (runs_session w cfg once once_cut once_any once_late).
  - apply once_hangup.
  - intros k cause t _. by apply once_hangup.
  - intros k. apply once_hangup_state.
Qed.
End Once.

(** C6. However far the thread of a session is watched, the endpoint's hangup
    handler has been called at most once in it, by the state machine or within
    the handlers and applications that it calls; not at all if the session was
    marked [SSF_HANGUP] to begin with.  That holds of runs that are cut off
    after any number of turns, of those that abort and of those that end; what is
    asked of the others is that they act on the channel by its operations, keep
    the mark, and call the handler in the session's thread only as
    [switch_channel_perform_hangup] does, for a live channel and setting the
    mark. *)
Theorem hangup_handler_once w cfg n m t :
  tame w -> hangs_up_once w -> log t = [] ->
  let t' := fst (switch_core_session_run w cfg n m t) in
  (driver_hangups (log t') <= if test_flag (ssf (ses t)) SSF_HANGUP then 0 else 1)%nat.
Proof.
  intros Ht Hw L. pose proof (once_session w cfg Ht Hw n m t I) as H. cbv zeta.
  unfold once, once_cut in H. rewrite L in H. fold (calls_left (ses t)).
  destruct (switch_core_session_run w cfg n m t) as [t' [[]| | |]]; simpl in *; lia.
Qed.

(** ** Witnesses *)

(** A quiet world. *)
Definition w_world : world :=
  mk_world (fun _ s => s) (fun _ _ => []) (fun _ => SWITCH_STATUS_SUCCESS) (fun _ => false) (fun _ => None)
    (fun _ => None) (fun _ => w_env).
(** Table 7 is called early; the endpoint has a handler for every state. *)
Definition w_setup : setup :=
  mk_setup (fun h => mk_table (fun _ => true) (if h =? 7 then SSH_FLAG_PRE_EXEC else 0)) (mk_table (fun _ => true) 0)
    true 1 false.
Definition w_session (ch : switch_channel) : switch_core_session :=
  mk_session ch [] 0 None None ∅ (mk_core_handlers (replicate SWITCH_MAX_STATE_HANDLERS 0) 0).
Definition w_thread (ch : switch_channel) : thread := mk_thread (w_session ch) [].

Lemma w_tame : tame w_world.
Proof. intros l s. reflexivity. Qed.

(** A world in which applications hang up a live channel that nobody has hung
    up, and the endpoint's handler is called early. *)
Definition w_hangs_up (l : list call) (s : switch_core_session) : bool :=
  match l with
  | Execute _ :: _ =>
    hangup_live (channel s) && negb (test_flag (opaque_flags (channel s)) OCF_HANGUP)
      && negb (test_flag (ssf s) SSF_HANGUP)
  | _ => false
  end.
Definition w_hung_channel (ch : switch_channel) : switch_channel :=
  hangup_event (hangup_mark (hangup_enter (fst (hangup_begin ch))) 16) 16.
Definition w_early : world :=
  mk_world
    (fun l s => if w_hangs_up l s
                then s <| channel := w_hung_channel (channel s) |> <| ssf := set_flag (ssf s) SSF_HANGUP |> else s)
    (fun l s => if w_hangs_up l s then [DriverHandler CS_HANGUP] else [])
    (fun _ => SWITCH_STATUS_SUCCESS) (fun _ => false) (fun _ => None) (fun _ => None) (fun _ => w_env).

Lemma w_early_tame : tame w_early.
Proof.
  intros l s. cbn [act w_early]. destruct (w_hangs_up l s) eqn:E; [|done]. rupd.
  assert (hangup_live (channel s) = true /\ test_flag (opaque_flags (channel s)) OCF_HANGUP = false) as [L O].
  { destruct l as [|[] l]; try done. unfold w_hangs_up in E. apply andb_prop in E as [[? ?%negb_true_iff]%andb_prop _]. done. }
  set (ch1 := fst (hangup_begin (channel s))).
  assert (snd (hangup_begin (channel s)) = true) as B by (unfold hangup_begin; by rewrite O).
  assert (hangup_live ch1 = true) as L1 by (subst ch1; unfold hangup_begin; by rewrite O).
  eapply rtc_l. { pose proof (st_hangup_begin 16 (channel s) [] (others s)) as S. rewrite B in S. exact S. }
  eapply rtc_l; [by apply (st_hangup_decide 16 ch1 [] (others s))|].
  eapply rtc_l; [apply (st_hangup_enter 16 ch1 [] (others s))|].
  eapply rtc_l; [apply (st_hangup_mark 16 (hangup_enter ch1) [] (others s))|].
  apply rtc_once. apply (st_hangup_event 16 (hangup_mark (hangup_enter ch1) 16) [] (others s)).
Qed.

Lemma w_early_once : hangs_up_once w_early.
Proof.
  constructor; intros l s; cbn [act inner w_early]; (destruct (w_hangs_up l s) eqn:E; [|done || (simpl; lia)]);
    destruct l as [|[] l]; try done; unfold w_hangs_up, hangup_live in E;
    apply andb_prop in E as [[L%Z.ltb_lt _]%andb_prop M%negb_true_iff].
  - unfold calls_left. rupd. rewrite M, test_flag_set by done. simpl. lia.
  - intros. lia.
Qed.

(** The only application of the extension hangs up, and the state machine finds
    the mark. *)
Definition w_one_app : thread :=
  let ch := new_channel <| state := CS_EXECUTE |> <| caller_profile := Some (mk_times 0 0) |> in
  mk_thread (mk_session ch [] 0 (Some 3) None {[3 := [mk_app "hangup" "16"]]}
    (mk_core_handlers (replicate SWITCH_MAX_STATE_HANDLERS 0) 0)) [].

Lemma hangup_handler_once_witness :
  driver_hangups (log (fst (switch_core_session_run w_early w_setup 4 2 w_one_app))) = 1%nat /\
  (driver_hangups (log (fst (switch_core_session_run w_early w_setup 4 2 w_one_app))) <= 1)%nat.
Proof.
  split; [vm_compute; reflexivity|].
  exact (hangup_handler_once w_early w_setup 4 2 w_one_app w_early_tame w_early_once eq_refl).
Defined.

(** [w_ended] is a channel that has been hung up: here the state machine makes
    the call. *)
Example hangup_handler_by_machine :
  driver_hangups (log (fst (switch_core_session_run w_world w_setup 3 1 (w_thread w_ended)))) = 1%nat.
Proof. vm_compute. reflexivity. Qed.
