(* ===== verification/SessionEnd.v ===== *)
(** * The end of a session (theorems on [StateMachine])

    Once a channel has been hung up its thread comes to an end: total
    correctness of the last states, for every [world] that leaves handler tables
    in one piece and does not feed applications for ever. *)
From stdpp Require Import strings.
From Stdlib Require Import String Ascii.
From S2P Require Import Prelude CStrings StringUtils Separator ChannelTypes Channel StateMachine SessionLife.
Open Scope Z_scope.
Open Scope run_scope.
#[local] Notation length := List.length (only parsing).

(** ** Total correctness *)

Definition hoare {A} (P : thread -> Prop) (m : M A) (Q : A -> thread -> Prop) : Prop :=
  forall t, P t -> exists t' a, m t = (t', Returned a) /\ Q a t'.

Lemma hoare_ret {A} (P : thread -> Prop) (a : A) (Q : A -> thread -> Prop) :
  (forall t, P t -> Q a t) -> hoare P (ret a) Q.
Proof. intros H t Ht. exists t, a. auto. Qed.

Lemma hoare_bind {A B} P (R : A -> thread -> Prop) (m : M A) (f : A -> M B) Q :
  hoare P m R -> (forall a, hoare (R a) (f a) Q) -> hoare P (bind m f) Q.
Proof.
  intros Hm Hf t Ht. destruct (Hm t Ht) as (t1 & a & E & H1). destruct (Hf a t1 H1) as (t' & b & E' & H').
  exists t', b. unfold bind. by rewrite E.
Qed.

Lemma hoare_conseq {A} (P P' : thread -> Prop) (m : M A) (Q Q' : A -> thread -> Prop) :
  hoare P' m Q' -> (forall t, P t -> P' t) -> (forall a t, Q' a t -> Q a t) -> hoare P m Q.
Proof. intros H HP HQ t Ht. destruct (H t (HP t Ht)) as (t' & a & E & H'). eauto. Qed.

Lemma hoare_pure {A} (P : thread -> Prop) (F : Prop) (m : M A) Q :
  (F -> hoare P m Q) -> hoare (fun t => F /\ P t) m Q.
Proof. intros H t [f Ht]. by apply H. Qed.

(** ** Sessions that have been hung up *)

(** What the world must not do for a session to end. *)
Record orderly (w : world) : Prop := mk_orderly {
  or_tame : tame w;
  or_runtime l s : length (rt_handlers (runtime s)) = SWITCH_MAX_STATE_HANDLERS ->
    length (rt_handlers (runtime (act w l s))) = SWITCH_MAX_STATE_HANDLERS;
  or_apps l s x : (length (default [] (extensions (act w l s) !! x)) <= length (default [] (extensions s !! x)))%nat;
  or_lists l c : exists b, cause_skipped (variable w l) c = Ok b
}.

Section Teardown.
Context (w : world) (cfg : setup) (Hw : orderly w) (app_fuel : nat).

(** The channel is in state number [k] or a later one, and no other thread is
    about to take it back to [CS_HANGUP]; tables are whole and the
    fuel is enough for the applications that are left. *)
Definition gone (k : Z) (t : thread) : Prop :=
  (k <= cs (state (channel (ses t))) /\ none Decided (others (ses t))) /\ sound (channel (ses t)) /\
  length (rt_handlers (runtime (ses t))) = SWITCH_MAX_STATE_HANDLERS /\
  (forall x, length (default [] (extensions (ses t) !! x)) < app_fuel)%nat.

Context (k : Z) (Hk : cs CS_HANGUP <= k).
Notation safe m := (hoare (gone k) m (fun _ => gone k)).
#[local] Set Default Proof Using "Type".

Lemma gone_act c t : gone k t -> gone k (called w c t).
Proof using Hw Hk.
  intros ((G & D) & S & R & A). pose proof (or_tame w Hw (c :: log t) (ses t)) as St.
  destruct (steps_settled _ _ St) as [_ K]; [cbn [chan]; lia|]. destruct (K D) as [K1 K2]. cbn [chan winners] in *.
  unfold gone, called. split_and!; cbn [ses].
  - lia.
  - done.
  - by apply (steps_sound _ _ St).
  - by apply (or_runtime w Hw).
  - intros x. pose proof (or_apps w Hw (c :: log t) (ses t) x). specialize (A x). lia.
Qed.

Lemma safe_call c : safe (call_out w c).
Proof using Hw Hk. intros t G. eexists _, tt. split; [done|]. by apply gone_act. Qed.

Lemma safe_answered {A} (f : list call -> A) : safe (answered f).
Proof. intros t G. by eexists _, _. Qed.

Lemma safe_bind {A B} (m : M A) (f : A -> M B) : safe m -> (forall a, safe (f a)) -> safe (bind m f).
Proof. apply hoare_bind. Qed.

Lemma safe_peek {A} (f : switch_channel -> A) :
  hoare (gone k) (peek w f) (fun a t => gone k t /\ a = f (channel (ses t))).
Proof using Hw Hk.
  apply (hoare_bind _ (fun _ => gone k)); [apply safe_call|]. intros [] t G. by eexists _, _.
Qed.

Lemma safe_peek' {A} (f : switch_channel -> A) : safe (peek w f).
Proof using Hw Hk. eapply hoare_conseq; [apply safe_peek|done|]. by intros a t [? _]. Qed.

(** Operations of the channel that succeed after a hangup. *)
Definition late (f : env -> switch_channel -> outcome switch_channel) (k' : Z) : Prop :=
  forall e ch, sound ch -> k <= cs (state ch) -> exists ch', f e ch = Ok ch' /\ sound ch' /\ k' <= cs (state ch').

Lemma hoare_channel f k' : late f k' -> hoare (gone k) (on_channel w f) (fun _ => gone k').
Proof using Hw Hk.
  intros Hf. apply (hoare_bind _ (fun _ => gone k)); [apply safe_call|]. intros [].
  apply (hoare_bind _ (fun _ => gone k)); [apply safe_answered|]. intros e t ((G & D) & S & R & A).
  destruct (Hf e (channel (ses t)) S G) as (ch' & E & S' & G').
  exists (with_channel t ch'), tt. unfold bind, get, lift. rewrite E. split; [done|].
  unfold gone, with_channel. cbn [ses]. rupd. done.
Qed.

Lemma late_core f : (forall e ch, exists ch', f e ch = Ok ch' /\ core ch ch') -> late f k.
Proof.
  intros H e ch S G. destruct (H e ch) as (ch' & E & C). exists ch'. split; [done|].
  split; [by eapply core_sound|]. by rewrite (co_state _ _ C).
Qed.

Lemma late_clear f : f <> CF_LEG_HOLDING -> late (fun e ch => switch_channel_clear_flag e ch f) k.
Proof.
  intros N. apply late_core. intros e ch.
  assert (exists ch', switch_channel_clear_flag e ch f = Ok ch') as [ch' E].
  { unfold switch_channel_clear_flag. rewrite (bool_decide_eq_false_2 (f = CF_LEG_HOLDING)) by done.
    cbn [andb]. by eexists. }
  exists ch'. split; [done|]. by apply (clear_flag_core e ch f).
Qed.

Lemma late_set f : f <> CF_LEG_HOLDING -> late (fun e ch => switch_channel_set_flag e ch f) k.
Proof.
  intros N. apply late_core. intros e ch.
  assert (exists ch', switch_channel_set_flag e ch f = Ok ch') as [ch' E].
  { unfold switch_channel_set_flag, switch_channel_set_flag_value.
    rewrite (bool_decide_eq_false_2 (f = CF_LEG_HOLDING)) by done. cbn [andb]. by eexists. }
  exists ch'. split; [done|]. by apply (set_flag_core e ch f).
Qed.

Lemma late_callstate o c : late (fun _ ch => Ok (callstate_write ch o c)) k.
Proof. apply late_core. intros e ch. eexists. split; [done|]. by apply core_callstate_write. Qed.

Lemma late_running st : late (fun e ch => switch_channel_set_running_state e ch st) k.
Proof.
  intros e ch S G.
  assert (exists ch', switch_channel_set_running_state e ch st = Ok ch') as [ch' E]
    by (unfold switch_channel_set_running_state; rewrite clear_tagged; by eexists).
  exists ch'. split; [done|]. split.
  - by apply (step_sound (mk_sys ch []) (mk_sys ch' [])); [by eapply st_running|].
  - by rewrite (sl_state _ _ (running_state_still _ _ _ _ E)).
Qed.

(** After a hangup every later state can be entered, and the others are ignored. *)
Lemma late_state st : cs st <= cs CS_DESTROY ->
  late (fun e ch => let* (ch, _) := switch_channel_set_state e ch st in Ok ch) (Z.max k (cs st)).
Proof using Hk.
  intros L e ch [S1 S2] G.
  assert (D : cs (state ch) <= cs CS_DESTROY) by (destruct (state ch); cbn in *; lia || done).
  destruct (switch_channel_set_state e ch st) as [[ch' r]| |] eqn:E.
  - exists ch'. split; [done|].
    split; [by apply (step_sound (mk_sys ch []) (mk_sys ch' [])); [by eapply st_set_state|]|].
    unfold switch_channel_set_state in E. rewrite careful_set_val in E.
    rewrite !(proj2 (Z.leb_le _ _)) in E by lia. cbn [negb andb] in E.
    destruct (decide (state ch = st)) as [Es|Ns].
    { rewrite bool_decide_eq_true_2 in E by done. injection E as <- <-. rewrite Es in G |- *. lia. }
    rewrite bool_decide_eq_false_2 in E by done.
    destruct (Z.ltb_spec (cs st) (cs (state ch))); [injection E as <- <-; lia|].
    destruct (state_change_ok (state ch) st) eqn:K.
    { injection E as <- <-. unfold emit. case_match; rupd; lia. }
    exfalso. destruct (state ch), st; cbn in *; try done; try lia; by apply Ns.
  - exfalso. unfold switch_channel_set_state in E. rewrite !(proj2 (Z.leb_le _ _)) in E by lia.
    cbn [negb andb] in E. repeat (case_match; try done).
  - exfalso. unfold switch_channel_set_state in E. repeat (case_match; try done).
Qed.

#[local] Set Default Proof Using "Hw Hk".

Lemma safe_ret {A} (a : A) : safe (ret a).
Proof. by apply hoare_ret. Qed.
Lemma safe_get {A} (f : switch_core_session -> A) : safe (get f).
Proof. intros t G. by eexists _, _. Qed.
Lemma safe_clear f : f <> CF_LEG_HOLDING -> safe (clear_ch_flag w f).
Proof. intros N. by apply hoare_channel, late_clear. Qed.
Lemma safe_set f : f <> CF_LEG_HOLDING -> safe (set_ch_flag w f).
Proof. intros N. by apply hoare_channel, late_set. Qed.
Lemma safe_callstate c : safe (set_callstate w c).
Proof.
  apply safe_bind; [apply safe_peek'|]. intros o. destruct (_ || _); [apply safe_ret|].
  apply hoare_channel, late_callstate.
Qed.
Lemma safe_running st : safe (on_channel w (fun e ch => switch_channel_set_running_state e ch st)).
Proof. apply hoare_channel, late_running. Qed.
Lemma hoare_state st : cs st <= cs CS_DESTROY ->
  hoare (gone k) (set_state w st) (fun _ => gone (Z.max k (cs st))).
Proof. intros L. by apply hoare_channel, late_state. Qed.
(** A change of the session's other fields. *)
Lemma safe_modify f :
  (forall s, channel (f s) = channel s /\ others (f s) = others s /\ runtime (f s) = runtime s /\ extensions (f s) = extensions s) ->
  safe (modify f).
Proof.
  intros H t (G & S & R & A). eexists _, tt. split; [done|]. destruct (H (ses t)) as (E1 & E2 & E3 & E4).
  unfold gone. cbn [ses]. by rewrite E1, E2, E3, E4.
Qed.

Ltac safe1 :=
  match goal with
  | |- safe (bind _ _) => simple apply safe_bind; [|intros ?]
  | |- safe (ret _) => simple apply safe_ret
  | |- safe (get _) => simple apply safe_get
  | |- safe (answered _) => simple apply safe_answered
  | |- safe (call_out _ _) => simple apply safe_call
  | |- safe (peek _ _) => simple apply safe_peek'
  | |- safe (set_ch_flag _ _) => simple apply safe_set; done
  | |- safe (clear_ch_flag _ _) => simple apply safe_clear; done
  | |- safe (set_callstate _ _) => simple apply safe_callstate
  | |- safe (when ?b _) => destruct b; unfold when
  | |- safe (if ?b then _ else _) => destruct b
  | |- safe (match ?x with _ => _ end) => destruct x
  | |- safe (let '(_, _) := ?x in _) => destruct x
  | |- safe (test_ch_flag _ _) => unfold test_ch_flag
  | |- safe (get_state _) => unfold get_state
  | |- safe (get_running_state _) => unfold get_running_state
  | |- safe (get_variable _ _) => unfold get_variable
  | |- safe (ask _ _) => unfold ask
  | |- safe (ask_yes _ _) => unfold ask_yes
  | |- safe (get_caller_extension _) => unfold get_caller_extension
  | |- safe (set_variable _ _ _) => unfold set_variable
  | |- safe (execute_application _ _) => unfold execute_application
  | |- safe (parse_all_events _) => unfold parse_all_events
  end.
Ltac safe := repeat safe1; auto.

(** A handler table is looked at up to its end. *)
Lemma handler_at_ok l i : 0 <= i < zlen l -> exists h, handler_at l i = Ok h.
Proof using Type.
  intros H. unfold handler_at. rewrite (proj2 (Z.leb_le 0 i)) by lia.
  destruct (lookup_lt_is_Some_2 l (Z.to_nat i)) as [h ->]; [lia|]. by exists h.
Qed.

Lemma safe_app_handler i : 0 <= i ->
  hoare (gone k) (get_app_handler i) (fun h t => (h <> 0 -> i < Z.of_nat SWITCH_MAX_STATE_HANDLERS) /\ gone k t).
Proof.
  intros Hi t G. pose proof G as (_ & [S _] & _).
  unfold get_app_handler, bind, get, lift, switch_channel_get_state_handler.
  destruct (Z.leb_spec (Z.of_nat SWITCH_MAX_STATE_HANDLERS) i) as [L|L]; [by eexists _, _|].
  destruct (_ <? _); [by eexists _, _|].
  destruct (handler_at_ok (state_handlers (channel (ses t))) i) as [h E]; [lia|]. cbn [orb]. rewrite E.
  by eexists _, _.
Qed.

Lemma safe_core_handler i : 0 <= i ->
  hoare (gone k) (get_core_handler i) (fun h t => (h <> 0 -> i < Z.of_nat SWITCH_MAX_STATE_HANDLERS) /\ gone k t).
Proof.
  intros Hi t G. pose proof G as (_ & _ & R & _).
  unfold get_core_handler, bind, get, lift, switch_core_get_state_handler.
  destruct (Z.leb_spec (Z.of_nat SWITCH_MAX_STATE_HANDLERS) i) as [L|L]; [by eexists _, _|].
  destruct (_ <? _); [by eexists _, _|].
  destruct (handler_at_ok (rt_handlers (runtime (ses t))) i) as [h E]; [lia|]. cbn [orb]. rewrite E.
  by eexists _, _.
Qed.

Lemma safe_app_handlers n pre st i p : 0 <= i -> Z.of_nat SWITCH_MAX_STATE_HANDLERS - i < Z.of_nat n -> 0 < Z.of_nat n ->
  safe (app_handlers w cfg n pre st i p).
Proof.
  revert i p. induction n as [|n IH]; intros i p Hi Hn Hp; [lia|]. cbn [app_handlers].
  eapply hoare_bind; [by apply safe_app_handler|]. intros h. apply hoare_pure. intros Hh.
  destruct (Z.eqb_spec h 0) as [|N]; [safe|]. specialize (Hh N). unfold SWITCH_MAX_STATE_HANDLERS in *.
  repeat first [simple apply IH; lia|safe1].
Qed.

Lemma safe_core_handlers n pre st i p : 0 <= i -> Z.of_nat SWITCH_MAX_STATE_HANDLERS - i < Z.of_nat n -> 0 < Z.of_nat n ->
  safe (core_handlers_loop w cfg n pre st i p).
Proof.
  revert i p. induction n as [|n IH]; intros i p Hi Hn Hp; [lia|]. cbn [core_handlers_loop].
  destruct (negb _); [safe|].
  eapply hoare_bind; [by apply safe_core_handler|]. intros h. apply hoare_pure. intros Hh.
  destruct (Z.eqb_spec h 0) as [|N]; [safe|]. specialize (Hh N). unfold SWITCH_MAX_STATE_HANDLERS in *.
  repeat first [simple apply IH; lia|safe1].
Qed.

Lemma safe_macro st s ex std : safe std -> safe (STATE_MACRO w cfg st s ex std).
Proof.
  intros Hs. unfold STATE_MACRO, before_driver, driver_call, after_driver. cbv zeta.
  repeat first [simple apply safe_app_handlers; unfold fuel, SWITCH_MAX_STATE_HANDLERS; lia
    |simple apply safe_core_handlers; unfold fuel, SWITCH_MAX_STATE_HANDLERS; lia|exact Hs|safe1].
Qed.

(** Every application takes one turn. *)
Lemma safe_zombie n ext :
  hoare (fun t => gone k t /\ (length (default [] (extensions (ses t) !! ext)) < n)%nat)
    (zombie_exec w n ext) (fun _ => gone k).
Proof.
  induction n as [|n IH]; intros t [G L]; [lia|]. cbn [zombie_exec]. unfold applications, bind, get.
  destruct (default [] (extensions (ses t) !! ext)) as [|app rest] eqn:E; [by eexists _, tt|].
  unfold set_applications, modify. cbn [ses].
  set (t1 := mk_thread (ses t <| extensions := _ |>) (log t)).
  assert (G1 : gone k t1 /\ (length (default [] (extensions (ses t1) !! ext)) < n)%nat).
  { subst t1. destruct G as ((G & D) & S & R & A). unfold gone. cbn [ses]. rupd. rewrite lookup_insert_eq.
    simpl in L |- *. split; [|lia]. split_and!; try done. intros x.
    destruct (decide (ext = x)) as [<-|N]; [|by rewrite lookup_insert_ne].
    rewrite lookup_insert_eq. specialize (A ext). rewrite E in A. simpl in *. lia. }
  clearbody t1. destruct G1 as [G1 L1]. unfold execute_application, ask, call_out, answered, bind. cbn [ses log].
  set (t2 := called w _ t1). assert (G2 : gone k t2) by (by apply gone_act).
  assert (L2 : (length (default [] (extensions (ses t2) !! ext)) < n)%nat).
  { pose proof (or_apps w Hw (Execute app :: log t1) (ses t1) ext). subst t2. unfold called. cbn [ses log] in *. lia. }
  destruct (_ && _); [by eexists _, tt|]. apply IH. by split.
Qed.

Lemma safe_on_hangup : safe (switch_core_standard_on_hangup w app_fuel).
Proof.
  unfold switch_core_standard_on_hangup.
  repeat first [eapply hoare_conseq; [apply safe_zombie| |by intros]; intros t G; split; [exact G|apply G]|safe1].
Qed.

Lemma safe_state_hook name : safe (state_hook w name).
Proof. unfold state_hook, api_hook. safe. Qed.

Lemma safe_xml : safe (attach_xml_cdr w).
Proof. unfold attach_xml_cdr. safe. Qed.

Lemma safe_hangup_state force own : safe (switch_core_session_hangup_state w cfg app_fuel force own).
Proof.
  unfold switch_core_session_hangup_state, hangup_handlers.
  repeat first [simple apply safe_macro|simple apply safe_on_hangup|simple apply safe_state_hook
    |simple apply safe_modify; intros; by rupd|safe1].
Qed.

Lemma safe_list_variable name :
  hoare (gone k) (get_variable w name) (fun v t => (forall c, exists b, cause_skipped v c = Ok b) /\ gone k t).
Proof.
  intros t G. eexists _, _. split; [reflexivity|]. split; [apply (or_lists w Hw)|]. by apply gone_act.
Qed.

Lemma safe_reporting_state : safe (switch_core_session_reporting_state w cfg).
Proof.
  unfold switch_core_session_reporting_state.
  do 2 (simple apply safe_bind; [safe|intros ?]).
  eapply hoare_bind; [apply safe_list_variable|]. intros v. apply hoare_pure. intros Hv.
  simple apply safe_bind; [safe|]. intros cause.
  assert (safe (lift (cause_skipped v cause))).
  { intros t G. unfold lift. destruct (Hv cause) as [b ->]. by eexists _, _. }
  unfold cdr_wanted, switch_core_standard_on_reporting.
  repeat first [simple apply safe_macro|simple apply safe_state_hook|simple apply safe_xml|assumption|safe1].
Qed.

Lemma safe_hooks n i : safe (run_hooks w n i).
Proof. revert i. induction n as [|n IH]; intros i; cbn [run_hooks]; safe. Qed.
Lemma safe_check_presence : safe (check_presence w).
Proof. unfold check_presence. safe. Qed.
Lemma safe_sleep : safe (sleep w).
Proof. unfold sleep. safe. Qed.

(** The state read is the one the channel is in. *)
Lemma safe_get_state : hoare (gone k) (get_state w) (fun st t => k <= cs st /\ gone (cs st) t).
Proof.
  eapply hoare_conseq; [apply safe_peek|done|]. intros st t [((L & D) & G) ->]. split; [done|]. split; [split; [done|exact D]|exact G].
Qed.
End Teardown.

Lemma gone_mono app_fuel k k' t : k' <= k -> gone app_fuel k t -> gone app_fuel k' t.
Proof. intros L ((G & D) & R). split; [split; [lia|done]|done]. Qed.

Section Ending.
Context (w : world) (cfg : setup) (Hw : orderly w) (app_fuel : nat).
#[local] Set Default Proof Using "Hw".
Notation gone := (gone app_fuel).

(** A state after hangup is run: the channel is brought to the next one. *)
Lemma run_state_ends st : cs CS_HANGUP <= cs st ->
  hoare (gone (cs st)) (run_state w cfg app_fuel st)
    (fun done t => if done then gone (cs CS_DESTROY) t else st = CS_HANGUP /\ gone (cs CS_REPORTING) t).
Proof.
  intros L. destruct st; try done; cbn [run_state].
  - eapply hoare_bind; [by apply safe_hangup_state|]. intros [].
    eapply hoare_bind; [by apply safe_peek'|]. intros video.
    eapply (hoare_bind _ (fun _ => gone (cs CS_HANGUP))).
    { destruct video; [by apply safe_call|by apply hoare_ret]. }
    intros []. eapply hoare_bind; [by apply hoare_state|]. intros [].
    apply hoare_ret. done.
  - eapply hoare_bind; [by apply safe_reporting_state|]. intros [].
    eapply hoare_bind; [by apply hoare_state|]. intros []. by apply hoare_ret.
  - by apply hoare_ret.
  - intros t ((G & _) & [_ N] & _). destruct (state (channel (ses t))); done.
Qed.

Lemma gone_weaken {A} k k' (m : M A) Q : k' <= k -> hoare (gone k') m Q -> hoare (gone k) m Q.
Proof using Type. intros L H. eapply hoare_conseq; [exact H| |by intros]. intros t. by apply gone_mono. Qed.

Lemma enter_state_ends st : cs CS_HANGUP <= cs st ->
  hoare (gone (cs st)) (enter_state w cfg app_fuel st)
    (fun done t => if done then gone (cs CS_DESTROY) t else st = CS_HANGUP /\ gone (cs CS_REPORTING) t).
Proof.
  intros L. unfold enter_state.
  eapply hoare_bind; [by apply safe_running|]. intros [].
  eapply hoare_bind; [by apply safe_clear|]. intros [].
  eapply hoare_bind; [by apply safe_clear|]. intros [].
  eapply hoare_bind; [by apply safe_call|]. intros [].
  eapply (hoare_bind _ (fun _ => gone (cs st))).
  { destruct (has_state_run cfg); [|by apply hoare_ret]. unfold ask.
    eapply hoare_bind; [by apply safe_call|]. intros []. apply safe_answered. }
  intros rstatus. eapply (hoare_bind _ (fun _ => gone (cs st))).
  { destruct (rstatus is _); [by apply safe_hooks|by apply hoare_ret]. }
  intros []. eapply hoare_bind; [by apply run_state_ends|]. intros [|]; [by apply hoare_ret|].
  apply hoare_pure. intros ->. eapply hoare_bind; [by apply safe_check_presence|]. intros [].
  apply hoare_ret. by intros t G.
Qed.

Lemma end_turn_ends l : hoare (gone (cs CS_REPORTING)) (end_turn w cfg app_fuel l) (fun _ => gone (cs CS_REPORTING)).
Proof.
  unfold end_turn. eapply hoare_bind; [by apply safe_get_state|]. intros st. apply hoare_pure. intros N.
  apply (gone_weaken _ (cs CS_REPORTING)); [done|].
  eapply hoare_bind; [by apply safe_peek'|]. intros running.
  destruct (st is running); [|by apply hoare_ret].
  rewrite bool_decide_eq_false_2 by (by intros ->).
  eapply hoare_bind; [by apply safe_sleep|]. intros []. by apply hoare_ret.
Qed.

(** One turn brings the channel to the next state or ends the loop. *)
Definition turn_post (k : Z) (r : option Z) (t : thread) : Prop :=
  match r with None => gone (cs CS_DESTROY) t | Some _ => k = cs CS_HANGUP /\ gone (cs CS_REPORTING) t end.

Lemma turn_rest_ends k st l : cs CS_HANGUP <= k <= cs st ->
  hoare (gone (cs st)) (turn_rest w cfg app_fuel l st) (turn_post k).
Proof.
  intros L. unfold turn_rest. eapply hoare_bind; [apply safe_peek'; [done|lia]|]. intros running.
  rewrite (proj2 (Z.leb_le (cs CS_HANGUP) _)), orb_true_r by lia.
  eapply hoare_bind; [apply enter_state_ends; lia|]. intros [|]; [by apply hoare_ret|].
  apply hoare_pure. intros ->. eapply hoare_bind; [by apply end_turn_ends|]. intros l'.
  apply hoare_ret. intros t G. split; [lia|done].
Qed.

Lemma turn_ends k l : cs CS_HANGUP <= k -> hoare (gone k) (turn w cfg app_fuel l) (turn_post k).
Proof.
  intros Hk. unfold turn.
  eapply hoare_bind; [by apply safe_get_state|]. intros st. apply hoare_pure. intros L.
  case_bool_decide as D; [by subst; apply hoare_ret|].
  eapply hoare_bind; [apply safe_peek'; [done|lia]|]. intros [|]; [|by apply turn_rest_ends].
  eapply hoare_bind; [apply safe_call; [done|lia]|]. intros [].
  eapply hoare_bind; [apply (safe_get_state w Hw app_fuel (cs st)); lia|]. intros st'. apply hoare_pure. intros L'.
  case_bool_decide as D'; [by subst; apply hoare_ret|]. apply turn_rest_ends. lia.
Qed.

Lemma run_loop_ends k n l : cs CS_HANGUP <= k -> (2 <= n)%nat ->
  hoare (gone k) (run_loop w cfg n app_fuel l) (fun _ => gone (cs CS_DESTROY)).
Proof.
  intros Hk Hn. destruct n as [|[|n]]; [lia..|]. cbn [run_loop].
  eapply hoare_bind; [by apply turn_ends|]. intros [l1|]; [|by apply hoare_ret].
  apply hoare_pure. intros ->. eapply hoare_bind; [by apply turn_ends|].
  intros [l2|]; [|by apply hoare_ret]. apply hoare_pure. done.
Qed.
End Ending.

(** C5. In an orderly world the thread of a session that has been hung up ends
    within two turns of its loop: the channel is in [CS_DESTROY] and the session
    no longer marked as running.  Orderly: the others act on the channel by its
    operations only, the core's handler table stays whole, applications add none
    to those that are left, and the list of causes without a record does not end
    in an escape; no other thread is between its test and its write of a hangup
    at the start; and the fuel for applications exceeds those that are left. *)
Theorem session_ends w cfg n app_fuel t :
  orderly w -> (2 <= n)%nat -> cs CS_HANGUP <= cs (state (channel (ses t))) -> sound (channel (ses t)) ->
  none Decided (others (ses t)) ->
  length (rt_handlers (runtime (ses t))) = SWITCH_MAX_STATE_HANDLERS ->
  (forall x, length (default [] (extensions (ses t) !! x)) < app_fuel)%nat ->
  exists t', switch_core_session_run w cfg n app_fuel t = (t', Returned tt) /\
    state (channel (ses t')) = CS_DESTROY /\ test_flag (ssf (ses t')) SSF_THREAD_RUNNING = false.
Proof.
  intros Hw Hn G S D R A. unfold switch_core_session_run.
  set (t0 := mk_thread (ses t <| ssf := set_flag (ssf (ses t)) SSF_THREAD_RUNNING |>) (log t)).
  assert (G0 : gone app_fuel (cs CS_HANGUP) t0) by (split_and!; done).
  destruct (run_loop_ends w cfg Hw app_fuel (cs CS_HANGUP) n 500 ltac:(done) Hn t0 G0)
    as (t1 & [] & E & ((G1 & _) & [_ N] & _)).
  eexists. unfold bind, modify. fold t0. rewrite E. split; [reflexivity|]. cbn [ses]. rupd.
  split; [destruct (state (channel (ses t1))); done|].
  unfold test_flag, clear_flag. apply negb_false_iff, Z.eqb_eq. rewrite <- Z.land_assoc.
  rewrite (Z.land_comm (Z.lnot _)), Z.land_lnot_diag. apply Z.land_0_r.
Qed.

Lemma w_orderly : orderly w_world.
Proof. constructor; [exact w_tame|done|done|]. intros l c. by exists false. Qed.

Lemma session_ends_witness :
  exists t', switch_core_session_run w_world w_setup 2 1 (w_thread w_ended) = (t', Returned tt) /\
    state (channel (ses t')) = CS_DESTROY.
Proof.
  destruct (session_ends w_world w_setup 2 1 (w_thread w_ended)) as (t' & E & St & _).
  - exact w_orderly.
  - lia.
  - vm_compute. discriminate.
  - split; [reflexivity|discriminate].
  - intros c. apply not_elem_of_nil.
  - reflexivity.
  - intros x. cbn [w_thread w_session ses extensions]. rewrite lookup_empty. simpl. lia.
  - exists t'. split; [exact E|exact St].
Defined.
