(* ===== verification/HandlerOrder.v ===== *)
(** * The order of state handlers (theorems on [StateMachine])

    STATE_MACRO walks through two tables by index, twice, and keeps its verdict
    in counters.  Here is what it comes to on the lists of handlers that the
    tables hold, and that the two agree. *)
From stdpp Require Import strings.
From Stdlib Require Import String Ascii.
From S2P Require Import Prelude CStrings StringUtils ChannelTypes Channel StateMachine SessionLife.
Open Scope Z_scope.
Open Scope run_scope.
#[local] Notation length := List.length (only parsing).

(** ** The reference *)

Section Reference.
Context (w : world) (cfg : setup).

Definition pre_exec (h : Z) : bool := test_flag (table_flags (tables cfg h)) SSH_FLAG_PRE_EXEC.

(** The handlers of a list that have something to do in state [k], until one
    vetoes. *)
Fixpoint chain (mk : Z -> switch_channel_state -> call) (k : switch_channel_state) (hs : list Z) : M bool :=
  match hs with
  | [] => ret true
  | h :: hs =>
    if on_state (tables cfg h) k then
      st ← ask w (mk h k);
      if st is SWITCH_STATUS_SUCCESS then chain mk k hs else ret false
    else chain mk k hs
  end.

(** Early handlers of the application, early handlers of the core, the
    endpoint, and if it agrees the other handlers of both; the standard
    behaviour when nobody has vetoed and the channel is still in the state. *)
Definition state_handlers_in_order (k state : switch_channel_state) (extra : bool) (standard : M unit)
    (apps cores : list Z) : M unit :=
  let apps := if extra then apps else [] in
  let cores := if extra then cores else [] in
  (if cs state <? cs CS_HANGUP then
     c ← peek w callstate; when (c is CCS_UNHELD) (set_callstate w CCS_ACTIVE)
   else ret tt) ;;
  call_out w (Do "switch_core_session_request_video_refresh" []) ;;
  call_out w (Do "switch_core_media_gen_key_frame" []) ;;
  v1 ← chain AppHandler k (filter (fun h => pre_exec h = true) apps);
  v2 ← chain CoreHandler k (filter (fun h => pre_exec h = true) cores);
  st ← driver_call w cfg k;
  if st is SWITCH_STATUS_SUCCESS then
    v3 ← chain AppHandler k (filter (fun h => pre_exec h = false) apps);
    v4 ← chain CoreHandler k (filter (fun h => pre_exec h = false) cores);
    if v4 : bool then
      st ← get_state w;
      when (v1 && v2 && v3 && (state is st)) standard
    else ret tt
  else ret tt.
End Reference.

(** ** Tables as lists *)

(** A lookup by index that gives the entries of a list and then null. *)
Record table_of (get : Z -> outcome Z) (hs : list Z) : Prop := mk_table_of {
  tb_get i : 0 <= i -> get i = Ok (default 0 (hs !! Z.to_nat i));
  tb_nonnull : 0 ∉ hs;
  tb_room : (length hs <= SWITCH_MAX_STATE_HANDLERS)%nat
}.

Lemma handlers_table ch hs : handlers ch hs -> table_of (switch_channel_get_state_handler ch) hs.
Proof.
  intros [Et Ei Er En _]. constructor; [|done|lia]. intros i Hi. unfold switch_channel_get_state_handler, handler_at.
  rewrite Ei, Et. destruct (Z.leb_spec (Z.of_nat SWITCH_MAX_STATE_HANDLERS) i) as [L|L].
  { by rewrite (lookup_ge_None_2 hs) by lia. }
  destruct (Z.ltb_spec (zlen hs) i) as [L'|L']; [by rewrite (lookup_ge_None_2 hs) by lia|]. cbn [orb].
  rewrite (proj2 (Z.leb_le 0 i)) by done.
  destruct (decide (i = zlen hs)) as [->|N].
  - rewrite Nat2Z.id, lookup_app_r, Nat.sub_diag, lookup_replicate_2 by lia. by rewrite (lookup_ge_None_2 hs).
  - rewrite lookup_app_l by lia. destruct (lookup_lt_is_Some_2 hs (Z.to_nat i)) as [h ->]; [lia|]. done.
Qed.

(** ** Equality of runs on threads with given tables *)

Section Order.
Context (w : world) (cfg : setup) (apps cores : list Z).

Definition tabled (t : thread) : Prop :=
  table_of (switch_channel_get_state_handler (channel (ses t))) apps /\
  table_of (switch_core_get_state_handler (runtime (ses t))) cores.

(** Handlers do not change the tables they are called from. *)
Definition leaves_tables : Prop := forall l s,
  state_handlers (channel (act w l s)) = state_handlers (channel s) /\
  state_handler_index (channel (act w l s)) = state_handler_index (channel s) /\
  runtime (act w l s) = runtime s.
Context (Hw : leaves_tables).

(** [m] and [m'] do the same from such threads, and leave such threads. *)
Definition same {A} (m m' : M A) : Prop := forall t, tabled t ->
  m t = m' t /\ forall t' a, m t = (t', Returned a) -> tabled t'.

Lemma same_bind {A B} (m m' : M A) (f f' : A -> M B) :
  same m m' -> (forall a, same (f a) (f' a)) -> same (bind m f) (bind m' f').
Proof.
  intros Hm Hf t Ht. destruct (Hm t Ht) as [E K]. unfold bind. rewrite <- E.
  destruct (m t) as [t1 [a| | |]]; try done. apply Hf. by eapply K.
Qed.
Lemma same_ret {A} (a : A) : same (ret a) (ret a).
Proof. intros t Ht. split; [done|]. by intros t' b [= <- _]. Qed.
Lemma same_trans {A} (m1 m2 m3 : M A) : same m1 m2 -> same m2 m3 -> same m1 m3.
Proof. intros H1 H2 t Ht. destruct (H1 t Ht) as [E1 K1], (H2 t Ht) as [E2 _]. split; [congruence|done]. Qed.
Lemma bind_ret {A B} (m : M A) (g : A -> B) (f : B -> M unit) t :
  bind (bind m (fun a => ret (g a))) f t = bind m (fun a => f (g a)) t.
Proof. unfold bind, ret. by destruct (m t) as [t1 [a| | |]]. Qed.

Lemma same_call c : same (call_out w c) (call_out w c).
Proof using Hw.
  intros t [H1 H2]. split; [done|]. intros t' a [= <- _]. destruct (Hw (c :: log t) (ses t)) as (E1 & E2 & E3).
  unfold called. split; cbn [ses]; [|by rewrite E3]. destruct H1 as [G N R]. constructor; [|done..].
  intros i Hi. rewrite <- G by done. unfold switch_channel_get_state_handler. by rewrite E1, E2.
Qed.

(** Runs that keep the tables of the channel and of the core. *)
Lemma same_refl {A} (m : M A) :
  (forall t t' a, m t = (t', Returned a) -> tabled t -> tabled t') -> same m m.
Proof. intros H t Ht. split; [done|]. intros t' a E. by apply (H t t' a). Qed.

Lemma same_get {A} (f : switch_core_session -> A) : same (get f) (get f).
Proof. apply same_refl. by intros t t' a [= <- _]. Qed.
Lemma same_answered {A} (f : list call -> A) : same (answered f) (answered f).
Proof. apply same_refl. by intros t t' a [= <- _]. Qed.
Lemma same_peek {A} (f : switch_channel -> A) : same (peek w f) (peek w f).
Proof using Hw. apply same_bind; [apply same_call|]. intros []. apply same_get. Qed.
Lemma same_ask c : same (ask w c) (ask w c).
Proof using Hw. apply same_bind; [apply same_call|]. intros []. apply same_answered. Qed.

Lemma same_set_callstate c : same (set_callstate w c) (set_callstate w c).
Proof using Hw.
  apply same_bind; [apply same_peek|]. intros o. destruct (_ || _); [apply same_ret|].
  apply same_bind; [apply same_call|]. intros []. apply same_bind; [apply same_answered|]. intros e.
  apply same_refl. intros t t' a (t1 & ch & [= <- <-] & (t2 & ch' & [= <- <-] & [= <- _])%bind_ok)%bind_ok [[G N R] H2].
  split; [|done]. cbn [ses]. rupd. constructor; [|done..]. intros i Hi. rewrite <- G by done.
  pose proof (co_handlers _ _ (core_callstate_write _ _ o c (core_refl (channel (ses t))))) as [E1 E2].
  unfold switch_channel_get_state_handler. by rewrite E1, E2.
Qed.

Lemma same_early st : same
  (if cs st <? cs CS_HANGUP then
     bind (peek w callstate) (fun c => when (c is CCS_UNHELD) (set_callstate w CCS_ACTIVE)) else ret tt)
  (if cs st <? cs CS_HANGUP then
     bind (peek w callstate) (fun c => when (c is CCS_UNHELD) (set_callstate w CCS_ACTIVE)) else ret tt).
Proof using Hw.
  destruct (_ <? _); [|apply same_ret]. apply same_bind; [apply same_peek|]. intros c.
  unfold when. destruct (c is _); [apply same_set_callstate|apply same_ret].
Qed.

Lemma same_driver k : same (driver_call w cfg k) (driver_call w cfg k).
Proof using Hw. unfold driver_call. destruct (on_state _ _); [apply same_ask|apply same_ret]. Qed.

(** The loops over a table and over its list. *)
Definition chosen (pre : bool) (hs : list Z) : list Z := filter (fun h => pre_exec cfg h = pre) hs.

Lemma same_chain mk k hs : same (chain w cfg mk k hs) (chain w cfg mk k hs).
Proof using Hw.
  induction hs as [|h hs IH]; cbn [chain]; [apply same_ret|]. destruct (on_state _ _); [|done].
  apply same_bind; [apply same_ask|]. intros st. destruct (st is _); [done|apply same_ret].
Qed.

(** Both loops are this one, which reads a table [hs] through [lookup]. *)
Fixpoint walk (lookup : Z -> M Z) (mk : Z -> switch_channel_state -> call) (n : nat) (pre : bool)
    (k : switch_channel_state) (index proceed : Z) : M Z :=
  match n with
  | O => out_of_fuel
  | S n =>
    h ← lookup index;
    let index := index + 1 in
    if h =? 0 then ret proceed
    else if negb (Bool.eqb pre (test_flag (table_flags (tables cfg h)) SSH_FLAG_PRE_EXEC))
    then walk lookup mk n pre k index proceed
    else if negb (on_state (tables cfg h) k) then walk lookup mk n pre k index (proceed + 1)
    else
      st ← ask w (mk h k);
      if st is SWITCH_STATUS_SUCCESS then walk lookup mk n pre k index (proceed + 1) else ret 0
  end.

Definition reads (lookup : Z -> M Z) (hs : list Z) : Prop :=
  forall t i, tabled t -> 0 <= i -> lookup i t = (t, Returned (default 0 (hs !! Z.to_nat i))).

Lemma chosen_cons pre h hs : chosen pre (h :: hs) = if Bool.eqb pre (pre_exec cfg h) then h :: chosen pre hs else chosen pre hs.
Proof.
  unfold chosen. rewrite filter_cons. destruct pre, (pre_exec cfg h); try by rewrite decide_True.
  all: by rewrite decide_False.
Qed.

Lemma same_read {B} lookup hs i (f : Z -> M B) m : reads lookup hs -> 0 <= i ->
  same (f (default 0 (hs !! Z.to_nat i))) m -> same (bind (lookup i) f) m.
Proof. intros Hl Hi H t Ht. unfold bind. rewrite (Hl t i Ht Hi). by apply H. Qed.

(** Chains of binds on the right-hand side. *)
Lemma same_assoc {A B D} (m : M D) (n : M A) (f : A -> M B) (g : B -> M D) :
  same m (bind n (fun a => bind (f a) g)) -> same m (bind (bind n f) g).
Proof.
  intros H t Ht. destruct (H t Ht) as [E K]. split; [|done]. rewrite E. unfold bind.
  by destruct (n t) as [t1 [a| | |]].
Qed.
Lemma same_ret_bind {A B} (m : M B) (a : A) (f : A -> M B) : same m (f a) -> same m (bind (ret a) f).
Proof. done. Qed.

Lemma walk_chain lookup mk hs : reads lookup hs -> 0 ∉ hs -> forall n pre k i p,
  (i <= length hs < i + n)%nat ->
  same (walk lookup mk n pre k (Z.of_nat i) p)
    (bind (chain w cfg mk k (chosen pre (drop i hs)))
       (fun v : bool => ret (if v then p + zlen (chosen pre (drop i hs)) else 0))).
Proof using Hw.
  intros Hl N0 n pre k. induction n as [|n IH]; intros i p L; [lia|].
  cbn [walk]. apply (same_read _ hs); [done|lia|]. rewrite Nat2Z.id.
  destruct (hs !! i) as [h|] eqn:E; cbn [default from_option id].
  - assert (Nh : h <> 0) by (intros ->; by apply N0, list_elem_of_lookup_2 with i).
    rewrite (proj2 (Z.eqb_neq h 0)) by done. rewrite (drop_S _ _ _ E), chosen_cons.
    fold (pre_exec cfg h). replace (Z.of_nat i + 1) with (Z.of_nat (S i)) by lia.
    assert (L' : (S i <= length hs < S i + n)%nat) by (apply lookup_lt_Some in E; lia).
    destruct (Bool.eqb pre (pre_exec cfg h)); cbn [negb]; [|by apply IH].
    assert (IH' := IH (S i) (p + 1) L').
    replace (p + 1 + zlen (chosen pre (drop (S i) hs))) with
      (p + zlen (h :: chosen pre (drop (S i) hs))) in IH' by (simpl; lia).
    cbn [chain]. destruct (on_state (tables cfg h) k); cbn [negb]; [|exact IH'].
    apply same_assoc, same_bind; [apply same_ask|]. intros st.
    destruct (st is _); [exact IH'|]. apply same_ret_bind, same_ret.
  - rewrite Z.eqb_refl. apply lookup_ge_None_1 in E. rewrite drop_ge by done.
    apply same_ret_bind. rewrite Z.add_0_r. apply same_ret.
Qed.

Lemma reads_app : reads get_app_handler apps.
Proof.
  intros t i [[G _ _] _] Hi. unfold get_app_handler, bind, get, lift. by rewrite G.
Qed.
Lemma reads_core : reads get_core_handler cores.
Proof.
  intros t i [_ [G _ _]] Hi. unfold get_core_handler, bind, get, lift. by rewrite G.
Qed.

Lemma app_walk n pre k i p :
  forall t, app_handlers w cfg n pre k i p t = walk get_app_handler AppHandler n pre k i p t.
Proof.
  revert i p. induction n as [|n IH]; intros i p t; [done|]. cbn [app_handlers walk].
  unfold bind at 1 3. destruct (get_app_handler i t) as [t1 [h| | |]]; try done.
  destruct (h =? 0); [done|]. destruct (negb _); [by apply IH|]. destruct (negb _); [apply IH|].
  unfold bind. destruct (ask _ _ t1) as [t2 [st| | |]]; try done. destruct (st is _); [apply IH|done].
Qed.

(** The guard on [proceed] of the other loop is never the reason to stop. *)
Lemma core_walk n pre k i p : 0 < p ->
  forall t, core_handlers_loop w cfg n pre k i p t = walk get_core_handler CoreHandler n pre k i p t.
Proof.
  revert i p. induction n as [|n IH]; intros i p Hp t; [done|]. cbn [core_handlers_loop walk].
  assert (T : truth p = true) by (unfold truth; by rewrite (proj2 (Z.eqb_neq p 0)) by lia).
  rewrite T. cbn [negb]. unfold bind at 1 3. destruct (get_core_handler i t) as [t1 [h| | |]]; try done.
  destruct (h =? 0); [done|]. destruct (negb _); [by apply IH|].
  destruct (negb _); [apply IH; lia|]. unfold bind.
  destruct (ask _ _ t1) as [t2 [st| | |]]; try done. destruct (st is _); [apply IH; lia|done].
Qed.

Lemma same_eq {A} (m m' m2 : M A) : (forall t, m t = m' t) -> same m' m2 -> same m m2.
Proof. intros E H t Ht. rewrite E. by apply H. Qed.

Context (R1 : (length apps <= SWITCH_MAX_STATE_HANDLERS)%nat) (R2 : (length cores <= SWITCH_MAX_STATE_HANDLERS)%nat)
  (N1 : 0 ∉ apps) (N2 : 0 ∉ cores).
#[local] Set Default Proof Using "All".

Lemma app_chain pre k p :
  same (app_handlers w cfg fuel pre k 0 p)
    (bind (chain w cfg AppHandler k (chosen pre apps))
       (fun v : bool => ret (if v then p + zlen (chosen pre apps) else 0))).
Proof.
  eapply same_eq; [apply app_walk|].
  apply (walk_chain _ _ apps reads_app N1 fuel pre k 0%nat p). unfold fuel, SWITCH_MAX_STATE_HANDLERS in *. lia.
Qed.
Lemma core_chain pre k :
  same (core_handlers_loop w cfg fuel pre k 0 1)
    (bind (chain w cfg CoreHandler k (chosen pre cores))
       (fun v : bool => ret (if v then 1 + zlen (chosen pre cores) else 0))).
Proof.
  eapply same_eq; [intros t; by apply core_walk|].
  apply (walk_chain _ _ cores reads_core N2 fuel pre k 0%nat 1). unfold fuel, SWITCH_MAX_STATE_HANDLERS in *. lia.
Qed.

(** A loop and what its result is used for. *)
Lemma same_then {A B} (m : M A) (n : M bool) (g : bool -> A) (f : A -> M B) (f' : bool -> M B) :
  same m (bind n (fun v => ret (g v))) -> (forall v, same (f (g v)) (f' v)) -> same (bind m f) (bind n f').
Proof.
  intros Hm Hf t Ht. destruct (Hm t Ht) as [E K]. unfold bind, ret in *.
  destruct (n t) as [t1 [v| | |]]; rewrite E; try done. apply Hf. eapply K. exact E.
Qed.

Lemma truth_verdict (v : bool) p l : 0 < p -> truth (if v then p + zlen (l : list Z) else 0) = v.
Proof using Type. clear. intros H. unfold truth. destruct v; [|done]. by rewrite (proj2 (Z.eqb_neq _ 0)) by lia. Qed.

(** Only the verdict of the third loop matters: its counter starts at 0 when
    the core has vetoed before, and then nothing is done anyway. *)
Lemma truth_third (v1 v2 v3 : bool) l1 l2 :
  v1 && v2 && truth (if v3 then (if v2 then 1 + zlen (l1 : list Z) else 0) + zlen (l2 : list Z) else 0)
    = v1 && v2 && v3.
Proof using Type.
  clear. unfold truth. destruct v1, v2, v3; try done. by rewrite (proj2 (Z.eqb_neq _ 0)) by lia.
Qed.

Lemma after_order k st std v1 v2 l1 : same std std ->
  same (after_driver w cfg k st true std (v1 && v2) (if v2 then 1 + zlen (l1 : list Z) else 0))
    (bind (chain w cfg AppHandler k (chosen false apps)) (fun v3 =>
     bind (chain w cfg CoreHandler k (chosen false cores)) (fun v4 =>
     if v4 : bool then bind (get_state w) (fun st' => when (v1 && v2 && v3 && (st is st')) std) else ret tt))).
Proof.
  intros Hs. unfold after_driver. cbv zeta. eapply same_then; [apply app_chain|]. intros v3.
  eapply same_then; [apply core_chain|]. intros v4. cbv beta. rewrite truth_verdict, truth_third by done.
  destruct v4; cbn [negb].
  - eapply same_eq; [intros t; apply (bind_ret (get_state w) (fun st' => v1 && v2 && v3 && (st is st')) (fun g => when g std))|].
    apply same_bind; [apply same_peek|]. intros st'. unfold when. destruct (_ && _); [exact Hs|apply same_ret].
  - by apply (same_eq _ (ret tt)); [|apply same_ret].
Qed.

Lemma same_assoc_l {A B D} (m : M D) (n : M A) (f : A -> M B) (g : B -> M D) :
  same (bind n (fun a => bind (f a) g)) m -> same (bind (bind n f) g) m.
Proof using Type.
  intros H. eapply same_eq; [|exact H]. intros t. unfold bind. by destruct (n t) as [t1 [a| | |]].
Qed.

Lemma macro_order k st extra std : same std std ->
  same (STATE_MACRO w cfg k st extra std) (state_handlers_in_order w cfg k st extra std apps cores).
Proof.
  intros Hs. unfold STATE_MACRO, state_handlers_in_order, before_driver. cbv zeta.
  apply same_assoc_l, same_bind; [apply same_early|]. intros [].
  apply same_assoc_l, same_bind; [apply same_call|]. intros [].
  apply same_assoc_l, same_bind; [apply same_call|]. intros [].
  destruct extra.
  - apply same_assoc_l. eapply same_then; [apply app_chain|]. intros v1.
    apply same_assoc_l. eapply same_then; [apply core_chain|]. intros v2. cbv beta. rewrite !truth_verdict by done.
    apply (same_eq _ (bind (driver_call w cfg k) (fun s => if s is SWITCH_STATUS_SUCCESS then
      after_driver w cfg k st true std (v1 && v2) (if v2 then 1 + zlen (chosen true cores) else 0) else ret tt))); [done|].
    apply same_bind; [apply same_driver|]. intros s. destruct (s is _); [|apply same_ret]. by apply after_order.
  - apply (same_eq _ (bind (driver_call w cfg k) (fun s => if s is SWITCH_STATUS_SUCCESS then
      after_driver w cfg k st false std true 1 else ret tt))); [done|].
    do 2 apply same_ret_bind. apply same_bind; [apply same_driver|]. intros s.
    destruct (s is _); [|apply same_ret]. do 2 apply same_ret_bind. cbv iota.
    eapply same_eq; [intros t; apply (bind_ret (get_state w) (fun st' => (st is st')) (fun g => when g std))|].
    apply same_bind; [apply same_peek|]. intros st'. unfold when. destruct (st is st'); [exact Hs|apply same_ret].
Qed.
End Order.

(** C7. STATE_MACRO is the walk in order over the lists of handlers that the
    two tables hold, provided that no handler that is called, and no other
    thread meanwhile, changes the two tables: then the two runs are the same,
    call for call, from every thread whose tables hold the lists.  A veto of an
    early handler of the application does not keep the core's or the endpoint's
    handlers from being called, only the standard behaviour.  (A handler that
    takes itself out while it runs does change the table:
    [self_removal_skips].) *)
Theorem state_macro_order w cfg apps cores k st extra std t :
  leaves_tables w -> same apps cores std std -> tabled apps cores t ->
  STATE_MACRO w cfg k st extra std t = state_handlers_in_order w cfg k st extra std apps cores t.
Proof.
  intros Hw Hs Ht. pose proof Ht as [[_ N1 R1] [_ N2 R2]].
  by apply (macro_order w cfg apps cores Hw R1 R2 N1 N2 k st extra std Hs t Ht).
Qed.

Lemma w_cores : table_of (switch_core_get_state_handler (mk_core_handlers (replicate SWITCH_MAX_STATE_HANDLERS 0) 0)) [].
Proof.
  constructor; [|set_solver|simpl; lia]. intros i Hi. unfold switch_core_get_state_handler. cbn [rt_index rt_handlers].
  destruct (_ <=? i); [done|]. destruct (Z.ltb_spec 0 i); [done|]. assert (i = 0) as -> by lia. done.
Qed.

Lemma state_macro_order_witness :
  let t := w_thread (add_all new_channel [7; 8]) in
  STATE_MACRO w_world w_setup CS_ROUTING CS_NEW true (ret tt) t =
    state_handlers_in_order w_world w_setup CS_ROUTING CS_NEW true (ret tt) [7; 8] [] t.
Proof.
  intros t. apply (state_macro_order w_world w_setup [7; 8] [] CS_ROUTING CS_NEW true (ret tt) t).
  - intros l s. split_and!; reflexivity.
  - apply same_ret.
  - split; [apply handlers_table; exact w_handlers|exact w_cores].
Defined.

(** A handler that takes itself out while it runs, as those of
    switch_ivr_originate.c and switch_ivr_bridge.c do: the entries behind it move
    up and the walk, which goes on by index, leaves out the next one. *)
Definition w_self_removing : world :=
  mk_world
    (fun l s => match l with
                | AppHandler 8 _ :: _ =>
                  match switch_channel_clear_state_handler (fun _ => 0) (channel s) 8 with
                  | Ok ch => s <| channel := ch |>
                  | _ => s
                  end
                | _ => s
                end)
    (fun _ _ => []) (fun _ => SWITCH_STATUS_SUCCESS) (fun _ => false) (fun _ => None) (fun _ => None) (fun _ => w_env).
Definition app_calls (w : world) (hs : list Z) : list Z :=
  omap (fun c => match c with AppHandler h _ => Some h | _ => None end)
    (reverse (log (fst (STATE_MACRO w w_setup CS_ROUTING CS_NEW true (ret tt) (w_thread (add_all new_channel hs)))))).

Example self_removal_skips :
  app_calls w_world [8; 9; 10] = [8; 9; 10] /\ app_calls w_self_removing [8; 9; 10] = [8; 10].
Proof. vm_compute. split; reflexivity. Qed.
