(* ===== verification/QuietSession.v ===== *)
(** * Sessions left alone (theorems on [StateMachine])

    Runs in a world where nobody else does anything: a new session that gets no
    instructions is hung up and ends, and an extension is executed in order. *)
From stdpp Require Import strings.
From Stdlib Require Import String Ascii.
From S2P Require Import Prelude CStrings StringUtils Separator ChannelTypes Channel StateMachine SessionLife SessionEnd.
Open Scope Z_scope.
Open Scope run_scope.
#[local] Notation length := List.length (only parsing).

(** Calls have no effect on the session, and callees make none of their own. *)
Definition quiet (w : world) : Prop := forall l s, act w l s = s /\ inner w l s = [].

(** How often the thread has waited for its first instructions. *)
Fixpoint waits (l : list call) : nat :=
  match l with
  | [] => 0
  | Yield 20000 :: l => S (waits l)
  | _ :: l => waits l
  end.

Section Quiet.
Context (w : world) (cfg : setup) (Hq : quiet w).
#[local] Set Default Proof Using "Hq".

Lemma quiet_called c t : called w c t = mk_thread (ses t) (c :: log t).
Proof. unfold called. destruct (Hq (c :: log t) (ses t)) as [-> ->]. done. Qed.

Lemma quiet_call c t : call_out w c t = (mk_thread (ses t) (c :: log t), Returned tt).
Proof. unfold call_out. by rewrite quiet_called. Qed.

Lemma quiet_peek {A} (f : switch_channel -> A) t :
  peek w f t = (mk_thread (ses t) (Interleave :: log t), Returned (f (channel (ses t)))).
Proof. unfold peek, bind, get. by rewrite quiet_call. Qed.

Lemma quiet_channel f t ch : f (look w (Interleave :: log t)) (channel (ses t)) = Ok ch ->
  on_channel w f t = (mk_thread (ses t <| channel := ch |>) (Interleave :: log t), Returned tt).
Proof.
  intros E. unfold on_channel, bind, get, lift, answered, modify. rewrite quiet_call. cbn [ses log]. by rewrite E.
Qed.

Lemma quiet_tame : tame w.
Proof. intros l s. by destruct (Hq l s) as [-> _]. Qed.

(** A step of a quiet run. *)
Lemma bind_eq {A B} (m : M A) (f : A -> M B) t t1 a :
  m t = (t1, Returned a) -> bind m f t = f a t1.
Proof using Type. unfold bind. by intros ->. Qed.
End Quiet.

(** One step of a run whose calls have no effect. *)
Ltac quiet :=
  first [ erewrite (bind_eq (peek _ _)) by (by apply quiet_peek)
        | erewrite (bind_eq (call_out _ _)) by (by apply quiet_call)
        | erewrite (bind_eq (ret _)) by reflexivity
        | erewrite (bind_eq (get _)) by reflexivity
        | erewrite (bind_eq (modify _)) by reflexivity
        | erewrite (bind_eq (answered _)) by reflexivity ]; cbv beta; cbn [ses log].

(** ** The cause of a hangup *)

(** In a quiet run a channel that has been hung up keeps its cause. *)
Definition held (t t' : thread) : Prop :=
  hung_up t -> hung_up t' /\ hangup_cause (channel (ses t')) = hangup_cause (channel (ses t)).

(** Nothing is claimed of runs that end otherwise. *)
Definition anyhow (_ _ : thread) : Prop := True.

#[export] Instance held_preorder : PreOrder held.
Proof.
  unfold held. split; [intros t; by split|]. intros t1 t2 t3 H1 H2 L.
  destruct (H1 L) as [L1 <-]. by apply H2.
Qed.

Section Held.
Context (w : world) (cfg : setup) (Hq : quiet w).
#[local] Set Default Proof Using "Hq".

Lemma held_same t s l : channel s = channel (ses t) -> held t (mk_thread s l).
Proof using Type. intros E. unfold held, hung_up. cbn [ses]. by rewrite E. Qed.

Lemma held_closed P : (forall t t', P t -> held t t' -> P t') -> closed w P held anyhow.
Proof.
  intros HP. constructor; try (intros; by apply held_same); try done; [typeclasses eauto|..].
  - intros c t _ _. rewrite quiet_called by done. by apply held_same.
  - intros t ch' S L. unfold hung_up, with_channel. cbn [ses]. rupd.
    destruct (step_settled _ _ (S []) L) as (L' & _ & K).
    split; [done|]. by apply K; intros c; apply not_elem_of_nil.
Qed.
Lemma held_late : closed w hung_up held anyhow.
Proof. apply held_closed. intros t t' L H. by apply H. Qed.

(** Nothing is claimed of the other channels. *)
Lemma held_any {A} (m : M A) : runs hung_up held anyhow m -> runs (fun _ => True) held anyhow m.
Proof using Type.
  intros H t _. specialize (H t). destruct (decide (cs CS_HANGUP <= cs (state (channel (ses t))))) as [L|N]; [by apply H|].
  destruct (m t) as [t' [a| | |]]; [|done..]. by intros L.
Qed.

Lemma held_hangup_state P n force own : (forall t t', P t -> held t t' -> P t') ->
  runs P held anyhow (switch_core_session_hangup_state w cfg n force own).
Proof.
  intros HP. apply (runs_hangup_state w cfg P held anyhow (held_closed P HP)).
  - intros t _. rewrite quiet_called by done. by apply held_same.
  - intros t _. by apply held_same.
Qed.

Lemma held_hangup n cause : runs hung_up held anyhow (hangup w cfg n cause).
Proof.
  pose proof held_late as C. unfold hangup.
  apply (runs_bind w _ _ _ C); [by apply (runs_call w _ _ _ C)|]. intros []. intros t L.
  eapply runs_bind_at; [exact C|by apply (runs_get w _ _ _ C)|]. intros t1 ch [= <- <-] _.
  destruct (hangup_begin (channel (ses t))) as [ch1 ok] eqn:B.
  assert (state ch1 = state (channel (ses t)) /\ hangup_cause ch1 = hangup_cause (channel (ses t))) as [Es Ec]
    by (unfold hangup_begin in B; destruct (negb _); by injection B as <- _).
  assert (V : held t (with_channel t ch1)) by (unfold held, hung_up; cbn [with_channel ses]; rupd; by rewrite Es, Ec).
  eapply runs_bind_at; [exact C|exact V|]. intros t1 [] [= <-] _.
  destruct (V L) as [L1 _]. fold (with_channel t ch1). set (t1 := with_channel t ch1) in *. clearbody t1.
  revert t1 V L1. cut (runs hung_up held anyhow (bind (on_channel w hangup_unhold) (fun _ =>
    if negb ok then ret tt else
      bind (clear_ch_flag w CF_BLOCK_STATE) (fun _ => bind (peek w hangup_live) (fun live =>
        if negb live then ret tt else bind (on_channel w (fun e ch => Ok (hangup_end_hold e ch))) (fun _ =>
          bind (on_channel w (fun _ ch => Ok (hangup_enter ch))) (fun _ =>
           bind (on_channel w (fun _ ch => Ok (hangup_mark ch cause))) (fun _ =>
           bind (on_channel w (fun e ch => Ok (hangup_report e ch cause))) (fun _ =>
           bind (on_channel w (fun _ ch => Ok (hangup_event ch cause))) (fun _ =>
             switch_core_session_hangup_state w cfg n false true))))))))));
    [intros H t1 V L1; by apply H|].
  apply (runs_bind w _ _ _ C); [by apply (runs_unhold w _ _ _ C)|]. intros [].
  destruct (negb ok); [by apply (runs_ret w _ _ _ C)|].
  apply (runs_bind w _ _ _ C); [by apply (runs_clear_flag w _ _ _ C)|]. intros []. intros t2 L2.
  eapply runs_bind_at; [exact C|by apply (runs_peek w _ _ _ C)|]. intros t3 live E _.
  rewrite quiet_peek in E by done. injection E as <- <-. unfold hangup_live.
  rewrite (proj2 (Z.ltb_ge _ _)) by exact L2. by apply (runs_ret w _ _ _ C).
Qed.

Lemma held_loop n m l t t' : run_loop w cfg n m l t = (t', Returned tt) -> held t t'.
Proof.
  intros E. pose proof (runs_loop w cfg held anyhow (held_closed _ (fun _ _ _ _ => I)) held_late
    (fun n c => held_any _ (held_hangup n c)) held_hangup
    (fun n => held_hangup_state hung_up n true true (fun t t' L H => proj1 (H L))) n m l t I) as H.
  by rewrite E in H.
Qed.
End Held.

(** ** A session that nobody instructs *)

(** A channel as created, or one that has been marked since but not started. *)
Record untouched (ch : switch_channel) : Prop := mk_untouched {
  un_state : state ch = CS_NEW;
  un_running : running_state ch = CS_NEW;
  un_block : flag_get ch CF_BLOCK_STATE = 0;
  un_hold : flag_get ch CF_LEG_HOLDING = 0;
  un_hangup : test_flag (opaque_flags ch) OCF_HANGUP = false;
  un_flags : flags_wf ch;
  un_sound : sound ch
}.

Section Abandoned.
Context (w : world) (cfg : setup) (Hq : quiet w) (app_fuel : nat).
#[local] Set Default Proof Using "Hq".

(** The turn of a new session up to its end. *)
Lemma new_turn_start t l : untouched (channel (ses t)) ->
  exists log', turn w cfg app_fuel l t =
      bind (end_turn w cfg app_fuel l) (fun l => ret (Some l)) (mk_thread (ses t) log') /\
    waits log' = waits (log t).
Proof.
  intros [Es Er Eb _ _ _ _]. unfold turn, get_state, get_running_state, test_ch_flag.
  quiet. rewrite Es, bool_decide_eq_false_2 by done.
  quiet. unfold switch_channel_test_flag. rewrite Eb. cbn [truth Z.eqb negb andb].
  unfold turn_rest, get_running_state. quiet. rewrite Er, bool_decide_eq_true_2 by done.
  change (negb true || (cs CS_HANGUP <=? cs CS_NEW)) with false. cbv iota.
  quiet. eexists. split; [reflexivity|]. done.
Qed.

(** One turn: the thread waits and counts. *)
Lemma new_turn t l : untouched (channel (ses t)) -> 1 < l <= 500 ->
  exists log', turn w cfg app_fuel l t = (mk_thread (ses t) log', Returned (Some (l - 1))) /\
    waits log' = S (waits (log t)).
Proof.
  intros U Hl. destruct (new_turn_start t l U) as (log' & -> & W). destruct U as [Es Er _ _ _ _ _].
  unfold end_turn, get_state, get_running_state, parse_all_events, bind at 1. 
  quiet. quiet. rewrite Es, Er, !bool_decide_eq_true_2 by done.
  quiet. quiet. cbv zeta. rewrite u32_small by lia. rewrite (proj2 (Z.eqb_neq _ 0)) by lia. unfold when.
  quiet. eexists. split; [reflexivity|]. simpl. by rewrite W.
Qed.

Lemma new_turns m t l n : untouched (channel (ses t)) -> Z.of_nat m < l <= 500 ->
  exists log', run_loop w cfg (m + n) app_fuel l t = run_loop w cfg n app_fuel (l - Z.of_nat m) (mk_thread (ses t) log') /\
    waits log' = (m + waits (log t))%nat.
Proof.
  revert t l. induction m as [|m IH]; intros t l U Hl.
  - exists (log t). destruct t. rewrite Z.sub_0_r. done.
  - destruct (new_turn t l U) as (l1 & E & W); [lia|]. cbn [run_loop Nat.add].
    erewrite bind_eq by exact E. destruct (IH (mk_thread (ses t) l1) (l - 1) U) as (l2 & E2 & W2); [lia|].
    exists l2. rewrite E2. cbn [ses log] in *. replace (l - 1 - Z.of_nat m) with (l - Z.of_nat (S m)) by lia.
    split; [done|lia].
Qed.

(** The hangup of the thread itself, from a channel that nobody has hung up. *)
Lemma hangup_ends cause t : orderly w ->
  cs (state (channel (ses t))) < cs CS_HANGUP -> flag_get (channel (ses t)) CF_LEG_HOLDING = 0 ->
  test_flag (opaque_flags (channel (ses t))) OCF_HANGUP = false -> sound (channel (ses t)) ->
  none Decided (others (ses t)) ->
  length (rt_handlers (runtime (ses t))) = SWITCH_MAX_STATE_HANDLERS ->
  (forall x, length (default [] (extensions (ses t) !! x)) < app_fuel)%nat ->
  exists t', hangup w cfg app_fuel cause t = (t', Returned tt) /\ gone app_fuel (cs CS_HANGUP) t' /\
    hangup_cause (channel (ses t')) = cause.
Proof.
  intros Hw L H O S D R A. unfold hangup, clear_ch_flag.
  quiet. quiet. unfold hangup_begin. rewrite O. cbn [negb]. quiet.
  set (s1 := ses t <| channel := _ |>).
  assert (C1 : sound (channel s1) /\ state (channel s1) = state (channel (ses t)) /\
    flag_get (channel s1) CF_LEG_HOLDING = 0) by done.
  assert (D1 : runtime s1 = runtime (ses t) /\ extensions s1 = extensions (ses t) /\ others s1 = others (ses t)) by done.
  clearbody s1. destruct C1 as (S1 & E1 & H1), D1 as (R1 & A1 & O1).
  erewrite (bind_eq (on_channel w _)).
  2:{ apply (quiet_channel w Hq _ _ (channel s1)). unfold hangup_unhold, switch_channel_test_flag. cbn [ses].
      by rewrite H1. }
  cbv beta. cbn [ses log negb].
  set (e1 := look w (Interleave :: Interleave :: Interleave :: log t)).
  destruct (switch_channel_clear_flag e1 (channel s1) CF_BLOCK_STATE) as [ch2| |] eqn:F;
    [|by unfold switch_channel_clear_flag in F..].
  assert (K2 := clear_flag_core _ _ _ _ F).
  erewrite (bind_eq (on_channel w _)) by (by apply (quiet_channel w Hq _ _ ch2)). cbv beta. cbn [ses log]. rupd.
  quiet. rupd. assert (hangup_live ch2 = true) as ->.
  { unfold hangup_live. apply Z.ltb_lt. rewrite (co_state _ _ K2), E1. done. }
  cbn [negb].
  erewrite (bind_eq (on_channel w _)) by (by apply (quiet_channel w Hq)). cbv beta. cbn [ses log]. rupd.
  match goal with |- context [hangup_end_hold ?e ch2] => assert (K3 := hangup_end_hold_core e ch2);
    set (ch3 := hangup_end_hold e ch2) in * end.
  erewrite (bind_eq (on_channel w _)) by (by apply (quiet_channel w Hq)). cbv beta. cbn [ses log]. rupd.
  erewrite (bind_eq (on_channel w _)) by (by apply (quiet_channel w Hq)). cbv beta. cbn [ses log]. rupd.
  set (ch4 := hangup_mark (hangup_enter ch3) cause).
  erewrite (bind_eq (on_channel w _)) by (by apply (quiet_channel w Hq)). cbv beta. cbn [ses log]. rupd.
  match goal with |- context [hangup_report ?e ch4 cause] => assert (K5 := hangup_report_core e ch4 cause);
    set (ch5 := hangup_report e ch4 cause) in * end.
  erewrite (bind_eq (on_channel w _)) by (by apply (quiet_channel w Hq)). cbv beta. cbn [ses log]. rupd.
  set (t2 := mk_thread _ _).
  assert (S3 : sound ch3) by (apply (core_sound _ _ K3), (core_sound _ _ K2), S1).
  assert (S5 : sound ch5) by (apply (core_sound _ _ K5); destruct S3; by split).
  assert (G : gone app_fuel (cs CS_HANGUP) t2 /\ hangup_cause (channel (ses t2)) = cause).
  { subst t2. unfold gone, hangup_event, emit. cbn [ses]. rupd. rewrite R1, A1, O1.
    rewrite (co_state _ _ K5), (co_cause _ _ K5). by split_and!. }
  clearbody t2. destruct G as [G Ec].
  destruct (safe_hangup_state w cfg Hw app_fuel (cs CS_HANGUP) ltac:(done) false true t2 G) as (t3 & [] & E3 & G3).
  exists t3. split_and!; [done|done|]. rewrite <- Ec.
  pose proof (held_hangup_state w cfg Hq (fun _ => True) app_fuel false true (fun _ _ _ _ => I) t2 I) as V.
  rewrite E3 in V. apply V, G.
Qed.

Lemma set_no_cdr e ch : exists ch', switch_channel_set_flag e ch CF_NO_CDR = Ok ch' /\ core ch ch' /\
  (flags_wf ch -> flag_get ch' CF_LEG_HOLDING = flag_get ch CF_LEG_HOLDING).
Proof using Type.
  unfold switch_channel_set_flag.
  exists (if negb (flag_get ch CF_NO_CDR =? 1) then flag_put ch CF_NO_CDR 1 else ch).
  assert (E : switch_channel_set_flag_value e ch CF_NO_CDR 1 =
    Ok (if negb (flag_get ch CF_NO_CDR =? 1) then flag_put ch CF_NO_CDR 1 else ch)) by reflexivity.
  split; [exact E|]. split; [by apply (set_flag_value_core e ch CF_NO_CDR 1)|].
  intros W. destruct (negb _); [|done]. by rewrite flag_get_put.
Qed.

(** The turn in which the count reaches zero. *)
Lemma last_turn t : orderly w -> untouched (channel (ses t)) -> none Decided (others (ses t)) ->
  length (rt_handlers (runtime (ses t))) = SWITCH_MAX_STATE_HANDLERS ->
  (forall x, length (default [] (extensions (ses t) !! x)) < app_fuel)%nat ->
  exists t', turn w cfg app_fuel 1 t = (t', Returned (Some 0)) /\ gone app_fuel (cs CS_HANGUP) t' /\
    hangup_cause (channel (ses t')) = SWITCH_CAUSE_WRONG_CALL_STATE.
Proof.
  intros Hw U D R A. destruct (new_turn_start t 1 U) as (log' & -> & _). destruct U as [Es Er _ Eh Eo Ef Eu].
  unfold end_turn, get_state, get_running_state, parse_all_events, bind at 1.
  quiet. quiet. rewrite Es, Er, !bool_decide_eq_true_2 by done.
  quiet. quiet. cbv zeta. change (u32 (1 - 1) =? 0) with true. unfold when, set_ch_flag.
  destruct (set_no_cdr (look w (Interleave :: Do "switch_ivr_parse_all_events" [] :: Yield 20000 :: Interleave :: Interleave :: log'))
    (channel (ses t))) as (ch' & E & C & K).
  match goal with |- context [bind (bind (on_channel w ?f) ?g) ?h ?t0] =>
    assert (X : on_channel w f t0 = (mk_thread (ses t <| channel := ch' |>) (Interleave :: log t0), Returned tt))
      by exact (quiet_channel w Hq f t0 ch' E);
    set (t1 := mk_thread (ses t <| channel := ch' |>) (Interleave :: log t0)) in *;
    assert (Y : bind (bind (on_channel w f) g) h t0 = bind (hangup w cfg app_fuel SWITCH_CAUSE_WRONG_CALL_STATE) h t1)
      by (unfold bind at 1 2; by rewrite X)
  end.
  rewrite Y. destruct (hangup_ends SWITCH_CAUSE_WRONG_CALL_STATE t1 Hw) as (t2 & E2 & G & Ec);
    subst t1; cbn [ses]; rupd; try done.
  - by rewrite (co_state _ _ C), Es.
  - by rewrite K.
  - by rewrite (co_opaque _ _ C).
  - by eapply core_sound.
  - exists t2. erewrite bind_eq by exact E2. done.
Qed.
End Abandoned.

(** A session whose channel stays new waits five hundred times, unchanged,
    and is then hung up by its own thread as WRONG_CALL_STATE and brought to its
    end; 502 turns of the loop are enough. *)
Theorem session_abandoned w cfg n app_fuel t :
  quiet w -> orderly w -> (502 <= n)%nat -> untouched (channel (ses t)) -> none Decided (others (ses t)) ->
  length (rt_handlers (runtime (ses t))) = SWITCH_MAX_STATE_HANDLERS ->
  (forall x, length (default [] (extensions (ses t) !! x)) < app_fuel)%nat ->
  (forall m r, (m < 500)%nat -> exists log',
     run_loop w cfg (m + r) app_fuel 500 t =
       run_loop w cfg r app_fuel (500 - Z.of_nat m) (mk_thread (ses t) log') /\
     waits log' = (m + waits (log t))%nat) /\
  exists t', switch_core_session_run w cfg n app_fuel t = (t', Returned tt) /\
    state (channel (ses t')) = CS_DESTROY /\
    hangup_cause (channel (ses t')) = SWITCH_CAUSE_WRONG_CALL_STATE.
Proof.
  intros Hq Hw Hn U D R A. split; [intros m r Hm; apply (new_turns w cfg Hq app_fuel m t 500 r U); lia|].
  unfold switch_core_session_run. erewrite (bind_eq (modify _)) by reflexivity. cbv beta.
  set (t0 := mk_thread _ (log t)). assert (U0 : untouched (channel (ses t0))) by exact U.
  destruct (new_turns w cfg Hq app_fuel 499 t0 500 (S (n - 500)) U0) as (l1 & E1 & _); [lia|].
  replace (499 + S (n - 500))%nat with n in E1 by lia. change (500 - Z.of_nat 499) with 1 in E1.
  destruct (last_turn w cfg Hq app_fuel (mk_thread (ses t0) l1) Hw U0 D R A) as (t2 & E2 & G & Ec).
  destruct (run_loop_ends w cfg Hw app_fuel (cs CS_HANGUP) (n - 500) 0 ltac:(done) ltac:(lia) t2 G)
    as (t3 & [] & E3 & ((G3 & _) & [_ N3] & _)).
  assert (E : run_loop w cfg n app_fuel 500 t0 = (t3, Returned tt)).
  { rewrite E1. cbn [run_loop]. erewrite bind_eq by exact E2. exact E3. }
  erewrite (bind_eq (run_loop _ _ _ _ _)) by exact E. eexists. split; [reflexivity|]. cbn [ses]. rupd.
  split; [destruct (state (channel (ses t3))); done|].
  rewrite <- Ec. apply (held_loop w cfg Hq _ _ _ _ _ E3). apply G.
Qed.

(** ** An extension is executed in order *)

(** The applications run so far, newest first. *)
Definition executed (l : list call) : list switch_caller_application :=
  omap (fun c => match c with Execute a => Some a | _ => None end) l.

(** Up to the first application that fails, and what is left then. *)
Fixpoint ran (ok : switch_caller_application -> bool) (apps : list switch_caller_application) :=
  match apps with
  | [] => ([], [], true)
  | a :: apps =>
    if ok a then let '(r, rest, all) := ran ok apps in (a :: r, rest, all) else ([a], apps, false)
  end.

(** A channel in the middle of its dialplan. *)
Record executing (ch : switch_channel) : Prop := mk_executing {
  ex_state : state ch = CS_EXECUTE;
  ex_running : running_state ch = CS_EXECUTE;
  ex_cause : hangup_cause ch = 0;
  ex_flags : forall f, f ∈ [CF_TRANSFER; CF_NOT_READY; CF_LEG_HOLDING; CF_CONFIRM_BLIND_TRANSFER] -> flag_get ch f = 0;
  ex_opaque : test_flag (opaque_flags ch) OCF_HANGUP = false;
  ex_wf : flags_wf ch;
  ex_sound : sound ch;
  ex_profile : caller_profile ch <> None
}.

Lemma executing_put ch f v : executing ch ->
  f ∉ [CF_TRANSFER; CF_NOT_READY; CF_LEG_HOLDING; CF_CONFIRM_BLIND_TRANSFER] -> executing (flag_put ch f v).
Proof.
  intros [] N. constructor; try done.
  - intros g Hg. rewrite flag_get_put by done. case_decide; [by subst|by apply ex_flags0].
  - by apply flags_wf_put.
Qed.
Lemma executing_emit ch x : executing ch -> executing (emit x ch).
Proof. by intros []; constructor. Qed.

Lemma clear_recovering e ch : executing ch ->
  exists ch', switch_channel_clear_flag e ch CF_RECOVERING = Ok ch' /\ executing ch'.
Proof.
  intros X.
  exists (if negb (truth (hangup_cause (flag_put ch CF_RECOVERING 0)))
          then emit RecoveryTrack (flag_put ch CF_RECOVERING 0) else flag_put ch CF_RECOVERING 0).
  split; [reflexivity|]. assert (Y : executing (flag_put ch CF_RECOVERING 0)) by (apply executing_put; [done|set_solver]).
  destruct (negb _); [by apply executing_emit|done].
Qed.

Lemma set_recovered e ch : executing ch ->
  exists ch', switch_channel_set_flag e ch CF_RECOVERED = Ok ch' /\ executing ch'.
Proof.
  intros X.
  exists (emit (SetVariable "recovered" (Some "true"%string))
            (if negb (flag_get ch CF_RECOVERED =? 1) then flag_put ch CF_RECOVERED 1 else ch)).
  split; [reflexivity|]. apply executing_emit. destruct (negb _); [apply executing_put; [done|set_solver]|done].
Qed.

Lemma clear_reset e ch : switch_channel_clear_flag e ch CF_RESET = Ok (flag_put ch CF_RESET 0).
Proof. reflexivity. Qed.

Section Execute.
Context (w : world) (cfg : setup) (Hq : quiet w) (app_fuel : nat).
Context (ok : switch_caller_application -> bool).
Context (Hok : forall a l, (answer w (Execute a :: l) is SWITCH_STATUS_SUCCESS) = ok a).
#[local] Set Default Proof Using "All".

(** Threads that differ by the applications left and the log. *)
Record executes (ext : Z) (t t' : thread) (r rest : list switch_caller_application) : Prop := mk_executes {
  xs_channel : channel (ses t') = channel (ses t);
  xs_runtime : runtime (ses t') = runtime (ses t);
  xs_others : others (ses t') = others (ses t);
  xs_rest : default [] (extensions (ses t') !! ext) = rest;
  xs_less x : (length (default [] (extensions (ses t') !! x)) <= length (default [] (extensions (ses t) !! x)))%nat;
  xs_log : executed (log t') = reverse r ++ executed (log t)
}.

Lemma loop_in_order ext n t apps :
  state (channel (ses t)) = CS_EXECUTE -> flag_get (channel (ses t)) CF_RESET = 0 ->
  default [] (extensions (ses t) !! ext) = apps -> (length apps < n)%nat ->
  exists t', execute_loop w cfg n app_fuel ext t = (t', Returned ((ran ok apps).2)) /\
    executes ext t t' (ran ok apps).1.1 (ran ok apps).1.2.
Proof.
  revert n t. induction apps as [|a apps IH]; intros n t Hs Hr Ha L; (destruct n as [|n]; [simpl in L; lia|]);
    cbn [ran execute_loop]; unfold get_state, applications, test_ch_flag, switch_channel_test_flag.
  - quiet. quiet. rewrite Ha.
    eexists. split; [reflexivity|]. by constructor.
  - quiet. quiet. rewrite Ha, Hs.
    rewrite bool_decide_eq_true_2 by done. cbn [negb]. unfold set_applications, execute_application, ask.
    quiet.
    set (s1 := ses t <| extensions := _ |>).
    erewrite (bind_eq (bind (call_out w _) _)) by (unfold bind; rewrite quiet_call by done; reflexivity).
    cbv beta. cbn [ses log]. rewrite Hok. destruct (ok a); cbn [negb].
    + quiet. subst s1. cbn [channel]. rupd. rewrite Hr. cbn [truth Z.eqb negb].
      match goal with |- context [execute_loop w cfg n app_fuel ext ?t0] => set (t1 := t0) end.
      destruct (IH n t1) as (t' & E & X); [done|done|subst t1; cbn [ses]; rupd; by rewrite lookup_insert_eq|simpl in L; lia|].
      rewrite E. destruct (ran ok apps) as [[r rest] all]. eexists. split; [reflexivity|].
      destruct X as [X1 X2 Xo X3 X4 X5]. constructor; [done|done|done|done| |].
      * intros x. etrans; [apply X4|]. subst t1. cbn [ses]. rupd.
        destruct (decide (x = ext)) as [->|N]; [rewrite lookup_insert_eq, Ha; simpl; lia|by rewrite lookup_insert_ne].
      * cbn [fst snd]. rewrite reverse_cons, <- app_assoc. exact X5.
    + eexists. split; [reflexivity|]. subst s1. constructor; cbn [ses log]; rupd; [done|done|done| | |done].
      * by rewrite lookup_insert_eq.
      * intros x. destruct (decide (x = ext)) as [->|N]; [rewrite lookup_insert_eq, Ha; simpl; lia|by rewrite lookup_insert_ne].
Qed.

(** What comes before the loop leaves the channel in its dialplan. *)
Lemma execute_starts t : executing (channel (ses t)) ->
  exists t1, switch_core_standard_on_execute w cfg app_fuel t =
      (ext ← get_caller_extension w;
       match ext with
       | None => hangup w cfg app_fuel SWITCH_CAUSE_NORMAL_CLEARING
       | Some ext =>
         done ← execute_loop w cfg app_fuel app_fuel ext;
         if negb done then ret tt
         else
           blind_transfer_response w ;;
           ready ← channel_ready w;
           st ← (if ready then get_state w else ret CS_NONE);
           when (ready && (st is CS_EXECUTE)) (hangup w cfg app_fuel SWITCH_CAUSE_NORMAL_CLEARING)
       end) t1 /\
    executing (channel (ses t1)) /\ flag_get (channel (ses t1)) CF_RESET = 0 /\
    caller_extension (ses t1) = caller_extension (ses t) /\ extensions (ses t1) = extensions (ses t) /\
    runtime (ses t1) = runtime (ses t) /\ others (ses t1) = others (ses t) /\
    executed (log t1) = executed (log t).
Proof using Hq.
  clear ok Hok. intros X. unfold switch_core_standard_on_execute, clear_ch_flag, set_ch_flag, get_variable, test_ch_flag.
  quiet. destruct (clear_recovering (look w (Interleave :: Standard CS_EXECUTE :: log t)) _ X) as (c1 & E1 & X1).
  erewrite bind_eq by (by apply (quiet_channel w Hq)). cbv beta. cbn [ses log].
  quiet. erewrite (bind_eq (bind (call_out w _) _)) by (unfold bind; rewrite quiet_call by done; reflexivity).
  cbv beta. cbn [ses log].
  match goal with |- exists _, bind ?m _ ?t0 = _ /\ _ =>
    assert (exists c2 l2, m t0 = (mk_thread (ses t <| channel := c2 |>) l2, Returned tt) /\ executing c2 /\
      executed l2 = executed (log t)) as (c2 & l2 & E2 & X2 & L2) end.
  { destruct (variable w _); [|by eexists c1, _]. quiet. destruct (truth _); [by eexists c1, _|]. cbn [negb]. unfold when.
    match goal with |- exists _ _, on_channel _ _ ?t0 = _ /\ _ =>
      destruct (set_recovered (look w (Interleave :: log t0)) c1 X1) as (c2 & E2 & X2) end.
    eexists c2, _. split; [etrans; [apply (quiet_channel w Hq _ _ c2); exact E2|]; cbn [ses]; rupd; reflexivity|]. done. }
  erewrite bind_eq by exact E2. cbv beta. cbn [ses log].
  erewrite bind_eq by (apply (quiet_channel w Hq _ _ (flag_put c2 CF_RESET 0)), clear_reset). cbv beta. cbn [ses log]. rupd.
  quiet. eexists. split; [reflexivity|]. cbn [ses log]. rupd.
  split_and!; try done; [apply executing_put; [done|set_solver]|]. rewrite flag_get_put; [done|apply X2].
Qed.

(** What comes after it hangs the channel up. *)
Lemma execute_finishes t : executing (channel (ses t)) ->
  exists t1, (blind_transfer_response w ;;
      ready ← channel_ready w;
      st ← (if ready then get_state w else ret CS_NONE);
      when (ready && (st is CS_EXECUTE)) (hangup w cfg app_fuel SWITCH_CAUSE_NORMAL_CLEARING)) t =
    hangup w cfg app_fuel SWITCH_CAUSE_NORMAL_CLEARING t1 /\
    ses t1 = ses t /\ executed (log t1) = executed (log t).
Proof using Hq.
  clear ok Hok. intros [Es Er Ec Ef _ _ _ _].
  assert (R : switch_channel_test_ready id true false false (channel (ses t)) true false = (channel (ses t), true)).
  { unfold switch_channel_test_ready, switch_channel_state_change_pending, switch_channel_down_nosig,
      switch_channel_test_flag, id.
    rewrite Es, Er, Ec, (Ef CF_TRANSFER), (Ef CF_NOT_READY) by set_solver. reflexivity. }
  unfold blind_transfer_response, channel_ready, get_state, test_ch_flag, switch_channel_test_flag.
  erewrite bind_eq; [|].
  2:{ erewrite bind_eq by (unfold bind; rewrite quiet_call by done; cbn [ses log]; by apply quiet_peek). cbv beta. cbn [ses log].
      rewrite R. cbn [snd]. quiet. rewrite Es, bool_decide_eq_true_2 by done. cbn [andb]. quiet.
      rewrite (Ef CF_CONFIRM_BLIND_TRANSFER) by set_solver. cbn [truth Z.eqb negb]. quiet. reflexivity. }
  cbv beta.
  erewrite bind_eq by (unfold bind; rewrite quiet_call by done; cbn [ses log]; by apply quiet_peek). cbv beta. cbn [ses log].
  rewrite R. cbn [snd]. quiet. rewrite Es, bool_decide_eq_true_2 by done. cbn [andb]. unfold when.
  eexists. split; [reflexivity|]. done.
Qed.
End Execute.

(** C37. The thread of a session that is left alone runs the applications of
    its extension in order.  If one fails, it and those before it are what has
    been run, the ones behind it stay, and the channel is left as it was; if all
    succeed, the thread hangs up with NORMAL_CLEARING.  Left alone: nobody else,
    application, handler or thread, changes the session meanwhile ([quiet]), so
    that this says nothing of applications such as hangup or transfer; every
    application answers by what it is ([ok]); the channel is in its dialplan
    ([executing]) and not being hung up; and the world is [orderly] otherwise. *)
Theorem extension_in_order w cfg app_fuel ok ext t :
  quiet w -> orderly w -> (forall a l, (answer w (Execute a :: l) is SWITCH_STATUS_SUCCESS) = ok a) ->
  executing (channel (ses t)) -> caller_extension (ses t) = Some ext ->
  none Decided (others (ses t)) ->
  length (rt_handlers (runtime (ses t))) = SWITCH_MAX_STATE_HANDLERS ->
  (forall x, length (default [] (extensions (ses t) !! x)) < app_fuel)%nat ->
  let '(r, rest, all) := ran ok (default [] (extensions (ses t) !! ext)) in
  exists t1, executed (log t1) = reverse r ++ executed (log t) /\
    default [] (extensions (ses t1) !! ext) = rest /\ executing (channel (ses t1)) /\
    if all : bool then
      exists t2, switch_core_standard_on_execute w cfg app_fuel t = (t2, Returned tt) /\
        hangup w cfg app_fuel SWITCH_CAUSE_NORMAL_CLEARING t1 = (t2, Returned tt) /\
        cs CS_HANGUP <= cs (state (channel (ses t2))) /\
        hangup_cause (channel (ses t2)) = SWITCH_CAUSE_NORMAL_CLEARING
    else switch_core_standard_on_execute w cfg app_fuel t = (t1, Returned tt).
Proof.
  intros Hq Hw Hok X Hx D R A.
  destruct (execute_starts w cfg Hq app_fuel t X) as (t0 & -> & X0 & Z0 & C0 & A0 & R0 & O0 & L0).
  unfold get_caller_extension. erewrite bind_eq by (unfold bind; rewrite quiet_call by done; reflexivity).
  cbv beta. cbn [ses log].
  destruct (caller_profile (channel (ses t0))) eqn:P; [|by destruct (ex_profile _ X0)]. rewrite C0, Hx.
  set (t1 := mk_thread (ses t0) _). rewrite <- A0.
  destruct (loop_in_order w cfg Hq app_fuel ok Hok ext app_fuel t1 _ (ex_state _ X0) Z0 eq_refl) as (t2 & E & Y);
    [subst t1; cbn [ses]; by rewrite A0|].
  rewrite (bind_eq _ _ _ _ _ E). destruct Y as [Y1 Y2 Yo Y3 Y4 Y5]. change (ses t1) with (ses t0) in *.
  destruct (ran ok _) as [[r rest] all]. cbn [fst snd] in *. change (executed (log t1)) with (executed (log t0)) in Y5.
  rewrite L0 in Y5. destruct all; cbn [negb]; [|by exists t2; rewrite Y1].
  assert (X2 : executing (channel (ses t2))) by by rewrite Y1.
  destruct (execute_finishes w cfg Hq app_fuel t2 X2) as (t3 & -> & S3 & L3).
  exists t3. rewrite S3, L3. split_and!; try done.
  destruct (hangup_ends w cfg Hq app_fuel SWITCH_CAUSE_NORMAL_CLEARING t3 Hw) as (t4 & E4 & G & Ec); rewrite ?S3.
  - by rewrite (ex_state _ X2).
  - apply X2. set_solver.
  - apply X2.
  - apply X2.
  - by rewrite Yo, O0.
  - by rewrite Y2, R0.
  - intros x. specialize (Y4 x). specialize (A x). rewrite <- A0 in A. lia.
  - exists t4. split_and!; [done|done|apply G|done].
Qed.

Lemma w_untouched : untouched new_channel.
Proof. constructor; try (vm_compute; reflexivity); [exact w_flags_wf|]. split; [reflexivity|discriminate]. Qed.

Lemma session_abandoned_witness :
  exists t', switch_core_session_run w_world w_setup 502 1 (w_thread new_channel) = (t', Returned tt) /\
    state (channel (ses t')) = CS_DESTROY /\
    hangup_cause (channel (ses t')) = SWITCH_CAUSE_WRONG_CALL_STATE.
Proof.
  apply (session_abandoned w_world w_setup 502 1 (w_thread new_channel)).
  - intros l s. split; reflexivity.
  - exact w_orderly.
  - lia.
  - exact w_untouched.
  - intros c. apply not_elem_of_nil.
  - reflexivity.
  - intros x. cbn [w_thread w_session ses extensions]. rewrite lookup_empty. simpl. lia.
Defined.

(** Everything succeeds but applications of one name. *)
Definition w_failing (bad : string) : world :=
  mk_world (fun _ s => s) (fun _ _ => [])
    (fun l => match l with
              | Execute a :: _ => if String.eqb (application_name a) bad then SWITCH_STATUS_FALSE else SWITCH_STATUS_SUCCESS
              | _ => SWITCH_STATUS_SUCCESS
              end)
    (fun _ => false) (fun _ => None) (fun _ => None) (fun _ => w_env).
Definition w_ok (bad : string) (a : switch_caller_application) : bool := negb (String.eqb (application_name a) bad).
Definition w_apps : list switch_caller_application :=
  [mk_app "answer" ""; mk_app "sleep" "1000"; mk_app "playback" "tone"; mk_app "hangup" ""].
Definition w_dialplan : thread :=
  let ch := new_channel <| state := CS_EXECUTE |> <| running_state := CS_EXECUTE |>
              <| caller_profile := Some (mk_times 0 0) |> in
  mk_thread (mk_session ch [] 0 (Some 3) None {[3 := w_apps]}
    (mk_core_handlers (replicate SWITCH_MAX_STATE_HANDLERS 0) 0)) [].

Lemma w_failing_orderly bad : orderly (w_failing bad).
Proof. constructor; [intros l s; reflexivity|done|done|]. intros l c. by exists false. Qed.

Lemma w_executing : executing (channel (ses w_dialplan)).
Proof.
  constructor; try (vm_compute; reflexivity).
  - intros f Hf. repeat (apply elem_of_cons in Hf as [->|Hf]; [vm_compute; reflexivity|]). by apply elem_of_nil in Hf.
  - exact w_flags_wf.
  - split; [reflexivity|discriminate].
  - discriminate.
Qed.
Lemma w_dialplan_short x :
  (length (default [] (extensions (ses w_dialplan) !! x)) < 5)%nat.
Proof.
  change (extensions (ses w_dialplan)) with ({[3 := w_apps]} : gmap Z (list switch_caller_application)).
  destruct (decide (x = 3)) as [->|N]; [rewrite lookup_singleton_eq|rewrite lookup_singleton_ne by done]; simpl; lia.
Qed.

(** The third of four applications fails; or none does, and the channel is hung up. *)
Lemma extension_in_order_witness :
  (exists t1, executed (log t1) = [mk_app "playback" "tone"; mk_app "sleep" "1000"; mk_app "answer" ""] /\
    default [] (extensions (ses t1) !! 3) = [mk_app "hangup" ""] /\
    switch_core_standard_on_execute (w_failing "playback") w_setup 5 w_dialplan = (t1, Returned tt)) /\
  exists t2, switch_core_standard_on_execute (w_failing "park") w_setup 5 w_dialplan = (t2, Returned tt) /\
    hangup_cause (channel (ses t2)) = SWITCH_CAUSE_NORMAL_CLEARING.
Proof.
  assert (Q : forall bad, quiet (w_failing bad)) by (intros bad l s; split; reflexivity).
  assert (K : forall bad a l, (answer (w_failing bad) (Execute a :: l) is SWITCH_STATUS_SUCCESS) = w_ok bad a).
  { intros bad a l. unfold w_failing, w_ok. cbn. by destruct (String.eqb _ _). }
  split.
  - destruct (extension_in_order (w_failing "playback") w_setup 5 (w_ok "playback") 3 w_dialplan (Q _)
      (w_failing_orderly _) (K _) w_executing eq_refl (fun c => not_elem_of_nil _) eq_refl w_dialplan_short) as (t1 & E1 & E2 & _ & E3).
    exists t1. split_and!; assumption.
  - destruct (extension_in_order (w_failing "park") w_setup 5 (w_ok "park") 3 w_dialplan (Q _)
      (w_failing_orderly _) (K _) w_executing eq_refl (fun c => not_elem_of_nil _) eq_refl w_dialplan_short) as (t1 & _ & _ & _ & t2 & E3 & _ & _ & E4).
    exists t2. split; assumption.
Defined.
