(* ===== verification/JbSort.v ===== *)
(** * The list sort of the jitter buffer (sort_nodes of src/switch_jitterbuffer.c)

    A bottom-up merge sort of a linked list, with the comparison as an
    argument: each pass merges neighbouring runs of [insize] nodes, and the
    passes end when one merge covered the list. *)
From S2P Require Import Prelude.
From Stdlib Require Import Sorting.Sorted.
#[local] Notation length := List.length (only parsing).

Section Sort.
Context {A : Type} (cmp : A -> A -> Z).

(** The inner loop on the two runs [p] (of [psize] nodes) and [q]. *)
Fixpoint merge (p : list A) : list A -> list A :=
  fix merge_q (q : list A) : list A :=
    match p, q with
    | [], _ => q
    | _, [] => p
    | x :: p', y :: q' => if cmp x y <=? 0 then x :: merge p' q else y :: merge_q q'
    end.

(** One pass: the merged list and the number of merges.  [fuel] bounds the
    number of merges, each of which takes a node at least. *)
Fixpoint pass (fuel : nat) (insize : nat) (p : list A) : list A * nat :=
  match fuel, p with
  | O, _ => (p, O)
  | S _, [] => ([], O)
  | S fuel, _ =>
    let q := drop insize p in
    let '(rest, nmerges) := pass fuel insize (drop insize q) in
    (merge (take insize p) (take insize q) ++ rest, S nmerges)
  end.

(** The passes; [insize] doubles, so the length of the list bounds them. *)
Fixpoint passes (fuel : nat) (insize : nat) (l : list A) : list A :=
  match fuel with
  | O => l
  | S fuel =>
    let '(l, nmerges) := pass (length l) insize l in
    if (nmerges <=? 1)%nat then l else passes fuel (insize * 2) l
  end.

Definition sort_nodes (l : list A) : list A :=
  match l with [] => [] | _ => passes (length l) 1 l end.

(** ** Correctness

    [le x y] is [cmp x y <= 0]; it has to be a total preorder. *)

Definition le (x y : A) : Prop := cmp x y <= 0.

Lemma merge_nil_r p : merge p [] = p.
Proof. by destruct p. Qed.

Lemma merge_cons x p y q :
  merge (x :: p) (y :: q) = if cmp x y <=? 0 then x :: merge p (y :: q) else y :: merge (x :: p) q.
Proof. reflexivity. Qed.

Lemma merge_perm p q : merge p q ≡ₚ p ++ q.
Proof.
  revert q. induction p as [|x p IHp]; intros q; [by destruct q|].
  induction q as [|y q IHq]; [by rewrite merge_nil_r, app_nil_r|]. rewrite merge_cons.
  destruct (cmp x y <=? 0); [by rewrite IHp|]. rewrite IHq. apply Permutation_middle.
Qed.

Lemma pass_perm fuel insize l : fst (pass fuel insize l) ≡ₚ l.
Proof.
  revert l. induction fuel as [|fuel IH]; intros [|x l]; try done. cbn [pass].
  specialize (IH (drop insize (drop insize (x :: l)))).
  destruct (pass fuel insize _) as [rest n]. cbn [fst] in *. rewrite IH, merge_perm.
  by rewrite <- app_assoc, !take_drop.
Qed.

Lemma pass_length fuel insize l : length (fst (pass fuel insize l)) = length l.
Proof. by rewrite pass_perm. Qed.

Lemma passes_perm fuel insize l : passes fuel insize l ≡ₚ l.
Proof.
  revert insize l. induction fuel as [|fuel IH]; intros insize l; [done|]. cbn [passes].
  pose proof (pass_perm (length l) insize l) as P. destruct (pass _ _ _) as [l' n]. cbn [fst] in P.
  destruct (n <=? 1)%nat; [done|]. by rewrite IH.
Qed.

Lemma sort_nodes_perm l : sort_nodes l ≡ₚ l.
Proof. destruct l; [done|]. apply passes_perm. Qed.

Section Order.
Context (le_total : forall x y, le x y \/ le y x) (le_trans : forall x y z, le x y -> le y z -> le x z).
#[local] Set Default Proof Using "Type*".

Notation sorted := (StronglySorted le).

Lemma not_le x y : ~ le x y -> le y x.
Proof. destruct (le_total x y); tauto. Qed.

Lemma merge_sorted p q : sorted p -> sorted q -> sorted (merge p q).
Proof.
  revert q. induction p as [|x p IHp]; intros q Sp Sq; [by destruct q|].
  induction q as [|y q IHq]; [by rewrite merge_nil_r|]. rewrite merge_cons.
  pose proof Sp as Sp'. pose proof Sq as Sq'.
  apply StronglySorted_inv in Sp as [Sp Fp]. apply StronglySorted_inv in Sq as [Sq Fq].
  destruct (Z.leb_spec (cmp x y) 0) as [L|L].
  - constructor; [by apply IHp|]. rewrite merge_perm. apply Forall_app. split; [done|].
    constructor; [done|]. eapply Forall_impl; [exact Fq|]. intros z Hz. by eapply le_trans.
  - assert (le y x) by (apply not_le; unfold le; lia).
    constructor; [by apply IHq|]. rewrite merge_perm. apply Forall_app. split; [|done].
    constructor; [done|]. eapply Forall_impl; [exact Fp|]. intros z Hz. by eapply le_trans.
Qed.

(** Runs: every block of [n] nodes from the start is sorted. *)
Fixpoint runs (fuel : nat) (n : nat) (l : list A) : Prop :=
  match fuel, l with
  | _, [] => True
  | O, _ => False
  | S fuel, _ => sorted (take n l) /\ runs fuel n (drop n l)
  end.

Lemma runs_two n fuel x l : (0 < n)%nat -> runs fuel n (x :: l) ->
  sorted (take n (x :: l)) /\ sorted (take n (drop n (x :: l))) /\
  exists fuel', (fuel' < fuel)%nat /\ runs fuel' n (drop n (drop n (x :: l))).
Proof.
  intros Hn R. destruct fuel as [|fuel]; [done|]. destruct R as [R1 R2]. split; [done|].
  destruct (drop n (x :: l)) as [|y k] eqn:E.
  - rewrite take_nil, drop_nil. split; [constructor|]. exists O. split; [lia|done].
  - destruct fuel as [|fuel]; [done|]. destruct R2 as [R2 R3]. split; [done|]. exists fuel. split; [lia|done].
Qed.

(** After a pass the runs are twice as long. *)
Lemma pass_runs fuel rf n l :
  (0 < n)%nat -> (length l <= fuel)%nat -> runs rf n l ->
  exists rf', runs rf' (n * 2) (fst (pass fuel n l)).
Proof.
  intros Hn. revert rf l. induction fuel as [|fuel IH]; intros rf [|x l] L R; try (by exists O).
  { simpl in L. lia. }
  cbn [pass]. destruct (runs_two n rf x l Hn R) as (S1 & S2 & rf' & _ & R').
  destruct (IH rf' (drop n (drop n (x :: l)))) as [rf2 R2]; [rewrite !length_drop; lia|done|].
  pose proof (pass_length fuel n (drop n (drop n (x :: l)))) as PL.
  destruct (pass fuel n _) as [rest k]. cbn [fst] in *.
  set (mg := merge (take n (x :: l)) (take n (drop n (x :: l)))).
  assert (Lm : length mg = (length (take n (x :: l)) + length (take n (drop n (x :: l))))%nat)
    by (unfold mg; by rewrite merge_perm, length_app).
  rewrite !length_take, length_drop in Lm. rewrite !length_drop in PL.
  exists (S rf2). destruct (mg ++ rest) as [|z t] eqn:E; [done|]. cbn [runs]. rewrite <- E. clear E.
  destruct (decide (length mg = n * 2)%nat) as [Em|Nm].
  - rewrite <- Em, take_app_length, drop_app_length. split; [by apply merge_sorted|].
    by rewrite Em.
  - assert (rest = []) as -> by (apply length_zero_iff_nil; lia).
    rewrite app_nil_r, take_ge, drop_ge by lia. split; [by apply merge_sorted|]. by destruct rf2.
Qed.

(** One merge means that two runs covered the list. *)
Lemma pass_one fuel rf n l :
  (0 < n)%nat -> (length l <= fuel)%nat -> runs rf n l -> (snd (pass fuel n l) <= 1)%nat ->
  sorted (fst (pass fuel n l)).
Proof.
  destruct fuel as [|fuel], l as [|x l]; intros Hn L R; try (by constructor); [simpl in L; lia|].
  cbn [pass]. destruct (runs_two n rf x l Hn R) as (S1 & S2 & _).
  destruct (drop n (drop n (x :: l))) as [|y k] eqn:D.
  - assert (pass fuel n [] = ([], O)) as -> by (by destruct fuel). cbn [fst snd]. intros _.
    rewrite app_nil_r. by apply merge_sorted.
  - destruct fuel as [|fuel].
    + apply (f_equal length) in D. rewrite !length_drop in D. simpl in *. lia.
    + cbn [pass]. destruct (pass fuel n _) as [rest q]. cbn [snd]. lia.
Qed.

Lemma pass_count fuel n l : (0 < n)%nat -> (length l <= n * 2)%nat -> (snd (pass fuel n l) <= 1)%nat.
Proof.
  intros Hn L. destruct fuel as [|fuel], l as [|x l]; simpl; try lia.
  replace (drop n (drop n (x :: l))) with ([] : list A).
  - assert (pass fuel n [] = ([], O)) as -> by (by destruct fuel). simpl. lia.
  - symmetry. apply length_zero_iff_nil. rewrite !length_drop. simpl in *. lia.
Qed.

Lemma passes_sorted fuel n l :
  (0 < n)%nat -> (exists rf, runs rf n l) -> (length l <= n * 2 ^ fuel)%nat -> (0 < fuel)%nat ->
  sorted (passes fuel n l).
Proof.
  revert n l. induction fuel as [|fuel IH]; intros n l Hn [rf R] L F; [lia|]. cbn [passes].
  pose proof (pass_one (length l) rf n l Hn (Nat.le_refl _) R) as P1.
  pose proof (pass_runs (length l) rf n l Hn (Nat.le_refl _) R) as P2.
  pose proof (pass_length (length l) n l) as P3.
  pose proof (pass_count (length l) n l Hn) as P4.
  destruct (pass (length l) n l) as [l' k]. cbn [fst snd] in *.
  destruct (Nat.leb_spec k 1); [by apply P1|].
  destruct fuel as [|fuel]; [simpl in L; lia|].
  apply IH; [lia|done| |lia]. rewrite P3. rewrite Nat.pow_succ_r' in L. lia.
Qed.

Lemma runs_one l : runs (length l) 1 l.
Proof.
  induction l as [|x l IH]; [done|]. cbn [runs List.length take drop]. rewrite take_0, drop_0.
  split; [|done]. repeat constructor.
Qed.

Lemma sort_nodes_sorted l : sorted (sort_nodes l).
Proof.
  destruct l as [|x l]; [constructor|]. unfold sort_nodes. apply passes_sorted; [lia| |..].
  - eexists. apply runs_one.
  - simpl length. pose proof (Nat.pow_gt_lin_r 2 (S (length l))). lia.
  - simpl. lia.
Qed.

(** Nodes that compare as equal keep their order: [f] picks a class of them. *)
Section Stable.
Context (f : A -> Prop) `{!forall x, Decision (f x)} (f_le : forall x y, f x -> f y -> le x y).

Lemma merge_stable p q : sorted p -> sorted q -> filter f (merge p q) = filter f p ++ filter f q.
Proof.
  revert q. induction p as [|x p IHp]; intros q Sp Sq; [by destruct q|].
  induction q as [|y q IHq]; [by rewrite merge_nil_r, app_nil_r|]. rewrite merge_cons.
  pose proof Sp as Sp'. apply StronglySorted_inv in Sp as [Sp Fp].
  pose proof Sq as Sq'. apply StronglySorted_inv in Sq as [Sq Fq].
  destruct (Z.leb_spec (cmp x y) 0) as [L|L].
  - rewrite !(filter_cons f x), IHp by done. by destruct (decide (f x)).
  - rewrite (filter_cons f y (merge _ _)), IHq, (filter_cons f y q) by done.
    destruct (decide (f y)) as [Fy|]; [|done].
    assert (filter f (x :: p) = []) as ->; [|done].
    apply filter_none. constructor.
    + intros Fx. pose proof (f_le x y Fx Fy). unfold le in *. lia.
    + eapply Forall_impl; [exact Fp|]. intros z Hz Fz. pose proof (le_trans _ _ _ Hz (f_le z y Fz Fy)).
      unfold le in *. lia.
Qed.

Lemma pass_stable fuel rf n l :
  (0 < n)%nat -> runs rf n l -> filter f (fst (pass fuel n l)) = filter f l.
Proof.
  intros Hn. revert rf l. induction fuel as [|fuel IH]; intros rf [|x l] R; try done. cbn [pass].
  destruct (runs_two n rf x l Hn R) as (S1 & S2 & rf' & _ & R').
  specialize (IH rf' _ R'). destruct (pass fuel n _) as [rest k]. cbn [fst] in *.
  rewrite filter_app, merge_stable, IH by done. by rewrite <- !filter_app, <- app_assoc, !take_drop.
Qed.

Lemma passes_stable fuel n l :
  (0 < n)%nat -> (exists rf, runs rf n l) -> filter f (passes fuel n l) = filter f l.
Proof.
  revert n l. induction fuel as [|fuel IH]; intros n l Hn [rf R]; [done|]. cbn [passes].
  pose proof (pass_stable (length l) rf n l Hn R) as P1.
  pose proof (pass_runs (length l) rf n l Hn (Nat.le_refl _) R) as P2.
  destruct (pass (length l) n l) as [l' k]. cbn [fst] in *.
  destruct (Nat.leb_spec k 1); [done|]. rewrite IH; [done|lia|done].
Qed.

Lemma sort_nodes_stable l : filter f (sort_nodes l) = filter f l.
Proof.
  destruct l as [|x l]; [done|]. unfold sort_nodes. apply passes_stable; [lia|].
  eexists. apply runs_one.
Qed.
End Stable.
End Order.
End Sort.
