(* ===== verification/JitterBuffer.v ===== *)
(** * The jitter buffer (src/switch_jitterbuffer.c)

    Packets wait in nodes of a linked list, indexed by sequence number (and by
    time stamp in time stamp mode) in integer hash tables, which are used
    through the interface [IntHash] only.  Sequence numbers and time stamps are
    kept in network byte order, as in the packets. *)
From S2P Require Import Prelude ChannelTypes Channel Hashtable JbSort.
From Stdlib Require Import Sorting.Sorted.
Open Scope Z_scope.
#[local] Notation length := List.length (only parsing).

(** ** Packets, nodes and the buffer *)

(** [switch_rtp_packet_t]: the fields of the header, and the body. *)
Record rtp_packet := mk_packet {
  version : Z; p_ : Z; x_ : Z; cc_ : Z; m_ : Z; pt : Z; seq : Z; ts : Z; ssrc : Z;
  body : list Z
}.

Record switch_jb_node := mk_node {
  packet : rtp_packet;
  len : Z;
  visible : bool;
  bad_hits : Z
}.

Inductive switch_jb_type := SJB_VIDEO | SJB_AUDIO.
#[export] Instance switch_jb_type_eq_dec : EqDecision switch_jb_type.
Proof. solve_decision. Defined.

Definition SJB_QUEUE_ONLY : Z := 1.
Definition PERIOD_LEN : Z := 250.
Definition RENACK_TIME : Z := 100000.

(** [sizeof(switch_rtp_packet_t)] and what of it follows the start of [body]:
    16392 bytes and two pointers. *)
Definition SIZEOF_PACKET : Z := 16412.
Definition BODY_ROOM : Z := 16400.

(** Calls to the session. *)
Inductive jb_effect := VideoRefresh | BitrateRequest (bits : Z).

Section JitterBuffer.
Context {H : Type} `{!IntHash H Z}.

(** Nodes live in the pool at addresses 1, 2, ...: [pool] holds their contents
    and [node_list] is the chain of the [next] pointers.  [prev] pointers always
    mirror the chain.  [period_miss_pct] only carries a quotient of two fields
    to its test. *)
Record switch_jb := mk_jb {
  node_list : list Z;
  pool : gmap Z switch_jb_node;
  last_target_seq : Z;
  highest_read_ts : Z;
  highest_dropped_ts : Z;
  highest_read_seq : Z;
  highest_wrote_ts : Z;
  highest_wrote_seq : Z;
  target_seq : Z;
  target_ts : Z;
  last_target_ts : Z;
  psuedo_seq : Z;
  last_psuedo_seq : Z;
  visible_nodes : Z;
  allocated_nodes : Z;
  complete_frames : Z;
  frame_len : Z;
  min_frame_len : Z;
  max_frame_len : Z;
  highest_frame_len : Z;
  period_miss_count : Z;
  consec_miss_count : Z;
  period_miss_inc : Z;
  period_good_count : Z;
  consec_good_count : Z;
  period_count : Z;
  dropped : Z;
  samples_per_frame : Z;
  samples_per_second : Z;
  bitrate_control : Z;
  video_low_bitrate : Z;
  write_init : bool;
  read_init : bool;
  next_seq : Z;
  last_len : Z;
  missing_seq_hash : H;
  node_hash : H;
  node_hash_ts : option H;
  flags : Z;
  type : switch_jb_type;
  session : bool;
  channel : option switch_channel;
  flush : bool;
  packet_count : Z;
  max_packet_len : Z;
  sent : list jb_effect
}.

#[export] Instance eta_jb : Eta switch_jb := fun j =>
  mk_jb (node_list j) (pool j) (last_target_seq j) (highest_read_ts j) (highest_dropped_ts j)
    (highest_read_seq j) (highest_wrote_ts j) (highest_wrote_seq j) (target_seq j) (target_ts j)
    (last_target_ts j) (psuedo_seq j) (last_psuedo_seq j) (visible_nodes j) (allocated_nodes j)
    (complete_frames j) (frame_len j) (min_frame_len j) (max_frame_len j) (highest_frame_len j)
    (period_miss_count j) (consec_miss_count j) (period_miss_inc j) (period_good_count j)
    (consec_good_count j) (period_count j) (dropped j) (samples_per_frame j) (samples_per_second j)
    (bitrate_control j) (video_low_bitrate j) (write_init j) (read_init j) (next_seq j) (last_len j)
    (missing_seq_hash j) (node_hash j) (node_hash_ts j) (flags j) (type j) (session j) (channel j)
    (flush j) (packet_count j) (max_packet_len j) (sent j).
#[export] Instance eta_node : Eta switch_jb_node := fun n =>
  mk_node (packet n) (len n) (visible n) (bad_hits n).
#[export] Instance eta_packet : Eta rtp_packet := fun p =>
  mk_packet (version p) (p_ p) (x_ p) (cc_ p) (m_ p) (pt p) (seq p) (ts p) (ssrc p) (body p).

Definition video (jb : switch_jb) : bool := bool_decide (type jb = SJB_VIDEO).
Definition queue_only (jb : switch_jb) : bool := test_flag (flags jb) SJB_QUEUE_ONLY.

Definition zero_packet : rtp_packet := mk_packet 0 0 0 0 0 0 0 0 0 [].
Definition zero_node : switch_jb_node := mk_node zero_packet 0 false 0.

Definition node (jb : switch_jb) (id : Z) : switch_jb_node := default zero_node (pool jb !! id).
Definition set_node (jb : switch_jb) (id : Z) (n : switch_jb_node) : switch_jb :=
  jb <| pool := <[id := n]> (pool jb) |>.
Definition nseq (jb : switch_jb) (id : Z) : Z := seq (packet (node jb id)).
Definition nts (jb : switch_jb) (id : Z) : Z := ts (packet (node jb id)).
Definition nvisible (jb : switch_jb) (id : Z) : bool := visible (node jb id).

Definition request_video_refresh (jb : switch_jb) : switch_jb :=
  if session jb then jb <| sent := VideoRefresh :: sent jb |> else jb.

(** A hash lookup as a condition: the null pointer is 0. *)
Definition found (o : option Z) : bool := match o with Some v => negb (v =? 0) | None => false end.

(** ** Nodes *)

(** [node_cmp] of two visible nodes compares sequence numbers; a node that is
    not visible comes first. *)
Definition node_cmp (jb : switch_jb) (a b : Z) : Z :=
  if negb (nvisible jb a) then 0
  else if negb (nvisible jb b) then 1
  else ntohs (nseq jb a) - ntohs (nseq jb b).

Definition sort_free_nodes (jb : switch_jb) : switch_jb :=
  jb <| node_list := sort_nodes (node_cmp jb) (node_list jb) |>.

(** The node moves to the head of the chain. *)
Definition push_to_top (jb : switch_jb) (id : Z) : switch_jb :=
  jb <| node_list := id :: filter (fun i => i <> id) (node_list jb) |>.

Definition hide_visible (jb : switch_jb) (id : Z) (pop : bool) : switch_jb :=
  if nvisible jb id then
    let jb := set_node jb id (node jb id <| visible := false |> <| bad_hits := 0 |>) in
    let jb := jb <| visible_nodes := u32 (visible_nodes jb - 1) |> in
    if pop then push_to_top jb id else jb
  else jb.

Definition forget_ts (jb : switch_jb) (id : Z) : switch_jb :=
  match node_hash_ts jb with
  | Some h => jb <| node_hash_ts := Some (ih_delete h (nts jb id)) |>
  | None => jb
  end.

Definition hide_node (jb : switch_jb) (id : Z) (pop : bool) : switch_jb :=
  let jb := forget_ts (hide_visible jb id pop) id in
  let hit := found (ih_find (node_hash jb) (nseq jb id)) in
  let jb := jb <| node_hash := ih_delete (node_hash jb) (nseq jb id) |> in
  if hit && (version (packet (node jb id)) =? 1) && video jb
  then jb <| complete_frames := u32 (complete_frames jb - 1) |> else jb.

Definition hide_nodes (jb : switch_jb) : switch_jb :=
  foldl (fun jb id => hide_node jb id false) jb (node_list jb).

Definition switch_jb_reset (jb : switch_jb) : switch_jb :=
  let jb := if video jb then request_video_refresh (jb <| missing_seq_hash := ih_new |>) else jb in
  let jb := jb <| last_target_seq := 0 |> <| target_seq := 0 |> <| write_init := false |>
               <| highest_wrote_seq := 0 |> <| highest_wrote_ts := 0 |> <| next_seq := 0 |>
               <| highest_read_ts := 0 |> <| highest_read_seq := 0 |> <| read_init := false |>
               <| complete_frames := 0 |> <| period_miss_count := 0 |> <| consec_miss_count := 0 |>
               <| period_good_count := 0 |> <| consec_good_count := 0 |> <| period_count := 0 |>
               <| period_miss_inc := 0 |> <| target_ts := 0 |> <| last_target_ts := 0 |> in
  hide_nodes jb.

Definition first_hidden (jb : switch_jb) : option Z :=
  snd <$> list_find (fun id => nvisible jb id = false) (node_list jb).

Definition node_limit (jb : switch_jb) : Z :=
  let mult := if video jb then if 25 <? max_packet_len jb then max_packet_len jb else 25 else 2 in
  u32 (max_frame_len jb * mult).

Definition new_node (jb : switch_jb) : switch_jb * option Z :=
  let use jb id :=
    let jb := set_node jb id (node jb id <| bad_hits := 0 |> <| visible := true |>) in
    (jb <| visible_nodes := u32 (visible_nodes jb + 1) |>, Some id) in
  match first_hidden jb with
  | Some id => use jb id
  | None =>
    if node_limit jb <? allocated_nodes jb then (switch_jb_reset jb, None)
    else
      let id := Z.of_nat (size (pool jb)) + 1 in
      let jb := set_node jb id zero_node in
      let jb := jb <| allocated_nodes := u32 (allocated_nodes jb + 1) |> in
      use (jb <| node_list := id :: node_list jb |>) id
  end.

Definition drop_ts (jb : switch_jb) (t : Z) : switch_jb :=
  let hit jb id := nvisible jb id && (t =? nts jb id) in
  let '(jb, x) := foldl (fun '(jb, x) id =>
                           if hit jb id then (hide_node jb id false, x + 1) else (jb, x))
                    (jb, 0) (node_list jb) in
  if negb (x =? 0) then sort_free_nodes jb else jb.

Definition jb_find_lowest_seq (jb : switch_jb) (t : Z) : option Z :=
  foldl (fun lowest id =>
           if negb (nvisible jb id) then lowest
           else if negb (t =? 0) && negb (t =? nts jb id) then lowest
           else match lowest with
                | None => Some id
                | Some l => if ntohs (nseq jb id) <? ntohs (nseq jb l) then Some id else lowest
                end) None (node_list jb).

Definition jb_find_lowest_node (jb : switch_jb) : option Z :=
  foldl (fun lowest id =>
           if negb (nvisible jb id) then lowest
           else match lowest with
                | None => Some id
                | Some l => if ntohl (nts jb id) <? ntohl (nts jb l) then Some id else lowest
                end) None (node_list jb).

Definition jb_find_lowest_ts (jb : switch_jb) : Z :=
  match jb_find_lowest_node jb with Some id => nts jb id | None => 0 end.

(** The loop of [thin_frames]: [n] drops are left; after a drop the chain is
    walked again from its second node, [i] going on. *)
Fixpoint thin_loop (n : nat) (freq : Z) (jb : switch_jb) (i : Z) (l : list Z) : switch_jb :=
  match n with
  | O => jb
  | S n =>
    (fix go (i : Z) (l : list Z) : switch_jb :=
       match l with
       | [] => jb
       | id :: l =>
         if negb (max_frame_len jb <? complete_frames jb) then jb
         else if negb (nvisible jb id) then go i l
         else
           let i := i + 1 in
           if i mod freq =? 0 then
             let jb := drop_ts jb (nts jb id) in
             thin_loop n freq jb i (drop 1 (node_list jb))
           else go i l
       end) i l
  end.

Definition thin_frames (jb : switch_jb) (freq : Z) (max : nat) : switch_jb :=
  sort_free_nodes (thin_loop max freq jb (-1) (node_list jb)).

Definition drop_oldest_frame (jb : switch_jb) : switch_jb := drop_ts jb (jb_find_lowest_ts jb).

(** ** Statistics and frame length *)

Definition jb_hit (jb : switch_jb) : switch_jb :=
  jb <| period_good_count := u32 (period_good_count jb + 1) |>
     <| consec_good_count := u32 (consec_good_count jb + 1) |>
     <| consec_miss_count := 0 |>.

Definition jb_miss (jb : switch_jb) : switch_jb :=
  jb <| period_miss_count := u32 (period_miss_count jb + 1) |>
     <| consec_miss_count := u32 (consec_miss_count jb + 1) |>
     <| consec_good_count := 0 |>.

(** [jb->frame_len + i] is computed on [uint32_t]. *)
Definition jb_frame_inc (jb : switch_jb) (i : Z) : switch_jb :=
  let jb :=
    if i =? 0 then jb <| frame_len := min_frame_len jb |>
    else if 0 <? i then
      if u32 (frame_len jb + i) <? max_frame_len jb
      then jb <| frame_len := u32 (frame_len jb + i) |>
      else jb <| frame_len := max_frame_len jb |>
    else
      if min_frame_len jb <? u32 (frame_len jb + i)
      then jb <| frame_len := u32 (frame_len jb + i) |>
      else jb <| frame_len := min_frame_len jb |> in
  if highest_frame_len jb <? frame_len jb
  then jb <| highest_frame_len := frame_len jb |> else jb.

Definition check_seq (a b : Z) : bool :=
  let a := ntohs a in
  let b := ntohs b in
  (b <=? a) || ((a <? b) && (USHRT_MAX / 2 <? b) && (a <? USHRT_MAX / 2)).

Definition check_ts (a b : Z) : bool :=
  let a := ntohl a in
  let b := ntohl b in
  (b <? a) || ((a <? b) && (UINT_MAX / 2 <? b) && (a <? UINT_MAX / 2)).

(** ** Writing *)

(** The jumps that make a video buffer start over.  Where the time stamp wraps
    the code subtracts and adds the same number. *)
Definition seq_diff (jb : switch_jb) (pk : rtp_packet) : Z :=
  if (USHRT_MAX - 100 <? ntohs (highest_wrote_seq jb)) && (ntohs (seq pk) <? 100)
  then (USHRT_MAX - ntohs (highest_wrote_seq jb)) + ntohs (seq pk)
  else Z.abs (ntohs (seq pk) - ntohs (highest_wrote_seq jb)).
Definition ts_diff (jb : switch_jb) (t : Z) : Z :=
  if (UINT_MAX - 1000 <? ntohl (highest_wrote_ts jb)) && (ntohl t <? 1000)
  then i32 (u32 (u32 (UINT_MAX - ntohl t) + ntohl t))
  else i32 (Z.abs (i32 (ntohl t - ntohl (highest_wrote_ts jb)))).

(** The packet is copied into its node and entered in the index. *)
Definition store (jb : switch_jb) (id : Z) (pk : rtp_packet) (n : Z) : switch_jb :=
  let jb := set_node jb id (node jb id <| packet := pk |> <| len := n |>) in
  jb <| node_hash := ih_insert (node_hash jb) (nseq jb id) id |>.

Definition store_ts (jb : switch_jb) (id : Z) : switch_jb :=
  match node_hash_ts jb with
  | Some h => jb <| node_hash_ts := Some (ih_insert h (nts jb id) id) |>
  | None => jb
  end.

(** The rest of [add_node]: a jump makes a video buffer start over, then the
    highest numbers written and the count of complete frames. *)
Definition note_write (jb : switch_jb) (pk : rtp_packet) (id : Z) : switch_jb :=
  let jb := if write_init jb && video jb
                 && ((100 <=? seq_diff jb pk) || (900000 * 5 <? ts_diff jb (nts jb id)))
            then switch_jb_reset jb else jb in
  let jb := if negb (write_init jb) || (ntohs (highest_wrote_seq jb) <? ntohs (seq pk))
                 || ((USHRT_MAX - 100 <? ntohs (highest_wrote_seq jb)) && (ntohs (seq pk) <? 100))
            then jb <| highest_wrote_seq := seq pk |> else jb in
  let jb :=
    if video jb then
      let jb := if negb (queue_only jb)
                then jb <| packet_count := u32 (packet_count jb + 1) |> else jb in
      if write_init jb && check_seq (seq pk) (highest_wrote_seq jb)
           && check_ts (nts jb id) (highest_wrote_ts jb) then
        let jb := jb <| highest_wrote_ts := ts pk |> in
        let jb := jb <| complete_frames := u32 (complete_frames jb + 1) |> in
        let jb :=
          if negb (queue_only jb) then
            let jb := if max_packet_len jb <? packet_count jb
                      then jb <| max_packet_len := packet_count jb |> else jb in
            jb <| packet_count := 0 |>
          else jb in
        set_node jb id (node jb id <| packet := packet (node jb id) <| version := 1 |> |>)
      else if negb (write_init jb) then jb <| highest_wrote_ts := ts pk |>
      else jb
    else
      if write_init jb || bool_decide (type jb = SJB_AUDIO)
      then jb <| complete_frames := u32 (complete_frames jb + 1) |>
      else jb <| highest_wrote_ts := ts pk |> in
  if negb (write_init jb) then jb <| write_init := true |> else jb.

(** [memcpy] of [n] bytes into [body]. *)
Definition add_node (jb : switch_jb) (pk : rtp_packet) (n : Z) : outcome switch_jb :=
  match new_node jb with
  | (jb, None) => Ok jb
  | (jb, Some id) =>
    if BODY_ROOM <? n then UB else Ok (note_write (store_ts (store jb id pk n) id) pk id)
  end.

(** [for (i = want; i < got; i++)]: the missing numbers get the value 1. *)
Fixpoint mark_missing (h : H) (i : Z) (n : nat) : H :=
  match n with
  | O => h
  | S n => mark_missing (ih_insert h (htons i) 1) (i + 1) n
  end.

Definition switch_jb_put_packet (jb : switch_jb) (pk : rtp_packet) (n : Z)
  : outcome (switch_jb * switch_status) :=
  let want := ntohs (next_seq jb) in
  let got := ntohs (seq pk) in
  let n := if SIZEOF_PACKET <=? n then SIZEOF_PACKET else n in
  if negb (highest_dropped_ts jb =? 0) && (ntohl (ts pk) <? highest_dropped_ts jb)
  then Ok (jb, SWITCH_STATUS_SUCCESS)
  else
    let jb := if negb (highest_dropped_ts jb =? 0) then jb <| highest_dropped_ts := 0 |> else jb in
    let want := if want =? 0 then got else want in
    let jb :=
      if queue_only jb || bool_decide (type jb = SJB_AUDIO) then
        jb <| next_seq := htons (u16 (got + 1)) |>
      else
        let hit := found (ih_find (missing_seq_hash jb) (htons got)) in
        let jb := jb <| missing_seq_hash := ih_delete (missing_seq_hash jb) (htons got) |> in
        let jb := if hit && (got <? ntohs (target_seq jb)) then jb_frame_inc jb 1 else jb in
        let jb :=
          if want <? got then
            if (max_frame_len jb <? got - want) && (17 <? got - want) then switch_jb_reset jb
            else
              let jb := if frame_len jb <? got - want then jb_frame_inc jb 1 else jb in
              jb <| missing_seq_hash := mark_missing (missing_seq_hash jb) want (Z.to_nat (got - want)) |>
          else jb in
        if (want <=? got) || (1000 <? want - got) then jb <| next_seq := htons (u16 (got + 1)) |>
        else jb in
    jb ← add_node jb pk n;
    Ok (if queue_only jb && (max_frame_len jb <? complete_frames jb) then drop_oldest_frame jb else jb,
        SWITCH_STATUS_SUCCESS).

(** ** Negative acknowledgements

    [now n] is what call number [n] of [switch_time_now] returns; the calls are
    counted in [c].  A number that was asked for keeps the time of the request
    in a pointer, which has 32 bits. *)

Definition stamp (t : Z) : Z := i32 t.
Definition expired (jb : switch_jb) (s : Z) : bool := s <? u32 (ntohs (target_seq jb) - frame_len jb).

(** One walk over the table: the lowest number seen so far in [least], and the
    number to delete where the walk stops to start again. *)
Fixpoint nack_walk (jb : switch_jb) (now : nat -> Z) (c : nat) (least : Z) (l : list (Z * Z))
  : nat * Z * option Z :=
  match l with
  | [] => (c, least, None)
  | (k, v) :: l =>
    let s := ntohs (k mod 65536) in
    let c' := if v =? 1 then c else S c in
    if negb (v =? 1) && (now c - v <? RENACK_TIME) then nack_walk jb now c' least l
    else if expired jb s then (c', least, Some s)
    else nack_walk jb now c' (if (least =? 0) || (s <? least) then s else least) l
  end.

Fixpoint nack_loop (fuel : nat) (jb : switch_jb) (now : nat -> Z) (c : nat) (least : Z)
  : option (switch_jb * nat * Z) :=
  match fuel with
  | O => None
  | S fuel =>
    match nack_walk jb now c least (ih_list (missing_seq_hash jb)) with
    | (c, least, None) => Some (jb, c, least)
    | (c, least, Some s) =>
      nack_loop fuel (jb <| missing_seq_hash := ih_delete (missing_seq_hash jb) (htons s) |>) now c least
    end
  end.

(** The sixteen numbers after [least]. *)
Definition nack_more (now : nat -> Z) (least : Z) : H * nat * Z -> nat -> H * nat * Z :=
  fun '(h, c, blp) i =>
    let k := htons (u16 (least + Z.of_nat i + 1)) in
    let hit := found (ih_find h k) in
    let h := ih_delete h k in
    if hit then (ih_insert h k (stamp (now c)), S c, Z.lor blp (Z.shiftl 1 (Z.of_nat i)))
    else (h, c, blp).

(** The loop deletes a number before each new walk. *)
Definition switch_jb_pop_nack (jb : switch_jb) (now : nat -> Z) : option (switch_jb * Z) :=
  if negb (video jb) then Some (jb, 0)
  else
    match nack_loop (S (length (ih_list (missing_seq_hash jb)))) jb now 0 0 with
    | None => None
    | Some (jb, c, least) =>
      let hit := found (ih_find (missing_seq_hash jb) (htons least)) in
      if negb (least =? 0) && hit then
        let nack := htons least in
        let h := ih_insert (ih_delete (missing_seq_hash jb) nack) nack (stamp (now c)) in
        let '(h, c, blp) := foldl (nack_more now least) (h, S c, 0) (List.seq 0 16) in
        Some (jb <| missing_seq_hash := h |>, Z.lor nack (Z.shiftl (htons (u16 blp)) 16))
      else
        let jb := if negb (least =? 0)
                  then jb <| missing_seq_hash := ih_delete (missing_seq_hash jb) (htons least) |> else jb in
        Some (jb, 0)
    end.

(** ** Reading *)

Definition increment_ts (jb : switch_jb) : switch_jb :=
  if target_ts jb =? 0 then jb
  else
    jb <| last_psuedo_seq := psuedo_seq jb |>
       <| last_target_ts := target_ts jb |>
       <| target_ts := htonl (u32 (ntohl (target_ts jb) + samples_per_frame jb)) |>
       <| psuedo_seq := u16 (psuedo_seq jb + 1) |>.

Definition set_read_ts (jb : switch_jb) (t : Z) : switch_jb :=
  if t =? 0 then jb
  else
    jb <| last_psuedo_seq := psuedo_seq jb |>
       <| last_target_ts := t |>
       <| target_ts := htonl (u32 (ntohl t + samples_per_frame jb)) |>
       <| psuedo_seq := u16 (psuedo_seq jb + 1) |>.

Definition increment_seq (jb : switch_jb) : switch_jb :=
  jb <| last_target_seq := target_seq jb |>
     <| target_seq := htons (u16 (ntohs (target_seq jb) + 1)) |>.

Definition set_read_seq (jb : switch_jb) (s : Z) : switch_jb :=
  jb <| last_target_seq := s |> <| target_seq := htons (u16 (ntohs s + 1)) |>.

(** The search over the ten next numbers: [inl id] is a node to read, [inr]
    asks for another turn after a drop. *)
Fixpoint try_next (n : nat) (jb : switch_jb) : switch_jb * (option Z + unit) :=
  match n with
  | O => (jb, inl None)
  | S n =>
    let jb := increment_seq jb in
    match ih_find (node_hash jb) (target_seq jb) with
    | Some id =>
      if negb (m_ (packet (node jb id)) =? 0) || (nts jb id =? highest_read_ts jb) then
        let t := nts jb id in
        let jb := jb <| dropped := u32 (dropped jb + 1) |> in
        let jb := drop_ts jb t in
        (jb <| highest_dropped_ts := ntohl (nts jb id) |>, inr tt)
      else (jb, inl (Some id))
    | None => try_next n jb
    end
  end.

(** From the label [top]; [None] means that the turns are used up. *)
Fixpoint next_by_seq (fuel : nat) (jb : switch_jb) : option (switch_jb * option Z) :=
  match fuel with
  | O => None
  | S fuel =>
    let jb := if video jb && negb (dropped jb =? 0)
              then request_video_refresh (jb <| dropped := 0 |> <| target_seq := 0 |>) else jb in
    if target_seq jb =? 0 then
      let id := match ih_find (node_hash jb) (target_seq jb) with
                | Some id => Some id
                | None => jb_find_lowest_seq jb 0
                end in
      Some (jb_hit jb, id)
    else
      match ih_find (node_hash jb) (target_seq jb) with
      | Some id => Some (jb_hit jb, Some id)
      | None =>
        let jb := jb_miss jb in
        if video jb then
          let jb := if (1 <? period_miss_count jb) && (period_miss_inc jb =? 0)
                    then jb_frame_inc (jb <| period_miss_inc := u32 (period_miss_inc jb + 1) |>) 1
                    else jb in
          let jb := request_video_refresh jb in
          match try_next 10 jb with
          | (jb, inl id) => Some (jb, id)
          | (jb, inr _) => next_by_seq fuel jb
          end
        else Some (increment_seq jb, None)
      end
  end.

Definition jb_next_packet_by_seq (jb : switch_jb) : option (switch_jb * option Z) :=
  match next_by_seq 2 jb with
  | None => None
  | Some (jb, Some id) => Some (set_read_seq jb (nseq jb id), Some id)
  | Some (jb, None) => Some (jb, None)
  end.

(** The packet takes the pseudo sequence number while its entry in [node_hash]
    keeps the old one. *)
Definition jb_next_packet_by_ts (jb : switch_jb) : switch_jb * option Z :=
  let '(jb, id) :=
    if target_ts jb =? 0 then (jb_hit jb, jb_find_lowest_node jb)
    else
      match (match node_hash_ts jb with Some h => ih_find h (target_ts jb) | None => None end) with
      | Some id => (jb_hit jb, Some id)
      | None => (increment_ts (jb_miss jb), None)
      end in
  match id with
  | Some id =>
    let jb := set_read_ts jb (nts jb id) in
    (set_node jb id (node jb id <| packet := packet (node jb id) <| seq := htons (psuedo_seq jb) |> |>),
     Some id)
  | None => (jb, None)
  end.

Definition jb_next_packet (jb : switch_jb) : option (switch_jb * option Z) :=
  if negb (samples_per_frame jb =? 0) then Some (jb_next_packet_by_ts jb)
  else jb_next_packet_by_seq jb.

Definition switch_jb_poll (jb : switch_jb) : bool :=
  (frame_len jb <=? complete_frames jb) || flush jb.

Definition switch_jb_frame_count (jb : switch_jb) : Z := complete_frames jb.

(** The end of a statistics period, with the control of the video bit rate
    through the channel. *)
Definition bitrate_check (jb : switch_jb) : switch_jb :=
  match channel jb with
  | Some ch =>
    if video jb && negb (video_low_bitrate jb =? 0) then
      let managed := switch_channel_test_flag ch CF_VIDEO_BITRATE_UNMANAGABLE =? 0 in
      if negb managed && (frame_len jb =? min_frame_len jb) then
        let jb := jb <| channel := Some (switch_channel_clear_flag_recursive ch CF_VIDEO_BITRATE_UNMANAGABLE) |> in
        request_video_refresh (jb <| bitrate_control := 0 |>)
      else if managed && (max_frame_len jb / 2 <? frame_len jb) then
        let jb := jb <| bitrate_control := video_low_bitrate jb |> in
        let jb := jb <| sent := BitrateRequest (u32 (bitrate_control jb * 1024)) :: sent jb |> in
        let jb := jb <| channel := Some (switch_channel_set_flag_recursive ch CF_VIDEO_BITRATE_UNMANAGABLE) |> in
        request_video_refresh jb
      else jb
    else jb
  | None => jb
  end.

Definition period_check (jb : switch_jb) : switch_jb :=
  let jb := jb <| period_count := u32 (period_count jb + 1) |> in
  if PERIOD_LEN <=? period_count jb then
    let jb := if PERIOD_LEN - 5 <=? consec_good_count jb then jb_frame_inc jb (-1) else jb in
    let jb := jb <| period_count := 1 |> <| period_miss_inc := 0 |> <| period_miss_count := 0 |>
                 <| period_good_count := 0 |> <| consec_miss_count := 0 |> <| consec_good_count := 0 |> in
    bitrate_check jb
  else jb.

(** What a read leaves with the caller: the packet and its length, or the
    sequence number and time stamp for packet loss concealment. *)
Inductive jb_out := NoPacket | Packet (pk : rtp_packet) (n : Z) | Plc (s t : Z).

(** A node was found: the highest numbers read, and the frame count. *)
Definition note_read (jb : switch_jb) (id : Z) : switch_jb :=
  let jb := if negb (read_init jb) || check_seq (nseq jb id) (highest_read_seq jb)
            then jb <| highest_read_seq := nseq jb id |> else jb in
  let jb :=
    if negb (video jb)
       || (read_init jb && check_seq (nseq jb id) (highest_read_seq jb)
           && check_ts (nts jb id) (highest_read_ts jb)) then
      let jb := if negb (video jb) then jb <| complete_frames := u32 (complete_frames jb - 1) |> else jb in
      jb <| highest_read_ts := nts jb id |>
    else if negb (read_init jb) then jb <| highest_read_ts := nts jb id |>
    else jb in
  if negb (read_init jb) then jb <| read_init := true |> else jb.

(** The node found is copied out and hidden. *)
Definition take_node (jb : switch_jb) (id : Z) : switch_jb * switch_status * jb_out :=
  let pk := packet (node jb id) in
  let n := len (node jb id) in
  let jb := jb <| last_len := n |> in
  (hide_node jb id true, SWITCH_STATUS_SUCCESS, Packet (pk <| version := 2 |>) n).

(** [jb_next_packet] returns SUCCESS or NOTFOUND only, so that the cases of
    RESTART of the C code are not reached. *)
Definition read_packet (jb : switch_jb) : option (switch_jb * switch_status * jb_out) :=
  let jb := period_check jb in
  let jb := if 60 * period_count jb <? 100 * period_miss_count jb then switch_jb_reset jb else jb in
  match jb_next_packet jb with
  | None => None
  | Some (jb, Some id) => Some (take_node (note_read jb id) id)
  | Some (jb, None) =>
    if video jb then Some (switch_jb_reset jb, SWITCH_STATUS_MORE_DATA, NoPacket)
    else if frame_len jb <? consec_miss_count jb
    then Some (jb_frame_inc (switch_jb_reset jb) 1, SWITCH_STATUS_RESTART, NoPacket)
    else
      let out := if negb (samples_per_frame jb =? 0)
                 then Plc (htons (last_psuedo_seq jb)) (last_target_ts jb)
                 else Plc (u16 (last_target_seq jb)) 0 in
      Some (jb, SWITCH_STATUS_NOTFOUND, out)
  end.

Definition switch_jb_get_packet (jb : switch_jb) : option (switch_jb * switch_status * jb_out) :=
  match (if complete_frames jb =? 0
         then Some (jb <| flush := false |>, SWITCH_STATUS_BREAK, NoPacket)
         else if (complete_frames jb <? frame_len jb) && negb (flush jb)
         then Some (jb, SWITCH_STATUS_MORE_DATA, NoPacket)
         else read_packet jb) with
  | None => None
  | Some (jb, status, out) =>
    let jb := if max_frame_len jb <? complete_frames jb then thin_frames jb 8 25 else jb in
    let jb := if u32 (max_frame_len jb * 2) <? complete_frames jb then switch_jb_reset jb else jb in
    Some (jb, status, out)
  end.

Definition switch_jb_get_packet_by_seq (jb : switch_jb) (s : Z) : switch_status * jb_out :=
  match ih_find (node_hash jb) s with
  | Some id => (SWITCH_STATUS_SUCCESS,
                Packet (packet (node jb id) <| version := 2 |>) (len (node jb id)))
  | None => (SWITCH_STATUS_NOTFOUND, NoPacket)
  end.

(** [frame->seq], [timestamp], [m] and [datalen]; the bytes are copied when
    [buflen] leaves room. *)
Definition switch_jb_peek_frame (jb : switch_jb) (t s peek : Z) : switch_status * option (Z * Z * Z * Z) :=
  let id :=
    if negb (s =? 0) then ih_find (node_hash jb) (htons (u16 (s + peek)))
    else if negb (t =? 0) && negb (samples_per_frame jb =? 0) then
      match node_hash_ts jb with
      | Some h => ih_find h (htonl (u32 (t + peek * samples_per_frame jb)))
      | None => None
      end
    else None in
  match id with
  | Some id => (SWITCH_STATUS_SUCCESS,
      Some (ntohs (nseq jb id), ntohl (nts jb id), m_ (packet (node jb id)), u32 (len (node jb id) - 12)))
  | None => (SWITCH_STATUS_FALSE, None)
  end.

(** ** Creation and settings *)

Definition switch_jb_create (ty : switch_jb_type) (min_len max_len : Z) : switch_jb :=
  mk_jb [] ∅ 0 0 0 0 0 0 0 0 0 0 0 0 0 0 min_len min_len max_len min_len 0 0 0 0 0 0 0 0 0 0 0
    false false 0 0 ih_new ih_new None 0 ty false None false 0 0 [].

Definition switch_jb_ts_mode (jb : switch_jb) (per_frame per_second : Z) : switch_jb :=
  jb <| samples_per_frame := per_frame |> <| samples_per_second := per_second |>
     <| node_hash_ts := Some ih_new |>.

(** [var] is the value of the variable jb_video_low_bitrate, as a number. *)
Definition switch_jb_set_session (jb : switch_jb) (ch : switch_channel) (var : option Z) : switch_jb :=
  let jb := jb <| session := true |> <| channel := Some ch |> in
  match var with
  | Some tmp =>
    if video jb && negb (queue_only jb) && (128 <=? tmp) && (tmp <=? 10240)
    then jb <| video_low_bitrate := tmp |> else jb
  | None => jb
  end.

Definition switch_jb_set_flag (jb : switch_jb) (fl : Z) : switch_jb :=
  jb <| flags := set_flag (flags jb) fl |>.
Definition switch_jb_clear_flag (jb : switch_jb) (fl : Z) : switch_jb :=
  jb <| flags := clear_flag (flags jb) fl |>.

Definition switch_jb_get_frames (jb : switch_jb) : Z * Z * Z :=
  (min_frame_len jb, max_frame_len jb, frame_len jb).

Definition switch_jb_set_frames (jb : switch_jb) (min_len max_len : Z) : switch_jb :=
  let lowest := frame_len jb =? min_frame_len jb in
  let jb := jb <| min_frame_len := min_len |> <| max_frame_len := max_len |> in
  let jb := if max_frame_len jb <? frame_len jb then jb <| frame_len := max_frame_len jb |> else jb in
  let jb := if frame_len jb <? min_frame_len jb then jb <| frame_len := min_frame_len jb |> else jb in
  let jb := if highest_frame_len jb <? frame_len jb
            then jb <| highest_frame_len := frame_len jb |> else jb in
  if lowest then jb <| frame_len := min_frame_len jb |> else jb.

(** ** The buffer's invariant (sequence number mode)

    [wf_nodes jb m]: the chain has each node of the pool once, the counters
    count, and [node_hash] stands for the map [m] from the sequence number of a
    visible node to that node. *)

Definition vcount (jb : switch_jb) : Z := zlen (filter (fun id => nvisible jb id = true) (node_list jb)).

Context `{!IntHashOk H Z}.
#[local] Set Default Proof Using "Type*".

Record wf_nodes (jb : switch_jb) (m : gmap Z Z) : Prop := mk_wf_nodes {
  wn_nodup : NoDup (node_list jb);
  wn_dom : forall id, id ∈ node_list jb <-> is_Some (pool jb !! id);
  wn_fresh : forall id, is_Some (pool jb !! id) -> 1 <= id <= Z.of_nat (size (pool jb));
  wn_mode : node_hash_ts jb = None /\ samples_per_frame jb = 0;
  wn_repr : ih_repr (node_hash jb) m;
  wn_hash : forall k id, m !! k = Some id -> id ∈ node_list jb /\ nvisible jb id = true /\ nseq jb id = k;
  wn_seq : forall id, 0 <= nseq jb id < 65536;
  wn_visible : visible_nodes jb = u32 (vcount jb);
  wn_alloc : allocated_nodes jb = u32 (zlen (node_list jb))
}.

(** The frame length lies between its bounds. *)
Definition wf_len (jb : switch_jb) : Prop :=
  0 < min_frame_len jb /\ min_frame_len jb <= frame_len jb <= max_frame_len jb /\
  max_frame_len jb < UINT_MAX.

(** The missing numbers are 16-bit numbers. *)
Definition wf_missing (jb : switch_jb) : Prop :=
  exists mm : gmap Z Z, ih_repr (missing_seq_hash jb) mm /\ forall k v, mm !! k = Some v -> 0 <= k < 65536.

Definition good (jb : switch_jb) : Prop := (exists m, wf_nodes jb m) /\ wf_len jb /\ wf_missing jb.

(** The fields that the invariant is about. *)
Definition key (jb : switch_jb) :=
  (node_list jb, pool jb, node_hash jb, node_hash_ts jb, samples_per_frame jb, visible_nodes jb,
   allocated_nodes jb).

Lemma key_inv jb jb' : key jb' = key jb ->
  node_list jb' = node_list jb /\ node_hash jb' = node_hash jb /\ forall i, node jb' i = node jb i.
Proof. unfold key, node. intros [= E1 E2 E3 E4 E5 E6 E7]. by rewrite E2. Qed.

Lemma wf_nodes_key jb jb' m : key jb' = key jb -> wf_nodes jb m -> wf_nodes jb' m.
Proof.
  unfold key. intros [= E1 E2 E3 E4 E5 E6 E7] [].
  constructor; unfold vcount, nvisible, nseq, node in *; rewrite ?E1, ?E2, ?E3, ?E4, ?E5, ?E6, ?E7; done.
Qed.

Lemma good_key jb jb' :
  key jb' = key jb -> missing_seq_hash jb' = missing_seq_hash jb ->
  min_frame_len jb' = min_frame_len jb -> max_frame_len jb' = max_frame_len jb ->
  frame_len jb' = frame_len jb -> good jb -> good jb'.
Proof.
  intros K M E1 E2 E3 ([m W] & L & Ms). split; [exists m; by eapply wf_nodes_key|].
  unfold wf_len, wf_missing. rewrite E1, E2, E3, M. done.
Qed.

Lemma node_set_node jb id n i : node (set_node jb id n) i = if decide (i = id) then n else node jb i.
Proof.
  unfold node, set_node. rupd. case_decide; [subst; by rewrite lookup_insert_eq|by rewrite lookup_insert_ne].
Qed.

(** A node changes without moving: its place among the visible ones and its
    sequence number decide what happens to the hash. *)
Lemma wf_set_node jb m m' id n h v :
  wf_nodes jb m -> id ∈ node_list jb -> 0 <= seq (packet n) < 65536 ->
  ih_repr h m' ->
  (forall k i, m' !! k = Some i ->
     if decide (i = id) then visible n = true /\ seq (packet n) = k else m !! k = Some i) ->
  v = u32 (vcount jb + (if visible n then 1 else 0) - (if nvisible jb id then 1 else 0)) ->
  wf_nodes (set_node jb id n <| node_hash := h |> <| visible_nodes := v |>) m'.
Proof.
  intros [] Hid Hs Hr Hm ->. set (jb' := set_node jb id n <| node_hash := h |> <| visible_nodes := _ |>).
  assert (N : forall i, node jb' i = if decide (i = id) then n else node jb i)
    by (intros i; apply (node_set_node jb id n i)).
  assert (is_Some (pool jb !! id)) as Hp by (by apply wn_dom0).
  constructor; unfold nvisible, nseq in *; try done.
  - intros i. subst jb'. unfold set_node. rupd. rewrite wn_dom0.
    destruct (decide (i = id)) as [->|]; [rewrite lookup_insert_eq; naive_solver|by rewrite lookup_insert_ne].
  - intros i Hi. subst jb'. unfold set_node in *. rupd. rewrite map_size_insert. destruct Hp as [n0 Hp].
    rewrite Hp. simpl. apply wn_fresh0.
    destruct (decide (i = id)) as [->|]; [by eauto|]. by rewrite lookup_insert_ne in Hi.
  - intros k i Hk. specialize (Hm k i Hk). rewrite N. case_decide; [by subst|]. by apply wn_hash0.
  - intros i. rewrite N. case_decide; [done|]. apply wn_seq0.
  - unfold vcount, nvisible. change (node_list jb') with (node_list jb).
    change (visible_nodes jb') with (u32 (vcount jb + (if visible n then 1 else 0)
      - (if visible (node jb id) then 1 else 0))). f_equal. unfold vcount, nvisible.
    clear - Hid wn_nodup0 N. generalize dependent (node_list jb). induction l as [|i l IH]; [set_solver|].
    intros [NI ND]%NoDup_cons [Hi|Hi]%elem_of_cons.
    + subst i. rewrite !filter_cons, (N id), (decide_True (P := id = id)) by done.
      assert (filter (fun i => visible (node jb' i) = true) l = filter (fun i => visible (node jb i) = true) l) as ->.
      { apply filter_same_in. intros i Hi. rewrite N, (decide_False (P := i = id)) by set_solver. done. }
      repeat case_decide; destruct (visible n), (visible (node jb id)); simpl in *; try done; lia.
    + specialize (IH ND Hi). rewrite !filter_cons, (N i), (decide_False (P := i = id)) by set_solver.
      repeat case_decide; simpl in *; try lia; congruence.
Qed.

Lemma wf_perm jb m l : wf_nodes jb m -> l ≡ₚ node_list jb -> wf_nodes (jb <| node_list := l |>) m.
Proof.
  intros [] P. constructor; unfold vcount, nvisible, nseq, node in *; rupd; try done.
  - by rewrite P.
  - intros id. rewrite P. apply wn_dom0.
  - intros k id Hk. rewrite P. by apply wn_hash0.
  - by rewrite P.
  - by rewrite P.
Qed.

Lemma wf_sub jb m m' h :
  wf_nodes jb m -> m' ⊆ m -> ih_repr h m' -> wf_nodes (jb <| node_hash := h |>) m'.
Proof.
  intros [] S R. constructor; unfold vcount, nvisible, nseq, node in *; rupd; try done.
  intros k id Hk. apply wn_hash0. by eapply lookup_weaken.
Qed.

Lemma small_map (m : gmap Z Z) :
  (forall k v, m !! k = Some v -> 0 <= k < 65536) -> Z.of_nat (size m) <= 65536.
Proof.
  intros B. rewrite <- length_map_to_list, <- (length_fmap fst).
  assert ((map_to_list m).*1 ⊆+ seqZ 0 65536) as S.
  { apply NoDup_submseteq; [apply NoDup_fst_map_to_list|]. intros k Hk. apply elem_of_seqZ.
    apply list_elem_of_fmap in Hk as ([k' v] & -> & Hk). apply elem_of_map_to_list, B in Hk. simpl. lia. }
  apply submseteq_length in S. rewrite length_seqZ in S. lia.
Qed.

Lemma wf_size jb m : wf_nodes jb m -> Z.of_nat (size m) < UINT_MAX.
Proof.
  intros []. pose proof (small_map m) as S. unfold UINT_MAX.
  enough (Z.of_nat (size m) <= 65536) by lia. apply S. intros k v Hk.
  destruct (wn_hash0 k v Hk) as (_ & _ & <-). apply wn_seq0.
Qed.

(** ** Hiding *)

Definition hidden (n : switch_jb_node) : switch_jb_node := n <| visible := false |> <| bad_hits := 0 |>.

(** What [hide_node] leaves of the other nodes, of the packets, of the lengths. *)
Record hides (jb jb' : switch_jb) (id : Z) : Prop := mk_hides {
  hd_node : forall i, node jb' i = if decide (i = id) then
              if nvisible jb id then hidden (node jb id) else node jb id else node jb i;
  hd_list : node_list jb' ≡ₚ node_list jb;
  hd_missing : missing_seq_hash jb' = missing_seq_hash jb;
  hd_lens : min_frame_len jb' = min_frame_len jb /\ max_frame_len jb' = max_frame_len jb /\
            frame_len jb' = frame_len jb;
  hd_type : type jb' = type jb /\ flags jb' = flags jb
}.

Lemma hide_node_spec jb m id pop :
  wf_nodes jb m -> id ∈ node_list jb ->
  wf_nodes (hide_node jb id pop) (delete (nseq jb id) m) /\ hides jb (hide_node jb id pop) id.
Proof.
  intros W Hid. pose proof W as []. destruct wn_mode0 as [Ts Sp]. unfold hide_node, forget_ts, hide_visible.
  destruct (nvisible jb id) eqn:V.
  - set (n := _ <| visible := false |> <| bad_hits := 0 |>).
    set (jb1 := set_node jb id n <| visible_nodes := _ |>).
    set (jb2 := if pop then push_to_top jb1 id else jb1).
    assert (N : forall i, node jb2 i = if decide (i = id) then n else node jb i).
    { intros i. transitivity (node (set_node jb id n) i); [|apply node_set_node].
      unfold jb2. by destruct pop. }
    assert (E2 : node_hash_ts jb2 = None) by (unfold jb2; by destruct pop). rewrite E2.
    assert (S2 : nseq jb2 id = nseq jb id) by (unfold nseq; by rewrite N, decide_True). rewrite S2.
    assert (H2 : node_hash jb2 = node_hash jb) by (unfold jb2; by destruct pop). rewrite H2.
    assert (W2 : wf_nodes (jb1 <| node_hash := ih_delete (node_hash jb) (nseq jb id) |>) (delete (nseq jb id) m)).
    { eapply wf_nodes_key; [|apply (wf_set_node jb m (delete (nseq jb id) m) id n
        (ih_delete (node_hash jb) (nseq jb id)) (u32 (visible_nodes jb - 1)) W Hid)].
      - reflexivity.
      - apply wn_seq0.
      - by apply ih_delete_repr.
      - intros k i [Nk Hk]%lookup_delete_Some. case_decide; [|done]. subst i. exfalso.
        destruct (wn_hash0 _ _ Hk) as (_ & _ & E). congruence.
      - rewrite V, wn_visible0. subst n. cbn [visible]. rupd. unfold u32.
        rewrite Zminus_mod_idemp_l. f_equal. lia. }
    assert (L2 : node_list jb2 ≡ₚ node_list jb).
    { unfold jb2. destruct pop; [|done]. by apply push_perm. }
    split.
    + assert (K : wf_nodes (jb2 <| node_hash := ih_delete (node_hash jb) (nseq jb id) |>) (delete (nseq jb id) m)).
      { unfold jb2. destruct pop; [|done]. unfold push_to_top.
        eapply wf_nodes_key; [|apply (wf_perm _ _ _ W2 L2)]. unfold jb2, push_to_top. reflexivity. }
      destruct (_ && video _); [|done]. by eapply wf_nodes_key; [|exact K].
    + constructor; [|destruct (_ && video _); unfold jb2; destruct pop; first [done|exact L2]..].
      intros i. transitivity (node jb2 i); [destruct (_ && video _); reflexivity|].
      rewrite N, V. done.
  - rewrite Ts. split.
    + assert (K : wf_nodes (jb <| node_hash := ih_delete (node_hash jb) (nseq jb id) |>) (delete (nseq jb id) m)).
      { eapply wf_sub; [done|apply delete_subseteq|by apply ih_delete_repr]. }
      destruct (_ && video _); [|done]. by eapply wf_nodes_key; [|exact K].
    + constructor; [|destruct (_ && video _); done..].
      intros i. rewrite V. transitivity (node jb i); [destruct (_ && video _); reflexivity|].
      case_decide; [by subst|done].
Qed.

(** [keeps jb jb']: packets stay, nodes may be hidden or reordered, the frame
    lengths do not change. *)
Record keeps (jb jb' : switch_jb) : Prop := mk_keeps {
  kp_packet : forall i, packet (node jb' i) = packet (node jb i) /\ len (node jb' i) = len (node jb i);
  kp_visible : forall i, nvisible jb' i = true -> nvisible jb i = true;
  kp_list : node_list jb' ≡ₚ node_list jb;
  kp_missing : wf_missing jb -> wf_missing jb';
  kp_lens : min_frame_len jb' = min_frame_len jb /\ max_frame_len jb' = max_frame_len jb /\
            frame_len jb' = frame_len jb;
  kp_type : type jb' = type jb /\ flags jb' = flags jb
}.

#[export] Instance keeps_preorder : PreOrder keeps.
Proof.
  split; [by constructor|]. intros a b c [] []. constructor; try by auto.
  - intros i. destruct (kp_packet0 i), (kp_packet1 i). split; congruence.
  - by etrans.
  - intuition congruence.
  - intuition congruence.
Qed.

Lemma keeps_nseq jb jb' i : keeps jb jb' -> nseq jb' i = nseq jb i.
Proof. intros []. unfold nseq. by rewrite (proj1 (kp_packet0 i)). Qed.

Lemma keeps_len jb jb' : keeps jb jb' -> wf_len jb -> wf_len jb'.
Proof. intros [] L. destruct kp_lens0 as (-> & -> & ->) || unfold wf_len in *. intuition congruence. Qed.

Lemma keeps_good jb jb' m : keeps jb jb' -> wf_nodes jb' m -> good jb -> good jb'.
Proof.
  intros K W (_ & L & M). split; [by exists m|]. split; [by eapply keeps_len|]. by apply K.
Qed.

Lemma hides_keeps jb jb' id : hides jb jb' id -> keeps jb jb'.
Proof.
  intros []. constructor; try done.
  - intros i. rewrite hd_node0. case_decide; [subst; by destruct (nvisible jb id)|done].
  - intros i. unfold nvisible in *. rewrite hd_node0. case_decide; [|done]. subst.
    destruct (visible (node jb id)) eqn:E; [done|congruence].
  - unfold wf_missing. by rewrite hd_missing0.
Qed.

Lemma hides_visible jb jb' id i : hides jb jb' id ->
  nvisible jb' i = if decide (i = id) then false else nvisible jb i.
Proof.
  intros []. unfold nvisible in *. rewrite hd_node0. case_decide; [|done]. subst.
  destruct (visible (node jb id)) eqn:E; done.
Qed.

(** Hiding several nodes in a row, those that [f] selects on the way. *)
Definition hide_some (f : switch_jb -> Z -> bool) (jb : switch_jb) (ids : list Z) : switch_jb :=
  foldl (fun jb id => if f jb id then hide_node jb id false else jb) jb ids.

Lemma hide_some_cons f jb id ids :
  hide_some f jb (id :: ids) = hide_some f (if f jb id then hide_node jb id false else jb) ids.
Proof. reflexivity. Qed.

Lemma hide_some_spec f ids jb m :
  wf_nodes jb m -> (forall i, i ∈ ids -> i ∈ node_list jb) ->
  exists m', wf_nodes (hide_some f jb ids) m' /\ m' ⊆ m /\ keeps jb (hide_some f jb ids).
Proof.
  unfold hide_some. revert jb m. induction ids as [|id ids IH]; intros jb m W I; [by exists m|].
  cbn [foldl]. destruct (f jb id).
  - destruct (hide_node_spec jb m id false W) as [W1 H1]; [set_solver|].
    destruct (IH _ _ W1) as (m' & W2 & S2 & K2).
    { intros i Hi. rewrite (hd_list _ _ _ H1). set_solver. }
    exists m'. split_and!; [done|etrans; [done|apply delete_subseteq]|].
    etrans; [by eapply hides_keeps|done].
  - apply IH; [done|set_solver].
Qed.

Lemma hide_nodes_some jb : hide_nodes jb = hide_some (fun _ _ => true) jb (node_list jb).
Proof. reflexivity. Qed.

Lemma hide_all_hidden ids jb m i :
  wf_nodes jb m -> (forall j, j ∈ ids -> j ∈ node_list jb) -> i ∈ ids ->
  nvisible (hide_some (fun _ _ => true) jb ids) i = false.
Proof.
  unfold hide_some. revert jb m. induction ids as [|id ids IH]; intros jb m W I Hi; [set_solver|].
  cbn [foldl]. destruct (hide_node_spec jb m id false W) as [W1 H1]; [set_solver|].
  assert (I1 : forall j, j ∈ ids -> j ∈ node_list (hide_node jb id false))
    by (intros j Hj; rewrite (hd_list _ _ _ H1); set_solver).
  destruct (decide (i ∈ ids)) as [Hin|Hout]; [by eapply IH|].
  assert (i = id) as -> by set_solver.
  destruct (hide_some_spec (fun _ _ => true) ids _ _ W1 I1) as (m' & _ & _ & K).
  unfold hide_some in K.
  destruct (nvisible (foldl _ _ ids) id) eqn:E; [|done].
  apply (kp_visible _ _ K) in E. rewrite (hides_visible _ _ _ _ H1), decide_True in E by done. done.
Qed.

Lemma video_key jb jb' : type jb' = type jb -> video jb' = video jb.
Proof. unfold video. by intros ->. Qed.

Lemma hide_target jb id pop : target_seq (hide_node jb id pop) = target_seq jb.
Proof. unfold hide_node, forget_ts, hide_visible. repeat case_match; done. Qed.

Lemma hide_audio_frames jb id pop :
  type jb = SJB_AUDIO -> complete_frames (hide_node jb id pop) = complete_frames jb.
Proof.
  intros A. unfold hide_node. set (jb2 := forget_ts (hide_visible jb id pop) id).
  assert (type jb2 = type jb /\ complete_frames jb2 = complete_frames jb) as [E1 E2]
    by (unfold jb2, forget_ts, hide_visible; repeat case_match; done).
  assert (video jb2 = false) as V by (unfold video; by rewrite E1, A). 
  change (video (jb2 <| node_hash := _ |>)) with (video jb2). rewrite V, andb_false_r. done.
Qed.

(** ** Reset: every node hidden, the index empty *)

Lemma reset_spec jb m :
  wf_nodes jb m ->
  wf_nodes (switch_jb_reset jb) ∅ /\ keeps jb (switch_jb_reset jb) /\
  target_seq (switch_jb_reset jb) = 0 /\
  (type jb = SJB_AUDIO -> complete_frames (switch_jb_reset jb) = 0).
Proof.
  intros W. unfold switch_jb_reset. set (jb1 := if video jb then _ else jb).
  set (jb2 := _ <| last_target_ts := 0 |>).
  assert (K1 : keeps jb jb2 /\ key jb2 = key jb).
  { unfold jb2, jb1, request_video_refresh. destruct (video jb); [|by split].
    split; [|by destruct (session _)].
    destruct (session _); constructor; try done; intros _; exists ∅; (split; [apply ih_new_repr|done]). }
  destruct K1 as (K1 & Ky). pose proof (wf_nodes_key _ _ _ Ky W) as W2. rewrite hide_nodes_some.
  destruct (hide_some_spec (fun _ _ => true) (node_list jb2) jb2 m W2) as (m' & W3 & _ & K3); [done|].
  assert (m' = ∅) as ->.
  { apply map_empty. intros k. destruct (m' !! k) as [id|] eqn:E; [|done].
    destruct (wn_hash _ _ W3 k id E) as (Hin & V & _). rewrite (kp_list _ _ K3) in Hin.
    by rewrite (hide_all_hidden (node_list jb2) jb2 m id W2) in V. }
  split; [done|]. split; [by etrans|]. split.
  - assert (X : forall ids j, target_seq (hide_some (fun _ _ => true) j ids) = target_seq j)
      by (induction ids as [|i ids IH]; intros j; [done|];
          rewrite hide_some_cons, IH; apply hide_target).
    rewrite X. reflexivity.
  - intros A.
    assert (X : forall ids j, type j = SJB_AUDIO -> complete_frames (hide_some (fun _ _ => true) j ids) = complete_frames j).
    { induction ids as [|i ids IH]; intros j Aj; [done|]. rewrite hide_some_cons, IH.
      - by apply hide_audio_frames.
      - rewrite <- Aj. unfold hide_node, forget_ts, hide_visible. repeat case_match; done. }
    rewrite X; [reflexivity|]. rewrite <- A. apply K1.
Qed.

Lemma sort_free_spec jb m : wf_nodes jb m ->
  wf_nodes (sort_free_nodes jb) m /\ keeps jb (sort_free_nodes jb).
Proof.
  intros W. pose proof (sort_nodes_perm (node_cmp jb) (node_list jb)) as P.
  split; [by apply wf_perm|]. by constructor.
Qed.

Lemma drop_ts_spec jb m t : wf_nodes jb m ->
  exists m', wf_nodes (drop_ts jb t) m' /\ m' ⊆ m /\ keeps jb (drop_ts jb t).
Proof.
  intros W. unfold drop_ts. set (hit := fun jb id => nvisible jb id && (t =? nts jb id)).
  assert (X : forall ids j x, fst (foldl (fun '(jb, x) id =>
    if hit jb id then (hide_node jb id false, x + 1) else (jb, x)) (j, x) ids) = hide_some hit j ids).
  { induction ids as [|i ids IH]; intros j x; [done|]. cbn. destruct (hit j i); apply IH. }
  specialize (X (node_list jb) jb 0). destruct (foldl _ _ _) as [jb1 x]. cbn [fst] in X. subst jb1.
  destruct (hide_some_spec hit (node_list jb) jb m W) as (m' & W' & S & K); [done|].
  exists m'. destruct (negb (x =? 0)); [|done]. destruct (sort_free_spec _ _ W') as [W2 K2].
  split_and!; [done|done|by etrans].
Qed.

Lemma thin_loop_spec n freq jb m i l : wf_nodes jb m ->
  exists m', wf_nodes (thin_loop n freq jb i l) m' /\ keeps jb (thin_loop n freq jb i l).
Proof.
  revert jb m i l. induction n as [|n IH]; intros jb m i l W; [by exists m|]. cbn [thin_loop].
  revert i. induction l as [|id l IHl]; intros i; [by exists m|].
  destruct (negb (max_frame_len jb <? complete_frames jb)); [by exists m|].
  destruct (negb (nvisible jb id)); [apply IHl|]. cbv zeta. destruct ((i + 1) mod freq =? 0); [|apply IHl].
  destruct (drop_ts_spec jb m (nts jb id) W) as (m1 & W1 & _ & K1).
  destruct (IH _ _ (i + 1) (drop 1 (node_list (drop_ts jb (nts jb id)))) W1) as (m2 & W2 & K2).
  exists m2. split; [done|by etrans].
Qed.

Lemma thin_frames_spec jb m freq n : wf_nodes jb m ->
  exists m', wf_nodes (thin_frames jb freq n) m' /\ keeps jb (thin_frames jb freq n).
Proof.
  intros W. unfold thin_frames. destruct (thin_loop_spec n freq jb m (-1) (node_list jb) W) as (m1 & W1 & K1).
  destruct (sort_free_spec _ _ W1) as [W2 K2]. exists m1. split; [done|by etrans].
Qed.

(** ** The invariant through the operations *)

Lemma good_reset jb : good jb -> good (switch_jb_reset jb).
Proof.
  intros G. destruct G as ([m W] & ?) eqn:E. destruct (reset_spec jb m W) as (W' & K & _).
  by eapply keeps_good.
Qed.

Lemma good_drop_ts jb t : good jb -> good (drop_ts jb t).
Proof.
  intros G. pose proof G as ([m W] & _). destruct (drop_ts_spec jb m t W) as (m' & W' & _ & K).
  by eapply keeps_good.
Qed.

Lemma good_thin jb f n : good jb -> good (thin_frames jb f n).
Proof.
  intros G. pose proof G as ([m W] & _). destruct (thin_frames_spec jb m f n W) as (m' & W' & K).
  by eapply keeps_good.
Qed.

Lemma good_hide jb id pop : good jb -> id ∈ node_list jb -> good (hide_node jb id pop).
Proof.
  intros G Hid. pose proof G as ([m W] & _). destruct (hide_node_spec jb m id pop W Hid) as (W' & K).
  eapply keeps_good; [by eapply hides_keeps|done|done].
Qed.

Lemma frame_inc_len jb i : i = 1 \/ i = -1 -> wf_len jb ->
  wf_len (jb_frame_inc jb i) /\ min_frame_len (jb_frame_inc jb i) = min_frame_len jb /\
  max_frame_len (jb_frame_inc jb i) = max_frame_len jb.
Proof.
  intros I (P & F & M). unfold UINT_MAX in M.
  assert (u32 (frame_len jb + i) = frame_len jb + i) as U by (apply u32_small; destruct I as [-> | ->]; lia).
  unfold jb_frame_inc, wf_len, UINT_MAX. rewrite U. destruct I as [-> | ->]; cbn [Z.eqb Z.ltb Z.compare];
    repeat (ifcase; rupd); rupd; lia.
Qed.

Lemma good_frame_inc jb i : i = 1 \/ i = -1 -> good jb -> good (jb_frame_inc jb i).
Proof.
  intros I ([m W] & L & M). destruct (frame_inc_len jb i I L) as (L' & _).
  assert (key (jb_frame_inc jb i) = key jb /\ missing_seq_hash (jb_frame_inc jb i) = missing_seq_hash jb) as [K E]
    by (unfold jb_frame_inc; repeat case_match; done).
  split; [exists m; by eapply wf_nodes_key|]. split; [done|]. unfold wf_missing. by rewrite E.
Qed.

Lemma let_good (t : switch_jb) (b : switch_jb -> switch_jb) :
  good t -> (forall x, good x -> good (b x)) -> good (let x := t in b x).
Proof. intros G B. by apply B. Qed.
Lemma let_good_any {A} (t : A) (b : A -> switch_jb) : (forall x, good (b x)) -> good (let x := t in b x).
Proof. intros B. by apply B. Qed.

(** Updates of the fields the invariant is not about. *)
Lemma good_request_video_refresh jb : good jb -> good (request_video_refresh jb).
Proof. intros G. unfold request_video_refresh. destruct (session jb); [|done]. by apply (good_key jb). Qed.
Lemma good_jb_hit jb : good jb -> good (jb_hit jb).
Proof. by apply good_key. Qed.
Lemma good_jb_miss jb : good jb -> good (jb_miss jb).
Proof. by apply good_key. Qed.
Lemma good_increment_seq jb : good jb -> good (increment_seq jb).
Proof. by apply good_key. Qed.
Lemma good_set_read_seq jb x : good jb -> good (set_read_seq jb x).
Proof. by apply good_key. Qed.

Ltac gd1 :=
  match goal with
  | |- good (let x := ?t in @?b x) =>
      first [ apply (let_good t b); [|intros ? ?] | apply (let_good_any t b); intros ? ]
  | |- good (if ?b then _ else _) => destruct b eqn:?
  | |- good (match ?x with _ => _ end) => destruct x eqn:?
  | |- good (switch_jb_reset _) => apply good_reset
  | |- good (drop_ts _ _) => apply good_drop_ts
  | |- good (drop_oldest_frame _) => apply good_drop_ts
  | |- good (thin_frames _ _ _) => apply good_thin
  | |- good (jb_frame_inc _ _) => apply good_frame_inc; [by (left + right)|]
  | |- good (request_video_refresh _) => apply good_request_video_refresh
  | |- good (jb_hit _) => apply good_jb_hit
  | |- good (jb_miss _) => apply good_jb_miss
  | |- good (increment_seq _) => apply good_increment_seq
  | |- good (set_read_seq _ _) => apply good_set_read_seq
  | |- good (?r <| ?f := ?v |>) =>
      let G := fresh in
      enough (G : good r)
        by (revert G; generalize r; intros ? G;
            eapply good_key; [..|exact G]; reflexivity)
  | G : good ?x |- good ?x => exact G
  end.
Ltac gd := repeat gd1.
Tactic Notation "gds" reference(f) := cbv delta [f]; cbv beta; gd.

Lemma good_bitrate jb : good jb -> good (bitrate_check jb).
Proof. intros G. gds bitrate_check. Qed.

Lemma good_period jb : good jb -> good (period_check jb).
Proof. intros G. gds period_check. apply good_bitrate. gd. Qed.

(** ** New nodes *)

(** The fields that reads and writes of an audio buffer depend on. *)
Definition status (jb : switch_jb) :=
  (type jb, flags jb, complete_frames jb, target_seq jb, highest_dropped_ts jb, flush jb,
   (period_count jb, period_miss_count jb, consec_miss_count jb),
   (min_frame_len jb, max_frame_len jb, frame_len jb)).

Lemma status_inv jb jb' : status jb' = status jb ->
  (type jb' = type jb /\ flags jb' = flags jb /\ complete_frames jb' = complete_frames jb /\
   target_seq jb' = target_seq jb /\ highest_dropped_ts jb' = highest_dropped_ts jb /\ flush jb' = flush jb) /\
  (period_count jb' = period_count jb /\ period_miss_count jb' = period_miss_count jb /\
   consec_miss_count jb' = consec_miss_count jb) /\
  (min_frame_len jb' = min_frame_len jb /\ max_frame_len jb' = max_frame_len jb /\ frame_len jb' = frame_len jb).
Proof. unfold status. intros [=]. split_and!; done. Qed.

(** What a fresh node leaves alone. *)
Record fresh_in (jb jb' : switch_jb) (m : gmap Z Z) (id : Z) : Prop := mk_fresh_in {
  fi_wf : wf_nodes jb' m;
  fi_in : id ∈ node_list jb';
  fi_visible : nvisible jb' id = true;
  fi_unused : forall k, m !! k <> Some id;
  fi_other : forall i, i <> id -> node jb' i = node jb i;
  fi_rest : missing_seq_hash jb' = missing_seq_hash jb /\ min_frame_len jb' = min_frame_len jb /\
            max_frame_len jb' = max_frame_len jb /\ frame_len jb' = frame_len jb;
  fi_list : forall i, i ∈ node_list jb' -> i = id \/ i ∈ node_list jb;
  fi_grow : zlen (node_list jb') <= zlen (node_list jb) \/
            (zlen (node_list jb') <= zlen (node_list jb) + 1 /\ forall i, i ∈ node_list jb -> nvisible jb i = true);
  fi_status : status jb' = status jb
}.

Definition shown (n : switch_jb_node) : switch_jb_node := n <| bad_hits := 0 |> <| visible := true |>.

Lemma wf_show jb m id :
  wf_nodes jb m -> id ∈ node_list jb -> nvisible jb id = false ->
  fresh_in jb (set_node jb id (shown (node jb id)) <| visible_nodes := u32 (visible_nodes jb + 1) |>) m id.
Proof.
  intros W Hin Hv. pose proof W as []. set (nd := shown (node jb id)).
  assert (U : forall k, m !! k <> Some id).
  { intros k Hk. destruct (wn_hash0 k id Hk) as (_ & V & _). congruence. }
  constructor; try done.
  - eapply wf_nodes_key; [|apply (wf_set_node jb m m id nd (node_hash jb) (u32 (visible_nodes jb + 1)) W Hin)].
    + reflexivity.
    + apply wn_seq0.
    + done.
    + intros k j Hk. case_decide; [|done]. subst j. by destruct (U k).
    + rewrite Hv, wn_visible0. subst nd. unfold shown. rupd. unfold u32. rewrite Zplus_mod_idemp_l. f_equal. lia.
  - unfold nvisible. transitivity (visible (node (set_node jb id nd) id)); [done|].
    by rewrite node_set_node, decide_True.
  - intros j Hj. transitivity (node (set_node jb id nd) j); [done|]. by rewrite node_set_node, decide_False.
  - intros i Hi. by right.
  - by left.
Qed.

(** A node from the pool, not yet visible, at the head of the chain. *)
Definition with_fresh (jb : switch_jb) : switch_jb :=
  let id := Z.of_nat (size (pool jb)) + 1 in
  let jb := set_node jb id zero_node <| allocated_nodes := u32 (allocated_nodes jb + 1) |> in
  jb <| node_list := id :: node_list jb |>.

Lemma wf_alloc jb m (id := Z.of_nat (size (pool jb)) + 1) :
  wf_nodes jb m ->
  wf_nodes (with_fresh jb) m /\
  forall i, node (with_fresh jb) i = if decide (i = id) then zero_node else node jb i.
Proof.
  intros W. pose proof W as [].
  assert (Fr : pool jb !! id = None).
  { destruct (pool jb !! id) eqn:E; [|done]. destruct (wn_fresh0 id); [by eauto|]. lia. }
  set (jb2 := with_fresh jb).
  assert (N1 : forall i, node jb2 i = if decide (i = id) then zero_node else node jb i)
    by (intros i; apply (node_set_node jb id zero_node i)).
  assert (NI : id ∉ node_list jb) by (rewrite wn_dom0, Fr; by intros [? ?]).
  assert (L2 : node_list jb2 = id :: node_list jb) by done.
  assert (P2 : pool jb2 = <[id := zero_node]> (pool jb)) by done.
  split; [|done]. constructor; unfold nvisible, nseq in *; try done.
  - apply NoDup_cons. done.
  - intros i. rewrite L2, P2, elem_of_cons, wn_dom0.
    destruct (decide (i = id)) as [->|]; [rewrite lookup_insert_eq; naive_solver|].
    rewrite lookup_insert_ne by done. naive_solver.
  - intros i. rewrite P2, map_size_insert, Fr. cbn. intros Hi.
    destruct (decide (i = id)) as [->|]; [lia|].
    rewrite lookup_insert_ne in Hi by done. apply wn_fresh0 in Hi. lia.
  - intros k i Hk. destruct (wn_hash0 k i Hk) as (Hi & V & S).
    rewrite N1, decide_False by (intros ->; done). rewrite L2. split_and!; [set_solver|done|done].
  - intros i. rewrite N1. case_decide; [cbn; lia|]. apply wn_seq0.
  - transitivity (visible_nodes jb); [done|]. rewrite wn_visible0. unfold vcount, nvisible.
    rewrite L2, filter_cons, decide_False by (rewrite N1, decide_True by done; done).
    do 3 f_equal. apply filter_same_in. intros i Hi. by rewrite N1, decide_False by (intros ->; done).
  - transitivity (u32 (allocated_nodes jb + 1)); [done|]. rewrite wn_alloc0, L2. unfold u32.
    rewrite Zplus_mod_idemp_l. f_equal. simpl. lia.
Qed.

Lemma new_node_spec jb m :
  wf_nodes jb m ->
  match new_node jb with
  | (jb', Some id) => fresh_in jb jb' m id
  | (jb', None) => jb' = switch_jb_reset jb /\ node_limit jb < allocated_nodes jb
  end.
Proof.
  intros W. pose proof W as []. unfold new_node. destruct (first_hidden jb) as [id|] eqn:F.
  - unfold first_hidden in F. apply fmap_Some in F as ([n i] & L & ->). cbn [snd].
    apply list_find_Some in L as (L & Hv & _). exact (wf_show jb m i W (list_elem_of_lookup_2 _ _ _ L) Hv).
  - destruct (Z.ltb_spec (node_limit jb) (allocated_nodes jb)); [done|].
    destruct (wf_alloc jb m W) as [W2 N]. set (id := Z.of_nat (size (pool jb)) + 1) in *.
    assert (id ∉ node_list jb) as NI.
    { rewrite wn_dom0. intros Hi%wn_fresh0. subst id. lia. }
    destruct (wf_show (with_fresh jb) m id W2) as [].
    { apply elem_of_cons. by left. }
    { unfold nvisible. by rewrite N, decide_True. }
    constructor; try done.
    + intros i Hi. etrans; [exact (fi_other0 i Hi)|]. by rewrite N, decide_False.
    + intros i [->|Hi]%elem_of_cons; [by left|by right].
    + right. split; [change (zlen (id :: node_list jb) <= zlen (node_list jb) + 1); simpl; lia|].
      intros i Hi. unfold first_hidden in F. apply fmap_None, list_find_None in F. rewrite Forall_forall in F.
      specialize (F i Hi). by destruct (nvisible jb i).
Qed.

(** ** Writing *)

Lemma store_spec jb jb1 m id pk n :
  fresh_in jb jb1 m id -> 0 <= seq pk < 65536 ->
  wf_nodes (store jb1 id pk n) (<[seq pk := id]> m) /\
  (forall i, node (store jb1 id pk n) i =
     if decide (i = id) then node jb1 id <| packet := pk |> <| len := n |> else node jb i).
Proof.
  intros [] Hs. pose proof fi_wf0 as W. pose proof W as [].
  set (nd := node jb1 id <| packet := pk |> <| len := n |>). set (jb2 := set_node jb1 id nd).
  assert (N : forall i, node jb2 i = if decide (i = id) then nd else node jb1 i)
    by (intros i; apply node_set_node).
  assert (S : nseq jb2 id = seq pk) by (unfold nseq; by rewrite N, decide_True).
  unfold store. fold nd jb2. rewrite S. split.
  - eapply wf_nodes_key; [|apply (wf_set_node jb1 m (<[seq pk := id]> m) id nd
      (ih_insert (node_hash jb1) (seq pk) id) (visible_nodes jb1) W fi_in0)].
    + reflexivity.
    + done.
    + apply ih_insert_repr; [done|by eapply wf_size].
    + intros k i [[<- <-]|[Nk Hk]]%lookup_insert_Some; case_decide; try done.
      subst. by destruct (fi_unused0 k).
    + rewrite wn_visible0, fi_visible0. subst nd. rupd. change (visible (node jb1 id)) with (nvisible jb1 id).
      rewrite fi_visible0. f_equal. lia.
  - intros i. transitivity (node jb2 i); [done|]. rewrite N. case_decide; [done|]. by apply fi_other0.
Qed.

(** [goodi id jb]: the invariant, and [id] is a node of the chain. *)
Definition goodi (id : Z) (jb : switch_jb) : Prop := good jb /\ id ∈ node_list jb.

Lemma goodi_key id jb jb' :
  key jb' = key jb -> missing_seq_hash jb' = missing_seq_hash jb ->
  min_frame_len jb' = min_frame_len jb -> max_frame_len jb' = max_frame_len jb ->
  frame_len jb' = frame_len jb -> goodi id jb -> goodi id jb'.
Proof.
  intros K ? ? ? ? [G I]. split; [by eapply good_key|]. unfold key in K. simplify_eq. congruence.
Qed.

Lemma goodi_reset id jb : goodi id jb -> goodi id (switch_jb_reset jb).
Proof.
  intros [G I]. split; [by apply good_reset|]. destruct G as ([m W] & _).
  destruct (reset_spec jb m W) as (_ & K & _). by rewrite (kp_list _ _ K).
Qed.

Lemma goodi_version id jb v : goodi id jb ->
  goodi id (set_node jb id (node jb id <| packet := packet (node jb id) <| version := v |> |>)).
Proof.
  intros [([m W] & L & M) I]. split; [|done]. split; [|done]. exists m. pose proof W as [].
  set (nd := node jb id <| packet := packet (node jb id) <| version := v |> |>).
  eapply wf_nodes_key; [|apply (wf_set_node jb m m id nd (node_hash jb) (visible_nodes jb) W I)]; try done.
  - apply wn_seq0.
  - intros k i Hk. case_decide; [|done]. subst i. by destruct (wn_hash0 k id Hk) as (_ & V & S).
  - rewrite wn_visible0. f_equal. change (visible nd) with (nvisible jb id). lia.
Qed.

Lemma let_inv {A} (P : A -> Prop) (t : A) (b : A -> A) :
  P t -> (forall x, P x -> P (b x)) -> P (let x := t in b x).
Proof. intros G B. by apply B. Qed.

Ltac gi1 :=
  match goal with
  | |- goodi ?id (let x := ?t in @?b x) => apply (let_inv (goodi id) t b); [|intros ? ?]
  | |- goodi _ (if ?b then _ else _) => destruct b
  | |- goodi _ (match ?x with _ => _ end) => destruct x eqn:?
  | |- goodi _ (switch_jb_reset _) => apply goodi_reset
  | |- goodi _ (set_node _ _ _) => apply goodi_version
  | |- goodi ?id (?r <| ?f := ?v |>) =>
      let G := fresh in
      enough (G : goodi id r)
        by (revert G; generalize r; intros ? G; eapply goodi_key; [..|exact G]; reflexivity)
  | G : goodi _ ?x |- goodi _ ?x => exact G
  end.

Lemma goodi_note jb pk id : goodi id jb -> goodi id (note_write jb pk id).
Proof. intros G. cbv delta [note_write]; cbv beta. repeat gi1. Qed.

Lemma store_ts_off jb m id : wf_nodes jb m -> store_ts jb id = jb.
Proof. intros []. unfold store_ts. by rewrite (proj1 wn_mode0). Qed.

Lemma good_add_node jb pk n :
  good jb -> 0 <= seq pk < 65536 -> n <= BODY_ROOM ->
  exists jb', add_node jb pk n = Ok jb' /\ good jb'.
Proof.
  intros G Hs Hn. pose proof G as ([m W] & L & M). unfold add_node.
  pose proof (new_node_spec jb m W) as F. destruct (new_node jb) as [jb1 [id|]].
  - destruct (Z.ltb_spec BODY_ROOM n); [lia|]. eexists. split; [done|].
    destruct (store_spec jb jb1 m id pk n F Hs) as [W2 _]. rewrite (store_ts_off _ _ id W2).
    apply goodi_note. destruct F as []. destruct fi_rest0 as (E1 & E2 & E3 & E4). split; [|done].
    split; [by eexists|]. unfold wf_len, wf_missing in *. cbn.
    change (min_frame_len (store jb1 id pk n)) with (min_frame_len jb1).
    change (max_frame_len (store jb1 id pk n)) with (max_frame_len jb1).
    change (frame_len (store jb1 id pk n)) with (frame_len jb1).
    change (missing_seq_hash (store jb1 id pk n)) with (missing_seq_hash jb1).
    by rewrite E1, E2, E3, E4.
  - destruct F as [-> _]. eexists. split; [done|]. by apply good_reset.
Qed.


Lemma mark_missing_wf n h i mm :
  ih_repr h mm -> (forall k v, mm !! k = Some v -> 0 <= k < 65536) ->
  exists mm', ih_repr (mark_missing h i n) mm' /\ forall k v, mm' !! k = Some v -> 0 <= k < 65536.
Proof.
  revert h i mm. induction n as [|n IH]; intros h i mm R B; [by exists mm|]. cbn [mark_missing].
  apply (IH _ _ (<[swap16 i := 1]> mm)).
  - apply ih_insert_repr; [done|]. pose proof (small_map mm B). unfold UINT_MAX. lia.
  - intros k v [[<- _]|[_ Hk]]%lookup_insert_Some; [apply swap16_range|by eapply B].
Qed.

Lemma good_missing jb h mm :
  good jb -> ih_repr h mm -> (forall k v, mm !! k = Some v -> 0 <= k < 65536) ->
  good (jb <| missing_seq_hash := h |>).
Proof. intros ([m W] & L & _) R B. split; [exists m; by apply (wf_nodes_key jb)|]. split; [done|by exists mm]. Qed.

Lemma good_mark jb i n : good jb ->
  good (jb <| missing_seq_hash := mark_missing (missing_seq_hash jb) i n |>).
Proof.
  intros G. pose proof G as (_ & _ & (mm & R & B)).
  destruct (mark_missing_wf n (missing_seq_hash jb) i mm R B) as (mm' & R' & B'). by eapply good_missing.
Qed.

Lemma good_unmiss jb k : good jb -> good (jb <| missing_seq_hash := ih_delete (missing_seq_hash jb) k |>).
Proof.
  intros G. pose proof G as (_ & _ & (mm & R & B)).
  apply (good_missing jb _ (delete k mm) G); [by apply ih_delete_repr|].
  intros k' v [_ Hk]%lookup_delete_Some. by eapply B.
Qed.

Lemma good_put jb pk n :
  good jb -> 0 <= seq pk < 65536 -> n <= BODY_ROOM ->
  exists jb' st, switch_jb_put_packet jb pk n = Ok (jb', st) /\ good jb'.
Proof.
  intros G Hs Hn. unfold BODY_ROOM in *. cbv delta [switch_jb_put_packet]; cbv beta zeta.
  destruct (negb (_ =? 0) && _); [by eauto|].
  destruct (Z.leb_spec SIZEOF_PACKET n); [unfold SIZEOF_PACKET in *; lia|].
  match goal with |- context [add_node ?t] => assert (good t) as G1 end.
  { gd. all: try (apply good_mark; gd); try (apply good_unmiss; gd). }
  destruct (good_add_node _ pk n G1 Hs Hn) as (jb' & -> & G'). cbn [mbind outcome_bind].
  eexists _, _. split; [reflexivity|]. gd.
Qed.

(** ** Reading *)

Lemma hide_dropped jb id pop : dropped (hide_node jb id pop) = dropped jb.
Proof. unfold hide_node, forget_ts, hide_visible. repeat case_match; done. Qed.

Lemma drop_ts_dropped jb t : dropped (drop_ts jb t) = dropped jb.
Proof.
  unfold drop_ts. set (f := fun '(jb, x) id => _).
  assert (X : forall ids j x, dropped (fst (foldl f (j, x) ids)) = dropped j).
  { induction ids as [|i ids IH]; intros j x; [done|]. cbn [foldl]. unfold f at 2.
    destruct (_ && _); rewrite IH; [apply hide_dropped|done]. }
  specialize (X (node_list jb) jb 0). destruct (foldl f _ _) as [jb1 x]. by destruct (negb (x =? 0)).
Qed.

Lemma frame_inc_rest jb i :
  key (jb_frame_inc jb i) = key jb /\ dropped (jb_frame_inc jb i) = dropped jb /\
  type (jb_frame_inc jb i) = type jb /\ target_seq (jb_frame_inc jb i) = target_seq jb.
Proof. unfold jb_frame_inc. repeat case_match; done. Qed.

Lemma frame_inc_counts jb i :
  complete_frames (jb_frame_inc jb i) = complete_frames jb /\
  max_frame_len (jb_frame_inc jb i) = max_frame_len jb.
Proof. unfold jb_frame_inc. repeat case_match; done. Qed.

Lemma refresh_rest jb :
  key (request_video_refresh jb) = key jb /\ dropped (request_video_refresh jb) = dropped jb /\
  type (request_video_refresh jb) = type jb /\ target_seq (request_video_refresh jb) = target_seq jb.
Proof. unfold request_video_refresh. by destruct (session jb). Qed.

Lemma drop_ts_type jb t : good jb -> type (drop_ts jb t) = type jb.
Proof. intros ([m W] & _). destruct (drop_ts_spec jb m t W) as (? & _ & _ & K). apply K. Qed.

(** The node [id] is one to read: visible, and in the chain. *)
Definition readable (jb : switch_jb) (id : Z) : Prop := id ∈ node_list jb /\ nvisible jb id = true.

Lemma find_readable jb k id : good jb -> ih_find (node_hash jb) k = Some id -> readable jb id.
Proof.
  intros ([m W] & _). rewrite (ih_find_repr _ m) by apply W. intros Hk.
  destruct (wn_hash _ _ W k id Hk) as (? & ? & _). done.
Qed.

Lemma try_next_spec n jb : good jb -> dropped jb = 0 ->
  match try_next n jb with
  | (jb', inl o) => good jb' /\ type jb' = type jb /\ forall id, o = Some id -> readable jb' id
  | (jb', inr _) => good jb' /\ type jb' = type jb /\ dropped jb' = 1
  end.
Proof.
  revert jb. induction n as [|n IH]; intros jb G D; [done|]. cbn [try_next]. cbv zeta.
  assert (G1 : good (increment_seq jb)) by gd. set (jb1 := increment_seq jb) in *.
  assert (D1 : dropped jb1 = 0) by done. assert (T1 : type jb1 = type jb) by done.
  destruct (ih_find (node_hash jb1) (target_seq jb1)) as [id|] eqn:F.
  - destruct (_ || _).
    + split; [gd|]. assert (good (jb1 <| dropped := u32 (dropped jb1 + 1) |>)) as G2 by gd. split.
      * transitivity (type (drop_ts (jb1 <| dropped := u32 (dropped jb1 + 1) |>) (nts jb1 id))); [done|].
        by rewrite drop_ts_type.
      * transitivity (dropped (drop_ts (jb1 <| dropped := u32 (dropped jb1 + 1) |>) (nts jb1 id))); [done|].
        rewrite drop_ts_dropped. rupd. by rewrite D1.
    + split_and!; [done|done|]. intros i [= <-]. by eapply find_readable.
  - rewrite <- T1. by apply IH.
Qed.

Definition lowest_of (jb : switch_jb) (o : option Z) (l : list Z) : Prop :=
  match o with
  | Some id => id ∈ l /\ nvisible jb id = true /\
               forall i, i ∈ l -> nvisible jb i = true -> ntohs (nseq jb id) <= ntohs (nseq jb i)
  | None => forall i, i ∈ l -> nvisible jb i = false
  end.

Lemma find_lowest_spec jb : lowest_of jb (jb_find_lowest_seq jb 0) (node_list jb).
Proof.
  unfold jb_find_lowest_seq. set (f := fun lowest id => _).
  assert (X : forall l l0 o, lowest_of jb o l0 -> lowest_of jb (foldl f o l) (l0 ++ l)).
  { induction l as [|i l IH]; intros l0 o L; [by rewrite app_nil_r|]. cbn [foldl].
    rewrite (cons_middle i l0 l), app_assoc. apply IH. unfold f. cbn [Z.eqb negb andb].
    destruct (nvisible jb i) eqn:V; cbn [negb].
    - destruct o as [id|]; cbn in *.
      + destruct L as (Hi & Vi & Lo). destruct (Z.ltb_spec (ntohs (nseq jb i)) (ntohs (nseq jb id))).
        * split_and!; [set_solver|done|]. intros j [Hj|Hj]%elem_of_app Vj; [specialize (Lo j Hj Vj); lia|].
          apply list_elem_of_singleton in Hj as ->. lia.
        * split_and!; [set_solver|done|]. intros j [Hj|Hj]%elem_of_app Vj; [by apply Lo|].
          apply list_elem_of_singleton in Hj as ->. lia.
      + split_and!; [set_solver|done|]. intros j [Hj|Hj]%elem_of_app Vj; [specialize (L j Hj); congruence|].
        apply list_elem_of_singleton in Hj as ->. lia.
    - destruct o as [id|]; cbn in *.
      + destruct L as (Hi & Vi & Lo). split_and!; [set_solver|done|].
        intros j [Hj|Hj]%elem_of_app Vj; [by apply Lo|].
        apply list_elem_of_singleton in Hj as ->. congruence.
      + intros j [Hj|Hj]%elem_of_app; [by apply L|]. by apply list_elem_of_singleton in Hj as ->. }
  apply (X (node_list jb) [] None). cbn. set_solver.
Qed.

(** The result of a search: the invariant, the same buffer type, a node to read. *)
Definition found_next (jb jb' : switch_jb) (o : option Z) : Prop :=
  good jb' /\ type jb' = type jb /\ forall id, o = Some id -> readable jb' id.

(** A turn from the label [top] ends the search or drops a frame, and a turn
    after a drop ends it. *)
Lemma next_turn f jb : good jb ->
  (exists jb' o, next_by_seq (S f) jb = Some (jb', o) /\ found_next jb jb' o) \/
  (exists jb', next_by_seq (S f) jb = next_by_seq f jb' /\ good jb' /\ type jb' = type jb /\
               dropped jb = 0 /\ dropped jb' = 1 /\ video jb = true).
Proof.
  intros G. cbn [next_by_seq]. set (jb0 := if video jb && negb (dropped jb =? 0) then _ else jb).
  assert (G0 : good jb0) by (subst jb0; gd).
  assert (T0 : type jb0 = type jb).
  { subst jb0. destruct (_ && _); [|done]. by rewrite (proj1 (proj2 (proj2 (refresh_rest _)))). }
  assert (D0 : video jb = true -> dropped jb0 = 0 /\ (dropped jb <> 0 -> target_seq jb0 = 0)).
  { intros V. subst jb0. rewrite V. destruct (Z.eqb_spec (dropped jb) 0); [done|].
    cbn [negb andb]. destruct (refresh_rest (jb <| dropped := 0 |> <| target_seq := 0 |>)) as (_ & -> & _ & ->).
    done. }
  cbv zeta. destruct (Z.eqb_spec (target_seq jb0) 0) as [Et|Et].
  { left. eexists _, _. split; [done|]. split; [gd|]. split; [done|]. intros id.
    destruct (ih_find _ _) as [i|] eqn:F; [intros [= ->]; by eapply (find_readable jb0)|].
    intros E. pose proof (find_lowest_spec jb0) as L. rewrite E in L. destruct L as (? & ? & _). done. }
  destruct (ih_find _ _) as [i|] eqn:F.
  { left. eexists _, _. split; [done|]. split; [gd|]. split; [done|].
    intros id [= ->]. by eapply (find_readable jb0). }
  assert (V0 : video (jb_miss jb0) = video jb) by (by apply video_key).
  rewrite V0. destruct (video jb) eqn:V.
  2:{ left. eexists _, _. split; [done|]. split; [gd|]. by split. }
  destruct D0 as [D0 Dt]; [done|]. clearbody jb0.
  set (jb1 := if (1 <? period_miss_count _) && _ then _ else _).
  assert (G1 : good jb1 /\ type jb1 = type jb /\ dropped jb1 = 0).
  { subst jb1. split; [gd|]. destruct (_ && _); [|by split].
    destruct (frame_inc_rest (jb_miss jb0 <| period_miss_inc := u32 (period_miss_inc (jb_miss jb0) + 1) |>) 1)
      as (_ & -> & -> & _). done. }
  destruct G1 as (G1 & T1 & D1). destruct (refresh_rest jb1) as (_ & D2 & T2 & _).
  pose proof (try_next_spec 10 (request_video_refresh jb1)) as N.
  destruct (try_next 10 _) as [jb' [o|[]]].
  - left. exists jb', o. destruct N as (N1 & N2 & N3); [gd|congruence|].
    split; [done|]. split_and!; [done|congruence|done].
  - right. exists jb'. destruct N as (N1 & N2 & N3); [gd|congruence|].
    split_and!; try congruence; try done. destruct (decide (dropped jb = 0)); [done|]. tauto.
Qed.

(** The search of [jb_next_packet_by_seq] ends within two turns. *)
Lemma next_by_seq_total jb : good jb ->
  exists jb' o, next_by_seq 2 jb = Some (jb', o) /\ found_next jb jb' o.
Proof.
  intros G. destruct (next_turn 1 jb G) as [?|(j1 & -> & G1 & T1 & _ & D1 & V)]; [done|].
  destruct (next_turn 0 j1 G1) as [(jb' & o & -> & F1 & F2 & F3)|(_ & _ & _ & _ & D & _)]; [|lia].
  exists jb', o. split; [done|]. split_and!; [done|congruence|done].
Qed.

Lemma next_packet_total jb : good jb ->
  exists jb' o, jb_next_packet jb = Some (jb', o) /\ found_next jb jb' o.
Proof.
  intros G. pose proof G as ([m W] & _). unfold jb_next_packet, jb_next_packet_by_seq.
  rewrite (proj2 (wn_mode _ _ W)). cbn [Z.eqb negb].
  destruct (next_by_seq_total jb G) as (j & [id|] & -> & G1 & T1 & R1); eexists _, _; (split; [done|]).
  - split; [gd|]. by split.
  - by split_and!.
Qed.

Lemma goodi_note_read jb id : goodi id jb -> goodi id (note_read jb id).
Proof. intros G. cbv delta [note_read]; cbv beta. repeat gi1. Qed.

Lemma good_read jb : good jb ->
  exists jb' st out, read_packet jb = Some (jb', st, out) /\ good jb'.
Proof.
  intros G. unfold read_packet. cbv zeta. set (jb1 := if _ <? _ then _ else _).
  assert (G1 : good jb1) by (subst jb1; gd; by apply good_period). clearbody jb1.
  destruct (next_packet_total jb1 G1) as (jb2 & [id|] & -> & G2 & T2 & R2).
  - eexists _, _, _. split; [done|]. destruct (R2 id eq_refl) as [I _].
    destruct (goodi_note_read jb2 id) as [G3 I3]; [done|]. apply good_hide; [gd|done].
  - destruct (video jb2); [|destruct (_ <? _)]; eexists _, _, _; (split; [reflexivity|]); gd.
Qed.

Lemma good_get jb : good jb ->
  exists jb' st out, switch_jb_get_packet jb = Some (jb', st, out) /\ good jb'.
Proof.
  intros G. unfold switch_jb_get_packet.
  assert (X : exists jb1 st out, (if complete_frames jb =? 0
         then Some (jb <| flush := false |>, SWITCH_STATUS_BREAK, NoPacket)
         else if (complete_frames jb <? frame_len jb) && negb (flush jb)
         then Some (jb, SWITCH_STATUS_MORE_DATA, NoPacket)
         else read_packet jb) = Some (jb1, st, out) /\ good jb1).
  { destruct (_ =? 0); [eexists _, _, _; split; [done|gd]|].
    destruct (_ && _); [by eauto|by apply good_read]. }
  destruct X as (jb1 & st & out & -> & G1). eexists _, _, _. split; [reflexivity|]. gd.
Qed.

(** ** Audio: what a buffer holds *)

Definition contents (jb : switch_jb) (m : gmap Z Z) : gmap Z (rtp_packet * Z) :=
  (fun id => (packet (node jb id), len (node jb id))) <$> m.

(** The visible nodes are the indexed ones. *)
Definition indexed (jb : switch_jb) (m : gmap Z Z) : Prop :=
  forall id, readable jb id -> m !! nseq jb id = Some id.

Definition counted (jb : switch_jb) (d : Z) : switch_jb := jb <| complete_frames := u32 (complete_frames jb + d) |>.

Lemma counted_status jb jb' d : status jb' = status jb -> status (counted jb' d) = status (counted jb d).
Proof.
  intros S. unfold counted. rewrite (proj1 (proj2 (proj2 (proj1 (status_inv _ _ S))))).
  unfold status in *. rupd. congruence.
Qed.

Lemma note_write_audio jb pk id : type jb = SJB_AUDIO ->
  key (note_write jb pk id) = key jb /\ status (note_write jb pk id) = status (counted jb 1).
Proof.
  intros A. unfold note_write.
  assert (V : video jb = false) by (unfold video; by rewrite A). rewrite V, andb_false_r. cbn [andb].
  set (jb1 := if _ || _ || _ then _ else jb).
  assert (E : key jb1 = key jb /\ status jb1 = status jb /\ type jb1 = SJB_AUDIO)
    by (subst jb1; by destruct (_ || _ || _)).
  destruct E as (E1 & E2 & E3). assert (video jb1 = false) as -> by (unfold video; by rewrite E3).
  rewrite (bool_decide_true (type jb1 = SJB_AUDIO)), orb_true_r by done. clearbody jb1.
  pose proof (counted_status _ _ 1 E2) as E4.
  split.
  - rewrite <- E1. by destruct (negb _).
  - rewrite <- E4. by destruct (negb _).
Qed.

(** A write of an audio packet that finds a node. *)
Record put_in (jb jb' : switch_jb) (m : gmap Z Z) (pk : rtp_packet) (n id : Z) : Prop := mk_put_in {
  pi_wf : wf_nodes jb' (<[seq pk := id]> m);
  pi_fresh : forall k, m !! k <> Some id;
  pi_node : packet (node jb' id) = pk /\ len (node jb' id) = n;
  pi_other : forall i, i <> id -> node jb' i = node jb i;
  pi_list : forall i, i ∈ node_list jb' -> i = id \/ i ∈ node_list jb;
  pi_grow : zlen (node_list jb') <= zlen (node_list jb) \/
            (zlen (node_list jb') <= zlen (node_list jb) + 1 /\ forall i, i ∈ node_list jb -> nvisible jb i = true);
  pi_status : status jb' = status (counted jb 1)
}.

Lemma put_audio jb m pk n :
  wf_nodes jb m -> type jb = SJB_AUDIO -> queue_only jb = false -> highest_dropped_ts jb = 0 ->
  0 <= seq pk < 65536 -> n <= BODY_ROOM ->
  exists jb', switch_jb_put_packet jb pk n = Ok (jb', SWITCH_STATUS_SUCCESS) /\
    ((node_limit jb < allocated_nodes jb /\ wf_nodes jb' ∅) \/ exists id, put_in jb jb' m pk n id).
Proof.
  intros W A Q D Hs Hn. cbv delta [switch_jb_put_packet]; cbv beta zeta. rewrite D. cbn [Z.eqb negb andb].
  destruct (Z.leb_spec SIZEOF_PACKET n); [unfold SIZEOF_PACKET, BODY_ROOM in *; lia|].
  rewrite (bool_decide_true (type jb = SJB_AUDIO)), orb_true_r by done.
  set (jb0 := jb <| next_seq := _ |>). assert (W0 : wf_nodes jb0 m) by (by apply (wf_nodes_key jb)).
  assert (S0 : status jb0 = status jb) by done.
  unfold add_node. pose proof (new_node_spec jb0 m W0) as F. destruct (new_node jb0) as [jb1 [id|]].
  - destruct (Z.ltb_spec BODY_ROOM n); [lia|]. cbn [mbind outcome_bind].
    destruct (store_spec jb0 jb1 m id pk n F Hs) as [W2 N2]. rewrite (store_ts_off _ _ id W2). destruct F as [].
    assert (S2 : status (store jb1 id pk n) = status jb) by (etrans; [exact fi_status0|done]).
    destruct (note_write_audio (store jb1 id pk n) pk id) as [K3 S3].
    { destruct (status_inv _ _ S2) as ((E & _) & _). congruence. }
    set (jb3 := note_write _ pk id) in *. clearbody jb3.
    rewrite (counted_status _ _ 1 S2) in S3.
    assert (Q3 : queue_only jb3 = false).
    { rewrite <- Q. unfold queue_only. destruct (status_inv _ _ S3) as ((_ & -> & _) & _). done. }
    rewrite Q3. cbn [andb]. eexists. split; [done|]. right. exists id.
    pose proof K3 as K3'. unfold key in K3'. injection K3' as L3 P3 _ _ _ _ _.
    assert (N3 : forall i, node jb3 i = node (store jb1 id pk n) i) by (intros i; unfold node; by rewrite P3).
    constructor.
    + by eapply wf_nodes_key.
    + done.
    + by rewrite N3, N2, decide_True.
    + intros i Hi. by rewrite N3, N2, decide_False.
    + rewrite L3. apply fi_list0.
    + rewrite L3. apply fi_grow0.
    + done.
  - destruct F as [-> L]. cbn [mbind outcome_bind]. destruct (reset_spec jb0 m W0) as (W1 & K & _).
    assert (queue_only (switch_jb_reset jb0) = false) as ->
      by (unfold queue_only; by rewrite (proj2 (kp_type _ _ K))).
    eexists. split; [done|]. left. done.
Qed.

(** A read that is neither held back nor at the end of a period, with few
    misses, and that leaves no more than [max_frame_len] frames. *)
Definition steady (jb : switch_jb) : Prop :=
  type jb = SJB_AUDIO /\
  (0 < complete_frames jb <= max_frame_len jb /\ 2 * max_frame_len jb <= UINT_MAX) /\
  0 <= frame_len jb /\
  (frame_len jb <= complete_frames jb \/ flush jb = true) /\
  (0 <= period_count jb /\ period_count jb + 1 < PERIOD_LEN) /\
  100 * period_miss_count jb <= 60 * (period_count jb + 1).

(** The node that a read takes: the one of the target number, or where there
    is no target the one of number 0 or else of the lowest number. *)
Definition next_of (jb : switch_jb) (m : gmap Z Z) : option Z :=
  if target_seq jb =? 0
  then match m !! 0 with Some id => Some id | None => jb_find_lowest_seq jb 0 end
  else m !! target_seq jb.

Definition ticked (jb : switch_jb) : switch_jb := jb <| period_count := period_count jb + 1 |>.

Lemma period_steady jb : steady jb -> period_check jb = ticked jb.
Proof.
  intros (_ & _ & _ & _ & (P1 & P2) & _). unfold period_check. cbv zeta.
  change (period_count (jb <| period_count := u32 (period_count jb + 1) |>)) with (u32 (period_count jb + 1)).
  unfold PERIOD_LEN in *. rewrite u32_small by lia. destruct (Z.leb_spec 250 (period_count jb + 1)); [lia|done].
Qed.

(** The length test of a steady read. *)
Lemma get_steady jb jb' st out : steady jb ->
  read_packet jb = Some (jb', st, out) ->
  complete_frames jb' <= max_frame_len jb' -> max_frame_len jb' = max_frame_len jb -> 0 <= complete_frames jb' ->
  switch_jb_get_packet jb = Some (jb', st, out).
Proof.
  intros (_ & (C & M) & _ & F & _) R C' M' P. unfold switch_jb_get_packet.
  destruct (Z.eqb_spec (complete_frames jb) 0); [lia|].
  assert ((complete_frames jb <? frame_len jb) && negb (flush jb) = false) as ->.
  { destruct F as [F | ->]; [|by rewrite andb_false_r]. destruct (Z.ltb_spec (complete_frames jb) (frame_len jb)); [lia|done]. }
  rewrite R. cbv zeta. destruct (Z.ltb_spec (max_frame_len jb') (complete_frames jb')); [lia|].
  destruct (Z.ltb_spec (u32 (max_frame_len jb' * 2)) (complete_frames jb')) as [L|L]; [|done]. exfalso.
  revert L. rewrite M' in *. unfold u32, UINT_MAX in *.
  rewrite Z.mod_small by lia. lia.
Qed.

Lemma hide_status jb id pop : type jb = SJB_AUDIO -> status (hide_node jb id pop) = status jb.
Proof.
  intros A. unfold hide_node. set (jb2 := forget_ts (hide_visible jb id pop) id).
  assert (status jb2 = status jb) as S by (unfold jb2, forget_ts, hide_visible; repeat case_match; done).
  assert (video jb2 = false) as V
    by (unfold video; destruct (status_inv _ _ S) as ((-> & _) & _); by rewrite A).
  change (video (jb2 <| node_hash := _ |>)) with (video jb2). rewrite V, andb_false_r. done.
Qed.

Lemma note_read_audio jb id : type jb = SJB_AUDIO ->
  key (note_read jb id) = key jb /\ status (note_read jb id) = status (counted jb (-1)).
Proof.
  intros A. unfold note_read. set (jb1 := if _ || _ then _ else jb).
  assert (E : key jb1 = key jb /\ status jb1 = status jb /\ type jb1 = SJB_AUDIO)
    by (subst jb1; by destruct (_ || _)).
  destruct E as (E1 & E2 & E3). clearbody jb1.
  assert (video jb1 = false) as -> by (unfold video; by rewrite E3). cbn [negb orb].
  rewrite <- E1, <- (counted_status _ _ (-1) E2). by destruct (negb _).
Qed.

(** A read that finds its packet delivers it, once, and asks for the next one. *)
Lemma read_hit jb m id :
  wf_nodes jb m -> steady jb -> next_of jb m = Some id ->
  exists jb', switch_jb_get_packet jb = Some (jb', SWITCH_STATUS_SUCCESS,
      Packet (packet (node jb id) <| version := 2 |>) (len (node jb id))) /\
    wf_nodes jb' (delete (nseq jb id) m) /\ node_list jb' ≡ₚ node_list jb /\
    (forall i, i <> id -> node jb' i = node jb i) /\ nvisible jb' id = false /\
    status jb' = status (set_read_seq (jb_hit (counted (ticked jb) (-1))) (nseq jb id)).
Proof.
  intros W St E. pose proof St as (A & (C & M) & Fl & F & (P1 & P2) & Ms).
  assert (R : readable jb id).
  { revert E. unfold next_of. destruct (_ =? 0); [destruct (m !! 0) eqn:E0|].
    - intros [= <-]. destruct (wn_hash _ _ W _ _ E0) as (? & ? & _). done.
    - intros E. pose proof (find_lowest_spec jb) as L. rewrite E in L. destruct L as (? & ? & _). done.
    - intros E. destruct (wn_hash _ _ W _ _ E) as (? & ? & _). done. }
  set (jb2 := set_read_seq (jb_hit (ticked jb)) (nseq jb id)).
  assert (K2 : key jb2 = key jb) by done. assert (A2 : type jb2 = SJB_AUDIO) by done.
  assert (X : jb_next_packet (ticked jb) = Some (jb2, Some id)).
  { unfold jb_next_packet, jb_next_packet_by_seq. change (samples_per_frame (ticked jb)) with (samples_per_frame jb).
    rewrite (proj2 (wn_mode _ _ W)). cbn [Z.eqb negb next_by_seq].
    assert (video (ticked jb) = false) as -> by (unfold video; change (type (ticked jb)) with (type jb); by rewrite A).
    cbn [andb]. change (target_seq (ticked jb)) with (target_seq jb).
    change (node_hash (ticked jb)) with (node_hash jb). rewrite (ih_find_repr _ m) by apply W.
    change (jb_find_lowest_seq (ticked jb)) with (jb_find_lowest_seq jb).
    revert E. unfold next_of. destruct (Z.eqb_spec (target_seq jb) 0) as [-> | ]; [|by intros ->].
    destruct (m !! 0); [by intros [= ->]|by intros ->]. }
  destruct (note_read_audio jb2 id A2) as [K3 S3].
  set (jb3 := note_read jb2 id) in *. set (jb4 := jb3 <| last_len := len (node jb3 id) |>).
  assert (K4 : key jb4 = key jb) by (etrans; [exact K3|done]).
  destruct (key_inv _ _ K4) as (L4 & _ & N4).
  destruct (hide_node_spec jb4 m id true) as [W5 H5]; [by eapply wf_nodes_key|rewrite L4; apply R|].
  assert (S4 : status jb4 = status (counted jb2 (-1))) by exact S3.
  assert (S5 : status (hide_node jb4 id true) = status jb4).
  { apply hide_status. destruct (status_inv _ _ S4) as ((E4 & _) & _). exact (eq_trans E4 A). }
  assert (C5 : complete_frames (hide_node jb4 id true) = complete_frames jb - 1
            /\ max_frame_len (hide_node jb4 id true) = max_frame_len jb).
  { rewrite S4 in S5. destruct (status_inv _ _ S5) as ((_ & _ & -> & _) & _ & _ & -> & _). split; [|done].
    apply (u32_small (complete_frames jb - 1)). unfold UINT_MAX in *. lia. }
  destruct C5 as [C5 M5].
  exists (hide_node jb4 id true). split_and!.
  - apply get_steady; [done| | | |].
    + unfold read_packet. rewrite (period_steady jb St). cbv zeta.
      change (period_count (ticked jb)) with (period_count jb + 1).
      change (period_miss_count (ticked jb)) with (period_miss_count jb).
      destruct (Z.ltb_spec (60 * (period_count jb + 1)) (100 * period_miss_count jb)); [lia|].
      rewrite X. unfold take_node. fold jb3 jb4.
      by rewrite (N4 id : node jb3 id = node jb id).
    + rewrite C5, M5. lia.
    + done.
    + rewrite C5. lia.
  - by rewrite (f_equal (fun n => seq (packet n)) (N4 id) : nseq jb4 id = nseq jb id) in W5.
  - by rewrite (hd_list _ _ _ H5), L4.
  - intros i Hi. by rewrite (hd_node _ _ _ H5), decide_False.
  - by rewrite (hides_visible _ _ _ _ H5), decide_True.
  - by rewrite S5, S4.
Qed.

(** The state after a miss. *)
Definition missed (jb : switch_jb) : switch_jb := increment_seq (jb_miss (ticked jb)).

Lemma next_miss jb m :
  wf_nodes jb m -> type jb = SJB_AUDIO -> target_seq jb <> 0 -> m !! target_seq jb = None ->
  jb_next_packet (ticked jb) = Some (missed jb, None).
Proof.
  intros W A T N. unfold jb_next_packet, jb_next_packet_by_seq.
  change (samples_per_frame (ticked jb)) with (samples_per_frame jb).
  rewrite (proj2 (wn_mode _ _ W)). cbn [Z.eqb negb next_by_seq].
  assert (V : video (ticked jb) = false) by (unfold video; change (type (ticked jb)) with (type jb); by rewrite A).
  rewrite V. cbn [andb]. change (target_seq (ticked jb)) with (target_seq jb).
  destruct (Z.eqb_spec (target_seq jb) 0); [done|].
  change (node_hash (ticked jb)) with (node_hash jb). rewrite (ih_find_repr _ m), N by apply W.
  change (video (jb_miss (ticked jb))) with (video (ticked jb)). by rewrite V.
Qed.

Lemma read_miss jb m :
  wf_nodes jb m -> steady jb -> target_seq jb <> 0 -> m !! target_seq jb = None ->
  let restart := frame_len jb <? u32 (consec_miss_count jb + 1) in
  let jb' := if restart then jb_frame_inc (switch_jb_reset (missed jb)) 1 else missed jb in
  switch_jb_get_packet jb =
    Some (jb', if restart then SWITCH_STATUS_RESTART else SWITCH_STATUS_NOTFOUND,
          if restart then NoPacket else Plc (u16 (target_seq jb)) 0).
Proof.
  intros W St T N restart jb'. pose proof St as (A & (C & M) & Fl & F & (P1 & P2) & Ms).
  assert (W2 : wf_nodes (missed jb) m) by (by apply (wf_nodes_key jb)).
  destruct (reset_spec (missed jb) m W2) as (W3 & K3 & _ & C3).
  assert (X : read_packet jb = Some (jb', if restart then SWITCH_STATUS_RESTART else SWITCH_STATUS_NOTFOUND,
          if restart then NoPacket else Plc (u16 (target_seq jb)) 0)).
  { unfold read_packet. rewrite (period_steady jb St). cbv zeta.
    change (period_count (ticked jb)) with (period_count jb + 1).
    change (period_miss_count (ticked jb)) with (period_miss_count jb).
    destruct (Z.ltb_spec (60 * (period_count jb + 1)) (100 * period_miss_count jb)); [lia|].
    rewrite (next_miss jb m W A T N).
    assert (video (missed jb) = false) as -> by (unfold video; change (type (missed jb)) with (type jb); by rewrite A).
    change (frame_len (missed jb) <? consec_miss_count (missed jb)) with restart.
    change (samples_per_frame (missed jb)) with (samples_per_frame jb). rewrite (proj2 (wn_mode _ _ W)).
    subst jb'. by destruct restart. }
  destruct (frame_inc_counts (switch_jb_reset (missed jb)) 1) as [E1 E2].
  rewrite (C3 A) in E1. rewrite (proj1 (proj2 (kp_lens _ _ K3))) in E2.
  change (max_frame_len (missed jb)) with (max_frame_len jb) in E2.
  subst jb'. destruct restart; (apply get_steady; [done|exact X|..]).
  - rewrite E1, E2. lia.
  - done.
  - lia.
  - change (complete_frames (missed jb)) with (complete_frames jb). change (max_frame_len (missed jb)) with (max_frame_len jb). lia.
  - done.
  - change (complete_frames (missed jb)) with (complete_frames jb). lia.
Qed.

(** No target and no node: the read reports a missing packet. *)
Lemma read_none jb m :
  wf_nodes jb m -> steady jb -> target_seq jb = 0 -> next_of jb m = None ->
  switch_jb_get_packet jb =
    Some (jb_hit (ticked jb), SWITCH_STATUS_NOTFOUND, Plc (u16 (last_target_seq jb)) 0).
Proof.
  intros W St T N. pose proof St as (A & (C & M) & Fl & F & (P1 & P2) & Ms).
  assert (X : jb_next_packet (ticked jb) = Some (jb_hit (ticked jb), None)).
  { unfold jb_next_packet, jb_next_packet_by_seq. change (samples_per_frame (ticked jb)) with (samples_per_frame jb).
    rewrite (proj2 (wn_mode _ _ W)). cbn [Z.eqb negb next_by_seq].
    assert (video (ticked jb) = false) as -> by (unfold video; change (type (ticked jb)) with (type jb); by rewrite A).
    cbn [andb]. change (target_seq (ticked jb)) with (target_seq jb).
    change (node_hash (ticked jb)) with (node_hash jb). rewrite (ih_find_repr _ m) by apply W.
    change (jb_find_lowest_seq (ticked jb)) with (jb_find_lowest_seq jb).
    revert N. unfold next_of. rewrite T. cbn [Z.eqb]. destruct (m !! 0); [done|]. by intros ->. }
  set (jb1 := jb_hit (ticked jb)) in *. apply get_steady; [done| | |done|].
  - unfold read_packet. rewrite (period_steady jb St). cbv zeta.
    change (period_count (ticked jb)) with (period_count jb + 1).
    change (period_miss_count (ticked jb)) with (period_miss_count jb).
    destruct (Z.ltb_spec (60 * (period_count jb + 1)) (100 * period_miss_count jb)); [lia|]. rewrite X.
    assert (video jb1 = false) as -> by (unfold video; change (type jb1) with (type jb); by rewrite A).
    change (frame_len jb1 <? consec_miss_count jb1) with (frame_len jb <? 0).
    destruct (Z.ltb_spec (frame_len jb) 0); [lia|].
    change (samples_per_frame jb1) with (samples_per_frame jb). by rewrite (proj2 (wn_mode _ _ W)).
  - change (complete_frames jb1) with (complete_frames jb). change (max_frame_len jb1) with (max_frame_len jb). lia.
  - change (complete_frames jb1) with (complete_frames jb). lia.
Qed.

(** ** Reordering *)

Lemma swap16_swap16 x : 0 <= x < 65536 -> swap16 (swap16 x) = x.
Proof.
  intros B. pose proof (Z.div_mod x 256). pose proof (Z.mod_pos_bound x 256).
  assert (D : 0 <= x / 256 < 256) by (split; [apply Z.div_pos; lia|apply Z.div_lt_upper_bound; lia]).
  unfold swap16. rewrite (Z.mod_small (x / 256) 256) by done.
  replace ((x mod 256 * 256 + x / 256) mod 256) with (x / 256)
    by (rewrite Z.add_comm, Z.mod_add, Z.mod_small by lia; done).
  replace ((x mod 256 * 256 + x / 256) / 256) with (x mod 256)
    by (rewrite Z.add_comm, Z.div_add, (Z.div_small (x / 256)) by lia; lia).
  rewrite Z.mod_mod by lia. lia.
Qed.

Definition entry_of (p : rtp_packet * Z) : Z * (rtp_packet * Z) := (seq (fst p), p).
Definition held (q : list (rtp_packet * Z)) : gmap Z (rtp_packet * Z) := list_to_map (entry_of <$> q).
Definition fits (p : rtp_packet * Z) : Prop := 0 <= seq (fst p) < 65536 /\ snd p <= BODY_ROOM.

(** The buffer holds the packets [q], its target is [t] and [pc] reads were
    made in this period without a miss. *)
Record holding (jb : switch_jb) (q : list (rtp_packet * Z)) (t pc lo hi : Z) : Prop := mk_holding {
  ho_map : exists m, wf_nodes jb m /\ indexed jb m /\ contents jb m = held q;
  ho_status : status jb = (SJB_AUDIO, 0, zlen q, t, 0, false, (pc, 0, 0), (lo, hi, lo))
}.

Definition seqs (q : list (rtp_packet * Z)) : list Z := (fun p => seq (fst p)) <$> q.

Lemma entry_keys q : (entry_of <$> q).*1 = seqs q.
Proof. unfold seqs. rewrite <- list_fmap_compose. done. Qed.

Lemma held_lookup q k x : NoDup (seqs q) -> held q !! k = Some x <-> x ∈ q /\ seq (fst x) = k.
Proof.
  intros ND. unfold held. rewrite <- elem_of_list_to_map by (by rewrite entry_keys).
  rewrite list_elem_of_fmap. unfold entry_of. split.
  - intros (y & [= -> ->] & Hy). done.
  - intros [Hx <-]. by exists x.
Qed.

Lemma held_fresh q k : k ∉ seqs q -> held q !! k = None.
Proof. intros N. apply not_elem_of_list_to_map. by rewrite entry_keys. Qed.

(** A buffer that shows all its nodes has one for each packet. *)
Lemma shown_bound jb m q : wf_nodes jb m -> indexed jb m -> contents jb m = held q -> NoDup (seqs q) ->
  (forall i, i ∈ node_list jb -> nvisible jb i = true) -> zlen (node_list jb) <= zlen q.
Proof.
  intros W X C ND V. assert (S : size m = length q).
  { transitivity (size (held q)); [by rewrite <- C; unfold contents; rewrite map_size_fmap|].
    unfold held. rewrite map_size_list_to_map by (by rewrite entry_keys). by rewrite length_fmap. }
  rewrite <- S, <- (length_map_to_list m), <- (length_fmap snd).
  apply inj_le, submseteq_length, NoDup_submseteq; [apply (wn_nodup _ _ W)|]. intros i Hi.
  apply list_elem_of_fmap. exists (nseq jb i, i). split; [done|]. apply elem_of_map_to_list. apply X. split; [done|by apply V].
Qed.

Lemma put_holding jb q pk n t pc lo hi :
  holding jb q t pc lo hi -> fits (pk, n) -> NoDup (seqs q) -> seq pk ∉ seqs q ->
  zlen (node_list jb) <= hi -> 2 * hi <= UINT_MAX -> 0 <= zlen q < hi ->
  exists jb', switch_jb_put_packet jb pk n = Ok (jb', SWITCH_STATUS_SUCCESS) /\
    holding jb' ((pk, n) :: q) t pc lo hi /\ zlen (node_list jb') <= hi.
Proof.
  intros [(m & W & X & C) S] [Fs Fl] ND NI%held_fresh NL Hi Hq. unfold UINT_MAX in Hi. pose proof S as S'.
  unfold status in S'. injection S' as A Fg Cf Tg Hd Fu Pc Pm Cm Lo Mx Fr.
  destruct (put_audio jb m pk n W A) as (jb' & E & P); [unfold queue_only; by rewrite Fg|done|done|done|].
  exists jb'. split; [done|]. destruct P as [[L _]|(id & [])].
  { exfalso. revert L. rewrite (wn_alloc _ _ W). unfold node_limit, video. rewrite A, Mx. cbn [bool_decide decide].
    change (if bool_decide (SJB_AUDIO = SJB_VIDEO) then if 25 <? max_packet_len jb then max_packet_len jb else 25 else 2) with 2.
    rewrite !u32_small by lia. lia. }
  split; [|destruct pi_grow0 as [?|[? V]]; [lia|pose proof (shown_bound jb m q W X C ND V); lia]].
  destruct pi_node0 as [Np Nl]. constructor.
  - exists (<[seq pk := id]> m). split; [done|]. split.
    + intros i [Hin V]. destruct (decide (i = id)) as [->|Ni].
      * unfold nseq. rewrite Np. apply lookup_insert_eq.
      * unfold nvisible, nseq in *. rewrite pi_other0 in * by done.
        destruct (pi_list0 i Hin) as [?|Hin']; [done|]. specialize (X i (conj Hin' V)).
        rewrite lookup_insert_ne; [done|]. intros Es.
        assert (contents jb m !! seq pk <> None) as K; [|by rewrite C in K].
        unfold contents. rewrite lookup_fmap, Es. unfold nseq in X. by rewrite X.
    + unfold held. cbn [fmap list_fmap list_to_map entry_of fst snd foldr uncurry]. fold (held q).
      change (list_to_map (entry_of <$> q)) with (held q). rewrite <- C.
      unfold contents. rewrite fmap_insert, Np, Nl. f_equal.
      apply map_fmap_ext. intros k i Hk. rewrite pi_other0; [done|]. intros ->. by destruct (pi_fresh0 k).
  - rewrite pi_status0. unfold counted, status. rupd. rewrite A, Fg, Cf, Tg, Hd, Fu, Pc, Pm, Cm, Lo, Mx, Fr.
    rewrite u32_small by lia. do 6 f_equal. simpl. lia.
Qed.

Lemma holding_perm jb q q' t pc lo hi :
  q ≡ₚ q' -> NoDup (seqs q) -> holding jb q t pc lo hi -> holding jb q' t pc lo hi.
Proof.
  intros P ND [(m & W & X & C) S]. constructor.
  - exists m. split_and!; [done|done|]. rewrite C. unfold held. apply list_to_map_proper; [by rewrite entry_keys|].
    by apply fmap_Permutation.
  - rewrite S. by replace (zlen q') with (zlen q) by (by rewrite P).
Qed.

Definition deliver (p : rtp_packet * Z) : jb_out := Packet (fst p <| version := 2 |>) (snd p).

Lemma contents_lookup jb m k x : contents jb m !! k = Some x ->
  exists id, m !! k = Some id /\ packet (node jb id) = fst x /\ len (node jb id) = snd x.
Proof.
  unfold contents. rewrite lookup_fmap. intros (id & E & ->)%fmap_Some. by exists id.
Qed.

(** With a target, or with none and the lowest packet, the read finds it. *)
Lemma next_held jb m q p t :
  wf_nodes jb m -> indexed jb m -> contents jb m = held q -> NoDup (seqs q) -> Forall fits q ->
  p ∈ q -> target_seq jb = t ->
  (t = 0 /\ forall x, x ∈ q -> ntohs (seq (fst p)) <= ntohs (seq (fst x))) \/ t = seq (fst p) ->
  exists id, next_of jb m = Some id /\ m !! seq (fst p) = Some id /\
    packet (node jb id) = fst p /\ len (node jb id) = snd p.
Proof.
  intros W X C ND Ft Hp Et T. destruct (contents_lookup jb m (seq (fst p)) p) as (id & Hm & Np & Nl).
  { rewrite C. by apply held_lookup. }
  exists id. split_and!; try done. unfold next_of. rewrite Et. destruct T as [[-> Lo]| ->]; cbn [Z.eqb].
  - destruct (decide (seq (fst p) = 0)) as [Z0|Z0]; [by rewrite Z0 in Hm; rewrite Hm|].
    assert (P0 : 0 < ntohs (seq (fst p))).
    { rewrite Forall_forall in Ft. destruct (Ft _ Hp) as [R1 _]. pose proof (swap16_range (seq (fst p))). pose proof (swap16_swap16 _ R1) as E.
      destruct (decide (swap16 (seq (fst p)) = 0)) as [E0|]; [|lia]. rewrite E0 in E. change (swap16 0) with 0 in E. lia. }
    assert (m !! 0 = None) as ->.
    { destruct (m !! 0) as [j|] eqn:E; [|done]. exfalso.
      assert (contents jb m !! 0 = Some (packet (node jb j), len (node jb j))) as K
        by (unfold contents; by rewrite lookup_fmap, E).
      rewrite C, held_lookup in K by done. destruct K as [K1 K2]. pose proof (Lo _ K1) as L. rewrite K2 in L.
      change (swap16 0) with 0 in L. lia. }
    destruct (wn_hash _ _ W _ _ Hm) as (Hin & V & Hs).
    pose proof (find_lowest_spec jb) as L. destruct (jb_find_lowest_seq jb 0) as [j|]; cbn in L.
    2:{ by rewrite (L id Hin) in V. }
    destruct L as (Jin & Jv & Jl). pose proof (X j (conj Jin Jv)) as Jm.
    assert (contents jb m !! nseq jb j = Some (packet (node jb j), len (node jb j))) as K
      by (unfold contents; by rewrite lookup_fmap, Jm).
    rewrite C, held_lookup in K by done. destruct K as [K1 _].
    pose proof (Lo _ K1) as L1. pose proof (Jl id Hin V) as L2. rewrite Hs in L2. cbn [fst] in L1.
    assert (nseq jb j = seq (fst p)) as Ej; [|congruence].
    rewrite Forall_forall in Ft. destruct (Ft _ Hp) as [R1 _].
    rewrite <- (swap16_swap16 (nseq jb j)), <- (swap16_swap16 (seq (fst p))) by (done || apply (wn_seq _ _ W)).
    f_equal. unfold nseq in *. lia.
  - rewrite Hm. destruct (Z.eqb_spec (seq (fst p)) 0) as [Z0|]; [|done]. rewrite Z0 in Hm. by rewrite Hm.
Qed.

Lemma read_status jb x :
  status (set_read_seq (jb_hit (counted (ticked jb) (-1))) x) =
  (type jb, flags jb, u32 (complete_frames jb - 1), htons (u16 (ntohs x + 1)), highest_dropped_ts jb, flush jb,
   (period_count jb + 1, period_miss_count jb, 0), (min_frame_len jb, max_frame_len jb, frame_len jb)).
Proof. reflexivity. Qed.

Lemma get_one jb q p t pc lo hi :
  holding jb (p :: q) t pc lo hi -> NoDup (seqs (p :: q)) -> Forall fits (p :: q) ->
  (t = 0 /\ forall x, x ∈ p :: q -> ntohs (seq (fst p)) <= ntohs (seq (fst x))) \/ t = seq (fst p) ->
  0 < lo <= zlen (p :: q) -> zlen (p :: q) <= hi -> 2 * hi <= UINT_MAX -> 0 <= pc < PERIOD_LEN - 1 ->
  exists jb', switch_jb_get_packet jb = Some (jb', SWITCH_STATUS_SUCCESS, deliver p) /\
    holding jb' q (htons (u16 (ntohs (seq (fst p)) + 1))) (pc + 1) lo hi /\ zlen (node_list jb') = zlen (node_list jb).
Proof.
  intros [(m & W & X & C) S] ND Ft T Ln Ln2 Hi Hpc. unfold status in S.
  injection S as A Fg Cf Tg Hd Fu Pc Pm Cm Lm Mx Fr. assert (0 <= zlen q) by lia.
  assert (Hl : zlen (p :: q) = zlen q + 1) by (simpl; lia).
  destruct (next_held jb m (p :: q) p t W X C ND Ft) as (id & En & Hm & Np & Nl); try done; [set_solver|].
  destruct (wn_hash _ _ W _ _ Hm) as (_ & _ & Es).
  destruct (read_hit jb m id W) as (jb' & G & W' & PL & Oth & V & S'); [|done|].
  { unfold steady. rewrite A, Cf, Mx, Fr, Pc, Pm. unfold PERIOD_LEN in *. split_and!; try done; try lia. }
  rewrite Es in *. exists jb'. split; [rewrite G; unfold deliver; by rewrite Np, Nl|]. split; [|by rewrite PL]. constructor.
  - exists (delete (seq (fst p)) m). split; [done|]. split.
    + intros i [Hin Vi]. destruct (decide (i = id)) as [->|Ni]; [congruence|].
      unfold nvisible, nseq in *. rewrite Oth in * by done. rewrite PL in Hin.
      specialize (X i (conj Hin Vi)). unfold nseq in X. rewrite lookup_delete_ne; [done|]. intros E. congruence.
    + assert (contents jb' (delete (seq (fst p)) m) = delete (seq (fst p)) (contents jb m)) as ->.
      { unfold contents. rewrite <- fmap_delete. apply map_fmap_ext. intros k i [Nk Hk]%lookup_delete_Some.
        rewrite Oth; [done|]. intros ->. destruct (wn_hash _ _ W _ _ Hk) as (_ & _ & Ek). congruence. }
      rewrite C. unfold held. cbn [fmap list_fmap]. unfold entry_of at 1. cbn [list_to_map foldr uncurry].
      apply delete_insert_id. apply held_fresh. by apply NoDup_cons in ND as [? _].
  - rewrite S', read_status, A, Fg, Cf, Hd, Fu, Pc, Pm, Lm, Mx, Fr, u32_small by (unfold UINT_MAX in *; lia).
    do 6 f_equal. lia.
Qed.

(** The start of a new period, with the shortest frames. *)
Definition zeroed (jb : switch_jb) : switch_jb :=
  jb <| period_count := 0 |> <| period_miss_inc := 0 |> <| period_miss_count := 0 |>
     <| period_good_count := 0 |> <| consec_miss_count := 0 |> <| consec_good_count := 0 |>.
Definition renewed (jb : switch_jb) : switch_jb :=
  zeroed (if PERIOD_LEN - 5 <=? consec_good_count jb then jb_frame_inc jb (-1) else jb).

Lemma zeroed_rest jb : key (zeroed jb) = key jb /\
  status (zeroed jb) = (type jb, flags jb, complete_frames jb, target_seq jb, highest_dropped_ts jb, flush jb,
    (0, 0, 0), (min_frame_len jb, max_frame_len jb, frame_len jb)).
Proof. done. Qed.

Lemma shrunk jb : 0 < min_frame_len jb -> frame_len jb = min_frame_len jb -> min_frame_len jb <= UINT_MAX ->
  key (jb_frame_inc jb (-1)) = key jb /\ status (jb_frame_inc jb (-1)) = status jb /\ channel (jb_frame_inc jb (-1)) = channel jb.
Proof.
  intros P E B. unfold jb_frame_inc. cbn [Z.eqb Z.ltb Z.compare]. rewrite E. unfold UINT_MAX in B. rewrite u32_small by lia.
  destruct (Z.ltb_spec (min_frame_len jb) (min_frame_len jb + -1)); [lia|]. cbv zeta.
  unfold status. destruct (_ <? _); rupd; rewrite E; done.
Qed.

Lemma renewed_rest jb : 0 < min_frame_len jb -> frame_len jb = min_frame_len jb -> min_frame_len jb <= UINT_MAX ->
  key (renewed jb) = key jb /\
  status (renewed jb) = (type jb, flags jb, complete_frames jb, target_seq jb, highest_dropped_ts jb, flush jb,
    (0, 0, 0), (min_frame_len jb, max_frame_len jb, frame_len jb)).
Proof.
  intros P E B. destruct (shrunk jb P E B) as (K & S & _). unfold renewed. destruct (_ <=? _); [|apply zeroed_rest].
  destruct (zeroed_rest (jb_frame_inc jb (-1))) as [-> ->]. split; [exact K|].
  destruct (status_inv _ _ S) as ((-> & -> & -> & -> & -> & ->) & _ & -> & -> & ->). done.
Qed.

Lemma frame_inc_count jb x : jb_frame_inc (jb <| period_count := x |>) (-1) = (jb_frame_inc jb (-1)) <| period_count := x |>.
Proof.
  unfold jb_frame_inc. cbn [Z.eqb]. change (0 <? -1) with false. cbv iota. destruct jb. cbv -[u32 Z.add Z.ltb].
  repeat match goal with |- context [?a <? ?b] => is_var a; destruct (a <? b); cbv -[u32 Z.add Z.ltb] end; reflexivity.
Qed.

Lemma bitrate_audio jb : type jb = SJB_AUDIO -> bitrate_check jb = jb.
Proof. intros A. unfold bitrate_check, video. rewrite A. by destruct (channel jb). Qed.

Lemma period_first jb : period_count jb = 0 -> period_check jb = ticked jb.
Proof.
  intros P. unfold period_check, ticked. cbv zeta.
  change (period_count (jb <| period_count := u32 (period_count jb + 1) |>)) with (u32 (period_count jb + 1)). by rewrite P.
Qed.

Lemma period_turn jb : type jb = SJB_AUDIO -> period_count jb + 1 = PERIOD_LEN -> period_check jb = ticked (renewed jb).
Proof.
  intros A P. unfold period_check. cbv zeta.
  change (period_count (jb <| period_count := u32 (period_count jb + 1) |>)) with (u32 (period_count jb + 1)).
  change (consec_good_count (jb <| period_count := u32 (period_count jb + 1) |>)) with (consec_good_count jb).
  rewrite P, frame_inc_count. change (PERIOD_LEN <=? u32 PERIOD_LEN) with true. cbv iota. unfold renewed.
  destruct (_ <=? _).
  - rewrite bitrate_audio; [done|]. transitivity (type (jb_frame_inc jb (-1))); [done|].
    by rewrite (proj1 (proj2 (proj2 (frame_inc_rest jb (-1))))).
  - by rewrite bitrate_audio.
Qed.

Lemma get_renewed jb : type jb = SJB_AUDIO -> period_count jb + 1 = PERIOD_LEN ->
  0 < min_frame_len jb -> frame_len jb = min_frame_len jb -> min_frame_len jb <= UINT_MAX ->
  0 < frame_len jb <= complete_frames jb ->
  switch_jb_get_packet jb = switch_jb_get_packet (renewed jb).
Proof.
  intros A Pc P E B C. destruct (renewed_rest jb P E B) as [_ S].
  assert (complete_frames (renewed jb) = complete_frames jb /\ frame_len (renewed jb) = frame_len jb) as [Cf Fr]
    by (revert S; generalize (renewed jb); unfold status; intros r [=]; done).
  assert (P0 : period_count (renewed jb) = 0) by done. unfold switch_jb_get_packet. rewrite Cf, Fr. destruct (Z.eqb_spec (complete_frames jb) 0); [lia|].
  destruct (Z.ltb_spec (complete_frames jb) (frame_len jb)); [lia|]. cbn [andb].
  unfold read_packet. by rewrite (period_turn jb A Pc), (period_first (renewed jb)).
Qed.

Lemma get_holding jb q p t pc lo hi :
  holding jb (p :: q) t pc lo hi -> NoDup (seqs (p :: q)) -> Forall fits (p :: q) ->
  (t = 0 /\ forall x, x ∈ p :: q -> ntohs (seq (fst p)) <= ntohs (seq (fst x))) \/ t = seq (fst p) ->
  0 < lo <= zlen (p :: q) -> zlen (p :: q) <= hi -> 2 * hi <= UINT_MAX -> 0 <= pc < PERIOD_LEN ->
  exists jb' pc', switch_jb_get_packet jb = Some (jb', SWITCH_STATUS_SUCCESS, deliver p) /\
    holding jb' q (htons (u16 (ntohs (seq (fst p)) + 1))) pc' lo hi /\ 0 <= pc' < PERIOD_LEN /\
    zlen (node_list jb') = zlen (node_list jb).
Proof.
  intros Ho ND Ft T Ln Ln2 Hi Hpc. destruct (decide (pc + 1 = PERIOD_LEN)) as [E|N].
  - destruct Ho as [M S]. pose proof S as S'. unfold status in S'. injection S' as A Fg Cf Tg Hd Fu Pc Pm Cm Lm Mx Fr.
    assert (Cl : 0 < frame_len jb <= complete_frames jb) by (rewrite Cf, Fr; exact Ln).
    assert (B : min_frame_len jb <= UINT_MAX) by lia. assert (P : 0 < min_frame_len jb) by lia.
    assert (Fe : frame_len jb = min_frame_len jb) by lia.
    destruct (renewed_rest jb P Fe B) as [K Sr]. destruct (key_inv _ _ K) as (Kl & _ & Kn).
    assert (Ho' : holding (renewed jb) (p :: q) t 0 lo hi).
    { constructor; [|by rewrite Sr, A, Fg, Cf, Tg, Hd, Fu, Lm, Mx, Fr]. destruct M as (m & W & X & C). exists m. split; [by apply (wf_nodes_key jb)|].
      split; [|rewrite <- C; unfold contents; apply map_fmap_ext; intros k i _; by rewrite Kn].
      intros i [Hi1 Hv]. unfold nvisible, nseq in *. rewrite Kn in *. apply (X i). split; [by rewrite <- Kl|done]. }
    destruct (get_one _ q p t 0 lo hi Ho' ND Ft T Ln Ln2 Hi) as (jb' & G & H2 & L); [unfold PERIOD_LEN; lia|].
    exists jb', 1. rewrite get_renewed by (done || by rewrite Pc). rewrite <- Kl. split_and!; try done; unfold PERIOD_LEN; lia.
  - destruct (get_one _ q p t pc lo hi Ho ND Ft T Ln Ln2 Hi) as (jb' & G & H2 & L); [lia|].
    exists jb', (pc + 1). split_and!; try done; lia.
Qed.

(** ** Negative acknowledgements *)

Lemma walk_stop jb now c least l s :
  snd (nack_walk jb now c least l) = Some s -> exists k v, (k, v) ∈ l /\ s = ntohs (k mod 65536) /\ expired jb s = true.
Proof.
  revert c least. induction l as [|[k v] l IH]; intros c least; [done|]. cbn [nack_walk]. cbv zeta.
  destruct (_ && _); [|destruct (expired jb (swap16 (k mod 65536))) eqn:E].
  - intros (k' & v' & ? & ? & ?)%IH. exists k', v'. split_and!; [set_solver|done|done].
  - intros [= <-]. exists k, v. split_and!; [set_solver|done|done].
  - intros (k' & v' & ? & ? & ?)%IH. exists k', v'. split_and!; [set_solver|done|done].
Qed.

(** The walks end: each but the last one deletes a missing number. *)
Lemma nack_loop_total fuel jb now c least mm :
  good jb -> ih_repr (missing_seq_hash jb) mm -> (forall k v, mm !! k = Some v -> 0 <= k < 65536) ->
  (size mm < fuel)%nat ->
  exists jb' c' least', nack_loop fuel jb now c least = Some (jb', c', least') /\ good jb'.
Proof.
  revert jb c least mm. induction fuel as [|fuel IH]; intros jb c least mm G R B Sz; [lia|].
  cbn [nack_loop]. destruct (nack_walk jb now c least _) as [[c' least'] [s|]] eqn:E.
  - pose proof (walk_stop jb now c least (ih_list (missing_seq_hash jb)) s) as S. rewrite E in S.
    destruct (S eq_refl) as (k & v & Hin & -> & _).
    rewrite (ih_list_repr _ _ R), elem_of_map_to_list in Hin. pose proof (B _ _ Hin) as Bk.
    rewrite Z.mod_small, swap16_swap16 by done.
    apply (IH _ c' least' (delete k mm)); [by apply good_unmiss|by apply ih_delete_repr| |].
    + intros k' v' [_ H']%lookup_delete_Some. by eapply B.
    + rewrite map_size_delete, Hin. simpl. assert (size mm <> 0%nat); [|lia].
      intros Z0. apply map_size_empty_inv in Z0 as ->. by rewrite lookup_empty in Hin.
  - by eexists _, _, _.
Qed.

(** Tables that hold 16-bit keys. *)
Definition keys16 (h : H) (mm : gmap Z Z) : Prop :=
  ih_repr h mm /\ forall k v, mm !! k = Some v -> 0 <= k < 65536.

Lemma keys16_insert h mm k v : keys16 h mm -> 0 <= k < 65536 -> keys16 (ih_insert h k v) (<[k := v]> mm).
Proof.
  intros [R B] K. split.
  - apply ih_insert_repr; [done|]. pose proof (small_map mm B). unfold UINT_MAX. lia.
  - intros k' v' [[<- _]|[_ Hk]]%lookup_insert_Some; [done|by eapply B].
Qed.

Lemma keys16_delete h mm k : keys16 h mm -> keys16 (ih_delete h k) (delete k mm).
Proof.
  intros [R B]. split; [by apply ih_delete_repr|]. intros k' v' [_ Hk]%lookup_delete_Some. by eapply B.
Qed.

Lemma nack_more_keys now least ks h c blp mm : keys16 h mm ->
  exists mm', keys16 (fst (fst (foldl (nack_more now least) (h, c, blp) ks))) mm'.
Proof.
  revert h c blp mm. induction ks as [|i ks IH]; intros h c blp mm K; [by exists mm|]. cbn [foldl].
  unfold nack_more at 2. cbv zeta. pose proof (keys16_delete h mm (htons (u16 (least + Z.of_nat i + 1))) K) as K1.
  destruct (found _); [|by eapply IH]. eapply IH. apply keys16_insert; [done|apply swap16_range].
Qed.

Lemma good_pop jb now : good jb -> exists jb' nack, switch_jb_pop_nack jb now = Some (jb', nack) /\ good jb'.
Proof.
  intros G. unfold switch_jb_pop_nack. destruct (negb (video jb)); [by eauto|].
  pose proof G as (_ & _ & (mm & R & B)).
  destruct (nack_loop_total (S (length (ih_list (missing_seq_hash jb)))) jb now 0 0 mm G R B)
    as (jb1 & c & least & -> & G1).
  { rewrite (ih_list_repr _ _ R), length_map_to_list. lia. }
  cbv zeta. destruct (_ && _).
  - pose proof G1 as (_ & _ & (m1 & R1 & B1)).
    set (h := ih_insert _ _ _). assert (K : keys16 h (<[htons least := stamp (now c)]> (delete (htons least) m1))).
    { apply keys16_insert; [by apply keys16_delete|apply swap16_range]. }
    destruct (nack_more_keys now least (List.seq 0 16) h (S c) 0 _ K) as (m2 & R2 & B2).
    destruct (foldl _ _ _) as [[h2 c2] blp]. eexists _, _. split; [done|]. by eapply good_missing.
  - eexists _, _. split; [done|]. destruct (negb _); [by apply good_unmiss|done].
Qed.

(** What a retransmission is asked for: no number 0, values that are the mark 1
    or a 32-bit time, and a clock past those. *)
Definition marks (mm : gmap Z Z) : Prop :=
  forall k v, mm !! k = Some v -> 0 < k < 65536 /\ v <> 0 /\ v < 2 ^ 31.
Definition clock_ok (now : nat -> Z) : Prop := forall n, 2 ^ 31 + RENACK_TIME <= now n /\ stamp (now n) <> 0.
Definition live (jb : switch_jb) (mm : gmap Z Z) : gmap Z Z :=
  filter (fun kv => expired jb (ntohs (fst kv)) = false) mm.

Lemma swap16_pos k : 0 < k < 65536 -> swap16 k <> 0.
Proof. intros B E. pose proof (swap16_swap16 k) as S. rewrite E in S. change (swap16 0) with 0 in S. lia. Qed.

Definition from (jb : switch_jb) (l : list (Z * Z)) (s : Z) : Prop :=
  exists k v, (k, v) ∈ l /\ expired jb (ntohs k) = false /\ s = ntohs k.

Lemma from_cons jb x l s : from jb l s -> from jb (x :: l) s.
Proof. intros (k & v & ? & ? & ?). exists k, v. split_and!; [set_solver|done|done]. Qed.

Lemma walk_live jb now c least l :
  clock_ok now -> (forall k v, (k, v) ∈ l -> 0 < k < 65536 /\ v < 2 ^ 31) ->
  match nack_walk jb now c least l with
  | (_, r, Some _) => r = least \/ from jb l r
  | (_, r, None) => (r = least \/ from jb l r) /\ (least <> 0 -> r <= least) /\ (l <> [] -> r <> 0) /\
      (forall k v, (k, v) ∈ l -> expired jb (ntohs k) = false /\ r <= ntohs k)
  end.
Proof.
  intros Ck. revert c least. induction l as [|[k v] l IH]; intros c least B.
  - cbn. split_and!; [by left|lia|done|set_solver].
  - destruct (B k v) as [Bk Bv]; [set_solver|]. cbn [nack_walk]. cbv zeta. rewrite (Z.mod_small k) by lia.
    assert (negb (v =? 1) && (now c - v <? RENACK_TIME) = false) as ->.
    { destruct (Ck c) as [Cc _]. destruct (Z.ltb_spec (now c - v) RENACK_TIME); [lia|by rewrite andb_false_r]. }
    destruct (expired jb (swap16 k)) eqn:E; [by left|].
    set (least' := if _ || _ then _ else _).
    assert (L : (least' = least \/ least' = swap16 k) /\ (least <> 0 -> least' <= least) /\
                least' <> 0 /\ least' <= swap16 k).
    { subst least'. pose proof (swap16_pos k Bk). destruct (Z.eqb_spec least 0), (Z.ltb_spec (swap16 k) least); cbn [orb]; lia. }
    clearbody least'. assert (B' : forall k v, (k, v) ∈ l -> 0 < k < 65536 /\ v < 2 ^ 31) by (intros; apply (B _ v0); set_solver).
    specialize (IH (if v =? 1 then c else S c) least' B').
    assert (F : forall r, r = least' \/ from jb l r -> r = least \/ from jb ((k, v) :: l) r).
    { intros r [->|F]; [|right; by apply from_cons]. destruct L as [[->| ->] _]; [by left|right].
      exists k, v. split_and!; [set_solver|done|done]. }
    destruct (nack_walk _ _ _ _ _) as [[c' r] [s|]]; [by apply F|].
    destruct IH as (I1 & I2 & I3 & I4). split_and!; [by apply F|lia| |].
    + intros _. destruct l as [|x l]; [|by apply I3]. destruct I1 as [->|(? & ? & Hin & _)]; [tauto|set_solver].
    + intros k' v' [[= -> ->]|Hin]%elem_of_cons; [split; [done|lia]|by apply I4 in Hin].
Qed.

(** [r] is the lowest of the live numbers, 0 where there is none. *)
Definition lowest_live (l : gmap Z Z) (r : Z) : Prop :=
  (l = ∅ /\ r = 0) \/
  (exists k, is_Some (l !! k) /\ r = ntohs k /\ forall k', is_Some (l !! k') -> r <= ntohs k').

Lemma live_lookup jb mm k : is_Some (live jb mm !! k) <-> is_Some (mm !! k) /\ expired jb (ntohs k) = false.
Proof.
  unfold live. split.
  - intros (v & [H1 H2]%map_lookup_filter_Some). cbn in H2. by eauto.
  - intros [[v Hv] E]. exists v. by apply map_lookup_filter_Some.
Qed.

Lemma live_all jb mm : (forall k v, mm !! k = Some v -> expired jb (ntohs k) = false) -> live jb mm = mm.
Proof. intros A. apply map_filter_id. intros k v Hk. by eapply A. Qed.

Lemma live_delete jb mm k : expired jb (ntohs k) = true -> live jb (delete k mm) = live jb mm.
Proof.
  intros E. unfold live. rewrite map_filter_delete. apply delete_id. apply map_lookup_filter_None.
  right. intros v _. cbn. congruence.
Qed.

Lemma nack_loop_exact fuel jb now c least mm jb' c' r :
  clock_ok now -> ih_repr (missing_seq_hash jb) mm -> marks mm ->
  (least = 0 \/ exists k, is_Some (live jb mm !! k) /\ least = ntohs k) ->
  nack_loop fuel jb now c least = Some (jb', c', r) ->
  (exists h, jb' = jb <| missing_seq_hash := h |> /\ ih_repr h (live jb mm)) /\ lowest_live (live jb mm) r.
Proof.
  intros Ck. revert jb c least mm. induction fuel as [|fuel IH]; intros jb c least mm R M L; [done|].
  cbn [nack_loop]. pose proof (walk_live jb now c least (ih_list (missing_seq_hash jb)) Ck) as Wl.
  assert (Bl : forall k v, (k, v) ∈ ih_list (missing_seq_hash jb) -> 0 < k < 65536 /\ v < 2 ^ 31).
  { intros k v. rewrite (ih_list_repr _ _ R), elem_of_map_to_list. intros Hk. destruct (M _ _ Hk). tauto. }
  specialize (Wl Bl).
  destruct (nack_walk jb now c least _) as [[c1 r1] [s|]] eqn:E.
  - destruct (walk_stop jb now c least (ih_list (missing_seq_hash jb)) s) as (k & v & Hin & Es & Ex); [by rewrite E|].
    rewrite (ih_list_repr _ _ R), elem_of_map_to_list in Hin. destruct (M _ _ Hin) as (Bk & _).
    rewrite Z.mod_small in Es by lia. subst s. rewrite swap16_swap16 by lia.
    set (j := jb <| missing_seq_hash := _ |>). intros K.
    assert (Lv : live j (delete k mm) = live jb mm) by exact (live_delete jb mm k Ex).
    destruct (IH j c1 r1 (delete k mm)) as ((h & -> & Rh) & Lo); try done.
    + by apply ih_delete_repr.
    + intros k' v' [_ H']%lookup_delete_Some. by eapply M.
    + rewrite Lv. destruct Wl as [->|(k' & v' & H1 & H2 & ->)]; [done|].
      right. exists k'. split; [|done]. apply live_lookup. split; [|done].
      rewrite (ih_list_repr _ _ R), elem_of_map_to_list in H1. by eauto.
    + rewrite Lv in *. split; [by exists h|done].
  - intros [= <- <- <-]. destruct Wl as (W1 & _ & W3 & W4).
    assert (Lv : live jb mm = mm).
    { apply live_all. intros k v Hk. apply (W4 k v). by rewrite (ih_list_repr _ _ R), elem_of_map_to_list. }
    rewrite Lv in *. split; [exists (missing_seq_hash jb); split; [by destruct jb|done]|].
    assert (W5 : forall k', is_Some (mm !! k') -> r1 <= swap16 k').
    { intros k' [v' Hk]. apply (W4 k' v'). by rewrite (ih_list_repr _ _ R), elem_of_map_to_list. }
    destruct (decide (mm = ∅)) as [->|Ne].
    + left. split; [done|]. pose proof (ih_list_repr _ _ R) as P. rewrite map_to_list_empty in P.
      apply Permutation_nil_r in P. destruct W1 as [->|(k & v & Hin & _)]; [|rewrite P in Hin; set_solver].
      destruct L as [?|(k & [? Hk] & _)]; [done|]. by rewrite lookup_empty in Hk.
    + right. destruct W1 as [->|(k & v & Hin & _ & ->)].
      * destruct L as [->|(k & Hk & ->)]; [|by exists k]. exfalso. apply W3; [|done]. intros P.
        pose proof (ih_list_repr _ _ R) as Q. rewrite P in Q. symmetry in Q. apply Permutation_nil_r in Q.
        apply Ne. by apply map_to_list_empty_iff.
      * exists k. split_and!; [|done|done]. rewrite (ih_list_repr _ _ R), elem_of_map_to_list in Hin. by eauto.
Qed.

Lemma nack_more_bits now least ks h c blp mm :
  clock_ok now -> keys16 h mm -> (forall k v, mm !! k = Some v -> v <> 0) -> 0 <= blp ->
  let '(h', _, blp') := foldl (nack_more now least) (h, c, blp) ks in
  (exists mm', keys16 h' mm' /\ forall k, is_Some (mm' !! k) <-> is_Some (mm !! k)) /\ 0 <= blp' /\
  forall i, Z.testbit blp' (Z.of_nat i) =
    Z.testbit blp (Z.of_nat i) ||
    bool_decide (i ∈ ks /\ is_Some (mm !! htons (u16 (least + Z.of_nat i + 1)))).
Proof.
  intros Ck. revert h c blp mm. induction ks as [|i ks IH]; intros h c blp mm K V Pb.
  - cbn. split_and!; [by exists mm|done|]. intros i. rewrite bool_decide_false, orb_false_r; [done|].
    intros [Hi _]. by apply elem_of_nil in Hi.
  - cbn [foldl]. unfold nack_more at 2. cbv zeta. set (k := htons _).
    assert (F : found (ih_find h k) = bool_decide (is_Some (mm !! k))).
    { rewrite (ih_find_repr _ mm) by apply K. destruct (mm !! k) as [v|] eqn:E; [|done].
      cbn [found]. specialize (V _ _ E). rewrite bool_decide_true by eauto. lia. }
    rewrite F. pose proof (keys16_delete h mm k K) as K1. case_bool_decide as P.
    + pose proof (keys16_insert _ _ k (stamp (now c)) K1 (swap16_range _)) as K2. rewrite insert_delete_eq in K2.
      specialize (IH _ (S c) (Z.lor blp (Z.shiftl 1 (Z.of_nat i))) _ K2).
      destruct (foldl _ _ ks) as [[h' c'] blp']. destruct IH as ((mm' & K' & D') & Pb' & T).
      * intros k' v' [[<- <-]|[_ H']]%lookup_insert_Some; [apply Ck|by eapply V].
      * apply Z.lor_nonneg. split; [done|]. by apply Z.shiftl_nonneg.
      * assert (D : forall k', is_Some (<[k := stamp (now c)]> mm !! k') <-> is_Some (mm !! k'))
          by (intros k'; rewrite lookup_insert_is_Some'; naive_solver).
        split_and!; [exists mm'; split; [done|]; intros k'; by rewrite D', D|done|].
        intros j. rewrite T, Z.lor_spec, Z.shiftl_1_l, Z.pow2_bits_eqb by lia.
        rewrite (bool_decide_ext _ _ (and_iff_compat_l _ (D _))), <- orb_assoc. f_equal.
        destruct (Z.eqb_spec (Z.of_nat i) (Z.of_nat j)) as [Eij|Nij]; cbn [orb].
        -- assert (i = j) as <- by lia. symmetry. apply bool_decide_true. split; [set_solver|done].
        -- apply bool_decide_ext. rewrite elem_of_cons. split; [tauto|]. intros [[->|?] ?]; [lia|done].
    + assert (Dm : delete k mm = mm) by (apply delete_id, eq_None_not_Some, P). rewrite Dm in K1.
      specialize (IH _ c blp _ K1 V Pb). destruct (foldl _ _ ks) as [[h' c'] blp'].
      destruct IH as (D' & Pb' & T). split_and!; [done|done|]. intros j. rewrite T. f_equal.
      apply bool_decide_ext. rewrite elem_of_cons. split; [tauto|]. intros [[->|?] ?]; [done|done].
Qed.

(** The two halves of the request. *)
Lemma nack_halves x y : 0 <= x < 65536 -> 0 <= y ->
  Z.land (Z.lor x (Z.shiftl y 16)) 65535 = x /\ Z.shiftr (Z.lor x (Z.shiftl y 16)) 16 = y.
Proof.
  intros Hx Hy. assert (Hs : Z.shiftr x 16 = 0) by (rewrite Z.shiftr_div_pow2 by lia; by apply Z.div_small).
  assert (Hb : forall i, 16 <= i -> Z.testbit x i = false).
  { intros i Hi. replace i with ((i - 16) + 16) by lia. rewrite <- Z.shiftr_spec, Hs by lia. apply Z.bits_0. }
  split; apply Z.bits_inj'; intros i Hi.
  - change 65535 with (Z.ones 16). rewrite Z.land_spec, Z.lor_spec, Z.shiftl_spec by lia.
    destruct (Z.ltb_spec i 16).
    + rewrite Z.ones_spec_low, (Z.testbit_neg_r y) by lia. by rewrite orb_false_r, andb_true_r.
    + rewrite Z.ones_spec_high, andb_false_r, Hb by lia. done.
  - rewrite Z.shiftr_spec, Z.lor_spec, Z.shiftl_spec, (Hb (i + 16)) by lia. cbn [orb]. f_equal. lia.
Qed.

(** With a clock past the marks, a request for retransmission first
    forgets the missing numbers that are too old, then asks for the lowest
    missing number and has a bit for each of the sixteen after it, set where
    that one is missing too; the numbers asked for stay among the missing.
    With nothing left to ask for the result is 0. *)
Theorem pop_nack_exact jb now mm :
  good jb -> type jb = SJB_VIDEO -> ih_repr (missing_seq_hash jb) mm -> marks mm -> clock_ok now ->
  exists jb' nack mm', switch_jb_pop_nack jb now = Some (jb', nack) /\ good jb' /\
    ih_repr (missing_seq_hash jb') mm' /\ (forall k, is_Some (mm' !! k) <-> is_Some (live jb mm !! k)) /\
    ((live jb mm = ∅ /\ nack = 0) \/
     exists k, is_Some (live jb mm !! k) /\ (forall k', is_Some (live jb mm !! k') -> ntohs k <= ntohs k') /\
       Z.land nack 65535 = k /\
       forall i, (i < 16)%nat -> Z.testbit (ntohs (Z.shiftr nack 16)) (Z.of_nat i) =
         bool_decide (is_Some (live jb mm !! htons (u16 (ntohs k + Z.of_nat i + 1))))).
Proof.
  intros G T R M Ck. destruct (good_pop jb now G) as (jb' & nack & E & G').
  exists jb', nack. revert E. unfold switch_jb_pop_nack.
  assert (video jb = true) as -> by (unfold video; by rewrite T). cbn [negb].
  destruct (nack_loop _ jb now 0 0) as [[[jb1 c] r]|] eqn:E; [|done].
  destruct (nack_loop_exact _ _ _ _ _ mm _ _ _ Ck R M (or_introl eq_refl) E) as ((h & -> & Rh) & Lo).
  cbv zeta. change (missing_seq_hash (jb <| missing_seq_hash := h |>)) with h.
  assert (Ml : forall k v, live jb mm !! k = Some v -> mm !! k = Some v)
    by (intros k v [Hk _]%map_lookup_filter_Some; done).
  destruct Lo as [[L0 ->]|(k & Hk & -> & Lk)].
  { cbn [Z.eqb negb andb]. intros [= <- <-]. exists (live jb mm). split_and!; try done. by left. }
  pose proof Hk as [v Hv]. destruct (M _ _ (Ml _ _ Hv)) as (Bk & Nv & _).
  rewrite swap16_swap16 by lia. pose proof (swap16_pos k Bk) as Np.
  destruct (Z.eqb_spec (swap16 k) 0) as [|_]; [done|]. rewrite (ih_find_repr _ _ _ Rh), Hv. cbn [found].
  destruct (Z.eqb_spec v 0); [done|]. cbn [negb andb].
  assert (K0 : keys16 (ih_insert (ih_delete h k) k (stamp (now c))) (<[k := stamp (now c)]> (live jb mm))).
  { rewrite <- insert_delete_eq. apply keys16_insert; [|lia]. apply keys16_delete. split; [done|].
    intros k' v' H'. destruct (M _ _ (Ml _ _ H')) as (? & _). lia. }
  assert (D0 : forall k', is_Some (<[k := stamp (now c)]> (live jb mm) !! k') <-> is_Some (live jb mm !! k'))
    by (intros k'; rewrite lookup_insert_is_Some'; naive_solver).
  pose proof (nack_more_bits now (swap16 k) (List.seq 0 16) _ (S c) 0 _ Ck K0) as B.
  destruct (foldl _ _ _) as [[h' c'] blp]. destruct B as ((mm' & K' & D') & Pb & Bt); [|done|].
  { intros k' v' [[<- <-]|[_ H']]%lookup_insert_Some; [apply Ck|]. by destruct (M _ _ (Ml _ _ H')) as (_ & ? & _). }
  intros [= <- <-]. exists mm'. destruct (nack_halves k (swap16 (u16 blp))) as [H1 H2]; [lia|apply swap16_range|].
  split_and!; [done|done|apply K'|intros k'; by rewrite D', D0|]. right. exists k. split_and!; [done|done|done|].
  intros i Hi. assert (Bu : 0 <= u16 blp < 65536) by (apply Z.mod_pos_bound; lia).
  rewrite H2, swap16_swap16 by done. unfold u16 at 1. rewrite (Z.mod_pow2_bits_low blp 16), Bt by lia.
  rewrite Z.bits_0. cbn [orb]. apply bool_decide_ext. rewrite D0. split; [by intros [_ ?]|].
  intros ?. split; [|done]. apply elem_of_seq. lia.
Qed.
(** ** Runs *)

Inductive jb_op :=
  | JPut (pk : rtp_packet) (n : Z) | JGet | JReset | JFrames (lo hi : Z)
  | JNack (now : nat -> Z)
  | JSession (ch : switch_channel) (var : option Z) | JSetFlag (fl : Z) | JClearFlag (fl : Z).

Definition jb_step (jb : switch_jb) (op : jb_op) : option switch_jb :=
  match op with
  | JPut pk n => match switch_jb_put_packet jb pk n with Ok (jb, _) => Some jb | _ => None end
  | JGet => match switch_jb_get_packet jb with Some (jb, _, _) => Some jb | None => None end
  | JReset => Some (switch_jb_reset jb)
  | JNack now => fst <$> switch_jb_pop_nack jb now
  | JFrames lo hi => Some (switch_jb_set_frames jb lo hi)
  | JSession ch var => Some (switch_jb_set_session jb ch var)
  | JSetFlag fl => Some (switch_jb_set_flag jb fl)
  | JClearFlag fl => Some (switch_jb_clear_flag jb fl)
  end.

Fixpoint jb_run (ops : list jb_op) (jb : switch_jb) : option switch_jb :=
  match ops with
  | [] => Some jb
  | op :: ops => match jb_step jb op with Some jb => jb_run ops jb | None => None end
  end.

Definition ok_lens (lo hi : Z) : Prop := 0 < lo <= hi /\ hi < UINT_MAX.
Definition ok_op (op : jb_op) : Prop :=
  match op with JPut pk n => fits (pk, n) | JFrames lo hi => ok_lens lo hi | _ => True end.

(** Writes ([Some]) and reads ([None]) of a stream, and what the reads return. *)
Fixpoint serve (ops : list (option (rtp_packet * Z))) (jb : switch_jb) : option (list (switch_status * jb_out)) :=
  match ops with
  | [] => Some []
  | Some (pk, n) :: ops => match switch_jb_put_packet jb pk n with Ok (jb, _) => serve ops jb | _ => None end
  | None :: ops =>
    match switch_jb_get_packet jb with
    | Some (jb, st, out) => cons (st, out) <$> serve ops jb
    | None => None
    end
  end.

Lemma good_create ty lo hi : ok_lens lo hi -> good (switch_jb_create ty lo hi).
Proof.
  intros [? ?]. split; [exists ∅|split; [unfold wf_len; cbn; lia|exists ∅; split; [apply ih_new_repr|done]]].
  constructor; try done; [constructor|intros id; split; [intros ?%elem_of_nil; done|by intros [? ?]]|by intros ? [? ?]|apply ih_new_repr].
Qed.

Lemma good_set_frames jb lo hi : ok_lens lo hi -> good jb -> good (switch_jb_set_frames jb lo hi).
Proof.
  intros [? ?] ([m W] & L & M). unfold switch_jb_set_frames. cbv zeta.
  split; [exists m; eapply wf_nodes_key; [|exact W]; repeat case_match; reflexivity|].
  split; [|eapply (eq_ind _ (fun x => exists mm, ih_repr x mm /\ _) M); repeat case_match; reflexivity].
  unfold wf_len. rupd. repeat (ifcase; rupd); lia.
Qed.

(** ** The order of the sort *)

Lemma cmp_total jb x y : le (node_cmp jb) x y \/ le (node_cmp jb) y x.
Proof. unfold le, node_cmp. destruct (nvisible jb x), (nvisible jb y); cbn; lia. Qed.

Lemma cmp_trans jb x y z : le (node_cmp jb) x y -> le (node_cmp jb) y z -> le (node_cmp jb) x z.
Proof. unfold le, node_cmp. destruct (nvisible jb x), (nvisible jb y), (nvisible jb z); cbn; lia. Qed.

Lemma hidden_first jb L : StronglySorted (le (node_cmp jb)) L ->
  L = filter (fun id => nvisible jb id = false) L ++ filter (fun id => nvisible jb id = true) L.
Proof.
  induction 1 as [|x L S IH F]; [done|]. rewrite !filter_cons. destruct (nvisible jb x) eqn:V.
  - assert (FV : Forall (fun y => nvisible jb y = true) L).
    { eapply Forall_impl; [exact F|]. intros y. unfold le, node_cmp. rewrite V. by destruct (nvisible jb y). }
    rewrite decide_False, decide_True by done.
    rewrite filter_none by (eapply Forall_impl; [exact FV|]; intros y E ?; congruence).
    rewrite filter_all by done. done.
  - rewrite decide_True, decide_False by done. cbn. by f_equal.
Qed.

Lemma used_sorted jb L : StronglySorted (le (node_cmp jb)) L ->
  StronglySorted Z.le ((fun id => ntohs (nseq jb id)) <$> filter (fun id => nvisible jb id = true) L).
Proof.
  induction 1 as [|x L S IH F]; [constructor|]. rewrite filter_cons. case_decide as V; [|done].
  cbn. constructor; [done|]. apply Forall_forall. intros k (y & -> & [Vy Hy]%list_elem_of_filter)%list_elem_of_fmap.
  rewrite Forall_forall in F. specialize (F y Hy). unfold le, node_cmp in F. rewrite V, Vy in F. cbn in F. lia.
Qed.

Lemma jb_step_good jb op : good jb -> ok_op op -> exists jb', jb_step jb op = Some jb' /\ good jb'.
Proof.
  intros G K. destruct op; cbn [jb_step ok_op] in *.
  - destruct K as [K1 K2]. destruct (good_put jb pk n G K1 K2) as (jb' & st & -> & ?). by eexists.
  - destruct (good_get jb G) as (jb' & st & out & -> & ?). by eexists.
  - eexists. split; [done|]. by apply good_reset.
  - eexists. split; [done|]. by apply good_set_frames.
  - destruct (good_pop jb now G) as (jb' & nack & -> & ?). by eexists.
  - eexists. split; [done|]. unfold switch_jb_set_session. gd.
  - eexists. split; [done|]. unfold switch_jb_set_flag. gd.
  - eexists. split; [done|]. unfold switch_jb_clear_flag. gd.
Qed.

(** C10. Every sequence of writes, reads, resets,
    requests for retransmission and changes of the settings, from a new buffer that is not put into time stamp
    mode, runs to its end if the packets written have at most [BODY_ROOM] (16400) bytes: no operation
    overruns a packet body and no read loops.  In the state it ends in each node
    of the pool is in the chain once, the counters count the nodes, the index
    maps sequence numbers to the visible nodes that have them, and the frame
    length lies between its bounds.  Longer packets run over the end of the node, and time stamp
    mode loses the link of index and nodes ([ts_mode_keeps_entry]). *)
Theorem jb_invariant ty lo hi ops :
  ok_lens lo hi -> Forall ok_op ops ->
  exists jb, jb_run ops (switch_jb_create ty lo hi) = Some jb /\ good jb.
Proof.
  intros L. pose proof (good_create ty lo hi L) as G. revert G. generalize (switch_jb_create ty lo hi).
  induction ops as [|op ops IH]; intros jb G F; [by exists jb|].
  apply Forall_cons in F as [K F]. destruct (jb_step_good jb op G K) as (jb' & E & G').
  cbn [jb_run]. rewrite E. by apply IH.
Qed.

(** [sort_free_nodes] keeps the nodes and puts those that are not visible
    first, in their order, and the visible ones after them by ascending sequence
    number. *)
Theorem jb_sort jb :
  node_list (sort_free_nodes jb) ≡ₚ node_list jb /\
  exists used, node_list (sort_free_nodes jb) = filter (fun id => nvisible jb id = false) (node_list jb) ++ used /\
    Forall (fun id => nvisible jb id = true) used /\
    StronglySorted Z.le ((fun id => ntohs (nseq jb id)) <$> used).
Proof.
  split; [apply sort_nodes_perm|]. set (L := node_list (sort_free_nodes jb)).
  assert (S : StronglySorted (le (node_cmp jb)) L) by (apply sort_nodes_sorted; [apply cmp_total|apply cmp_trans]).
  exists (filter (fun id => nvisible jb id = true) L).
  rewrite <- (sort_nodes_stable (node_cmp jb) (cmp_total jb) (cmp_trans jb) (fun id => nvisible jb id = false))
    by (intros x y Hx _; unfold le, node_cmp; by rewrite Hx).
  split_and!; [by apply hidden_first|by apply Forall_forall; intros x [? _]%list_elem_of_filter|].
  apply used_sorted. done.
Qed.

(** A write into an audio buffer makes the packet available under its
    sequence number and leaves the other packets as they were, unless the pool
    has reached its limit: then the buffer starts over, empty, without the packet. *)
Theorem jb_put_find jb pk n :
  good jb -> type jb = SJB_AUDIO -> queue_only jb = false -> highest_dropped_ts jb = 0 -> fits (pk, n) ->
  exists jb', switch_jb_put_packet jb pk n = Ok (jb', SWITCH_STATUS_SUCCESS) /\ good jb' /\
    ((node_limit jb < allocated_nodes jb /\
      forall s, switch_jb_get_packet_by_seq jb' s = (SWITCH_STATUS_NOTFOUND, NoPacket)) \/
     forall s, switch_jb_get_packet_by_seq jb' s =
       if s =? seq pk then (SWITCH_STATUS_SUCCESS, Packet (pk <| version := 2 |>) n)
       else switch_jb_get_packet_by_seq jb s).
Proof.
  intros G A Q D [F1 F2]. cbn [fst snd] in *. destruct (good_put jb pk n G F1 F2) as (j & st & E & G').
  pose proof G as ([m W] & _). destruct (put_audio jb m pk n W A Q D F1 F2) as (jb' & E' & P).
  rewrite E in E'. simplify_eq. exists jb'. split_and!; [done|done|].
  destruct P as [[L W']|[id []]]; [left|right]; [split; [done|]|]; intros s; unfold switch_jb_get_packet_by_seq.
  - rewrite (ih_find_repr _ ∅) by apply W'. done.
  - rewrite (ih_find_repr _ _ _ (wn_repr _ _ pi_wf0)), (ih_find_repr _ m) by apply W.
    destruct pi_node0 as [Np Nl]. destruct (Z.eqb_spec s (seq pk)) as [->|Ns].
    + rewrite lookup_insert_eq. by rewrite Np, Nl.
    + rewrite lookup_insert_ne by done. destruct (m !! s) as [i|] eqn:Hi; [|done].
      rewrite pi_other0; [done|]. intros ->. by destruct (pi_fresh0 s).
Qed.

(** A read of an audio buffer in the middle of a statistics period takes
    the packet of the target number, or where there is none yet the lowest: it
    is returned, is no longer in the buffer, the others are, and the target is
    the number after it.  A missing target is skipped with its number for
    concealment, and after more misses in a row than the frame length the buffer
    starts over. *)
Theorem jb_read_exact jb m :
  wf_nodes jb m -> steady jb ->
  match next_of jb m with
  | Some id => exists jb',
      switch_jb_get_packet jb = Some (jb', SWITCH_STATUS_SUCCESS, deliver (packet (node jb id), len (node jb id))) /\
      wf_nodes jb' (delete (nseq jb id) m) /\ (forall i, i <> id -> node jb' i = node jb i) /\
      nvisible jb' id = false /\ target_seq jb' = htons (u16 (ntohs (nseq jb id) + 1)) /\
      complete_frames jb' = complete_frames jb - 1
  | None => exists jb' st out, switch_jb_get_packet jb = Some (jb', st, out) /\
      if bool_decide (target_seq jb <> 0) && (frame_len jb <? u32 (consec_miss_count jb + 1))
      then st = SWITCH_STATUS_RESTART /\ out = NoPacket /\ wf_nodes jb' ∅ /\ complete_frames jb' = 0
      else st = SWITCH_STATUS_NOTFOUND /\ wf_nodes jb' m /\ (forall i, node jb' i = node jb i) /\
           complete_frames jb' = complete_frames jb /\
           (target_seq jb <> 0 -> out = Plc (u16 (target_seq jb)) 0 /\
                                  target_seq jb' = htons (u16 (ntohs (target_seq jb) + 1))) /\
           (target_seq jb = 0 -> out = Plc (u16 (last_target_seq jb)) 0 /\ target_seq jb' = 0)
  end.
Proof.
  intros W St. pose proof St as (A & (C & M) & _). destruct (next_of jb m) as [id|] eqn:E.
  - destruct (read_hit jb m id W St E) as (jb' & G & W' & _ & O & V & S). exists jb'.
    rewrite read_status in S. unfold status in S. injection S as ?? Cf Tg ????????.
    split_and!; try done. rewrite Cf. apply u32_small. unfold UINT_MAX in *. lia.
  - destruct (decide (target_seq jb = 0)) as [T|T].
    { eexists _, _, _. split; [by apply (read_none jb m)|]. rewrite bool_decide_false by lia.
      split_and!; try done; by apply (wf_nodes_key jb). }
    unfold next_of in E. destruct (Z.eqb_spec (target_seq jb) 0); [done|].
    eexists _, _, _. split; [by apply (read_miss jb m)|]. rewrite bool_decide_true by done. cbn [andb].
    assert (W2 : wf_nodes (missed jb) m) by (by apply (wf_nodes_key jb)).
    destruct (frame_len jb <? _); [|by split_and!].
    destruct (reset_spec (missed jb) m W2) as (W3 & _ & _ & C3). split_and!; try done.
    + by apply (wf_nodes_key _ _ _ (proj1 (frame_inc_rest (switch_jb_reset (missed jb)) 1))).
    + rewrite (proj1 (frame_inc_counts _ _)). by apply C3.
Qed.

#[local] Notation seqno p := (ntohs (seq (fst p))).

(** Streams as a sender means them: [next] is the number after the last one
    that was read (none before the first read), [q] are the packets that were
    written and not read, and [out] is what the reads are to give.  At most [hi] packets
    wait, of different numbers, written in any order; a read finds [lo] of them
    or more and the one that is due among them.  The first read takes the lowest
    number; the numbers after it go round at 2^16. *)
Inductive stream (lo hi : Z) : option Z -> list (rtp_packet * Z) -> list (option (rtp_packet * Z)) ->
    list (rtp_packet * Z) -> Prop :=
  | stream_end next q : stream lo hi next q [] []
  | stream_write next q p ops out : fits p -> seqno p ∉ ((fun x => seqno x) <$> q) -> zlen q < hi ->
      stream lo hi next (p :: q) ops out -> stream lo hi next q (Some p :: ops) out
  | stream_read next q p q' ops out : q ≡ₚ p :: q' -> lo <= zlen q ->
      match next with Some s => seqno p = s | None => forall x, x ∈ q' -> seqno p <= seqno x end ->
      stream lo hi (Some ((seqno p + 1) mod 2 ^ 16)) q' ops out -> stream lo hi next q (None :: ops) (p :: out).

#[local] Instance seqs_perm : Proper (Permutation ==> Permutation) seqs.
Proof. intros a b E. unfold seqs. by rewrite E. Qed.

Lemma stream_numbers lo hi next q ops out : stream lo hi next q ops out -> Forall fits q ->
  match next with
  | Some s => 0 <= s < 2 ^ 16 -> (fun p => seqno p) <$> out = (fun i => (s + i) mod 2 ^ 16) <$> seqZ 0 (zlen out)
  | None => exists s, (fun p => seqno p) <$> out = (fun i => (s + i) mod 2 ^ 16) <$> seqZ 0 (zlen out)
  end.
Proof.
  induction 1 as [next q|next q p ops out Fp N L _ IH|next q p q' ops out P L M _ IH]; intros F.
  - destruct next; [done|by exists 0].
  - apply IH. by constructor.
  - assert (B : 0 <= seqno p < 65536) by apply swap16_range. rewrite P in F. apply Forall_cons in F as [_ F].
    assert (E : (fun p => seqno p) <$> p :: out = (fun i => (seqno p + i) mod 2 ^ 16) <$> seqZ 0 (zlen (p :: out))).
    { rewrite fmap_cons, IH by (done || by apply Z.mod_pos_bound). rewrite length_cons, Nat2Z.inj_succ, (seqZ_cons 0 (Z.succ (zlen out))) by lia.
      rewrite fmap_cons, Z.add_0_r, (Z.mod_small (seqno p)) by lia. f_equal.
      replace (Z.pred (Z.succ (zlen out))) with (zlen out) by lia. rewrite <- (fmap_add_seqZ 1 0), <- list_fmap_compose.
      apply list_fmap_ext. intros _ i _. unfold compose. rewrite Zplus_mod_idemp_l. f_equal. lia. }
    destruct next as [s|]; [by subst s|by exists (seqno p)].
Qed.

Lemma swap16_fresh q (p : rtp_packet * Z) : Forall fits q -> seqno p ∉ ((fun x => seqno x) <$> q) -> seq (fst p) ∉ seqs q.
Proof.
  intros F N (x & E & Hx)%list_elem_of_fmap. apply N, list_elem_of_fmap. exists x. by rewrite E.
Qed.

Lemma serve_stream lo hi next q ops out : stream lo hi next q ops out -> forall jb t pc,
  holding jb q t pc lo hi -> NoDup (seqs q) -> Forall fits q -> zlen (node_list jb) <= hi -> 0 <= pc < PERIOD_LEN ->
  0 < lo <= hi -> 2 * hi <= UINT_MAX -> zlen q <= hi -> t = match next with Some s => htons s | None => 0 end ->
  match next with Some s => 0 <= s < 65536 | None => True end ->
  serve ops jb = Some ((fun p => (SWITCH_STATUS_SUCCESS, deliver p)) <$> out).
Proof.
  induction 1 as [next q|next q p ops out Fp N L _ IH|next q p q' ops out P L M _ IH];
    intros jb t pc Ho ND F NL Hpc Hlo Hi B Et Bs; [done| |].
  - destruct p as [pk n]. apply swap16_fresh in N; [|done].
    destruct (put_holding jb q pk n t pc lo hi Ho Fp ND N NL Hi) as (jb' & E & Ho' & NL'); [lia|].
    cbn [serve]. rewrite E. apply (IH jb' t pc); try done; [by constructor|by constructor|rewrite length_cons; lia].
  - apply (holding_perm _ _ _ _ _ _ _ P ND) in Ho. rewrite P in ND, F. rewrite P in L, B.
    destruct (get_holding jb q' p t pc lo hi Ho ND F) as (jb' & pc' & E & Ho' & Hpc' & NL'); try done; try lia.
    { subst t. destruct next as [s|].
      - right. subst s. apply swap16_swap16. by apply Forall_cons in F as [[? _] _].
      - left. split; [done|]. intros x [->|Hx]%elem_of_cons; [lia|by apply M]. }
    cbn [serve]. rewrite E. apply NoDup_cons in ND as [_ ND]. apply Forall_cons in F as [_ F].
    rewrite (IH jb' _ pc' Ho'); try done; try lia; [rewrite length_cons in B; lia|].
    by apply Z.mod_pos_bound.
Qed.

(** C3. What the buffer is for: of a stream of audio packets that are written in any order, with reads between the
    writes, every read delivers the packet that is due, with its length, so that
    packets come in the order of their numbers, each once, also where the numbers go round at 2^16.
    This is for packets that fit and have different numbers while they wait, at most [max_frame_len] of
    them at a time, and for reads that find [min_frame_len] of them and the one that is due (no
    packet lost or late).  The numbers do not go round among the packets
    that wait for the first read: see [order_lost_at_wrap]. *)
Theorem jb_reorders lo hi ops out : 0 < lo <= hi -> 2 * hi <= UINT_MAX -> stream lo hi None [] ops out ->
  serve ops (switch_jb_create SJB_AUDIO lo hi) = Some ((fun p => (SWITCH_STATUS_SUCCESS, deliver p)) <$> out) /\
  exists s, (fun p => seqno p) <$> out = (fun i => (s + i) mod 2 ^ 16) <$> seqZ 0 (zlen out).
Proof.
  intros Hlo Hi S. split; [|by apply (stream_numbers _ _ _ _ _ _ S)].
  apply (serve_stream lo hi None [] ops out S _ 0 0); try done; [|by constructor|by cbn; lia|cbn; lia].
  constructor; [|done]. destruct (good_create SJB_AUDIO lo hi) as ([m W] & _); [unfold ok_lens, UINT_MAX in *; lia|].
  exists m. assert (m = ∅) as ->.
  { apply map_empty. intros i. destruct (m !! i) as [id|] eqn:E; [|done].
    destruct (wn_hash _ _ W _ _ E) as (Hin & _). by apply elem_of_nil in Hin. }
  split_and!; [done|intros id [Hin _]; by apply elem_of_nil in Hin|done].
Qed.
End JitterBuffer.
Arguments switch_jb : clear implicits.

(** ** Concrete buffers, on the tables of [Hashtable] *)

Notation jitter_buffer := (switch_jb (switch_hashtable Z Z)).

Definition w_packet (s t m : Z) : rtp_packet := mk_packet 2 0 0 0 m 0 (swap16 s) (swap32 t) 0 [].
Definition after_put (jb : jitter_buffer) (pk : rtp_packet) (n : Z) : jitter_buffer :=
  match switch_jb_put_packet jb pk n with Ok (jb, _) => jb | _ => jb end.
Definition w_audio : jitter_buffer := switch_jb_create SJB_AUDIO 1 10.
Definition w_audio1 : jitter_buffer := after_put w_audio (w_packet 7 160 0) 172.
Definition w_video : jitter_buffer := switch_jb_create SJB_VIDEO 1 10.

Lemma w_lens : ok_lens 1 10.
Proof. unfold ok_lens, UINT_MAX. lia. Qed.
Lemma w_fits s t m n : 0 <= n <= 100 -> fits (w_packet s t m, n).
Proof. intros Hn. split; [apply swap16_range|unfold BODY_ROOM; cbn; lia]. Qed.

Lemma good_after_put (jb : jitter_buffer) pk n : good jb -> fits (pk, n) -> good (after_put jb pk n).
Proof.
  intros G [F1 F2]. unfold after_put. destruct (good_put jb pk n G F1 F2) as (jb' & st & -> & G'). done.
Qed.

(** In time stamp mode a read leaves the entry of its packet in
    [node_hash]: the packet takes its pseudo sequence number before the entry is
    looked for, so that [switch_jb_get_packet_by_seq] still finds a packet that
    was read, with the pseudo number in its header. *)
Theorem ts_mode_keeps_entry :
  let jb := after_put (switch_jb_ts_mode w_audio 160 8000) (w_packet 7 160 0) 172 in
  match switch_jb_get_packet jb with
  | Some (jb', st, _) => st = SWITCH_STATUS_SUCCESS /\ vcount jb' = 0 /\
      switch_jb_get_packet_by_seq jb' (htons 7) = (SWITCH_STATUS_SUCCESS, deliver (w_packet 1 160 0, 172))
  | None => False
  end.
Proof. vm_compute. split_and!; reflexivity. Qed.

(** [switch_jb_reset] clears [complete_frames] before it hides the nodes,
    and hiding the last packet of a video frame counts down: the counter of a
    reset buffer wraps, and the next read does not see that it is empty. *)
Theorem video_reset_wraps :
  let jb := after_put (after_put w_video (w_packet 7 160 0) 172) (w_packet 8 320 0) 172 in
  complete_frames jb = 1 /\ vcount (switch_jb_reset jb) = 0 /\
  complete_frames (switch_jb_reset jb) = UINT_MAX.
Proof. vm_compute. split_and!; reflexivity. Qed.

Lemma jb_invariant_witness :
  exists jb, jb_run [JPut (w_packet 7 160 0) 12; JGet; JFrames 2 20; JReset] w_audio = Some jb /\ good jb.
Proof.
  apply (jb_invariant SJB_AUDIO 1 10); [exact w_lens|].
  repeat (apply Forall_cons; split); [apply w_fits; lia|exact I|unfold ok_op, ok_lens, UINT_MAX; lia|exact I|].
  apply Forall_nil. exact I.
Defined.

Lemma jb_put_find_witness :
  exists jb', switch_jb_put_packet w_audio (w_packet 7 160 0) 12 = Ok (jb', SWITCH_STATUS_SUCCESS) /\ good jb'.
Proof.
  destruct (jb_put_find w_audio (w_packet 7 160 0) 12) as (jb' & E & G & _);
    [apply good_create; exact w_lens|reflexivity|reflexivity|reflexivity|apply w_fits; lia|].
  exists jb'. split; [exact E|exact G].
Defined.

Lemma jb_sort_witness :
  let jb := after_put (after_put w_audio (w_packet 7 160 0) 172) (w_packet 3 80 0) 172 in
  node_list (sort_free_nodes jb) ≡ₚ node_list jb /\ length (node_list jb) = 2%nat.
Proof.
  intros jb. split; [|vm_compute; reflexivity].
  destruct (jb_sort jb) as [P _]. exact P.
Defined.

Lemma jb_read_exact_witness :
  exists m, wf_nodes w_audio1 m /\ steady w_audio1 /\
    match next_of w_audio1 m with
    | Some id => exists jb', switch_jb_get_packet w_audio1 =
        Some (jb', SWITCH_STATUS_SUCCESS, deliver (packet (node w_audio1 id), len (node w_audio1 id)))
    | None => exists jb' st out, switch_jb_get_packet w_audio1 = Some (jb', st, out)
    end.
Proof.
  assert (G : good w_audio1).
  { apply good_after_put; [apply good_create; exact w_lens|split; [apply swap16_range|unfold BODY_ROOM; cbn; lia]]. }
  destruct G as [[m W] _]. exists m.
  assert (S : steady w_audio1).
  { unfold steady. vm_compute. split_and!; try reflexivity; try discriminate. left. discriminate. }
  split; [exact W|]. split; [exact S|]. pose proof (jb_read_exact w_audio1 m W S) as R.
  destruct (next_of w_audio1 m) as [id|].
  - destruct R as (jb' & E & _). exists jb'. exact E.
  - destruct R as (jb' & st & out & E & _). exists jb', st, out. exact E.
Defined.

(** Written in the wrong order, read in between, over the end of the numbers. *)
Definition w_stream : list (option (rtp_packet * Z)) :=
  [Some (w_packet 65535 160 0, 12); Some (w_packet 65534 0 0, 12); None; Some (w_packet 1 480 0, 12); None;
   Some (w_packet 0 320 0, 12); None; None].
Definition w_served : list (rtp_packet * Z) :=
  [(w_packet 65534 0 0, 12); (w_packet 65535 160 0, 12); (w_packet 0 320 0, 12); (w_packet 1 480 0, 12)].

Lemma jb_reorders_witness :
  serve w_stream w_audio = Some ((fun p => (SWITCH_STATUS_SUCCESS, deliver p)) <$> w_served).
Proof.
  apply (jb_reorders 1 10 w_stream w_served); [lia|unfold UINT_MAX; lia|].
  repeat first
    [ apply stream_end
    | apply stream_write; [apply w_fits; lia|vm_compute; set_solver|cbn; lia|]
    | eapply stream_read;
        [first [reflexivity|apply Permutation_swap]|cbn; lia
        |first [reflexivity|intros x ->%list_elem_of_singleton; vm_compute; discriminate]|] ].
Defined.

(** The first read looks for the lowest number: where the numbers of the packets that wait for it
    go round, it takes one from behind the end, and those before it are never delivered. *)
Example order_lost_at_wrap :
  serve [Some (w_packet 65534 0 0, 12); Some (w_packet 65535 160 0, 12); Some (w_packet 0 320 0, 12); None; None; None] w_audio =
  Some [(SWITCH_STATUS_SUCCESS, deliver (w_packet 0 320 0, 12)); (SWITCH_STATUS_NOTFOUND, Plc (htons 1) 0); (SWITCH_STATUS_RESTART, NoPacket)].
Proof. vm_compute. reflexivity. Qed.
